(* ===== verification/_CoqProject ===== *)
-Q . S2P
Prelude.v
Addr.v
AddrText.v
Types.v
Proto.v
AsPath.v
Wire.v
Header.v
Notification.v
Open.v
Update.v
UpdateFacts.v
UpdateRoundtrip.v
Rfc7606.v
Message.v
CodecTheorems.v
Fsm.v
RouteMap.v
Rtr.v
Roa.v
RtrClient.v
RpkiTheorems.v
Policy.v
Route.v
DaemonPolicy.v
PolicyTheorems.v
BestPath.v
LocRib.v
RibTheorems.v
AdjRib.v
Outbound.v
OutboundTheorems.v
Deferral.v
Session.v
Capabilities.v
HandleUpdate.v
ImportTheorems.v
DaemonState.v
Propagate.v
Graceful.v
PeerLifecycle.v
RouteUpdate.v
EventLoop.v
DaemonFacts.v
DaemonInvariant.v
DaemonTheorems.v
PeerTheorems.v
PropagationTheorems.v
IdleHold.v
RouteTheorems.v
KernelFib.v
KernelFibTheorems.v
FibManager.v
FibManagerTheorems.v
SessionTheorems.v
Grpc.v
ApiClient.v
GrpcTheorems.v
Mrt.v
MrtTheorems.v
PeerStore.v
Link.v
Transit.v
Netlink.v
Metrics.v
Cli.v
CliTheorems.v
Dashboard.v
DashboardTheorems.v
TcpMd5.v
Replay.v
RpkiWatch.v
