(* ===== verification/Prelude.v ===== *)
(** * Verification of pathvector, a BGP-4 speaker in Rust

    pathvector receives BGP messages from its peers, keeps their routes in three
    kinds of routing table, chooses a best route per prefix, announces it to the
    other peers as its policies allow, and writes it to the kernel.  Its crates
    under [src/] form a pipeline, and so do the files of this library:

    - bytes of a TCP stream are cut into frames and decoded
      ([pathvector-session/src/framing], [message]; values of
      [pathvector-types]): [Wire] (the cursor), [Header], [Notification], [Open],
      [Update], [Message] (dispatch, encoder, [BgpCodec]);
    - messages drive the session state machine ([pathvector-session/src/fsm],
      [Fsm]), and the session task around it carries out its actions, keeps its
      timers and resolves connection collisions ([transport], [Session]);
    - routes are checked against policies ([pathvector-policy]): [Policy] (the
      engine, over any [BgpRoute]) and [DaemonPolicy] (the per-peer policies
      [pathvectord/src/daemon] builds and edits, with the roles of RFC 9234 and
      route origin validation);
    - origin validation reads a cache that an RTR client keeps
      ([pathvector-rpki]): [Rtr] (the PDU codec), [Roa] (the table), [RtrClient];
      when it changes the daemon judges its routes again ([RpkiWatch]);
    - accepted routes enter the RIBs ([pathvector-rib]): [Route], [BestPath] (the
      decision process), [LocRib], [AdjRib], and leave through [Outbound];
    - the daemon ([pathvectord/src/daemon]) holds a table of each kind per peer:
      [DaemonState], with its event loop [EventLoop] and the handlers this calls,
      [HandleUpdate], [RouteUpdate], [Propagate], [PeerLifecycle], [Graceful],
      [Deferral], [Capabilities];
    - best routes go to the kernel, whose own table decides what is reachable
      ([pathvector-sys/src/fib], [pathvectord/src/fib.rs]): [KernelFib],
      [FibManager], [Netlink];
    - operators use a gRPC service and its client ([pathvectord/src/grpc.rs],
      [pathvector-client]): [Proto], [AddrText], [Grpc], [ApiClient]; the peers they
      add are kept in a file ([config.rs], [main.rs]): [PeerStore];
    - the command-line tool and its live dashboard ([pathvector]) are written over
      that client: [Cli], [Dashboard];
    - table dumps can be replayed to a daemon ([pathvector-mrt]): [Mrt], [Replay];
    - peers with a key are dialled with signed segments ([pathvector-sys/src/tcp.rs]):
      [TcpMd5].

    ** How the code is modelled

    Bytes and machine integers are [Z] with width predicates ([is_u8], ...);
    truncating casts are written out ([as_u8], ...).  Fallible code returns an
    [Outcome], which tells a Rust error ([Err]) from a panic ([Panic]: indexing,
    [expect], [unreachable!]).  The message decoders are written in the [Dec]
    monad of [Wire], which threads the cursor.  A [while cursor.remaining() > 0]
    loop is [while_dec]: it runs with the number of unread bytes plus one as
    fuel, and since each iteration consumes a byte [OutOfFuel] is proved
    unreachable for every input, so the totality theorems are about termination
    too.  The loop of the dump reader ([parse_loop] of [Mrt]) has the same fuel and
    a record is at least its header ([parse_loop_ends]); the paging loop of the
    client ([list_all_loop] of [ApiClient]) needs as many turns as the table has
    pages ([list_all_routes_exact]).  [seen[tc as usize]] and the like are lookups
    whose failure is a panic.

    Hash maps are stdpp's [gmap]; where the code iterates over one, the order is
    an argument that may be any permutation ([HashOrder] of [LocRib],
    [group_order] of [BestPath]), so no result rests on an order the program does
    not control.  Clock readings are arguments, or functions where a loop reads
    the clock once per peer.  Code the source has once per address family is
    written once over [Family]; where the two copies differ the model does too
    (MRAI, the reflection attributes, the next hop of a group).

    Tasks that run side by side share their state through locks held for a whole
    handler, so an interleaving is a list of steps: [DaemonOp] of
    [DaemonInvariant] (event loop, commands, management interface, kernel table,
    RPKI), [Arm] of [EventLoop] and of [Session] for the arms of a [select!], and
    the steps of the background writer in [FibManager].  A bounded channel is its
    free slots and what was sent; the writes of a session succeed as the
    environment decides.

    Interfaces stand for code that is not under [src/], each with the documented
    behaviour the code relies on and an instance the witnesses use:
    [IpPrefixOps]/[IpPrefixLaws] of [Addr] (the prefixes of [ipnetx];
    [ModelPrefix]), [RouteMapOps]/[RouteMapLaws] of [RouteMap] (the
    longest-prefix-match table of [routemap]; [ModelRouteMap]), [NlriText] of
    [Proto] (prefixes as text; [ModelText]), [RouteMessageOps] of [KernelFib]
    (netlink messages), [KernelRoutesOps] of [FibManager] (the kernel's table;
    [ModelKernel]), [RouteBuilderOps] and [RtnetlinkOps] of [Netlink] (the message
    builder and the kernel that executes requests; [ModelNetlink], and [FibWriter]
    over them is in turn an instance of [KernelRoutesOps]) and [SidecarText] of
    [PeerStore] (TOML; [ModelSidecar]).  [DaemonClient] of [Cli] is the source's own
    trait between the tool and a client; [pathvector_client] of [CliTheorems] is the
    real client over the handlers as an instance of it.  [TcpStack] of [TcpMd5] is the
    kernel's sockets ([ModelTcp]).
    Next-hop reachability and IGP metrics are any [NextHopOracle].

    ** What each file holds

    - [Prelude]: outcomes, machine integers, big-endian bytes, list lemmas,
      tactics and hints.
    - [Addr], [AddrText], [Types], [AsPath]: prefixes, addresses and their text, AS
      numbers, roles, communities, next hops, AS paths ([pathvector-types]).
    - [Wire], [Header], [Notification], [Open], [Update], [Message]: the codec.
      [UpdateFacts] proves decoded updates well formed, [UpdateRoundtrip] that
      the encoder is inverted, [Rfc7606] specifies the treatment of malformed
      attributes.  [CodecTheorems]: totality of the decoder, round trips,
      reassembly of a stream from any chunks, RFC 7606.
    - [Fsm]: the six state handlers of [fsm/mod.rs] over a step function, with
      invariants of every run: announcements bracket the session, the UPDATEs
      delivered are those of a session that is up, timers match the state, an
      established session was validated.
    - [Session], [SessionTheorems]: the task of [transport/mod.rs], arm by arm; the
      daemon believes a session up exactly while it is established, as long as its
      writes succeed, and both ends of a collision keep the same connection.
    - [RouteMap], [Rtr], [Roa], [RtrClient], [RpkiTheorems]: the ROA cache
      refines the RFC 6811 verdict on the payloads a history leaves; a completed
      synchronisation applies exactly the PDUs of its answer; PDU round trips.
    - [Policy], [DaemonPolicy], [PolicyTheorems]: first-match semantics, the
      policy tables refine the configuration and its defaults after any edits, no
      valley routes under RFC 9234 roles.
    - [RpkiWatch]: the RTR client, the task of [install_rpki] that watches it and the
      daemon as turns of a [World]: once the watch has caught up with a client at
      rest after a completed synchronisation no route of a configured peer is
      invalid.  Peers added at run time and sessions that come up are no turns of it.
    - [Route], [BestPath], [LocRib], [RibTheorems]: where metrics and identifiers
      are known alike the selected route is the winner by the criteria of RFC 4271,
      which [BestPath] writes out apart from the comparison of the code; the RIB
      refines the map of announced routes; its change reports are complete.
    - [AdjRib], [Outbound], [OutboundTheorems]: the per-peer tables and the
      outbound pipeline of [pathvectord/src/outbound.rs]: a peer that follows the
      decisions holds exactly what the policies allow, external peers are sent no
      internal attributes, and a flush is complete and within the message limit.
    - [HandleUpdate], [ImportTheorems]: the import of a received UPDATE
      ([handle_update] of [daemon/route.rs]) refines a plan of withdrawals and
      imports read off the message; malformed announcements are treated as
      withdrawn; soft reconfiguration leaves exactly the accepted routes.
    - [Deferral], [Capabilities]: when a restarting speaker releases each family,
      and what a session advertises.
    - [DaemonState], [Propagate], [Graceful], [PeerLifecycle], [RouteUpdate],
      [EventLoop]: the daemon.  A handler of the source is a function on the state;
      the fields kept once per family are the record [Fam].
    - [DaemonFacts], [DaemonInvariant], [DaemonTheorems]: frames of the operations
      ([strip]), the invariant [daemon_ok], and that no run of the tasks panics.
      [PeerTheorems]: graceful restart retains and resynchronises, an end without
      it forgets.  [IdleHold]: a peer held idle stays so until its deadline,
      whatever the tasks do.  [PropagationTheorems]: every established peer is
      brought exactly to what it should be told, MRAI keeps announcements apart.
      [RouteTheorems]: an UPDATE changes its peer's tables, the RIB and the kernel
      calls as specified, and prefix limits hold.
    - [KernelFib], [KernelFibTheorems]: the snapshot of the kernel table answers
      longest-prefix lookups of the routes the kernel has, as long as it has one per
      prefix; over it the decision is order-independent.  [FibManager],
      [FibManagerTheorems]: the background writer comes to rest, and the kernel ends
      with the best routes.  [Netlink]: the requests of [FibWriter] and the clean-up
      at start-up: each write has the effect the manager expects or none, the
      daemon's own routes do not wake it, and a start removes what an earlier run
      left.
    - [Proto], [Grpc], [ApiClient], [GrpcTheorems]: the conversions, every handler
      of the five services and every call of the client: paging lists each best
      route once, a batch is originated as a whole or refused, an originated route
      is read back.
    - [Metrics]: what the daemon reports to its gauges and counters along a run: the
      session and origination gauges are exact as long as session events are not
      drained in bursts; the gauge of kernel routes drifts by the writes that
      replace a route.
    - [PeerStore]: the store of added peers, the merge at start-up and the admission
      of inbound connections, over the runs of [DaemonInvariant]: added peers
      outlive the daemon even if it dies during a write.
    - [Cli], [CliTheorems]: the commands of the tool, what they call and what they
      print: an originated route is then shown line by line as typed (an IPv6 one
      without its next hop); input that cannot be read never reaches the daemon.
    - [Dashboard], [DashboardTheorems]: the dashboard's state over the two event
      streams.  Its routes are the best IPv4 routes of the daemon along the steps of
      [RouteStep]; an ended stream is forgotten and IPv6 changes are not reported.
    - [Mrt], [MrtTheorems]: the reader of table dumps and the speaker that replays
      them: what a dump holds is what a peer decodes.  [Replay]: the run of the
      replayer: its wait ends by its deadline, and it reports the size the daemon's
      table kept for the quiet time.
    - [TcpMd5]: the socket option with the key of a peer, in memory of either byte
      order, and the dial: a connection it returns is signed unless the kernel
      answered that it cannot sign when this dial handed it the key.
    - [Link]: both ends of an IPv4 session composed: a batch of decisions is packed,
      encoded, cut into chunks, decoded and imported, and the receiver's tables
      then hold exactly the decided routes.  [Transit]: whatever is received, the
      IPv4 routes the daemon passes on can be encoded and are decoded by the next
      peer.  Both are about peers with four-octet AS numbers.

    Theorems whose names tell of a loss, a disruption or a divergence show, for
    inputs of a described shape, behaviour that differs from what the code's
    comments or the RFCs it cites promise; each is listed with its place in the
    source in the findings of the development.

    ** Not modelled

    Sockets and the bytes of netlink messages ([pathvector-sys]), the metrics
    endpoint, logging, the parsing of the configuration file and of command lines
    (generated by clap), the start of the gRPC server and tonic itself, the drawing
    of the dashboard's widgets and figures printed in floating point, and the tools
    that only test the daemon ([pathvector-e2e], [pathvector-stress]): they move data
    in and out or draw it.  [pathvector-bmp] is a placeholder.  In [Session] TCP
    connections are identities; what they are signed with is the matter of [TcpMd5].
    Of the text of values only addresses, prefixes and the lines the tool prints are
    modelled. *)
From Stdlib Require Import ZArith Lia Bool.
From stdpp Require Import base tactics numbers decidable list.

Open Scope Z_scope.
#[global] Set Default Goal Selector "!".

(** ** Outcomes of Rust functions

    [Ok]/[Err] are the two variants of [Result]; [Panic] is a Rust panic (index
    out of bounds, failed [expect], [unreachable!], [panic!]); [OutOfFuel] is
    only produced by a loop model whose fuel ran out, and is proved unreachable
    wherever a loop is modelled. *)
Inductive Outcome (E A : Type) : Type :=
| Ok (a : A)
| Err (e : E)
| Panic
| OutOfFuel.
Arguments Ok {E A} a.
Arguments Err {E A} e.
Arguments Panic {E A}.
Arguments OutOfFuel {E A}.

#[export] Instance outcome_ret E : MRet (Outcome E) := fun A a => Ok a.
#[export] Instance outcome_bind E : MBind (Outcome E) := fun A B f m =>
  match m with
  | Ok a => f a
  | Err e => Err e
  | Panic => Panic
  | OutOfFuel => OutOfFuel
  end.

(** [o.ok_or(e)] and [r.map_err(..)] on an absent value. *)
Definition ok_or {E A} (o : option A) (e : E) : Outcome E A :=
  match o with Some a => Ok a | None => Err e end.

(** A result a Rust function can actually return: no panic, no divergence. *)
Definition returns {E A} (o : Outcome E A) : bool :=
  match o with Ok _ | Err _ => true | _ => false end.

(** ** Machine integers: width predicates and truncating casts *)
Definition is_u8 (z : Z) : Prop := 0 <= z < 256.
Definition is_u16 (z : Z) : Prop := 0 <= z < 65536.
Definition is_u32 (z : Z) : Prop := 0 <= z < 4294967296.
Definition is_u128 (z : Z) : Prop := 0 <= z < 2 ^ 128.

(** [x as u8], [x as u16], [x as u32] *)
Definition as_u8 (z : Z) : Z := z mod 256.
Definition as_u16 (z : Z) : Z := z mod 65536.
Definition as_u32 (z : Z) : Z := z mod 4294967296.

(** [xs.len()] as an integer *)
Definition len {A} (l : list A) : Z := Z.of_nat (length l).

Lemma len_to_nat {A} (l : list A) : Z.to_nat (len l) = length l.
Proof. apply Nat2Z.id. Qed.

(** [usize::div_ceil] *)
Definition div_ceil (a b : Z) : Z := (a + b - 1) / b.

(** [std::cmp::Ordering::then] *)
Definition then_cmp (a b : comparison) : comparison :=
  match a with Eq => b | _ => a end.

(** ** Lexicographic boolean reflection helpers *)
Ltac zbool :=
  repeat match goal with
  | H : (_ =? _) = true |- _ => apply Z.eqb_eq in H
  | H : (_ =? _) = false |- _ => apply Z.eqb_neq in H
  | H : (_ <? _) = true |- _ => apply Z.ltb_lt in H
  | H : (_ <? _) = false |- _ => apply Z.ltb_ge in H
  | H : (_ <=? _) = true |- _ => apply Z.leb_le in H
  | H : (_ <=? _) = false |- _ => apply Z.leb_gt in H
  | H : (_ && _)%bool = true |- _ => apply andb_true_iff in H; destruct H
  | H : (_ || _)%bool = false |- _ => apply orb_false_iff in H; destruct H
  | H : negb _ = true |- _ => apply negb_true_iff in H
  | H : negb _ = false |- _ => apply negb_false_iff in H
  | H : bool_decide _ = true |- _ => apply bool_decide_eq_true in H
  | H : bool_decide _ = false |- _ => apply bool_decide_eq_false in H
  end.

(** Unfold the width predicates and decide linear arithmetic. *)
Ltac widths := unfold is_u8, is_u16, is_u32, is_u128, as_u8, as_u16, as_u32, len in *.
Ltac blia := widths; lia.

(** [Forall] over an explicit list. *)
Ltac flist := repeat lazymatch goal with
  | |- Forall _ [] => apply Forall_nil_2
  | |- Forall _ (_ :: _) => apply Forall_cons_2
  | |- Forall _ (_ ++ _) => apply Forall_app_2
  end; try done.

(** ** Big-endian byte strings: [to_be_bytes] / [from_be_bytes] *)
Fixpoint be_bytes (n : nat) (v : Z) : list Z :=
  match n with
  | O => []
  | S n' => be_bytes n' (v / 256) ++ [v mod 256]
  end.

Definition from_be (l : list Z) : Z := fold_left (fun acc b => acc * 256 + b) l 0.

Definition u16_be (v : Z) : list Z := be_bytes 2 v.
Definition u32_be (v : Z) : list Z := be_bytes 4 v.
Definition u128_be (v : Z) : list Z := be_bytes 16 v.

(** All elements are bytes. *)
Notation bytes l := (Forall is_u8 l).

Lemma be_bytes_length n v : length (be_bytes n v) = n.
Proof.
  revert v; induction n as [|n IH]; intros v; simpl; [done|].
  rewrite length_app, IH; simpl; lia.
Qed.

Lemma be_bytes_bytes n v : bytes (be_bytes n v).
Proof.
  revert v; induction n as [|n IH]; intros v; simpl; [constructor|].
  apply Forall_app; split; [apply IH|].
  constructor; [|constructor]. unfold is_u8. apply Z.mod_pos_bound; lia.
Qed.

Lemma from_be_snoc l b : from_be (l ++ [b]) = from_be l * 256 + b.
Proof. unfold from_be. by rewrite fold_left_app. Qed.

Lemma from_be_be_bytes n v : from_be (be_bytes n v) = v mod 256 ^ Z.of_nat n.
Proof.
  revert v; induction n as [|n IH]; intros v.
  - simpl. by rewrite Z.mod_1_r.
  - cbn [be_bytes]. rewrite from_be_snoc, IH.
    replace (256 ^ Z.of_nat (S n)) with (256 * 256 ^ Z.of_nat n)
      by (rewrite Nat2Z.inj_succ, Z.pow_succ_r; lia).
    assert (0 < 256 ^ Z.of_nat n) by (apply Z.pow_pos_nonneg; lia).
    rewrite Z.rem_mul_r by lia. ring.
Qed.

Lemma from_be_bound l : bytes l -> 0 <= from_be l < 256 ^ Z.of_nat (length l).
Proof.
  induction l as [|b l IH] using rev_ind; intros Hb; [cbn; lia|].
  apply Forall_app in Hb as [Hl Hb]. inversion_clear Hb as [|? ? Hb' _].
  specialize (IH Hl). rewrite from_be_snoc, length_app. simpl length.
  rewrite Nat2Z.inj_add, Z.pow_add_r by lia.
  change (256 ^ Z.of_nat 1) with 256. unfold is_u8 in Hb'. nia.
Qed.

Lemma be_bytes_from_be l : bytes l -> be_bytes (length l) (from_be l) = l.
Proof.
  induction l as [|b l IH] using rev_ind; intros Hb; [done|].
  apply Forall_app in Hb as [Hl Hb]. inversion_clear Hb as [|? ? Hb' _].
  rewrite length_app, Nat.add_1_r, from_be_snoc. cbn [be_bytes].
  unfold is_u8 in Hb'.
  rewrite Z.div_add_l, (Z.div_small b), Z.add_0_r by lia.
  rewrite Z.add_comm, Z.mod_add, Z.mod_small by lia. by rewrite IH.
Qed.

Lemma be_bytes_split n m v :
  be_bytes (n + m) v = be_bytes n (v / 256 ^ Z.of_nat m) ++ be_bytes m v.
Proof.
  revert v; induction m as [|m IH]; intros v.
  - by rewrite Nat.add_0_r, Z.div_1_r, app_nil_r.
  - rewrite Nat.add_succ_r. cbn [be_bytes]. rewrite IH, <- app_assoc.
    f_equal. f_equal. rewrite Z.div_div by lia. f_equal.
    rewrite Nat2Z.inj_succ, Z.pow_succ_r by lia. lia.
Qed.

Lemma be_bytes_zero n : be_bytes n 0 = replicate n 0.
Proof.
  induction n as [|n IH]; [done|]. cbn [be_bytes].
  change (0 / 256) with 0. change (0 mod 256) with 0.
  rewrite IH. change [0] with (replicate 1 0).
  rewrite <- replicate_add. f_equal. lia.
Qed.

Lemma be_bytes_mod n v : be_bytes n (v mod 256 ^ Z.of_nat n) = be_bytes n v.
Proof.
  rewrite <- from_be_be_bytes. rewrite <- (be_bytes_length n v) at 1.
  apply be_bytes_from_be, be_bytes_bytes.
Qed.

(** Width-specific corollaries. *)
Lemma u16_be_roundtrip v : is_u16 v -> from_be (u16_be v) = v.
Proof.
  intros. unfold u16_be. rewrite from_be_be_bytes.
  change (256 ^ Z.of_nat 2) with 65536. apply Z.mod_small. blia.
Qed.
Lemma u32_be_roundtrip v : is_u32 v -> from_be (u32_be v) = v.
Proof.
  intros. unfold u32_be. rewrite from_be_be_bytes.
  change (256 ^ Z.of_nat 4) with 4294967296. apply Z.mod_small. blia.
Qed.
Lemma u128_be_roundtrip v : is_u128 v -> from_be (u128_be v) = v.
Proof.
  intros. unfold u128_be. rewrite from_be_be_bytes.
  change (256 ^ Z.of_nat 16) with (2 ^ 128). apply Z.mod_small. blia.
Qed.

(** ** Lists *)
Lemma Forall2_impl_in {A B} (R Q : A -> B -> Prop) l k :
  Forall2 R l k -> (forall x y, x ∈ l -> R x y -> Q x y) -> Forall2 Q l k.
Proof.
  induction 1 as [|x y l k Hxy _ IH]; intros H; constructor; [apply H; [left|done]|].
  apply IH. intros x' y' Hx'. apply H. by right.
Qed.

Lemma NoDup_fst_filter {A B} (g : A * B -> bool) (l : list (A * B)) :
  NoDup l.*1 -> NoDup (List.filter g l).*1.
Proof.
  induction l as [|x l IH]; simpl; [constructor|]. intros [Hp Hn]%NoDup_cons.
  destruct (g x); [|by apply IH]. apply NoDup_cons. split; [|by apply IH].
  intros (y & Ey & Hy)%list_elem_of_fmap. apply list_elem_of_In, filter_In in Hy as [Hy _].
  apply Hp. apply list_elem_of_fmap. exists y. by rewrite list_elem_of_In.
Qed.

Lemma find_first_Some {A} (p : A -> bool) l x :
  List.find p l = Some x -> x ∈ l /\ p x = true.
Proof. intros H%find_some. by rewrite list_elem_of_In. Qed.

Lemma existsb_elem {A} (p : A -> bool) l :
  existsb p l = true <-> exists x, x ∈ l /\ p x = true.
Proof.
  rewrite existsb_exists. by setoid_rewrite list_elem_of_In.
Qed.

Lemma forallb_Forall {A} (p : A -> bool) l :
  forallb p l = true <-> Forall (fun x => p x = true) l.
Proof. rewrite forallb_forall, List.Forall_forall. done. Qed.

Lemma existsb_false_Forall {A} (p : A -> bool) l :
  existsb p l = false <-> Forall (fun x => p x = false) l.
Proof.
  induction l as [|x l IH]; simpl; [by split|].
  rewrite orb_false_iff, IH. split; [by intros []; constructor|].
  by inversion_clear 1.
Qed.

(** [Iterator::find_map] *)
Fixpoint find_map {A B} (f : A -> option B) (l : list A) : option B :=
  match l with
  | [] => None
  | x :: l' => match f x with Some b => Some b | None => find_map f l' end
  end.

Lemma find_map_None {A B} (f : A -> option B) l :
  find_map f l = None <-> Forall (fun x => f x = None) l.
Proof.
  induction l as [|x l IH]; simpl; [by split|].
  destruct (f x) eqn:E.
  - split; [done|]. inversion_clear 1; congruence.
  - rewrite IH. split; [by constructor|]. by inversion_clear 1.
Qed.

Lemma find_map_Some {A B} (f : A -> option B) l b :
  find_map f l = Some b -> exists x, x ∈ l /\ f x = Some b.
Proof.
  induction l as [|x l IH]; simpl; [done|].
  destruct (f x) eqn:E; intros H.
  - simplify_eq. exists x. split; [left|done].
  - destruct (IH H) as (y & ? & ?). exists y. split; [by right|done].
Qed.

Lemma u16_be_length v : length (u16_be v) = 2%nat.
Proof. apply be_bytes_length. Qed.
Lemma u32_be_length v : length (u32_be v) = 4%nat.
Proof. apply be_bytes_length. Qed.
Lemma u128_be_length v : length (u128_be v) = 16%nat.
Proof. apply be_bytes_length. Qed.
Lemma u16_be_bytes v : bytes (u16_be v).
Proof. apply be_bytes_bytes. Qed.
Lemma u32_be_bytes v : bytes (u32_be v).
Proof. apply be_bytes_bytes. Qed.
Lemma u128_be_bytes v : bytes (u128_be v).
Proof. apply be_bytes_bytes. Qed.
Lemma as_u8_is_u8 v : is_u8 (as_u8 v).
Proof. unfold is_u8, as_u8. apply Z.mod_pos_bound; lia. Qed.
Lemma as_u16_is_u16 v : is_u16 (as_u16 v).
Proof. unfold is_u16, as_u16. apply Z.mod_pos_bound; lia. Qed.
Lemma as_u32_is_u32 v : is_u32 (as_u32 v).
Proof. unfold is_u32, as_u32. apply Z.mod_pos_bound; lia. Qed.

#[export] Hint Resolve be_bytes_bytes u16_be_bytes u32_be_bytes u128_be_bytes : pv.
#[export] Hint Resolve as_u8_is_u8 as_u16_is_u16 as_u32_is_u32 : pv.
#[export] Hint Rewrite @length_app be_bytes_length u16_be_length u32_be_length u128_be_length : pv_len.

#[global] Arguments be_bytes n v : simpl never.
#[global] Arguments u16_be v : simpl never.
#[global] Arguments u32_be v : simpl never.
#[global] Arguments u128_be v : simpl never.
