(* ===== verification/Addr.v ===== *)
(** Addresses, prefixes and NLRI ([pathvector-types/src/nlri.rs]).

    [Nlri<A>] wraps [IpPrefix<A>] of the third-party crate [ipnetx], whose
    source is not in the repository: the prefix type and its operations are the
    class [IpPrefixOps], and what the repository relies on (host bits preserved
    by [new], length check against the address width, CIDR masking) is
    [IpPrefixLaws].  [ModelPrefix] is a concrete instance used by witnesses. *)
From S2P Require Import Prelude.
From Stdlib Require Import ZArith Lia Bool.
From stdpp Require Import base tactics numbers countable decidable list.
Open Scope Z_scope.

(** The type parameter [A: IpAddress]: [Ipv4Addr] or [Ipv6Addr]. *)
Inductive Family := FamV4 | FamV6.
#[export] Instance Family_eq_dec : EqDecision Family.
Proof. solve_decision. Defined.

(** [std::net::IpAddr], with its derived order (V4 before V6). *)
Inductive IpAddr := IpV4 (a : Z) | IpV6 (a : Z).
#[export] Instance IpAddr_eq_dec : EqDecision IpAddr.
Proof. solve_decision. Defined.
#[export] Program Instance IpAddr_countable : Countable IpAddr :=
  inj_countable' (fun i => match i with IpV4 a => inl a | IpV6 a => inr a end)
    (fun s => match s with inl a => IpV4 a | inr a => IpV6 a end) _.
Next Obligation. by intros []. Qed.
Definition ipaddr_cmp (a b : IpAddr) : comparison :=
  match a, b with
  | IpV4 x, IpV4 y | IpV6 x, IpV6 y => x ?= y
  | IpV4 _, IpV6 _ => Lt
  | IpV6 _, IpV4 _ => Gt
  end.
Lemma ipaddr_cmp_eq a b : ipaddr_cmp a b = Eq <-> a = b.
Proof. destruct a, b; simpl; rewrite ?Z.compare_eq_iff; split; congruence. Qed.
Lemma ipaddr_cmp_antisym a b : ipaddr_cmp b a = CompOpp (ipaddr_cmp a b).
Proof. destruct a, b; try done; apply Z.compare_antisym. Qed.

(** Number of address bits. *)
Definition width (f : Family) : Z := match f with FamV4 => 32 | FamV6 => 128 end.

(** An address is its integer value ([IpAddress::to_u128]). *)
Definition addr_ok (f : Family) (a : Z) : Prop := 0 <= a < 2 ^ width f.

(** Zero the host bits of [a] for prefix length [m]. *)
Definition mask_addr (f : Family) (a m : Z) : Z :=
  a / 2 ^ (width f - m) * 2 ^ (width f - m).

Class IpPrefixOps := {
  IpPrefix : Family -> Type;
  IpPrefix_eq_dec :: forall f, EqDecision (IpPrefix f);
  IpPrefix_countable :: forall f, Countable (IpPrefix f);
  prefix_new : forall f, Z -> Z -> option (IpPrefix f);
  prefix_ip : forall {f}, IpPrefix f -> Z;
  prefix_mask : forall {f}, IpPrefix f -> Z;
  prefix_masked : forall {f}, IpPrefix f -> IpPrefix f;
  prefix_contains : forall {f}, IpPrefix f -> Z -> bool;
  prefix_overlaps : forall {f}, IpPrefix f -> IpPrefix f -> bool;
  prefix_is_single_ip : forall {f}, IpPrefix f -> bool;
}.

Class IpPrefixLaws `{IpPrefixOps} : Prop := {
  prefix_new_ok : forall f a m, addr_ok f a -> 0 <= m <= width f ->
    exists p, prefix_new f a m = Some p /\ prefix_ip p = a /\ prefix_mask p = m;
  prefix_new_err : forall f a m, width f < m -> prefix_new f a m = None;
  prefix_ip_ok : forall f (p : IpPrefix f), addr_ok f (prefix_ip p);
  prefix_mask_ok : forall f (p : IpPrefix f), 0 <= prefix_mask p <= width f;
  prefix_ext : forall f (p q : IpPrefix f),
    prefix_ip p = prefix_ip q -> prefix_mask p = prefix_mask q -> p = q;
  prefix_masked_ip : forall f (p : IpPrefix f),
    prefix_ip (prefix_masked p) = mask_addr f (prefix_ip p) (prefix_mask p);
  prefix_masked_mask : forall f (p : IpPrefix f),
    prefix_mask (prefix_masked p) = prefix_mask p;
  prefix_contains_spec : forall f (p : IpPrefix f) a, addr_ok f a ->
    prefix_contains p a
    = (mask_addr f a (prefix_mask p) =? mask_addr f (prefix_ip p) (prefix_mask p));
  prefix_overlaps_spec : forall f (p q : IpPrefix f),
    prefix_overlaps p q = true
    <-> exists a, addr_ok f a /\ prefix_contains p a = true /\ prefix_contains q a = true;
  prefix_single_spec : forall f (p : IpPrefix f),
    prefix_is_single_ip p = (prefix_mask p =? width f);
}.

Section Nlri.
Context `{P : IpPrefixOps}.

(** [pub struct Nlri<A> { prefix: IpPrefix<A> }] *)
Record Nlri (f : Family) : Type := mkNlri { nlri_prefix : IpPrefix f }.
Arguments mkNlri {f} nlri_prefix.
Arguments nlri_prefix {f} n.

#[export] Instance Nlri_eq_dec f : EqDecision (Nlri f).
Proof. solve_decision. Defined.
#[export] Program Instance Nlri_countable f : Countable (Nlri f) :=
  inj_countable' nlri_prefix mkNlri _.
Next Obligation. by intros f []. Qed.

Definition from_prefix {f} (prefix : IpPrefix f) : Nlri f := mkNlri prefix.
(** [None] is [Err(InvalidPrefixLen)]. *)
Definition nlri_new f (ip mask : Z) : option (Nlri f) :=
  match prefix_new f ip mask with Some p => Some (from_prefix p) | None => None end.
Definition prefix_len {f} (n : Nlri f) : Z := prefix_mask (nlri_prefix n).
Definition nlri_contains {f} (n : Nlri f) (addr : Z) : bool :=
  prefix_contains (nlri_prefix n) addr.
Definition is_default_route {f} (n : Nlri f) : bool := prefix_mask (nlri_prefix n) =? 0.
Definition is_host_route {f} (n : Nlri f) : bool := prefix_is_single_ip (nlri_prefix n).
Definition nlri_masked {f} (n : Nlri f) : Nlri f := mkNlri (prefix_masked (nlri_prefix n)).
Definition nlri_overlaps {f} (n other : Nlri f) : bool :=
  prefix_overlaps (nlri_prefix n) (nlri_prefix other).
(** [impl Ord for Nlri] *)
Definition nlri_cmp {f} (n other : Nlri f) : comparison :=
  then_cmp (prefix_ip (nlri_prefix n) ?= prefix_ip (nlri_prefix other))
           (prefix_mask (nlri_prefix n) ?= prefix_mask (nlri_prefix other)).

(** The network address of an NLRI, and the canonical (masked) form. *)
Definition nlri_ip {f} (n : Nlri f) : Z := prefix_ip (nlri_prefix n).
Definition canonical {f} (n : Nlri f) : Prop := nlri_masked n = n.

End Nlri.

Arguments mkNlri {P f} nlri_prefix.
Arguments nlri_prefix {P f} n.

(** ** Masking arithmetic *)
Lemma mask_addr_ok f a m : addr_ok f a -> 0 <= m <= width f -> addr_ok f (mask_addr f a m).
Proof.
  unfold addr_ok, mask_addr. intros Ha Hm.
  assert (0 < 2 ^ (width f - m)) by (apply Z.pow_pos_nonneg; lia).
  pose proof (Z.mul_div_le a _ H). pose proof (Z.div_pos a _ ltac:(lia) H). nia.
Qed.

Lemma mask_addr_idemp f a m m' : 0 <= m' <= m -> m <= width f ->
  mask_addr f (mask_addr f a m) m' = mask_addr f a m'.
Proof.
  unfold mask_addr. intros Hm Hw. f_equal.
  replace (width f - m') with ((width f - m) + (m - m')) by lia.
  rewrite Z.pow_add_r by lia.
  assert (0 < 2 ^ (width f - m)) by (apply Z.pow_pos_nonneg; lia).
  assert (0 < 2 ^ (m - m')) by (apply Z.pow_pos_nonneg; lia).
  rewrite <- !Z.div_div by lia. by rewrite Z.div_mul by lia.
Qed.

Lemma mask_addr_coarser f a b m m' : 0 <= m' <= m -> m <= width f ->
  mask_addr f a m = mask_addr f b m -> mask_addr f a m' = mask_addr f b m'.
Proof.
  intros. rewrite <- (mask_addr_idemp f a m m'), <- (mask_addr_idemp f b m m') by lia.
  congruence.
Qed.

Lemma mask_addr_divides f a m : (2 ^ (width f - m) | mask_addr f a m).
Proof. eexists. reflexivity. Qed.

Section NlriFacts.
Context `{L : IpPrefixLaws}.

Lemma canonical_masked f (n : Nlri f) : canonical (nlri_masked n).
Proof.
  unfold canonical, nlri_masked. simpl. f_equal.
  pose proof (prefix_mask_ok f (nlri_prefix n)).
  apply prefix_ext; rewrite ?prefix_masked_mask; [|done].
  rewrite !prefix_masked_ip, prefix_masked_mask. apply mask_addr_idemp; lia.
Qed.

Lemma canonical_ip f (n : Nlri f) :
  canonical n <-> mask_addr f (nlri_ip n) (prefix_len n) = nlri_ip n.
Proof.
  unfold canonical, nlri_masked, nlri_ip, prefix_len. destruct n as [p]; simpl. split.
  - injection 1 as E. rewrite <- prefix_masked_ip. by rewrite E.
  - intros E. f_equal. apply prefix_ext; [|apply prefix_masked_mask].
    by rewrite prefix_masked_ip.
Qed.

(** Looking up [new] then masking a value already masked gives it back. *)
Lemma nlri_new_canonical f (n : Nlri f) : canonical n ->
  nlri_masked <$> nlri_new f (nlri_ip n) (prefix_len n) = Some n.
Proof.
  intros Hc. unfold nlri_new, nlri_ip, prefix_len.
  destruct (prefix_new_ok f (prefix_ip (nlri_prefix n)) (prefix_mask (nlri_prefix n)))
    as (p & -> & Hip & Hm); [apply prefix_ip_ok|apply prefix_mask_ok|].
  simpl. f_equal. rewrite <- Hc. destruct n as [q]; simpl in *.
  unfold nlri_masked; simpl. do 2 f_equal. by apply prefix_ext.
Qed.

(** The order of [Nlri] is consistent with its equality. *)
Lemma nlri_cmp_eq f (n o : Nlri f) : nlri_cmp n o = Eq <-> n = o.
Proof.
  unfold nlri_cmp, then_cmp. split.
  - destruct (_ ?= _) eqn:E1; try done. intros E2.
    apply Z.compare_eq in E1. apply Z.compare_eq in E2.
    destruct n, o; simpl in *. f_equal. by apply prefix_ext.
  - intros ->. by rewrite !Z.compare_refl.
Qed.

(** Membership in terms of network bits. *)
Lemma nlri_contains_iff f (n : Nlri f) a : addr_ok f a ->
  nlri_contains n a = true
  <-> mask_addr f a (prefix_len n) = mask_addr f (nlri_ip n) (prefix_len n).
Proof.
  intros. unfold nlri_contains. rewrite prefix_contains_spec by done.
  apply Z.eqb_eq.
Qed.

(** CIDR nesting: overlapping prefixes contain one another's network address;
    partial overlap does not exist. *)
Lemma overlaps_nests f (n o : Nlri f) :
  nlri_overlaps n o = true
  <-> (if prefix_len n <=? prefix_len o then nlri_contains n (nlri_ip o)
       else nlri_contains o (nlri_ip n)) = true.
Proof.
  assert (Hw : forall x : Nlri f, 0 <= prefix_len x <= width f)
    by (intros; apply prefix_mask_ok).
  assert (Ha : forall x : Nlri f, addr_ok f (nlri_ip x)) by (intros; apply prefix_ip_ok).
  pose proof (Hw n); pose proof (Hw o).
  unfold nlri_overlaps. rewrite prefix_overlaps_spec.
  change (prefix_contains (nlri_prefix n)) with (nlri_contains n).
  change (prefix_contains (nlri_prefix o)) with (nlri_contains o).
  split.
  - intros (a & Hok & Hin1 & Hin2).
    rewrite nlri_contains_iff in Hin1, Hin2 by done.
    destruct (Z.leb_spec (prefix_len n) (prefix_len o)); apply nlri_contains_iff; auto.
    + rewrite <- Hin1. symmetry. by eapply mask_addr_coarser; [..|apply Hin2]; lia.
    + rewrite <- Hin2. symmetry. by eapply mask_addr_coarser; [..|apply Hin1]; lia.
  - destruct (Z.leb_spec (prefix_len n) (prefix_len o)); intros Hc.
    + exists (nlri_ip o). split_and!; auto. by apply nlri_contains_iff.
    + exists (nlri_ip n). split_and!; auto. by apply nlri_contains_iff.
Qed.

End NlriFacts.

(** ** A concrete prefix library, for witnesses *)
Module ModelPrefix.

Record t (f : Family) : Type := mk { ip : Z; mask : Z; ok : bool_decide
  (0 <= ip < 2 ^ width f /\ 0 <= mask <= width f) = true }.
Arguments mk {f}. Arguments ip {f}. Arguments mask {f}.

Lemma ext f (p q : t f) : ip p = ip q -> mask p = mask q -> p = q.
Proof.
  destruct p as [a m H1], q as [b n H2]; simpl. intros -> ->.
  f_equal. apply (Eqdep_dec.UIP_dec bool_dec).
Qed.

#[export] Instance eq_dec f : EqDecision (t f).
Proof.
  intros p q. destruct (decide (ip p = ip q)), (decide (mask p = mask q)).
  - left. by apply ext.
  - right. congruence.
  - right. congruence.
  - right. congruence.
Defined.

Definition make f (a m : Z) : option (t f) :=
  match bool_dec (bool_decide (0 <= a < 2 ^ width f /\ 0 <= m <= width f)) true with
  | left h => Some (mk a m h)
  | right _ => None
  end.

Lemma make_self f (p : t f) : make f (ip p) (mask p) = Some p.
Proof.
  unfold make. destruct p as [a m h]; simpl.
  destruct (bool_dec _ _) as [h'|]; [|congruence]. f_equal. by apply ext.
Qed.

#[export] Program Instance countable f : Countable (t f) :=
  inj_countable (fun p => (ip p, mask p)) (fun x => make f (fst x) (snd x)) _.
Next Obligation. intros f p. apply make_self. Qed.

Lemma masked_ok f (p : t f) : bool_decide
  (0 <= mask_addr f (ip p) (mask p) < 2 ^ width f /\ 0 <= mask p <= width f) = true.
Proof.
  destruct p as [a m h]; simpl. apply bool_decide_eq_true in h as [? ?].
  apply bool_decide_eq_true. split; [|done]. by apply mask_addr_ok.
Qed.

Definition masked {f} (p : t f) : t f := mk _ _ (masked_ok f p).
Definition contains {f} (p : t f) (a : Z) : bool :=
  mask_addr f a (mask p) =? mask_addr f (ip p) (mask p).
Definition overlaps {f} (p q : t f) : bool :=
  if mask p <=? mask q then contains p (ip q) else contains q (ip p).

#[export] Instance ops : IpPrefixOps := {|
  IpPrefix := t;
  prefix_new := make;
  prefix_ip := @ip;
  prefix_mask := @mask;
  prefix_masked := @masked;
  prefix_contains := @contains;
  prefix_overlaps := @overlaps;
  prefix_is_single_ip := fun f p => mask p =? width f;
|}.

Lemma inv f (p : t f) : 0 <= ip p < 2 ^ width f /\ 0 <= mask p <= width f.
Proof. destruct p as [a m h]; simpl. by apply bool_decide_eq_true in h. Qed.

Lemma overlaps_ok f (p q : t f) : overlaps p q = true
  <-> exists a, addr_ok f a /\ contains p a = true /\ contains q a = true.
Proof.
  destruct (inv f p), (inv f q). unfold overlaps, contains, addr_ok.
  setoid_rewrite Z.eqb_eq.
  destruct (Z.leb_spec (mask p) (mask q)); rewrite Z.eqb_eq; split.
  - intros E. exists (ip q). split; [done|]. by split.
  - intros (a & Ha & E1 & E2). rewrite <- E1. symmetry.
    eapply mask_addr_coarser; [..|apply E2]; lia.
  - intros E. exists (ip p). split; [done|]. by split.
  - intros (a & Ha & E1 & E2). rewrite <- E2. symmetry.
    eapply mask_addr_coarser; [..|apply E1]; lia.
Qed.

#[export] Instance laws : IpPrefixLaws.
Proof.
  split; simpl.
  - intros f a m Ha Hm. unfold make. destruct (bool_dec _ _) as [h|n].
    + eexists. by split_and!.
    + destruct n. by apply bool_decide_eq_true.
  - intros f a m Hm. unfold make. destruct (bool_dec _ _) as [h|n]; [|done].
    pose proof (bool_decide_eq_true_1 _ h). lia.
  - intros f p. apply inv.
  - intros f p. apply inv.
  - intros f. apply ext.
  - done.
  - done.
  - done.
  - apply overlaps_ok.
  - done.
Qed.

(** A literal prefix. *)
Definition nlri f (a m : Z)
    (h : bool_decide (0 <= a < 2 ^ width f /\ 0 <= m <= width f) = true) : Nlri f :=
  mkNlri (mk a m h).
Lemma nlri_canonical f a m h : (mask_addr f a m =? a) = true -> canonical (nlri f a m h).
Proof. intros E%Z.eqb_eq. by apply canonical_ip. Qed.

End ModelPrefix.
