(* ===== verification/AddrText.v ===== *)
(** Addresses as text: [Display] and [FromStr] of [IpAddr] in the standard
    library of Rust, which the configuration and the management API use for every
    address.

    A text is the list of its bytes.  The readers are those of the standard
    library: a reader consumes a prefix of the text or fails and consumes
    nothing.  [addr_parse_string] is the round trip. *)
From Stdlib Require Import ZArith Lia Bool String Ascii.
From stdpp Require Import base tactics numbers decidable sets list.
From S2P Require Import Prelude Addr.
Open Scope Z_scope.

Definition Text : Type := list Z.
Fixpoint text (s : string) : Text :=
  match s with
  | EmptyString => []
  | String c s => Z.of_N (N_of_ascii c) :: text s
  end.
Definition DOT : Z := 46.
Definition COLON : Z := 58.

(** ** Display *)

Definition hex_char (d : Z) : Z := if d <? 10 then 48 + d else 87 + d.
(** The digits of a number without leading zeros; [fuel] digits at most. *)
Fixpoint digits (fuel : nat) (radix n : Z) (acc : Text) : Text :=
  match fuel with
  | O => acc
  | S fuel => let acc := hex_char (n mod radix) :: acc in
              if n <? radix then acc else digits fuel radix (n / radix) acc
  end.
Definition dec_u8 (n : Z) : Text := digits 3 10 n [].
Definition hex_u16 (n : Z) : Text := digits 4 16 n [].
Fixpoint join (sep : Z) (l : list Text) : Text :=
  match l with
  | [] => []
  | [t] => t
  | t :: l => t ++ sep :: join sep l
  end.
Definition show_v4 (a : Z) : Text := join DOT (map dec_u8 (u32_be a)).

Definition segments (a : Z) : list Z :=
  map (fun i => a / 65536 ^ (7 - Z.of_nat i) mod 65536) (seq 0 8).
Definition from_segments (l : list Z) : Z := fold_left (fun acc s => acc * 65536 + s) l 0.
(** The first longest run of zero segments: its start and length. *)
Fixpoint zero_run (i : nat) (l : list Z) (current longest : nat * nat) : nat * nat :=
  match l with
  | [] => longest
  | s :: l =>
      if s =? 0 then
        let current := (if (snd current =? 0)%nat then i else fst current, S (snd current)) in
        zero_run (S i) l current (if (snd longest <? snd current)%nat then current else longest)
      else zero_run (S i) l (0, 0)%nat longest
  end.
Definition show_groups (l : list Z) : Text := join COLON (map hex_u16 l).
Definition is_mapped (a : Z) : bool := a / 2 ^ 32 =? 65535.
Definition show_v6 (a : Z) : Text :=
  if is_mapped a then text "::ffff:" ++ show_v4 (a mod 2 ^ 32)
  else
    let '(start, n) := zero_run 0 (segments a) (0, 0)%nat (0, 0)%nat in
    if (1 <? n)%nat
    then show_groups (firstn start (segments a)) ++ [COLON; COLON]
         ++ show_groups (skipn (start + n) (segments a))
    else show_groups (segments a).
Definition addr_to_string (a : IpAddr) : Text :=
  match a with IpV4 a => show_v4 a | IpV6 a => show_v6 a end.

(** ** Readers *)

Definition Reader (A : Type) : Type := Text -> option (A * Text).
Definition to_digit (radix c : Z) : option Z :=
  let d := if (48 <=? c) && (c <=? 57) then c - 48
           else if (97 <=? c) && (c <=? 122) then c - 87
           else if (65 <=? c) && (c <=? 90) then c - 55 else 36 in
  if d <? radix then Some d else None.
Definition read_given_char (c : Z) : Reader unit := fun s =>
  match s with x :: s => if x =? c then Some (tt, s) else None | [] => None end.
(** The loop of [read_number]: the value and the number of digits so far; it fails
    when the value passes [max] or there are more than [max_digits] digits. *)
Fixpoint read_digits (radix max : Z) (max_digits : nat) (result : Z) (count : nat) (s : Text)
    : option (Z * nat * Text) :=
  match s with
  | c :: s' =>
      match to_digit radix c with
      | Some d =>
          let result := result * radix + d in
          if max <? result then None
          else if (max_digits <? S count)%nat then None
          else read_digits radix max max_digits result (S count) s'
      | None => Some (result, count, s)
      end
  | [] => Some (result, count, [])
  end.
Definition read_number (radix max : Z) (max_digits : nat) (allow_zero_prefix : bool) : Reader Z := fun s =>
  let has_leading_zero := match s with c :: _ => c =? 48 | [] => false end in
  '(result, count, rest) ← read_digits radix max max_digits 0 0 s;
  if (count =? 0)%nat then None
  else if negb allow_zero_prefix && has_leading_zero && (1 <? count)%nat then None
  else Some (result, rest).
Definition read_separator {A} (sep : Z) (index : nat) (inner : Reader A) : Reader A := fun s =>
  match index with
  | O => inner s
  | S _ => '(_, s) ← read_given_char sep s; inner s
  end.
Definition read_octet (index : nat) : Reader Z := read_separator DOT index (read_number 10 255 3 false).
Definition read_ipv4_addr : Reader Z := fun s =>
  '(a, s) ← read_octet 0 s; '(b, s) ← read_octet 1 s;
  '(c, s) ← read_octet 2 s; '(d, s) ← read_octet 3 s;
  Some (from_be [a; b; c; d], s).
(** Reads up to [todo] groups, [i] being read already; whether the last two were an
    IPv4 address. *)
Fixpoint read_groups (i todo : nat) (s : Text) : list Z * bool * Text :=
  match todo with
  | O => ([], false, s)
  | S rest =>
      let ipv4 := match rest with O => None | S _ => read_separator COLON i read_ipv4_addr s end in
      match ipv4 with
      | Some (a, s) => ([a / 65536; a mod 65536], true, s)
      | None =>
          match read_separator COLON i (read_number 16 65535 4 true) s with
          | Some (g, s) => let '(gs, v4, s) := read_groups (S i) rest s in (g :: gs, v4, s)
          | None => ([], false, s)
          end
      end
  end.
Definition read_ipv6_addr : Reader Z := fun s =>
  let '(head, head_ipv4, s) := read_groups 0 8 s in
  if (length head =? 8)%nat then Some (from_segments head, s)
  else if head_ipv4 then None
  else
    '(_, s) ← read_given_char COLON s;
    '(_, s) ← read_given_char COLON s;
    let '(tail, _, s) := read_groups 0 (8 - (length head + 1)) s in
    Some (from_segments (head ++ replicate (8 - length head - length tail) 0 ++ tail), s).
Definition read_ip_addr : Reader IpAddr := fun s =>
  match read_ipv4_addr s with
  | Some (a, s) => Some (IpV4 a, s)
  | None => '(a, s) ← read_ipv6_addr s; Some (IpV6 a, s)
  end.
Definition parse_with {A} (r : Reader A) (s : Text) : option A :=
  match r s with Some (a, []) => Some a | _ => None end.
(** [IpAddr::from_str] and [Ipv4Addr::from_str] *)
Definition addr_parse (s : Text) : option IpAddr := parse_with read_ip_addr s.
Definition v4_parse (s : Text) : option Z :=
  if (15 <? length s)%nat then None else parse_with read_ipv4_addr s.

Example show_examples :
  addr_to_string (IpV4 3221225985) = text "192.0.2.1"
  /\ addr_to_string (IpV6 (from_segments [8193; 3512; 0; 0; 0; 0; 0; 1])) = text "2001:db8::1"
  /\ addr_to_string (IpV6 0) = text "::"
  /\ addr_to_string (IpV6 (from_segments [1; 0; 0; 2; 0; 0; 0; 0])) = text "1:0:0:2::"
  /\ addr_to_string (IpV6 (from_segments [0; 0; 0; 0; 0; 65535; 49152; 513])) = text "::ffff:192.0.2.1"
  /\ addr_to_string (IpV6 (from_segments [1; 2; 3; 4; 5; 6; 0; 8])) = text "1:2:3:4:5:6:0:8".
Proof. by vm_compute. Qed.
Example parse_examples :
  addr_parse (text "192.0.2.1") = Some (IpV4 3221225985)
  /\ addr_parse (text "192.0.2.01") = None /\ addr_parse (text "256.0.2.1") = None
  /\ addr_parse (text "2001:DB8::1") = Some (IpV6 (from_segments [8193; 3512; 0; 0; 0; 0; 0; 1]))
  /\ addr_parse (text "1:2:3:4:5:6:7::") = Some (IpV6 (from_segments [1; 2; 3; 4; 5; 6; 7; 0]))
  /\ addr_parse (text "1:2:3:4:5:6:7:8:9") = None /\ addr_parse (text "local") = None
  /\ addr_parse (text "::1.2.3.4") = Some (IpV6 16909060) /\ addr_parse [] = None.
Proof. by vm_compute. Qed.

(** ** Numbers *)

Definition value (radix : Z) (ds : list Z) (acc : Z) : Z := fold_left (fun a d => a * radix + d) ds acc.
Definition stops (radix : Z) (s : Text) : Prop :=
  match s with [] => True | c :: _ => to_digit radix c = None end.

Lemma to_digit_hex radix d : 0 <= d < radix -> radix <= 16 -> to_digit radix (hex_char d) = Some d.
Proof.
  intros H1 H2. unfold to_digit, hex_char.
  repeat (case_match; zbool; try lia); f_equal; lia.
Qed.
Lemma value_ge radix ds acc : 0 <= acc -> 1 <= radix -> Forall (fun d => 0 <= d) ds -> acc <= value radix ds acc.
Proof.
  intros Ha Hr Hd. revert acc Ha. induction Hd as [|d ds Hd _ IH]; intros acc Ha; [done|].
  cbn [value fold_left]. etrans; [|apply IH]; nia.
Qed.
Lemma read_digits_ok radix max md ds r c s : 1 <= radix <= 16 -> 0 <= r ->
  Forall (fun d => 0 <= d < radix) ds -> value radix ds r <= max -> (c + length ds <= md)%nat ->
  stops radix s ->
  read_digits radix max md r c (map hex_char ds ++ s) = Some (value radix ds r, (c + length ds)%nat, s).
Proof.
  intros Hr Hr0 Hd. revert r c Hr0. induction Hd as [|d ds Hd Hds IH]; intros r c Hr0 Hv Hc Hs.
  - cbn. rewrite Nat.add_0_r. destruct s as [|x s]; [done|]. cbn in Hs |- *. by rewrite Hs.
  - cbn [map app read_digits]. rewrite to_digit_hex by lia.
    cbn [value fold_left length] in *. fold (value radix ds (r * radix + d)) in *.
    pose proof (value_ge radix ds (r * radix + d) ltac:(nia) ltac:(lia)
      ltac:(eapply Forall_impl; [exact Hds|]; cbn; lia)) as Hge.
    replace (max <? r * radix + d) with false by lia.
    replace (md <? S c)%nat with false by (symmetry; apply Nat.ltb_ge; lia).
    rewrite IH by (done || nia || lia). do 2 f_equal. f_equal. lia.
Qed.

Fixpoint dlist (fuel : nat) (radix n : Z) : list Z :=
  match fuel with
  | O => []
  | S fuel => if n <? radix then [n mod radix] else dlist fuel radix (n / radix) ++ [n mod radix]
  end.
Lemma digits_dlist fuel radix n acc : digits fuel radix n acc = map hex_char (dlist fuel radix n) ++ acc.
Proof.
  revert n acc. induction fuel as [|fuel IH]; intros n acc; [done|]. cbn [digits dlist].
  destruct (n <? radix); [done|]. by rewrite IH, map_app, <- app_assoc.
Qed.
Lemma dlist_ok fuel radix n : 1 < radix -> 0 <= n < radix ^ Z.of_nat fuel ->
  value radix (dlist fuel radix n) 0 = n /\ (length (dlist fuel radix n) <= fuel)%nat
  /\ Forall (fun d => 0 <= d < radix) (dlist fuel radix n).
Proof.
  intros Hr. revert n. induction fuel as [|fuel IH]; intros n Hn.
  - cbn in *. split_and!; [lia|lia|done].
  - assert (Hm : 0 <= n mod radix < radix) by (apply Z.mod_pos_bound; lia).
    cbn [dlist]. destruct (Z.ltb_spec n radix) as [Hl|Hl].
    + cbn. rewrite Z.mod_small by lia. split_and!; [lia|lia|flist; lia].
    + assert (Hq : 0 <= n / radix < radix ^ Z.of_nat fuel).
      { split; [apply Z.div_pos; lia|]. apply Z.div_lt_upper_bound; [lia|].
        rewrite Nat2Z.inj_succ, Z.pow_succ_r in Hn by lia. lia. }
      destruct (IH _ Hq) as (H1 & H2 & H3). split_and!.
      * unfold value. rewrite fold_left_app. fold (value radix (dlist fuel radix (n / radix)) 0).
        rewrite H1. cbn. pose proof (Z.div_mod n radix ltac:(lia)). lia.
      * rewrite length_app. cbn. lia.
      * apply Forall_app. split; [done|]. by flist.
Qed.
(** No leading zero but in the number 0. *)
Lemma dlist_lead fuel radix n : 1 < radix -> 0 <= n < radix ^ Z.of_nat fuel -> (fuel <> 0)%nat ->
  exists d ds, dlist fuel radix n = d :: ds /\ (d = 0 -> ds = []).
Proof.
  intros Hr. revert n. induction fuel as [|fuel IH]; intros n Hn Hf; [done|].
  cbn [dlist]. destruct (Z.ltb_spec n radix) as [Hl|Hl]; [by exists (n mod radix), []|].
  assert (Hq : 0 < n / radix < radix ^ Z.of_nat fuel).
  { split; [apply Z.div_str_pos; lia|]. apply Z.div_lt_upper_bound; [lia|].
    rewrite Nat2Z.inj_succ, Z.pow_succ_r in Hn by lia. lia. }
  destruct fuel as [|fuel]; [cbn in Hq; lia|].
  destruct (IH (n / radix) ltac:(lia) ltac:(lia)) as (d & ds & E & Hz). exists d, (ds ++ [n mod radix]).
  rewrite E. split; [done|]. intros ->. rewrite Hz in E by done.
  destruct (dlist_ok (S fuel) radix (n / radix) Hr ltac:(lia)) as [Hv _]. rewrite E in Hv. cbn in Hv. lia.
Qed.
Lemma read_number_ok fuel radix max zero n s : 1 < radix <= 16 -> (fuel <> 0)%nat ->
  0 <= n < radix ^ Z.of_nat fuel -> n <= max -> stops radix s ->
  read_number radix max fuel zero (digits fuel radix n [] ++ s) = Some (n, s).
Proof.
  intros Hr Hf Hn Hm Hs. rewrite digits_dlist, app_nil_r. unfold read_number.
  destruct (dlist_ok fuel radix n ltac:(lia) Hn) as (Hv & Hl & Hd).
  destruct (dlist_lead fuel radix n ltac:(lia) Hn Hf) as (d & ds & E & Hz).
  rewrite read_digits_ok by (done || lia). rewrite Hv. cbn [mbind option_bind].
  rewrite E. cbn [length Nat.add Nat.eqb map app].
  destruct zero; [done|]. cbn [negb andb].
  destruct (Z.eqb_spec (hex_char d) 48) as [E0|]; [|done].
  rewrite E in Hd. apply Forall_cons in Hd as [Hd _].
  rewrite Hz; [done|]. unfold hex_char in E0. case_match; zbool; lia.
Qed.
Lemma read_dec n s : is_u8 n -> stops 10 s -> read_number 10 255 3 false (dec_u8 n ++ s) = Some (n, s).
Proof. intros Hn Hs. apply read_number_ok; unfold is_u8 in *; cbn; lia || done. Qed.
Lemma read_hex n s : is_u16 n -> stops 16 s -> read_number 16 65535 4 true (hex_u16 n ++ s) = Some (n, s).
Proof. intros Hn Hs. apply read_number_ok; unfold is_u16 in *; cbn; lia || done. Qed.

(** ** IPv4 *)

Lemma show_v4_octets a : 0 <= a < 2 ^ 32 -> exists b0 b1 b2 b3,
  a = from_be [b0; b1; b2; b3] /\ bytes [b0; b1; b2; b3]
  /\ show_v4 a = dec_u8 b0 ++ DOT :: dec_u8 b1 ++ DOT :: dec_u8 b2 ++ DOT :: dec_u8 b3.
Proof.
  intros Ha. pose proof (u32_be_length a) as Hl. pose proof (u32_be_bytes a) as Hb.
  pose proof (u32_be_roundtrip a Ha) as Hr. unfold show_v4.
  destruct (u32_be a) as [|b0 [|b1 [|b2 [|b3 [|]]]]]; try done. by exists b0, b1, b2, b3.
Qed.
Lemma read_show_v4 a s : 0 <= a < 2 ^ 32 -> stops 10 s -> read_ipv4_addr (show_v4 a ++ s) = Some (a, s).
Proof.
  intros Ha Hs. destruct (show_v4_octets a Ha) as (b0 & b1 & b2 & b3 & -> & Hb & ->).
  rewrite !Forall_cons in Hb. destruct Hb as (H0 & H1 & H2 & H3 & _).
  unfold read_ipv4_addr, read_octet, read_separator.
  repeat (rewrite <- app_assoc; cbn [app]).
  rewrite read_dec by done. cbn [mbind option_bind read_given_char Z.eqb DOT Pos.eqb].
  do 2 (rewrite read_dec by done; cbn [mbind option_bind read_given_char Z.eqb DOT Pos.eqb]).
  by rewrite read_dec.
Qed.

Lemma read_digits_suffix radix max md s : forall r c v n rest,
  read_digits radix max md r c s = Some (v, n, rest) -> exists p, s = p ++ rest.
Proof.
  induction s as [|x s IH]; intros r c v n rest; cbn.
  - intros [= _ _ <-]. by exists [].
  - destruct (to_digit radix x) as [d|]; [|intros [= _ _ <-]; by exists []].
    repeat (case_match; [done|]). intros [p ->]%IH. by exists (x :: p).
Qed.
Lemma read_number_suffix radix max md zero s n rest :
  read_number radix max md zero s = Some (n, rest) -> exists p, s = p ++ rest.
Proof.
  unfold read_number. intros H. destruct (read_digits radix max md 0 0 s) as [[[v c] r]|] eqn:E; [|done].
  cbn in H. apply read_digits_suffix in E as [p ->]. repeat (case_match; [done|]).
  injection H as _ <-. by exists p.
Qed.
(** An IPv4 address has a dot. *)
Lemma no_dot_no_ipv4 s : DOT ∉ s -> read_ipv4_addr s = None.
Proof.
  intros Hs. unfold read_ipv4_addr, read_octet, read_separator.
  destruct (read_number 10 255 3 false s) as [[a r]|] eqn:E; [|done]. cbn [mbind option_bind].
  apply read_number_suffix in E as [p ->]. destruct r as [|x r]; [done|]. cbn [read_given_char].
  destruct (Z.eqb_spec x DOT) as [->|]; [|done]. exfalso. set_solver.
Qed.

(** ** IPv6 *)

Lemma hex_u16_chars n x : is_u16 n -> x ∈ hex_u16 n -> 48 <= x < 58 \/ 97 <= x < 103.
Proof.
  unfold hex_u16. intros Hn Hx. rewrite digits_dlist, app_nil_r in Hx.
  apply list_elem_of_fmap in Hx as (d & -> & Hd).
  destruct (dlist_ok 4 16 n ltac:(lia) ltac:(unfold is_u16 in Hn; cbn; lia)) as (_ & _ & H).
  rewrite Forall_forall in H. specialize (H d Hd). unfold hex_char. case_match; zbool; lia.
Qed.
Definition groups_at (i : nat) (gs : list Z) : Text :=
  match i, gs with
  | O, g :: gs => hex_u16 g ++ flat_map (fun g => COLON :: hex_u16 g) gs
  | _, _ => flat_map (fun g => COLON :: hex_u16 g) gs
  end.
Lemma show_groups_at gs : show_groups gs = groups_at 0 gs.
Proof.
  destruct gs as [|g gs]; [done|]. unfold show_groups. cbn [groups_at map].
  revert g. induction gs as [|h gs IH]; intros g; [cbn; by rewrite app_nil_r|].
  cbn [map join flat_map]. cbn [map join] in IH. by rewrite IH.
Qed.
Lemma no_dot_groups i gs : Forall is_u16 gs -> DOT ∉ groups_at i gs.
Proof.
  assert (Hh : forall g, is_u16 g -> DOT ∉ hex_u16 g)
    by (intros g Hg Hx; apply hex_u16_chars in Hx; [unfold DOT in Hx; lia|done]).
  assert (Ht : forall gs, Forall is_u16 gs -> DOT ∉ flat_map (fun g => COLON :: hex_u16 g) gs).
  { intros l Hl Hx. apply list_elem_of_In, in_flat_map in Hx as (g & Hg%list_elem_of_In & Hx).
    rewrite Forall_forall in Hl. destruct Hx as [Hx|Hx%list_elem_of_In]; [done|].
    by apply (Hh g (Hl g Hg)). }
  intros Hg. destruct i, gs as [|g gs]; try by apply Ht. cbn.
  apply Forall_cons in Hg as [Hg Hgs]. rewrite elem_of_app. intros [Hx|Hx]; [by apply (Hh g)|by apply (Ht gs)].
Qed.
Definition ends (s : Text) : Prop := s = [] \/ exists t, s = COLON :: COLON :: t.
Lemma ends_stops radix s : radix <= 16 -> ends s -> stops radix s.
Proof. intros Hr [->|[t ->]]; [done|]. cbn. unfold to_digit. cbn. case_match; zbool; [lia|done]. Qed.
Lemma flat_stops gs s : ends s -> stops 16 (flat_map (fun g => COLON :: hex_u16 g) gs ++ s).
Proof. intros Hs. destruct gs; [by apply ends_stops|done]. Qed.
Lemma read_groups_ends i todo s : DOT ∉ s -> ends s -> read_groups i todo s = ([], false, s).
Proof.
  intros Hd Hs. destruct todo as [|rest]; [done|]. cbn [read_groups].
  assert (E4 : read_separator COLON i read_ipv4_addr s = None).
  { destruct i; cbn [read_separator]; [by apply no_dot_no_ipv4|].
    by destruct Hs as [->|[t ->]]. }
  assert (E6 : read_separator COLON i (read_number 16 65535 4 true) s = None)
    by (destruct i, Hs as [->|[t ->]]; done).
  rewrite E6. by destruct rest; rewrite ?E4.
Qed.
Lemma read_groups_ok gs : forall i todo s, Forall is_u16 gs -> (length gs <= todo)%nat -> DOT ∉ s -> ends s ->
  read_groups i todo (groups_at i gs ++ s) = (gs, false, s).
Proof.
  induction gs as [|g gs IH]; intros i todo s Hg Hl Hd Hs.
  - destruct i; by apply read_groups_ends.
  - destruct todo as [|rest]; [cbn in Hl; lia|]. cbn [read_groups].
    assert (Hdd : DOT ∉ groups_at i (g :: gs) ++ s)
      by (rewrite elem_of_app; intros [Hx|Hx]; [by apply (no_dot_groups i (g :: gs))|done]).
    apply Forall_cons in Hg as [Hg0 Hg]. cbn [length] in Hl.
    assert (E4 : read_separator COLON i read_ipv4_addr (groups_at i (g :: gs) ++ s) = None).
    { destruct i; cbn [read_separator]; [by apply no_dot_no_ipv4|]. cbn. apply no_dot_no_ipv4.
      cbn in Hdd. set_solver. }
    assert (E6 : read_separator COLON i (read_number 16 65535 4 true) (groups_at i (g :: gs) ++ s)
      = Some (g, groups_at (S i) gs ++ s)).
    { destruct i; cbn [read_separator groups_at flat_map app read_given_char]; rewrite <- ?app_assoc;
        cbn [Z.eqb COLON Pos.eqb mbind option_bind]; apply read_hex; try done; by apply flat_stops. }
    rewrite E6, (IH (S i) rest s) by (done || lia). by destruct rest; rewrite ?E4.
Qed.

Lemma segments_ok a : Forall is_u16 (segments a) /\ length (segments a) = 8%nat.
Proof.
  split; [|done]. apply Forall_map, Forall_forall. intros i _. unfold is_u16. apply Z.mod_pos_bound. lia.
Qed.
Lemma from_segments_split a : 0 <= a < 2 ^ 128 -> from_segments (segments a) = a.
Proof.
  intros Ha. unfold segments, from_segments. cbn [seq map fold_left].
  assert (H : forall k j, 0 <= k -> j = k + 1 -> a / 65536 ^ j * 65536 + a / 65536 ^ k mod 65536 = a / 65536 ^ k).
  { intros k j Hk ->. rewrite Z.pow_add_r, Z.pow_1_r by lia.
    pose proof (Z.pow_pos_nonneg 65536 k ltac:(lia) Hk). rewrite <- Z.div_div by lia.
    pose proof (Z.div_mod (a / 65536 ^ k) 65536 ltac:(lia)). lia. }
  assert (H8 : a / 65536 ^ 8 = 0) by (change (65536 ^ 8) with (2 ^ 128); by apply Z.div_small).
  pose proof (H 7 8 ltac:(lia) eq_refl) as H7. pose proof (H 6 7 ltac:(lia) eq_refl) as H6. pose proof (H 5 6 ltac:(lia) eq_refl) as H5.
  pose proof (H 4 5 ltac:(lia) eq_refl) as H4. pose proof (H 3 4 ltac:(lia) eq_refl) as H3. pose proof (H 2 3 ltac:(lia) eq_refl) as H2.
  pose proof (H 1 2 ltac:(lia) eq_refl) as H1. pose proof (H 0 1 ltac:(lia) eq_refl) as H0. rewrite Z.pow_0_r, Z.div_1_r in H0.
  rewrite H8 in H7.
  change (7 - Z.of_nat 0) with 7. change (7 - Z.of_nat 1) with 6. change (7 - Z.of_nat 2) with 5.
  change (7 - Z.of_nat 3) with 4. change (7 - Z.of_nat 4) with 3. change (7 - Z.of_nat 5) with 2.
  change (7 - Z.of_nat 6) with 1. change (7 - Z.of_nat 7) with 0. rewrite Z.pow_0_r, Z.div_1_r.
  rewrite H7, H6, H5, H4, H3, H2, H1. exact H0.
Qed.

Definition run_ok (r : nat * nat) (l : list Z) : Prop :=
  snd r = 0%nat \/ exists A B, l = A ++ replicate (snd r) 0 ++ B /\ length A = fst r.
Lemma zero_run_ok l : forall pre current longest, run_ok longest pre ->
  (snd current = 0%nat \/ exists A, pre = A ++ replicate (snd current) 0 /\ length A = fst current) ->
  run_ok (zero_run (length pre) l current longest) (pre ++ l).
Proof.
  induction l as [|s l IH]; intros pre current longest Hl Hc; cbn [zero_run]; [by rewrite app_nil_r|].
  assert (Hl' : run_ok longest (pre ++ [s])).
  { destruct Hl as [Hl|(A & B & -> & HA)]; [by left|]. right. exists A, (B ++ [s]). by rewrite !app_assoc. }
  specialize (IH (pre ++ [s])). rewrite length_app, Nat.add_1_r, <- app_assoc in IH. cbn [app] in IH.
  destruct (Z.eqb_spec s 0) as [->|Hs].
  - set (c := (if (snd current =? 0)%nat then length pre else fst current, S (snd current))).
    assert (Hcur : exists A, pre ++ [0] = A ++ replicate (snd c) 0 /\ length A = fst c).
    { subst c. cbn [fst snd]. destruct (Nat.eqb_spec (snd current) 0) as [E|E].
      - rewrite E. by exists pre.
      - destruct Hc as [Hc|(A & -> & HA)]; [done|]. exists A.
        by rewrite <- app_assoc, <- replicate_S_end. }
    apply IH; [|by right]. destruct (Nat.ltb_spec (snd longest) (snd c)); [|done].
    right. destruct Hcur as (A & -> & HA). exists A, []. by rewrite app_nil_r.
  - apply IH; [done|by left].
Qed.

Lemma read_show_mapped a : 0 <= a < 2 ^ 128 -> is_mapped a = true ->
  read_ipv6_addr (text "::ffff:" ++ show_v4 (a mod 2 ^ 32)) = Some (a, []).
Proof.
  intros Ha Em. unfold is_mapped in Em. apply Z.eqb_eq in Em.
  set (b := a mod 2 ^ 32). assert (Hb : 0 <= b < 2 ^ 32) by (apply Z.mod_pos_bound; lia).
  unfold read_ipv6_addr. change (text "::ffff:") with [58; 58; 102; 102; 102; 102; 58]. cbn [app].
  change (read_groups 0 8 (58 :: 58 :: 102 :: 102 :: 102 :: 102 :: 58 :: show_v4 b))
    with ([] : list Z, false, 58 :: 58 :: 102 :: 102 :: 102 :: 102 :: 58 :: show_v4 b).
  cbn [length Nat.eqb read_given_char COLON Z.eqb Pos.eqb mbind option_bind Nat.sub Nat.add].
  cbn [read_groups]. rewrite <- (app_nil_r (show_v4 b)).
  change (read_separator COLON 0 read_ipv4_addr (102 :: 102 :: 102 :: 102 :: 58 :: (show_v4 b ++ [])))
    with (None : option (Z * Text)).
  change (read_separator COLON 0 (read_number 16 65535 4 true) (102 :: 102 :: 102 :: 102 :: 58 :: (show_v4 b ++ [])))
    with (Some (65535, 58 :: (show_v4 b ++ []))).
  cbn [read_separator read_given_char COLON Z.eqb Pos.eqb mbind option_bind].
  rewrite read_show_v4 by done. cbn [length Nat.sub replicate app from_segments fold_left].
  do 2 f_equal. pose proof (Z.div_mod a (2 ^ 32) ltac:(lia)) as Hd. fold b in Hd. rewrite Em in Hd.
  pose proof (Z.div_mod b 65536 ltac:(lia)). lia.
Qed.
Lemma read_show_v6 a : 0 <= a < 2 ^ 128 -> read_ipv4_addr (show_v6 a) = None
  /\ read_ipv6_addr (show_v6 a) = Some (a, []).
Proof.
  intros Ha. unfold show_v6. destruct (is_mapped a) eqn:Em.
  - split; [done|]. by apply read_show_mapped.
  - destruct (segments_ok a) as [Hs Hl].
    pose proof (zero_run_ok (segments a) [] (0, 0)%nat (0, 0)%nat (or_introl eq_refl) (or_introl eq_refl)) as Hr.
    cbn [length app] in Hr. destruct (zero_run _ _ _ _) as [start n].
    destruct (Nat.ltb_spec 1 n) as [Hn|Hn].
    + destruct Hr as [Hr|(A & B & E & HA)]; [cbn in Hr; lia|]. cbn [fst snd] in *.
      rewrite E. rewrite E in Hs, Hl. rewrite !length_app, length_replicate in Hl.
      rewrite take_app_length' by lia. rewrite drop_app_ge, <- HA by lia.
      replace (length A + n - length A)%nat with n by lia.
      rewrite drop_app_length' by by rewrite length_replicate.
      apply Forall_app in Hs as [HsA HsB]. apply Forall_app in HsB as [_ HsB].
      rewrite !show_groups_at.
      assert (Hd : DOT ∉ [COLON; COLON] ++ groups_at 0 B)
        by (pose proof (no_dot_groups 0 B HsB); set_solver).
      split; [apply no_dot_no_ipv4; pose proof (no_dot_groups 0 A HsA); set_solver|].
      unfold read_ipv6_addr.
      assert (He : ends ([COLON; COLON] ++ groups_at 0 B)) by (right; by eexists).
      rewrite (read_groups_ok A 0 8 _ HsA ltac:(lia) Hd He).
      replace (length A =? 8)%nat with false by (symmetry; apply Nat.eqb_neq; lia).
      cbn [app read_given_char Z.eqb COLON Pos.eqb mbind option_bind].
      rewrite <- (app_nil_r (groups_at 0 B)).
      rewrite (read_groups_ok B 0 (8 - (length A + 1)) [] HsB ltac:(lia) (not_elem_of_nil _) (or_introl eq_refl)).
      replace (8 - length A - length B)%nat with n by lia. rewrite <- E. by rewrite from_segments_split.
    + rewrite show_groups_at. split; [apply no_dot_no_ipv4; by apply no_dot_groups|].
      unfold read_ipv6_addr. rewrite <- (app_nil_r (groups_at 0 _)).
      rewrite (read_groups_ok _ 0 8 [] Hs ltac:(lia) (not_elem_of_nil _) (or_introl eq_refl)), Hl. cbn [Nat.eqb].
      by rewrite from_segments_split.
Qed.

(** ** Addresses *)

Definition ip_ok (a : IpAddr) : Prop := match a with IpV4 a => 0 <= a < 2 ^ 32 | IpV6 a => 0 <= a < 2 ^ 128 end.
Lemma addr_parse_string a : ip_ok a -> addr_parse (addr_to_string a) = Some a.
Proof.
  intros Ha. unfold addr_parse, parse_with, read_ip_addr. destruct a as [a|a]; cbn [addr_to_string].
  - by rewrite <- (app_nil_r (show_v4 a)), read_show_v4.
  - destruct (read_show_v6 a Ha) as [-> ->]. done.
Qed.
Lemma addr_to_string_inj a b : ip_ok a -> ip_ok b -> addr_to_string a = addr_to_string b -> a = b.
Proof.
  intros Ha Hb E. apply (f_equal addr_parse) in E. rewrite !addr_parse_string in E by done. congruence.
Qed.
Lemma addr_to_string_other a s : ip_ok a -> addr_parse s = None -> addr_to_string a <> s.
Proof. intros Ha Hs E. rewrite <- E, addr_parse_string in Hs by done. done. Qed.
