(* ===== verification/Types.v ===== *)
(** Primitive BGP types ([pathvector-types]): AS numbers, roles, peer types,
    communities, AFI/SAFI and the scalar path attributes.  A newtype over an
    unsigned integer is [Z]; its width is the predicate of the Prelude. *)
From Stdlib Require Import ZArith Lia Bool.
From stdpp Require Import base tactics numbers countable decidable list.
From S2P Require Import Prelude Addr.
Open Scope Z_scope.

(** ** [asn.rs] *)
Module Asn.
Definition TRANS : Z := 23456.
Definition PUBLIC_MAX : Z := 64511.
Definition PRIVATE_2B_START : Z := 64512.
Definition PRIVATE_2B_END : Z := 65534.
Definition PRIVATE_4B_START : Z := 4200000000.
Definition PRIVATE_4B_END : Z := 4294967294.
Definition is_four_byte (a : Z) : bool := 65535 <? a.
Definition is_private (a : Z) : bool :=
  ((PRIVATE_2B_START <=? a) && (a <=? PRIVATE_2B_END))
  || ((PRIVATE_4B_START <=? a) && (a <=? PRIVATE_4B_END)).
Definition is_trans (a : Z) : bool := a =? TRANS.
End Asn.

(** ** [role.rs] *)
Inductive Role := Provider | RouteServer | RsClient | Customer | Peer.
#[export] Instance Role_eq_dec : EqDecision Role.
Proof. solve_decision. Defined.

Module RoleOps.
Definition as_wire_value (r : Role) : Z :=
  match r with
  | Provider => 0 | RouteServer => 1 | RsClient => 2 | Customer => 3 | Peer => 4
  end.
Definition from_wire_value (v : Z) : option Role :=
  match v with
  | 0 => Some Provider
  | 1 => Some RouteServer
  | 2 => Some RsClient
  | 3 => Some Customer
  | 4 => Some Peer
  | _ => None
  end.
Definition is_compatible_with (self peer : Role) : bool :=
  match self, peer with
  | Provider, Customer
  | Customer, Provider
  | RouteServer, RsClient
  | RsClient, RouteServer
  | Peer, Peer => true
  | _, _ => false
  end.
End RoleOps.

(** ** [peer_type.rs] *)
Inductive PeerType := Internal | External | Local | ConfedMember.
#[export] Instance PeerType_eq_dec : EqDecision PeerType.
Proof. solve_decision. Defined.

(** ** [community.rs]: standard communities, [high:u16][low:u16] in a [u32] *)
Module Community.
Definition NO_EXPORT : Z := 0xFFFFFF01.
Definition NO_ADVERTISE : Z := 0xFFFFFF02.
Definition NO_EXPORT_SUBCONFED : Z := 0xFFFFFF03.
Definition BLACKHOLE : Z := 0xFFFF029A.
Definition from_parts (high low : Z) : Z := Z.lor (Z.shiftl high 16) low.
Definition high (c : Z) : Z := as_u16 (Z.shiftr c 16).
Definition low (c : Z) : Z := as_u16 c.
Definition is_well_known (c : Z) : bool := high c =? 0xFFFF.
Definition is_no_export (c : Z) : bool := c =? NO_EXPORT.
Definition is_no_advertise (c : Z) : bool := c =? NO_ADVERTISE.
Definition is_no_export_subconfed (c : Z) : bool := c =? NO_EXPORT_SUBCONFED.
Definition is_blackhole (c : Z) : bool := c =? BLACKHOLE.
End Community.

Record LargeCommunity := mkLargeCommunity {
  global_administrator : Z;
  local_data_1 : Z;
  local_data_2 : Z;
}.
#[export] Instance LargeCommunity_eq_dec : EqDecision LargeCommunity.
Proof. solve_decision. Defined.

Module LargeCommunityOps.
Definition to_bytes (lc : LargeCommunity) : list Z :=
  u32_be (global_administrator lc) ++ u32_be (local_data_1 lc) ++ u32_be (local_data_2 lc).
(** [from_bytes] on the fixed-size array [u8; 12] *)
Definition from_bytes (b : list Z) : LargeCommunity :=
  {| global_administrator := from_be (take 4 b);
     local_data_1 := from_be (take 4 (drop 4 b));
     local_data_2 := from_be (take 4 (drop 8 b)) |}.
Definition wf (lc : LargeCommunity) : Prop :=
  is_u32 (global_administrator lc) /\ is_u32 (local_data_1 lc) /\ is_u32 (local_data_2 lc).
End LargeCommunityOps.

(** Extended communities: the array [u8; 8] *)
Module ExtendedCommunity.
Definition type_high (b : list Z) : option Z := b !! 0%nat.
Definition type_low (b : list Z) : option Z := b !! 1%nat.
Definition is_transitive (b : list Z) : bool :=
  match b !! 0%nat with Some t => Z.land t 0x40 =? 0 | None => false end.
Definition value (b : list Z) : list Z := drop 2 b.
Definition route_target_as2 (asn v : Z) : list Z := [0x00; 0x02] ++ u16_be asn ++ u32_be v.
Definition route_target_as4 (asn v : Z) : list Z := [0x02; 0x02] ++ u32_be asn ++ u16_be v.
Definition route_origin_as2 (asn v : Z) : list Z := [0x00; 0x03] ++ u16_be asn ++ u32_be v.
Definition wf (b : list Z) : Prop := length b = 8%nat /\ bytes b.
End ExtendedCommunity.

(** ** [afi.rs] *)
Module Afi.
Definition IPV4 : Z := 1.
Definition IPV6 : Z := 2.
Definition L2VPN : Z := 25.
End Afi.
Module Safi.
Definition UNICAST : Z := 1.
Definition MULTICAST : Z := 2.
Definition MPLS_LABELED : Z := 4.
Definition VPLS : Z := 65.
Definition EVPN : Z := 70.
Definition MPLS_VPN : Z := 128.
Definition FLOW_SPEC : Z := 133.
Definition FLOW_SPEC_VPN : Z := 134.
End Safi.

Record AfiSafi := mkAfiSafi { afi : Z; safi : Z }.
#[export] Instance AfiSafi_eq_dec : EqDecision AfiSafi.
Proof. solve_decision. Defined.
Definition IPV4_UNICAST : AfiSafi := mkAfiSafi Afi.IPV4 Safi.UNICAST.
Definition IPV6_UNICAST : AfiSafi := mkAfiSafi Afi.IPV6 Safi.UNICAST.
Definition AfiSafi_wf (a : AfiSafi) : Prop := is_u16 (afi a) /\ is_u8 (safi a).

(** ** [attr.rs] *)
Inductive Origin := Igp | Egp | Incomplete.
#[export] Instance Origin_eq_dec : EqDecision Origin.
Proof. solve_decision. Defined.

Module OriginOps.
Definition as_u8 (o : Origin) : Z := match o with Igp => 0 | Egp => 1 | Incomplete => 2 end.
Definition from_u8 (v : Z) : option Origin :=
  match v with 0 => Some Igp | 1 => Some Egp | 2 => Some Incomplete | _ => None end.
(** derived [Ord]: by discriminant *)
Definition cmp (a b : Origin) : comparison := as_u8 a ?= as_u8 b.
End OriginOps.

(** [LocalPref::DEFAULT] *)
Definition LocalPref_DEFAULT : Z := 100.

Inductive NextHop :=
| NhV4 (a : Z)
| NhV6 (a : Z)
| NhV6WithLinkLocal (global link_local : Z).
#[export] Instance NextHop_eq_dec : EqDecision NextHop.
Proof. solve_decision. Defined.

Module NextHopOps.
Definition is_v4 (n : NextHop) : bool := match n with NhV4 _ => true | _ => false end.
Definition is_v6 (n : NextHop) : bool :=
  match n with NhV6 _ | NhV6WithLinkLocal _ _ => true | _ => false end.
Definition wf (n : NextHop) : Prop :=
  match n with
  | NhV4 a => is_u32 a
  | NhV6 a => is_u128 a
  | NhV6WithLinkLocal g l => is_u128 g /\ is_u128 l
  end.
End NextHopOps.

Record Aggregator := mkAggregator { agg_asn : Z; agg_ip : Z }.
#[export] Instance Aggregator_eq_dec : EqDecision Aggregator.
Proof. solve_decision. Defined.

Record UnknownAttribute := mkUnknownAttribute { ua_type_code : Z; ua_value : list Z }.
#[export] Instance UnknownAttribute_eq_dec : EqDecision UnknownAttribute.
Proof. solve_decision. Defined.

(** [std::net::Ipv4Addr] predicates on the [u32] value *)
Module Ipv4.
Definition UNSPECIFIED : Z := 0.
Definition BROADCAST : Z := 0xFFFFFFFF.
Definition octet0 (a : Z) : Z := a / 16777216.
Definition is_unspecified (a : Z) : bool := a =? 0.
Definition is_loopback (a : Z) : bool := octet0 a =? 127.
Definition is_multicast (a : Z) : bool := (224 <=? octet0 a) && (octet0 a <=? 239).
End Ipv4.

(** [std::net::Ipv6Addr] predicates on the [u128] value *)
Module Ipv6.
Definition UNSPECIFIED : Z := 0.
Definition is_unspecified (a : Z) : bool := a =? 0.
Definition is_multicast (a : Z) : bool := a / 2 ^ 120 =? 0xff.
End Ipv6.

(** * Facts *)

Lemma role_wire_roundtrip r : RoleOps.from_wire_value (RoleOps.as_wire_value r) = Some r.
Proof. by destruct r. Qed.

Lemma role_from_wire_inv v r : RoleOps.from_wire_value v = Some r -> v = RoleOps.as_wire_value r.
Proof.
  unfold RoleOps.from_wire_value. intros H.
  repeat (case_match; simplify_eq; try done).
Qed.

Lemma role_wire_u8 r : is_u8 (RoleOps.as_wire_value r).
Proof. destruct r; unfold is_u8; simpl; lia. Qed.

(** Every role has exactly one compatible role, and compatibility is symmetric. *)
Definition role_partner (r : Role) : Role :=
  match r with
  | Provider => Customer | Customer => Provider
  | RouteServer => RsClient | RsClient => RouteServer | Peer => Peer
  end.
Lemma role_compatible_partner a b :
  RoleOps.is_compatible_with a b = true <-> b = role_partner a.
Proof. destruct a, b; split; done. Qed.

Lemma origin_u8_roundtrip o : OriginOps.from_u8 (OriginOps.as_u8 o) = Some o.
Proof. by destruct o. Qed.
Lemma origin_as_u8_u8 o : is_u8 (OriginOps.as_u8 o).
Proof. destruct o; unfold is_u8; simpl; lia. Qed.
Lemma origin_cmp_eq a b : OriginOps.cmp a b = Eq <-> a = b.
Proof. destruct a, b; split; done. Qed.

Lemma community_from_parts_add h l : is_u16 l -> Community.from_parts h l = h * 65536 + l.
Proof.
  intros Hl. unfold Community.from_parts.
  rewrite <- Z.add_lor_land, Z.shiftl_mul_pow2 by lia.
  change (2 ^ 16) with 65536.
  replace (Z.land (h * 65536) l) with 0; [lia|].
  symmetry. apply Z.bits_inj'. intros n Hn. rewrite Z.land_spec, Z.bits_0.
  change 65536 with (2 ^ 16). destruct (Z.ltb_spec n 16).
  - by rewrite Z.mul_pow2_bits_low by lia.
  - replace l with (l mod 2 ^ 16) by (apply Z.mod_small; blia).
    rewrite Z.mod_pow2_bits_high by lia. by rewrite andb_false_r.
Qed.

Lemma community_parts h l : is_u16 h -> is_u16 l ->
  Community.high (Community.from_parts h l) = h
  /\ Community.low (Community.from_parts h l) = l.
Proof.
  intros Hh Hl. unfold Community.high, Community.low.
  rewrite community_from_parts_add by done.
  rewrite Z.shiftr_div_pow2 by lia. change (2 ^ 16) with 65536.
  unfold is_u16, as_u16 in *. split.
  - rewrite Z.div_add_l, Z.div_small, Z.add_0_r, Z.mod_small by lia. done.
  - rewrite Z.add_comm, Z.mod_add, Z.mod_small by lia. done.
Qed.

Lemma community_split c : is_u32 c ->
  Community.from_parts (Community.high c) (Community.low c) = c.
Proof.
  intros Hc. unfold Community.high, Community.low.
  rewrite community_from_parts_add by (unfold is_u16, as_u16; apply Z.mod_pos_bound; lia).
  rewrite Z.shiftr_div_pow2 by lia. change (2 ^ 16) with 65536. unfold as_u16, is_u32 in *.
  rewrite (Z.mod_small (c / 65536)).
  - pose proof (Z.div_mod c 65536). lia.
  - split; [apply Z.div_pos; lia|apply Z.div_lt_upper_bound; lia].
Qed.

Lemma large_community_roundtrip lc : LargeCommunityOps.wf lc ->
  length (LargeCommunityOps.to_bytes lc) = 12%nat
  /\ LargeCommunityOps.from_bytes (LargeCommunityOps.to_bytes lc) = lc.
Proof.
  intros (Ha & Hb & Hc). destruct lc as [a b c].
  cbn [global_administrator local_data_1 local_data_2] in *.
  unfold LargeCommunityOps.to_bytes, LargeCommunityOps.from_bytes.
  cbn [global_administrator local_data_1 local_data_2].
  assert (Hl : forall v, length (u32_be v) = 4%nat) by (intros; apply be_bytes_length).
  split; [by rewrite !length_app, !Hl|].
  rewrite take_app_length' by (by rewrite Hl).
  rewrite drop_app_length' by (by rewrite Hl).
  rewrite take_app_length' by (by rewrite Hl).
  rewrite app_assoc, drop_app_length' by (by rewrite length_app, !Hl).
  rewrite take_ge by (by rewrite Hl).
  by rewrite !u32_be_roundtrip.
Qed.

#[export] Hint Resolve role_wire_u8 origin_as_u8_u8 : pv.
