(* ===== verification/Proto.v ===== *)
(** The messages of the management API ([proto/pathvector/v1/*.proto]) and the
    text of prefixes.

    A message is a record; an enumeration field is its number, a missing optional
    field [None].  The text of a prefix is that of the [ipnetx] crate, an
    interface with the laws the API relies on: CIDR notation, read back exactly. *)
From Stdlib Require Import ZArith Lia Bool String.
From stdpp Require Import base tactics numbers decidable sets sorting list.
From S2P Require Import Prelude Addr AddrText Types.
Open Scope Z_scope.

(** ** Texts *)

Fixpoint text_leb (a b : Text) : bool :=
  match a, b with
  | [], _ => true
  | _ :: _, [] => false
  | x :: a, y :: b => if x <? y then true else if y <? x then false else text_leb a b
  end.
(** The order of [String]: by bytes. *)
Definition text_le (a b : Text) : Prop := text_leb a b = true.
#[export] Instance text_le_dec : RelDecision text_le := fun a b => decide (text_leb a b = true).
Lemma text_le_refl a : text_le a a.
Proof. induction a as [|x a IH]; [done|]. unfold text_le. cbn. by rewrite Z.ltb_irrefl. Qed.
#[export] Instance text_le_total : Total text_le.
Proof.
  intros a. induction a as [|x a IH]; intros [|y b]; [by left|by left|by right|].
  unfold text_le in *. cbn. destruct (Z.ltb_spec x y), (Z.ltb_spec y x); auto; lia.
Qed.
#[export] Instance text_le_trans : Transitive text_le.
Proof.
  intros a. induction a as [|x a IH]; intros [|y b] [|z c]; try done. unfold text_le in *. cbn.
  repeat (case_match; zbool; try done; try lia). intros. by eapply IH.
Qed.
#[export] Instance text_le_antisymm : AntiSymm (=) text_le.
Proof.
  intros a. induction a as [|x a IH]; intros [|y b]; try done. unfold text_le in *. cbn.
  repeat (case_match; zbool; try done; try lia). intros. f_equal; [lia|auto].
Qed.
(** [sort_by_key]: a stable sort *)
Definition by_text {A} (key : A -> Text) : relation A := fun x y => text_le (key x) (key y).
#[export] Instance by_text_dec {A} (key : A -> Text) : RelDecision (by_text key) :=
  fun x y => text_le_dec (key x) (key y).
#[export] Instance by_text_total {A} (key : A -> Text) : Total (by_text key) :=
  fun x y => text_le_total (key x) (key y).
#[export] Instance by_text_trans {A} (key : A -> Text) : Transitive (by_text key) :=
  fun x y z => text_le_trans (key x) (key y) (key z).
Definition sort_by_text {A} (key : A -> Text) (l : list A) : list A := merge_sort (by_text key) l.

(** [Display] and [FromStr] of [Nlri] *)
Definition SLASH : Z := 47.
Class NlriText `{P : IpPrefixOps} := {
  nlri_to_string : forall {f}, Nlri f -> Text;
  nlri_parse : forall f, Text -> option (Nlri f);
}.
Definition family_addr (f : Family) (a : Z) : IpAddr := match f with FamV4 => IpV4 a | FamV6 => IpV6 a end.
Class NlriTextLaws `{NlriText} : Prop := {
  nlri_to_string_cidr : forall f (n : Nlri f),
    nlri_to_string n = addr_to_string (family_addr f (nlri_ip n)) ++ SLASH :: dec_u8 (prefix_len n);
  nlri_parse_to_string : forall f (n : Nlri f), nlri_parse f (nlri_to_string n) = Some n;
  nlri_parse_colon : forall f s (n : Nlri f), nlri_parse f s = Some n -> (COLON ∈ s <-> f = FamV6);
}.

(** ** Messages *)

Record ProtoAsSegment := mkProtoAsSegment { as_type : Z; as_asns : list Z }.
Record ProtoAggregator := mkProtoAggregator { pg_asn : Z; pg_address : Text }.
Record ProtoRoute := mkProtoRoute {
  pr_prefix : Text;
  pr_peer_address : Text;
  pr_peer_type : Z;
  pr_next_hop : Text;
  pr_as_path : list ProtoAsSegment;
  pr_origin : Z;
  pr_local_pref : option Z;
  pr_med : option Z;
  pr_communities : list Z;
  pr_large_communities : list LargeCommunity;
  pr_extended_communities : list (list Z);
  pr_atomic_aggregate : bool;
  pr_aggregator : option ProtoAggregator;
}.
Record ProtoPeerState := mkProtoPeerState {
  pp_address : Text;
  pp_remote_as : Z;
  pp_local_as : Z;
  pp_session_state : Z;
  pp_peer_type : Z;
  pp_hold_time : Z;
  pp_uptime_seconds : Z;
  pp_prefixes_received : Z;
  pp_prefixes_accepted : Z;
  pp_prefixes_advertised : Z;
  pp_eor_ipv4_received : bool;
  pp_eor_ipv6_received : bool;
  pp_peer_gr_restart_time : Z;
  pp_configured_role : Text;
  pp_negotiated_role : Text;
}.
Record ListRoutesRequest := mkListRoutes { lq_peer_address : Text; lq_page_size : Z; lq_page_token : Text }.
Record ListRoutesResponse := mkRoutesResponse { ls_routes : list ProtoRoute; ls_next_page_token : Text }.
Record AddPeerRequest := mkAddPeer {
  aq_address : Text;
  aq_remote_as : Z;
  aq_port : Z;
  aq_import_default : Z;
  aq_export_default : Z;
  aq_md5_password : Text;
}.
Record OriginateRouteRequest := mkOriginate {
  oq_prefix : Text;
  oq_next_hop : Text;
  oq_origin : Z;
  oq_communities : list Z;
  oq_large_communities : list LargeCommunity;
  oq_extended_communities : list (list Z);
  oq_local_pref : option Z;
  oq_med : option Z;
}.
Record ProtoRouteEvent := mkProtoRouteEvent {
  pe_type : Z;
  pe_route : option ProtoRoute;
  pe_withdrawn_prefix : option Text;
}.
Record ProtoPeerEvent := mkProtoPeerEvent { ppe_type : Z; ppe_peer : option ProtoPeerState }.
Record RpkiStatusResponse := mkRpkiStatus {
  rs_enabled : bool;
  rs_connected : bool;
  rs_rtr_version : Text;
  rs_serial : option Z;
  rs_roa_count : Z;
  rs_last_update_unix : option Z;
  rs_last_error : Text;
}.

(** The numbers of the enumerations *)
Module Num.
Definition ORIGIN_IGP : Z := 0.
Definition ORIGIN_EGP : Z := 1.
Definition ORIGIN_INCOMPLETE : Z := 2.
Definition PEER_TYPE_UNSPECIFIED : Z := 0.
Definition PEER_TYPE_EXTERNAL : Z := 1.
Definition PEER_TYPE_INTERNAL : Z := 2.
Definition PEER_TYPE_CONFED_MEMBER : Z := 3.
Definition AS_SEQUENCE : Z := 1.
Definition AS_SET : Z := 2.
Definition AS_CONFED_SEQUENCE : Z := 3.
Definition AS_CONFED_SET : Z := 4.
Definition SESSION_IDLE : Z := 1.
Definition SESSION_ESTABLISHED : Z := 2.
Definition EVENT_CURRENT : Z := 1.
Definition EVENT_END_INITIAL : Z := 2.
Definition EVENT_ANNOUNCED : Z := 3.
Definition EVENT_WITHDRAWN : Z := 4.
Definition EVENT_CHANGED : Z := 3.
Definition EVENT_REMOVED : Z := 4.
Definition ACTION_UNSPECIFIED : Z := 0.
Definition ACTION_ACCEPT : Z := 1.
Definition ACTION_REJECT : Z := 2.
Definition ROA_VALID : Z := 1.
Definition ROA_INVALID : Z := 2.
Definition ROA_NOT_FOUND : Z := 3.
End Num.

(** The codes of [tonic::Status] the services return; the messages are left out. *)
Inductive Status := InvalidArgument | NotFoundStatus | FailedPrecondition | InternalStatus | DataLoss.
#[export] Instance Status_eq_dec : EqDecision Status.
Proof. solve_decision. Defined.

(** ** Laws of the texts *)

Lemma dec_u8_no_colon n : 0 <= n < 1000 -> COLON ∉ dec_u8 n.
Proof.
  unfold dec_u8. rewrite digits_dlist, app_nil_r. intros Hn (d & E & Hd)%list_elem_of_fmap.
  destruct (dlist_ok 3 10 n ltac:(lia) ltac:(cbn; lia)) as (_ & _ & H).
  rewrite Forall_forall in H. specialize (H d Hd). unfold hex_char, COLON in E. case_match; zbool; lia.
Qed.
Lemma show_v4_no_colon a : 0 <= a < 2 ^ 32 -> COLON ∉ show_v4 a.
Proof.
  intros Ha. destruct (show_v4_octets a Ha) as (b0 & b1 & b2 & b3 & _ & Hb & ->).
  rewrite !Forall_cons in Hb. destruct Hb as (H0 & H1 & H2 & H3 & _). unfold is_u8 in *.
  rewrite !elem_of_app, !elem_of_cons, !elem_of_app, !elem_of_cons, !elem_of_app, !elem_of_cons.
  pose proof (dec_u8_no_colon b0 ltac:(lia)). pose proof (dec_u8_no_colon b1 ltac:(lia)).
  pose proof (dec_u8_no_colon b2 ltac:(lia)). pose proof (dec_u8_no_colon b3 ltac:(lia)).
  assert (COLON <> DOT) by done. tauto.
Qed.
Lemma show_v4_short a : 0 <= a < 2 ^ 32 -> (length (show_v4 a) <= 15)%nat.
Proof.
  intros Ha. destruct (show_v4_octets a Ha) as (b0 & b1 & b2 & b3 & _ & Hb & ->).
  rewrite !Forall_cons in Hb. destruct Hb as (H0 & H1 & H2 & H3 & _). unfold is_u8 in *.
  assert (H : forall b, 0 <= b < 256 -> (length (dec_u8 b) <= 3)%nat).
  { intros b Hb. unfold dec_u8. rewrite digits_dlist, app_nil_r, length_map.
    by destruct (dlist_ok 3 10 b ltac:(lia) ltac:(cbn; lia)) as (_ & ? & _). }
  pose proof (H _ H0). pose proof (H _ H1). pose proof (H _ H2). pose proof (H _ H3).
  repeat (rewrite length_app || cbn [length]). lia.
Qed.
Lemma v4_parse_show a : 0 <= a < 2 ^ 32 -> v4_parse (show_v4 a) = Some a.
Proof.
  intros Ha. pose proof (show_v4_short a Ha). unfold v4_parse.
  replace (15 <? length (show_v4 a))%nat with false by (symmetry; apply Nat.ltb_ge; lia).
  unfold parse_with. by rewrite <- (app_nil_r (show_v4 a)), read_show_v4.
Qed.
Lemma addr_to_string_not_empty a : ip_ok a -> addr_to_string a <> [].
Proof. intros Ha. by apply addr_to_string_other. Qed.
Lemma addr_to_string_not_local a : ip_ok a -> addr_to_string a <> text "local".
Proof. intros Ha. by apply addr_to_string_other. Qed.

Lemma show_groups_chars x gs : Forall is_u16 gs -> x ∈ show_groups gs ->
  48 <= x < 58 \/ 97 <= x < 103 \/ x = COLON.
Proof.
  rewrite show_groups_at. intros Hg Hx.
  assert (Hf : forall gs, Forall is_u16 gs -> x ∈ flat_map (fun g => COLON :: hex_u16 g) gs ->
    48 <= x < 58 \/ 97 <= x < 103 \/ x = COLON).
  { clear. intros gs Hg Hx. apply list_elem_of_In, in_flat_map in Hx as (g & Hi%list_elem_of_In & Hx).
    rewrite Forall_forall in Hg. destruct Hx as [<-|Hx%list_elem_of_In]; [auto|].
    apply hex_u16_chars in Hx; [tauto|auto]. }
  destruct gs as [|g gs]; [by apply (Hf []) in Hx|]. cbn in Hx.
  apply Forall_cons in Hg as [H1 H2]. apply elem_of_app in Hx as [Hx|Hx]; [|by apply (Hf gs)].
  apply hex_u16_chars in Hx; tauto.
Qed.
Lemma show_v4_chars x a : 0 <= a < 2 ^ 32 -> x ∈ show_v4 a -> 48 <= x < 58 \/ x = DOT.
Proof.
  intros Ha Hx. destruct (show_v4_octets a Ha) as (b0 & b1 & b2 & b3 & _ & Hb & E). rewrite E in Hx.
  rewrite !Forall_cons in Hb. destruct Hb as (H0 & H1 & H2 & H3 & _).
  assert (H : forall b, is_u8 b -> x ∈ dec_u8 b -> 48 <= x < 58).
  { unfold dec_u8, is_u8. intros b Hb. rewrite digits_dlist, app_nil_r.
    intros (d & -> & Hd)%list_elem_of_fmap.
    destruct (dlist_ok 3 10 b ltac:(lia) ltac:(cbn; lia)) as (_ & _ & H).
    rewrite Forall_forall in H. specialize (H d Hd). unfold hex_char. case_match; zbool; lia. }
  rewrite !elem_of_app, !elem_of_cons, !elem_of_app, !elem_of_cons, !elem_of_app, !elem_of_cons in Hx.
  destruct Hx as [Hx|[Hx|[Hx|[Hx|[Hx|[Hx|Hx]]]]]]; eauto.
Qed.
Lemma show_v6_split a : exists s t, show_v6 a = s ++ COLON :: t.
Proof.
  unfold show_v6. destruct (is_mapped a); [by exists [], (text ":ffff:" ++ show_v4 (a mod 2 ^ 32))|].
  destruct (zero_run _ _ _ _) as [st n]. case_match.
  - eexists _, (COLON :: _). cbn. done.
  - rewrite show_groups_at. unfold segments. cbn [seq map groups_at flat_map]. by eexists _, _.
Qed.
Lemma addr_no_slash a : ip_ok a -> SLASH ∉ addr_to_string a.
Proof.
  intros Ha Hx. destruct a as [a|a]; cbn in Ha, Hx.
  - apply show_v4_chars in Hx; [unfold SLASH, DOT in Hx; lia|done].
  - unfold show_v6 in Hx. destruct (segments_ok a) as [Hs _].
    assert (Hg : forall gs, Forall is_u16 gs -> SLASH ∉ show_groups gs)
      by (intros gs Hg Hc; apply show_groups_chars in Hc; [unfold SLASH, COLON in Hc; lia|done]).
    destruct (is_mapped a).
    + apply elem_of_app in Hx as [Hx|Hx]; [apply list_elem_of_In in Hx; vm_compute in Hx; by intuition|].
      apply show_v4_chars in Hx; [unfold SLASH, DOT in Hx; lia|apply Z.mod_pos_bound; lia].
    + destruct (zero_run _ _ _ _) as [st n]. case_match; [|by apply (Hg (segments a))].
      rewrite !elem_of_app in Hx. destruct Hx as [Hx|[Hx|Hx]].
      * by apply (Hg (take st (segments a))); [apply Forall_take|].
      * unfold SLASH, COLON in Hx. set_solver.
      * by apply (Hg (drop (st + n) (segments a))); [apply Forall_drop|].
Qed.
Lemma cidr_colon f a l : 0 <= a < 2 ^ width f -> 0 <= l < 256 ->
  COLON ∈ addr_to_string (family_addr f a) ++ SLASH :: dec_u8 l <-> f = FamV6.
Proof.
  intros Ha Hl. destruct f; cbn [family_addr addr_to_string]; split; try done.
  - intros Hx. apply elem_of_app in Hx as [Hx|Hx]; [by apply show_v4_no_colon in Hx|].
    apply elem_of_cons in Hx as [Hx|Hx]; [done|]. by apply dec_u8_no_colon in Hx; [|lia].
  - intros _. destruct (show_v6_split a) as (s & t & ->). set_solver.
Qed.

(** ** A concrete text of prefixes *)
Module ModelText.
Section Instance_.
Context `{P : IpPrefixOps}.
Definition show {f} (n : Nlri f) : Text :=
  addr_to_string (family_addr f (nlri_ip n)) ++ SLASH :: dec_u8 (prefix_len n).
Fixpoint split_slash (s : Text) : option (Text * Text) :=
  match s with
  | [] => None
  | c :: s => if c =? SLASH then Some ([], s)
              else '(a, b) ← split_slash s; Some (c :: a, b)
  end.
Definition parse (f : Family) (s : Text) : option (Nlri f) :=
  '(a, b) ← split_slash s;
  match addr_parse a, f with
  | Some (IpV4 a), FamV4 | Some (IpV6 a), FamV6 =>
      len ← parse_with (read_number 10 255 3 false) b;
      if bool_decide (COLON ∈ s <-> f = FamV6) then nlri_new f a len else None
  | _, _ => None
  end.
#[export] Instance text_ops : NlriText := {| nlri_to_string := @show; nlri_parse := parse |}.

Lemma split_slash_app a b : SLASH ∉ a -> split_slash (a ++ SLASH :: b) = Some (a, b).
Proof.
  induction a as [|c a IH]; intros Ha; [done|]. cbn. apply not_elem_of_cons in Ha as [Hc Ha].
  destruct (Z.eqb_spec c SLASH); [congruence|]. by rewrite IH.
Qed.
Lemma parse_show `{L : !IpPrefixLaws} f (n : Nlri f) : parse f (show n) = Some n.
Proof.
  unfold parse, show. set (a := family_addr f (nlri_ip n)).
  pose proof (prefix_ip_ok f (nlri_prefix n)) as Hip. pose proof (prefix_mask_ok f (nlri_prefix n)) as Hm.
  assert (Ha : ip_ok a) by (by subst a; destruct f).
  rewrite split_slash_app by by apply addr_no_slash. cbn [mbind option_bind].
  rewrite addr_parse_string by done.
  assert (Hw : width f <= 128) by by destruct f.
  assert (El : parse_with (read_number 10 255 3 false) (dec_u8 (prefix_len n)) = Some (prefix_len n)).
  { unfold parse_with. rewrite <- (app_nil_r (dec_u8 _)), read_dec; [done| |done].
    unfold is_u8, prefix_len. lia. }
  rewrite bool_decide_eq_true_2 by (subst a; apply cidr_colon; [exact Hip|unfold prefix_len; lia]). rewrite El. cbn [mbind option_bind].
  assert (En : nlri_new f (nlri_ip n) (prefix_len n) = Some n).
  { unfold nlri_new. destruct (prefix_new_ok f (nlri_ip n) (prefix_len n) Hip Hm) as (p & -> & E1 & E2).
    cbn. unfold from_prefix. f_equal. destruct n as [q]. f_equal. by apply prefix_ext. }
  subst a. by destruct f.
Qed.
#[export] Instance text_laws `{L : !IpPrefixLaws} : NlriTextLaws.
Proof.
  split; [done|exact parse_show|].
  intros f s n H. cbn in H. unfold parse in H. destruct (split_slash s) as [[a b]|]; [|done].
  cbn [mbind option_bind] in H.
  destruct (addr_parse a) as [[x|x]|], f; try done; destruct (parse_with _ b) as [l|]; try done;
    cbn [mbind option_bind] in H; by case_bool_decide.
Qed.
End Instance_.
End ModelText.
