(* ===== verification/AsPath.v ===== *)
(** AS paths ([pathvector-types/src/aspath.rs]). *)
From Stdlib Require Import ZArith Lia Bool.
From stdpp Require Import base tactics numbers countable decidable list.
From S2P Require Import Prelude Types.
Open Scope Z_scope.

Inductive AsPathSegment :=
| Sequence (v : list Z)
| Set_ (v : list Z)
| ConfedSequence (v : list Z)
| ConfedSet (v : list Z).
#[export] Instance AsPathSegment_eq_dec : EqDecision AsPathSegment.
Proof. solve_decision. Defined.

(** [struct AsPath { segments: Vec<AsPathSegment> }] *)
Definition AsPath : Type := list AsPathSegment.

Module Seg.
Definition asns (s : AsPathSegment) : list Z :=
  match s with Sequence v | Set_ v | ConfedSequence v | ConfedSet v => v end.
Definition path_length (s : AsPathSegment) : nat :=
  match s with
  | Sequence v => length v
  | Set_ _ => 1
  | ConfedSequence _ | ConfedSet _ => 0
  end.
Definition contains (s : AsPathSegment) (asn : Z) : bool :=
  existsb (fun a => a =? asn) (asns s).
Definition is_empty (s : AsPathSegment) : bool :=
  match asns s with [] => true | _ => false end.
Definition is_confed (s : AsPathSegment) : bool :=
  match s with ConfedSequence _ | ConfedSet _ => true | _ => false end.
(** rebuild a segment of the same kind ([match seg { .. }] in the downgrade) *)
Definition with_asns (s : AsPathSegment) (v : list Z) : AsPathSegment :=
  match s with
  | Sequence _ => Sequence v
  | Set_ _ => Set_ v
  | ConfedSequence _ => ConfedSequence v
  | ConfedSet _ => ConfedSet v
  end.
End Seg.

Module Path.
Definition new : AsPath := [].
Definition from_sequence (asns : list Z) : AsPath :=
  match asns with [] => new | _ => [Sequence asns] end.
Definition prepend (p : AsPath) (asn : Z) : AsPath :=
  match p with
  | Sequence asns :: tl =>
      if (length asns <? 255)%nat then Sequence (asn :: asns) :: tl
      else Sequence [asn] :: p
  | _ => Sequence [asn] :: p
  end.
Definition prepend_confed (p : AsPath) (asn : Z) : AsPath :=
  match p with
  | ConfedSequence asns :: tl =>
      if (length asns <? 255)%nat then ConfedSequence (asn :: asns) :: tl
      else ConfedSequence [asn] :: p
  | _ => ConfedSequence [asn] :: p
  end.
Definition contains (p : AsPath) (asn : Z) : bool :=
  existsb (fun seg => Seg.contains seg asn) p.
Definition path_length (p : AsPath) : nat := sum_list_with Seg.path_length p.
Definition origin_as (p : AsPath) (local_as : Z) : option Z :=
  match list.last p with
  | Some (Sequence asns) => list.last asns
  | Some (ConfedSequence _) | Some (ConfedSet _) | None => Some local_as
  | Some (Set_ _) => None
  end.
Definition neighboring_as (p : AsPath) : option Z :=
  find_map (fun seg => match seg with Sequence asns => head asns | _ => None end) p.
Definition is_empty (p : AsPath) : bool :=
  match p with [] => true | _ => forallb Seg.is_empty p end.
Definition downgrade_asn (a : Z) : Z := if Asn.is_four_byte a then Asn.TRANS else a.
Definition downgrade_for_two_byte_peer (p : AsPath) : AsPath * option AsPath :=
  let needs_downgrade := existsb (fun seg => existsb Asn.is_four_byte (Seg.asns seg)) p in
  if negb needs_downgrade then (p, None)
  else (map (fun seg => Seg.with_asns seg (map downgrade_asn (Seg.asns seg))) p, Some p).
Definition strip_confed_segments (p : AsPath) : AsPath :=
  List.filter (fun seg => negb (Seg.is_confed seg)) p.

(** Wire-encodable: every segment holds at most 255 ASNs, each a [u32]. *)
Definition seg_wf (s : AsPathSegment) : Prop :=
  (length (Seg.asns s) <= 255)%nat /\ Forall is_u32 (Seg.asns s).
Definition wf (p : AsPath) : Prop := Forall seg_wf p.
End Path.

(** * Facts *)
Lemma seg_contains_elem s a : Seg.contains s a = true <-> a ∈ Seg.asns s.
Proof.
  unfold Seg.contains. rewrite existsb_elem. split.
  - by intros (x & Hx & ->%Z.eqb_eq).
  - intros H. exists a. by rewrite Z.eqb_refl.
Qed.

Lemma path_contains_elem p a :
  Path.contains p a = true <-> exists s, s ∈ p /\ a ∈ Seg.asns s.
Proof.
  unfold Path.contains. rewrite existsb_elem. by setoid_rewrite seg_contains_elem.
Qed.

Lemma prepend_shape p a :
  (exists v tl, p = Sequence v :: tl /\ Path.prepend p a = Sequence (a :: v) :: tl
                /\ (length v < 255)%nat)
  \/ Path.prepend p a = Sequence [a] :: p.
Proof.
  destruct p as [|[v|v|v|v] tl]; simpl; auto.
  destruct (Nat.ltb_spec (length v) 255); eauto 10.
Qed.

Lemma prepend_confed_shape p a :
  (exists v tl, p = ConfedSequence v :: tl
                /\ Path.prepend_confed p a = ConfedSequence (a :: v) :: tl
                /\ (length v < 255)%nat)
  \/ Path.prepend_confed p a = ConfedSequence [a] :: p.
Proof.
  destruct p as [|[v|v|v|v] tl]; simpl; auto.
  destruct (Nat.ltb_spec (length v) 255); eauto 10.
Qed.

Lemma prepend_length p a : Path.path_length (Path.prepend p a) = S (Path.path_length p).
Proof. by destruct (prepend_shape p a) as [(v & tl & -> & -> & _)| ->]. Qed.

Lemma prepend_confed_length p a :
  Path.path_length (Path.prepend_confed p a) = Path.path_length p.
Proof. by destruct (prepend_confed_shape p a) as [(v & tl & -> & -> & _)| ->]. Qed.

Lemma prepend_contains p a b :
  Path.contains (Path.prepend p a) b = (a =? b) || Path.contains p b.
Proof.
  destruct (prepend_shape p a) as [(v & tl & -> & -> & _)| ->];
    unfold Path.contains, Seg.contains; simpl; by rewrite ?orb_false_r, ?orb_assoc.
Qed.

Lemma prepend_confed_contains p a b :
  Path.contains (Path.prepend_confed p a) b = (a =? b) || Path.contains p b.
Proof.
  destruct (prepend_confed_shape p a) as [(v & tl & -> & -> & _)| ->];
    unfold Path.contains, Seg.contains; simpl; by rewrite ?orb_false_r, ?orb_assoc.
Qed.

Lemma prepend_wf p a : is_u32 a -> Path.wf p -> Path.wf (Path.prepend p a).
Proof.
  intros Ha Hp. destruct (prepend_shape p a) as [(v & tl & -> & -> & Hv)| ->].
  - inversion_clear Hp as [|? ? [H1 H2] Htl]. constructor; [|done].
    split; simpl in *; [lia|by constructor].
  - constructor; [|done]. split; simpl; [lia|by constructor].
Qed.

Lemma prepend_confed_wf p a : is_u32 a -> Path.wf p -> Path.wf (Path.prepend_confed p a).
Proof.
  intros Ha Hp. destruct (prepend_confed_shape p a) as [(v & tl & -> & -> & Hv)| ->].
  - inversion_clear Hp as [|? ? [H1 H2] Htl]. constructor; [|done].
    split; simpl in *; [lia|by constructor].
  - constructor; [|done]. split; simpl; [lia|by constructor].
Qed.

Lemma prepend_neighboring p a : Path.neighboring_as (Path.prepend p a) = Some a.
Proof. by destruct (prepend_shape p a) as [(v & tl & -> & -> & _)| ->]. Qed.

(** Prepending to a non-empty path never changes the originating AS. *)
Lemma prepend_origin p a l : p <> [] -> (forall v, p = [Sequence v] -> v <> []) ->
  Path.origin_as (Path.prepend p a) l = Path.origin_as p l.
Proof.
  intros Hne Hseq. destruct (prepend_shape p a) as [(v & tl & -> & -> & _)| ->].
  - unfold Path.origin_as. destruct tl as [|s tl]; [|done]. simpl.
    specialize (Hseq v eq_refl). by destruct v.
  - unfold Path.origin_as. by destruct p.
Qed.

Lemma strip_confed_length p :
  Path.path_length (Path.strip_confed_segments p) = Path.path_length p.
Proof.
  unfold Path.path_length, Path.strip_confed_segments.
  induction p as [|[v|v|v|v] tl IH]; simpl; congruence.
Qed.

Lemma strip_confed_none p s : s ∈ Path.strip_confed_segments p -> Seg.is_confed s = false.
Proof.
  unfold Path.strip_confed_segments. rewrite list_elem_of_In, filter_In.
  by intros [_ H%negb_true_iff].
Qed.

Lemma strip_confed_id p : Forall (fun s => Seg.is_confed s = false) p ->
  Path.strip_confed_segments p = p.
Proof.
  unfold Path.strip_confed_segments.
  induction 1 as [|s p Hs _ IH]; [done|]. cbn [List.filter]. rewrite Hs. simpl. by f_equal.
Qed.

Lemma strip_confed_Forall p :
  Forall (fun s => Seg.is_confed s = false) (Path.strip_confed_segments p).
Proof. apply Forall_forall. intros s. apply strip_confed_none. Qed.

Lemma strip_confed_idemp p :
  Path.strip_confed_segments (Path.strip_confed_segments p) = Path.strip_confed_segments p.
Proof. apply strip_confed_id, strip_confed_Forall. Qed.

Lemma strip_confed_wf p : Path.wf p -> Path.wf (Path.strip_confed_segments p).
Proof.
  unfold Path.wf, Path.strip_confed_segments. rewrite !List.Forall_forall.
  intros H s [Hs _]%filter_In. auto.
Qed.

Lemma prepend_confed_free p a : Forall (fun s => Seg.is_confed s = false) p ->
  Forall (fun s => Seg.is_confed s = false) (Path.prepend p a).
Proof.
  intros Hp. destruct (prepend_shape p a) as [(v & tl & -> & -> & _)| ->]; [|by constructor].
  inversion_clear Hp. by constructor.
Qed.

Lemma downgrade_asn_u16 a : is_u32 a -> is_u16 (Path.downgrade_asn a).
Proof.
  intros. unfold Path.downgrade_asn, Asn.is_four_byte, Asn.TRANS.
  destruct (Z.ltb_spec 65535 a); blia.
Qed.

Lemma downgrade_seg_fits s : Forall is_u32 (Seg.asns s) ->
  Forall is_u16 (Seg.asns (Seg.with_asns s (map Path.downgrade_asn (Seg.asns s)))).
Proof.
  intros H. assert (Forall is_u16 (map Path.downgrade_asn (Seg.asns s))).
  { apply Forall_fmap. eapply Forall_impl; [done|]. apply downgrade_asn_u16. }
  by destruct s.
Qed.

(** The two-octet downgrade: every ASN fits 16 bits, the structure and the
    length used by best-path selection are unchanged, and AS4_PATH carries the
    original exactly when something was replaced. *)
Theorem downgrade_spec p : Path.wf p ->
  Forall (fun s => Forall is_u16 (Seg.asns s)) (fst (Path.downgrade_for_two_byte_peer p))
  /\ Path.path_length (fst (Path.downgrade_for_two_byte_peer p)) = Path.path_length p
  /\ (snd (Path.downgrade_for_two_byte_peer p) = None
      <-> fst (Path.downgrade_for_two_byte_peer p) = p /\
          Forall (fun s => Forall is_u16 (Seg.asns s)) p)
  /\ (snd (Path.downgrade_for_two_byte_peer p) = None
      \/ snd (Path.downgrade_for_two_byte_peer p) = Some p).
Proof.
  intros Hwf. unfold Path.downgrade_for_two_byte_peer.
  destruct (existsb _ p) eqn:E; simpl.
  - apply existsb_elem in E as (s & Hs & E). apply existsb_elem in E as (a & Ha & E).
    split_and!; [| | |by right].
    + apply Forall_fmap. eapply Forall_impl; [done|]. intros s' [_ H]. by apply downgrade_seg_fits.
    + clear. unfold Path.path_length.
      induction p as [|s p IH]; [done|]. simpl. rewrite IH. f_equal.
      destruct s; simpl; by rewrite ?length_map.
    + split; [done|]. intros [_ Hall]. exfalso.
      rewrite Forall_forall in Hall. specialize (Hall s Hs).
      rewrite Forall_forall in Hall. specialize (Hall a Ha).
      unfold Asn.is_four_byte in E. apply Z.ltb_lt in E. blia.
  - assert (Hall : Forall (fun s => Forall is_u16 (Seg.asns s)) p).
    { apply existsb_false_Forall in E. rewrite Forall_forall in E |- *. intros s Hs.
      specialize (E s Hs). apply existsb_false_Forall in E.
      unfold Path.wf in Hwf. rewrite Forall_forall in Hwf. destruct (Hwf s Hs) as [_ Hu].
      rewrite Forall_forall in E, Hu |- *. intros a Ha. specialize (E a Ha). specialize (Hu a Ha).
      unfold Asn.is_four_byte in E. apply Z.ltb_ge in E. blia. }
    split_and!; [done|done|by split|by left].
Qed.
