(* ===== verification/Wire.v ===== *)
(** Codec primitives ([pathvector-session/src/message/mod.rs] and [header.rs]):
    the byte cursor, the writer, the codec errors and the message header, with
    the program logic in which the decoders are verified.

    A decoder is a function of the cursor that returns an [Outcome] together
    with the advanced cursor; [dwp d c Q] says that [d] run at [c] neither
    panics nor runs out of fuel, and that a successful result satisfies [Q].
    [Decodes d bs a] says that [d] reads exactly the bytes [bs] as the value [a]
    whatever follows them. *)
From Stdlib Require Import ZArith Lia Bool.
From stdpp Require Import base tactics numbers decidable list.
From S2P Require Import Prelude.
Open Scope Z_scope.

(** ** [struct Cursor] *)
Record Cursor := mkCursor { data : list Z; pos : nat }.

(** The unread bytes. *)
Definition rest (c : Cursor) : list Z := drop (pos c) (data c).
Definition cursor_new (d : list Z) : Cursor := mkCursor d 0.
Definition remaining (c : Cursor) : nat := length (data c) - pos c.
Definition advance (c : Cursor) (n : nat) : Cursor := mkCursor (data c) (pos c + n).

Definition Dec (E A : Type) : Type := Cursor -> Outcome E (A * Cursor).
#[export] Instance dec_ret E : MRet (Dec E) := fun A a c => Ok (a, c).
#[export] Instance dec_bind E : MBind (Dec E) := fun A B f d c =>
  match d c with
  | Ok (a, c') => f a c'
  | Err e => Err e
  | Panic => Panic
  | OutOfFuel => OutOfFuel
  end.
Definition dec_err {E A} (e : E) : Dec E A := fun _ => Err e.
Definition dec_panic {E A} : Dec E A := fun _ => Panic.
Definition dec_lift {E A} (o : Outcome E A) : Dec E A := fun c =>
  match o with
  | Ok a => Ok (a, c)
  | Err e => Err e
  | Panic => Panic
  | OutOfFuel => OutOfFuel
  end.
Definition dec_remaining {E} : Dec E nat := fun c => Ok (remaining c, c).
(** Run a decoder on a cursor of its own (a fork), leaving the outer one. *)
Definition dec_on {E A} (sub : Cursor) (d : Dec E A) : Dec E A := fun c =>
  match d sub with
  | Ok (a, _) => Ok (a, c)
  | Err e => Err e
  | Panic => Panic
  | OutOfFuel => OutOfFuel
  end.

(** The [Truncated { needed, available }] error of an error type: the session
    and the RPKI crates have identical cursors over their own error types. *)
Class Truncatable (E : Type) := truncated : nat -> nat -> E.

Section Reads.
Context {E : Type} `{!Truncatable E}.

Definition read_u8 : Dec E Z := fun c =>
  if (remaining c <? 1)%nat then Err (truncated 1 0)
  else match data c !! pos c with
       | Some v => Ok (v, advance c 1)
       | None => Panic
       end.
Definition read_u16 : Dec E Z := fun c =>
  if (remaining c <? 2)%nat then Err (truncated 2 (remaining c))
  else match data c !! pos c, data c !! (pos c + 1)%nat with
       | Some b0, Some b1 => Ok (from_be [b0; b1], advance c 2)
       | _, _ => Panic
       end.
Definition read_u32 : Dec E Z := fun c =>
  if (remaining c <? 4)%nat then Err (truncated 4 (remaining c))
  else match data c !! pos c, data c !! (pos c + 1)%nat,
             data c !! (pos c + 2)%nat, data c !! (pos c + 3)%nat with
       | Some b0, Some b1, Some b2, Some b3 => Ok (from_be [b0; b1; b2; b3], advance c 4)
       | _, _, _, _ => Panic
       end.
Definition read_bytes (n : nat) : Dec E (list Z) := fun c =>
  if (remaining c <? n)%nat then Err (truncated n (remaining c))
  else if (pos c + n <=? length (data c))%nat
       then Ok (take n (drop (pos c) (data c)), advance c n)
       else Panic.
Definition read_ipv4addr : Dec E Z :=
  b ← read_bytes 4;
  match b !! 0%nat, b !! 1%nat, b !! 2%nat, b !! 3%nat with
  | Some b0, Some b1, Some b2, Some b3 => mret (from_be [b0; b1; b2; b3])
  | _, _, _, _ => dec_panic
  end.
Definition fork (n : nat) : Dec E Cursor :=
  slice ← read_bytes n; mret (cursor_new slice).
Definition read_remaining : Dec E (list Z) := fun c =>
  if (pos c <=? length (data c))%nat
  then Ok (drop (pos c) (data c), mkCursor (data c) (length (data c)))
  else Panic.

End Reads.

(** [while cond(cur) { acc = body(acc)? }], bounded by fuel. *)
Fixpoint while_fuel {E A} (fuel : nat) (cond : Cursor -> bool) (body : A -> Dec E A)
    (acc : A) : Dec E A := fun c =>
  match fuel with
  | O => OutOfFuel
  | S fuel' =>
      if cond c then (acc' ← body acc; while_fuel fuel' cond body acc') c
      else Ok (acc, c)
  end.
(** Every iteration consumes at least one byte, so one unit of fuel per unread
    byte (and one for the final test) is enough: [dwp_while]. *)
Definition while_dec {E A} (cond : Cursor -> bool) (body : A -> Dec E A) (acc : A)
    : Dec E A := fun c => while_fuel (S (remaining c)) cond body acc c.
Definition more (c : Cursor) : bool := (0 <? remaining c)%nat.

(** ** Program logic *)
Definition cwf (c : Cursor) : Prop := bytes (data c) /\ (pos c <= length (data c))%nat.

Definition dwp {E A} (d : Dec E A) (c : Cursor) (Q : A -> Cursor -> Prop) : Prop :=
  match d c with
  | Ok (a, c') => Q a c'
  | Err _ => True
  | Panic | OutOfFuel => False
  end.

Lemma remaining_rest c : remaining c = length (rest c).
Proof. unfold remaining, rest. by rewrite length_drop. Qed.

Lemma rest_advance c n : rest (advance c n) = drop n (rest c).
Proof. unfold rest, advance; simpl. by rewrite drop_drop. Qed.

Lemma rest_cursor_new d : rest (cursor_new d) = d.
Proof. done. Qed.

Lemma cwf_new d : bytes d -> cwf (cursor_new d).
Proof. split; simpl; [done|lia]. Qed.

Lemma cwf_rest c : cwf c -> bytes (rest c).
Proof. intros [H _]. by apply Forall_drop. Qed.

Lemma cwf_advance c n : cwf c -> (n <= remaining c)%nat -> cwf (advance c n).
Proof. unfold remaining. intros [H1 H2] H. split; simpl; [done|lia]. Qed.

Lemma lookup_rest c i : data c !! (pos c + i)%nat = rest c !! i.
Proof. unfold rest. by rewrite lookup_drop. Qed.

Section Logic.
Context {E : Type}.

Lemma dwp_ret {A} (a : A) c (Q : A -> Cursor -> Prop) : Q a c -> dwp (E:=E) (mret a) c Q.
Proof. done. Qed.

Lemma dwp_bind {A B} (d : Dec E A) (f : A -> Dec E B) c Q :
  dwp d c (fun a c' => dwp (f a) c' Q) -> dwp (d ≫= f) c Q.
Proof. unfold dwp, mbind, dec_bind. by destruct (d c) as [[a c']|e| |]. Qed.

Lemma dwp_mono {A} (d : Dec E A) c (Q Q' : A -> Cursor -> Prop) :
  dwp d c Q -> (forall a c', Q a c' -> Q' a c') -> dwp d c Q'.
Proof. unfold dwp. destruct (d c) as [[a c']|e| |]; auto. Qed.

Lemma dwp_err {A} (e : E) c (Q : A -> Cursor -> Prop) : dwp (dec_err e) c Q.
Proof. done. Qed.

Lemma dwp_remaining c (Q : nat -> Cursor -> Prop) :
  Q (remaining c) c -> dwp (E:=E) dec_remaining c Q.
Proof. done. Qed.

Lemma dwp_on {A} sub (d : Dec E A) c Q :
  dwp d sub (fun a _ => Q a c) -> dwp (dec_on sub d) c Q.
Proof. unfold dwp, dec_on. by destruct (d sub) as [[a c']|e| |]. Qed.

Lemma dwp_lift {A} (o : Outcome E A) c (Q : A -> Cursor -> Prop) :
  match o with Ok a => Q a c | Err _ => True | _ => False end -> dwp (dec_lift o) c Q.
Proof. unfold dwp, dec_lift. by destruct o. Qed.

Lemma dwp_while {A} (I : A -> Cursor -> Prop) cond (body : A -> Dec E A) acc c Q :
  I acc c ->
  (forall acc c, I acc c -> cond c = true ->
    dwp (body acc) c (fun a c' => I a c' /\ (remaining c' < remaining c)%nat)) ->
  (forall acc c, I acc c -> cond c = false -> Q acc c) ->
  dwp (while_dec cond body acc) c Q.
Proof.
  intros HI Hbody HQ. unfold while_dec, dwp.
  assert (Hgen : forall fuel acc c, I acc c -> (remaining c < fuel)%nat ->
    dwp (while_fuel fuel cond body acc) c Q); [|by apply Hgen; [|lia]].
  clear HI acc c. induction fuel as [|fuel IH]; intros acc c HI Hf; [lia|].
  cbn [while_fuel]. unfold dwp at 1. destruct (cond c) eqn:Hc; [|by apply HQ].
  apply (dwp_bind (body acc) (fun a => while_fuel fuel cond body a)).
  eapply dwp_mono; [by apply Hbody|]. intros a c' [HI' Hlt]. apply IH; [done|lia].
Qed.

End Logic.

Section ReadLogic.
Context {E : Type} `{!Truncatable E}.
Implicit Types c : Cursor.

(** Each read either fails or consumes exactly the encoding of its result. *)
Lemma dwp_read_bytes n c Q : cwf c ->
  (forall b c', cwf c' -> rest c = b ++ rest c' -> length b = n -> bytes b -> Q b c') ->
  dwp (E:=E) (read_bytes n) c Q.
Proof.
  intros Hc HQ. pose proof Hc as [Hb Hp]. unfold dwp, read_bytes.
  destruct (Nat.ltb_spec (remaining c) n) as [|Hn]; [done|].
  unfold remaining in Hn. rewrite (proj2 (Nat.leb_le _ _)) by lia.
  fold (rest c). apply HQ.
  - apply cwf_advance; [done|unfold remaining; lia].
  - rewrite rest_advance. by rewrite take_drop.
  - rewrite length_take, <- remaining_rest. unfold remaining. lia.
  - apply Forall_take. by apply cwf_rest.
Qed.

Lemma read_as_bytes c n : (n <= remaining c)%nat ->
  forall i, (i < n)%nat -> exists b, data c !! (pos c + i)%nat = Some b.
Proof.
  intros Hn i Hi. rewrite lookup_rest. apply lookup_lt_is_Some.
  rewrite <- remaining_rest. lia.
Qed.

Lemma rest_cons c b : data c !! pos c = Some b -> rest c = b :: rest (advance c 1).
Proof.
  intros H. unfold rest, advance; simpl. rewrite (drop_S _ b) by done.
  do 2 f_equal. lia.
Qed.

Lemma dwp_read_u8 c Q : cwf c ->
  (forall v c', cwf c' -> rest c = v :: rest c' -> is_u8 v -> Q v c') ->
  dwp (E:=E) read_u8 c Q.
Proof.
  intros Hc HQ. unfold dwp, read_u8. destruct (Nat.ltb_spec (remaining c) 1); [done|].
  destruct (read_as_bytes c 1) with (i := 0%nat) as [b Hb]; [lia|lia|].
  rewrite Nat.add_0_r in Hb. rewrite Hb. pose proof (rest_cons c b Hb) as Hr.
  apply HQ; [by apply cwf_advance; [|lia]|done|].
  pose proof (cwf_rest c Hc) as Hall. rewrite Hr in Hall. by inversion Hall.
Qed.

Lemma rest_two c b0 b1 : data c !! pos c = Some b0 -> data c !! (pos c + 1)%nat = Some b1 ->
  rest c = [b0; b1] ++ rest (advance c 2).
Proof.
  intros H0 H1. rewrite (rest_cons c b0), (rest_cons (advance c 1) b1) by done. simpl.
  do 2 f_equal. unfold rest, advance; simpl. f_equal. lia.
Qed.

Lemma from_be_u16 b0 b1 : is_u8 b0 -> is_u8 b1 ->
  u16_be (from_be [b0; b1]) = [b0; b1] /\ is_u16 (from_be [b0; b1]).
Proof.
  intros. assert (bytes [b0; b1]) as Hb by flist. split.
  - by apply (be_bytes_from_be [b0; b1]).
  - apply (from_be_bound [b0; b1] Hb).
Qed.

Lemma from_be_u32 b0 b1 b2 b3 : is_u8 b0 -> is_u8 b1 -> is_u8 b2 -> is_u8 b3 ->
  u32_be (from_be [b0; b1; b2; b3]) = [b0; b1; b2; b3] /\ is_u32 (from_be [b0; b1; b2; b3]).
Proof.
  intros. assert (bytes [b0; b1; b2; b3]) as Hb by flist. split.
  - by apply (be_bytes_from_be [b0; b1; b2; b3]).
  - apply (from_be_bound [b0; b1; b2; b3] Hb).
Qed.

Lemma dwp_read_u16 c Q : cwf c ->
  (forall v c', cwf c' -> rest c = u16_be v ++ rest c' -> is_u16 v -> Q v c') ->
  dwp (E:=E) read_u16 c Q.
Proof.
  intros Hc HQ. unfold dwp, read_u16. destruct (Nat.ltb_spec (remaining c) 2); [done|].
  destruct (read_as_bytes c 2) with (i := 0%nat) as [b0 H0]; [lia|lia|].
  destruct (read_as_bytes c 2) with (i := 1%nat) as [b1 H1]; [lia|lia|].
  rewrite Nat.add_0_r in H0. rewrite H0, H1. pose proof (rest_two c b0 b1 H0 H1) as Hr.
  pose proof (cwf_rest c Hc) as Hall. rewrite Hr in Hall. simpl in Hall.
  inversion_clear Hall as [|? ? Hb0 Hall']. inversion_clear Hall' as [|? ? Hb1 _].
  destruct (from_be_u16 b0 b1) as [He Hu]; [done..|].
  apply HQ; [by apply cwf_advance; [|lia]| |done]. by rewrite He.
Qed.

Lemma dwp_read_u32 c Q : cwf c ->
  (forall v c', cwf c' -> rest c = u32_be v ++ rest c' -> is_u32 v -> Q v c') ->
  dwp (E:=E) read_u32 c Q.
Proof.
  intros Hc HQ. unfold dwp, read_u32. destruct (Nat.ltb_spec (remaining c) 4); [done|].
  destruct (read_as_bytes c 4) with (i := 0%nat) as [b0 H0]; [lia|lia|].
  destruct (read_as_bytes c 4) with (i := 1%nat) as [b1 H1]; [lia|lia|].
  destruct (read_as_bytes c 4) with (i := 2%nat) as [b2 H2]; [lia|lia|].
  destruct (read_as_bytes c 4) with (i := 3%nat) as [b3 H3]; [lia|lia|].
  rewrite Nat.add_0_r in H0. rewrite H0, H1, H2, H3.
  assert (rest c = [b0; b1; b2; b3] ++ rest (advance c 4)) as Hr.
  { rewrite (rest_two c b0 b1), (rest_two (advance c 2) b2 b3); try done.
    - simpl. do 4 f_equal. unfold rest, advance; simpl. f_equal. lia.
    - simpl. replace (pos c + 2 + 1)%nat with (pos c + 3)%nat by lia. done. }
  pose proof (cwf_rest c Hc) as Hall. rewrite Hr in Hall. simpl in Hall.
  inversion_clear Hall as [|? ? Hb0 Hall1]. inversion_clear Hall1 as [|? ? Hb1 Hall2].
  inversion_clear Hall2 as [|? ? Hb2 Hall3]. inversion_clear Hall3 as [|? ? Hb3 _].
  destruct (from_be_u32 b0 b1 b2 b3) as [He Hu]; [done..|].
  apply HQ; [by apply cwf_advance; [|lia]| |done]. by rewrite He.
Qed.

Lemma length4 (b : list Z) : length b = 4%nat -> exists b0 b1 b2 b3, b = [b0; b1; b2; b3].
Proof. destruct b as [|b0 [|b1 [|b2 [|b3 [|]]]]]; try done. eauto. Qed.

Lemma dwp_read_ipv4addr c Q : cwf c ->
  (forall v c', cwf c' -> rest c = u32_be v ++ rest c' -> is_u32 v -> Q v c') ->
  dwp (E:=E) read_ipv4addr c Q.
Proof.
  intros Hc HQ. apply dwp_bind, dwp_read_bytes; [done|].
  intros b c' Hc' Hr Hl Hb. destruct (length4 b Hl) as (b0 & b1 & b2 & b3 & ->).
  change (Q (from_be [b0; b1; b2; b3]) c').
  rewrite !Forall_cons in Hb. destruct Hb as (? & ? & ? & ? & _).
  destruct (from_be_u32 b0 b1 b2 b3) as [He Hu]; [done..|].
  apply HQ; [done| |done]. by rewrite He.
Qed.

Lemma dwp_fork n c Q : cwf c ->
  (forall s c', cwf c' -> cwf s -> rest c = rest s ++ rest c' -> length (rest s) = n ->
    Q s c') ->
  dwp (E:=E) (fork n) c Q.
Proof.
  intros Hc HQ. apply dwp_bind, dwp_read_bytes; [done|]. intros b c' Hc' Hr Hl Hb.
  apply dwp_ret, HQ; [done|by apply cwf_new|done|done].
Qed.

Lemma dwp_read_remaining c Q : cwf c ->
  (forall b c', cwf c' -> rest c = b -> rest c' = [] -> bytes b -> Q b c') ->
  dwp (E:=E) read_remaining c Q.
Proof.
  intros [Hb Hp] HQ. unfold dwp, read_remaining. rewrite (proj2 (Nat.leb_le _ _)) by done.
  apply HQ; [by split; simpl|done| |by apply Forall_drop].
  unfold rest; simpl. apply drop_ge. lia.
Qed.

End ReadLogic.

(** ** Reading back what was written *)
Definition cok (c : Cursor) : Prop := (pos c <= length (data c))%nat.

Definition Decodes {E A} (d : Dec E A) (bs : list Z) (a : A) : Prop :=
  forall c tl, cok c -> rest c = bs ++ tl ->
    exists c', d c = Ok (a, c') /\ rest c' = tl /\ cok c'.

(** [d] reads the whole of a cursor holding exactly [bs]. *)
Definition DecodesAll {E A} (d : Dec E A) (bs : list Z) (a : A) : Prop :=
  forall c, cok c -> rest c = bs -> exists c', d c = Ok (a, c') /\ rest c' = [] /\ cok c'.

(** What is read from given bytes is unique. *)
Lemma DecodesAll_fun {E A B} (d : Dec E (A * list B)) bs x y :
  DecodesAll d bs (x, []) -> DecodesAll d bs (y, []) -> x = y.
Proof.
  intros Hx Hy. assert (Hc : cok (cursor_new bs)) by (unfold cok; cbn; lia).
  destruct (Hx (cursor_new bs) Hc eq_refl) as (c1 & E1 & _), (Hy (cursor_new bs) Hc eq_refl) as (c2 & E2 & _).
  rewrite E1 in E2. by injection E2.
Qed.

Section Roundtrip.
Context {E : Type}.

Lemma Decodes_all {A} (d : Dec E A) bs a : Decodes d bs a -> DecodesAll d bs a.
Proof. intros H c Hok Hc. apply (H c []); [done|]. by rewrite app_nil_r. Qed.

Lemma Decodes_ret {A} (a : A) : Decodes (E:=E) (mret a) [] a.
Proof. intros c tl Hok H. by exists c. Qed.

Lemma Decodes_bind {A B} (d : Dec E A) (f : A -> Dec E B) b1 b2 a b :
  Decodes d b1 a -> Decodes (f a) b2 b -> Decodes (d ≫= f) (b1 ++ b2) b.
Proof.
  intros H1 H2 c tl Hok Hc. rewrite <- app_assoc in Hc.
  destruct (H1 c _ Hok Hc) as (c' & E1 & Hr & Hok').
  destruct (H2 c' _ Hok' Hr) as (c'' & E2 & Hr' & Hok'').
  exists c''. unfold mbind, dec_bind. by rewrite E1, E2.
Qed.

Lemma Decodes_bind_all {A B} (d : Dec E A) (f : A -> Dec E B) b1 b2 a b :
  Decodes d b1 a -> DecodesAll (f a) b2 b -> DecodesAll (d ≫= f) (b1 ++ b2) b.
Proof.
  intros H1 H2 c Hok Hc.
  destruct (H1 c _ Hok Hc) as (c' & E1 & Hr & Hok').
  destruct (H2 c' Hok' Hr) as (c'' & E2 & Hr' & Hok'').
  exists c''. unfold mbind, dec_bind. by rewrite E1, E2.
Qed.

(** The last step of a decoder. *)
Lemma Decodes_bind_ret {A B} (d : Dec E A) (f : A -> Dec E B) bs a b :
  Decodes d bs a -> Decodes (f a) [] b -> Decodes (d ≫= f) bs b.
Proof. intros H1 H2. rewrite <- (app_nil_r bs). by eapply Decodes_bind. Qed.

(** A step that reads nothing. *)
Lemma Decodes_bind_nil {A B} (d : Dec E A) (f : A -> Dec E B) bs a b :
  Decodes d [] a -> Decodes (f a) bs b -> Decodes (d ≫= f) bs b.
Proof. intros H1 H2. exact (Decodes_bind d f [] bs a b H1 H2). Qed.

Lemma Decodes_on {A} (d : Dec E A) sub bs a :
  DecodesAll d bs a -> rest sub = bs -> cok sub -> Decodes (dec_on sub d) [] a.
Proof.
  intros H Hs Hsub c tl Hok Hc. destruct (H sub Hsub Hs) as (c' & E1 & _).
  exists c. unfold dec_on. by rewrite E1.
Qed.

(** A loop over the concatenated encodings of [xs] folds [step] over [xs]; [I]
    relates the items still to be read to the accumulator. *)
Lemma DecodesAll_while_inv {A X} (I : list X -> A -> Prop) cond (body : A -> Dec E A)
    (enc : X -> list Z) step xs acc :
  I xs acc ->
  (forall x xs acc, I (x :: xs) acc ->
     Decodes (body acc) (enc x) (step acc x) /\ enc x <> [] /\ I xs (step acc x)) ->
  (forall c x tl, rest c = enc x ++ tl -> enc x <> [] -> cond c = true) ->
  (forall c, rest c = [] -> cond c = false) ->
  DecodesAll (while_dec cond body acc) (concat (map enc xs)) (foldl step acc xs).
Proof.
  intros HI Hstep Hct Hcf c Hok Hc. unfold while_dec.
  assert (Hf : (remaining c < S (remaining c))%nat) by lia. revert Hf.
  generalize (S (remaining c)) as fuel. revert acc c HI Hok Hc.
  induction xs as [|x xs IH]; intros acc c HI Hok Hc fuel Hf; simpl in Hc.
  - exists c. split_and!; [|done|done]. destruct fuel; [lia|]. cbn [while_fuel].
    by rewrite Hcf.
  - destruct (Hstep x xs acc HI) as (Hd & Hx & HI').
    destruct (Hd c _ Hok Hc) as (c' & Eb & Hr & Hok').
    assert (Hl : remaining c = (length (enc x) + remaining c')%nat).
    { rewrite !remaining_rest, Hc, Hr, length_app. done. }
    assert (0 < length (enc x))%nat by (destruct (enc x); simpl; [done|lia]).
    destruct fuel as [|fuel]; [lia|]. cbn [while_fuel].
    rewrite (Hct c x _ Hc Hx). unfold mbind, dec_bind. rewrite Eb.
    by apply IH; [|done|done|lia].
Qed.

Lemma more_nonempty c b tl : rest c = b ++ tl -> b <> [] -> more c = true.
Proof.
  intros Hc Hb. apply Nat.ltb_lt. rewrite remaining_rest, Hc, length_app.
  destruct b; [done|simpl; lia].
Qed.
Lemma more_empty c : rest c = [] -> more c = false.
Proof. intros Hc. apply Nat.ltb_ge. by rewrite remaining_rest, Hc. Qed.

(** The same with a relation [R] between the items read so far and the state. *)
Lemma while_dec_rel {A X} (R : list X -> A -> Prop) (body : A -> Dec E A)
    (enc : X -> list Z) xs acc c :
  R [] acc -> (forall x, x ∈ xs -> enc x <> []) ->
  (forall done_ acc x, x ∈ xs -> R done_ acc ->
     exists acc', R (done_ ++ [x]) acc' /\ Decodes (body acc) (enc x) acc') ->
  cok c -> rest c = concat (map enc xs) ->
  exists acc' c', R xs acc' /\ while_dec more body acc c = Ok (acc', c') /\ rest c' = [].
Proof.
  intros HR Hne Hstep Hok Hc. unfold while_dec.
  assert (Hf : (remaining c < S (remaining c))%nat) by lia. revert Hf.
  generalize (S (remaining c)) as fuel. revert HR.
  enough (Hgen : forall done_ : list X, R done_ acc -> forall fuel, (remaining c < fuel)%nat ->
    exists acc' c', R (done_ ++ xs) acc' /\ while_fuel fuel more body acc c = Ok (acc', c')
      /\ rest c' = []) by (intros; by apply (Hgen [])).
  revert acc c Hok Hc.
  induction xs as [|x xs IH]; intros acc c Hok Hc done_ HR fuel Hf; simpl in Hc.
  - exists acc, c. rewrite app_nil_r. split_and!; [done| |done].
    destruct fuel; [lia|]. cbn [while_fuel]. by rewrite more_empty.
  - destruct (Hstep done_ acc x ltac:(left) HR) as (acc' & HR' & Hd).
    destruct (Hd c _ Hok Hc) as (c' & Eb & Hr & Hok').
    assert (Hx : enc x <> []) by (apply Hne; left).
    assert (Hl : remaining c = (length (enc x) + remaining c')%nat).
    { rewrite !remaining_rest, Hc, Hr, length_app. done. }
    assert (0 < length (enc x))%nat by (destruct (enc x); simpl; [done|lia]).
    destruct fuel as [|fuel]; [lia|]. cbn [while_fuel].
    rewrite (more_nonempty c _ _ Hc Hx). unfold mbind, dec_bind. rewrite Eb.
    replace (done_ ++ x :: xs) with ((done_ ++ [x]) ++ xs) by (by rewrite <- app_assoc).
    apply IH; [|by intros; apply Hstep; [right|]|done|done|done|lia].
    intros y Hy. apply Hne. by right.
Qed.

Lemma DecodesAll_while_cond {A X} cond (body : A -> Dec E A) (enc : X -> list Z) step xs acc :
  (forall x acc, x ∈ xs -> Decodes (body acc) (enc x) (step acc x)) ->
  (forall x, x ∈ xs -> enc x <> []) ->
  (forall c x tl, rest c = enc x ++ tl -> enc x <> [] -> cond c = true) ->
  (forall c, rest c = [] -> cond c = false) ->
  DecodesAll (while_dec cond body acc) (concat (map enc xs)) (foldl step acc xs).
Proof.
  intros Hstep Hne. apply DecodesAll_while_inv with (I := fun ys _ => forall y, y ∈ ys -> y ∈ xs).
  - done.
  - intros x ys a Hin. split_and!; [apply Hstep|apply Hne|]; try (apply Hin; by left).
    intros y Hy. apply Hin. by right.
Qed.

Lemma DecodesAll_while {A X} (body : A -> Dec E A) (enc : X -> list Z) step xs acc :
  (forall x acc, x ∈ xs -> Decodes (body acc) (enc x) (step acc x)) ->
  (forall x, x ∈ xs -> enc x <> []) ->
  DecodesAll (while_dec more body acc) (concat (map enc xs)) (foldl step acc xs).
Proof.
  intros Hstep Hne. apply DecodesAll_while_cond; [done|done| |apply more_empty].
  intros c x tl. apply more_nonempty.
Qed.

Lemma while_end {A} cond (body : A -> Dec E A) acc c :
  cond c = false -> while_dec cond body acc c = Ok (acc, c).
Proof. intros H. unfold while_dec. cbn [while_fuel]. by rewrite H. Qed.

Context `{!Truncatable E}.

Lemma cok_advance c n : (n <= remaining c)%nat -> cok c -> cok (advance c n).
Proof. unfold cok, remaining; simpl. lia. Qed.

Lemma Decodes_bytes n (b : list Z) : length b = n -> Decodes (E:=E) (read_bytes n) b b.
Proof.
  intros <- c tl Hok Hc. exists (advance c (length b)). unfold read_bytes.
  assert (Hrem : remaining c = (length b + length tl)%nat)
    by (by rewrite remaining_rest, Hc, length_app).
  rewrite (proj2 (Nat.ltb_ge _ _)) by lia.
  rewrite (proj2 (Nat.leb_le _ _)) by (unfold cok, remaining in *; lia).
  fold (rest c). rewrite rest_advance, Hc, take_app_length, drop_app_length.
  split_and!; [done|done|]. apply cok_advance; [lia|done].
Qed.

Lemma Decodes_u8 v : Decodes (E:=E) read_u8 [v] v.
Proof.
  intros c tl Hok Hc. exists (advance c 1). unfold read_u8.
  assert (Hrem : remaining c = S (length tl)) by (by rewrite remaining_rest, Hc).
  rewrite (proj2 (Nat.ltb_ge _ _)) by lia.
  replace (data c !! pos c) with (rest c !! 0%nat) by (by rewrite <- lookup_rest, Nat.add_0_r).
  rewrite rest_advance, Hc. split_and!; [done|done|]. apply cok_advance; [lia|done].
Qed.

Lemma Decodes_be2 b0 b1 : Decodes (E:=E) read_u16 [b0; b1] (from_be [b0; b1]).
Proof.
  intros c tl Hok Hc. exists (advance c 2). unfold read_u16.
  assert (Hrem : remaining c = S (S (length tl))) by (by rewrite remaining_rest, Hc).
  rewrite (proj2 (Nat.ltb_ge _ _)) by lia. rewrite lookup_rest.
  replace (data c !! pos c) with (rest c !! 0%nat) by (by rewrite <- lookup_rest, Nat.add_0_r).
  rewrite rest_advance, Hc. split_and!; [done|done|]. apply cok_advance; [lia|done].
Qed.

Lemma Decodes_be4 b0 b1 b2 b3 :
  Decodes (E:=E) read_u32 [b0; b1; b2; b3] (from_be [b0; b1; b2; b3]).
Proof.
  intros c tl Hok Hc. exists (advance c 4). unfold read_u32.
  assert (Hrem : remaining c = (4 + length tl)%nat) by (by rewrite remaining_rest, Hc).
  rewrite (proj2 (Nat.ltb_ge _ _)) by lia. rewrite !lookup_rest.
  replace (data c !! pos c) with (rest c !! 0%nat) by (by rewrite <- lookup_rest, Nat.add_0_r).
  rewrite rest_advance, Hc. split_and!; [done|done|]. apply cok_advance; [lia|done].
Qed.

Lemma Decodes_u16 v : is_u16 v -> Decodes (E:=E) read_u16 (u16_be v) v.
Proof.
  intros Hv. rewrite <- (u16_be_roundtrip v Hv) at 2.
  destruct (u16_be v) as [|b0 [|b1 [|]]] eqn:Eb;
    pose proof (be_bytes_length 2 v) as Hl; fold (u16_be v) in Hl; rewrite Eb in Hl; try done.
  apply Decodes_be2.
Qed.

Lemma Decodes_u32 v : is_u32 v -> Decodes (E:=E) read_u32 (u32_be v) v.
Proof.
  intros Hv. rewrite <- (u32_be_roundtrip v Hv) at 2.
  destruct (length4 (u32_be v)) as (b0 & b1 & b2 & b3 & ->); [apply be_bytes_length|].
  apply Decodes_be4.
Qed.

Lemma Decodes_ipv4addr v : is_u32 v -> Decodes (E:=E) read_ipv4addr (u32_be v) v.
Proof.
  intros Hv. eapply Decodes_bind_ret; [by apply Decodes_bytes, be_bytes_length|].
  rewrite <- (u32_be_roundtrip v Hv) at 2.
  destruct (length4 (u32_be v)) as (b0 & b1 & b2 & b3 & ->); [apply be_bytes_length|].
  apply Decodes_ret.
Qed.

Lemma Decodes_fork n b : length b = n -> Decodes (E:=E) (fork n) b (cursor_new b).
Proof. intros. eapply Decodes_bind_ret; [by apply Decodes_bytes|apply Decodes_ret]. Qed.

(** A length-delimited field read on a fork of its own. *)
Lemma Decodes_fork_on {A B} n b (d : Dec E A) (f : A -> Dec E B) a tl r :
  length b = n -> DecodesAll d b a -> Decodes (f a) tl r ->
  Decodes (sub ← fork n; a ← dec_on sub d; f a) (b ++ tl) r.
Proof.
  intros Hl Hd Hf. eapply Decodes_bind; [by apply Decodes_fork|].
  rewrite <- (app_nil_l tl). eapply Decodes_bind; [|done].
  eapply Decodes_on; [done|done|]. unfold cok; simpl; lia.
Qed.

Lemma DecodesAll_remaining b : DecodesAll (E:=E) read_remaining b b.
Proof.
  intros c Hok Hc. exists (mkCursor (data c) (length (data c))). unfold read_remaining.
  rewrite (proj2 (Nat.leb_le _ _)) by done. fold (rest c). rewrite Hc.
  split_and!; [done| |unfold cok; simpl; lia]. unfold rest; simpl. by apply drop_ge.
Qed.

Lemma DecodesAll_bind_ret {A B} (d : Dec E A) (f : A -> Dec E B) bs a b :
  DecodesAll d bs a -> Decodes (f a) [] b -> DecodesAll (d ≫= f) bs b.
Proof.
  intros H1 H2 c Hok Hc. destruct (H1 c Hok Hc) as (c' & E1 & Hr & Hok').
  destruct (H2 c' [] Hok' Hr) as (c'' & E2 & Hr' & Hok'').
  exists c''. unfold mbind, dec_bind. by rewrite E1, E2.
Qed.
End Roundtrip.
