(* ===== verification/Header.v ===== *)
(** Codec errors ([message/error.rs]) and the 19-byte BGP message header
    ([message/header.rs]). *)
From Stdlib Require Import ZArith Lia Bool.
From stdpp Require Import base tactics numbers decidable strings list.
From S2P Require Import Prelude Wire.
Open Scope Z_scope.

Inductive CodecError :=
| Truncated (needed available : nat)
| InvalidMarker
| InvalidLength (v : Z)
| UnknownMessageType (v : Z)
| UnsupportedVersion (v : Z)
| UnknownAsPathSegmentType (v : Z)
| InvalidOrigin (v : Z)
| InvalidCapability (code : Z)
| UnsupportedOptionalParameter (param_type : Z)
| InvalidAttribute (type_code : Z) (detail : string)
| InvalidNlri (prefix_len : Z).
#[export] Instance CodecError_eq_dec : EqDecision CodecError.
Proof. solve_decision. Defined.
#[export] Instance CodecError_truncatable : Truncatable CodecError := Truncated.

Definition MARKER : list Z := replicate 16 0xFF.
Definition HEADER_LEN : nat := 19.
Definition MAX_LEN : Z := 4096.
Definition MAX_LEN_EXTENDED : Z := 65535.

Inductive MessageType :=
| MtOpen | MtUpdate | MtNotification | MtKeepalive | MtRouteRefresh.
#[export] Instance MessageType_eq_dec : EqDecision MessageType.
Proof. solve_decision. Defined.

Module MessageTypeOps.
Definition from_u8 (v : Z) : Outcome CodecError MessageType :=
  match v with
  | 1 => Ok MtOpen
  | 2 => Ok MtUpdate
  | 3 => Ok MtNotification
  | 4 => Ok MtKeepalive
  | 5 => Ok MtRouteRefresh
  | other => Err (UnknownMessageType other)
  end.
Definition as_u8 (t : MessageType) : Z :=
  match t with
  | MtOpen => 1 | MtUpdate => 2 | MtNotification => 3 | MtKeepalive => 4 | MtRouteRefresh => 5
  end.
End MessageTypeOps.

Definition decode_header (max_len : Z) : Dec CodecError (MessageType * Z) :=
  marker ← read_bytes 16;
  if negb (bool_decide (marker = MARKER)) then dec_err InvalidMarker
  else
    length ← read_u16;
    if (length <? Z.of_nat HEADER_LEN) || (max_len <? length)
    then dec_err (InvalidLength length)
    else
      t ← read_u8;
      msg_type ← dec_lift (MessageTypeOps.from_u8 t);
      mret (msg_type, length).

Definition encode_header (msg_type : MessageType) (body_len : nat) : list Z :=
  MARKER ++ u16_be (as_u16 (Z.of_nat (HEADER_LEN + body_len)))
  ++ [MessageTypeOps.as_u8 msg_type].

(** [encode_header(&mut w, t, body.len()); w.put_slice(&body); w.finish()] *)
Definition encode_framed (t : MessageType) (body : list Z) : list Z :=
  encode_header t (length body) ++ body.

(** * Facts *)
Lemma message_type_roundtrip t : MessageTypeOps.from_u8 (MessageTypeOps.as_u8 t) = Ok t.
Proof. by destruct t. Qed.

Lemma message_type_inv v t : MessageTypeOps.from_u8 v = Ok t -> v = MessageTypeOps.as_u8 t.
Proof.
  unfold MessageTypeOps.from_u8. intros H. repeat (case_match; simplify_eq; try done).
Qed.

Lemma message_type_returns v :
  match MessageTypeOps.from_u8 v with
  | Ok t => v = MessageTypeOps.as_u8 t
  | Err _ => True
  | _ => False
  end.
Proof.
  pose proof (message_type_inv v) as H.
  destruct (MessageTypeOps.from_u8 v) eqn:E; auto;
    revert E; unfold MessageTypeOps.from_u8; repeat case_match; done.
Qed.

Lemma encode_header_length t n : length (encode_header t n) = HEADER_LEN.
Proof. unfold encode_header, u16_be. by rewrite !length_app, be_bytes_length. Qed.

Lemma encode_header_bytes t n : bytes (encode_header t n).
Proof.
  unfold encode_header. flist.
  - apply Forall_replicate. unfold is_u8. lia.
  - apply be_bytes_bytes.
  - destruct t; unfold is_u8; simpl; lia.
Qed.

Lemma encode_framed_length t body :
  length (encode_framed t body) = (HEADER_LEN + length body)%nat.
Proof. unfold encode_framed. by rewrite length_app, encode_header_length. Qed.

(** The header decoder accepts exactly the headers [encode_header] writes. *)
Lemma dwp_decode_header max_len c Q : cwf c -> max_len <= MAX_LEN_EXTENDED ->
  (forall t n c', cwf c' ->
     rest c = encode_header t n ++ rest c' ->
     Z.of_nat (HEADER_LEN + n) <= max_len ->
     Q (t, Z.of_nat (HEADER_LEN + n)) c') ->
  dwp (decode_header max_len) c Q.
Proof.
  intros Hc Hmax HQ. unfold decode_header.
  apply dwp_bind, dwp_read_bytes; [done|]. intros m c1 Hc1 Hr1 Hm Hbm.
  case_bool_decide; [|done]. cbn [negb]. subst m.
  apply dwp_bind, dwp_read_u16; [done|]. intros l c2 Hc2 Hr2 Hl.
  destruct (_ || _)%bool eqn:Hb; [done|]. zbool.
  apply dwp_bind, dwp_read_u8; [done|]. intros v c3 Hc3 Hr3 Hv.
  apply dwp_bind, dwp_lift. pose proof (message_type_returns v) as Ht.
  destruct (MessageTypeOps.from_u8 v) as [t| | |]; try done.
  assert (exists n, l = Z.of_nat (HEADER_LEN + n)) as [n ->].
  { exists (Z.to_nat l - HEADER_LEN)%nat. unfold HEADER_LEN in *. widths. lia. }
  apply dwp_ret, HQ; [done| |done].
  unfold encode_header, as_u16. rewrite Z.mod_small by blia.
  rewrite Hr1, Hr2, Hr3, Ht, <- !app_assoc. done.
Qed.

Lemma Decodes_header max_len t n :
  Z.of_nat (HEADER_LEN + n) <= max_len -> Z.of_nat (HEADER_LEN + n) <= MAX_LEN_EXTENDED ->
  Decodes (decode_header max_len) (encode_header t n) (t, Z.of_nat (HEADER_LEN + n)).
Proof.
  intros Hn Hx. unfold MAX_LEN_EXTENDED in Hx. unfold decode_header, encode_header.
  eapply Decodes_bind; [by apply Decodes_bytes|].
  rewrite bool_decide_true by done. cbn [negb].
  eapply Decodes_bind.
  - apply Decodes_u16. unfold is_u16, as_u16. apply Z.mod_pos_bound. lia.
  - unfold as_u16. rewrite Z.mod_small by lia.
    rewrite (proj2 (Z.ltb_ge _ _)) by lia. rewrite (proj2 (Z.ltb_ge _ _)) by lia. cbn [orb].
    eapply Decodes_bind_ret; [apply Decodes_u8|].
    rewrite message_type_roundtrip. apply Decodes_ret.
Qed.

(** A framed body can be read back by any decoder of that body. *)
Lemma Decodes_framed {A} max_len t body (f : MessageType * Z -> Dec CodecError A) a :
  len (encode_framed t body) <= max_len -> max_len <= MAX_LEN_EXTENDED ->
  DecodesAll (f (t, len (encode_framed t body))) body a ->
  DecodesAll (decode_header max_len ≫= f) (encode_framed t body) a.
Proof.
  unfold len. rewrite encode_framed_length. intros Hn Hx Hf.
  eapply Decodes_bind_all; [|done]. apply Decodes_header; lia.
Qed.

#[export] Hint Resolve encode_header_bytes : pv.
#[export] Hint Rewrite encode_header_length encode_framed_length : pv_len.
