(* ===== verification/Notification.v ===== *)
(** NOTIFICATION ([message/notification.rs]) and ROUTE-REFRESH
    ([message/route_refresh.rs]) messages, and the RFC 9003 shutdown text. *)
From Stdlib Require Import ZArith Lia Bool.
From stdpp Require Import base tactics numbers decidable list.
From S2P Require Import Prelude Types Wire Header.
Open Scope Z_scope.

Inductive MsgHeaderError :=
| ConnectionNotSynchronized | BadMessageLength | BadMessageType
| MhUnknown (v : Z).
Inductive OpenMsgError :=
| UnsupportedVersionNumber | BadPeerAs | BadBgpIdentifier | OmUnsupportedOptionalParameter
| UnacceptableHoldTime | UnsupportedCapability | RoleMismatch
| OmUnknown (v : Z).
Inductive UpdateMsgError :=
| MalformedAttributeList | UnrecognizedWellKnownAttribute | MissingWellKnownAttribute
| AttributeFlagsError | AttributeLengthError | InvalidOriginAttribute
| InvalidNextHopAttribute | OptionalAttributeError | InvalidNetworkField | MalformedAsPath
| UmUnknown (v : Z).
Inductive CeaseError :=
| MaximumNumberOfPrefixesReached | AdministrativeShutdown | PeerDeconfigured
| AdministrativeReset | ConnectionRejected | OtherConfigurationChange
| ConnectionCollisionResolution | OutOfResources | HardReset | BfdDown
| CeUnknown (v : Z).
#[export] Instance MsgHeaderError_eq_dec : EqDecision MsgHeaderError.
Proof. solve_decision. Defined.
#[export] Instance OpenMsgError_eq_dec : EqDecision OpenMsgError.
Proof. solve_decision. Defined.
#[export] Instance UpdateMsgError_eq_dec : EqDecision UpdateMsgError.
Proof. solve_decision. Defined.
#[export] Instance CeaseError_eq_dec : EqDecision CeaseError.
Proof. solve_decision. Defined.

Inductive NotificationError :=
| NeMessageHeader (e : MsgHeaderError)
| NeOpenMessage (e : OpenMsgError)
| NeUpdateMessage (e : UpdateMsgError)
| HoldTimerExpired
| FsmError
| FsmErrorOpenSent
| FsmErrorOpenConfirm
| FsmErrorEstablished
| Cease (e : CeaseError)
| NeUnknown (code subcode : Z).
#[export] Instance NotificationError_eq_dec : EqDecision NotificationError.
Proof. solve_decision. Defined.

Module MsgHeaderErrorOps.
Definition from_u8 (v : Z) : MsgHeaderError :=
  match v with
  | 1 => ConnectionNotSynchronized
  | 2 => BadMessageLength
  | 3 => BadMessageType
  | _ => MhUnknown v
  end.
Definition as_u8 (e : MsgHeaderError) : Z :=
  match e with
  | ConnectionNotSynchronized => 1
  | BadMessageLength => 2
  | BadMessageType => 3
  | MhUnknown v => v
  end.
End MsgHeaderErrorOps.

Module OpenMsgErrorOps.
Definition from_u8 (v : Z) : OpenMsgError :=
  match v with
  | 1 => UnsupportedVersionNumber
  | 2 => BadPeerAs
  | 3 => BadBgpIdentifier
  | 4 => OmUnsupportedOptionalParameter
  | 6 => UnacceptableHoldTime
  | 7 => UnsupportedCapability
  | 11 => RoleMismatch
  | _ => OmUnknown v
  end.
Definition as_u8 (e : OpenMsgError) : Z :=
  match e with
  | UnsupportedVersionNumber => 1
  | BadPeerAs => 2
  | BadBgpIdentifier => 3
  | OmUnsupportedOptionalParameter => 4
  | UnacceptableHoldTime => 6
  | UnsupportedCapability => 7
  | RoleMismatch => 11
  | OmUnknown v => v
  end.
End OpenMsgErrorOps.

Module UpdateMsgErrorOps.
Definition from_u8 (v : Z) : UpdateMsgError :=
  match v with
  | 1 => MalformedAttributeList
  | 2 => UnrecognizedWellKnownAttribute
  | 3 => MissingWellKnownAttribute
  | 4 => AttributeFlagsError
  | 5 => AttributeLengthError
  | 6 => InvalidOriginAttribute
  | 8 => InvalidNextHopAttribute
  | 9 => OptionalAttributeError
  | 10 => InvalidNetworkField
  | 11 => MalformedAsPath
  | _ => UmUnknown v
  end.
Definition as_u8 (e : UpdateMsgError) : Z :=
  match e with
  | MalformedAttributeList => 1
  | UnrecognizedWellKnownAttribute => 2
  | MissingWellKnownAttribute => 3
  | AttributeFlagsError => 4
  | AttributeLengthError => 5
  | InvalidOriginAttribute => 6
  | InvalidNextHopAttribute => 8
  | OptionalAttributeError => 9
  | InvalidNetworkField => 10
  | MalformedAsPath => 11
  | UmUnknown v => v
  end.
End UpdateMsgErrorOps.

Module CeaseErrorOps.
Definition from_u8 (v : Z) : CeaseError :=
  match v with
  | 1 => MaximumNumberOfPrefixesReached
  | 2 => AdministrativeShutdown
  | 3 => PeerDeconfigured
  | 4 => AdministrativeReset
  | 5 => ConnectionRejected
  | 6 => OtherConfigurationChange
  | 7 => ConnectionCollisionResolution
  | 8 => OutOfResources
  | 9 => HardReset
  | 10 => BfdDown
  | _ => CeUnknown v
  end.
Definition as_u8 (e : CeaseError) : Z :=
  match e with
  | MaximumNumberOfPrefixesReached => 1
  | AdministrativeShutdown => 2
  | PeerDeconfigured => 3
  | AdministrativeReset => 4
  | ConnectionRejected => 5
  | OtherConfigurationChange => 6
  | ConnectionCollisionResolution => 7
  | OutOfResources => 8
  | HardReset => 9
  | BfdDown => 10
  | CeUnknown v => v
  end.
End CeaseErrorOps.

Module NotificationErrorOps.
Definition from_codes (code subcode : Z) : NotificationError :=
  match code with
  | 1 => NeMessageHeader (MsgHeaderErrorOps.from_u8 subcode)
  | 2 => NeOpenMessage (OpenMsgErrorOps.from_u8 subcode)
  | 3 => NeUpdateMessage (UpdateMsgErrorOps.from_u8 subcode)
  | 4 => HoldTimerExpired
  | 5 =>
      match subcode with
      | 1 => FsmErrorOpenSent
      | 2 => FsmErrorOpenConfirm
      | 3 => FsmErrorEstablished
      | _ => FsmError
      end
  | 6 => Cease (CeaseErrorOps.from_u8 subcode)
  | _ => NeUnknown code subcode
  end.
Definition as_codes (e : NotificationError) : Z * Z :=
  match e with
  | NeMessageHeader s => (1, MsgHeaderErrorOps.as_u8 s)
  | NeOpenMessage s => (2, OpenMsgErrorOps.as_u8 s)
  | NeUpdateMessage s => (3, UpdateMsgErrorOps.as_u8 s)
  | HoldTimerExpired => (4, 0)
  | FsmError => (5, 0)
  | FsmErrorOpenSent => (5, 1)
  | FsmErrorOpenConfirm => (5, 2)
  | FsmErrorEstablished => (5, 3)
  | Cease s => (6, CeaseErrorOps.as_u8 s)
  | NeUnknown code subcode => (code, subcode)
  end.
(** The wire form is made of bytes and an [Unknown] value holds a code that has
    no constructor of its own: the errors [from_codes] produces. *)
Definition wf (e : NotificationError) : Prop :=
  match e with
  | NeMessageHeader (MhUnknown v) => is_u8 v /\ v ∉ [1; 2; 3]
  | NeOpenMessage (OmUnknown v) => is_u8 v /\ v ∉ [1; 2; 3; 4; 6; 7; 11]
  | NeUpdateMessage (UmUnknown v) => is_u8 v /\ v ∉ [1; 2; 3; 4; 5; 6; 8; 9; 10; 11]
  | Cease (CeUnknown v) => is_u8 v /\ v ∉ [1; 2; 3; 4; 5; 6; 7; 8; 9; 10]
  | NeUnknown c s => is_u8 c /\ is_u8 s /\ c ∉ [1; 2; 3; 4; 5; 6]
  | _ => True
  end.
End NotificationErrorOps.

Record NotificationMessage := mkNotification {
  nm_error : NotificationError;
  nm_data : list Z;
}.
#[export] Instance NotificationMessage_eq_dec : EqDecision NotificationMessage.
Proof. solve_decision. Defined.

Module NotificationCodec.
Definition decode : Dec CodecError NotificationMessage :=
  code ← read_u8;
  subcode ← read_u8;
  data ← read_remaining;
  mret (mkNotification (NotificationErrorOps.from_codes code subcode) data).
Definition encode_body (m : NotificationMessage) : list Z :=
  let '(code, subcode) := NotificationErrorOps.as_codes (nm_error m) in
  [code] ++ [subcode] ++ nm_data m.
Definition encode (m : NotificationMessage) : list Z :=
  encode_framed MtNotification (encode_body m).
Definition wf (m : NotificationMessage) : Prop :=
  NotificationErrorOps.wf (nm_error m) /\ bytes (nm_data m).
End NotificationCodec.

(** ** ROUTE-REFRESH *)
Inductive RouteRefreshSubtype :=
| Refresh | BeginRefresh | EndRefresh | RrUnknown (v : Z).
#[export] Instance RouteRefreshSubtype_eq_dec : EqDecision RouteRefreshSubtype.
Proof. solve_decision. Defined.

Record RouteRefreshMessage := mkRouteRefresh {
  rr_afi_safi : AfiSafi;
  rr_subtype : RouteRefreshSubtype;
}.
#[export] Instance RouteRefreshMessage_eq_dec : EqDecision RouteRefreshMessage.
Proof. solve_decision. Defined.

Module RouteRefreshCodec.
Definition subtype_from_u8 (v : Z) : RouteRefreshSubtype :=
  match v with 0 => Refresh | 1 => BeginRefresh | 2 => EndRefresh | _ => RrUnknown v end.
Definition subtype_as_u8 (s : RouteRefreshSubtype) : Z :=
  match s with Refresh => 0 | BeginRefresh => 1 | EndRefresh => 2 | RrUnknown v => v end.
Definition new (a : AfiSafi) : RouteRefreshMessage := mkRouteRefresh a Refresh.
Definition decode : Dec CodecError RouteRefreshMessage :=
  afi ← read_u16;
  subtype ← read_u8;
  safi ← read_u8;
  mret (mkRouteRefresh (mkAfiSafi afi safi) (subtype_from_u8 subtype)).
Definition encode_body (m : RouteRefreshMessage) : list Z :=
  u16_be (afi (rr_afi_safi m)) ++ [subtype_as_u8 (rr_subtype m)] ++ [safi (rr_afi_safi m)].
Definition encode (m : RouteRefreshMessage) : list Z :=
  encode_framed MtRouteRefresh (encode_body m).
Definition wf (m : RouteRefreshMessage) : Prop :=
  AfiSafi_wf (rr_afi_safi m)
  /\ match rr_subtype m with RrUnknown v => is_u8 v /\ v ∉ [0; 1; 2] | _ => True end.
End RouteRefreshCodec.

(** ** RFC 9003 shutdown communication *)
Module Shutdown.

(** Well-formed UTF-8 ([std::str::from_utf8]), by lead byte. *)
Definition cont (b : Z) : bool := (0x80 <=? b) && (b <=? 0xBF).
Definition second3 (b0 b1 : Z) : bool :=
  if b0 =? 0xE0 then (0xA0 <=? b1) && (b1 <=? 0xBF)
  else if b0 =? 0xED then (0x80 <=? b1) && (b1 <=? 0x9F)
  else cont b1.
Definition second4 (b0 b1 : Z) : bool :=
  if b0 =? 0xF0 then (0x90 <=? b1) && (b1 <=? 0xBF)
  else if b0 =? 0xF4 then (0x80 <=? b1) && (b1 <=? 0x8F)
  else cont b1.
Fixpoint utf8_valid (l : list Z) : bool :=
  match l with
  | [] => true
  | b0 :: l1 =>
      if b0 <=? 0x7F then utf8_valid l1
      else match l1 with
      | [] => false
      | b1 :: l2 =>
          if (0xC2 <=? b0) && (b0 <=? 0xDF) then cont b1 && utf8_valid l2
          else match l2 with
          | [] => false
          | b2 :: l3 =>
              if (0xE0 <=? b0) && (b0 <=? 0xEF) then
                second3 b0 b1 && cont b2 && utf8_valid l3
              else match l3 with
              | [] => false
              | b3 :: l4 =>
                  if (0xF0 <=? b0) && (b0 <=? 0xF4) then
                    second4 b0 b1 && cont b2 && cont b3 && utf8_valid l4
                  else false
              end
          end
      end
  end.

(** [&str] as its UTF-8 bytes. *)
Definition encode_shutdown_message (msg : list Z) : list Z :=
  let n := Nat.min (length msg) 128 in
  as_u8 (Z.of_nat n) :: take n msg.
Definition decode_shutdown_message (data : list Z) : option (list Z) :=
  match data with
  | [] => None
  | n :: rest =>
      let e := Nat.min (Z.to_nat n) (length rest) in
      if utf8_valid (take e rest) then Some (take e rest) else None
  end.
End Shutdown.

(** * Facts *)

(** Case analysis on an integer literal match through its exact value. *)
Ltac zcases := repeat (case_match; simplify_eq; try done).

Lemma msg_header_roundtrip v : MsgHeaderErrorOps.as_u8 (MsgHeaderErrorOps.from_u8 v) = v.
Proof. unfold MsgHeaderErrorOps.from_u8. zcases. Qed.
Lemma open_msg_roundtrip v : OpenMsgErrorOps.as_u8 (OpenMsgErrorOps.from_u8 v) = v.
Proof. unfold OpenMsgErrorOps.from_u8. zcases. Qed.
Lemma update_msg_roundtrip v : UpdateMsgErrorOps.as_u8 (UpdateMsgErrorOps.from_u8 v) = v.
Proof. unfold UpdateMsgErrorOps.from_u8. zcases. Qed.
Lemma cease_roundtrip v : CeaseErrorOps.as_u8 (CeaseErrorOps.from_u8 v) = v.
Proof. unfold CeaseErrorOps.from_u8. zcases. Qed.

(** A code outside the assigned values keeps its [Unknown] constructor; a code
    produced by a decoder is assigned or unknown, never both. *)
Ltac zunknown H := zcases; exfalso; apply H; rewrite !elem_of_cons; auto 20.

Lemma msg_header_unknown v : v ∉ [1; 2; 3] -> MsgHeaderErrorOps.from_u8 v = MhUnknown v.
Proof. intros H. unfold MsgHeaderErrorOps.from_u8. zunknown H. Qed.
Lemma open_msg_unknown v : v ∉ [1; 2; 3; 4; 6; 7; 11] ->
  OpenMsgErrorOps.from_u8 v = OmUnknown v.
Proof. intros H. unfold OpenMsgErrorOps.from_u8. zunknown H. Qed.
Lemma update_msg_unknown v : v ∉ [1; 2; 3; 4; 5; 6; 8; 9; 10; 11] ->
  UpdateMsgErrorOps.from_u8 v = UmUnknown v.
Proof. intros H. unfold UpdateMsgErrorOps.from_u8. zunknown H. Qed.
Lemma cease_unknown v : v ∉ [1; 2; 3; 4; 5; 6; 7; 8; 9; 10] ->
  CeaseErrorOps.from_u8 v = CeUnknown v.
Proof. intros H. unfold CeaseErrorOps.from_u8. zunknown H. Qed.
Lemma codes_unknown c s : c ∉ [1; 2; 3; 4; 5; 6] ->
  NotificationErrorOps.from_codes c s = NeUnknown c s.
Proof. intros H. unfold NotificationErrorOps.from_codes. zunknown H. Qed.

Lemma from_codes_as_codes e : NotificationErrorOps.wf e ->
  (let '(c, s) := NotificationErrorOps.as_codes e in NotificationErrorOps.from_codes c s) = e.
Proof.
  destruct e as [e|e|e| | | | | |e|c s]; simpl; try done.
  - destruct e; simpl; try done. intros [_ H]. by rewrite msg_header_unknown.
  - destruct e; simpl; try done. intros [_ H]. by rewrite open_msg_unknown.
  - destruct e; simpl; try done. intros [_ H]. by rewrite update_msg_unknown.
  - destruct e; simpl; try done. intros [_ H]. by rewrite cease_unknown.
  - intros (_ & _ & H). by apply codes_unknown.
Qed.

Lemma from_codes_wf c s : is_u8 c -> is_u8 s ->
  NotificationErrorOps.wf (NotificationErrorOps.from_codes c s).
Proof.
  intros Hc Hs. destruct (decide (c ∈ [1; 2; 3; 4; 5; 6])) as [Hin|Hn].
  - rewrite !elem_of_cons, elem_of_nil in Hin. destruct_or?; simplify_eq; simpl; try done.
    + destruct (decide (s ∈ [1; 2; 3])) as [Hi|Hi]; [|by rewrite msg_header_unknown].
      rewrite !elem_of_cons, elem_of_nil in Hi. by destruct_or?; simplify_eq.
    + destruct (decide (s ∈ [1; 2; 3; 4; 6; 7; 11])) as [Hi|Hi]; [|by rewrite open_msg_unknown].
      rewrite !elem_of_cons, elem_of_nil in Hi. by destruct_or?; simplify_eq.
    + destruct (decide (s ∈ [1; 2; 3; 4; 5; 6; 8; 9; 10; 11])) as [Hi|Hi];
        [|by rewrite update_msg_unknown].
      rewrite !elem_of_cons, elem_of_nil in Hi. by destruct_or?; simplify_eq.
    + repeat case_match; done.
    + destruct (decide (s ∈ [1; 2; 3; 4; 5; 6; 7; 8; 9; 10])) as [Hi|Hi];
        [|by rewrite cease_unknown].
      rewrite !elem_of_cons, elem_of_nil in Hi. by destruct_or?; simplify_eq.
  - rewrite codes_unknown by done. by split_and!.
Qed.

(** What survives a decode followed by an encode: every (code, subcode) pair but
    the subcode of Hold Timer Expired and unassigned FSM-error subcodes. *)
Lemma as_codes_from_codes c s :
  NotificationErrorOps.as_codes (NotificationErrorOps.from_codes c s)
  = (c, if (c =? 4) || ((c =? 5) && negb ((1 <=? s) && (s <=? 3))) then 0 else s).
Proof.
  destruct (decide (c ∈ [1; 2; 3; 4; 5; 6])) as [Hin|Hn].
  - rewrite !elem_of_cons, elem_of_nil in Hin.
    destruct_or?; simplify_eq; simpl;
      rewrite ?msg_header_roundtrip, ?open_msg_roundtrip, ?update_msg_roundtrip, ?cease_roundtrip;
      try done.
    destruct (decide (s ∈ [1; 2; 3])) as [Hi|Hi].
    + rewrite !elem_of_cons, elem_of_nil in Hi. by destruct_or?; simplify_eq.
    + rewrite !not_elem_of_cons in Hi. destruct Hi as (? & ? & ? & _).
      replace ((1 <=? s) && (s <=? 3))%bool with false by (symmetry; lia). simpl.
      repeat case_match; done.
  - rewrite codes_unknown by done. simpl. rewrite !not_elem_of_cons in Hn.
    destruct Hn as (_ & _ & _ & ? & ? & _).
    by rewrite (proj2 (Z.eqb_neq _ _)), (proj2 (Z.eqb_neq _ _)).
Qed.

Lemma as_codes_u8 e : NotificationErrorOps.wf e ->
  is_u8 (fst (NotificationErrorOps.as_codes e)) /\ is_u8 (snd (NotificationErrorOps.as_codes e)).
Proof.
  destruct e as [[]|[]|[]| | | | | |[]|c s]; simpl; unfold is_u8; lia || naive_solver lia.
Qed.

Lemma dwp_notification c Q : cwf c ->
  (forall m c', cwf c' -> NotificationCodec.wf m -> Q m c') ->
  dwp NotificationCodec.decode c Q.
Proof.
  intros Hc HQ. apply dwp_bind, dwp_read_u8; [done|]. intros code c1 Hc1 _ H1.
  apply dwp_bind, dwp_read_u8; [done|]. intros sub c2 Hc2 _ H2.
  apply dwp_bind, dwp_read_remaining; [done|]. intros b c3 Hc3 _ _ Hb.
  apply dwp_ret, HQ; [done|]. split; [by apply from_codes_wf|done].
Qed.

Lemma DecodesAll_notification m : NotificationCodec.wf m ->
  DecodesAll NotificationCodec.decode (NotificationCodec.encode_body m) m.
Proof.
  intros [He Hb]. unfold NotificationCodec.encode_body, NotificationCodec.decode.
  pose proof (from_codes_as_codes _ He) as Hr.
  destruct (NotificationErrorOps.as_codes (nm_error m)) as [c s].
  eapply Decodes_bind_all; [apply Decodes_u8|]. eapply Decodes_bind_all; [apply Decodes_u8|].
  eapply DecodesAll_bind_ret; [apply DecodesAll_remaining|].
  rewrite Hr. destruct m. apply Decodes_ret.
Qed.

Lemma notification_body_bytes m : NotificationCodec.wf m ->
  bytes (NotificationCodec.encode_body m).
Proof.
  intros [He Hb]. unfold NotificationCodec.encode_body.
  destruct (as_codes_u8 _ He) as [H1 H2].
  destruct (NotificationErrorOps.as_codes _) as [c s]. simpl in *. by flist.
Qed.

(** ROUTE-REFRESH *)
Lemma rr_subtype_roundtrip v :
  RouteRefreshCodec.subtype_as_u8 (RouteRefreshCodec.subtype_from_u8 v) = v.
Proof. unfold RouteRefreshCodec.subtype_from_u8. zcases. Qed.

Lemma rr_subtype_unknown v : v ∉ [0; 1; 2] ->
  RouteRefreshCodec.subtype_from_u8 v = RrUnknown v.
Proof. intros H. unfold RouteRefreshCodec.subtype_from_u8. zunknown H. Qed.

Lemma dwp_route_refresh c Q : cwf c ->
  (forall m c', cwf c' -> RouteRefreshCodec.wf m ->
     rest c = RouteRefreshCodec.encode_body m ++ rest c' -> Q m c') ->
  dwp RouteRefreshCodec.decode c Q.
Proof.
  intros Hc HQ. apply dwp_bind, dwp_read_u16; [done|]. intros a c1 Hc1 Hr1 Ha.
  apply dwp_bind, dwp_read_u8; [done|]. intros s c2 Hc2 Hr2 Hs.
  apply dwp_bind, dwp_read_u8; [done|]. intros f c3 Hc3 Hr3 Hf.
  apply dwp_ret, HQ; [done| |].
  - split; [by split|]. cbn [rr_subtype].
    destruct (decide (s ∈ [0; 1; 2])) as [Hi|Hi]; [|by rewrite rr_subtype_unknown].
    rewrite !elem_of_cons, elem_of_nil in Hi. by destruct_or?; simplify_eq.
  - unfold RouteRefreshCodec.encode_body. cbn [rr_afi_safi rr_subtype afi safi].
    rewrite rr_subtype_roundtrip, Hr1, Hr2, Hr3, <- !app_assoc. done.
Qed.

Lemma DecodesAll_route_refresh m : RouteRefreshCodec.wf m ->
  DecodesAll RouteRefreshCodec.decode (RouteRefreshCodec.encode_body m) m.
Proof.
  intros [[Ha Hs] Ht]. apply Decodes_all. destruct m as [[a f] s].
  cbn [rr_afi_safi rr_subtype afi safi] in *.
  unfold RouteRefreshCodec.encode_body, RouteRefreshCodec.decode.
  cbn [rr_afi_safi rr_subtype afi safi].
  eapply Decodes_bind; [by apply Decodes_u16|]. eapply Decodes_bind; [apply Decodes_u8|].
  eapply Decodes_bind_ret; [apply Decodes_u8|].
  replace (RouteRefreshCodec.subtype_from_u8 (RouteRefreshCodec.subtype_as_u8 s)) with s;
    [apply Decodes_ret|].
  destruct s as [| | |v]; try done. destruct Ht as [_ Hv]. cbn. by rewrite rr_subtype_unknown.
Qed.

(** Shutdown text *)
Lemma shutdown_decode_encode msg :
  Shutdown.decode_shutdown_message (Shutdown.encode_shutdown_message msg)
  = if Shutdown.utf8_valid (take 128 msg) then Some (take 128 msg) else None.
Proof.
  unfold Shutdown.encode_shutdown_message, Shutdown.decode_shutdown_message, as_u8.
  rewrite Z.mod_small by lia. rewrite Nat2Z.id, length_take.
  assert (Ht : take (Nat.min (length msg) 128) msg = take 128 msg).
  { destruct (Nat.le_ge_cases (length msg) 128).
    - rewrite Nat.min_l by done. by rewrite !take_ge.
    - by rewrite Nat.min_r. }
  rewrite Ht. rewrite (take_ge (take 128 msg)) by (rewrite length_take; lia). done.
Qed.
