(* ===== verification/Open.v ===== *)
(** OPEN messages and capabilities ([message/open.rs]). *)
From Stdlib Require Import ZArith Lia Bool.
From stdpp Require Import base tactics numbers decidable list.
From S2P Require Import Prelude Types Wire Header.
Open Scope Z_scope.

Record GracefulRestartFamily := mkGrFamily {
  gr_afi_safi : AfiSafi;
  forwarding_preserved : bool;
}.
#[export] Instance GracefulRestartFamily_eq_dec : EqDecision GracefulRestartFamily.
Proof. solve_decision. Defined.

Inductive Capability :=
| CapMultiProtocol (a : AfiSafi)
| CapRouteRefresh
| CapFourByteAsn (asn : Z)
| CapRole (r : Role)
| CapGracefulRestart (restart_flags restart_time : Z) (families : list GracefulRestartFamily)
| CapExtendedMessage
| CapUnknown (code : Z) (value : list Z).
#[export] Instance Capability_eq_dec : EqDecision Capability.
Proof. solve_decision. Defined.

Record OpenMessage := mkOpen {
  version : Z;
  my_as : Z;
  hold_time : Z;
  bgp_id : Z;
  capabilities : list Capability;
}.
#[export] Instance OpenMessage_eq_dec : EqDecision OpenMessage.
Proof. solve_decision. Defined.

Module OpenCodec.
Definition BGP_VERSION : Z := 4.
Definition OPT_PARAM_CAPABILITIES : Z := 2.

(** One family of a Graceful Restart capability. *)
Definition decode_gr_family (families : list GracefulRestartFamily)
    : Dec CodecError (list GracefulRestartFamily) :=
  afi ← read_u16;
  safi ← read_u8;
  fwd_flags ← read_u8;
  mret (families ++ [mkGrFamily (mkAfiSafi afi safi) (negb (Z.land fwd_flags 0x80 =? 0))]).

Definition at_least (n : nat) (c : Cursor) : bool := (n <=? remaining c)%nat.

Definition decode_capability (code : Z) : Dec CodecError Capability :=
  n ← dec_remaining;
  match code with
  | 1 =>
      if (n <? 4)%nat then dec_err (InvalidCapability code)
      else
        afi ← read_u16;
        _reserved ← read_u8;
        safi ← read_u8;
        mret (CapMultiProtocol (mkAfiSafi afi safi))
  | 2 => mret CapRouteRefresh
  | 9 =>
      if (n <? 1)%nat then dec_err (InvalidCapability code)
      else
        value ← read_u8;
        match RoleOps.from_wire_value value with
        | Some role => mret (CapRole role)
        | None => mret (CapUnknown code [value])
        end
  | 6 => mret CapExtendedMessage
  | 65 =>
      if (n <? 4)%nat then dec_err (InvalidCapability code)
      else asn ← read_u32; mret (CapFourByteAsn asn)
  | 64 =>
      if (n <? 2)%nat then dec_err (InvalidCapability code)
      else
        flags_time ← read_u16;
        let restart_flags := as_u8 (Z.shiftr flags_time 12) in
        let restart_time := Z.land flags_time 0x0FFF in
        families ← while_dec (at_least 4) decode_gr_family [];
        mret (CapGracefulRestart restart_flags restart_time families)
  | _ => value ← read_remaining; mret (CapUnknown code value)
  end.

(** The two loops of [decode_capabilities]. *)
Definition decode_capability_tlv (caps : list Capability) : Dec CodecError (list Capability) :=
  cap_code ← read_u8;
  cap_len ← read_u8;
  cap_cur ← fork (Z.to_nat cap_len);
  cap ← dec_on cap_cur (decode_capability cap_code);
  mret (caps ++ [cap]).
Definition decode_parameter (caps : list Capability) : Dec CodecError (list Capability) :=
  param_type ← read_u8;
  param_len ← read_u8;
  param_cur ← fork (Z.to_nat param_len);
  if negb (param_type =? OPT_PARAM_CAPABILITIES)
  then dec_err (UnsupportedOptionalParameter param_type)
  else dec_on param_cur (while_dec more decode_capability_tlv caps).
Definition decode_capabilities : Dec CodecError (list Capability) :=
  while_dec more decode_parameter [].

Definition decode : Dec CodecError OpenMessage :=
  version ← read_u8;
  if negb (version =? BGP_VERSION) then dec_err (UnsupportedVersion version)
  else
    my_as ← read_u16;
    hold_time ← read_u16;
    bgp_id ← read_ipv4addr;
    opt_len ← read_u8;
    opt_cur ← fork (Z.to_nat opt_len);
    capabilities ← dec_on opt_cur decode_capabilities;
    mret (mkOpen version my_as hold_time bgp_id capabilities).

Definition code (c : Capability) : Z :=
  match c with
  | CapMultiProtocol _ => 1
  | CapRouteRefresh => 2
  | CapExtendedMessage => 6
  | CapFourByteAsn _ => 65
  | CapGracefulRestart _ _ _ => 64
  | CapRole _ => 9
  | CapUnknown code _ => code
  end.
Definition encode_gr_family (fam : GracefulRestartFamily) : list Z :=
  u16_be (afi (gr_afi_safi fam)) ++ [safi (gr_afi_safi fam)]
  ++ [if forwarding_preserved fam then 0x80 else 0x00].
Definition encode_capability_value (cap : Capability) : list Z :=
  match cap with
  | CapMultiProtocol a => u16_be (afi a) ++ [0] ++ [safi a]
  | CapRouteRefresh | CapExtendedMessage => []
  | CapFourByteAsn asn => u32_be asn
  | CapRole role => [RoleOps.as_wire_value role]
  | CapGracefulRestart restart_flags restart_time families =>
      u16_be (Z.lor (as_u16 (Z.shiftl restart_flags 12)) (Z.land restart_time 0x0FFF))
      ++ concat (map encode_gr_family families)
  | CapUnknown _ value => value
  end.
Definition encode_capability_tlv (cap : Capability) : list Z :=
  let value := encode_capability_value cap in
  [code cap] ++ [as_u8 (len value)] ++ value.
Definition encode_capabilities (caps : list Capability) : list Z :=
  concat (map encode_capability_tlv caps).
Definition encode_opt_params (caps : list Capability) : list Z :=
  let caps_bytes := encode_capabilities caps in
  match caps_bytes with
  | [] => []
  | _ => [OPT_PARAM_CAPABILITIES] ++ [as_u8 (len caps_bytes)] ++ caps_bytes
  end.
Definition encode_body (m : OpenMessage) : list Z :=
  let opt_params := encode_opt_params (capabilities m) in
  [BGP_VERSION] ++ u16_be (my_as m) ++ u16_be (hold_time m) ++ u32_be (bgp_id m)
  ++ [as_u8 (len opt_params)] ++ opt_params.
Definition encode (m : OpenMessage) : list Z := encode_framed MtOpen (encode_body m).

(** Values the decoder can produce, and the encoder writes without loss. *)
Definition cap_ok (c : Capability) : Prop :=
  match c with
  | CapMultiProtocol a => AfiSafi_wf a
  | CapRouteRefresh | CapExtendedMessage | CapRole _ => True
  | CapFourByteAsn asn => is_u32 asn
  | CapGracefulRestart f t fams =>
      0 <= f < 16 /\ 0 <= t < 4096 /\ Forall (fun x => AfiSafi_wf (gr_afi_safi x)) fams
  | CapUnknown code value =>
      is_u8 code /\ bytes value
      /\ (code = 9 /\ (exists v, value = [v] /\ RoleOps.from_wire_value v = None)
          \/ code ∉ [1; 2; 9; 6; 65; 64])
  end.
Definition cap_wf (c : Capability) : Prop :=
  cap_ok c /\ len (encode_capability_value c) <= 255.
(** All capabilities travel in one optional parameter of at most 255 bytes. *)
Definition wf (m : OpenMessage) : Prop :=
  version m = BGP_VERSION /\ is_u16 (my_as m) /\ is_u16 (hold_time m) /\ is_u32 (bgp_id m)
  /\ Forall cap_wf (capabilities m) /\ len (encode_opt_params (capabilities m)) <= 255.
End OpenCodec.

(** * Facts *)
Import OpenCodec.

Lemma encode_gr_family_length f : length (encode_gr_family f) = 4%nat.
Proof. unfold encode_gr_family, u16_be. by rewrite !length_app, be_bytes_length. Qed.

Lemma concat_gr_length fams :
  length (concat (map encode_gr_family fams)) = (4 * length fams)%nat.
Proof.
  induction fams as [|f l IH]; [done|]. cbn [map concat].
  rewrite length_app, encode_gr_family_length, IH. simpl. lia.
Qed.

Lemma encode_gr_family_bytes f : AfiSafi_wf (gr_afi_safi f) -> bytes (encode_gr_family f).
Proof.
  intros [Ha Hs]. unfold encode_gr_family. flist; auto with pv.
  destruct (forwarding_preserved f); unfold is_u8; lia.
Qed.

(** The packed flags and time of a Graceful Restart capability. *)
Lemma gr_pack f t : 0 <= f < 16 -> 0 <= t < 4096 ->
  let v := Z.lor (as_u16 (Z.shiftl f 12)) (Z.land t 0x0FFF) in
  is_u16 v /\ as_u8 (Z.shiftr v 12) = f /\ Z.land v 0x0FFF = t.
Proof.
  intros Hf Ht v. change 0x0FFF with (Z.ones 12) in *.
  assert (v = f * 4096 + t) as ->.
  { unfold v. change 4095 with (Z.ones 12). rewrite Z.land_ones, (Z.mod_small t) by lia.
    rewrite Z.shiftl_mul_pow2 by lia. unfold as_u16.
    change (2 ^ 12) with 4096. rewrite Z.mod_small by lia.
    rewrite <- Z.add_lor_land.
    replace (Z.land (f * 4096) t) with 0; [lia|]. symmetry.
    apply Z.bits_inj'. intros n Hn. rewrite Z.land_spec, Z.bits_0.
    change 4096 with (2 ^ 12). destruct (Z.ltb_spec n 12).
    - by rewrite Z.mul_pow2_bits_low by lia.
    - rewrite <- (Z.mod_small t (2 ^ 12)) by lia.
      rewrite Z.mod_pow2_bits_high by lia. apply andb_false_r. }
  change 4095 with (Z.ones 12). rewrite Z.land_ones, Z.shiftr_div_pow2 by lia.
  change (2 ^ 12) with 4096. unfold as_u8, is_u16. split_and!.
  - lia.
  - lia.
  - rewrite Z.div_add_l, Z.div_small, Z.add_0_r, Z.mod_small by lia. done.
  - rewrite Z.add_comm, Z.mod_add, Z.mod_small by lia. done.
Qed.

Lemma gr_unpack v : is_u16 v ->
  0 <= as_u8 (Z.shiftr v 12) < 16 /\ 0 <= Z.land v 0x0FFF < 4096.
Proof.
  intros Hv. change 4095 with (Z.ones 12).
  rewrite Z.land_ones, Z.shiftr_div_pow2 by lia. change (2 ^ 12) with 4096.
  unfold is_u16, as_u8 in *. split; [|apply Z.mod_pos_bound; lia].
  assert (0 <= v / 4096 < 16).
  { split; [apply Z.div_pos; lia|apply Z.div_lt_upper_bound; lia]. }
  rewrite Z.mod_small by lia. lia.
Qed.

(** ** Reading back an encoded capability *)
Lemma Decodes_gr_family fams f : AfiSafi_wf (gr_afi_safi f) ->
  Decodes (decode_gr_family fams) (encode_gr_family f) (fams ++ [f]).
Proof.
  intros [Ha Hs]. unfold decode_gr_family, encode_gr_family.
  eapply Decodes_bind; [by apply Decodes_u16|]. eapply Decodes_bind; [apply Decodes_u8|].
  eapply Decodes_bind_ret; [apply Decodes_u8|].
  destruct f as [[a s] p]; cbn [gr_afi_safi forwarding_preserved afi safi].
  destruct p; apply Decodes_ret.
Qed.

Lemma foldl_snoc {A} (l acc : list A) : foldl (fun a x => a ++ [x]) acc l = acc ++ l.
Proof.
  revert acc. induction l as [|x l IH]; intros acc; simpl; [by rewrite app_nil_r|].
  rewrite IH. by rewrite <- app_assoc.
Qed.

(** Bind after a peek at the number of unread bytes. *)
Lemma DecodesAll_peek {A} (f : nat -> Dec CodecError A) bs a :
  DecodesAll (f (length bs)) bs a -> DecodesAll (dec_remaining ≫= f) bs a.
Proof.
  intros H c Hok Hc. destruct (H c Hok Hc) as (c' & E & Hr). exists c'. split; [|done].
  unfold mbind, dec_bind, dec_remaining. by rewrite remaining_rest, Hc.
Qed.

Lemma DecodesAll_gr_families fams : Forall (fun x => AfiSafi_wf (gr_afi_safi x)) fams ->
  DecodesAll (while_dec (at_least 4) decode_gr_family []) (concat (map encode_gr_family fams)) fams.
Proof.
  intros Hf. rewrite Forall_forall in Hf.
  pose proof (DecodesAll_while_cond (at_least 4) decode_gr_family encode_gr_family
    (fun a x => a ++ [x]) fams []) as H.
  rewrite foldl_snoc in H. apply H.
  - intros x acc Hx. apply Decodes_gr_family. by apply Hf.
  - intros x _ Hx. pose proof (encode_gr_family_length x). by rewrite Hx in *.
  - intros c x tl Hc _. apply Nat.leb_le.
    rewrite remaining_rest, Hc, length_app, encode_gr_family_length. lia.
  - intros c Hc. apply Nat.leb_gt. rewrite remaining_rest, Hc. simpl. lia.
Qed.

Lemma decode_capability_unknown code : code ∉ [1; 2; 9; 6; 65; 64] ->
  decode_capability code
  = (n ← dec_remaining; value ← read_remaining; mret (CapUnknown code value)).
Proof.
  intros H. unfold decode_capability. rewrite !not_elem_of_cons in H.
  repeat (case_match; try lia); done.
Qed.

Lemma DecodesAll_capability cap : cap_ok cap ->
  DecodesAll (decode_capability (OpenCodec.code cap)) (encode_capability_value cap) cap.
Proof.
  destruct cap as [[a s]| |asn|r|f t fams| |cd v]; cbn [cap_ok OpenCodec.code]; intros Hok.
  - destruct Hok as [Ha Hs]. apply DecodesAll_peek. cbn [encode_capability_value afi safi] in *.
    rewrite length_app, u16_be_length. apply Decodes_all. simpl (_ <? _)%nat. cbn match.
    eapply Decodes_bind; [by apply Decodes_u16|]. eapply Decodes_bind; [apply Decodes_u8|].
    eapply Decodes_bind_ret; [apply Decodes_u8|apply Decodes_ret].
  - apply DecodesAll_peek, Decodes_all, Decodes_ret.
  - apply DecodesAll_peek. cbn [encode_capability_value]. rewrite u32_be_length.
    apply Decodes_all. eapply Decodes_bind_ret; [by apply Decodes_u32|apply Decodes_ret].
  - apply DecodesAll_peek, Decodes_all. eapply Decodes_bind_ret; [apply Decodes_u8|].
    rewrite role_wire_roundtrip. apply Decodes_ret.
  - destruct Hok as (Hf & Ht & Hfam). apply DecodesAll_peek. cbn [encode_capability_value].
    destruct (gr_pack f t Hf Ht) as (Hv & Hvf & Hvt).
    rewrite length_app, u16_be_length. cbn [Nat.ltb Nat.leb Nat.add].
    eapply Decodes_bind_all; [by apply Decodes_u16|]. cbv zeta.
    rewrite Hvf, Hvt.
    eapply DecodesAll_bind_ret; [by apply DecodesAll_gr_families|apply Decodes_ret].
  - apply DecodesAll_peek, Decodes_all, Decodes_ret.
  - destruct Hok as (_ & _ & [[-> (w & -> & Hw)]|Hn]).
    + apply DecodesAll_peek, Decodes_all. eapply Decodes_bind_ret; [apply Decodes_u8|].
      rewrite Hw. apply Decodes_ret.
    + rewrite decode_capability_unknown by done. apply DecodesAll_peek.
      eapply DecodesAll_bind_ret; [apply DecodesAll_remaining|apply Decodes_ret].
Qed.

Lemma as_u8_len {A} (l : list A) : len l <= 255 -> Z.to_nat (as_u8 (len l)) = length l.
Proof. unfold as_u8, len. intros. rewrite Z.mod_small by lia. lia. Qed.

Lemma Decodes_capability_tlv caps cap : cap_wf cap ->
  Decodes (decode_capability_tlv caps) (encode_capability_tlv cap) (caps ++ [cap]).
Proof.
  intros [Hok Hl]. unfold decode_capability_tlv, encode_capability_tlv.
  eapply Decodes_bind; [apply Decodes_u8|]. eapply Decodes_bind; [apply Decodes_u8|].
  rewrite <- (app_nil_r (encode_capability_value cap)) at 2.
  eapply Decodes_fork_on; [by rewrite as_u8_len|by apply DecodesAll_capability|apply Decodes_ret].
Qed.

Lemma DecodesAll_parameter caps0 caps : Forall cap_wf caps ->
  DecodesAll (while_dec more decode_capability_tlv caps0) (encode_capabilities caps)
    (caps0 ++ caps).
Proof.
  intros Hc. rewrite Forall_forall in Hc. rewrite <- foldl_snoc.
  apply DecodesAll_while; [|done]. intros x acc Hx. apply Decodes_capability_tlv. by apply Hc.
Qed.

Lemma encode_capabilities_nil caps : encode_capabilities caps = [] -> caps = [].
Proof. by destruct caps. Qed.

Lemma DecodesAll_capabilities caps : Forall cap_wf caps ->
  len (encode_opt_params caps) <= 255 ->
  DecodesAll decode_capabilities (encode_opt_params caps) caps.
Proof.
  intros Hc Hl. unfold decode_capabilities.
  unfold encode_opt_params in *. pose proof (encode_capabilities_nil caps) as Hnil.
  destruct (encode_capabilities caps) as [|b0 bs] eqn:Eb.
  - rewrite Hnil by done. intros c Hok Hrest. exists c. split; [|done].
    apply while_end. apply Nat.ltb_ge. by rewrite remaining_rest, Hrest.
  - pose proof (DecodesAll_while decode_parameter
      (fun _ : unit => [OPT_PARAM_CAPABILITIES] ++ [as_u8 (len (b0 :: bs))] ++ (b0 :: bs))
      (fun acc _ => acc ++ caps) [tt] []) as H.
    simpl concat in H. rewrite app_nil_r in H. apply H; [|done].
    intros [] acc _. unfold decode_parameter.
    eapply Decodes_bind; [apply Decodes_u8|]. eapply Decodes_bind; [apply Decodes_u8|].
    eapply Decodes_bind_ret; [apply Decodes_fork|].
    { rewrite as_u8_len; [done|]. unfold len in *. simpl in *. lia. }
    cbn [negb Z.eqb]. eapply Decodes_on; [|by apply rest_cursor_new|unfold cok; simpl; lia].
    rewrite <- Eb. by apply DecodesAll_parameter.
Qed.

Lemma DecodesAll_open m : wf m -> DecodesAll decode (encode_body m) m.
Proof.
  intros (Hv & Ha & Hh & Hi & Hc & Hl). destruct m as [v a h i caps].
  cbn [version my_as hold_time bgp_id capabilities] in *. subst v.
  unfold decode, encode_body. cbn [version my_as hold_time bgp_id capabilities].
  apply Decodes_all.
  eapply Decodes_bind; [apply Decodes_u8|]. cbn [negb Z.eqb BGP_VERSION Pos.eqb].
  eapply Decodes_bind; [by apply Decodes_u16|]. eapply Decodes_bind; [by apply Decodes_u16|].
  eapply Decodes_bind; [by apply Decodes_ipv4addr|]. eapply Decodes_bind; [apply Decodes_u8|].
  rewrite <- (app_nil_r (encode_opt_params caps)) at 2.
  eapply Decodes_fork_on; [by rewrite as_u8_len|by apply DecodesAll_capabilities|apply Decodes_ret].
Qed.

(** ** What the decoder produces *)

(** A decoded capability re-encodes in at most the bytes it was read from. *)
Lemma dwp_gr_families c Q : cwf c ->
  (forall fams c', cwf c' -> Forall (fun x => AfiSafi_wf (gr_afi_safi x)) fams ->
     (4 * length fams <= remaining c)%nat -> Q fams c') ->
  dwp (while_dec (at_least 4) decode_gr_family []) c Q.
Proof.
  intros Hc HQ. apply dwp_while with (I := fun fams c' =>
    cwf c' /\ Forall (fun x => AfiSafi_wf (gr_afi_safi x)) fams
    /\ (4 * length fams + remaining c' <= remaining c)%nat).
  - simpl. split_and!; [done|constructor|lia].
  - intros fams c0 (Hc0 & Hf & Hl) _. apply dwp_bind, dwp_read_u16; [done|].
    intros a c1 Hc1 Hr1 Ha. apply dwp_bind, dwp_read_u8; [done|]. intros s c2 Hc2 Hr2 Hs.
    apply dwp_bind, dwp_read_u8; [done|]. intros w c3 Hc3 Hr3 Hw. apply dwp_ret.
    rewrite !remaining_rest in *. rewrite Hr1, Hr2, Hr3 in *.
    autorewrite with pv_len in *. simpl in *.
    split_and!; [done|by flist|lia|lia].
  - intros fams c0 (Hc0 & Hf & Hl) _. apply HQ; [done|done|lia].
Qed.

Lemma dwp_capability code c Q : cwf c -> is_u8 code -> (remaining c <= 255)%nat ->
  (forall cap c', cap_wf cap -> OpenCodec.code cap = code ->
     (length (encode_capability_value cap) <= remaining c)%nat -> Q cap c') ->
  dwp (decode_capability code) c Q.
Proof.
  intros Hc Hcode Hrem HQ.
  assert (HQ' : forall cap c', cap_ok cap -> OpenCodec.code cap = code ->
    (length (encode_capability_value cap) <= remaining c)%nat -> Q cap c').
  { intros cap c' Hok Hcd Hlen. apply HQ; [split; [done|unfold len; lia]|done|done]. }
  clear HQ. destruct (decide (code ∈ [1; 2; 9; 6; 65; 64])) as [Hin|Hn].
  2:{ rewrite decode_capability_unknown by done. apply dwp_bind, dwp_remaining.
      apply dwp_bind, dwp_read_remaining; [done|]. intros b c1 _ Hr _ Hb. apply dwp_ret.
      apply HQ'; [by split_and!; [..|right]|done|]. simpl. by rewrite remaining_rest, Hr. }
  unfold decode_capability. apply dwp_bind, dwp_remaining.
  rewrite !elem_of_cons, elem_of_nil in Hin. destruct_or? Hin; subst code; cbn match; try done.
  - destruct (Nat.ltb_spec (remaining c) 4); [done|].
    apply dwp_bind, dwp_read_u16; [done|]. intros a c1 Hc1 Hr1 Ha.
    apply dwp_bind, dwp_read_u8; [done|]. intros r c2 Hc2 Hr2 Hr.
    apply dwp_bind, dwp_read_u8; [done|]. intros s c3 Hc3 Hr3 Hs.
    apply dwp_ret, HQ'; [by split|done|]. cbn [encode_capability_value].
    autorewrite with pv_len. simpl. lia.
  - apply dwp_ret, HQ'; [done|done|simpl; lia].
  - destruct (Nat.ltb_spec (remaining c) 1); [done|].
    apply dwp_bind, dwp_read_u8; [done|]. intros v c1 Hc1 Hr1 Hv.
    destruct (RoleOps.from_wire_value v) as [r|] eqn:Er; apply dwp_ret, HQ'; simpl; try lia.
    split_and!; [done|by flist|left; eauto].
  - apply dwp_ret, HQ'; [done|done|simpl; lia].
  - destruct (Nat.ltb_spec (remaining c) 4); [done|].
    apply dwp_bind, dwp_read_u32; [done|]. intros a c1 Hc1 Hr1 Ha.
    apply dwp_ret, HQ'; [done|done|]. cbn [encode_capability_value].
    rewrite u32_be_length. lia.
  - destruct (Nat.ltb_spec (remaining c) 2); [done|].
    apply dwp_bind, dwp_read_u16; [done|]. intros v c1 Hc1 Hr1 Hv.
    apply dwp_bind, dwp_gr_families; [done|]. intros fams c2 Hc2 Hf Hl.
    destruct (gr_unpack v Hv). apply dwp_ret, HQ'; [done|done|].
    cbn [encode_capability_value]. rewrite length_app, u16_be_length, concat_gr_length.
    rewrite !remaining_rest in *. rewrite Hr1, length_app, u16_be_length in *. lia.
Qed.

Lemma encode_capabilities_snoc caps cap :
  length (encode_capabilities (caps ++ [cap]))
  = (length (encode_capabilities caps) + 2 + length (encode_capability_value cap))%nat.
Proof.
  unfold encode_capabilities. rewrite map_app, concat_app. cbn [map concat].
  unfold encode_capability_tlv. autorewrite with pv_len. simpl. lia.
Qed.

Lemma dwp_capability_tlvs caps0 c Q : cwf c -> (remaining c <= 255)%nat ->
  Forall cap_wf caps0 ->
  (forall caps c', Forall cap_wf caps ->
     (length (encode_capabilities caps)
      <= length (encode_capabilities caps0) + remaining c)%nat -> Q caps c') ->
  dwp (while_dec more decode_capability_tlv caps0) c Q.
Proof.
  intros Hc Hrem H0 HQ. apply dwp_while with (I := fun caps c' =>
    cwf c' /\ Forall cap_wf caps
    /\ (length (encode_capabilities caps) + remaining c'
        <= length (encode_capabilities caps0) + remaining c)%nat
    /\ (remaining c' <= 255)%nat).
  - by split_and!.
  - intros caps c0 (Hc0 & Hf & Hl & Hb) _. apply dwp_bind, dwp_read_u8; [done|].
    intros cd c1 Hc1 Hr1 Hcd. apply dwp_bind, dwp_read_u8; [done|]. intros n c2 Hc2 Hr2 Hn.
    apply dwp_bind, dwp_fork; [done|]. intros sub c3 Hc3 Hsub Hr3 Hl3.
    rewrite !remaining_rest in *. rewrite Hr1, Hr2, Hr3 in *. simpl in *.
    autorewrite with pv_len in *.
    apply dwp_bind, dwp_on, dwp_capability; [done|done|rewrite remaining_rest; lia|].
    intros cap _ Hcap _ Hlen. apply dwp_ret. rewrite remaining_rest in *.
    rewrite encode_capabilities_snoc. split_and!; [done|by flist|lia|lia|lia].
  - intros caps c0 (_ & Hf & Hl & _) _. apply HQ; [done|lia].
Qed.

Lemma encode_opt_params_length caps :
  (length (encode_opt_params caps) <= 2 + length (encode_capabilities caps))%nat
  /\ (length (encode_capabilities caps) <= length (encode_opt_params caps))%nat.
Proof. unfold encode_opt_params. destruct (encode_capabilities caps); simpl; lia. Qed.

Lemma dwp_capabilities c Q : cwf c -> (remaining c <= 255)%nat ->
  (forall caps c', Forall cap_wf caps -> len (encode_opt_params caps) <= 255 -> Q caps c') ->
  dwp decode_capabilities c Q.
Proof.
  intros Hc Hrem HQ. apply dwp_while with (I := fun caps c' =>
    cwf c' /\ Forall cap_wf caps
    /\ (length (encode_opt_params caps) + remaining c' <= remaining c)%nat).
  - split_and!; [done|constructor|simpl; lia].
  - intros caps c0 (Hc0 & Hf & Hl) _. unfold decode_parameter.
    apply dwp_bind, dwp_read_u8; [done|].
    intros ty c1 Hc1 Hr1 Hty. apply dwp_bind, dwp_read_u8; [done|]. intros n c2 Hc2 Hr2 Hn.
    apply dwp_bind, dwp_fork; [done|]. intros sub c3 Hc3 Hsub Hr3 Hl3.
    rewrite !remaining_rest in *. rewrite Hr1, Hr2, Hr3 in *. simpl in *.
    autorewrite with pv_len in *. destruct (negb _); [done|].
    apply dwp_on, dwp_capability_tlvs; [done|rewrite remaining_rest; lia|done|].
    intros caps' _ Hf' Hl'. rewrite remaining_rest in *.
    pose proof (encode_opt_params_length caps). pose proof (encode_opt_params_length caps').
    split_and!; [done|done|lia|lia].
  - intros caps c0 (_ & Hf & Hl) _. apply HQ; [done|unfold len; lia].
Qed.

Lemma dwp_open c Q : cwf c ->
  (forall m c', cwf c' -> wf m -> Q m c') -> dwp decode c Q.
Proof.
  intros Hc HQ. apply dwp_bind, dwp_read_u8; [done|]. intros v c1 Hc1 _ _.
  destruct (v =? BGP_VERSION) eqn:Hv; cbn [negb]; [|done]. zbool.
  apply dwp_bind, dwp_read_u16; [done|]. intros a c2 Hc2 _ Ha.
  apply dwp_bind, dwp_read_u16; [done|]. intros h c3 Hc3 _ Hh.
  apply dwp_bind, dwp_read_ipv4addr; [done|]. intros i c4 Hc4 _ Hi.
  apply dwp_bind, dwp_read_u8; [done|]. intros n c5 Hc5 _ Hn.
  apply dwp_bind, dwp_fork; [done|]. intros sub c6 Hc6 Hsub _ Hl.
  apply dwp_bind, dwp_on, dwp_capabilities; [done|rewrite remaining_rest, Hl; blia|].
  intros caps _ Hcaps Hlen. apply dwp_ret, HQ; [done|]. by split_and!.
Qed.

Lemma cap_bytes cap : cap_wf cap -> bytes (encode_capability_tlv cap).
Proof.
  intros [Hok Hl]. unfold encode_capability_tlv. flist.
  - destruct cap; simpl in *; try (unfold is_u8; lia). naive_solver.
  - auto with pv.
  - destruct cap as [[a s]| |asn|r|f t fams| |cd v];
      cbn [encode_capability_value cap_ok] in *; flist; auto with pv.
    + by destruct Hok.
    + destruct Hok as (_ & _ & Hf). apply Forall_concat, Forall_fmap.
      eapply Forall_impl; [done|]. intros x Hx. by apply encode_gr_family_bytes.
    + naive_solver.
Qed.

Lemma open_body_bytes m : wf m -> bytes (encode_body m).
Proof.
  intros (_ & _ & _ & _ & Hc & _). unfold encode_body. flist; auto with pv.
  assert (Hb : bytes (encode_capabilities (capabilities m))).
  { apply Forall_concat, Forall_fmap. eapply Forall_impl; [done|]. intros. by apply cap_bytes. }
  unfold encode_opt_params. destruct (encode_capabilities _); flist; auto with pv.
  all: by inversion Hb.
Qed.

Lemma open_body_length m : wf m -> (length (encode_body m) <= 4000)%nat.
Proof.
  intros (_ & _ & _ & _ & _ & Hl). unfold encode_body. autorewrite with pv_len.
  unfold len in Hl. simpl. lia.
Qed.
