(* ===== verification/Update.v ===== *)
(** UPDATE messages ([message/update.rs]): NLRI and path-attribute codecs and the
    RFC 7606 per-attribute error policy. *)
From Stdlib Require Import ZArith Lia Bool.
From stdpp Require Import base tactics numbers decidable strings list.
From S2P Require Import Prelude Addr Types AsPath Wire Header Notification.
Open Scope Z_scope.

Inductive AttributeErrorPolicy :=
| SessionReset (error : NotificationError) (data : list Z)
| TreatAsWithdraw
| AttributeDiscard.
#[export] Instance AttributeErrorPolicy_eq_dec : EqDecision AttributeErrorPolicy.
Proof. solve_decision. Defined.

Record AttributeDecodeError := mkAttributeDecodeError {
  ade_type_code : Z;
  ade_policy : AttributeErrorPolicy;
  ade_detail : string;
}.
#[export] Instance AttributeDecodeError_eq_dec : EqDecision AttributeDecodeError.
Proof. solve_decision. Defined.

(** ** Flag bits, attribute and segment type codes *)
Definition FLAG_OPTIONAL : Z := 0x80.
Definition FLAG_TRANSITIVE : Z := 0x40.
Definition FLAG_PARTIAL : Z := 0x20.
Definition FLAG_EXT_LEN : Z := 0x10.
Definition FLAGS_WKM : Z := FLAG_TRANSITIVE.
Definition FLAGS_ONT : Z := FLAG_OPTIONAL.
Definition FLAGS_OT : Z := Z.lor FLAG_OPTIONAL FLAG_TRANSITIVE.

Definition ATTR_ORIGIN : Z := 1.
Definition ATTR_AS_PATH : Z := 2.
Definition ATTR_NEXT_HOP : Z := 3.
Definition ATTR_MED : Z := 4.
Definition ATTR_LOCAL_PREF : Z := 5.
Definition ATTR_ATOMIC_AGGREGATE : Z := 6.
Definition ATTR_AGGREGATOR : Z := 7.
Definition ATTR_COMMUNITY : Z := 8.
Definition ATTR_ORIGINATOR_ID : Z := 9.
Definition ATTR_CLUSTER_LIST : Z := 10.
Definition ATTR_MP_REACH_NLRI : Z := 14.
Definition ATTR_MP_UNREACH_NLRI : Z := 15.
Definition ATTR_EXTENDED_COMMUNITIES : Z := 16.
Definition ATTR_AS4_PATH : Z := 17.
Definition ATTR_AS4_AGGREGATOR : Z := 18.
Definition ATTR_LARGE_COMMUNITY : Z := 32.
Definition ATTR_ONLY_TO_CUSTOMER : Z := 35.

Definition SEG_SET : Z := 1.
Definition SEG_SEQUENCE : Z := 2.
Definition SEG_CONFED_SEQUENCE : Z := 3.
Definition SEG_CONFED_SET : Z := 4.

Definition rfc7606_policy (type_code : Z) : AttributeErrorPolicy :=
  match type_code with
  | 1 | 2 | 3 | 5 => TreatAsWithdraw
  | 14 | 35 => TreatAsWithdraw
  | _ => AttributeDiscard
  end.

Definition expected_optional_transitive (type_code : Z) : option (bool * bool) :=
  match type_code with
  | 1 | 2 | 3 | 5 | 6 => Some (false, true)
  | 4 | 9 | 10 | 14 | 15 => Some (true, false)
  | 7 | 8 | 16 | 17 | 18 | 32 | 35 => Some (true, true)
  | _ => None
  end.

Definition error_detail (e : CodecError) : string :=
  match e with
  | InvalidOrigin _ => "invalid ORIGIN value"
  | UnknownAsPathSegmentType _ => "unknown AS_PATH segment type"
  | InvalidAttribute _ detail => detail
  | Truncated _ _ => "attribute value truncated"
  | _ => "malformed attribute"
  end%string.

(** [flags & BIT != 0] *)
Definition has_flag (flags bit : Z) : bool := negb (Z.land flags bit =? 0).

(** Run a decoder on a cursor of its own, keeping its error as a value. *)
Definition dec_try {E A} (sub : Cursor) (d : Dec E A) : Dec E (E + A) := fun c =>
  match d sub with
  | Ok (a, _) => Ok (inr a, c)
  | Err e => Ok (inl e, c)
  | Panic => Panic
  | OutOfFuel => OutOfFuel
  end.

Section Update.
Context `{P : IpPrefixOps}.

Inductive Prefix :=
| PfxV4 (n : Nlri FamV4)
| PfxV6 (n : Nlri FamV6).
#[export] Instance Prefix_eq_dec : EqDecision Prefix.
Proof. solve_decision. Defined.

Record MpReachNlri := mkMpReach {
  mpr_afi_safi : AfiSafi;
  mpr_next_hop : NextHop;
  mpr_prefixes : list Prefix;
}.
Record MpUnreachNlri := mkMpUnreach {
  mpu_afi_safi : AfiSafi;
  mpu_prefixes : list Prefix;
}.
#[export] Instance MpReachNlri_eq_dec : EqDecision MpReachNlri.
Proof. solve_decision. Defined.
#[export] Instance MpUnreachNlri_eq_dec : EqDecision MpUnreachNlri.
Proof. solve_decision. Defined.

Inductive PathAttribute :=
| PaOrigin (o : Origin)
| PaAsPath (p : AsPath)
| PaNextHop (a : Z)
| PaMed (v : Z)
| PaLocalPref (v : Z)
| PaAtomicAggregate
| PaAggregator (a : Aggregator)
| PaCommunities (cs : list Z)
| PaOriginatorId (a : Z)
| PaClusterList (ids : list Z)
| PaMpReachNlri (m : MpReachNlri)
| PaMpUnreachNlri (m : MpUnreachNlri)
| PaExtendedCommunities (ecs : list (list Z))
| PaAs4Path (p : AsPath)
| PaAs4Aggregator (asn bgp_id : Z)
| PaLargeCommunities (lcs : list LargeCommunity)
| PaOnlyToCustomer (asn : Z)
| PaUnknown (flags tc : Z) (value : list Z).
#[export] Instance PathAttribute_eq_dec : EqDecision PathAttribute.
Proof. solve_decision. Defined.

Definition type_code (a : PathAttribute) : Z :=
  match a with
  | PaOrigin _ => ATTR_ORIGIN
  | PaAsPath _ => ATTR_AS_PATH
  | PaNextHop _ => ATTR_NEXT_HOP
  | PaMed _ => ATTR_MED
  | PaLocalPref _ => ATTR_LOCAL_PREF
  | PaAtomicAggregate => ATTR_ATOMIC_AGGREGATE
  | PaAggregator _ => ATTR_AGGREGATOR
  | PaCommunities _ => ATTR_COMMUNITY
  | PaOriginatorId _ => ATTR_ORIGINATOR_ID
  | PaClusterList _ => ATTR_CLUSTER_LIST
  | PaMpReachNlri _ => ATTR_MP_REACH_NLRI
  | PaMpUnreachNlri _ => ATTR_MP_UNREACH_NLRI
  | PaExtendedCommunities _ => ATTR_EXTENDED_COMMUNITIES
  | PaAs4Path _ => ATTR_AS4_PATH
  | PaAs4Aggregator _ _ => ATTR_AS4_AGGREGATOR
  | PaLargeCommunities _ => ATTR_LARGE_COMMUNITY
  | PaOnlyToCustomer _ => ATTR_ONLY_TO_CUSTOMER
  | PaUnknown _ tc _ => tc
  end.

Record UpdateMessage := mkUpdate {
  withdrawn : list (Nlri FamV4);
  attributes : list PathAttribute;
  announced : list (Nlri FamV4);
}.
#[export] Instance UpdateMessage_eq_dec : EqDecision UpdateMessage.
Proof. solve_decision. Defined.

Inductive UpdateDecodeOutcome :=
| Clean (u : UpdateMessage)
| Partial (update : UpdateMessage) (errors : list AttributeDecodeError)
          (treat_as_withdraw session_reset : bool).

(** ** NLRI *)

(** Octets of an address of the family; [decode_nlri_v4]/[decode_nlri_v6] and
    their encoders differ only in the address width. *)
Definition addr_bytes (f : Family) : nat := match f with FamV4 => 4 | FamV6 => 16 end.
Definition nlri_byte_count (prefix_len : Z) : nat := Z.to_nat (div_ceil prefix_len 8).

Definition decode_nlri (f : Family) : Dec CodecError (Nlri f) :=
  prefix_len ← read_u8;
  if width f <? prefix_len then dec_err (InvalidNlri prefix_len)
  else
    let byte_count := nlri_byte_count prefix_len in
    addr_bs ← read_bytes byte_count;
    let octets := addr_bs ++ replicate (addr_bytes f - byte_count) 0 in
    match nlri_new f (from_be octets) prefix_len with
    | Some n => mret (nlri_masked n)
    | None => dec_err (InvalidNlri prefix_len)
    end.
Definition decode_nlri_v4 : Dec CodecError (Nlri FamV4) := decode_nlri FamV4.
Definition decode_nlri_v6 : Dec CodecError (Nlri FamV6) := decode_nlri FamV6.

Definition decode_nlri_list (f : Family) : Dec CodecError (list (Nlri f)) :=
  while_dec more (fun out => n ← decode_nlri f; mret (out ++ [n])) [].
Definition decode_nlri_list_v4 : Dec CodecError (list (Nlri FamV4)) := decode_nlri_list FamV4.
Definition decode_nlri_list_v6 : Dec CodecError (list (Nlri FamV6)) := decode_nlri_list FamV6.

Definition encode_nlri {f} (n : Nlri f) : list Z :=
  [prefix_len n]
  ++ take (nlri_byte_count (prefix_len n)) (be_bytes (addr_bytes f) (nlri_ip n)).
Definition encode_nlri_v4 (n : Nlri FamV4) : list Z := encode_nlri n.
Definition encode_nlri_v6 (n : Nlri FamV6) : list Z := encode_nlri n.
Definition encode_nlri_list {f} (l : list (Nlri f)) : list Z := concat (map encode_nlri l).
Definition encode_nlri_list_v4 (l : list (Nlri FamV4)) : list Z := encode_nlri_list l.
Definition nlri_encoded_len (n : Nlri FamV4) : nat := 1 + nlri_byte_count (prefix_len n).
Definition nlri_v6_encoded_len (n : Nlri FamV6) : nat := 1 + nlri_byte_count (prefix_len n).

(** ** Attribute values *)

(** [for _ in 0..count { .. }] of [decode_as_path_segments]. *)
Fixpoint decode_asns (count : nat) (asns : list Z) : Dec CodecError (list Z) :=
  match count with
  | O => mret asns
  | S count' =>
      n ← dec_remaining;
      if (n <? 4)%nat
      then dec_err (InvalidAttribute ATTR_AS_PATH "truncated ASN in AS_PATH segment")
      else asn ← read_u32; decode_asns count' (asns ++ [asn])
  end.
Definition decode_segment (segments : list AsPathSegment)
    : Dec CodecError (list AsPathSegment) :=
  seg_type ← read_u8;
  count ← read_u8;
  asns ← decode_asns (Z.to_nat count) [];
  match seg_type with
  | 1 => mret (segments ++ [Set_ asns])
  | 2 => mret (segments ++ [Sequence asns])
  | 3 => mret (segments ++ [ConfedSequence asns])
  | 4 => mret (segments ++ [ConfedSet asns])
  | _ => dec_err (UnknownAsPathSegmentType seg_type)
  end.
Definition decode_as_path_segments : Dec CodecError (list AsPathSegment) :=
  while_dec more decode_segment [].

Definition decode_next_hop (afi : Z) (bs : list Z) : Outcome CodecError NextHop :=
  if (afi =? Afi.IPV4) && (length bs =? 4)%nat then Ok (NhV4 (from_be bs))
  else if (afi =? Afi.IPV6) && (length bs =? 16)%nat then Ok (NhV6 (from_be bs))
  else if (afi =? Afi.IPV6) && (length bs =? 32)%nat then
    Ok (NhV6WithLinkLocal (from_be (take 16 bs)) (from_be (drop 16 bs)))
  else Err (InvalidAttribute ATTR_MP_REACH_NLRI "unexpected next-hop length for AFI").

Definition decode_mp_nlri (afi : Z) : Dec CodecError (list Prefix) :=
  if afi =? Afi.IPV4 then l ← decode_nlri_list_v4; mret (map PfxV4 l)
  else if afi =? Afi.IPV6 then l ← decode_nlri_list_v6; mret (map PfxV6 l)
  else _raw ← read_remaining; mret [].

(** [while cur.remaining() > 0 { out.push(read(cur)?) }] *)
Definition decode_items {A} (item : Dec CodecError A) : Dec CodecError (list A) :=
  while_dec more (fun out => x ← item; mret (out ++ [x])) [].

Definition read_large_community : Dec CodecError LargeCommunity :=
  ga ← read_u32; ld1 ← read_u32; ld2 ← read_u32; mret (mkLargeCommunity ga ld1 ld2).
(** [bytes.try_into().expect("read exactly 8 bytes")] *)
Definition read_extended_community : Dec CodecError (list Z) :=
  bs ← read_bytes 8; if (length bs =? 8)%nat then mret bs else dec_panic.

(** [if cur.remaining() != n { return Err(InvalidAttribute ..) }] *)
Definition expect_len {A} (type_code : Z) (n : nat) (detail : string) (k : Dec CodecError A)
    : Dec CodecError A :=
  r ← dec_remaining;
  if (r =? n)%nat then k else dec_err (InvalidAttribute type_code detail).
Definition expect_multiple {A} (type_code : Z) (n : nat) (detail : string)
    (k : Dec CodecError A) : Dec CodecError A :=
  r ← dec_remaining;
  if (r mod n =? 0)%nat then k else dec_err (InvalidAttribute type_code detail).
Definition expect_min {A} (type_code : Z) (n : nat) (detail : string)
    (k : Dec CodecError A) : Dec CodecError A :=
  r ← dec_remaining;
  if (r <? n)%nat then dec_err (InvalidAttribute type_code detail) else k.

Definition decode_mp_reach (tc : Z) : Dec CodecError PathAttribute :=
  expect_min tc 4 "MP_REACH_NLRI too short" (
    afi ← read_u16;
    safi ← read_u8;
    nh_len ← read_u8;
    nh_bytes ← read_bytes (Z.to_nat nh_len);
    next_hop ← dec_lift (decode_next_hop afi nh_bytes);
    _snpa ← read_u8;
    prefixes ← decode_mp_nlri afi;
    mret (PaMpReachNlri (mkMpReach (mkAfiSafi afi safi) next_hop prefixes))).
Definition decode_mp_unreach (tc : Z) : Dec CodecError PathAttribute :=
  expect_min tc 3 "MP_UNREACH_NLRI too short" (
    afi ← read_u16;
    safi ← read_u8;
    prefixes ← decode_mp_nlri afi;
    mret (PaMpUnreachNlri (mkMpUnreach (mkAfiSafi afi safi) prefixes))).
Definition decode_aggregator (tc : Z) (four_byte_asn : bool) : Dec CodecError PathAttribute :=
  if four_byte_asn then
    expect_len tc 8 "AGGREGATOR must be 8 bytes (4-byte ASN mode)" (
      asn ← read_u32; ip ← read_ipv4addr; mret (PaAggregator (mkAggregator asn ip)))
  else
    expect_len tc 6 "AGGREGATOR must be 6 bytes (2-byte ASN mode)" (
      asn ← read_u16; ip ← read_ipv4addr; mret (PaAggregator (mkAggregator asn ip))).

Definition decode_attr_value (flags tc : Z) (four_byte_asn : bool)
    : Dec CodecError PathAttribute :=
  match tc with
  | 1 => (* ORIGIN *)
      expect_len tc 1 "ORIGIN must be exactly 1 byte" (
        v ← read_u8;
        origin ← dec_lift (ok_or (OriginOps.from_u8 v) (InvalidOrigin v));
        mret (PaOrigin origin))
  | 2 => (* AS_PATH *)
      segments ← decode_as_path_segments; mret (PaAsPath segments)
  | 3 => (* NEXT_HOP *)
      expect_len tc 4 "NEXT_HOP must be exactly 4 bytes" (
        a ← read_ipv4addr; mret (PaNextHop a))
  | 4 => (* MED *)
      expect_len tc 4 "MED must be exactly 4 bytes" (v ← read_u32; mret (PaMed v))
  | 5 => (* LOCAL_PREF *)
      expect_len tc 4 "LOCAL_PREF must be exactly 4 bytes" (v ← read_u32; mret (PaLocalPref v))
  | 35 => (* ONLY_TO_CUSTOMER *)
      expect_len tc 4 "ONLY_TO_CUSTOMER must be exactly 4 bytes" (
        v ← read_u32; mret (PaOnlyToCustomer v))
  | 6 => (* ATOMIC_AGGREGATE *)
      expect_len tc 0 "ATOMIC_AGGREGATE must be exactly 0 bytes" (mret PaAtomicAggregate)
  | 7 => decode_aggregator tc four_byte_asn
  | 8 => (* COMMUNITY *)
      expect_multiple tc 4 "COMMUNITY length must be a multiple of 4" (
        cs ← decode_items read_u32; mret (PaCommunities cs))
  | 9 => (* ORIGINATOR_ID *)
      expect_len tc 4 "ORIGINATOR_ID must be exactly 4 bytes" (
        a ← read_ipv4addr; mret (PaOriginatorId a))
  | 10 => (* CLUSTER_LIST *)
      expect_multiple tc 4 "CLUSTER_LIST length must be a multiple of 4" (
        ids ← decode_items read_u32; mret (PaClusterList ids))
  | 14 => decode_mp_reach tc
  | 15 => decode_mp_unreach tc
  | 16 => (* EXTENDED_COMMUNITIES *)
      expect_multiple tc 8 "EXTENDED_COMMUNITIES length must be a multiple of 8" (
        ecs ← decode_items read_extended_community; mret (PaExtendedCommunities ecs))
  | 17 => (* AS4_PATH *)
      segments ← decode_as_path_segments; mret (PaAs4Path segments)
  | 18 => (* AS4_AGGREGATOR *)
      expect_len tc 8 "AS4_AGGREGATOR must be exactly 8 bytes" (
        asn ← read_u32; bgp_id ← read_ipv4addr; mret (PaAs4Aggregator asn bgp_id))
  | 32 => (* LARGE_COMMUNITY *)
      expect_multiple tc 12 "LARGE_COMMUNITY length must be a multiple of 12" (
        lcs ← decode_items read_large_community; mret (PaLargeCommunities lcs))
  | _ => value ← read_remaining; mret (PaUnknown flags tc value)
  end.

(** ** The attribute block *)
Definition AttrState : Type := list PathAttribute * list AttributeDecodeError * list bool.

Definition duplicate_policy (tc : Z) : AttributeErrorPolicy :=
  if (tc =? ATTR_MP_REACH_NLRI) || (tc =? ATTR_MP_UNREACH_NLRI)
  then SessionReset (NeUpdateMessage MalformedAttributeList) []
  else AttributeDiscard.

(** Data field of an Unrecognized Well-known Attribute notification. *)
Definition unrecognized_data (flags tc : Z) (n : nat) (value : list Z) : list Z :=
  [tc]
  ++ (if has_flag flags FLAG_EXT_LEN
      then u16_be (if Z.of_nat n <? 65536 then Z.of_nat n else 65535)
      else [as_u8 (Z.of_nat n)])
  ++ value.

(** The loop body of [decode_path_attributes] once the attribute's bytes are
    delimited: duplicate check, flag checks, value decode. *)
Definition handle_attr (four_byte_asn : bool) (st : AttrState) (flags tc n : Z) (val : Cursor)
    : Dec CodecError AttrState :=
  let '(attrs, errors, seen) := st in
  match seen !! Z.to_nat tc with
  | None => dec_panic
  | Some true =>
      mret (attrs, errors ++ [mkAttributeDecodeError tc (duplicate_policy tc)
                                "duplicate attribute type code"], seen)
  | Some false =>
      let seen := <[Z.to_nat tc := true]> seen in
      match expected_optional_transitive tc with
      | Some (expect_optional, expect_transitive) =>
          if negb (eqb (has_flag flags FLAG_OPTIONAL) expect_optional)
             || negb (eqb (has_flag flags FLAG_TRANSITIVE) expect_transitive)
          then mret (attrs, errors ++ [mkAttributeDecodeError tc TreatAsWithdraw
                   "attribute flags conflict (Optional or Transitive bit)"], seen)
          else
            r ← dec_try val (decode_attr_value flags tc four_byte_asn);
            match r with
            | inr attr => mret (attrs ++ [attr], errors, seen)
            | inl e => mret (attrs, errors ++ [mkAttributeDecodeError tc (rfc7606_policy tc)
                                                 (error_detail e)], seen)
            end
      | None =>
          if negb (has_flag flags FLAG_OPTIONAL) then
            value ← dec_on val read_remaining;
            mret (attrs, errors ++ [mkAttributeDecodeError tc
              (SessionReset (NeUpdateMessage UnrecognizedWellKnownAttribute)
                 (unrecognized_data flags tc (Z.to_nat n) value))
              "unrecognized well-known attribute (Optional bit not set)"], seen)
          else
            r ← dec_try val (decode_attr_value flags tc four_byte_asn);
            match r with
            | inr attr => mret (attrs ++ [attr], errors, seen)
            | inl e => mret (attrs, errors ++ [mkAttributeDecodeError tc (rfc7606_policy tc)
                                                 (error_detail e)], seen)
            end
      end
  end.

(** One iteration of the loop of [decode_path_attributes]. *)
Definition decode_one_attr (four_byte_asn : bool) (st : AttrState) : Dec CodecError AttrState :=
  flags ← read_u8;
  tc ← read_u8;
  n ← (if has_flag flags FLAG_EXT_LEN then read_u16 else read_u8);
  val ← fork (Z.to_nat n);
  handle_attr four_byte_asn st flags tc n val.

Definition decode_path_attributes (four_byte_asn : bool)
    : Dec CodecError (list PathAttribute * list AttributeDecodeError) :=
  st ← while_dec more (decode_one_attr four_byte_asn) ([], [], replicate 256 false);
  let '(attrs, errors, _) := st in mret (attrs, errors).

Definition is_session_reset (p : AttributeErrorPolicy) : bool :=
  match p with SessionReset _ _ => true | _ => false end.

Definition update_decode (four_byte_asn : bool) : Dec CodecError UpdateDecodeOutcome :=
  withdrawn_len ← read_u16;
  wd_cur ← fork (Z.to_nat withdrawn_len);
  withdrawn ← dec_on wd_cur decode_nlri_list_v4;
  attrs_len ← read_u16;
  attrs_cur ← fork (Z.to_nat attrs_len);
  '(attributes, attr_errors) ← dec_on attrs_cur (decode_path_attributes four_byte_asn);
  announced ← decode_nlri_list_v4;
  let update := mkUpdate withdrawn attributes announced in
  match attr_errors with
  | [] => mret (Clean update)
  | _ =>
      mret (Partial update attr_errors
        (existsb (fun e => bool_decide (ade_policy e = TreatAsWithdraw)) attr_errors)
        (existsb (fun e => is_session_reset (ade_policy e)) attr_errors))
  end.

(** ** Encoding *)
Definition encode_segment (seg : AsPathSegment) : list Z :=
  let '(seg_type, asns) :=
    match seg with
    | Set_ a => (SEG_SET, a)
    | Sequence a => (SEG_SEQUENCE, a)
    | ConfedSequence a => (SEG_CONFED_SEQUENCE, a)
    | ConfedSet a => (SEG_CONFED_SET, a)
    end in
  [seg_type] ++ [as_u8 (len asns)] ++ concat (map u32_be asns).
Definition encode_as_path_segments (p : AsPath) : list Z := concat (map encode_segment p).

Definition encode_next_hop (nh : NextHop) : list Z :=
  match nh with
  | NhV4 ip => u32_be ip
  | NhV6 ip => u128_be ip
  | NhV6WithLinkLocal global link_local => u128_be global ++ u128_be link_local
  end.

Definition encode_prefix (p : Prefix) : list Z :=
  match p with PfxV4 n => encode_nlri_v4 n | PfxV6 n => encode_nlri_v6 n end.

Definition encode_attr_value (attr : PathAttribute) : Z * Z * list Z :=
  match attr with
  | PaOrigin origin => (FLAGS_WKM, ATTR_ORIGIN, [OriginOps.as_u8 origin])
  | PaAsPath path => (FLAGS_WKM, ATTR_AS_PATH, encode_as_path_segments path)
  | PaNextHop ip => (FLAGS_WKM, ATTR_NEXT_HOP, u32_be ip)
  | PaMed med => (FLAGS_ONT, ATTR_MED, u32_be med)
  | PaLocalPref lp => (FLAGS_WKM, ATTR_LOCAL_PREF, u32_be lp)
  | PaOnlyToCustomer asn => (FLAGS_OT, ATTR_ONLY_TO_CUSTOMER, u32_be asn)
  | PaAtomicAggregate => (FLAGS_WKM, ATTR_ATOMIC_AGGREGATE, [])
  | PaAggregator agg => (FLAGS_OT, ATTR_AGGREGATOR, u32_be (agg_asn agg) ++ u32_be (agg_ip agg))
  | PaCommunities cs => (FLAGS_OT, ATTR_COMMUNITY, concat (map u32_be cs))
  | PaOriginatorId id => (FLAGS_ONT, ATTR_ORIGINATOR_ID, u32_be id)
  | PaClusterList ids => (FLAGS_ONT, ATTR_CLUSTER_LIST, concat (map u32_be ids))
  | PaMpReachNlri mp =>
      let nh_bytes := encode_next_hop (mpr_next_hop mp) in
      (FLAGS_ONT, ATTR_MP_REACH_NLRI,
       u16_be (afi (mpr_afi_safi mp)) ++ [safi (mpr_afi_safi mp)]
       ++ [as_u8 (len nh_bytes)] ++ nh_bytes ++ [0]
       ++ concat (map encode_prefix (mpr_prefixes mp)))
  | PaMpUnreachNlri mp =>
      (FLAGS_ONT, ATTR_MP_UNREACH_NLRI,
       u16_be (afi (mpu_afi_safi mp)) ++ [safi (mpu_afi_safi mp)]
       ++ concat (map encode_prefix (mpu_prefixes mp)))
  | PaExtendedCommunities ecs => (FLAGS_OT, ATTR_EXTENDED_COMMUNITIES, concat ecs)
  | PaAs4Path path => (FLAGS_OT, ATTR_AS4_PATH, encode_as_path_segments path)
  | PaAs4Aggregator asn bgp_id => (FLAGS_OT, ATTR_AS4_AGGREGATOR, u32_be asn ++ u32_be bgp_id)
  | PaLargeCommunities lcs =>
      (FLAGS_OT, ATTR_LARGE_COMMUNITY, concat (map LargeCommunityOps.to_bytes lcs))
  | PaUnknown flags tc value =>
      let flags := if has_flag flags FLAG_OPTIONAL && has_flag flags FLAG_TRANSITIVE
                   then Z.lor flags FLAG_PARTIAL else flags in
      (flags, tc, value)
  end.

Definition encode_one_path_attr (attr : PathAttribute) : list Z :=
  let '(flags, tc, value) := encode_attr_value attr in
  let ext_len := 255 <? len value in
  let flags := if ext_len then Z.lor flags FLAG_EXT_LEN else flags in
  [flags] ++ [tc]
  ++ (if ext_len then u16_be (as_u16 (len value)) else [as_u8 (len value)])
  ++ value.
Definition encode_path_attributes (attrs : list PathAttribute) : list Z :=
  concat (map encode_one_path_attr attrs).
Definition encode_attributes (attrs : list PathAttribute) : list Z :=
  encode_path_attributes attrs.

Definition update_encode_body (u : UpdateMessage) : list Z :=
  let withdrawn_bytes := encode_nlri_list_v4 (withdrawn u) in
  let attrs_bytes := encode_path_attributes (attributes u) in
  let announced_bytes := encode_nlri_list_v4 (announced u) in
  u16_be (as_u16 (len withdrawn_bytes)) ++ withdrawn_bytes
  ++ u16_be (as_u16 (len attrs_bytes)) ++ attrs_bytes
  ++ announced_bytes.
Definition update_encode (u : UpdateMessage) : list Z :=
  encode_framed MtUpdate (update_encode_body u).

End Update.
