(* ===== verification/UpdateFacts.v ===== *)
(** Facts on the UPDATE codec: decoding never panics or diverges and produces
    well-formed values ([dwp_*]); what is encoded is read back ([Decodes_*]). *)
From Stdlib Require Import ZArith Lia Bool.
From stdpp Require Import base tactics numbers decidable strings list.
From S2P Require Import Prelude Addr Types AsPath Wire Header Notification Update.
Open Scope Z_scope.

Section UpdateWf.
Context `{P : IpPrefixOps}.

(** Every type code the decoder has a typed attribute for. *)
Definition known_type_codes : list Z :=
  [1; 2; 3; 4; 5; 6; 7; 8; 9; 10; 14; 15; 16; 17; 18; 32; 35].

(** The prefixes of an MP attribute belong to its AFI. *)
Definition prefixes_ok (afi : Z) (l : list Prefix) : Prop :=
  (afi = Afi.IPV4 /\ exists ns, l = map PfxV4 ns /\ Forall canonical ns)
  \/ (afi = Afi.IPV6 /\ exists ns, l = map PfxV6 ns /\ Forall canonical ns)
  \/ (afi <> Afi.IPV4 /\ afi <> Afi.IPV6 /\ l = []).

Definition next_hop_ok (afi : Z) (nh : NextHop) : Prop :=
  NextHopOps.wf nh /\
  match nh with
  | NhV4 _ => afi = Afi.IPV4
  | NhV6 _ | NhV6WithLinkLocal _ _ => afi = Afi.IPV6
  end.

(** Well-formed attributes: every field at its machine width, prefixes in
    canonical form, unknown attributes really unknown and optional. *)
Definition pa_ok (a : PathAttribute) : Prop :=
  match a with
  | PaOrigin _ | PaAtomicAggregate => True
  | PaAsPath p | PaAs4Path p => Path.wf p
  | PaNextHop v | PaMed v | PaLocalPref v | PaOriginatorId v | PaOnlyToCustomer v => is_u32 v
  | PaAggregator g => is_u32 (agg_asn g) /\ is_u32 (agg_ip g)
  | PaCommunities l | PaClusterList l => Forall is_u32 l
  | PaMpReachNlri m =>
      AfiSafi_wf (mpr_afi_safi m) /\ next_hop_ok (afi (mpr_afi_safi m)) (mpr_next_hop m)
      /\ prefixes_ok (afi (mpr_afi_safi m)) (mpr_prefixes m)
  | PaMpUnreachNlri m =>
      AfiSafi_wf (mpu_afi_safi m) /\ prefixes_ok (afi (mpu_afi_safi m)) (mpu_prefixes m)
  | PaExtendedCommunities l => Forall ExtendedCommunity.wf l
  | PaAs4Aggregator a b => is_u32 a /\ is_u32 b
  | PaLargeCommunities l => Forall LargeCommunityOps.wf l
  | PaUnknown flags tc value =>
      is_u8 flags /\ is_u8 tc /\ tc ∉ known_type_codes /\ has_flag flags FLAG_OPTIONAL = true
      /\ bytes value
  end.

Definition update_ok (u : UpdateMessage) : Prop :=
  Forall canonical (withdrawn u) /\ Forall canonical (announced u)
  /\ Forall pa_ok (attributes u) /\ NoDup (map type_code (attributes u)).

End UpdateWf.

(** ** NLRI arithmetic *)
Lemma byte_count_le f p : 0 <= p <= width f -> (nlri_byte_count p <= addr_bytes f)%nat.
Proof.
  unfold nlri_byte_count, div_ceil. intros Hp.
  assert ((p + 8 - 1) / 8 <= Z.of_nat (addr_bytes f)) as Hle;
    [|generalize dependent ((p + 8 - 1) / 8); intros; lia].
  apply Z.lt_succ_r, Z.div_lt_upper_bound; [lia|]. destruct f; simpl in *; lia.
Qed.

Lemma byte_count_bits f p : 0 <= p <= width f ->
  8 * Z.of_nat (addr_bytes f - nlri_byte_count p) <= width f - p.
Proof.
  intros Hp. pose proof (byte_count_le f p Hp) as Hle. unfold nlri_byte_count, div_ceil in *.
  pose proof (Z.mod_pos_bound (p + 8 - 1) 8 ltac:(lia)).
  pose proof (Z.div_mod (p + 8 - 1) 8 ltac:(lia)).
  assert (0 <= (p + 8 - 1) / 8) by (apply Z.div_pos; lia).
  rewrite Nat2Z.inj_sub by done. rewrite Z2Nat.id by done.
  destruct f; simpl in *; lia.
Qed.

Lemma pow_addr_bytes f : 256 ^ Z.of_nat (addr_bytes f) = 2 ^ width f.
Proof. by destruct f. Qed.

(** Dropping the trailing zero octets of a masked address loses nothing. *)
Lemma nlri_octets f a p : addr_ok f a -> 0 <= p <= width f -> mask_addr f a p = a ->
  take (nlri_byte_count p) (be_bytes (addr_bytes f) a)
    ++ replicate (addr_bytes f - nlri_byte_count p) 0 = be_bytes (addr_bytes f) a.
Proof.
  intros Ha Hp Hm. pose proof (byte_count_le f p Hp) as Hle.
  pose proof (byte_count_bits f p Hp) as Hbits.
  set (k := nlri_byte_count p) in *. set (m := (addr_bytes f - k)%nat) in *.
  replace (addr_bytes f) with (k + m)%nat by lia.
  rewrite be_bytes_split, take_app_length' by (by rewrite be_bytes_length).
  f_equal. rewrite <- (be_bytes_mod m a).
  replace (a mod 256 ^ Z.of_nat m) with 0; [by rewrite be_bytes_zero|].
  symmetry. apply Z.mod_divide; [pose proof (Z.pow_pos_nonneg 256 (Z.of_nat m)); lia|].
  rewrite <- Hm. eapply Z.divide_trans; [|apply mask_addr_divides].
  change 256 with (2 ^ 8). rewrite <- Z.pow_mul_r by lia.
  replace (width f - p) with (8 * Z.of_nat m + (width f - p - 8 * Z.of_nat m)) by lia.
  rewrite Z.pow_add_r by lia. eexists. apply Z.mul_comm.
Qed.

Lemma from_be_addr f a : addr_ok f a -> from_be (be_bytes (addr_bytes f) a) = a.
Proof.
  unfold addr_ok. intros. rewrite from_be_be_bytes, pow_addr_bytes. by apply Z.mod_small.
Qed.

(** ** Safety of the decoders *)
Section Safety.
Context `{P : IpPrefixOps} {L : IpPrefixLaws}.

Lemma dwp_nlri f c Q : cwf c ->
  (forall n c', cwf c' -> canonical n -> (remaining c' < remaining c)%nat -> Q n c') ->
  dwp (decode_nlri f) c Q.
Proof.
  intros Hc HQ. apply dwp_bind, dwp_read_u8; [done|]. intros p c1 Hc1 Hr1 Hp.
  destruct (width f <? p); [done|]. apply dwp_bind, dwp_read_bytes; [done|].
  intros b c2 Hc2 Hr2 Hl Hb. cbv zeta. destruct (nlri_new _ _ _) as [n|]; [|done].
  apply dwp_ret, HQ; [done|apply canonical_masked|].
  rewrite !remaining_rest, Hr1, Hr2. simpl. rewrite length_app. lia.
Qed.

(** A loop that pushes one decoded item per iteration. *)
Lemma dwp_push_loop {A} (R : A -> Prop) (item : Dec CodecError A) c Q : cwf c ->
  (forall c Q, cwf c -> more c = true ->
     (forall x c', cwf c' -> R x -> (remaining c' < remaining c)%nat -> Q x c') ->
     dwp item c Q) ->
  (forall l c', cwf c' -> Forall R l -> Q l c') ->
  dwp (while_dec more (fun out => x ← item; mret (out ++ [x])) []) c Q.
Proof.
  intros Hc Hitem HQ. apply dwp_while with (I := fun l c' => cwf c' /\ Forall R l).
  - by split.
  - intros l c0 [Hc0 Hl] Hmore. apply dwp_bind, Hitem; [done|done|]. intros x c1 Hc1 Hx Hlt.
    apply dwp_ret. split_and!; [done|by flist|done].
  - intros l c0 [Hc0 Hl] _. by apply HQ.
Qed.

Lemma dwp_nlri_list f c Q : cwf c ->
  (forall l c', cwf c' -> Forall canonical l -> Q l c') -> dwp (decode_nlri_list f) c Q.
Proof.
  intros Hc HQ. apply (dwp_push_loop canonical (decode_nlri f)); [done| |done].
  intros c0 Q0 Hc0 _ HQ0. by apply dwp_nlri.
Qed.

Lemma dwp_items_u32 c Q : cwf c ->
  (forall l c', cwf c' -> Forall is_u32 l -> Q l c') -> dwp (decode_items read_u32) c Q.
Proof.
  intros Hc HQ. apply (dwp_push_loop is_u32 read_u32); [done| |done].
  intros c0 Q0 Hc0 _ HQ0. apply dwp_read_u32; [done|]. intros v c1 Hc1 Hr Hv.
  apply HQ0; [done|done|]. rewrite !remaining_rest, Hr. autorewrite with pv_len. lia.
Qed.

Lemma dwp_large_community c Q : cwf c ->
  (forall x c', cwf c' -> LargeCommunityOps.wf x -> (remaining c' < remaining c)%nat -> Q x c') ->
  dwp read_large_community c Q.
Proof.
  intros Hc HQ. apply dwp_bind, dwp_read_u32; [done|]. intros v1 c1 Hc1 Hr1 Hv1.
  apply dwp_bind, dwp_read_u32; [done|]. intros v2 c2 Hc2 Hr2 Hv2.
  apply dwp_bind, dwp_read_u32; [done|]. intros v3 c3 Hc3 Hr3 Hv3.
  apply dwp_ret, HQ; [done|by split_and!|].
  rewrite !remaining_rest, Hr1, Hr2, Hr3. autorewrite with pv_len. lia.
Qed.

Lemma dwp_extended_community c Q : cwf c ->
  (forall x c', cwf c' -> ExtendedCommunity.wf x -> (remaining c' < remaining c)%nat -> Q x c') ->
  dwp read_extended_community c Q.
Proof.
  intros Hc HQ. apply dwp_bind, dwp_read_bytes; [done|]. intros b c1 Hc1 Hr1 Hl Hb.
  rewrite Hl. apply dwp_ret, HQ; [done|by split|].
  rewrite !remaining_rest, Hr1, length_app. lia.
Qed.

Lemma dwp_asns n acc c Q : cwf c -> Forall is_u32 acc ->
  (forall l c', cwf c' -> Forall is_u32 l -> length l = (length acc + n)%nat ->
     (remaining c' <= remaining c)%nat -> Q l c') ->
  dwp (decode_asns n acc) c Q.
Proof.
  revert acc c. induction n as [|n IH]; intros acc c Hc Hacc HQ; cbn [decode_asns].
  - apply dwp_ret, HQ; [done|done|lia|lia].
  - apply dwp_bind, dwp_remaining. destruct (Nat.ltb_spec (remaining c) 4); [done|].
    apply dwp_bind, dwp_read_u32; [done|]. intros v c1 Hc1 Hr1 Hv.
    apply IH; [done|by flist|]. intros l c' Hc' Hl Hlen Hrem.
    apply HQ; [done|done| |].
    + rewrite Hlen, length_app. simpl. lia.
    + rewrite !remaining_rest in *. rewrite Hr1, length_app. lia.
Qed.

Lemma dwp_segment segs c Q : cwf c -> Path.wf segs ->
  (forall l c', cwf c' -> Path.wf l -> (remaining c' < remaining c)%nat -> Q l c') ->
  dwp (decode_segment segs) c Q.
Proof.
  intros Hc Hs HQ. apply dwp_bind, dwp_read_u8; [done|]. intros t c1 Hc1 Hr1 Ht.
  apply dwp_bind, dwp_read_u8; [done|]. intros n c2 Hc2 Hr2 Hn.
  apply dwp_bind, dwp_asns; [done|constructor|]. intros asns c3 Hc3 Hasn Hlen Hrem.
  assert (HQ' : forall s, Seg.asns s = asns -> Q (segs ++ [s]) c3).
  { intros s Hs'. apply HQ; [done| |].
    - apply Forall_app_2; [done|]. constructor; [|constructor]. split; rewrite Hs'; [|done].
      rewrite Hlen. simpl. blia.
    - rewrite !remaining_rest in *. rewrite Hr1, Hr2. simpl. lia. }
  repeat case_match; first [by apply dwp_ret, HQ'|done].
Qed.

Lemma dwp_as_path c Q : cwf c ->
  (forall l c', cwf c' -> Path.wf l -> Q l c') -> dwp decode_as_path_segments c Q.
Proof.
  intros Hc HQ. apply dwp_while with (I := fun l c' => cwf c' /\ Path.wf l).
  - split; [done|constructor].
  - intros l c0 [Hc0 Hl] _. by apply dwp_segment.
  - intros l c0 [Hc0 Hl] _. by apply HQ.
Qed.

Lemma dwp_mp_nlri afi c Q : cwf c ->
  (forall l c', cwf c' -> prefixes_ok afi l -> Q l c') -> dwp (decode_mp_nlri afi) c Q.
Proof.
  intros Hc HQ. unfold decode_mp_nlri. destruct (afi =? Afi.IPV4) eqn:E4; zbool.
  { apply dwp_bind, dwp_nlri_list; [done|]. intros l c1 Hc1 Hl.
    apply dwp_ret, HQ; [done|]. left. eauto. }
  destruct (afi =? Afi.IPV6) eqn:E6; zbool.
  { apply dwp_bind, dwp_nlri_list; [done|]. intros l c1 Hc1 Hl.
    apply dwp_ret, HQ; [done|]. right. left. eauto. }
  apply dwp_bind, dwp_read_remaining; [done|]. intros b c1 Hc1 _ _ _.
  apply dwp_ret, HQ; [done|]. by right; right.
Qed.

Lemma from_be_width l n : bytes l -> length l = n -> 0 <= from_be l < 256 ^ Z.of_nat n.
Proof. intros Hb <-. by apply from_be_bound. Qed.

Lemma decode_next_hop_ok afi b : bytes b ->
  match decode_next_hop afi b with
  | Ok nh => next_hop_ok afi nh
  | Err _ => True
  | _ => False
  end.
Proof.
  intros Hb. unfold decode_next_hop.
  destruct ((afi =? Afi.IPV4) && _)%bool eqn:E1.
  { apply andb_true_iff in E1 as [->%Z.eqb_eq Hl%Nat.eqb_eq]. split; [|done]. by apply (from_be_width b 4). }
  destruct ((afi =? Afi.IPV6) && (_ =? 16)%nat)%bool eqn:E2.
  { apply andb_true_iff in E2 as [->%Z.eqb_eq Hl%Nat.eqb_eq]. split; [|done]. by apply (from_be_width b 16). }
  destruct ((afi =? Afi.IPV6) && (_ =? 32)%nat)%bool eqn:E3; [|done].
  apply andb_true_iff in E3 as [->%Z.eqb_eq Hl%Nat.eqb_eq]. split; [|done]. split.
  - apply (from_be_width (take 16 b) 16); [by apply Forall_take|rewrite length_take; lia].
  - apply (from_be_width (drop 16 b) 16); [by apply Forall_drop|rewrite length_drop; lia].
Qed.

Lemma dwp_mp_reach tc c Q : cwf c ->
  (forall a c', pa_ok a -> type_code a = ATTR_MP_REACH_NLRI -> Q a c') ->
  dwp (decode_mp_reach tc) c Q.
Proof.
  intros Hc HQ. apply dwp_bind, dwp_remaining. destruct (_ <? _)%nat; [done|].
  apply dwp_bind, dwp_read_u16; [done|]. intros a c1 Hc1 _ Ha.
  apply dwp_bind, dwp_read_u8; [done|]. intros s c2 Hc2 _ Hs.
  apply dwp_bind, dwp_read_u8; [done|]. intros n c3 Hc3 _ Hn.
  apply dwp_bind, dwp_read_bytes; [done|]. intros b c4 Hc4 _ _ Hb.
  apply dwp_bind, dwp_lift. pose proof (decode_next_hop_ok a b Hb) as Hnh.
  destruct (decode_next_hop a b) as [nh| | |]; try done.
  apply dwp_bind, dwp_read_u8; [done|]. intros r c5 Hc5 _ _.
  apply dwp_bind, dwp_mp_nlri; [done|]. intros l c6 Hc6 Hl.
  apply dwp_ret, HQ; [|done]. by split_and!.
Qed.

Lemma dwp_mp_unreach tc c Q : cwf c ->
  (forall a c', pa_ok a -> type_code a = ATTR_MP_UNREACH_NLRI -> Q a c') ->
  dwp (decode_mp_unreach tc) c Q.
Proof.
  intros Hc HQ. apply dwp_bind, dwp_remaining. destruct (_ <? _)%nat; [done|].
  apply dwp_bind, dwp_read_u16; [done|]. intros a c1 Hc1 _ Ha.
  apply dwp_bind, dwp_read_u8; [done|]. intros s c2 Hc2 _ Hs.
  apply dwp_bind, dwp_mp_nlri; [done|]. intros l c3 Hc3 Hl.
  apply dwp_ret, HQ; [|done]. by split_and!.
Qed.

Lemma dwp_aggregator tc four c Q : cwf c ->
  (forall a c', pa_ok a -> type_code a = ATTR_AGGREGATOR -> Q a c') ->
  dwp (decode_aggregator tc four) c Q.
Proof.
  intros Hc HQ. unfold decode_aggregator, expect_len.
  destruct four; apply dwp_bind, dwp_remaining; (destruct (_ =? _)%nat; [|done]).
  - apply dwp_bind, dwp_read_u32; [done|]. intros a c1 Hc1 _ Ha.
    apply dwp_bind, dwp_read_ipv4addr; [done|]. intros i c2 Hc2 _ Hi.
    apply dwp_ret, HQ; [|done]. by split.
  - apply dwp_bind, dwp_read_u16; [done|]. intros a c1 Hc1 _ Ha.
    apply dwp_bind, dwp_read_ipv4addr; [done|]. intros i c2 Hc2 _ Hi.
    apply dwp_ret, HQ; [|done]. split; simpl; [blia|done].
Qed.

Lemma dwp_expect_len {A} tc n d (k : Dec CodecError A) c Q :
  dwp k c Q -> dwp (expect_len tc n d k) c Q.
Proof. intros H. apply dwp_bind, dwp_remaining. by destruct (_ =? _)%nat. Qed.
Lemma dwp_expect_multiple {A} tc n d (k : Dec CodecError A) c Q :
  dwp k c Q -> dwp (expect_multiple tc n d k) c Q.
Proof. intros H. apply dwp_bind, dwp_remaining. by destruct (_ =? _)%nat. Qed.

Lemma decode_attr_value_unknown flags tc four : tc ∉ known_type_codes ->
  decode_attr_value flags tc four = (value ← read_remaining; mret (PaUnknown flags tc value)).
Proof.
  intros H. unfold decode_attr_value.
  repeat (case_match; try done); exfalso; apply H; unfold known_type_codes;
    rewrite !elem_of_cons; auto 20.
Qed.

Lemma expected_none_unknown tc : expected_optional_transitive tc = None <-> tc ∉ known_type_codes.
Proof.
  split.
  - intros H Hin. unfold known_type_codes in Hin. rewrite !elem_of_cons, elem_of_nil in Hin.
    by destruct_or?; subst tc.
  - intros H. unfold expected_optional_transitive.
    repeat (case_match; try done); exfalso; apply H; unfold known_type_codes;
      rewrite !elem_of_cons; auto 20.
Qed.

(** A successful attribute value has the type code of its TLV. *)
Lemma dwp_attr_value flags tc four c Q : cwf c -> is_u8 flags -> is_u8 tc ->
  (tc ∉ known_type_codes -> has_flag flags FLAG_OPTIONAL = true) ->
  (forall a c', pa_ok a -> type_code a = tc -> Q a c') ->
  dwp (decode_attr_value flags tc four) c Q.
Proof.
  intros Hc Hf Htc Hopt HQ. destruct (decide (tc ∈ known_type_codes)) as [Hin|Hn].
  2:{ rewrite decode_attr_value_unknown by done. apply dwp_bind, dwp_read_remaining; [done|].
      intros b c1 Hc1 _ _ Hb. apply dwp_ret, HQ; [|done]. split_and!; auto. }
  unfold known_type_codes in Hin. rewrite !elem_of_cons, elem_of_nil in Hin.
  destruct_or? Hin; subst tc; cbn [decode_attr_value]; clear Hopt.
  - apply dwp_expect_len, dwp_bind, dwp_read_u8; [done|]. intros v c1 Hc1 _ Hv.
    apply dwp_bind, dwp_lift. destruct (OriginOps.from_u8 v); [|done]. by apply dwp_ret, HQ.
  - apply dwp_bind, dwp_as_path; [done|]. intros l c1 Hc1 Hl. by apply dwp_ret, HQ.
  - apply dwp_expect_len, dwp_bind, dwp_read_ipv4addr; [done|]. intros v c1 _ _ Hv.
    by apply dwp_ret, HQ.
  - apply dwp_expect_len, dwp_bind, dwp_read_u32; [done|]. intros v c1 _ _ Hv.
    by apply dwp_ret, HQ.
  - apply dwp_expect_len, dwp_bind, dwp_read_u32; [done|]. intros v c1 _ _ Hv.
    by apply dwp_ret, HQ.
  - by apply dwp_expect_len, dwp_ret, HQ.
  - by apply dwp_aggregator.
  - apply dwp_expect_multiple, dwp_bind, dwp_items_u32; [done|]. intros l c1 _ Hl.
    by apply dwp_ret, HQ.
  - apply dwp_expect_len, dwp_bind, dwp_read_ipv4addr; [done|]. intros v c1 _ _ Hv.
    by apply dwp_ret, HQ.
  - apply dwp_expect_multiple, dwp_bind, dwp_items_u32; [done|]. intros l c1 _ Hl.
    by apply dwp_ret, HQ.
  - by apply dwp_mp_reach.
  - by apply dwp_mp_unreach.
  - apply dwp_expect_multiple, dwp_bind, (dwp_push_loop ExtendedCommunity.wf); [done| |].
    { intros c0 Q0 Hc0 _ HQ0. by apply dwp_extended_community. }
    intros l c1 _ Hl. by apply dwp_ret, HQ.
  - apply dwp_bind, dwp_as_path; [done|]. intros l c1 Hc1 Hl. by apply dwp_ret, HQ.
  - apply dwp_expect_len, dwp_bind, dwp_read_u32; [done|]. intros v c1 Hc1 _ Hv.
    apply dwp_bind, dwp_read_ipv4addr; [done|]. intros w c2 _ _ Hw. by apply dwp_ret, HQ.
  - apply dwp_expect_multiple, dwp_bind, (dwp_push_loop LargeCommunityOps.wf); [done| |].
    { intros c0 Q0 Hc0 _ HQ0. by apply dwp_large_community. }
    intros l c1 _ Hl. by apply dwp_ret, HQ.
  - apply dwp_expect_len, dwp_bind, dwp_read_u32; [done|]. intros v c1 _ _ Hv.
    by apply dwp_ret, HQ.
Qed.

Lemma dwp_try {A} sub (d : Dec CodecError A) c Q :
  dwp d sub (fun a _ => Q (inr a) c) -> (forall e, Q (inl e) c) -> dwp (dec_try sub d) c Q.
Proof. unfold dwp, dec_try. destruct (d sub) as [[a c']|e| |]; auto. Qed.

(** The attribute loop: accepted attributes are well formed, have pairwise
    different type codes, and each is marked as seen. *)
Definition attr_inv (st : AttrState) : Prop :=
  let '(attrs, errors, seen) := st in
  length seen = 256%nat /\ Forall pa_ok attrs /\ NoDup (map type_code attrs)
  /\ Forall (fun a => is_u8 (type_code a) /\ seen !! Z.to_nat (type_code a) = Some true) attrs.

Lemma attr_inv_errors attrs errors seen es :
  attr_inv (attrs, errors, seen) -> attr_inv (attrs, errors ++ es, seen).
Proof. done. Qed.

Lemma attr_inv_mark attrs errors seen tc es :
  attr_inv (attrs, errors, seen) -> attr_inv (attrs, errors ++ es, <[tc := true]> seen).
Proof.
  intros (Hl & Hok & Hnd & Hs). split_and!; [by rewrite length_insert|done|done|].
  eapply Forall_impl; [done|]. intros a [Hu Ha]. split; [done|].
  destruct (decide (Z.to_nat (type_code a) = tc)) as [<-|Hne].
  - apply list_lookup_insert_eq. by eapply lookup_lt_Some.
  - by rewrite list_lookup_insert_ne.
Qed.

Lemma attr_inv_push attrs errors seen a : pa_ok a -> is_u8 (type_code a) ->
  seen !! Z.to_nat (type_code a) = Some false -> attr_inv (attrs, errors, seen) ->
  attr_inv (attrs ++ [a], errors, <[Z.to_nat (type_code a) := true]> seen).
Proof.
  intros Ha Hu Hf Hinv. pose proof (attr_inv_mark _ _ _ (Z.to_nat (type_code a)) [] Hinv) as Hm.
  destruct Hinv as (Hl & _ & _ & Hs). destruct Hm as (Hl' & Hok & Hnd & Hs').
  split_and!; [done|by flist| |].
  - rewrite map_app. apply NoDup_app. split_and!; [done| |apply NoDup_singleton].
    intros tc Hin Htc. apply list_elem_of_singleton in Htc as ->.
    apply list_elem_of_fmap in Hin as (b & Hb & Hin). rewrite Forall_forall in Hs.
    destruct (Hs b Hin) as [_ Hbs]. rewrite <- Hb in Hbs. congruence.
  - flist. split; [done|]. apply list_lookup_insert_eq. by eapply lookup_lt_Some.
Qed.

Lemma dwp_attr_len flags c Q : cwf c ->
  (forall n c', cwf c' -> (length (rest c') <= length (rest c))%nat -> Q n c') ->
  dwp (E:=CodecError) (if has_flag flags FLAG_EXT_LEN then read_u16 else read_u8) c Q.
Proof.
  intros Hc HQ. destruct (has_flag flags FLAG_EXT_LEN).
  - apply dwp_read_u16; [done|]. intros n c3 Hc3 Hr3 _. apply HQ; [done|].
    rewrite Hr3, length_app. lia.
  - apply dwp_read_u8; [done|]. intros n c3 Hc3 Hr3 _. apply HQ; [done|].
    rewrite Hr3. simpl. lia.
Qed.

Lemma dwp_one_attr four st c Q : cwf c -> attr_inv st ->
  (forall st' c', cwf c' -> attr_inv st' -> (remaining c' < remaining c)%nat -> Q st' c') ->
  dwp (decode_one_attr four st) c Q.
Proof.
  intros Hc Hinv HQ. destruct st as [[attrs errors] seen]. unfold decode_one_attr.
  apply dwp_bind, dwp_read_u8; [done|]. intros flags c1 Hc1 Hr1 Hf.
  apply dwp_bind, dwp_read_u8; [done|]. intros tc c2 Hc2 Hr2 Htc.
  apply dwp_bind, dwp_attr_len; [done|].
  intros n c3 Hc3 Hl3. apply dwp_bind, dwp_fork; [done|]. intros val c4 Hc4 Hval Hr4 _.
  assert (HQ' : forall st', attr_inv st' -> Q st' c4).
  { intros st' Hst. apply HQ; [done|done|]. rewrite !remaining_rest, Hr1, Hr2. simpl.
    rewrite Hr4, length_app in Hl3. lia. }
  pose proof (proj1 Hinv) as Hl. simpl in Hl. unfold handle_attr.
  destruct (seen !! Z.to_nat tc) as [[]|] eqn:Es.
  - by apply dwp_ret, HQ'.
  - assert (Hval' : (tc ∉ known_type_codes -> has_flag flags FLAG_OPTIONAL = true) ->
      dwp (r ← dec_try val (decode_attr_value flags tc four);
        match r with
        | inr attr => mret (attrs ++ [attr], errors, <[Z.to_nat tc := true]> seen)
        | inl e => mret (attrs, errors ++ [mkAttributeDecodeError tc (rfc7606_policy tc)
                                             (error_detail e)], <[Z.to_nat tc := true]> seen)
        end) c4 Q).
    { intros Hopt. apply dwp_bind, dwp_try.
      - apply dwp_attr_value; [done..|]. intros a _ Ha <-.
        apply dwp_ret, HQ'. by apply attr_inv_push.
      - intros e. apply dwp_ret, HQ'. by apply attr_inv_mark. }
    destruct (expected_optional_transitive tc) as [[eo et]|] eqn:Ee.
    + destruct (_ || _)%bool; [apply dwp_ret, HQ'; by apply attr_inv_mark|].
      apply Hval'. intros Hn. apply expected_none_unknown in Hn. congruence.
    + destruct (has_flag flags FLAG_OPTIONAL) eqn:Ho; cbn [negb]; [by apply Hval'|].
      apply dwp_bind, dwp_on, dwp_read_remaining; [done|]. intros b c5 _ _ _ _.
      apply dwp_ret, HQ'. by apply attr_inv_mark.
  - exfalso. apply lookup_ge_None in Es. blia.
Qed.

Lemma dwp_path_attributes four c Q : cwf c ->
  (forall attrs errors c', Forall pa_ok attrs -> NoDup (map type_code attrs) ->
     Q (attrs, errors) c') ->
  dwp (decode_path_attributes four) c Q.
Proof.
  intros Hc HQ. apply dwp_bind, dwp_while with (I := fun st c' => cwf c' /\ attr_inv st).
  - split; [done|]. split_and!; [done|constructor|constructor|constructor].
  - intros st c0 [Hc0 Hst] _. by apply dwp_one_attr.
  - intros [[attrs errors] seen] c0 [Hc0 (_ & Hok & Hnd & _)] _. by apply dwp_ret, HQ.
Qed.

(** Consistency of a decoded UPDATE's error report. *)
Definition outcome_ok (o : UpdateDecodeOutcome) : Prop :=
  match o with
  | Clean u => update_ok u
  | Partial u errors tw sr =>
      update_ok u /\ errors <> []
      /\ (tw = true <-> exists e, e ∈ errors /\ ade_policy e = TreatAsWithdraw)
      /\ (sr = true <-> exists e err d, e ∈ errors /\ ade_policy e = SessionReset err d)
  end.

Lemma dwp_update four c Q : cwf c ->
  (forall o c', cwf c' -> outcome_ok o -> Q o c') -> dwp (update_decode four) c Q.
Proof.
  intros Hc HQ. apply dwp_bind, dwp_read_u16; [done|]. intros wl c1 Hc1 _ _.
  apply dwp_bind, dwp_fork; [done|]. intros wd c2 Hc2 Hwd _ _.
  apply dwp_bind, dwp_on, dwp_nlri_list; [done|]. intros w _ _ Hw.
  apply dwp_bind, dwp_read_u16; [done|]. intros al c3 Hc3 _ _.
  apply dwp_bind, dwp_fork; [done|]. intros at_ c4 Hc4 Hat _ _.
  apply dwp_bind, dwp_on, dwp_path_attributes; [done|]. intros attrs errors _ Hok Hnd.
  apply dwp_bind, dwp_nlri_list; [done|]. intros ann c5 Hc5 Hann.
  assert (Hu : update_ok (mkUpdate w attrs ann)) by by split_and!.
  destruct errors as [|e errors]; apply dwp_ret, HQ; try done.
  split_and!; [done|done| |].
  - rewrite existsb_elem. by setoid_rewrite bool_decide_eq_true.
  - rewrite existsb_elem. split.
    + intros (x & Hx & Hp). destruct (ade_policy x) eqn:Ep; try done. eauto.
    + intros (x & err & d & Hx & Hp). exists x. by rewrite Hp.
Qed.

End Safety.
