(* ===== verification/UpdateRoundtrip.v ===== *)
(** Reading back an encoded UPDATE: every well-formed attribute, NLRI list and
    message that fits its length fields decodes to itself. *)
From Stdlib Require Import ZArith Lia Bool.
From stdpp Require Import base tactics numbers decidable strings list.
From S2P Require Import Prelude Addr Types AsPath Wire Header Notification Update UpdateFacts.
Open Scope Z_scope.

Section Roundtrip.
Context `{P : IpPrefixOps} {L : IpPrefixLaws}.

Lemma Decodes_nlri f (n : Nlri f) : canonical n -> Decodes (decode_nlri f) (encode_nlri n) n.
Proof.
  intros Hn. unfold decode_nlri, encode_nlri.
  pose proof (prefix_mask_ok f (nlri_prefix n)) as Hm. fold (prefix_len n) in Hm.
  pose proof (prefix_ip_ok f (nlri_prefix n)) as Hip. fold (nlri_ip n) in Hip.
  pose proof (byte_count_le f (prefix_len n) Hm).
  eapply Decodes_bind; [apply Decodes_u8|].
  rewrite (proj2 (Z.ltb_ge _ _)) by lia. cbv zeta.
  eapply Decodes_bind_ret.
  { apply Decodes_bytes. rewrite length_take, be_bytes_length. lia. }
  rewrite nlri_octets by (try done; by apply canonical_ip).
  rewrite from_be_addr by done.
  pose proof (nlri_new_canonical f n Hn) as Hnew.
  destruct (nlri_new f (nlri_ip n) (prefix_len n)) as [m|]; [|done].
  simpl in Hnew. injection Hnew as Hnew. rewrite Hnew. apply Decodes_ret.
Qed.

Lemma foldl_push {A} (l acc : list A) : foldl (fun a x => a ++ [x]) acc l = acc ++ l.
Proof.
  revert acc. induction l as [|x l IH]; intros acc; simpl; [by rewrite app_nil_r|].
  rewrite IH. by rewrite <- app_assoc.
Qed.

(** A push loop reads back a concatenation of non-empty encodings. *)
Lemma DecodesAll_push {A} (item : Dec CodecError A) (enc : A -> list Z) l :
  (forall x, x ∈ l -> Decodes item (enc x) x) -> (forall x, x ∈ l -> enc x <> []) ->
  DecodesAll (while_dec more (fun out => x ← item; mret (out ++ [x])) [])
    (concat (map enc l)) l.
Proof.
  intros Hd Hne. pose proof (DecodesAll_while (fun out => x ← item; mret (out ++ [x])) enc
    (fun a x => a ++ [x]) l []) as H.
  rewrite foldl_push in H. apply H; [|done].
  intros x acc Hx. eapply Decodes_bind_ret; [by apply Hd|apply Decodes_ret].
Qed.

Lemma DecodesAll_nlri_list f (l : list (Nlri f)) : Forall canonical l ->
  DecodesAll (decode_nlri_list f) (encode_nlri_list l) l.
Proof.
  intros Hl. rewrite Forall_forall in Hl. apply DecodesAll_push; [|done].
  intros x Hx. by apply Decodes_nlri, Hl.
Qed.

Lemma DecodesAll_mp_nlri afi l : prefixes_ok afi l ->
  DecodesAll (decode_mp_nlri afi) (concat (map encode_prefix l)) l.
Proof.
  intros [(-> & ns & -> & Hn)|[(-> & ns & -> & Hn)|(H4 & H6 & ->)]]; unfold decode_mp_nlri.
  - cbn [Z.eqb Afi.IPV4 Pos.eqb]. rewrite map_map.
    eapply DecodesAll_bind_ret; [by apply (DecodesAll_nlri_list FamV4)|apply Decodes_ret].
  - cbn [Z.eqb Afi.IPV4 Afi.IPV6 Pos.eqb]. rewrite map_map.
    eapply DecodesAll_bind_ret; [by apply (DecodesAll_nlri_list FamV6)|apply Decodes_ret].
  - rewrite (proj2 (Z.eqb_neq _ _)), (proj2 (Z.eqb_neq _ _)) by done.
    eapply DecodesAll_bind_ret; [apply DecodesAll_remaining|apply Decodes_ret].
Qed.

Lemma Decodes_peek {A} (f : nat -> Dec CodecError A) bs a :
  (forall n, (length bs <= n)%nat -> Decodes (f n) bs a) ->
  Decodes (dec_remaining ≫= f) bs a.
Proof.
  intros H c tl Hok Hc. destruct (H (remaining c)) with (c := c) (tl := tl)
    as (c' & E & Hr); [|done|done|].
  - rewrite remaining_rest, Hc, length_app. lia.
  - exists c'. split; [|done]. unfold mbind, dec_bind, dec_remaining. done.
Qed.

Lemma Decodes_asns l acc : Forall is_u32 l ->
  Decodes (decode_asns (length l) acc) (concat (map u32_be l)) (acc ++ l).
Proof.
  revert acc. induction l as [|a l IH]; intros acc Hl.
  - rewrite app_nil_r. apply Decodes_ret.
  - inversion_clear Hl as [|? ? Ha Hl']. cbn [length decode_asns map concat].
    apply Decodes_peek. intros n Hn. rewrite length_app, u32_be_length in Hn.
    rewrite (proj2 (Nat.ltb_ge _ _)) by lia.
    eapply Decodes_bind; [by apply Decodes_u32|].
    replace (acc ++ a :: l) with ((acc ++ [a]) ++ l) by (by rewrite <- app_assoc). by apply IH.
Qed.

Lemma Decodes_segment segs s : Path.seg_wf s ->
  Decodes (decode_segment segs) (encode_segment s) (segs ++ [s]).
Proof.
  intros [Hl Hu]. unfold decode_segment, encode_segment.
  assert (Hn : Z.to_nat (as_u8 (len (Seg.asns s))) = length (Seg.asns s)).
  { unfold as_u8, len. rewrite Z.mod_small by lia. lia. }
  destruct s as [v|v|v|v]; cbn [Seg.asns] in *;
    (eapply Decodes_bind; [apply Decodes_u8|]; eapply Decodes_bind; [apply Decodes_u8|];
     eapply Decodes_bind_ret; [rewrite Hn; by apply Decodes_asns|apply Decodes_ret]).
Qed.

Lemma DecodesAll_as_path p : Path.wf p ->
  DecodesAll decode_as_path_segments (encode_as_path_segments p) p.
Proof.
  intros Hp. unfold Path.wf in Hp. rewrite Forall_forall in Hp.
  pose proof (DecodesAll_while decode_segment encode_segment (fun a x => a ++ [x]) p []) as H.
  rewrite foldl_push in H. apply H.
  - intros x acc Hx. by apply Decodes_segment, Hp.
  - intros x _. by destruct x.
Qed.

Lemma DecodesAll_len {A} tc n d (k : Dec CodecError A) bs a : length bs = n ->
  DecodesAll k bs a -> DecodesAll (expect_len tc n d k) bs a.
Proof.
  intros Hl Hk c Hok Hc. destruct (Hk c Hok Hc) as (c' & E & Hr). exists c'. split; [|done].
  unfold expect_len, mbind, dec_bind, dec_remaining.
  by rewrite (proj2 (Nat.eqb_eq _ _)) by (by rewrite remaining_rest, Hc).
Qed.
Lemma DecodesAll_multiple {A} tc n d (k : Dec CodecError A) bs a :
  (length bs mod n = 0)%nat -> DecodesAll k bs a -> DecodesAll (expect_multiple tc n d k) bs a.
Proof.
  intros Hl Hk c Hok Hc. destruct (Hk c Hok Hc) as (c' & E & Hr). exists c'. split; [|done].
  unfold expect_multiple, mbind, dec_bind, dec_remaining.
  by rewrite (proj2 (Nat.eqb_eq _ _)) by (by rewrite remaining_rest, Hc).
Qed.
Lemma DecodesAll_min {A} tc n d (k : Dec CodecError A) bs a :
  (n <= length bs)%nat -> DecodesAll k bs a -> DecodesAll (expect_min tc n d k) bs a.
Proof.
  intros Hl Hk c Hok Hc. destruct (Hk c Hok Hc) as (c' & E & Hr). exists c'. split; [|done].
  unfold expect_min, mbind, dec_bind, dec_remaining.
  by rewrite (proj2 (Nat.ltb_ge _ _)) by (by rewrite remaining_rest, Hc).
Qed.

(** Concatenations of fixed-size items have a length that is a multiple of it. *)
Lemma concat_map_length {A} (enc : A -> list Z) n l :
  (forall x, x ∈ l -> length (enc x) = n) -> length (concat (map enc l)) = (n * length l)%nat.
Proof.
  induction l as [|x l IH]; intros H; simpl; [lia|].
  rewrite length_app, IH, H by (intros; apply H || idtac; by (left || right)). lia.
Qed.

Lemma concat_map_mod {A} (enc : A -> list Z) n l : n <> 0%nat ->
  (forall x, x ∈ l -> length (enc x) = n) -> (length (concat (map enc l)) mod n = 0)%nat.
Proof. intros Hn H. rewrite (concat_map_length enc n) by done. rewrite Nat.mul_comm. by apply Nat.Div0.mod_mul. Qed.

Lemma DecodesAll_u32s l : Forall is_u32 l ->
  DecodesAll (decode_items read_u32) (concat (map u32_be l)) l.
Proof.
  intros Hl. rewrite Forall_forall in Hl. apply DecodesAll_push; [|done].
  intros x Hx. by apply Decodes_u32, Hl.
Qed.

Lemma large_length x : length (LargeCommunityOps.to_bytes x) = 12%nat.
Proof. unfold LargeCommunityOps.to_bytes. by autorewrite with pv_len. Qed.

Lemma DecodesAll_large l : Forall LargeCommunityOps.wf l ->
  DecodesAll (decode_items read_large_community) (concat (map LargeCommunityOps.to_bytes l)) l.
Proof.
  intros Hl. rewrite Forall_forall in Hl. apply DecodesAll_push; [|done].
  intros x Hx. destruct (Hl x Hx) as (Ha & Hb & Hc). destruct x as [a b c].
  unfold LargeCommunityOps.to_bytes.
  cbn [global_administrator local_data_1 local_data_2] in *.
  eapply Decodes_bind; [by apply Decodes_u32|]. eapply Decodes_bind; [by apply Decodes_u32|].
  eapply Decodes_bind_ret; [by apply Decodes_u32|apply Decodes_ret].
Qed.

Lemma DecodesAll_extended l : Forall ExtendedCommunity.wf l ->
  DecodesAll (decode_items read_extended_community) (concat l) l.
Proof.
  intros Hl. rewrite Forall_forall in Hl. rewrite <- (map_id l) at 1.
  apply DecodesAll_push.
  - intros x Hx. destruct (Hl x Hx) as [H8 _].
    eapply Decodes_bind_ret; [by apply Decodes_bytes|]. rewrite H8. apply Decodes_ret.
  - intros x Hx ->. by destruct (Hl [] Hx).
Qed.

Lemma encode_next_hop_len afi nh : next_hop_ok afi nh -> len (encode_next_hop nh) <= 32.
Proof. intros [_ H]. unfold len. destruct nh; cbn; autorewrite with pv_len; lia. Qed.

Lemma decode_encode_next_hop afi nh : next_hop_ok afi nh ->
  decode_next_hop afi (encode_next_hop nh) = Ok nh.
Proof.
  intros [Hw H]. unfold decode_next_hop. destruct nh as [a|a|g l]; subst afi;
    cbn [encode_next_hop NextHopOps.wf] in *; autorewrite with pv_len;
    cbn [Z.eqb Afi.IPV4 Afi.IPV6 Pos.eqb Nat.eqb andb Nat.add].
  - by rewrite u32_be_roundtrip.
  - by rewrite u128_be_roundtrip.
  - destruct Hw. rewrite take_app_length', drop_app_length' by (by rewrite u128_be_length).
    rewrite !u128_be_roundtrip by done. done.
Qed.

(** ** Attribute values *)
Definition attr_flags (a : PathAttribute) : Z := fst (fst (encode_attr_value a)).
Definition attr_value (a : PathAttribute) : list Z := snd (encode_attr_value a).

(** An aggregator is written with a 4-byte ASN: it needs the capability. *)
Definition aggregator_ok (four : bool) (a : PathAttribute) : Prop :=
  match a with PaAggregator _ => four = true | _ => True end.

(** What the encoder needs beyond well-formedness: the value fits the 16-bit
    length; an unknown attribute's flags already carry the Partial bit if it is
    transitive, and the extended-length bit exactly if it is long. *)
Definition attr_fits (a : PathAttribute) : Prop :=
  len (attr_value a) <= 65535 /\
  match a with
  | PaUnknown flags _ value =>
      attr_flags a = flags /\ has_flag flags FLAG_EXT_LEN = (255 <? len value)
  | _ => True
  end.

Lemma encode_attr_type_code a : snd (fst (encode_attr_value a)) = type_code a.
Proof. by destruct a. Qed.

Lemma DecodesAll_mp_reach flags four m : pa_ok (PaMpReachNlri m) ->
  DecodesAll (decode_attr_value flags ATTR_MP_REACH_NLRI four)
    (attr_value (PaMpReachNlri m)) (PaMpReachNlri m).
Proof.
  destruct m as [[a s] nh ps]. intros ([Ha Hs] & Hnh & Hps).
  cbn [mpr_afi_safi mpr_next_hop mpr_prefixes afi safi] in *.
  unfold attr_value. cbn [encode_attr_value snd mpr_afi_safi mpr_next_hop mpr_prefixes afi safi].
  apply DecodesAll_min; [autorewrite with pv_len; simpl; lia|].
  pose proof (encode_next_hop_len a nh Hnh).
  eapply Decodes_bind_all; [by apply Decodes_u16|].
  eapply Decodes_bind_all; [apply Decodes_u8|]. eapply Decodes_bind_all; [apply Decodes_u8|].
  eapply Decodes_bind_all.
  { apply Decodes_bytes. unfold as_u8, len in *. rewrite Z.mod_small by lia. lia. }
  rewrite decode_encode_next_hop by done.
  rewrite <- (app_nil_l ([0] ++ _)). eapply Decodes_bind_all; [apply Decodes_ret|].
  eapply Decodes_bind_all; [apply Decodes_u8|].
  eapply DecodesAll_bind_ret; [by apply DecodesAll_mp_nlri|apply Decodes_ret].
Qed.

Lemma DecodesAll_mp_unreach flags four m : pa_ok (PaMpUnreachNlri m) ->
  DecodesAll (decode_attr_value flags ATTR_MP_UNREACH_NLRI four)
    (attr_value (PaMpUnreachNlri m)) (PaMpUnreachNlri m).
Proof.
  destruct m as [[a s] ps]. intros ([Ha Hs] & Hps).
  cbn [mpu_afi_safi mpu_prefixes afi safi] in *.
  unfold attr_value. cbn [encode_attr_value snd mpu_afi_safi mpu_prefixes afi safi].
  apply DecodesAll_min; [autorewrite with pv_len; simpl; lia|].
  eapply Decodes_bind_all; [by apply Decodes_u16|].
  eapply Decodes_bind_all; [apply Decodes_u8|].
  eapply DecodesAll_bind_ret; [by apply DecodesAll_mp_nlri|apply Decodes_ret].
Qed.

Lemma DecodesAll_fixed {A} tc n d (item : Dec CodecError A) (f : A -> PathAttribute) bs x :
  length bs = n -> Decodes item bs x ->
  DecodesAll (expect_len tc n d (v ← item; mret (f v))) bs (f x).
Proof.
  intros Hl Hd. apply DecodesAll_len; [done|]. apply Decodes_all.
  eapply Decodes_bind_ret; [done|apply Decodes_ret].
Qed.

Lemma DecodesAll_list {A} tc n d (items : Dec CodecError (list A)) (f : list A -> PathAttribute)
    bs l :
  (length bs mod n = 0)%nat -> DecodesAll items bs l ->
  DecodesAll (expect_multiple tc n d (v ← items; mret (f v))) bs (f l).
Proof.
  intros Hl Hd. apply DecodesAll_multiple; [done|].
  eapply DecodesAll_bind_ret; [done|apply Decodes_ret].
Qed.

Lemma DecodesAll_pair tc d (f : Z -> Z -> PathAttribute) a b : is_u32 a -> is_u32 b ->
  DecodesAll (expect_len tc 8 d (x ← read_u32; y ← read_ipv4addr; mret (f x y)))
    (u32_be a ++ u32_be b) (f a b).
Proof.
  intros Ha Hb. apply DecodesAll_len; [by autorewrite with pv_len|]. apply Decodes_all.
  eapply Decodes_bind; [by apply Decodes_u32|].
  eapply Decodes_bind_ret; [by apply Decodes_ipv4addr|apply Decodes_ret].
Qed.

Lemma DecodesAll_attr_value a four : pa_ok a -> aggregator_ok four a -> attr_fits a ->
  DecodesAll (decode_attr_value (attr_flags a) (type_code a) four) (attr_value a) a.
Proof.
  intros Hok Hagg [_ Hfit].
  destruct a; cbn [pa_ok aggregator_ok type_code] in *; unfold attr_value, attr_flags;
    cbn [encode_attr_value fst snd].
  - apply DecodesAll_len; [done|]. apply Decodes_all.
    eapply Decodes_bind_ret; [apply Decodes_u8|]. rewrite origin_u8_roundtrip. apply Decodes_ret.
  - eapply DecodesAll_bind_ret; [by apply DecodesAll_as_path|apply Decodes_ret].
  - apply DecodesAll_fixed; [apply u32_be_length|by apply Decodes_ipv4addr].
  - apply DecodesAll_fixed; [apply u32_be_length|by apply Decodes_u32].
  - apply DecodesAll_fixed; [apply u32_be_length|by apply Decodes_u32].
  - apply DecodesAll_len; [done|]. apply Decodes_all, Decodes_ret.
  - subst four. destruct a, Hok. by apply (DecodesAll_pair _ _ (fun x y => PaAggregator (mkAggregator x y))).
  - apply DecodesAll_list; [|by apply DecodesAll_u32s].
    apply concat_map_mod; [done|]. intros; apply u32_be_length.
  - apply DecodesAll_fixed; [apply u32_be_length|by apply Decodes_ipv4addr].
  - apply DecodesAll_list; [|by apply DecodesAll_u32s].
    apply concat_map_mod; [done|]. intros; apply u32_be_length.
  - by apply DecodesAll_mp_reach.
  - by apply DecodesAll_mp_unreach.
  - apply DecodesAll_list; [|by apply DecodesAll_extended].
    rewrite <- (map_id ecs). apply concat_map_mod; [done|]. intros x Hx.
    rewrite Forall_forall in Hok. by destruct (Hok x Hx).
  - eapply DecodesAll_bind_ret; [by apply DecodesAll_as_path|apply Decodes_ret].
  - destruct Hok. by apply DecodesAll_pair.
  - apply DecodesAll_list; [|by apply DecodesAll_large].
    apply concat_map_mod; [done|]. intros; apply large_length.
  - apply DecodesAll_fixed; [apply u32_be_length|by apply Decodes_u32].
  - destruct Hok as (_ & _ & Hn & _). destruct Hfit as [Hf _]. unfold attr_flags in Hf.
    cbn [encode_attr_value fst] in Hf. rewrite Hf, decode_attr_value_unknown by done.
    eapply DecodesAll_bind_ret; [apply DecodesAll_remaining|apply Decodes_ret].
Qed.

(** ** One attribute TLV *)
Definition wire_flags (a : PathAttribute) : Z :=
  if 255 <? len (attr_value a) then Z.lor (attr_flags a) FLAG_EXT_LEN else attr_flags a.

Lemma encode_one_eq a :
  encode_one_path_attr a
  = [wire_flags a] ++ [type_code a]
    ++ (if 255 <? len (attr_value a) then u16_be (as_u16 (len (attr_value a)))
        else [as_u8 (len (attr_value a))])
    ++ attr_value a.
Proof.
  unfold encode_one_path_attr, wire_flags, attr_flags, attr_value.
  rewrite <- encode_attr_type_code. by destruct (encode_attr_value a) as [[fl tc] v].
Qed.

Lemma lor_flag_id flags : has_flag flags FLAG_EXT_LEN = true -> Z.lor flags FLAG_EXT_LEN = flags.
Proof.
  unfold has_flag, FLAG_EXT_LEN. rewrite negb_true_iff, Z.eqb_neq. intros H.
  assert (Ht : Z.testbit flags 4 = true).
  { destruct (Z.testbit flags 4) eqn:E; [done|]. exfalso. apply H.
    apply Z.bits_inj'. intros n Hn. rewrite Z.land_spec, Z.bits_0.
    change 16 with (2 ^ 4). rewrite Z.pow2_bits_eqb by lia.
    destruct (Z.eqb_spec 4 n) as [<-|]; [by rewrite E|apply andb_false_r]. }
  apply Z.bits_inj'. intros n Hn. rewrite Z.lor_spec. change 16 with (2 ^ 4).
  rewrite Z.pow2_bits_eqb by lia.
  destruct (Z.eqb_spec 4 n) as [<-|]; [by rewrite Ht|apply orb_false_r].
Qed.

Lemma wire_flags_unknown flags tc v : attr_fits (PaUnknown flags tc v) ->
  wire_flags (PaUnknown flags tc v) = flags.
Proof.
  intros [_ [Hf He]]. unfold wire_flags. rewrite Hf. change (attr_value _) with v.
  destruct (255 <? len v); [by apply lor_flag_id|done].
Qed.

(** The flag byte written agrees with the length form and with what the decoder
    expects of the attribute type. *)
Lemma wire_flags_ok a : pa_ok a -> attr_fits a ->
  has_flag (wire_flags a) FLAG_EXT_LEN = (255 <? len (attr_value a))
  /\ match expected_optional_transitive (type_code a) with
     | Some (eo, et) => has_flag (wire_flags a) FLAG_OPTIONAL = eo
                        /\ has_flag (wire_flags a) FLAG_TRANSITIVE = et
     | None => has_flag (wire_flags a) FLAG_OPTIONAL = true
     end.
Proof.
  intros Hok Hfit. destruct a;
    try (unfold wire_flags; destruct (255 <? len _); by split_and!).
  rewrite wire_flags_unknown by done. destruct Hfit as [_ [_ He]].
  split; [done|]. destruct Hok as (_ & _ & Hn & Ho & _). cbn [type_code].
  by apply expected_none_unknown in Hn as ->.
Qed.

Lemma decode_attr_value_wire a four : attr_fits a ->
  decode_attr_value (wire_flags a) (type_code a) four
  = decode_attr_value (attr_flags a) (type_code a) four.
Proof.
  intros Hfit. destruct a; try done. rewrite wire_flags_unknown by done.
  destruct Hfit as [_ [-> _]]. done.
Qed.

Lemma DecodesAll_try {A} sub (d : Dec CodecError A) bs a :
  DecodesAll d bs a -> rest sub = bs -> cok sub -> Decodes (dec_try sub d) [] (inr a).
Proof.
  intros H Hs Hsub c tl Hok Hc. destruct (H sub Hsub Hs) as (c' & E & _).
  exists c. unfold dec_try. by rewrite E.
Qed.

Definition push_attr (st : AttrState) (a : PathAttribute) : AttrState :=
  let '(attrs, errors, seen) := st in
  (attrs ++ [a], errors, <[Z.to_nat (type_code a) := true]> seen).

Lemma Decodes_attr_len a : len (attr_value a) <= 65535 ->
  Decodes (E:=CodecError) (if 255 <? len (attr_value a) then read_u16 else read_u8)
    (if 255 <? len (attr_value a) then u16_be (as_u16 (len (attr_value a)))
     else [as_u8 (len (attr_value a))]) (len (attr_value a)).
Proof.
  intros Hl. destruct (Z.ltb_spec 255 (len (attr_value a))).
  - assert (Hm : as_u16 (len (attr_value a)) = len (attr_value a)).
    { unfold as_u16. apply Z.mod_small. blia. }
    rewrite Hm. apply Decodes_u16. blia.
  - replace (as_u8 (len (attr_value a))) with (len (attr_value a)); [apply Decodes_u8|].
    unfold as_u8. symmetry. apply Z.mod_small. blia.
Qed.

Lemma Decodes_one_attr four attrs errors seen a :
  pa_ok a -> aggregator_ok four a -> attr_fits a ->
  seen !! Z.to_nat (type_code a) = Some false ->
  Decodes (decode_one_attr four (attrs, errors, seen)) (encode_one_path_attr a)
    (push_attr (attrs, errors, seen) a).
Proof.
  intros Hok Hagg Hfit Hseen. rewrite encode_one_eq. unfold decode_one_attr.
  destruct (wire_flags_ok a Hok Hfit) as [Hext Hexp].
  pose proof (DecodesAll_attr_value a four Hok Hagg Hfit) as Hv.
  rewrite <- decode_attr_value_wire in Hv by done.
  assert (Hsub : Decodes (dec_try (cursor_new (attr_value a))
    (decode_attr_value (wire_flags a) (type_code a) four)) [] (inr a)).
  { eapply DecodesAll_try; [done|done|unfold cok; simpl; lia]. }
  eapply Decodes_bind; [apply Decodes_u8|]. eapply Decodes_bind; [apply Decodes_u8|].
  rewrite Hext. eapply Decodes_bind; [apply Decodes_attr_len; apply Hfit|].
  eapply Decodes_bind_ret; [apply Decodes_fork; by rewrite len_to_nat|].
  unfold handle_attr. rewrite Hseen. destruct (expected_optional_transitive (type_code a)) as [[eo et]|].
  - destruct Hexp as [-> ->]. rewrite !eqb_reflx. cbn [negb orb].
    eapply Decodes_bind_ret; [exact Hsub|apply Decodes_ret].
  - rewrite Hexp. cbn [negb]. eapply Decodes_bind_ret; [exact Hsub|apply Decodes_ret].
Qed.

Definition attrs_encodable (four : bool) (attrs : list PathAttribute) : Prop :=
  Forall (fun a => pa_ok a /\ is_u8 (type_code a) /\ aggregator_ok four a /\ attr_fits a) attrs
  /\ NoDup (map type_code attrs).

Lemma push_attrs attrs acc errors seen :
  exists seen', foldl push_attr (acc, errors, seen) attrs = (acc ++ attrs, errors, seen').
Proof.
  revert acc seen. induction attrs as [|a l IH]; intros acc seen; simpl.
  - exists seen. by rewrite app_nil_r.
  - destruct (IH (acc ++ [a]) (<[Z.to_nat (type_code a):=true]> seen)) as [s ->].
    exists s. by rewrite <- app_assoc.
Qed.

Lemma DecodesAll_path_attributes four attrs : attrs_encodable four attrs ->
  DecodesAll (decode_path_attributes four) (encode_path_attributes attrs) (attrs, []).
Proof.
  intros [Hf Hnd].
  destruct (push_attrs attrs [] [] (replicate 256 false)) as [seen' Hfold].
  apply DecodesAll_bind_ret with (a := (attrs, [], seen')); [|apply Decodes_ret].
  pose proof (DecodesAll_while_inv (fun rem (st : AttrState) =>
      attrs_encodable four rem
      /\ Forall (fun a => snd st !! Z.to_nat (type_code a) = Some false) rem)
    more (decode_one_attr four) encode_one_path_attr push_attr attrs
    ([], [], replicate 256 false)) as H.
  rewrite Hfold in H. apply H; [| | |apply more_empty].
  - split; [done|]. eapply Forall_impl; [exact Hf|]. intros a (_ & Hu & _).
    cbn [snd]. apply lookup_replicate. blia.
  - intros a l [[ps es] seen] [[Hf' Hnd'] Hs]. cbn [snd] in Hs.
    apply Forall_cons in Hf' as [(Hok & Hu & Hagg & Hfit) Hfl].
    apply Forall_cons in Hs as [Ha Hl].
    cbn [map] in Hnd'. apply NoDup_cons in Hnd' as [Hnin Hnd'].
    split; [by apply Decodes_one_attr|split; [by rewrite encode_one_eq|split; [by split|]]].
    cbn [push_attr snd]. rewrite Forall_forall in Hl, Hfl |- *. intros b Hb.
    rewrite list_lookup_insert_ne; [by apply Hl|]. intros Heq. apply Hnin.
    apply list_elem_of_fmap. exists b. split; [|done].
    destruct (Hfl b Hb) as (_ & Hub & _). unfold is_u8 in *. lia.
  - intros c a tl. apply more_nonempty.
Qed.

(** ** The whole message *)
Definition update_encodable (four : bool) (u : UpdateMessage) : Prop :=
  Forall canonical (withdrawn u) /\ Forall canonical (announced u)
  /\ attrs_encodable four (attributes u)
  /\ len (update_encode_body u) <= 65535 - Z.of_nat HEADER_LEN.

Lemma DecodesAll_update four u : update_encodable four u ->
  DecodesAll (update_decode four) (update_encode_body u) (Clean u).
Proof.
  intros (Hw & Ha & Hat & Hl). unfold update_encode_body in *.
  assert (Hwl : len (encode_nlri_list_v4 (withdrawn u)) <= 65535
    /\ len (encode_path_attributes (attributes u)) <= 65535).
  { unfold len, HEADER_LEN in *. autorewrite with pv_len in Hl. split; lia. }
  destruct Hwl as [Hwl Hal].
  assert (Hn : forall l : list Z, len l <= 65535 -> as_u16 (len l) = len l).
  { intros l Hl'. unfold as_u16. apply Z.mod_small. blia. }
  rewrite !Hn by done.
  eapply Decodes_bind_all; [apply Decodes_u16; blia|].
  eapply Decodes_bind_all; [apply Decodes_fork; by rewrite len_to_nat|].
  rewrite <- (app_nil_l (u16_be _ ++ _)).
  eapply Decodes_bind_all.
  { eapply Decodes_on; [exact (DecodesAll_nlri_list FamV4 _ Hw)|done|unfold cok; simpl; lia]. }
  eapply Decodes_bind_all; [apply Decodes_u16; blia|].
  eapply Decodes_bind_all; [apply Decodes_fork; by rewrite len_to_nat|].
  rewrite <- (app_nil_l (encode_nlri_list_v4 (announced u))).
  eapply Decodes_bind_all.
  { eapply Decodes_on; [by apply DecodesAll_path_attributes|done|unfold cok; simpl; lia]. }
  eapply DecodesAll_bind_ret; [exact (DecodesAll_nlri_list FamV4 _ Ha)|].
  destruct u. apply Decodes_ret.
Qed.

End Roundtrip.
