(* ===== verification/Rfc7606.v ===== *)
(** A declarative reading of the RFC 7606 attribute error handling of
    [decode_path_attributes] ([message/update.rs]): the attribute block is a
    sequence of TLVs, each of which is accepted or produces exactly one error
    that depends only on the TLV and on whether its type code occurred before. *)
From Stdlib Require Import ZArith Lia Bool.
From stdpp Require Import base tactics numbers decidable strings list.
From S2P Require Import Prelude Addr Types AsPath Wire Header Notification Update UpdateFacts.
From S2P Require Import UpdateRoundtrip.
Open Scope Z_scope.

Record Tlv := mkTlv { tlv_flags : Z; tlv_type : Z; tlv_value : list Z }.

Definition tlv_wf (t : Tlv) : Prop :=
  is_u8 (tlv_flags t) /\ is_u8 (tlv_type t) /\ bytes (tlv_value t)
  /\ len (tlv_value t) <= (if has_flag (tlv_flags t) FLAG_EXT_LEN then 65535 else 255).

Definition encode_tlv (t : Tlv) : list Z :=
  [tlv_flags t] ++ [tlv_type t]
  ++ (if has_flag (tlv_flags t) FLAG_EXT_LEN then u16_be (len (tlv_value t))
      else [len (tlv_value t)])
  ++ tlv_value t.

Section Spec.
Context `{P : IpPrefixOps} {L : IpPrefixLaws}.

(** The value alone, decoded by its type's rule. *)
Definition tlv_decode (four : bool) (t : Tlv) : CodecError + PathAttribute :=
  match decode_attr_value (tlv_flags t) (tlv_type t) four (cursor_new (tlv_value t)) with
  | Ok (a, _) => inr a
  | Err e => inl e
  | Panic | OutOfFuel => inl InvalidMarker
  end.

(** Do the Optional and Transitive bits conflict with the type's? *)
Definition flags_conflict (t : Tlv) : bool :=
  match expected_optional_transitive (tlv_type t) with
  | Some (eo, et) =>
      negb (eqb (has_flag (tlv_flags t) FLAG_OPTIONAL) eo)
      || negb (eqb (has_flag (tlv_flags t) FLAG_TRANSITIVE) et)
  | None => false
  end.

(** An attribute this speaker does not know but the sender calls well-known. *)
Definition unrecognized_well_known (t : Tlv) : bool :=
  bool_decide (tlv_type t ∉ known_type_codes) && negb (has_flag (tlv_flags t) FLAG_OPTIONAL).

Definition verdict (four seen : bool) (t : Tlv) : PathAttribute + AttributeDecodeError :=
  if seen then
    inr (mkAttributeDecodeError (tlv_type t) (duplicate_policy (tlv_type t))
           "duplicate attribute type code")
  else if flags_conflict t then
    inr (mkAttributeDecodeError (tlv_type t) TreatAsWithdraw
           "attribute flags conflict (Optional or Transitive bit)")
  else if unrecognized_well_known t then
    inr (mkAttributeDecodeError (tlv_type t)
           (SessionReset (NeUpdateMessage UnrecognizedWellKnownAttribute)
              (unrecognized_data (tlv_flags t) (tlv_type t) (length (tlv_value t)) (tlv_value t)))
           "unrecognized well-known attribute (Optional bit not set)")
  else match tlv_decode four t with
       | inr a => inl a
       | inl e => inr (mkAttributeDecodeError (tlv_type t) (rfc7606_policy (tlv_type t))
                         (error_detail e))
       end.

(** Verdicts in order; a type code counts as seen whatever became of its TLV. *)
Fixpoint classify (four : bool) (seen : list Z) (ts : list Tlv)
    : list (PathAttribute + AttributeDecodeError) :=
  match ts with
  | [] => []
  | t :: ts' =>
      verdict four (bool_decide (tlv_type t ∈ seen)) t
      :: classify four (tlv_type t :: seen) ts'
  end.

Definition accepted (vs : list (PathAttribute + AttributeDecodeError)) : list PathAttribute :=
  omap (fun v => match v with inl a => Some a | inr _ => None end) vs.
Definition rejected (vs : list (PathAttribute + AttributeDecodeError))
    : list AttributeDecodeError :=
  omap (fun v => match v with inl _ => None | inr e => Some e end) vs.

Definition attributes_spec (four : bool) (ts : list Tlv)
    : list PathAttribute * list AttributeDecodeError :=
  (accepted (classify four [] ts), rejected (classify four [] ts)).

(** ** The loop against the specification *)

(** [seen] as an array and as the list of the types met so far. *)
Definition seen_rel (arr : list bool) (l : list Z) : Prop :=
  forall tc, is_u8 tc -> arr !! Z.to_nat tc = Some (bool_decide (tc ∈ l)).

Lemma seen_rel_mark arr l tc : is_u8 tc -> seen_rel arr l ->
  seen_rel (<[Z.to_nat tc := true]> arr) (tc :: l).
Proof.
  intros Htc H x Hx. destruct (decide (x = tc)) as [->|Hne].
  - rewrite list_lookup_insert_eq by (by eapply lookup_lt_Some, H).
    by rewrite bool_decide_true by left.
  - rewrite list_lookup_insert_ne by (unfold is_u8 in *; lia). rewrite H by done.
    f_equal. apply bool_decide_ext. rewrite elem_of_cons. naive_solver.
Qed.

Lemma seen_rel_again arr l tc : tc ∈ l -> seen_rel arr l -> seen_rel arr (tc :: l).
Proof.
  intros Hin H x Hx. rewrite H by done. f_equal. apply bool_decide_ext.
  rewrite elem_of_cons. naive_solver.
Qed.

Definition push_verdict (st : list PathAttribute * list AttributeDecodeError)
    (v : PathAttribute + AttributeDecodeError) :=
  match v with
  | inl a => (fst st ++ [a], snd st)
  | inr e => (fst st, snd st ++ [e])
  end.

Lemma tlv_decode_spec four t c : tlv_wf t ->
  (tlv_type t ∉ known_type_codes -> has_flag (tlv_flags t) FLAG_OPTIONAL = true) ->
  dec_try (cursor_new (tlv_value t)) (decode_attr_value (tlv_flags t) (tlv_type t) four) c
  = Ok (tlv_decode four t, c).
Proof.
  intros (Hf & Ht & Hb & _) Hopt. unfold dec_try, tlv_decode.
  pose proof (dwp_attr_value (tlv_flags t) (tlv_type t) four (cursor_new (tlv_value t))
    (fun _ _ => True) (cwf_new _ Hb) Hf Ht Hopt ltac:(done)) as H.
  unfold dwp in H. by destruct (decode_attr_value _ _ _ _) as [[a c']|e| |].
Qed.

(** The array after a TLV: a duplicate leaves it alone. *)
Definition mark_seen (arr : list bool) (l : list Z) (tc : Z) : list bool :=
  if bool_decide (tc ∈ l) then arr else <[Z.to_nat tc := true]> arr.

Lemma seen_rel_step arr l tc : is_u8 tc -> seen_rel arr l ->
  seen_rel (mark_seen arr l tc) (tc :: l).
Proof.
  intros. unfold mark_seen. case_bool_decide; [by apply seen_rel_again|by apply seen_rel_mark].
Qed.

(** One iteration on a TLV computes its verdict. *)
Lemma handle_attr_verdict four attrs errors arr l t c : tlv_wf t -> seen_rel arr l ->
  handle_attr four (attrs, errors, arr) (tlv_flags t) (tlv_type t)
    (len (tlv_value t)) (cursor_new (tlv_value t)) c
  = Ok (push_verdict (attrs, errors) (verdict four (bool_decide (tlv_type t ∈ l)) t),
        mark_seen arr l (tlv_type t), c).
Proof.
  intros Ht Hs. pose proof Ht as (_ & Hu & Hb & _). unfold handle_attr, verdict, mark_seen.
  rewrite (Hs _ Hu). case_bool_decide as Hin; [done|].
  pose proof (tlv_decode_spec four t c Ht) as Hd.
  unfold flags_conflict, unrecognized_well_known.
  destruct (expected_optional_transitive (tlv_type t)) as [[eo et]|] eqn:Ee.
  - destruct (_ || _)%bool; [done|].
    assert (Hk : tlv_type t ∈ known_type_codes).
    { destruct (decide (tlv_type t ∈ known_type_codes)) as [|Hn]; [done|].
      apply expected_none_unknown in Hn. congruence. }
    rewrite (bool_decide_false (_ ∉ _)) by (intros Hn; by apply Hn). cbn [andb].
    unfold mbind, dec_bind. rewrite Hd by (intros Hn; by destruct (Hn Hk)).
    by destruct (tlv_decode four t).
  - apply expected_none_unknown in Ee. rewrite bool_decide_true by done. cbn [andb].
    destruct (has_flag (tlv_flags t) FLAG_OPTIONAL) eqn:Ho; cbn [negb].
    + unfold mbind, dec_bind. rewrite Hd by done. by destruct (tlv_decode four t).
    + unfold mbind, dec_bind, dec_on, read_remaining, cursor_new. simpl. by rewrite len_to_nat.
Qed.

Lemma Decodes_tlv_len t : tlv_wf t ->
  Decodes (E:=CodecError) (if has_flag (tlv_flags t) FLAG_EXT_LEN then read_u16 else read_u8)
    (if has_flag (tlv_flags t) FLAG_EXT_LEN then u16_be (len (tlv_value t))
     else [len (tlv_value t)]) (len (tlv_value t)).
Proof.
  intros (_ & _ & _ & Hl). destruct (has_flag _ _); [apply Decodes_u16; blia|apply Decodes_u8].
Qed.

Lemma Decodes_tlv four attrs errors arr l t : tlv_wf t -> seen_rel arr l ->
  Decodes (decode_one_attr four (attrs, errors, arr)) (encode_tlv t)
    (push_verdict (attrs, errors) (verdict four (bool_decide (tlv_type t ∈ l)) t),
     mark_seen arr l (tlv_type t)).
Proof.
  intros Ht Hs. unfold decode_one_attr, encode_tlv.
  eapply Decodes_bind; [apply Decodes_u8|]. eapply Decodes_bind; [apply Decodes_u8|].
  eapply Decodes_bind; [by apply Decodes_tlv_len|].
  eapply Decodes_bind_ret; [apply Decodes_fork; by rewrite len_to_nat|].
  intros c tl Hok Hc. exists c. by rewrite handle_attr_verdict with (l := l).
Qed.

(** ** Folding the verdicts *)
Lemma classify_snoc four seen ts t :
  classify four seen (ts ++ [t])
  = classify four seen ts
    ++ [verdict four (bool_decide (tlv_type t ∈ rev (map tlv_type ts) ++ seen)) t].
Proof.
  revert seen. induction ts as [|t0 ts IH]; intros seen; [done|].
  cbn [app classify map rev]. rewrite IH. by rewrite <- app_assoc.
Qed.

Lemma attributes_spec_snoc four ts t :
  attributes_spec four (ts ++ [t])
  = push_verdict (attributes_spec four ts)
      (verdict four (bool_decide (tlv_type t ∈ rev (map tlv_type ts) ++ [])) t).
Proof.
  unfold attributes_spec. rewrite classify_snoc. unfold accepted, rejected.
  rewrite !omap_app. cbn [omap list_omap]. by destruct (verdict _ _ t); rewrite ?app_nil_r.
Qed.

(** The loop state after the TLVs [ts]. *)
Definition after_tlvs (four : bool) (ts : list Tlv) (st : AttrState) : Prop :=
  fst st = attributes_spec four ts /\ seen_rel (snd st) (rev (map tlv_type ts) ++ []).

Lemma after_tlvs_init four : after_tlvs four [] ([], [], replicate 256 false).
Proof.
  split; [done|]. intros tc Htc. cbn [snd].
  rewrite bool_decide_false by (apply not_elem_of_nil). apply lookup_replicate. blia.
Qed.

Lemma after_tlvs_step four ts st t : tlv_wf t -> after_tlvs four ts st ->
  exists st', after_tlvs four (ts ++ [t]) st'
  /\ Decodes (decode_one_attr four st) (encode_tlv t) st'.
Proof.
  intros Ht [Hst Hs]. destruct st as [[attrs errors] arr]. cbn [fst snd] in *.
  eexists. split; [|by apply Decodes_tlv]. split; cbn [fst snd].
  - by rewrite attributes_spec_snoc, Hst.
  - rewrite map_app, rev_app_distr. apply seen_rel_step; [apply Ht|done].
Qed.

(** Every block of well-formed TLVs decodes to its specification. *)
Lemma attributes_of_tlvs four ts c : Forall tlv_wf ts -> cok c ->
  rest c = concat (map encode_tlv ts) ->
  exists c', decode_path_attributes four c = Ok (attributes_spec four ts, c') /\ rest c' = [].
Proof.
  intros Hts Hok Hc. rewrite Forall_forall in Hts.
  destruct (while_dec_rel (after_tlvs four) (decode_one_attr four) encode_tlv ts
    ([], [], replicate 256 false) c) as (st & c' & [Hst _] & Hw & Hr);
    [apply after_tlvs_init|done| |done|done|].
  { intros l acc t Ht. apply after_tlvs_step. by apply Hts. }
  exists c'. split; [|done]. unfold decode_path_attributes, mbind, dec_bind. rewrite Hw.
  destruct st as [[attrs errors] arr]. cbn [fst] in Hst. by rewrite <- Hst.
Qed.

Lemma dwp_ok {A} (d : Dec CodecError A) c a c' (Q : A -> Cursor -> Prop) :
  d c = Ok (a, c') -> Q a c' -> dwp d c Q.
Proof. unfold dwp. by intros ->. Qed.

(** Whatever decodes is a block of well-formed TLVs. *)
Lemma dwp_tlvs four c : cwf c ->
  dwp (decode_path_attributes four) c (fun r _ =>
    exists ts, Forall tlv_wf ts /\ rest c = concat (map encode_tlv ts)
               /\ r = attributes_spec four ts).
Proof.
  intros Hc. apply dwp_bind, dwp_while with (I := fun st c' =>
    cwf c' /\ exists ts, Forall tlv_wf ts
      /\ rest c = concat (map encode_tlv ts) ++ rest c' /\ after_tlvs four ts st).
  - split; [done|]. exists []. split; [constructor|]. split; [done|apply after_tlvs_init].
  - intros st c0 [Hc0 (ts & Hts & Hr & Hst)] _. destruct st as [[attrs errors] arr].
    apply dwp_bind, dwp_read_u8; [done|]. intros flags c1 Hc1 Hr1 Hf.
    apply dwp_bind, dwp_read_u8; [done|]. intros tc c2 Hc2 Hr2 Htc.
    apply dwp_bind.
    assert (Hk : forall n c3, cwf c3 ->
      rest c2 = (if has_flag flags FLAG_EXT_LEN then u16_be n else [n]) ++ rest c3 ->
      0 <= n <= (if has_flag flags FLAG_EXT_LEN then 65535 else 255) ->
      dwp (val ← fork (Z.to_nat n); handle_attr four (attrs, errors, arr) flags tc n val) c3
        (fun st c' => (cwf c' /\ exists ts, Forall tlv_wf ts
          /\ rest c = concat (map encode_tlv ts) ++ rest c' /\ after_tlvs four ts st)
          /\ (remaining c' < remaining c0)%nat)).
    { intros n c3 Hc3 Hr3 Hn. apply dwp_bind, dwp_bind, dwp_read_bytes; [done|].
      intros b c4 Hc4 Hr4 Hl Hb. apply dwp_ret.
      assert (Hln : len b = n) by (unfold len; lia).
      set (t := mkTlv flags tc b). assert (Ht : tlv_wf t) by (split_and!; [done|done|done|simpl; lia]).
      destruct (after_tlvs_step four ts (attrs, errors, arr) t Ht Hst) as (st' & Hst' & _).
      destruct Hst as [Hsp Hs]. cbn [fst snd] in *.
      eapply dwp_ok.
      { rewrite <- Hln. exact (handle_attr_verdict four attrs errors arr _ t c4 Ht Hs). }
      assert (Hrest : rest c0 = encode_tlv t ++ rest c4).
      { rewrite Hr1, Hr2, Hr3, Hr4. unfold encode_tlv. cbn [tlv_flags tlv_type tlv_value t].
        rewrite Hln, <- !app_assoc. done. }
      split; [split; [done|]|].
      - exists (ts ++ [t]). split; [by flist|]. split; [|split].
        + rewrite Hr, Hrest, map_app, concat_app. cbn [map concat]. by rewrite app_nil_r, app_assoc.
        + rewrite attributes_spec_snoc, Hsp. done.
        + cbn [snd]. rewrite map_app, rev_app_distr. by apply seen_rel_step.
      - rewrite !remaining_rest, Hrest, length_app. simpl. lia. }
    destruct (has_flag flags FLAG_EXT_LEN).
    + apply dwp_read_u16; [done|]. intros n c3 Hc3 Hr3 Hn. apply Hk; [done|done|blia].
    + apply dwp_read_u8; [done|]. intros n c3 Hc3 Hr3 Hn. apply Hk; [done|done|blia].
  - intros [[attrs errors] arr] c0 [Hc0 (ts & Hts & Hr & [Hst _])] Hmore. apply dwp_ret.
    exists ts. split; [done|]. split; [|done]. rewrite Hr.
    assert (rest c0 = []) as ->; [|by rewrite app_nil_r].
    unfold more in Hmore. rewrite remaining_rest in Hmore. by destruct (rest c0).
Qed.

End Spec.
