(* ===== verification/Message.v ===== *)
(** [BgpMessage] ([message/mod.rs]): the codec's entry points, and the framing
    layer that cuts a TCP byte stream into messages ([framing/mod.rs]). *)
From Stdlib Require Import ZArith Lia Bool.
From stdpp Require Import base tactics numbers decidable list.
From S2P Require Import Prelude Addr Types AsPath Wire Header Notification Open Update.
From S2P Require Import UpdateFacts UpdateRoundtrip.
Open Scope Z_scope.

Section Message.
Context `{P : IpPrefixOps}.

Record MalformedUpdate := mkMalformed {
  mu_update : UpdateMessage;
  mu_errors : list AttributeDecodeError;
  mu_treat_as_withdraw : bool;
  mu_session_reset : bool;
}.

Inductive BgpMessage :=
| BmOpen (m : OpenMessage)
| BmUpdate (m : UpdateMessage)
| BmNotification (m : NotificationMessage)
| BmKeepalive
| BmRouteRefresh (m : RouteRefreshMessage)
| BmMalformedUpdate (m : MalformedUpdate).

(** The arms of the [match msg_type] of [decode_with_limit_and_caps]. *)
Definition decode_message_body (four_byte_asn : bool) (msg_type : MessageType) (total_len : Z)
    : Dec CodecError BgpMessage :=
  match msg_type with
  | MtOpen =>
      open ← OpenCodec.decode;
      r ← dec_remaining;
      if negb (r =? 0)%nat then dec_err (InvalidLength total_len) else mret (BmOpen open)
  | MtUpdate =>
      o ← update_decode four_byte_asn;
      match o with
      | Clean u => mret (BmUpdate u)
      | Partial update errors treat_as_withdraw session_reset =>
          mret (BmMalformedUpdate (mkMalformed update errors treat_as_withdraw session_reset))
      end
  | MtNotification => n ← NotificationCodec.decode; mret (BmNotification n)
  | MtKeepalive =>
      r ← dec_remaining;
      if negb (r =? 0)%nat then dec_err (InvalidLength total_len) else mret BmKeepalive
  | MtRouteRefresh =>
      rr ← RouteRefreshCodec.decode;
      r ← dec_remaining;
      if negb (r =? 0)%nat then dec_err (InvalidLength total_len) else mret (BmRouteRefresh rr)
  end.

Definition decode_with_limit_and_caps (buf : list Z) (max_len : Z) (four_byte_asn : bool)
    : Outcome CodecError BgpMessage :=
  let d :=
    '(msg_type, total_len) ← decode_header max_len;
    if negb (len buf =? total_len) then dec_err (InvalidLength total_len)
    else decode_message_body four_byte_asn msg_type total_len in
  match d (cursor_new buf) with
  | Ok (m, _) => Ok m
  | Err e => Err e
  | Panic => Panic
  | OutOfFuel => OutOfFuel
  end.
Definition decode_with_limit (buf : list Z) (max_len : Z) : Outcome CodecError BgpMessage :=
  decode_with_limit_and_caps buf max_len true.
Definition message_decode (buf : list Z) : Outcome CodecError BgpMessage :=
  decode_with_limit buf MAX_LEN_EXTENDED.

(** [encode]: the decode-only variant is [unreachable!]. *)
Definition message_encode (m : BgpMessage) : Outcome CodecError (list Z) :=
  match m with
  | BmOpen m => Ok (OpenCodec.encode m)
  | BmUpdate m => Ok (update_encode m)
  | BmNotification m => Ok (NotificationCodec.encode m)
  | BmKeepalive => Ok (encode_header MtKeepalive 0)
  | BmRouteRefresh m => Ok (RouteRefreshCodec.encode m)
  | BmMalformedUpdate _ => Panic
  end.

(** ** [BgpCodec] *)
Record BgpCodec := mkCodec { max_msg_len : Z; four_byte_asn_negotiated : bool }.
Definition codec_new : BgpCodec := mkCodec MAX_LEN true.
Definition set_extended_message (c : BgpCodec) (enabled : bool) : BgpCodec :=
  mkCodec (if enabled then MAX_LEN_EXTENDED else MAX_LEN) (four_byte_asn_negotiated c).
Definition set_four_byte_asn (c : BgpCodec) (negotiated : bool) : BgpCodec :=
  mkCodec (max_msg_len c) negotiated.

Definition LEN_OFFSET : nat := 16.

(** [Decoder::decode]: the result and what is left in the receive buffer. *)
Definition codec_decode (c : BgpCodec) (src : list Z)
    : Outcome CodecError (option BgpMessage) * list Z :=
  if (length src <? HEADER_LEN)%nat then (Ok None, src)
  else match src !! LEN_OFFSET, src !! (LEN_OFFSET + 1)%nat with
  | Some b0, Some b1 =>
      let msg_len := from_be [b0; b1] in
      if negb ((Z.of_nat HEADER_LEN <=? msg_len) && (msg_len <=? max_msg_len c))
      then (Err (InvalidLength msg_len), src)
      else if len src <? msg_len then (Ok None, src)
      else
        let n := Z.to_nat msg_len in
        let frame := take n src in
        (m ← decode_with_limit_and_caps frame (max_msg_len c) (four_byte_asn_negotiated c);
         mret (Some m), drop n src)
  | _, _ => (Panic, src)
  end.
(** [Encoder::encode] *)
Definition codec_encode (msg : BgpMessage) (dst : list Z) : Outcome CodecError (list Z) :=
  bs ← message_encode msg; mret (dst ++ bs).

(** ** Well-formedness and encodability *)
Definition msg_ok (m : BgpMessage) : Prop :=
  match m with
  | BmOpen m => OpenCodec.wf m
  | BmUpdate u => update_ok u
  | BmNotification n => NotificationCodec.wf n
  | BmKeepalive => True
  | BmRouteRefresh r => RouteRefreshCodec.wf r
  | BmMalformedUpdate m =>
      outcome_ok (Partial (mu_update m) (mu_errors m) (mu_treat_as_withdraw m)
                    (mu_session_reset m))
  end.

Definition msg_encodable (four : bool) (m : BgpMessage) : Prop :=
  match m with
  | BmUpdate u => update_encodable four u
  | BmMalformedUpdate _ => False
  | m => msg_ok m
  end.

(** The wire form of a message that can be sent. *)
Definition wire (m : BgpMessage) : list Z :=
  match m with
  | BmOpen m => encode_framed MtOpen (OpenCodec.encode_body m)
  | BmUpdate m => encode_framed MtUpdate (update_encode_body m)
  | BmNotification m => encode_framed MtNotification (NotificationCodec.encode_body m)
  | BmRouteRefresh m => encode_framed MtRouteRefresh (RouteRefreshCodec.encode_body m)
  | BmKeepalive | BmMalformedUpdate _ => encode_framed MtKeepalive []
  end.

Lemma message_encode_wire four m : msg_encodable four m -> message_encode m = Ok (wire m).
Proof. by destruct m. Qed.

End Message.

Section MessageFacts.
Context `{P : IpPrefixOps} {L : IpPrefixLaws}.

Lemma dwp_message_body four t total c : cwf c ->
  dwp (decode_message_body four t total) c (fun m _ => msg_ok m).
Proof.
  intros Hc. destruct t; cbn [decode_message_body].
  - apply dwp_bind, dwp_open; [done|]. intros m c1 _ Hm.
    apply dwp_bind, dwp_remaining. by destruct (negb _).
  - apply dwp_bind, dwp_update; [done|]. intros [u|u es tw sr] c1 _ Ho; by apply dwp_ret.
  - apply dwp_bind, dwp_notification; [done|]. intros m c1 _ Hm. by apply dwp_ret.
  - apply dwp_bind, dwp_remaining. by destruct (negb _).
  - apply dwp_bind, dwp_route_refresh; [done|]. intros m c1 _ Hm _.
    apply dwp_bind, dwp_remaining. by destruct (negb _).
Qed.

(** Decoding any buffer returns, and what it accepts is well formed and as long
    as the header says. *)
Lemma decode_safe buf max_len four : bytes buf -> max_len <= MAX_LEN_EXTENDED ->
  match decode_with_limit_and_caps buf max_len four with
  | Ok m => msg_ok m /\ Z.of_nat HEADER_LEN <= len buf <= max_len
  | Err _ => True
  | Panic | OutOfFuel => False
  end.
Proof.
  intros Hb Hmax. unfold decode_with_limit_and_caps.
  assert (Hd : dwp ('(msg_type, total_len) ← decode_header max_len;
    if negb (len buf =? total_len) then dec_err (InvalidLength total_len)
    else decode_message_body four msg_type total_len) (cursor_new buf)
    (fun m _ => msg_ok m /\ Z.of_nat HEADER_LEN <= len buf <= max_len)).
  { apply dwp_bind, dwp_decode_header; [by apply cwf_new|done|].
    intros t n c1 Hc1 _ Hn. destruct (negb _) eqn:E; [done|]. zbool.
    eapply dwp_mono; [by apply dwp_message_body|]. intros m c2 Hm. cbn beta.
    split; [done|]. unfold HEADER_LEN in *. lia. }
  unfold dwp in Hd. cbv zeta.
  match type of Hd with match ?x with _ => _ end => by destruct x as [[m c']|e| |] end.
Qed.

Lemma DecodesAll_body four m : msg_encodable four m ->
  exists t body, wire m = encode_framed t body /\ forall total,
    DecodesAll (decode_message_body four t total) body m.
Proof.
  intros Hm0.
  assert (Hend : forall A (d : Dec CodecError A) bs a (f : A -> BgpMessage) total,
    DecodesAll d bs a -> DecodesAll (x ← d; r ← dec_remaining;
      if negb (r =? 0)%nat then dec_err (InvalidLength total) else mret (f x)) bs (f a)).
  { intros A d bs a f total Hd c Hok Hc. destruct (Hd c Hok Hc) as (c' & E & Hr & Hok').
    exists c'. split; [|done]. unfold mbind, dec_bind, dec_remaining. rewrite E.
    by rewrite remaining_rest, Hr. }
  destruct m as [o|u|n| |r|x]; [..|done]; eexists _, _;
    (split; [reflexivity|]); intros total; cbn [decode_message_body].
  - apply (Hend _ OpenCodec.decode). by apply DecodesAll_open.
  - eapply DecodesAll_bind_ret; [by apply DecodesAll_update|apply Decodes_ret].
  - eapply DecodesAll_bind_ret; [by apply DecodesAll_notification|apply Decodes_ret].
  - intros c Hok Hc. exists c. unfold mbind, dec_bind, dec_remaining.
    by rewrite remaining_rest, Hc.
  - apply (Hend _ RouteRefreshCodec.decode). by apply DecodesAll_route_refresh.
Qed.

Lemma decode_wire four m max_len : msg_encodable four m ->
  len (wire m) <= max_len -> max_len <= MAX_LEN_EXTENDED ->
  decode_with_limit_and_caps (wire m) max_len four = Ok m.
Proof.
  intros Hm Hl Hmax. destruct (DecodesAll_body four m Hm) as (t & body & Hw & Hd).
  unfold decode_with_limit_and_caps. rewrite Hw in *.
  destruct (Decodes_framed max_len t body (fun '(msg_type, total_len) =>
    if negb (len (encode_framed t body) =? total_len) then dec_err (InvalidLength total_len)
    else decode_message_body four msg_type total_len) m Hl Hmax) with
    (c := cursor_new (encode_framed t body)) as (c' & E & _).
  - rewrite Z.eqb_refl. apply Hd.
  - unfold cok; simpl; lia.
  - done.
  - by rewrite E.
Qed.

(** ** Framing *)

(** The length field of an encoded message. *)
Lemma framed_len_bytes t body tl : len (encode_framed t body) <= MAX_LEN_EXTENDED ->
  exists b0 b1, (encode_framed t body ++ tl) !! LEN_OFFSET = Some b0
    /\ (encode_framed t body ++ tl) !! (LEN_OFFSET + 1)%nat = Some b1
    /\ from_be [b0; b1] = len (encode_framed t body).
Proof.
  intros Hl. unfold len in Hl |- *. rewrite encode_framed_length in Hl |- *.
  unfold MAX_LEN_EXTENDED in Hl.
  unfold encode_framed, encode_header.
  set (n := as_u16 (Z.of_nat (HEADER_LEN + length body))).
  assert (Hn : n = Z.of_nat (HEADER_LEN + length body)).
  { unfold n, as_u16. apply Z.mod_small. lia. }
  assert (Hu : is_u16 n) by (rewrite Hn; unfold is_u16; lia).
  pose proof (u16_be_roundtrip n Hu) as Hr. pose proof (u16_be_length n) as Hlen.
  destruct (u16_be n) as [|b0 [|b1 [|]]]; try done.
  exists b0, b1. rewrite <- Hn. split_and!; [done|done|done].
Qed.

(** A complete frame at the head of the buffer is taken and the rest is kept. *)
Lemma codec_decode_frame c m tl : msg_encodable (four_byte_asn_negotiated c) m ->
  len (wire m) <= max_msg_len c -> max_msg_len c <= MAX_LEN_EXTENDED ->
  codec_decode c (wire m ++ tl) = (Ok (Some m), tl).
Proof.
  intros Hm Hl Hmax. pose proof (decode_wire _ m _ Hm Hl Hmax) as Hd.
  destruct (DecodesAll_body _ m Hm) as (t & body & Hw & _). rewrite Hw in *.
  destruct (framed_len_bytes t body tl ltac:(lia)) as (b0 & b1 & H0 & H1 & Hlen).
  unfold codec_decode.
  assert (Hh : (HEADER_LEN <= length (encode_framed t body))%nat)
    by (rewrite encode_framed_length; lia).
  rewrite (proj2 (Nat.ltb_ge _ _)) by (rewrite length_app; lia).
  rewrite H0, H1, Hlen. cbv zeta. unfold len in *.
  rewrite (proj2 (Z.leb_le _ _)) by lia. rewrite (proj2 (Z.leb_le _ _)) by lia. cbn [andb negb].
  rewrite (proj2 (Z.ltb_ge _ _)) by (rewrite length_app; lia).
  rewrite Nat2Z.id, take_app_length, drop_app_length. by rewrite Hd.
Qed.

(** A proper prefix of a message yields nothing and is kept. *)
Lemma codec_decode_prefix c m pre : msg_encodable (four_byte_asn_negotiated c) m ->
  len (wire m) <= max_msg_len c -> max_msg_len c <= MAX_LEN_EXTENDED ->
  pre `prefix_of` wire m -> pre <> wire m -> codec_decode c pre = (Ok None, pre).
Proof.
  intros Hm Hl Hmax [suf Hp] Hne. unfold codec_decode.
  destruct (Nat.ltb_spec (length pre) HEADER_LEN) as [|Hh]; [done|].
  destruct (DecodesAll_body _ m Hm) as (t & body & Hw & _). rewrite Hw in *.
  destruct (framed_len_bytes t body [] ltac:(lia)) as (b0 & b1 & H0 & H1 & Hlen).
  rewrite app_nil_r, Hp in H0, H1.
  rewrite lookup_app_l in H0 by (unfold HEADER_LEN, LEN_OFFSET in *; lia).
  rewrite lookup_app_l in H1 by (unfold HEADER_LEN, LEN_OFFSET in *; lia).
  rewrite H0, H1, Hlen. cbv zeta.
  assert (Hlt : (length pre < length (encode_framed t body))%nat).
  { rewrite Hp, length_app. destruct suf; [|simpl; lia]. by rewrite app_nil_r in Hp. }
  unfold len in *.
  rewrite (proj2 (Z.leb_le _ _)) by lia. rewrite (proj2 (Z.leb_le _ _)) by lia. cbn [andb negb].
  by rewrite (proj2 (Z.ltb_lt _ _)) by lia.
Qed.

(** A buffer never loses bytes without a frame being produced, and decoding it
    never panics. *)
Lemma codec_decode_safe c src : bytes src -> max_msg_len c <= MAX_LEN_EXTENDED ->
  match codec_decode c src with
  | (Ok (Some m), src') => msg_ok m /\ exists frame, src = frame ++ src'
      /\ Z.of_nat HEADER_LEN <= len frame <= max_msg_len c
  | (Ok None, src') => src' = src
  | (Err _, _) => True
  | (Panic, _) | (OutOfFuel, _) => False
  end.
Proof.
  intros Hb Hmax. unfold codec_decode.
  destruct (Nat.ltb_spec (length src) HEADER_LEN) as [|Hh]; [done|].
  destruct (lookup_lt_is_Some_2 src LEN_OFFSET) as [b0 H0];
    [unfold HEADER_LEN, LEN_OFFSET in *; lia|].
  destruct (lookup_lt_is_Some_2 src (LEN_OFFSET + 1)) as [b1 H1];
    [unfold HEADER_LEN, LEN_OFFSET in *; lia|].
  rewrite H0, H1. cbv zeta. destruct (negb _) eqn:E; [done|]. zbool.
  destruct (Z.ltb_spec (len src) (from_be [b0; b1])) as [|Hlen]; [done|].
  pose proof (decode_safe (take (Z.to_nat (from_be [b0; b1])) src) (max_msg_len c)
    (four_byte_asn_negotiated c) ltac:(by apply Forall_take) Hmax) as Hs.
  destruct (decode_with_limit_and_caps _ _ _) as [m|e| |]; try done.
  cbn. destruct Hs as [Hm Hl]. split; [done|]. eexists. by rewrite take_drop.
Qed.

End MessageFacts.
