(* ===== verification/CodecTheorems.v ===== *)
(** The wire codec's theorems: totality and well-formedness of decoding, round
    trips, stream reassembly, the RFC 7606 error handling, and the places where
    the codec does not do what it means to. *)
From Stdlib Require Import ZArith Lia Bool.
From stdpp Require Import base tactics numbers decidable strings list.
From S2P Require Import Prelude Addr Types AsPath Wire Header Notification Open Update.
From S2P Require Import UpdateFacts UpdateRoundtrip Rfc7606 Message.
Open Scope Z_scope.

(** ** The receive loop around [codec_decode], as its callers drive it: bytes are
    appended as they arrive and frames are taken until none is complete. *)
Section Stream.
Context `{P : IpPrefixOps}.

Fixpoint drain (fuel : nat) (c : BgpCodec) (buf : list Z) : list BgpMessage * list Z :=
  match fuel with
  | O => ([], buf)
  | S fuel' =>
      match codec_decode c buf with
      | (Ok (Some m), buf') => let '(ms, b) := drain fuel' c buf' in (m :: ms, b)
      | (_, buf') => ([], buf')
      end
  end.

Definition receive_chunk (c : BgpCodec) (st : list BgpMessage * list Z) (chunk : list Z)
    : list BgpMessage * list Z :=
  let buf := snd st ++ chunk in
  let '(ms, b) := drain (S (length buf)) c buf in (fst st ++ ms, b).

Definition receive (c : BgpCodec) (chunks : list (list Z)) : list BgpMessage * list Z :=
  foldl (receive_chunk c) ([], []) chunks.

(** Messages this codec can carry. *)
Definition sendable (c : BgpCodec) (m : BgpMessage) : Prop :=
  msg_encodable (four_byte_asn_negotiated c) m /\ len (wire m) <= max_msg_len c.
End Stream.

Section StreamFacts.
Context `{P : IpPrefixOps} {L : IpPrefixLaws}.

Lemma wire_long m : (HEADER_LEN <= length (wire m))%nat.
Proof. destruct m; cbn [wire]; rewrite encode_framed_length; lia. Qed.

Lemma drain_spec c fuel ms buf suffix : max_msg_len c <= MAX_LEN_EXTENDED ->
  Forall (sendable c) ms -> buf ++ suffix = concat (map wire ms) ->
  (length buf < fuel)%nat ->
  exists ms1 ms2 buf', drain fuel c buf = (ms1, buf') /\ ms = ms1 ++ ms2
    /\ buf' ++ suffix = concat (map wire ms2)
    /\ match ms2 with [] => buf' = [] | m :: _ => (length buf' < length (wire m))%nat end.
Proof.
  intros Hmax. revert ms buf. induction fuel as [|fuel IH]; intros ms buf Hs Hbuf Hf; [lia|].
  cbn [drain]. destruct ms as [|m ms].
  { simpl in Hbuf. apply app_nil in Hbuf as [-> ->].
    exists [], [], []. split_and!; done. }
  inversion_clear Hs as [|? ? [Hm Hl] Hs']. simpl in Hbuf.
  destruct (Nat.lt_ge_cases (length buf) (length (wire m))) as [Hlt|Hge].
  - assert (Hpre : buf `prefix_of` wire m).
    { exists (drop (length buf) (wire m)).
      rewrite <- (take_drop (length buf) (wire m)) at 1. f_equal.
      rewrite <- (take_app_le (wire m) (concat (map wire ms))) by lia.
      rewrite <- Hbuf. apply take_app_length. }
    rewrite (codec_decode_prefix c m buf Hm Hl Hmax Hpre) by (intros ->; lia).
    exists [], (m :: ms), buf. by split_and!.
  - assert (buf = wire m ++ drop (length (wire m)) buf) as Hb.
    { rewrite <- (take_drop (length (wire m)) buf) at 1. f_equal.
      rewrite <- (take_app_le buf suffix) by lia. rewrite Hbuf. apply take_app_length. }
    rewrite Hb, (codec_decode_frame c m _ Hm Hl Hmax).
    pose proof (wire_long m).
    destruct (IH ms (drop (length (wire m)) buf)) as (ms1 & ms2 & buf' & Hd & Hms & Hr & Hend).
    + done.
    + rewrite Hb, <- app_assoc in Hbuf. by apply app_inv_head in Hbuf.
    + rewrite length_drop. unfold HEADER_LEN in *. lia.
    + rewrite Hd. exists (m :: ms1), ms2, buf'. split_and!; [done|by rewrite Hms|done|done].
Qed.

Lemma receive_spec c chunks : max_msg_len c <= MAX_LEN_EXTENDED ->
  forall out ms buf, Forall (sendable c) ms -> buf ++ concat chunks = concat (map wire ms) ->
  match ms with [] => buf = [] | m :: _ => (length buf < length (wire m))%nat end ->
  foldl (receive_chunk c) (out, buf) chunks = (out ++ ms, []).
Proof.
  intros Hmax. induction chunks as [|ch chunks IH]; intros out ms buf Hs Hbuf Hend; simpl in *.
  - rewrite app_nil_r in Hbuf. destruct ms as [|m ms]; [by rewrite Hend, app_nil_r|].
    subst buf. simpl in Hend. rewrite length_app in Hend. lia.
  - unfold receive_chunk at 2. cbn [fst snd]. rewrite app_assoc in Hbuf.
    destruct (drain_spec c (S (length (buf ++ ch))) ms (buf ++ ch) (concat chunks) Hmax Hs Hbuf
      ltac:(lia)) as (ms1 & ms2 & buf' & -> & -> & Hr & Hend').
    apply Forall_app in Hs as [_ Hs2]. by rewrite (IH _ ms2), <- app_assoc.
Qed.
End StreamFacts.

(** ** Properties *)

(** C10: the decoder is total on every byte string: it never panics (no index out
    of bounds, no failed conversion) and its loops terminate; whatever it accepts
    is a well-formed message (every field within its machine width, prefixes in
    canonical form, attribute type codes pairwise distinct, the error report of a
    malformed UPDATE non-empty and consistent with its two flags) and the buffer
    has a legal message length. *)
Theorem decode_total `{P : IpPrefixOps} {L : IpPrefixLaws} buf max_len four :
  bytes buf -> max_len <= MAX_LEN_EXTENDED ->
  returns (decode_with_limit_and_caps buf max_len four) = true
  /\ forall m, decode_with_limit_and_caps buf max_len four = Ok m ->
       msg_ok m /\ Z.of_nat HEADER_LEN <= len buf <= max_len.
Proof.
  intros Hb Hmax. pose proof (decode_safe buf max_len four Hb Hmax) as H.
  destruct (decode_with_limit_and_caps buf max_len four) as [m|e| |]; try done.
  split; [done|]. by intros m' [= <-].
Qed.

Definition keepalive_bytes : list Z := replicate 16 255 ++ [0; 19; 4].

Lemma decode_total_witness :
  returns (decode_with_limit_and_caps (P:=ModelPrefix.ops) keepalive_bytes 4096 true) = true
  /\ forall m, decode_with_limit_and_caps (P:=ModelPrefix.ops) keepalive_bytes 4096 true = Ok m ->
       msg_ok m /\ Z.of_nat HEADER_LEN <= len keepalive_bytes <= 4096.
Proof.
  refine (decode_total (P:=ModelPrefix.ops) (L:=ModelPrefix.laws) keepalive_bytes 4096 true _ _).
  - repeat constructor; vm_compute; congruence.
  - unfold MAX_LEN_EXTENDED. lia.
Defined.

(** C9: every message that meets the conditions of the encoding is encoded without
    panic and decodes to itself, under any size limit it fits. The conditions
    [msg_encodable] are: every field of OPEN, NOTIFICATION and ROUTE-REFRESH within
    its width and its length field; for an UPDATE, prefixes without host bits,
    pairwise distinct attributes, each with fields of their widths and a value of at
    most 65535 bytes, AGGREGATOR only with four-octet AS numbers, and an unknown
    attribute optional, with the Partial bit if it is transitive and the Extended
    Length bit exactly if its value is longer than 255 bytes. A message the daemon
    passes on may lack the last one ([unknown_ext_len_corrupts]). *)
Theorem message_roundtrip `{P : IpPrefixOps} {L : IpPrefixLaws} four m max_len :
  msg_encodable four m -> len (wire m) <= max_len -> max_len <= MAX_LEN_EXTENDED ->
  exists bs, message_encode m = Ok bs /\ decode_with_limit_and_caps bs max_len four = Ok m.
Proof.
  intros Hm Hl Hmax. exists (wire m). split; [by apply (message_encode_wire four)|].
  by apply decode_wire.
Qed.

(** An UPDATE announcing 10.0.0.0/8 with ORIGIN, AS_PATH, NEXT_HOP and a community. *)
Definition sample_nlri : Nlri (P:=ModelPrefix.ops) FamV4 := ModelPrefix.nlri FamV4 167772160 8 eq_refl.
Definition sample_update : UpdateMessage (P:=ModelPrefix.ops) :=
  mkUpdate [] [PaOrigin Igp; PaAsPath [Sequence [65001; 65002]]; PaNextHop 167772161;
               PaCommunities [4259840100]]
    [sample_nlri].

Lemma sample_attrs_ok : Forall (fun a => pa_ok a /\ is_u8 (type_code a)
  /\ aggregator_ok true a /\ attr_fits a) (attributes sample_update).
Proof.
  assert (Hu : forall v, 0 <= v < 4294967296 -> is_u32 v) by done.
  assert (H8 : forall v, 0 <= v < 256 -> is_u8 v) by done.
  cbn [attributes sample_update]. repeat apply Forall_cons_2; [..|apply Forall_nil_2];
    (split; [cbn [pa_ok]|split; [apply H8; vm_compute; split; congruence|
      split; [exact I|split; [vm_compute; discriminate|exact I]]]]).
  - exact I.
  - apply Forall_cons_2; [|apply Forall_nil_2]. split; [simpl; lia|]. simpl.
    repeat apply Forall_cons_2; [..|apply Forall_nil_2]; apply Hu; lia.
  - apply Hu. lia.
  - repeat apply Forall_cons_2; [..|apply Forall_nil_2]; apply Hu; lia.
Qed.

Lemma sample_encodable : update_encodable true sample_update.
Proof.
  split; [constructor|]. split; [|split; [split; [exact sample_attrs_ok|]|]].
  - exact (Forall_cons_2 _ _ _ (ModelPrefix.nlri_canonical FamV4 167772160 8 eq_refl eq_refl)
             (Forall_nil_2 _)).
  - cbn [map attributes sample_update type_code].
    repeat (apply NoDup_cons_2; [rewrite ?elem_of_cons, ?elem_of_nil;
      unfold ATTR_ORIGIN, ATTR_AS_PATH, ATTR_NEXT_HOP, ATTR_COMMUNITY; lia|]).
    apply NoDup_nil_2.
  - vm_compute. discriminate.
Qed.

Lemma message_roundtrip_witness :
  exists bs, message_encode (BmUpdate sample_update) = Ok bs
  /\ decode_with_limit_and_caps bs 4096 true = Ok (BmUpdate sample_update).
Proof.
  refine (message_roundtrip (P:=ModelPrefix.ops) (L:=ModelPrefix.laws) true
    (BmUpdate sample_update) 4096 sample_encodable _ _).
  - vm_compute. discriminate.
  - vm_compute. discriminate.
Defined.

(** However the transport splits the byte stream, the receive loop returns
    exactly the messages that were encoded into it, in order, with nothing left
    in the buffer. *)
Theorem stream_reassembly `{P : IpPrefixOps} {L : IpPrefixLaws} c ms chunks :
  max_msg_len c <= MAX_LEN_EXTENDED -> Forall (sendable c) ms ->
  concat chunks = concat (map wire ms) -> receive c chunks = (ms, []).
Proof.
  intros Hmax Hs Hc. unfold receive. apply (receive_spec c chunks Hmax [] ms []); [done|done|].
  destruct ms as [|m ms]; [done|]. pose proof (wire_long m). unfold HEADER_LEN in *. simpl. lia.
Qed.

(** Two keepalives around an UPDATE, cut at three arbitrary places. *)
Definition sample_stream : list Z :=
  concat (map wire [BmKeepalive; BmUpdate sample_update; BmKeepalive]).
Lemma stream_reassembly_witness :
  receive codec_new [take 5 sample_stream; take 30 (drop 5 sample_stream);
                     take 10 (drop 35 sample_stream); drop 45 sample_stream]
  = ([BmKeepalive; BmUpdate sample_update; BmKeepalive], []).
Proof.
  refine (stream_reassembly (P:=ModelPrefix.ops) (L:=ModelPrefix.laws) codec_new _ _ _ _ _).
  - vm_compute. discriminate.
  - assert (Hk : sendable (P:=ModelPrefix.ops) codec_new BmKeepalive)
      by (split; [exact I|vm_compute; discriminate]).
    assert (Hu : sendable codec_new (BmUpdate sample_update))
      by (split; [exact sample_encodable|vm_compute; discriminate]).
    exact (Forall_cons_2 _ _ _ Hk (Forall_cons_2 _ _ _ Hu (Forall_cons_2 _ _ _ Hk (Forall_nil_2 _)))).
  - vm_compute. reflexivity.
Defined.


(** ORIGIN, then a second ORIGIN, then a well-known type 99. *)
Definition sample_tlvs : list Tlv :=
  [mkTlv 0x40 1 [0]; mkTlv 0x40 1 [2]; mkTlv 0x40 99 [7]].
Definition sample_errors : list AttributeDecodeError :=
  [mkAttributeDecodeError 1 AttributeDiscard "duplicate attribute type code";
   mkAttributeDecodeError 99
     (SessionReset (NeUpdateMessage UnrecognizedWellKnownAttribute) [99; 1; 7])
     "unrecognized well-known attribute (Optional bit not set)"].
Lemma sample_tlvs_spec `{P : IpPrefixOps} :
  ([PaOrigin Igp], sample_errors) = attributes_spec true sample_tlvs.
Proof. vm_compute. reflexivity. Qed.
Lemma sample_tlvs_wf : Forall tlv_wf sample_tlvs.
Proof.
  repeat apply Forall_cons_2; [..|apply Forall_nil_2];
    (split; [split; vm_compute; congruence|split; [split; vm_compute; congruence|
      split; [repeat constructor; vm_compute; congruence|vm_compute; congruence]]]).
Qed.

(** An OPEN that was received can be sent again: every OPEN the decoder
    accepts, whatever its optional parameters looked like, is re-encoded in one
    parameter of at most 255 bytes and reads back as the same OPEN. *)
Theorem open_reencode `{P : IpPrefixOps} {L : IpPrefixLaws} buf max_len four o :
  bytes buf -> max_len <= MAX_LEN_EXTENDED ->
  decode_with_limit_and_caps buf max_len four = Ok (BmOpen o) ->
  decode_with_limit_and_caps (OpenCodec.encode o) MAX_LEN four = Ok (BmOpen o).
Proof.
  intros Hb Hmax E. pose proof (decode_safe buf max_len four Hb Hmax) as H. rewrite E in H.
  destruct H as [Hwf _]. apply (decode_wire four (BmOpen o)); [done| |done].
  cbn [wire]. unfold len. rewrite encode_framed_length. pose proof (open_body_length o Hwf).
  unfold MAX_LEN, HEADER_LEN. lia.
Qed.

(** Two optional parameters with a capability each, and trailing bytes inside the
    Graceful Restart capability. *)
Definition sample_open_bytes : list Z :=
  replicate 16 255 ++ [0; 46; 1; 4; 253; 232; 0; 90; 10; 0; 0; 1; 17;
    2; 6; 65; 4; 0; 0; 253; 232; 2; 7; 64; 5; 64; 120; 1; 2; 3].
Definition sample_open : OpenMessage :=
  mkOpen 4 65000 90 167772161 [CapFourByteAsn 65000; CapGracefulRestart 4 120 []].
Lemma sample_open_decodes `{P : IpPrefixOps} :
  decode_with_limit_and_caps sample_open_bytes 4096 true = Ok (BmOpen sample_open).
Proof. vm_compute. reflexivity. Qed.
Lemma open_reencode_witness :
  decode_with_limit_and_caps (P:=ModelPrefix.ops) (OpenCodec.encode sample_open) MAX_LEN true
  = Ok (BmOpen sample_open).
Proof.
  refine (open_reencode (P:=ModelPrefix.ops) (L:=ModelPrefix.laws) sample_open_bytes 4096 true
    sample_open _ _ _).
  - repeat constructor; vm_compute; congruence.
  - unfold MAX_LEN_EXTENDED. lia.
  - exact sample_open_decodes.
Defined.

(** NOTIFICATION error codes survive decoding: every (code, subcode) pair is
    re-encoded unchanged, except that the subcode of Hold Timer Expired and the
    unassigned subcodes of FSM Error become 0; and every error value a decoder
    can produce is read back from its codes. *)
Theorem notification_codes :
  (forall c s, NotificationErrorOps.as_codes (NotificationErrorOps.from_codes c s)
     = (c, if (c =? 4) || ((c =? 5) && negb ((1 <=? s) && (s <=? 3))) then 0 else s))
  /\ (forall c s, is_u8 c -> is_u8 s ->
        let e := NotificationErrorOps.from_codes c s in
        NotificationErrorOps.from_codes (fst (NotificationErrorOps.as_codes e))
          (snd (NotificationErrorOps.as_codes e)) = e).
Proof.
  split; [apply as_codes_from_codes|]. intros c s Hc Hs e.
  pose proof (from_codes_as_codes e (from_codes_wf c s Hc Hs)) as H.
  by destruct (NotificationErrorOps.as_codes e).
Qed.

(** An RFC 9003 shutdown text of at most 128 bytes is recovered by the peer;
    longer texts are cut at byte 128, and when that splits a UTF-8 character the
    encoded field is not valid UTF-8 and decodes to nothing at all. *)
Theorem shutdown_text :
  (forall msg, Shutdown.utf8_valid msg = true -> (length msg <= 128)%nat ->
     Shutdown.decode_shutdown_message (Shutdown.encode_shutdown_message msg) = Some msg)
  /\ (exists msg, Shutdown.utf8_valid msg = true
        /\ Shutdown.decode_shutdown_message (Shutdown.encode_shutdown_message msg) = None).
Proof.
  split.
  - intros msg Hv Hl. rewrite shutdown_decode_encode, take_ge by lia. by rewrite Hv.
  - exists (replicate 127 97 ++ [0xC3; 0xA9]). split; [vm_compute; reflexivity|].
    rewrite shutdown_decode_encode. vm_compute. reflexivity.
Qed.

(** Re-sending an unrecognized attribute that arrived with the Extended Length
    bit and a value of at most 255 bytes corrupts the UPDATE: the flag byte keeps
    the bit while the length is written in one byte, so the peer's decoder fails
    structurally (session reset). *)
Theorem unknown_ext_len_corrupts `{P : IpPrefixOps} :
  exists buf u, bytes buf /\ decode_with_limit_and_caps buf MAX_LEN true = Ok (BmUpdate u)
    /\ exists bs e, message_encode (BmUpdate u) = Ok bs
    /\ decode_with_limit_and_caps bs MAX_LEN true = Err e.
Proof.
  exists (replicate 16 255 ++ [0; 28; 2; 0; 0; 0; 5; 0xD0; 99; 0; 1; 7]),
    (mkUpdate [] [PaUnknown 0xD0 99 [7]] []).
  split; [repeat constructor; vm_compute; congruence|]. split; [vm_compute; reflexivity|].
  eexists _, _. split; [reflexivity|]. vm_compute. reflexivity.
Qed.

(** When the 4-octet AS capability was not negotiated, a conforming 2-octet
    AS_PATH (one AS_SEQUENCE of one 2-byte AS number) is nevertheless parsed as
    4-byte numbers: the UPDATE is reported malformed and its routes withdrawn. *)
Theorem two_octet_as_path_withdrawn `{P : IpPrefixOps} asn :
  attributes_spec false [mkTlv FLAGS_WKM ATTR_AS_PATH ([SEG_SEQUENCE; 1] ++ u16_be asn)]
  = ([], [mkAttributeDecodeError ATTR_AS_PATH TreatAsWithdraw
            "truncated ASN in AS_PATH segment"]).
Proof.
  destruct (u16_be asn) as [|b0 [|b1 [|]]] eqn:E;
    pose proof (u16_be_length asn) as Hl; rewrite E in Hl; try done.
Qed.
