(* ===== verification/Fsm.v ===== *)
(** The BGP session state machine ([pathvector-session/src/fsm/mod.rs]).

    [process] is the source's [Fsm::process]: one handler per state, each mapping
    an input to the next machine and the ordered list of actions the transport
    executes.  Durations are seconds. *)
From Stdlib Require Import ZArith Lia Bool.
From stdpp Require Import base tactics numbers decidable list.
From S2P Require Import Prelude Addr Types AsPath Wire Header Notification Open Update Message.
Open Scope Z_scope.

Definition AS_TRANS : Z := 23456.
Definition OPEN_HOLD_TIMER : Z := 240.
Definition CONNECT_RETRY_INTERVAL : Z := 120.

Record FsmConfig := mkFsmConfig {
  cfg_local_as : Z;
  cfg_public_as : Z;
  cfg_local_bgp_id : Z;
  cfg_hold_time : Z;
  cfg_capabilities : list Capability;
  cfg_required_capabilities : list Capability;
  cfg_peer_as : option Z;
  cfg_confederation_member : bool;
}.

Inductive State := Idle | Connect | Active | OpenSent | OpenConfirm | Established.
#[export] Instance State_eq_dec : EqDecision State.
Proof. solve_decision. Defined.

Record SessionInfo := mkSessionInfo {
  si_peer_as : Z;
  si_peer_bgp_id : Z;
  si_hold_time : Z;
  si_peer_capabilities : list Capability;
  si_peer_type : PeerType;
  si_local_addr : option IpAddr;
}.

(** ** Capability and AS extraction *)
Definition encode_unsupported_capabilities (caps : list Capability) : list Z :=
  concat (map (fun cap =>
    let value := OpenCodec.encode_capability_value cap in
    [OpenCodec.code cap] ++ [as_u8 (len value)] ++ value) caps).

Definition resolve_as (open : OpenMessage) : Z :=
  match find_map (fun cap => match cap with CapFourByteAsn n => Some n | _ => None end)
          (capabilities open) with
  | Some n => n
  | None => my_as open
  end.

Definition hold_duration (hold_time : Z) : Z := hold_time.
Definition keepalive_interval (hold_time : Z) : Z := hold_time / 3.

Definition cap_role (c : Capability) : option Role :=
  match c with CapRole r => Some r | _ => None end.

Section Fsm.
Context `{P : IpPrefixOps}.

Inductive FsmInput :=
| ManualStart
| ManualStop
| ConnectRetryTimerExpired
| InHoldTimerExpired
| KeepaliveTimerExpired
| TcpConnected
| TcpFailed
| CollisionDetected
| MessageReceived (m : BgpMessage)
| NotificationToSend (n : NotificationMessage)
| ProtocolErrorNotificationToSend (n : NotificationMessage).

Inductive FsmOutput :=
| InitiateTcpConnect
| CloseTcpConnection
| SendMessage (m : BgpMessage)
| StartConnectRetryTimer (d : Z)
| StopConnectRetryTimer
| StartHoldTimer (d : Z)
| StopHoldTimer
| StartKeepaliveTimer (d : Z)
| StopKeepaliveTimer
| SessionEstablished (i : SessionInfo)
| SessionTerminated
| RouteUpdate (u : UpdateMessage).

Record Fsm := mkFsm {
  fsm_state : State;
  fsm_config : FsmConfig;
  fsm_peer_open : option OpenMessage;
  fsm_negotiated_hold_time : Z;
}.

Definition fsm_new (config : FsmConfig) : Fsm := mkFsm Idle config None 0.

(** Field assignments *)
Definition set_state (f : Fsm) (s : State) : Fsm :=
  mkFsm s (fsm_config f) (fsm_peer_open f) (fsm_negotiated_hold_time f).
(** [self.peer_open = None; self.negotiated_hold_time = 0; self.state = s] *)
Definition clear_session (f : Fsm) (s : State) : Fsm := mkFsm s (fsm_config f) None 0.

Definition is_established (f : Fsm) : bool := bool_decide (fsm_state f = Established).
Definition set_capabilities (f : Fsm) (caps : list Capability) : Fsm :=
  let c := fsm_config f in
  mkFsm (fsm_state f)
    (mkFsmConfig (cfg_local_as c) (cfg_public_as c) (cfg_local_bgp_id c) (cfg_hold_time c) caps
       (cfg_required_capabilities c) (cfg_peer_as c) (cfg_confederation_member c))
    (fsm_peer_open f) (fsm_negotiated_hold_time f).
Definition peer_bgp_id (f : Fsm) : option Z :=
  match fsm_peer_open f with Some o => Some (bgp_id o) | None => None end.
Definition peer_has_graceful_restart (f : Fsm) : bool :=
  match fsm_peer_open f with
  | Some o => existsb (fun c => match c with CapGracefulRestart _ _ _ => true | _ => false end)
                (capabilities o)
  | None => false
  end.

Definition make_open (f : Fsm) : OpenMessage :=
  let c := fsm_config f in
  mkOpen 4 (if 65535 <? cfg_public_as c then AS_TRANS else as_u16 (cfg_public_as c))
    (cfg_hold_time c) (cfg_local_bgp_id c) (cfg_capabilities c).

(** [Result<u16, (NotificationError, Vec<u8>)>] is [inl] for [Ok], [inr] for [Err]. *)

(** The peer's single role value; [inr tt] when it advertised differing ones. *)
Definition peer_role_of (caps : list Capability) : option Role + unit :=
  match omap cap_role caps with
  | [] => inl None
  | first :: rest => if forallb (fun r => bool_decide (r = first)) rest
                     then inl (Some first) else inr tt
  end.

Definition validate_open (f : Fsm) (peer : OpenMessage)
    : Z + (NotificationError * list Z) :=
  let c := fsm_config f in
  let err e := inr (NeOpenMessage e, []) in
  if negb (version peer =? 4) then err UnsupportedVersionNumber
  else if (bgp_id peer =? Ipv4.UNSPECIFIED) || Ipv4.is_multicast (bgp_id peer)
          || (bgp_id peer =? Ipv4.BROADCAST) then err BadBgpIdentifier
  else if (resolve_as peer =? cfg_local_as c) && (bgp_id peer =? cfg_local_bgp_id c)
  then err BadBgpIdentifier
  else if match cfg_peer_as c with
          | Some expected => negb (resolve_as peer =? expected)
          | None => false
          end then err BadPeerAs
  else if (hold_time peer =? 1) || (hold_time peer =? 2) then err UnacceptableHoldTime
  else
    let unsupported := List.filter (fun req =>
      negb (existsb (fun c => OpenCodec.code c =? OpenCodec.code req) (capabilities peer)))
      (cfg_required_capabilities c) in
    match unsupported with
    | _ :: _ => inr (NeOpenMessage UnsupportedCapability,
                     encode_unsupported_capabilities unsupported)
    | [] =>
        let local_role := find_map cap_role (cfg_capabilities c) in
        match peer_role_of (capabilities peer) with
        | inr _ => err RoleMismatch
        | inl peer_role =>
            if match local_role, peer_role with
               | Some local, Some peer_role => negb (RoleOps.is_compatible_with local peer_role)
               | _, _ => false
               end
            then err RoleMismatch
            else inl (if (cfg_hold_time c =? 0) || (hold_time peer =? 0) then 0
                     else Z.min (cfg_hold_time c) (hold_time peer))
        end
    end.

Definition build_session_info (f : Fsm) : option SessionInfo :=
  match fsm_peer_open f with
  | None => None
  | Some peer =>
      let peer_as := resolve_as peer in
      let peer_type :=
        if peer_as =? cfg_local_as (fsm_config f) then Internal
        else if cfg_confederation_member (fsm_config f) then ConfedMember
        else External in
      Some (mkSessionInfo peer_as (bgp_id peer) (fsm_negotiated_hold_time f)
              (capabilities peer) peer_type None)
  end.

(** ** Shared sub-routines *)
Definition send_notification (e : NotificationError) (data : list Z) : FsmOutput :=
  SendMessage (BmNotification (mkNotification e data)).

Definition push_timer_actions (negotiated : Z) : list FsmOutput :=
  if 0 <? negotiated then
    [StartHoldTimer (hold_duration negotiated);
     StartKeepaliveTimer (keepalive_interval negotiated)]
  else [StopHoldTimer; StopKeepaliveTimer].

Definition reset_hold_if_active (f : Fsm) : list FsmOutput :=
  if 0 <? fsm_negotiated_hold_time f
  then [StartHoldTimer (hold_duration (fsm_negotiated_hold_time f))] else [].

Definition do_tcp_connected (f : Fsm) : Fsm * list FsmOutput :=
  (set_state f OpenSent,
   [StopConnectRetryTimer; SendMessage (BmOpen (make_open f)); StartHoldTimer OPEN_HOLD_TIMER]).

Definition do_stop_pre_open (f : Fsm) : Fsm * list FsmOutput :=
  (set_state f Idle, [StopConnectRetryTimer; CloseTcpConnection]).

(** The KeepaliveTimerExpired arm, shared by OpenConfirm and Established. *)
Definition on_keepalive_timer (f : Fsm) : Fsm * list FsmOutput :=
  (f, SendMessage BmKeepalive ::
      (if 0 <? fsm_negotiated_hold_time f
       then [StartKeepaliveTimer (keepalive_interval (fsm_negotiated_hold_time f))] else [])).

(** ** Per-state handlers *)
Definition on_idle (f : Fsm) (input : FsmInput) : Fsm * list FsmOutput :=
  match input with
  | ManualStart | ConnectRetryTimerExpired =>
      (set_state f Connect, [StartConnectRetryTimer CONNECT_RETRY_INTERVAL; InitiateTcpConnect])
  | _ => (f, [])
  end.

Definition on_connect (f : Fsm) (input : FsmInput) : Fsm * list FsmOutput :=
  match input with
  | TcpConnected => do_tcp_connected f
  | TcpFailed => (set_state f Active, [StartConnectRetryTimer CONNECT_RETRY_INTERVAL])
  | ConnectRetryTimerExpired =>
      (f, [InitiateTcpConnect; StartConnectRetryTimer CONNECT_RETRY_INTERVAL])
  | ManualStop => do_stop_pre_open f
  | _ => (f, [])
  end.

Definition on_active (f : Fsm) (input : FsmInput) : Fsm * list FsmOutput :=
  match input with
  | TcpConnected => do_tcp_connected f
  | ConnectRetryTimerExpired =>
      (set_state f Connect, [InitiateTcpConnect; StartConnectRetryTimer CONNECT_RETRY_INTERVAL])
  | ManualStop => do_stop_pre_open f
  | _ => (f, [])
  end.

Definition on_open_sent (f : Fsm) (input : FsmInput) : Fsm * list FsmOutput :=
  match input with
  | MessageReceived (BmOpen peer_open) =>
      match validate_open f peer_open with
      | inl negotiated =>
          (mkFsm OpenConfirm (fsm_config f) (Some peer_open) negotiated,
              SendMessage BmKeepalive :: push_timer_actions negotiated)
      | inr (err, data) =>
          (set_state f Idle, [send_notification err data; StopHoldTimer; CloseTcpConnection])
      end
  | MessageReceived (BmNotification _) =>
      (set_state f Idle,
          [StopHoldTimer; CloseTcpConnection; StartConnectRetryTimer CONNECT_RETRY_INTERVAL])
  | TcpFailed =>
      (set_state f Active, [StopHoldTimer; StartConnectRetryTimer CONNECT_RETRY_INTERVAL])
  | InHoldTimerExpired =>
      (set_state f Idle,
          [send_notification HoldTimerExpired []; CloseTcpConnection;
           StartConnectRetryTimer CONNECT_RETRY_INTERVAL])
  | ManualStop =>
      (set_state f Idle,
          [StopHoldTimer; send_notification (Cease AdministrativeShutdown) [];
           CloseTcpConnection])
  | CollisionDetected =>
      (mkFsm Active (fsm_config f) None (fsm_negotiated_hold_time f),
          [StopHoldTimer; send_notification (Cease ConnectionCollisionResolution) [];
           CloseTcpConnection])
  | MessageReceived _ =>
      (set_state f Idle,
          [send_notification FsmErrorOpenSent []; StopHoldTimer; CloseTcpConnection])
  | _ => (f, [])
  end.

Definition on_open_confirm (f : Fsm) (input : FsmInput) : Fsm * list FsmOutput :=
  match input with
  | MessageReceived BmKeepalive =>
      match build_session_info f with
      | None => (set_state f Idle, [StopHoldTimer; StopKeepaliveTimer; CloseTcpConnection])
      | Some info =>
          (set_state f Established,
           SessionEstablished info ::
           (if 0 <? fsm_negotiated_hold_time f then
              [StartHoldTimer (hold_duration (fsm_negotiated_hold_time f));
               StartKeepaliveTimer (keepalive_interval (fsm_negotiated_hold_time f))]
            else []))
      end
  | MessageReceived (BmNotification _) | TcpFailed =>
      (clear_session f Idle,
       [StopHoldTimer; StopKeepaliveTimer; CloseTcpConnection; SessionTerminated;
        StartConnectRetryTimer CONNECT_RETRY_INTERVAL])
  | KeepaliveTimerExpired => on_keepalive_timer f
  | InHoldTimerExpired =>
      (set_state f Idle,
       [send_notification HoldTimerExpired []; StopKeepaliveTimer; CloseTcpConnection;
        StartConnectRetryTimer CONNECT_RETRY_INTERVAL])
  | ManualStop =>
      (set_state f Idle,
       [StopHoldTimer; StopKeepaliveTimer; send_notification (Cease AdministrativeShutdown) [];
        CloseTcpConnection])
  | CollisionDetected =>
      (clear_session f Active,
       [StopHoldTimer; StopKeepaliveTimer;
        send_notification (Cease ConnectionCollisionResolution) []; CloseTcpConnection])
  | MessageReceived _ =>
      (set_state f Idle,
       [send_notification FsmErrorOpenConfirm []; StopHoldTimer; StopKeepaliveTimer;
        CloseTcpConnection])
  | _ => (f, [])
  end.

Definition has_route_refresh (caps : list Capability) : bool :=
  existsb (fun c => bool_decide (c = CapRouteRefresh)) caps.

Definition on_established (f : Fsm) (input : FsmInput) : Fsm * list FsmOutput :=
  match input with
  | MessageReceived BmKeepalive => (f, reset_hold_if_active f)
  | MessageReceived (BmUpdate update) => (f, reset_hold_if_active f ++ [RouteUpdate update])
  | MessageReceived (BmNotification _) | TcpFailed =>
      (clear_session f Idle,
       [StopHoldTimer; StopKeepaliveTimer; CloseTcpConnection; SessionTerminated;
        StartConnectRetryTimer CONNECT_RETRY_INTERVAL])
  | KeepaliveTimerExpired => on_keepalive_timer f
  | InHoldTimerExpired =>
      (set_state f Idle,
       [send_notification HoldTimerExpired []; StopKeepaliveTimer; CloseTcpConnection;
        SessionTerminated; StartConnectRetryTimer CONNECT_RETRY_INTERVAL])
  | ManualStop =>
      (set_state f Idle,
       [StopHoldTimer; StopKeepaliveTimer; send_notification (Cease AdministrativeShutdown) [];
        CloseTcpConnection; SessionTerminated])
  | MessageReceived (BmRouteRefresh _) =>
      let negotiated :=
        match fsm_peer_open f with
        | Some o => has_route_refresh (capabilities o)
        | None => false
        end && has_route_refresh (cfg_capabilities (fsm_config f)) in
      if negotiated then (f, [])
      else (set_state f Idle,
            [send_notification FsmErrorEstablished []; StopHoldTimer; StopKeepaliveTimer;
             CloseTcpConnection; SessionTerminated])
  | MessageReceived _ =>
      (set_state f Idle,
       [send_notification FsmErrorEstablished []; StopHoldTimer; StopKeepaliveTimer;
        CloseTcpConnection; SessionTerminated])
  | CollisionDetected =>
      (clear_session f Connect,
       [StopHoldTimer; StopKeepaliveTimer; CloseTcpConnection; SessionTerminated;
        StartConnectRetryTimer CONNECT_RETRY_INTERVAL])
  | NotificationToSend msg =>
      (set_state f Idle,
       [StopHoldTimer; StopKeepaliveTimer; SendMessage (BmNotification msg);
        CloseTcpConnection; SessionTerminated])
  | ProtocolErrorNotificationToSend msg =>
      (set_state f Idle,
       [StopHoldTimer; StopKeepaliveTimer; SendMessage (BmNotification msg);
        CloseTcpConnection; SessionTerminated; StartConnectRetryTimer CONNECT_RETRY_INTERVAL])
  | _ => (f, [])
  end.

Definition process (f : Fsm) (input : FsmInput) : Fsm * list FsmOutput :=
  match fsm_state f with
  | Idle => on_idle f input
  | Connect => on_connect f input
  | Active => on_active f input
  | OpenSent => on_open_sent f input
  | OpenConfirm => on_open_confirm f input
  | Established => on_established f input
  end.

(** ** Runs

    A run interleaves inputs with the capability replacement the transport may
    perform; its trace records the inputs and the actions in order. *)
Definition Event : Type := FsmInput + FsmOutput.

Inductive reach (cfg : FsmConfig) : Fsm -> list Event -> Prop :=
| reach_init : reach cfg (fsm_new cfg) []
| reach_input f tr input : reach cfg f tr ->
    reach cfg (fst (process f input)) (tr ++ inl input :: map inr (snd (process f input)))
| reach_caps f tr caps : reach cfg f tr -> reach cfg (set_capabilities f caps) tr.

(** What the RIB layer is told: [None] if a session is announced while one is
    already up. *)
Definition session_step (up : option bool) (e : Event) : option bool :=
  match up, e with
  | Some b, inr (SessionEstablished _) => if b then None else Some true
  | Some _, inr SessionTerminated => Some false
  | _, _ => up
  end.
Definition session_up (tr : list Event) : option bool := foldl session_step (Some false) tr.

(** The UPDATEs passed on, and those that arrive while the session is up. *)
Definition delivered (tr : list Event) : list UpdateMessage :=
  omap (fun e => match e with inr (RouteUpdate u) => Some u | _ => None end) tr.
Fixpoint received_up (up : bool) (tr : list Event) : list UpdateMessage :=
  match tr with
  | [] => []
  | inr (SessionEstablished _) :: tr => received_up true tr
  | inr SessionTerminated :: tr => received_up false tr
  | inl (MessageReceived (BmUpdate u)) :: tr => (if up then [u] else []) ++ received_up up tr
  | _ :: tr => received_up up tr
  end.

(** The hold and keepalive timers that the transport has running. *)
Definition timer_step (t : option Z * option Z) (e : Event) : option Z * option Z :=
  match e with
  | inr (StartHoldTimer d) => (Some d, snd t)
  | inr StopHoldTimer | inl InHoldTimerExpired => (None, snd t)
  | inr (StartKeepaliveTimer d) => (fst t, Some d)
  | inr StopKeepaliveTimer | inl KeepaliveTimerExpired => (fst t, None)
  | _ => t
  end.
Definition timers (tr : list Event) : option Z * option Z := foldl timer_step (None, None) tr.

(** The timers a state requires. *)
Definition timers_of (f : Fsm) : option Z * option Z :=
  match fsm_state f with
  | Idle | Connect | Active => (None, None)
  | OpenSent => (Some OPEN_HOLD_TIMER, None)
  | OpenConfirm | Established =>
      if 0 <? fsm_negotiated_hold_time f
      then (Some (fsm_negotiated_hold_time f), Some (fsm_negotiated_hold_time f / 3))
      else (None, None)
  end.

(** ** Invariants *)

(** Case analysis of one transition. *)
Ltac fsm_cases f input :=
  unfold process;
  destruct f as [s c o n]; cbn [fsm_state fsm_config fsm_peer_open fsm_negotiated_hold_time] in *;
  destruct s; destruct input as [| | | | | | | |m|nt|nt]; try destruct m.

(** A run step and a trace monitor. *)
Lemma session_up_app tr evs :
  session_up (tr ++ evs) = foldl session_step (session_up tr) evs.
Proof. unfold session_up. by rewrite foldl_app. Qed.
Lemma timers_app tr evs : timers (tr ++ evs) = foldl timer_step (timers tr) evs.
Proof. unfold timers. by rewrite foldl_app. Qed.

Lemma session_invariant cfg f tr : reach cfg f tr -> session_up tr = Some (is_established f).
Proof.
  induction 1 as [|f tr input _ IH|f tr caps _ IH]; [done| |exact IH].
  rewrite session_up_app, IH. clear IH. fsm_cases f input; cbn -[validate_open build_session_info Z.ltb];
    try done.
  all: unfold push_timer_actions, reset_hold_if_active; cbn -[validate_open build_session_info Z.ltb];
    repeat (case_match; cbn -[validate_open build_session_info Z.ltb Z.div]; try done).
Qed.

Lemma session_step_some b evs : foldl session_step None evs = Some b -> False.
Proof. induction evs as [|e evs IH]; [done|]. exact IH. Qed.
Lemma received_up_app tr evs : forall b b', foldl session_step (Some b) tr = Some b' ->
  received_up b (tr ++ evs) = received_up b tr ++ received_up b' evs.
Proof.
  induction tr as [|e tr IH]; intros b b' H; [by injection H as ->|]. cbn [foldl] in H.
  destruct e as [i|o]; cbn [app received_up session_step] in *.
  - destruct i as [| | | | | | | |m|nt|nt]; try (by apply IH). destruct m; try (by apply IH).
    rewrite <- app_assoc. f_equal. by apply IH.
  - destruct o; try (by apply IH). destruct b; [by apply session_step_some in H|by apply IH].
Qed.
Lemma delivered_invariant cfg f tr : reach cfg f tr -> delivered tr = received_up false tr.
Proof.
  induction 1 as [|f tr input Hr IH|f tr caps _ IH]; [done| |exact IH].
  unfold delivered in *. rewrite omap_app, IH.
  rewrite (received_up_app tr _ false (is_established f)) by exact (session_invariant cfg f tr Hr). f_equal.
  clear. fsm_cases f input; cbn -[validate_open build_session_info Z.ltb Z.div]; try done.
  all: unfold push_timer_actions, reset_hold_if_active; cbn -[validate_open build_session_info Z.ltb];
    repeat (case_match; cbn -[validate_open build_session_info Z.ltb Z.div]; try done).
Qed.

Lemma timers_invariant cfg f tr : reach cfg f tr -> timers tr = timers_of f.
Proof.
  induction 1 as [|f tr input _ IH|f tr caps _ IH]; [done| |exact IH].
  rewrite timers_app, IH. clear IH. fsm_cases f input;
    cbn -[validate_open build_session_info Z.ltb Z.div]; try done.
  all: unfold push_timer_actions, reset_hold_if_active; cbn -[validate_open build_session_info Z.ltb];
    repeat (case_match; cbn -[validate_open build_session_info Z.ltb Z.div]; try done).
Qed.

(** ** OPEN validation *)

(** The conditions under which RFC 4271, 5492, 6286 and 9234 let the session
    proceed, given the local configuration. *)
Record open_acceptable (c : FsmConfig) (o : OpenMessage) : Prop := {
  oa_version : version o = 4;
  oa_bgp_id : bgp_id o <> Ipv4.UNSPECIFIED /\ Ipv4.is_multicast (bgp_id o) = false
              /\ bgp_id o <> Ipv4.BROADCAST;
  oa_unique : ~ (resolve_as o = cfg_local_as c /\ bgp_id o = cfg_local_bgp_id c);
  oa_peer_as : forall e, cfg_peer_as c = Some e -> resolve_as o = e;
  oa_hold : hold_time o <> 1 /\ hold_time o <> 2;
  oa_required : forall r, r ∈ cfg_required_capabilities c ->
    exists x, x ∈ capabilities o /\ OpenCodec.code x = OpenCodec.code r;
  oa_one_role : forall r r', CapRole r ∈ capabilities o -> CapRole r' ∈ capabilities o -> r = r';
  oa_compatible : forall l r, find_map cap_role (cfg_capabilities c) = Some l ->
    CapRole r ∈ capabilities o -> RoleOps.is_compatible_with l r = true;
}.

Definition negotiated_hold (c : FsmConfig) (o : OpenMessage) : Z :=
  if (cfg_hold_time c =? 0) || (hold_time o =? 0) then 0
  else Z.min (cfg_hold_time c) (hold_time o).

Lemma elem_cap_role r (caps : list Capability) : r ∈ omap cap_role caps <-> CapRole r ∈ caps.
Proof.
  rewrite list_elem_of_omap. split.
  - intros (x & Hx & E). destruct x; simplify_eq/=. done.
  - intros H. by exists (CapRole r).
Qed.

Lemma peer_role_of_spec caps :
  match peer_role_of caps with
  | inl None => forall r, CapRole r ∉ caps
  | inl (Some r) => CapRole r ∈ caps /\ forall r', CapRole r' ∈ caps -> r' = r
  | inr _ => exists r r', CapRole r ∈ caps /\ CapRole r' ∈ caps /\ r <> r'
  end.
Proof.
  unfold peer_role_of. pose proof (fun r => elem_cap_role r caps) as Hin.
  destruct (omap cap_role caps) as [|r rs].
  - intros r Hr. apply Hin in Hr. by apply elem_of_nil in Hr.
  - destruct (forallb _ rs) eqn:E.
    + apply forallb_Forall in E. rewrite Forall_forall in E. split; [apply Hin; left|].
      intros r' Hr'. apply Hin, elem_of_cons in Hr' as [->|Hr']; [done|].
      specialize (E r' Hr'). by apply bool_decide_eq_true in E.
    + assert (exists r', r' ∈ rs /\ r' <> r) as (r' & Hr' & Hne).
      { clear Hin. induction rs as [|x rs IH]; [done|]. simpl in E.
        apply andb_false_iff in E as [E|E].
        - apply bool_decide_eq_false in E. exists x. split; [left|done].
        - destruct (IH E) as (y & Hy & Hne). exists y. split; [by right|done]. }
      exists r, r'. split; [apply Hin; left|]. split; [apply Hin; by right|congruence].
Qed.

Lemma unsupported_nil req caps :
  List.filter (fun r => negb (existsb (fun c => OpenCodec.code c =? OpenCodec.code r) caps)) req = []
  <-> forall r, r ∈ req -> exists x, x ∈ caps /\ OpenCodec.code x = OpenCodec.code r.
Proof.
  split.
  - intros H r Hr. destruct (existsb (fun c => OpenCodec.code c =? OpenCodec.code r) caps) eqn:E.
    + apply existsb_elem in E as (x & Hx & E%Z.eqb_eq). by exists x.
    + assert (In r (List.filter (fun r => negb (existsb (fun c =>
        OpenCodec.code c =? OpenCodec.code r) caps)) req)) as Hf.
      { apply filter_In. rewrite E. split; [by apply list_elem_of_In|done]. }
      by rewrite H in Hf.
  - intros H. induction req as [|r req IH]; [done|]. simpl.
    destruct (H r ltac:(left)) as (x & Hx & E).
    replace (existsb _ caps) with true; [apply IH; intros; apply H; by right|].
    symmetry. apply existsb_elem. exists x. by rewrite E, Z.eqb_refl.
Qed.

(** The OPEN is accepted exactly under these conditions, with the smaller hold
    time (0 if either side proposes 0). *)
Lemma validate_open_iff f o n :
  validate_open f o = inl n
  <-> open_acceptable (fsm_config f) o /\ n = negotiated_hold (fsm_config f) o.
Proof.
  unfold validate_open. set (c := fsm_config f).
  pose proof (peer_role_of_spec (capabilities o)) as Hrole.
  pose proof (unsupported_nil (cfg_required_capabilities c) (capabilities o)) as Hreq.
  split.
  - destruct (Z.eqb_spec (version o) 4) as [Hv|]; [|done]. cbn [negb].
    destruct (_ || _)%bool eqn:Hid; [done|]. apply orb_false_iff in Hid as [Hid Hbc].
    apply orb_false_iff in Hid as [Hun Hmc]. apply Z.eqb_neq in Hun, Hbc.
    destruct (_ && _)%bool eqn:Hsame; [done|].
    destruct (match cfg_peer_as c with Some e => negb (resolve_as o =? e) | None => false end) eqn:Has; [done|].
    destruct (_ || _)%bool eqn:Hh; [done|].
    apply orb_false_iff in Hh as [Hh1 Hh2]. apply Z.eqb_neq in Hh1, Hh2.
    cbv zeta. destruct (List.filter _ _) as [|] eqn:Ef; [|done].
    pose proof (proj1 Hreq eq_refl) as Hcaps. destruct (peer_role_of (capabilities o)) as [pr|]; [|done].
    destruct (match find_map cap_role (cfg_capabilities c), pr with
      | Some l, Some p => negb (RoleOps.is_compatible_with l p) | _, _ => false end) eqn:Hcomp;
      [done|].
    intros [= <-]. split; [|done]. split; try done.
    + intros [E1 E2]. rewrite E1, E2, !Z.eqb_refl in Hsame. done.
    + intros e He. rewrite He in Has. by apply negb_false_iff, Z.eqb_eq in Has.
    + intros r r' Hr Hr'. destruct pr as [p|]; [|by destruct (Hrole r)].
      destruct Hrole as [_ Hu]. by rewrite (Hu r Hr), (Hu r' Hr').
    + intros l r Hl Hr. destruct pr as [p|]; [|by destruct (Hrole r)].
      destruct Hrole as [_ Hu]. rewrite (Hu r Hr). rewrite Hl in Hcomp.
      by apply negb_false_iff in Hcomp.
  - intros [[Hv (Hun & Hmc & Hbc) Hu Has [Hh1 Hh2] Hr Hone Hcomp] ->].
    rewrite Hv. cbn [negb Z.eqb Pos.eqb].
    rewrite (proj2 (Z.eqb_neq _ _) Hun), Hmc, (proj2 (Z.eqb_neq _ _) Hbc). cbn [orb].
    destruct (_ && _)%bool eqn:Hsame.
    { apply andb_true_iff in Hsame as [E1%Z.eqb_eq E2%Z.eqb_eq]. by destruct Hu. }
    replace (match cfg_peer_as c with Some e => negb (resolve_as o =? e) | None => false end) with false.
    2:{ destruct (cfg_peer_as c) as [e|]; [|done]. by rewrite (Has e eq_refl), Z.eqb_refl. }
    rewrite (proj2 (Z.eqb_neq _ _) Hh1), (proj2 (Z.eqb_neq _ _) Hh2). cbn [orb]. cbv zeta.
    rewrite (proj2 Hreq Hr). destruct (peer_role_of (capabilities o)) as [[p|]|].
    + destruct Hrole as [Hp _]. destruct (find_map cap_role (cfg_capabilities c)) as [l|]; [|done].
      by rewrite (Hcomp l p eq_refl Hp).
    + by destruct (find_map cap_role (cfg_capabilities c)).
    + destruct Hrole as (r & r' & H1 & H2 & Hne). by destruct Hne; apply Hone.
Qed.

(** ** The session's parameters *)

(** Configuration fields no transition changes. *)
Definition same_config (c c' : FsmConfig) : Prop :=
  cfg_local_as c = cfg_local_as c' /\ cfg_public_as c = cfg_public_as c'
  /\ cfg_local_bgp_id c = cfg_local_bgp_id c' /\ cfg_hold_time c = cfg_hold_time c'
  /\ cfg_required_capabilities c = cfg_required_capabilities c'
  /\ cfg_peer_as c = cfg_peer_as c'
  /\ cfg_confederation_member c = cfg_confederation_member c'.

Lemma process_config f input : fsm_config (fst (process f input)) = fsm_config f.
Proof. fsm_cases f input; cbn -[validate_open build_session_info]; repeat case_match; done. Qed.

Lemma reach_config cfg f tr : reach cfg f tr -> same_config (fsm_config f) cfg.
Proof.
  induction 1 as [|f tr input _ IH|f tr caps _ IH]; [done|by rewrite process_config|done].
Qed.

(** In OpenConfirm and Established the peer's OPEN is known, was acceptable for
    the capabilities offered then, and gave the negotiated hold time. *)
Definition negotiated_inv (f : Fsm) : Prop :=
  (fsm_state f = OpenConfirm \/ fsm_state f = Established) ->
  exists o caps, fsm_peer_open f = Some o
    /\ open_acceptable (fsm_config (set_capabilities f caps)) o
    /\ fsm_negotiated_hold_time f = negotiated_hold (fsm_config f) o.

Lemma set_capabilities_same f :
  fsm_config (set_capabilities f (cfg_capabilities (fsm_config f))) = fsm_config f.
Proof. destruct f as [s [] o n]. done. Qed.

Lemma negotiated_step f input : negotiated_inv f -> negotiated_inv (fst (process f input)).
Proof.
  intros Hinv. unfold negotiated_inv in *.
  fsm_cases f input; cbn -[validate_open build_session_info]; try (by intros []);
    try exact Hinv; try (intros _; apply Hinv; by auto).
  - (* the OPEN *)
    destruct (validate_open _ m) as [neg|[err d]] eqn:E; cbn; [|by intros []].
    intros _. apply validate_open_iff in E as [Ha ->].
    exists m, (cfg_capabilities c). split; [done|].
    pose proof (set_capabilities_same (mkFsm OpenSent c o n)) as Hs. cbn in Ha, Hs |- *.
    by rewrite Hs.
  - (* KEEPALIVE in OpenConfirm *)
    destruct (build_session_info _); cbn; [|by intros []].
    intros _. apply Hinv; by left.
  - destruct (match o with _ => _ end && _)%bool; cbn; [|by intros []].
    intros _. apply Hinv; by right.
Qed.

Lemma negotiated_invariant cfg f tr : reach cfg f tr -> negotiated_inv f.
Proof.
  induction 1 as [|f tr input _ IH|f tr caps _ IH]; [by intros []|by apply negotiated_step|].
  intros Hs. destruct (IH Hs) as (o & cs & Ho & Ha & Hn). by exists o, cs.
Qed.

(** ** Runs as functions *)
Definition fsm_step (st : Fsm * list Event) (input : FsmInput) : Fsm * list Event :=
  (fst (process (fst st) input), snd st ++ inl input :: map inr (snd (process (fst st) input))).
Definition run (cfg : FsmConfig) (inputs : list FsmInput) : Fsm * list Event :=
  foldl fsm_step (fsm_new cfg, []) inputs.

Lemma reach_run cfg inputs : reach cfg (fst (run cfg inputs)) (snd (run cfg inputs)).
Proof.
  unfold run. assert (H : reach cfg (fst (fsm_new cfg, @nil Event)) (snd (fsm_new cfg, @nil Event)))
    by constructor.
  revert H. generalize (fsm_new cfg, @nil Event) as st.
  induction inputs as [|x xs IH]; intros st H; [done|]. apply IH. by apply reach_input.
Qed.

(** A session announcement comes from a KEEPALIVE in OpenConfirm. *)
Lemma established_from f input i : SessionEstablished i ∈ snd (process f input) ->
  fsm_state f = OpenConfirm /\ input = MessageReceived BmKeepalive
  /\ build_session_info f = Some i /\ fsm_state (fst (process f input)) = Established.
Proof.
  fsm_cases f input; cbn -[validate_open build_session_info Z.ltb Z.div];
    unfold push_timer_actions, reset_hold_if_active, send_notification;
    repeat (case_match; cbn -[validate_open build_session_info Z.ltb Z.div]);
    rewrite ?elem_of_cons, ?elem_of_nil; intros Hin; destruct_or?; simplify_eq; auto.
Qed.

End Fsm.

(** ** Theorems *)

(** A local configuration and a peer OPEN used by the witnesses. *)
Definition sample_cfg : FsmConfig := mkFsmConfig 65001 65001 167772161 90 [CapRouteRefresh] []
  (Some 65002) false.
Definition sample_peer_open : OpenMessage := mkOpen 4 65002 30 167772162 [CapFourByteAsn 65002].
Definition sample_inputs `{P : IpPrefixOps} : list FsmInput :=
  [ManualStart; TcpConnected; MessageReceived (BmOpen sample_peer_open);
   MessageReceived BmKeepalive].


(** C13: after every run the hold and keepalive timers the transport has running
    are exactly those the state calls for: none before the OPEN is sent, the
    240-second hold timer in OpenSent, and in OpenConfirm and Established the
    negotiated hold time and a third of it (neither when it is 0). *)
Theorem fsm_timers_exact `{P : IpPrefixOps} cfg f tr :
  reach cfg f tr -> timers tr = timers_of f.
Proof. apply timers_invariant. Qed.
Lemma fsm_timers_exact_witness :
  timers (P:=ModelPrefix.ops) (snd (run sample_cfg sample_inputs)) = (Some 30, Some 10).
Proof.
  exact (fsm_timers_exact (P:=ModelPrefix.ops) sample_cfg _ _
    (reach_run sample_cfg sample_inputs)).
Defined.

(** An OPEN is accepted exactly when its version is 4, its identifier is a
    unicast address different from ours within our AS, its AS is the expected
    one, its hold time is not 1 or 2, every required capability is present, and
    its roles are a single value compatible with ours; the negotiated hold time
    is the smaller of the two, or 0 if either side proposes 0. *)
Theorem fsm_open_validation `{P : IpPrefixOps} f o n :
  validate_open f o = inl n
  <-> open_acceptable (fsm_config f) o /\ n = negotiated_hold (fsm_config f) o.
Proof. apply validate_open_iff. Qed.

(** Whenever the machine announces a session, the peer's OPEN was received
    and acceptable, the announced AS, identifier and capabilities are those of
    that OPEN, the peer type follows from the local AS and the confederation
    setting, and the hold time is 0 or between 3 and the two proposals; the
    "peer OPEN missing" branch is never taken. *)
Theorem fsm_established_info `{P : IpPrefixOps} cfg f tr input i :
  reach cfg f tr -> is_u16 (cfg_hold_time cfg) -> cfg_hold_time cfg ∉ [1; 2] ->
  (fsm_state f = OpenConfirm -> input = MessageReceived BmKeepalive ->
     exists j, SessionEstablished j ∈ snd (process f input))
  /\ (SessionEstablished i ∈ snd (process f input) ->
     exists o caps, open_acceptable (fsm_config (set_capabilities f caps)) o
     /\ si_peer_as i = resolve_as o /\ si_peer_bgp_id i = bgp_id o
     /\ si_peer_capabilities i = capabilities o
     /\ si_peer_type i = (if resolve_as o =? cfg_local_as cfg then Internal
                          else if cfg_confederation_member cfg then ConfedMember else External)
     /\ (is_u16 (hold_time o) ->
           si_hold_time i = 0 \/ 3 <= si_hold_time i <= Z.min (cfg_hold_time cfg) (hold_time o))).
Proof.
  intros Hr Hu Hh. pose proof (negotiated_invariant cfg f tr Hr) as Hinv.
  pose proof (reach_config cfg f tr Hr) as (Hlas & _ & _ & Hht & _ & _ & Hcm). split.
  - intros Hs ->. destruct (Hinv (or_introl Hs)) as (o & caps & Ho & _ & _).
    destruct f as [s c po n]; cbn in Hs, Ho. subst s po. cbn. eexists. left.
  - intros Hi. apply established_from in Hi as (Hs & -> & Hb & _).
    destruct (Hinv (or_introl Hs)) as (o & caps & Ho & Ha & Hn). exists o, caps.
    unfold build_session_info in Hb. rewrite Ho in Hb. injection Hb as <-.
    cbn [si_peer_as si_peer_bgp_id si_peer_capabilities si_peer_type si_hold_time].
    rewrite Hlas, Hcm. split; [done|]. split_and!; try done. intros Hoh.
    destruct Ha as [_ _ _ _ [H1 H2] _ _ _].
    rewrite Hn. unfold negotiated_hold. rewrite Hht.
    rewrite !not_elem_of_cons in Hh. destruct Hh as (? & ? & _). unfold is_u16 in *.
    destruct (Z.eqb_spec (cfg_hold_time cfg) 0); [by left|].
    destruct (Z.eqb_spec (hold_time o) 0); [by left|]. right. simpl. lia.
Qed.
Lemma fsm_established_info_witness :
  exists j, @SessionEstablished ModelPrefix.ops j ∈ snd (process (P:=ModelPrefix.ops)
    (fst (run (P:=ModelPrefix.ops) sample_cfg (take 3 sample_inputs)))
    (MessageReceived BmKeepalive)).
Proof.
  refine (proj1 (fsm_established_info (P:=ModelPrefix.ops) sample_cfg _ _
    (MessageReceived BmKeepalive) (mkSessionInfo 0 0 0 [] External None)
    (reach_run sample_cfg (take 3 sample_inputs)) _ _) _ _).
  - split; vm_compute; congruence.
  - rewrite !not_elem_of_cons. split_and!; [vm_compute; congruence..|apply not_elem_of_nil].
  - reflexivity.
  - reflexivity.
Defined.

(** The peer identifier and Graceful Restart flag the transport consults for
    collision resolution can be those of an earlier session: after a hold timer
    expiry in OpenConfirm the next attempt is in OpenSent, with no OPEN received
    yet, and both still answer from the old OPEN. *)
Theorem fsm_stale_peer_open `{P : IpPrefixOps} :
  exists cfg f tr, reach cfg f tr /\ fsm_state f = OpenSent
    /\ peer_bgp_id f = Some 167772162 /\ peer_has_graceful_restart f = true.
Proof.
  set (inputs := [ManualStart; TcpConnected;
    MessageReceived (BmOpen (mkOpen 4 65002 30 167772162 [CapGracefulRestart 0 120 []]));
    InHoldTimerExpired; ConnectRetryTimerExpired; TcpConnected]).
  exists sample_cfg, (fst (run sample_cfg inputs)), (snd (run sample_cfg inputs)).
  split; [apply reach_run|]. vm_compute. auto.
Qed.
