(* ===== verification/RouteMap.v ===== *)
(** The longest-prefix-match table the repository uses for its RIB and ROA cache.

    [RouteMap<A, V>] comes from the third-party crate [routemap] (a tree bitmap),
    whose source is not in the repository.  [RouteMapOps] are the operations the
    code calls; [RouteMapLaws] what it relies on: keys are compared by their
    network bits ([get] with host bits set finds the masked prefix, as
    [FamilyTable::validate] needs), iteration yields each stored prefix once in
    masked form, and [longest_match_entry] finds the longest stored prefix
    containing an address.  [ModelRouteMap] is a concrete instance. *)
From Stdlib Require Import ZArith Lia Bool.
From stdpp Require Import base tactics numbers countable decidable gmap list.
From S2P Require Import Prelude Addr.
Open Scope Z_scope.

Class RouteMapOps `{P : IpPrefixOps} := {
  RouteMap : Family -> Type -> Type;
  rm_new : forall {f V}, RouteMap f V;
  rm_get : forall {f V}, RouteMap f V -> IpPrefix f -> option V;
  rm_insert : forall {f V}, RouteMap f V -> IpPrefix f -> V -> RouteMap f V;
  rm_remove : forall {f V}, RouteMap f V -> IpPrefix f -> RouteMap f V;
  rm_iter : forall {f V}, RouteMap f V -> list (IpPrefix f * V);
  rm_longest_match_entry : forall {f V}, RouteMap f V -> Z -> option (IpPrefix f * V);
}.

Class RouteMapLaws `{M : RouteMapOps} : Prop := {
  rm_get_new : forall f V (p : IpPrefix f), rm_get (V:=V) rm_new p = None;
  rm_get_insert : forall f V (m : RouteMap f V) p q v,
    rm_get (rm_insert m p v) q
    = if decide (prefix_masked p = prefix_masked q) then Some v else rm_get m q;
  rm_get_remove : forall f V (m : RouteMap f V) p q,
    rm_get (rm_remove m p) q
    = if decide (prefix_masked p = prefix_masked q) then None else rm_get m q;
  rm_get_masked : forall f V (m : RouteMap f V) p, rm_get m (prefix_masked p) = rm_get m p;
  rm_iter_elem : forall f V (m : RouteMap f V) p v,
    (p, v) ∈ rm_iter m <-> prefix_masked p = p /\ rm_get m p = Some v;
  rm_iter_nodup : forall f V (m : RouteMap f V), NoDup (rm_iter m).*1;
  rm_longest_none : forall f V (m : RouteMap f V) a, addr_ok f a ->
    rm_longest_match_entry m a = None
    <-> forall p v, (p, v) ∈ rm_iter m -> prefix_contains p a = false;
  rm_longest_some : forall f V (m : RouteMap f V) a p v, addr_ok f a ->
    rm_longest_match_entry m a = Some (p, v) ->
    (p, v) ∈ rm_iter m /\ prefix_contains p a = true
    /\ forall q w, (q, w) ∈ rm_iter m -> prefix_contains q a = true ->
         prefix_mask q <= prefix_mask p;
}.

(** ** A concrete table, for witnesses: a finite map on masked prefixes *)
Module ModelRouteMap.
Section Model.
Context `{P : IpPrefixOps}.

Definition t (f : Family) (V : Type) : Type := gmap (IpPrefix f) V.
Definition longer {f V} (x y : IpPrefix f * V) : IpPrefix f * V :=
  if prefix_mask (fst x) <? prefix_mask (fst y) then y else x.
Definition best {f V} (a : Z) (l : list (IpPrefix f * V)) : option (IpPrefix f * V) :=
  foldr (fun x acc =>
    if prefix_contains (fst x) a
    then Some (match acc with Some y => longer x y | None => x end) else acc) None l.

#[export] Instance ops : RouteMapOps := {|
  RouteMap := t;
  rm_new := fun f V => ∅;
  rm_get := fun f V (m : t f V) p => m !! prefix_masked p;
  rm_insert := fun f V (m : t f V) p v => <[prefix_masked p := v]> m;
  rm_remove := fun f V (m : t f V) p => delete (prefix_masked p) m;
  rm_iter := fun f V (m : t f V) =>
    List.filter (fun x => bool_decide (prefix_masked (fst x) = fst x)) (map_to_list m);
  rm_longest_match_entry := fun f V (m : t f V) a =>
    best a (List.filter (fun x => bool_decide (prefix_masked (fst x) = fst x)) (map_to_list m));
|}.

Lemma best_none f V a (l : list (IpPrefix f * V)) :
  best a l = None <-> forall p v, (p, v) ∈ l -> prefix_contains p a = false.
Proof.
  induction l as [|[p v] l IH]; simpl.
  { split; [|done]. by intros _ p v ?%not_elem_of_nil. }
  destruct (prefix_contains p a) eqn:E.
  - split; [done|]. intros H. specialize (H p v ltac:(left)). congruence.
  - rewrite IH. split; intros H q w.
    + intros [[=-> ->]|?]%elem_of_cons; eauto.
    + intros ?. apply (H q w). by right.
Qed.

Lemma best_some f V a (l : list (IpPrefix f * V)) p v : best a l = Some (p, v) ->
  (p, v) ∈ l /\ prefix_contains p a = true
  /\ forall q w, (q, w) ∈ l -> prefix_contains q a = true -> prefix_mask q <= prefix_mask p.
Proof.
  revert p v. induction l as [|[p0 v0] l IH]; intros p v; simpl; [done|].
  destruct (prefix_contains p0 a) eqn:E.
  - destruct (best a l) as [[p1 v1]|] eqn:Eb.
    + destruct (IH p1 v1 eq_refl) as (H1 & H2 & H3). unfold longer; simpl.
      destruct (Z.ltb_spec (prefix_mask p0) (prefix_mask p1)); intros [= <- <-].
      * split_and!; [by right|done|]. intros q w [[=-> ->]|Hq]%elem_of_cons ?; [lia|eauto].
      * split_and!; [left|done|]. intros q w [[=-> ->]|Hq]%elem_of_cons ?; [lia|].
        etransitivity; [by eapply H3|done].
    + intros [= <- <-]. split_and!; [left|done|].
      intros q w [[=-> ->]|Hq]%elem_of_cons Hc; [lia|].
      rewrite (proj1 (best_none _ _ _ _) Eb q w Hq) in Hc. done.
  - intros Hb. destruct (IH _ _ Hb) as (H1 & H2 & H3). split_and!; [by right|done|].
    intros q w [[=-> ->]|Hq]%elem_of_cons ?; [congruence|eauto].
Qed.

Context {L : IpPrefixLaws}.

Lemma masked_idemp {f} (p : IpPrefix f) : prefix_masked (prefix_masked p) = prefix_masked p.
Proof. pose proof (canonical_masked f (mkNlri p)) as [=]. done. Qed.

#[export] Instance laws : RouteMapLaws.
Proof.
  assert (Hel : forall f V (m : t f V) p v, (p, v) ∈ rm_iter (f:=f) m
    <-> prefix_masked p = p /\ rm_get (f:=f) m p = Some v).
  { intros f V m p v. cbn.
    rewrite list_elem_of_In, filter_In, <- list_elem_of_In.
    etransitivity; [apply and_iff_compat_r, (elem_of_map_to_list (M:=gmap (IpPrefix f)))|].
    simpl. rewrite bool_decide_eq_true. split; intros [H1 H2].
    - split; [done|]. etransitivity; [|exact H1]. by f_equal.
    - split; [|done]. etransitivity; [|exact H2]. by f_equal. }
  split.
  - intros f V p. exact (lookup_empty (M:=gmap (IpPrefix f)) _).
  - intros f V m p q v. exact (lookup_insert (M:=gmap (IpPrefix f)) m _ _ _).
  - intros f V m p q. exact (lookup_delete (M:=gmap (IpPrefix f)) m _ _).
  - intros f V m p. cbn. by rewrite masked_idemp.
  - apply Hel.
  - intros f V m. apply NoDup_fst_filter.
    exact (NoDup_fst_map_to_list (M:=gmap (IpPrefix f)) m).
  - intros. apply best_none.
  - intros f V m a p v _. apply best_some.
Qed.
End Model.
End ModelRouteMap.

(** ** Derived facts *)
Section Facts.
Context `{P : IpPrefixOps} {L : IpPrefixLaws}.

Lemma prefix_masked_idemp {f} (p : IpPrefix f) :
  prefix_masked (prefix_masked p) = prefix_masked p.
Proof. apply ModelRouteMap.masked_idemp. Qed.

(** An address prefix that covers another contains its address and is no longer. *)
Lemma masked_ancestor f a m (p q : IpPrefix f) :
  prefix_new f a m = Some q -> addr_ok f a -> 0 <= m <= width f ->
  prefix_masked p = prefix_masked q
  <-> prefix_mask p = m /\ prefix_contains p a = true.
Proof.
  intros Hq Ha Hm. destruct (prefix_new_ok f a m Ha Hm) as (q' & Hq' & Hi & Hk).
  rewrite Hq in Hq'. injection Hq' as <-. rewrite prefix_contains_spec by done.
  rewrite Z.eqb_eq. split.
  - intros E. pose proof (f_equal prefix_mask E) as E1. pose proof (f_equal prefix_ip E) as E2.
    rewrite !prefix_masked_mask in E1. rewrite !prefix_masked_ip in E2.
    split; [congruence|]. rewrite E2, Hi, E1. done.
  - intros [E1 E2]. apply prefix_ext.
    + rewrite !prefix_masked_ip, Hi, Hk, <- E1. done.
    + rewrite !prefix_masked_mask. congruence.
Qed.
End Facts.
