(* ===== verification/Rtr.v ===== *)
(** The RPKI-to-Router PDU codec ([pathvector-rpki/src/pdu.rs], RFC 8210 v1 and
    RFC 6810 v0).

    Its cursor is the one of the session codec over another error type, so the
    reads of [Wire] are used at [PduError]. *)
From Stdlib Require Import ZArith Lia Bool.
From stdpp Require Import base tactics numbers decidable list.
From S2P Require Import Prelude Addr Wire Notification.
Open Scope Z_scope.

(** [Utf8] carries no position. *)
Inductive PduError :=
| PduTruncated (needed available : nat)
| UnknownPduType (b : Z)
| UnknownVersion (b : Z)
| PduInvalidLength (pdu_type len : Z)
| Utf8.
#[export] Instance PduError_truncatable : Truncatable PduError := PduTruncated.

Inductive RtrVersion := V0 | V1.
#[export] Instance RtrVersion_eq_dec : EqDecision RtrVersion.
Proof. solve_decision. Defined.

Inductive PduType :=
| TSerialNotify | TSerialQuery | TResetQuery | TCacheResponse | TIpv4Prefix | TIpv6Prefix
| TEndOfData | TCacheReset | TRouterKey | TErrorReport.

Record EndOfDataIntervals := mkIntervals { refresh : Z; retry : Z; expire : Z }.

(** [PrefixFlags { announce }] is the flag itself. *)
Inductive Pdu :=
| SerialNotify (session_id serial : Z)
| SerialQuery (session_id serial : Z)
| ResetQuery
| CacheResponse (session_id : Z)
| Ipv4Prefix (announce : bool) (prefix_len max_len prefix asn : Z)
| Ipv6Prefix (announce : bool) (prefix_len max_len prefix asn : Z)
| EndOfData (session_id serial : Z) (intervals : option EndOfDataIntervals)
| CacheReset
| ErrorReport (error_code : Z) (pdu_copy text : list Z)
| RouterKey.

Module Rtr.

Definition version_as_byte (v : RtrVersion) : Z := match v with V0 => 0 | V1 => 1 end.
Definition version_from_byte (b : Z) : Outcome PduError RtrVersion :=
  match b with 0 => Ok V0 | 1 => Ok V1 | _ => Err (UnknownVersion b) end.
Definition type_as_byte (t : PduType) : Z :=
  match t with
  | TSerialNotify => 0 | TSerialQuery => 1 | TResetQuery => 2 | TCacheResponse => 3
  | TIpv4Prefix => 4 | TIpv6Prefix => 6 | TEndOfData => 7 | TCacheReset => 8
  | TRouterKey => 9 | TErrorReport => 10
  end.
Definition type_from_byte (b : Z) : Outcome PduError PduType :=
  match b with
  | 0 => Ok TSerialNotify | 1 => Ok TSerialQuery | 2 => Ok TResetQuery
  | 3 => Ok TCacheResponse | 4 => Ok TIpv4Prefix | 6 => Ok TIpv6Prefix
  | 7 => Ok TEndOfData | 8 => Ok TCacheReset | 9 => Ok TRouterKey
  | 10 => Ok TErrorReport
  | _ => Err (UnknownPduType b)
  end.
Definition flags_as_byte (announce : bool) : Z := if announce then 1 else 0.
Definition flags_from_byte (b : Z) : bool := Z.land b 1 =? 1.

Definition HEADER_LEN : Z := 8.
Definition LEN_SERIAL_NOTIFY : Z := 12.
Definition LEN_SERIAL_QUERY : Z := 12.
Definition LEN_RESET_QUERY : Z := 8.
Definition LEN_CACHE_RESPONSE : Z := 8.
Definition LEN_IPV4_PREFIX : Z := 20.
Definition LEN_IPV6_PREFIX : Z := 32.
Definition LEN_END_OF_DATA_V0 : Z := 12.
Definition LEN_END_OF_DATA_V1 : Z := 24.
Definition LEN_CACHE_RESET : Z := 8.

(** ** Encoding *)
Definition write_header (v : RtrVersion) (t : PduType) (field len : Z) : list Z :=
  [version_as_byte v] ++ [type_as_byte t] ++ u16_be field ++ u32_be len.
Definition encode_prefix_body (announce : bool) (prefix_len max_len : Z) (octets : list Z)
    (asn : Z) : list Z :=
  [flags_as_byte announce] ++ [prefix_len] ++ [max_len] ++ [0] ++ octets ++ u32_be asn.
Definition encode_end_of_data (v : RtrVersion) (session_id serial : Z)
    (intervals : option EndOfDataIntervals) : Outcome PduError (list Z) :=
  match v, intervals with
  | V0, None => Ok (write_header v TEndOfData session_id LEN_END_OF_DATA_V0 ++ u32_be serial)
  | V1, Some iv =>
      Ok (write_header v TEndOfData session_id LEN_END_OF_DATA_V1 ++ u32_be serial
          ++ u32_be (refresh iv) ++ u32_be (retry iv) ++ u32_be (expire iv))
  | _, _ => Panic
  end.
Definition encode (v : RtrVersion) (pdu : Pdu) : Outcome PduError (list Z) :=
  match pdu with
  | SerialNotify session_id serial =>
      Ok (write_header v TSerialNotify session_id LEN_SERIAL_NOTIFY ++ u32_be serial)
  | SerialQuery session_id serial =>
      Ok (write_header v TSerialQuery session_id LEN_SERIAL_QUERY ++ u32_be serial)
  | ResetQuery => Ok (write_header v TResetQuery 0 LEN_RESET_QUERY)
  | CacheResponse session_id => Ok (write_header v TCacheResponse session_id LEN_CACHE_RESPONSE)
  | Ipv4Prefix announce prefix_len max_len prefix asn =>
      Ok (write_header v TIpv4Prefix 0 LEN_IPV4_PREFIX
          ++ encode_prefix_body announce prefix_len max_len (u32_be prefix) asn)
  | Ipv6Prefix announce prefix_len max_len prefix asn =>
      Ok (write_header v TIpv6Prefix 0 LEN_IPV6_PREFIX
          ++ encode_prefix_body announce prefix_len max_len (u128_be prefix) asn)
  | EndOfData session_id serial intervals => encode_end_of_data v session_id serial intervals
  | CacheReset => Ok (write_header v TCacheReset 0 LEN_CACHE_RESET)
  | ErrorReport error_code pdu_copy text =>
      let n := as_u32 (HEADER_LEN + 4 + as_u32 (len pdu_copy) + 4 + as_u32 (len text)) in
      Ok (write_header v TErrorReport error_code n
          ++ u32_be (as_u32 (len pdu_copy)) ++ pdu_copy
          ++ u32_be (as_u32 (len text)) ++ text)
  | RouterKey => Ok (write_header v TRouterKey 0 HEADER_LEN)
  end.

(** ** Decoding *)
Definition decode_header_cur : Dec PduError (RtrVersion * PduType * Z * Z) :=
  b ← read_u8; version ← dec_lift (version_from_byte b);
  t ← read_u8; pdu_type ← dec_lift (type_from_byte t);
  field ← read_u16; n ← read_u32;
  mret (version, pdu_type, field, n).
Definition decode_header (buf : list Z) : Outcome PduError (RtrVersion * PduType * Z * Z) :=
  match decode_header_cur (cursor_new buf) with
  | Ok (r, _) => Ok r | Err e => Err e | Panic => Panic | OutOfFuel => OutOfFuel
  end.

Definition read_ipv6addr : Dec PduError Z := b ← read_bytes 16; mret (from_be b).
Definition expect_len (t : PduType) (actual expected : Z) : Dec PduError unit :=
  if actual =? expected then mret tt else dec_err (PduInvalidLength (type_as_byte t) actual).
Definition decode_ipv4_prefix_body : Dec PduError Pdu :=
  flags ← read_u8; prefix_len ← read_u8; max_len ← read_u8; _ ← read_u8;
  prefix ← read_ipv4addr; asn ← read_u32;
  mret (Ipv4Prefix (flags_from_byte flags) prefix_len max_len prefix asn).
Definition decode_ipv6_prefix_body : Dec PduError Pdu :=
  flags ← read_u8; prefix_len ← read_u8; max_len ← read_u8; _ ← read_u8;
  prefix ← read_ipv6addr; asn ← read_u32;
  mret (Ipv6Prefix (flags_from_byte flags) prefix_len max_len prefix asn).
Definition decode_end_of_data_body (v : RtrVersion) (t : PduType) (field n : Z)
    : Dec PduError Pdu :=
  match v with
  | V0 =>
      _ ← expect_len t n LEN_END_OF_DATA_V0;
      serial ← read_u32; mret (EndOfData field serial None)
  | V1 =>
      _ ← expect_len t n LEN_END_OF_DATA_V1;
      serial ← read_u32; r ← read_u32; y ← read_u32; x ← read_u32;
      mret (EndOfData field serial (Some (mkIntervals r y x)))
  end.
Definition decode_error_report_body (t : PduType) (field n : Z) : Dec PduError Pdu :=
  if n <? HEADER_LEN + 8 then dec_err (PduInvalidLength (type_as_byte t) n)
  else
    encap_len ← read_u32; pdu_copy ← read_bytes (Z.to_nat encap_len);
    text_len ← read_u32; text ← read_bytes (Z.to_nat text_len);
    if Shutdown.utf8_valid text then mret (ErrorReport field pdu_copy text) else dec_err Utf8.
Definition decode_router_key_body (t : PduType) (n : Z) : Dec PduError Pdu :=
  if n <? HEADER_LEN then dec_err (PduInvalidLength (type_as_byte t) n) else mret RouterKey.

(** The arms of [decode_payload], after the header. *)
Definition decode_arm (v : RtrVersion) (t : PduType) (field n : Z) : Dec PduError Pdu :=
  match t with
  | TSerialNotify =>
      _ ← expect_len t n LEN_SERIAL_NOTIFY; serial ← read_u32; mret (SerialNotify field serial)
  | TSerialQuery =>
      _ ← expect_len t n LEN_SERIAL_QUERY; serial ← read_u32; mret (SerialQuery field serial)
  | TResetQuery => _ ← expect_len t n LEN_RESET_QUERY; mret ResetQuery
  | TCacheResponse => _ ← expect_len t n LEN_CACHE_RESPONSE; mret (CacheResponse field)
  | TIpv4Prefix => _ ← expect_len t n LEN_IPV4_PREFIX; decode_ipv4_prefix_body
  | TIpv6Prefix => _ ← expect_len t n LEN_IPV6_PREFIX; decode_ipv6_prefix_body
  | TEndOfData => decode_end_of_data_body v t field n
  | TCacheReset => _ ← expect_len t n LEN_CACHE_RESET; mret CacheReset
  | TErrorReport => decode_error_report_body t field n
  | TRouterKey => decode_router_key_body t n
  end.
Definition decode_payload_cur (v : RtrVersion) (t : PduType) (field n : Z) : Dec PduError Pdu :=
  _ ← read_bytes (Z.to_nat HEADER_LEN); decode_arm v t field n.
Definition decode_payload (v : RtrVersion) (t : PduType) (field n : Z) (body : list Z)
    : Outcome PduError Pdu :=
  if negb (len body =? n) then Err (PduInvalidLength (type_as_byte t) n)
  else match decode_payload_cur v t field n (cursor_new body) with
       | Ok (r, _) => Ok r | Err e => Err e | Panic => Panic | OutOfFuel => OutOfFuel
       end.

(** [read_pdu] of [client.rs] on a socket that will deliver [stream]: the header,
    then [len - 8] more bytes.  [None] is a closed connection; the result keeps
    the bytes left on the socket. *)
Definition MAX_PDU_LEN : Z := 64 * 1024.
Definition read_pdu (stream : list Z)
    : option (Outcome PduError (RtrVersion * Pdu) * list Z) :=
  if (length stream <? 8)%nat then None
  else
    let header := take 8 stream in
    let rest := drop 8 stream in
    match decode_header header with
    | Ok (version, pdu_type, field, n) =>
        if MAX_PDU_LEN <? n then Some (Err (PduInvalidLength 0 n), rest)
        else
          let remaining := Z.to_nat (n - 8) in
          if (length rest <? remaining)%nat then None
          else
            let full := header ++ take remaining rest in
            Some (match decode_payload version pdu_type field n full with
                  | Ok pdu => Ok (version, pdu)
                  | Err e => Err e | Panic => Panic | OutOfFuel => OutOfFuel
                  end, drop remaining rest)
    | Err e => Some (Err e, rest)
    | Panic => Some (Panic, rest)
    | OutOfFuel => Some (OutOfFuel, rest)
    end.

(** ** Well-formed PDUs *)
Definition pdu_wf (p : Pdu) : Prop :=
  match p with
  | SerialNotify s n | SerialQuery s n => is_u16 s /\ is_u32 n
  | ResetQuery | CacheReset | RouterKey => True
  | CacheResponse s => is_u16 s
  | Ipv4Prefix _ l m a asn => is_u8 l /\ is_u8 m /\ is_u32 a /\ is_u32 asn
  | Ipv6Prefix _ l m a asn => is_u8 l /\ is_u8 m /\ is_u128 a /\ is_u32 asn
  | EndOfData s n iv => is_u16 s /\ is_u32 n
      /\ match iv with
         | Some i => is_u32 (refresh i) /\ is_u32 (retry i) /\ is_u32 (expire i)
         | None => True
         end
  | ErrorReport c copy text => is_u16 c /\ bytes copy /\ bytes text
      /\ Shutdown.utf8_valid text = true
  end.
(** A PDU that can be sent at a version: the End of Data intervals match it and
    an Error Report fits the receiver's limit. *)
Definition pdu_encodable (v : RtrVersion) (p : Pdu) : Prop :=
  pdu_wf p
  /\ match p with
     | EndOfData _ _ iv => match v, iv with V0, None | V1, Some _ => True | _, _ => False end
     | ErrorReport _ copy text => 16 + len copy + len text <= MAX_PDU_LEN
     | _ => True
     end.

End Rtr.

(** * Facts *)
Lemma rtr_version_roundtrip v : Rtr.version_from_byte (Rtr.version_as_byte v) = Ok v.
Proof. by destruct v. Qed.
Lemma rtr_type_roundtrip t : Rtr.type_from_byte (Rtr.type_as_byte t) = Ok t.
Proof. by destruct t. Qed.
Lemma rtr_flags_roundtrip b : Rtr.flags_from_byte (Rtr.flags_as_byte b) = b.
Proof. by destruct b. Qed.

Lemma dwp_version b c (Q : RtrVersion -> Cursor -> Prop) :
  (forall v, Q v c) -> dwp (dec_lift (Rtr.version_from_byte b)) c Q.
Proof. intros H. apply dwp_lift. unfold Rtr.version_from_byte. repeat case_match; simplify_eq; auto. Qed.
Lemma dwp_type b c (Q : PduType -> Cursor -> Prop) :
  (forall v, Q v c) -> dwp (dec_lift (Rtr.type_from_byte b)) c Q.
Proof. intros H. apply dwp_lift. unfold Rtr.type_from_byte. repeat case_match; simplify_eq; auto. Qed.
Lemma dwp_rtr_expect_len t a e c (Q : unit -> Cursor -> Prop) :
  (a = e -> Q tt c) -> dwp (Rtr.expect_len t a e) c Q.
Proof.
  intros H. unfold Rtr.expect_len. destruct (Z.eqb_spec a e); [by apply dwp_ret, H|done].
Qed.
Lemma dwp_read_ipv6addr c (Q : Z -> Cursor -> Prop) : cwf c ->
  (forall v c', cwf c' -> is_u128 v -> Q v c') -> dwp Rtr.read_ipv6addr c Q.
Proof.
  intros Hc HQ. apply dwp_bind, dwp_read_bytes; [done|]. intros b c' Hc' _ Hl Hb.
  apply dwp_ret, HQ; [done|]. pose proof (from_be_bound b Hb) as H. by rewrite Hl in H.
Qed.

(** One field of a PDU body read by the program logic. *)
Ltac rtr_read :=
  match goal with
  | |- dwp (mbind _ read_u8) _ _ => apply dwp_bind, dwp_read_u8; [done|]; intros ??? _ ?
  | |- dwp (mbind _ read_u16) _ _ => apply dwp_bind, dwp_read_u16; [done|]; intros ??? _ ?
  | |- dwp (mbind _ read_u32) _ _ => apply dwp_bind, dwp_read_u32; [done|]; intros ??? _ ?
  | |- dwp (mbind _ read_ipv4addr) _ _ =>
      apply dwp_bind, dwp_read_ipv4addr; [done|]; intros ??? _ ?
  | |- dwp (mbind _ Rtr.read_ipv6addr) _ _ =>
      apply dwp_bind, dwp_read_ipv6addr; [done|]; intros ????
  | |- dwp (mbind _ (read_bytes _)) _ _ =>
      apply dwp_bind, dwp_read_bytes; [done|]; intros ????? ?
  | |- dwp (mbind _ (Rtr.expect_len _ _ _)) _ _ => apply dwp_bind, dwp_rtr_expect_len; intros ?
  | |- dwp (mret _) _ _ => apply dwp_ret
  end.

Lemma dwp_rtr_header c Q : cwf c ->
  (forall v t field n c', cwf c' -> is_u16 field -> is_u32 n -> Q (v, t, field, n) c') ->
  dwp Rtr.decode_header_cur c Q.
Proof.
  intros Hc HQ. unfold Rtr.decode_header_cur. rtr_read.
  apply dwp_bind, dwp_version. intros w. rtr_read. apply dwp_bind, dwp_type. intros t.
  repeat rtr_read. by apply HQ.
Qed.

Lemma dwp_rtr_payload v t field n c : cwf c -> is_u16 field ->
  dwp (Rtr.decode_payload_cur v t field n) c (fun p _ => Rtr.pdu_wf p).
Proof.
  intros Hc Hf. unfold Rtr.decode_payload_cur. rtr_read.
  unfold Rtr.decode_arm, Rtr.decode_ipv4_prefix_body, Rtr.decode_ipv6_prefix_body,
    Rtr.decode_end_of_data_body,
    Rtr.decode_error_report_body, Rtr.decode_router_key_body.
  destruct t; try (repeat rtr_read; by (simpl; auto 10)).
  - destruct v; repeat rtr_read; by (simpl; auto 10).
  - destruct (n <? Rtr.HEADER_LEN); [done|]. by apply dwp_ret.
  - destruct (n <? Rtr.HEADER_LEN + 8); [done|]. repeat rtr_read.
    destruct (Shutdown.utf8_valid _) eqn:?; [|done]. apply dwp_ret. by (simpl; auto 10).
Qed.

Lemma rtr_header_safe buf : bytes buf ->
  match Rtr.decode_header buf with
  | Ok (_, _, field, n) => is_u16 field /\ is_u32 n
  | Err _ => True
  | _ => False
  end.
Proof.
  intros Hb. unfold Rtr.decode_header.
  pose proof (dwp_rtr_header (cursor_new buf)
    (fun r _ => let '(_, _, field, n) := r in is_u16 field /\ is_u32 n)) as H.
  unfold dwp in H. specialize (H (cwf_new _ Hb) ltac:(auto)).
  destruct (Rtr.decode_header_cur _) as [[[[[? ?] ?] ?] ?]| | |]; auto.
Qed.

Lemma rtr_payload_safe v t field n body : bytes body -> is_u16 field ->
  match Rtr.decode_payload v t field n body with
  | Ok p => Rtr.pdu_wf p
  | Err _ => True
  | _ => False
  end.
Proof.
  intros Hb Hf. unfold Rtr.decode_payload. destruct (negb _); [done|].
  pose proof (dwp_rtr_payload v t field n (cursor_new body) (cwf_new _ Hb) Hf) as H.
  unfold dwp in H. by destruct (Rtr.decode_payload_cur _ _ _ _ _) as [[? ?]| | |].
Qed.

(** ** Reading back what was written *)
Lemma Decodes_rtr_header v t field n : is_u16 field -> is_u32 n ->
  Decodes Rtr.decode_header_cur (Rtr.write_header v t field n) (v, t, field, n).
Proof.
  intros Hf Hn. unfold Rtr.decode_header_cur, Rtr.write_header.
  eapply Decodes_bind; [apply Decodes_u8|]. rewrite rtr_version_roundtrip.
  eapply Decodes_bind_nil; [apply Decodes_ret|].
  eapply Decodes_bind; [apply Decodes_u8|]. rewrite rtr_type_roundtrip.
  eapply Decodes_bind_nil; [apply Decodes_ret|].
  eapply Decodes_bind; [by apply Decodes_u16|].
  eapply Decodes_bind_ret; [by apply Decodes_u32|]. apply Decodes_ret.
Qed.

Lemma rtr_header_length v t field n : length (Rtr.write_header v t field n) = 8%nat.
Proof. unfold Rtr.write_header, u16_be, u32_be. by rewrite !length_app, !be_bytes_length. Qed.

Lemma Decodes_ipv6addr v : is_u128 v -> Decodes Rtr.read_ipv6addr (u128_be v) v.
Proof.
  intros Hv. eapply Decodes_bind_ret; [apply Decodes_bytes, be_bytes_length|].
  rewrite u128_be_roundtrip by done. apply Decodes_ret.
Qed.
Lemma Decodes_expect_len t n : Decodes (Rtr.expect_len t n n) [] tt.
Proof. unfold Rtr.expect_len. rewrite Z.eqb_refl. apply Decodes_ret. Qed.

(** One field of a PDU body read back. *)
Ltac rtr_back :=
  match goal with
  | |- Decodes (mret _) [] _ => apply Decodes_ret
  | |- Decodes (mbind _ (Rtr.expect_len _ _ _)) ?b _ =>
      eapply Decodes_bind_nil; [apply Decodes_expect_len|]
  | |- Decodes (mbind _ read_u8) (_ ++ _) _ => eapply Decodes_bind; [apply Decodes_u8|]
  | |- Decodes (mbind _ read_ipv4addr) (_ ++ _) _ =>
      eapply Decodes_bind; [by apply Decodes_ipv4addr|]
  | |- Decodes (mbind _ Rtr.read_ipv6addr) (_ ++ _) _ =>
      eapply Decodes_bind; [by apply Decodes_ipv6addr|]
  | |- Decodes (mbind _ read_u32) (_ ++ _) _ => eapply Decodes_bind; [by apply Decodes_u32|]
  | |- Decodes (mbind _ read_u32) _ _ => eapply Decodes_bind_ret; [by apply Decodes_u32|]
  end.

(** [p] is sent as a header and a body that the arm for its type reads back. *)
Definition sent_as (v : RtrVersion) (p : Pdu) (t : PduType) (field : Z) (body : list Z) : Prop :=
  Rtr.encode v p = Ok (Rtr.write_header v t field (8 + len body) ++ body)
  /\ is_u16 field /\ 8 + len body <= Rtr.MAX_PDU_LEN
  /\ Decodes (Rtr.decode_arm v t field (8 + len body)) body p.

Lemma sent_prefix_v4 v a l m pr asn : is_u32 pr -> is_u32 asn ->
  sent_as v (Ipv4Prefix a l m pr asn) TIpv4Prefix 0
    (Rtr.encode_prefix_body a l m (u32_be pr) asn).
Proof.
  intros ? ?. split_and!; [done|blia|done|].
  unfold Rtr.decode_arm, Rtr.encode_prefix_body, Rtr.decode_ipv4_prefix_body.
  repeat rtr_back. rewrite rtr_flags_roundtrip. rtr_back.
Qed.
Lemma sent_prefix_v6 v a l m pr asn : is_u128 pr -> is_u32 asn ->
  sent_as v (Ipv6Prefix a l m pr asn) TIpv6Prefix 0
    (Rtr.encode_prefix_body a l m (u128_be pr) asn).
Proof.
  intros ? ?. split_and!; [done|blia|done|].
  unfold Rtr.decode_arm, Rtr.encode_prefix_body, Rtr.decode_ipv6_prefix_body.
  repeat rtr_back. rewrite rtr_flags_roundtrip. rtr_back.
Qed.
Lemma sent_end_of_data_v1 s n iv : is_u16 s -> is_u32 n ->
  is_u32 (refresh iv) -> is_u32 (retry iv) -> is_u32 (expire iv) ->
  sent_as V1 (EndOfData s n (Some iv)) TEndOfData s
    (u32_be n ++ u32_be (refresh iv) ++ u32_be (retry iv) ++ u32_be (expire iv)).
Proof.
  intros. split_and!; [done..|]. unfold Rtr.decode_arm, Rtr.decode_end_of_data_body.
  repeat rtr_back. destruct iv. rtr_back.
Qed.
Lemma sent_error_report v c copy text : is_u16 c -> Shutdown.utf8_valid text = true ->
  16 + len copy + len text <= Rtr.MAX_PDU_LEN ->
  sent_as v (ErrorReport c copy text) TErrorReport c
    (u32_be (len copy) ++ copy ++ u32_be (len text) ++ text).
Proof.
  intros Hc Hu Hl. unfold Rtr.MAX_PDU_LEN in Hl. set (body := u32_be _ ++ _).
  assert (El : len body = 8 + len copy + len text).
  { unfold body, len, u32_be. rewrite !length_app, !be_bytes_length. lia. }
  assert (as_u32 (len copy) = len copy /\ as_u32 (len text) = len text) as [E1 E2]
    by (unfold as_u32; split; apply Z.mod_small; widths; lia).
  split_and!; [|done|unfold Rtr.MAX_PDU_LEN; lia|].
  - unfold Rtr.encode. rewrite E1, E2. unfold Rtr.HEADER_LEN.
    replace (as_u32 (8 + 4 + len copy + 4 + len text)) with (8 + len body); [done|].
    unfold as_u32. rewrite El, Z.mod_small by (widths; lia). lia.
  - unfold Rtr.decode_arm, Rtr.decode_error_report_body, Rtr.HEADER_LEN.
    rewrite (proj2 (Z.ltb_ge _ _)) by (widths; lia). unfold body.
    eapply Decodes_bind; [apply Decodes_u32; widths; lia|].
    eapply Decodes_bind; [apply Decodes_bytes; by rewrite len_to_nat|].
    eapply Decodes_bind; [apply Decodes_u32; widths; lia|].
    eapply Decodes_bind_ret; [apply Decodes_bytes; by rewrite len_to_nat|].
    rewrite Hu. apply Decodes_ret.
Qed.

Lemma rtr_sent v p : Rtr.pdu_encodable v p -> exists t field body, sent_as v p t field body.
Proof.
  assert (H0 : is_u16 0) by blia.
  assert (Hs : forall t field body, is_u16 field -> 8 + len body <= Rtr.MAX_PDU_LEN ->
    Rtr.encode v p = Ok (Rtr.write_header v t field (8 + len body) ++ body) ->
    Decodes (Rtr.decode_arm v t field (8 + len body)) body p ->
    exists t field body, sent_as v p t field body).
  { intros t field body ? ? ? ?. by exists t, field, body. }
  intros [Hwf Hv].
  destruct p as [s n|s n| |s|a l m pr asn|a l m pr asn|s n iv| |ec copy text|];
    cbn [Rtr.pdu_wf] in Hwf.
  - destruct Hwf. apply (Hs TSerialNotify s (u32_be n)); try done.
    unfold Rtr.decode_arm. repeat rtr_back.
  - destruct Hwf. apply (Hs TSerialQuery s (u32_be n)); try done.
    unfold Rtr.decode_arm. repeat rtr_back.
  - apply (Hs TResetQuery 0 []); try done. unfold Rtr.decode_arm. repeat rtr_back.
  - apply (Hs TCacheResponse s []); try done. unfold Rtr.decode_arm. repeat rtr_back.
  - destruct Hwf as (? & ? & ? & ?). do 3 eexists. by apply sent_prefix_v4.
  - destruct Hwf as (? & ? & ? & ?). do 3 eexists. by apply sent_prefix_v6.
  - destruct Hwf as (? & ? & Hiv). destruct v, iv as [iv|]; try done.
    + apply (Hs TEndOfData s (u32_be n)); try done.
      unfold Rtr.decode_arm, Rtr.decode_end_of_data_body. repeat rtr_back.
    + destruct Hiv as (? & ? & ?). do 3 eexists. by apply sent_end_of_data_v1.
  - apply (Hs TCacheReset 0 []); try done. unfold Rtr.decode_arm. repeat rtr_back.
  - destruct Hwf as (? & _ & _ & ?). do 3 eexists. by apply sent_error_report.
  - apply (Hs TRouterKey 0 []); try done. unfold Rtr.decode_arm. apply Decodes_ret.
Qed.

Lemma read_pdu_sent v p t field body tl : sent_as v p t field body -> 
  Rtr.read_pdu ((Rtr.write_header v t field (8 + len body) ++ body) ++ tl) = Some (Ok (v, p), tl).
Proof.
  intros (He & Hf & Hl & Hd). set (h := Rtr.write_header v t field (8 + len body)).
  assert (Eh : length h = 8%nat) by apply rtr_header_length.
  unfold Rtr.MAX_PDU_LEN in Hl.
  unfold Rtr.read_pdu. rewrite <- app_assoc, take_app_length', drop_app_length' by done.
  rewrite (proj2 (Nat.ltb_ge _ _)) by (rewrite length_app; lia).
  assert (Eh' : Rtr.decode_header h = Ok (v, t, field, 8 + len body)).
  { unfold Rtr.decode_header.
    destruct (Decodes_rtr_header v t field (8 + len body) Hf ltac:(widths; lia) (cursor_new h) [])
      as (c' & -> & _); [unfold cok; simpl; lia|by rewrite rest_cursor_new, app_nil_r|done]. }
  rewrite Eh'. unfold Rtr.MAX_PDU_LEN. rewrite (proj2 (Z.ltb_ge _ _)) by lia.
  replace (Z.to_nat (8 + len body - 8)) with (length body) by (widths; lia).
  rewrite (proj2 (Nat.ltb_ge _ _)) by (rewrite length_app; lia).
  rewrite take_app_length, drop_app_length. unfold Rtr.decode_payload.
  replace (len (h ++ body) =? 8 + len body) with true
    by (symmetry; apply Z.eqb_eq; unfold len; rewrite length_app; lia). cbn [negb].
  destruct (Decodes_bind_all (read_bytes (Z.to_nat Rtr.HEADER_LEN))
    (fun _ => Rtr.decode_arm v t field (8 + len body)) h body h p) with (c := cursor_new (h ++ body))
    as (c' & E & _); [by apply Decodes_bytes|by apply Decodes_all|unfold cok; simpl; lia
      |apply rest_cursor_new|].
  unfold Rtr.decode_payload_cur. by rewrite E.
Qed.
