(* ===== verification/Roa.v ===== *)
(** The ROA cache ([pathvector-rpki/src/table.rs]): one [RouteMap] of ROA entries
    per address family, and RFC 6811 origin validation on it. *)
From Stdlib Require Import ZArith Lia Bool.
From stdpp Require Import base tactics numbers decidable list.
From S2P Require Import Prelude Addr RouteMap Rtr.
Open Scope Z_scope.

Inductive RoaValidity := Valid | Invalid | NotFound.
#[export] Instance RoaValidity_eq_dec : EqDecision RoaValidity.
Proof. solve_decision. Defined.

Record RoaEntry := mkRoaEntry { roa_max_len : Z; roa_asn : Z }.
#[export] Instance RoaEntry_eq_dec : EqDecision RoaEntry.
Proof. solve_decision. Defined.

Section Roa.
Context `{P : IpPrefixOps} {M : RouteMapOps}.

(** ** [FamilyTable<A>] *)
Definition FamilyTable (f : Family) : Type := RouteMap f (list RoaEntry).
Definition ft_new {f} : FamilyTable f := rm_new.
Definition ft_insert {f} (t : FamilyTable f) (prefix : IpPrefix f) (entry : RoaEntry)
    : FamilyTable f :=
  let entries := default [] (rm_get t prefix) in
  rm_insert t prefix
    (if bool_decide (entry ∈ entries) then entries else entries ++ [entry]).
Definition ft_remove {f} (t : FamilyTable f) (prefix : IpPrefix f) (entry : RoaEntry)
    : FamilyTable f :=
  match rm_get t prefix with
  | None => t
  | Some entries =>
      match List.filter (fun e => negb (bool_decide (e = entry))) entries with
      | [] => rm_remove t prefix
      | entries' => rm_insert t prefix entries'
      end
  end.
Definition ft_len {f} (t : FamilyTable f) : nat :=
  sum_list_with (fun x => length (snd x)) (rm_iter t).
Definition ft_clear {f} (t : FamilyTable f) : FamilyTable f := rm_new.

(** [entries.iter().any(|e| e.asn != 0 && e.asn == origin_asn && prefix_len <= e.max_len)] *)
Definition authorizes (prefix_len origin_asn : Z) (e : RoaEntry) : bool :=
  negb (roa_asn e =? 0) && (roa_asn e =? origin_asn) && (prefix_len <=? roa_max_len e).
(** [for len in (0..=prefix_len).rev()], from length [n] down *)
Fixpoint scan_ancestors {f} (t : FamilyTable f) (prefix prefix_len origin_asn : Z) (n : nat)
    (saw_covering : bool) : RoaValidity :=
  let next (saw : bool) : RoaValidity :=
    match n with
    | O => if saw then Invalid else NotFound
    | S n' => scan_ancestors t prefix prefix_len origin_asn n' saw
    end in
  match prefix_new f prefix (Z.of_nat n) with
  | None => next saw_covering
  | Some ancestor =>
      match rm_get t ancestor with
      | None => next saw_covering
      | Some entries =>
          if existsb (authorizes prefix_len origin_asn) entries then Valid else next true
      end
  end.
Definition ft_validate {f} (t : FamilyTable f) (prefix prefix_len origin_asn : Z)
    : RoaValidity :=
  match rm_longest_match_entry t prefix with
  | None => NotFound
  | Some _ => scan_ancestors t prefix prefix_len origin_asn (Z.to_nat prefix_len) false
  end.

(** ** [RoaTable]: both families and the serial *)
Record RoaTable := mkRoaTable {
  v4 : FamilyTable FamV4;
  v6 : FamilyTable FamV6;
  table_serial : Z;
  has_serial : bool;
}.
Definition roa_new : RoaTable := mkRoaTable ft_new ft_new 0 false.
Definition validate_v4 (t : RoaTable) := ft_validate (v4 t).
Definition validate_v6 (t : RoaTable) := ft_validate (v6 t).
Definition roa_len (t : RoaTable) : nat := (ft_len (v4 t) + ft_len (v6 t))%nat.
Definition apply_flagged {f} (t : FamilyTable f) (prefix : IpPrefix f) (entry : RoaEntry)
    (announce : bool) : FamilyTable f :=
  if announce then ft_insert t prefix entry else ft_remove t prefix entry.
Definition apply_prefix_pdu (t : RoaTable) (pdu : Pdu) : RoaTable :=
  match pdu with
  | Ipv4Prefix announce prefix_len max_len prefix asn =>
      match prefix_new FamV4 prefix prefix_len with
      | None => t
      | Some p => mkRoaTable (apply_flagged (v4 t) p (mkRoaEntry max_len asn) announce) (v6 t)
                    (table_serial t) (has_serial t)
      end
  | Ipv6Prefix announce prefix_len max_len prefix asn =>
      match prefix_new FamV6 prefix prefix_len with
      | None => t
      | Some p => mkRoaTable (v4 t) (apply_flagged (v6 t) p (mkRoaEntry max_len asn) announce)
                    (table_serial t) (has_serial t)
      end
  | _ => t
  end.
Definition roa_clear (t : RoaTable) : RoaTable :=
  mkRoaTable (ft_clear (v4 t)) (ft_clear (v6 t)) (table_serial t) false.
Definition set_serial (t : RoaTable) (serial : Z) : RoaTable :=
  mkRoaTable (v4 t) (v6 t) serial true.
Definition roa_serial (t : RoaTable) : option Z :=
  if has_serial t then Some (table_serial t) else None.

Definition family_table (t : RoaTable) (f : Family) : FamilyTable f :=
  match f with FamV4 => v4 t | FamV6 => v6 t end.
(** [RoaLookup::lookup] of the policy crate *)
Definition roa_lookup (t : RoaTable) (f : Family) : Z -> Z -> Z -> RoaValidity :=
  match f with FamV4 => validate_v4 t | FamV6 => validate_v6 t end.

(** ** RFC 6811, on the set of validated ROA payloads *)
Definition vrp {f} (t : FamilyTable f) (p : IpPrefix f) (e : RoaEntry) : Prop :=
  exists es, rm_get t p = Some es /\ e ∈ es.
(** [covers p a n]: [p] contains [a] and is no longer than [n]. *)
Definition covers {f} (p : IpPrefix f) (a n : Z) : Prop :=
  prefix_mask p <= n /\ prefix_contains p a = true.
Definition rfc6811 {f} (S : IpPrefix f -> RoaEntry -> Prop) (a n asn : Z) (v : RoaValidity)
    : Prop :=
  match v with
  | Valid => exists p e, S p e /\ covers p a n /\ asn <> 0 /\ roa_asn e = asn
               /\ n <= roa_max_len e
  | Invalid => (exists p e, S p e /\ covers p a n)
      /\ forall p e, S p e -> covers p a n ->
           ~ (asn <> 0 /\ roa_asn e = asn /\ n <= roa_max_len e)
  | NotFound => forall p e, S p e -> ~ covers p a n
  end.
(** The table keeps no empty entry list and no duplicate. *)
Definition table_ok {f} (t : FamilyTable f) : Prop :=
  forall p es, rm_get t p = Some es -> es <> [] /\ NoDup es.

(** The payloads left by a history of prefix PDUs: an announcement adds one, a
    withdrawal removes it, and PDUs of the other family do not matter. *)
Definition pdu_payload (f : Family) (pdu : Pdu) : option (IpPrefix f * RoaEntry * bool) :=
  match f, pdu with
  | FamV4, Ipv4Prefix announce n m a asn =>
      match prefix_new FamV4 a n with
      | Some p => Some (p, mkRoaEntry m asn, announce) | None => None end
  | FamV6, Ipv6Prefix announce n m a asn =>
      match prefix_new FamV6 a n with
      | Some p => Some (p, mkRoaEntry m asn, announce) | None => None end
  | _, _ => None
  end.
Definition payload_step (f : Family) (S : IpPrefix f -> RoaEntry -> Prop) (pdu : Pdu)
    : IpPrefix f -> RoaEntry -> Prop := fun q e =>
  match pdu_payload f pdu with
  | Some (p, e', announce) =>
      if decide (prefix_masked p = prefix_masked q /\ e' = e) then announce = true else S q e
  | None => S q e
  end.
Definition payloads (f : Family) (hist : list Pdu) : IpPrefix f -> RoaEntry -> Prop :=
  foldl (payload_step f) (fun _ _ => False) hist.

(** * Facts *)
Context {L : IpPrefixLaws} {ML : RouteMapLaws}.

Lemma rm_get_masked_eq {f V} (m : RouteMap f V) p q :
  prefix_masked p = prefix_masked q -> rm_get m p = rm_get m q.
Proof. intros E. by rewrite <- (rm_get_masked f V m p), E, rm_get_masked. Qed.

Lemma vrp_insert f (t : FamilyTable f) p e q e' :
  vrp (ft_insert t p e) q e'
  <-> (prefix_masked p = prefix_masked q /\ e = e') \/ vrp t q e'.
Proof.
  unfold vrp, ft_insert. rewrite rm_get_insert.
  destruct (decide (prefix_masked p = prefix_masked q)) as [E|E]; [|naive_solver].
  rewrite (rm_get_masked_eq t p q E). destruct (rm_get t q) as [es|]; cbn [default from_option].
  - case_bool_decide as Hin; setoid_rewrite (inj_iff Some); split.
    + intros (? & <- & ?). right. by exists es.
    + intros [[_ <-]|(? & <- & ?)]; by eexists.
    + intros (? & <- & [?| ->%list_elem_of_singleton]%elem_of_app); [|by left].
      right. by exists es.
    + intros [[_ <-]|(? & <- & ?)]; eexists; (split; [done|]); rewrite elem_of_app;
        [right; by left|by left].
  - rewrite bool_decide_false by apply not_elem_of_nil. split.
    + intros (? & [= <-] & ->%list_elem_of_singleton). by left.
    + intros [[_ <-]|(? & ? & _)]; [|done]. eexists. split; [done|left].
Qed.

Lemma vrp_remove f (t : FamilyTable f) p e q e' :
  vrp (ft_remove t p e) q e'
  <-> ~ (prefix_masked p = prefix_masked q /\ e = e') /\ vrp t q e'.
Proof.
  unfold vrp, ft_remove. destruct (rm_get t p) as [es|] eqn:Ep.
  - assert (Hf : forall x, x ∈ List.filter (fun y => negb (bool_decide (y = e))) es
      <-> x <> e /\ x ∈ es).
    { intros x. rewrite !list_elem_of_In, filter_In, negb_true_iff, bool_decide_eq_false. tauto. }
    destruct (List.filter _ es) as [|e0 es'] eqn:Ef;
      rewrite ?rm_get_remove, ?rm_get_insert;
      (destruct (decide (prefix_masked p = prefix_masked q)) as [E|E]; [|naive_solver]);
      rewrite <- (rm_get_masked_eq t p q E), Ep.
    + split; [by intros (? & ? & _)|]. intros [Hn (? & [= <-] & Hin)].
      destruct (not_elem_of_nil e'). apply Hf. split; [|done]. intros ->. by apply Hn.
    + split.
      * intros (? & [= <-] & [Hne Hin]%Hf). split; [|by exists es]. by intros [_ ->].
      * intros [Hn (? & [= <-] & Hin)]. eexists. split; [done|]. apply Hf.
        split; [|done]. intros ->. by apply Hn.
  - split; [|naive_solver]. intros (es & Eq & Hin). split; [|by exists es].
    intros [E _]. rewrite <- (rm_get_masked_eq t p q E) in Eq. congruence.
Qed.

Lemma table_ok_insert f (t : FamilyTable f) p e : table_ok t -> table_ok (ft_insert t p e).
Proof.
  intros Ht q es. unfold ft_insert. rewrite rm_get_insert.
  destruct (decide _) as [E|E]; [|apply Ht]. intros [= <-].
  destruct (rm_get t p) as [es|] eqn:Ep; cbn [default from_option].
  - destruct (Ht _ _ Ep) as [Hn Hd]. case_bool_decide; [done|]. split; [by destruct es|].
    apply NoDup_app. split_and!; [done| |apply NoDup_singleton].
    intros x Hx ->%list_elem_of_singleton. done.
  - rewrite bool_decide_false by apply not_elem_of_nil. split; [done|apply NoDup_singleton].
Qed.

Lemma table_ok_remove f (t : FamilyTable f) p e : table_ok t -> table_ok (ft_remove t p e).
Proof.
  intros Ht q es. unfold ft_remove. destruct (rm_get t p) as [es0|] eqn:Ep; [|apply Ht].
  assert (Hnd : NoDup (List.filter (fun y => negb (bool_decide (y = e))) es0)).
  { destruct (Ht _ _ Ep) as [_ Hd%NoDup_ListNoDup]. apply NoDup_ListNoDup. by apply List.NoDup_filter. }
  destruct (List.filter _ es0) as [|e0 es'] eqn:Ef;
    rewrite ?rm_get_remove, ?rm_get_insert; (destruct (decide _); [|apply Ht]); [done|].
  intros [= <-]. by split.
Qed.

Lemma authorizes_spec n asn e : authorizes n asn e = true
  <-> asn <> 0 /\ roa_asn e = asn /\ n <= roa_max_len e.
Proof.
  unfold authorizes. rewrite !andb_true_iff, negb_true_iff, Z.eqb_neq, Z.eqb_eq, Z.leb_le.
  split; [intros [[H <-] ?]; tauto|intros (? & -> & ?); tauto].
Qed.

(** The entries stored at the ancestor of length [k]. *)
Definition level {f} (t : FamilyTable f) (a : Z) (k : nat) : option (list RoaEntry) :=
  match prefix_new f a (Z.of_nat k) with Some anc => rm_get t anc | None => None end.

Lemma scan_ancestors_level {f} (t : FamilyTable f) a n asn k saw :
  scan_ancestors t a n asn k saw =
  let next (saw : bool) := match k with
    | O => if saw then Invalid else NotFound
    | S k' => scan_ancestors t a n asn k' saw end in
  match level t a k with
  | None => next saw
  | Some es => if existsb (authorizes n asn) es then Valid else next true
  end.
Proof. unfold level. by destruct k; cbn [scan_ancestors]; destruct (prefix_new _ _ _). Qed.

Lemma scan_levels f (t : FamilyTable f) a n asn k saw :
  match scan_ancestors t a n asn k saw with
  | Valid => exists j es, (j <= k)%nat /\ level t a j = Some es
      /\ existsb (authorizes n asn) es = true
  | Invalid => (saw = true \/ exists j es, (j <= k)%nat /\ level t a j = Some es)
      /\ forall j es, (j <= k)%nat -> level t a j = Some es ->
           existsb (authorizes n asn) es = false
  | NotFound => saw = false /\ forall j, (j <= k)%nat -> level t a j = None
  end.
Proof.
  revert saw. induction k as [|k IH]; intros saw; rewrite scan_ancestors_level;
    destruct (level t a _) as [es|] eqn:El; cbn zeta.
  - destruct (existsb _ es) eqn:Ex; [by exists 0%nat, es|]. split; [right; by exists 0%nat, es|].
    intros j es' Hj. assert (j = 0%nat) as -> by lia. congruence.
  - assert (H0 : forall j, (j <= 0)%nat -> level t a j = None)
      by (intros j Hj; by assert (j = 0%nat) as -> by lia).
    destruct saw; split; auto. intros j es Hj. by rewrite H0.
  - destruct (existsb _ es) eqn:Ex; [by exists (S k), es|]. specialize (IH true).
    destruct (scan_ancestors t a n asn k true).
    + destruct IH as (j & es' & ? & ?). exists j, es'. split; [lia|done].
    + destruct IH as [_ IH]. split; [right; by exists (S k), es|].
      intros j es' Hj. destruct (decide (j = S k)) as [->|]; [congruence|]. apply IH. lia.
    + by destruct IH.
  - specialize (IH saw). destruct (scan_ancestors t a n asn k saw).
    + destruct IH as (j & es' & ? & ?). exists j, es'. split; [lia|done].
    + destruct IH as [IH1 IH2]. split.
      * destruct IH1 as [|(j & es & ? & ?)]; [by left|]. right. exists j, es. split; [lia|done].
      * intros j es' Hj. destruct (decide (j = S k)) as [->|]; [congruence|]. apply IH2. lia.
    + destruct IH as [-> IH]. split; [done|]. intros j Hj.
      destruct (decide (j = S k)) as [->|]; [done|]. apply IH. lia.
Qed.

(** The levels up to [n] hold exactly the payloads that cover the query. *)
Lemma level_vrp f (t : FamilyTable f) a j es e : addr_ok f a -> Z.of_nat j <= width f ->
  level t a j = Some es -> e ∈ es ->
  exists p, vrp t p e /\ covers p a (Z.of_nat j).
Proof.
  intros Ha Hj Hl He. unfold level in Hl.
  destruct (prefix_new f a (Z.of_nat j)) as [anc|] eqn:En; [|done].
  exists anc. split; [by exists es|].
  destruct (proj1 (masked_ancestor f a (Z.of_nat j) anc anc En Ha ltac:(lia)) eq_refl).
  split; [lia|done].
Qed.
Lemma vrp_level f (t : FamilyTable f) a n p e : addr_ok f a ->
  vrp t p e -> covers p a n ->
  exists j es, Z.of_nat j <= n /\ level t a j = Some es /\ e ∈ es.
Proof.
  intros Ha (es & Hg & He) [Hm Hc]. pose proof (prefix_mask_ok f p) as Hw.
  exists (Z.to_nat (prefix_mask p)), es. rewrite Z2Nat.id by lia. split; [done|].
  split; [|done]. unfold level. rewrite Z2Nat.id by lia.
  destruct (prefix_new_ok f a (prefix_mask p) Ha Hw) as (anc & Hnew & _). rewrite Hnew.
  rewrite <- Hg. symmetry. apply rm_get_masked_eq.
  by apply (masked_ancestor f a (prefix_mask p) p anc Hnew Ha Hw).
Qed.

Lemma validate_rfc6811 f (t : FamilyTable f) a n asn : table_ok t -> addr_ok f a ->
  0 <= n <= width f -> rfc6811 (vrp t) a n asn (ft_validate t a n asn).
Proof.
  intros Ht Ha Hn. unfold ft_validate.
  destruct (rm_longest_match_entry t a) as [e0|] eqn:Em.
  - pose proof (scan_levels f t a n asn (Z.to_nat n) false) as Hs.
    destruct (scan_ancestors _ _ _ _ _ _); cbn [rfc6811].
    + destruct Hs as (j & es & Hj & Hl & Hx). apply existsb_exists in Hx as (e & He & Hx).
      apply list_elem_of_In in He. apply authorizes_spec in Hx.
      destruct (level_vrp f t a j es e Ha ltac:(lia) Hl He) as (p & Hv & Hc1 & Hc2).
      exists p, e. split_and!; try done; [|tauto..]. split; [lia|done].
    + destruct Hs as [Hs1 Hs2]. split.
      * destruct Hs1 as [|(j & es & Hj & Hl)]; [done|].
        assert (exists e, e ∈ es) as [e He].
        { unfold level in Hl. destruct (prefix_new _ _ _); [|done].
          destruct (Ht _ _ Hl) as [Hne _]. destruct es as [|e es]; [done|]. exists e. left. }
        destruct (level_vrp f t a j es e Ha ltac:(lia) Hl He) as (p & Hv & Hc1 & Hc2).
        exists p, e. split; [done|]. split; [lia|done].
      * intros p e Hv Hc Hau. destruct (vrp_level f t a n p e Ha Hv Hc) as (j & es & Hj & Hl & He).
        assert (existsb (authorizes n asn) es = true).
        { apply existsb_exists. exists e. rewrite <- list_elem_of_In. split; [done|].
          by apply authorizes_spec. }
        rewrite (Hs2 j es) in H; [done|lia|done].
    + destruct Hs as [_ Hs]. intros p e Hv Hc.
      destruct (vrp_level f t a n p e Ha Hv Hc) as (j & es & Hj & Hl & He).
      rewrite Hs in Hl; [done|lia].
  - intros p e (es & Hg & _) [_ Hc]. pose proof (proj1 (rm_longest_none f _ t a Ha) Em) as H.
    rewrite <- (rm_get_masked f _ t p) in Hg.
    specialize (H (prefix_masked p) es). rewrite rm_iter_elem, prefix_masked_idemp in H.
    specialize (H (conj eq_refl Hg)). rewrite prefix_contains_spec in H, Hc by done.
    rewrite prefix_masked_mask, prefix_masked_ip, mask_addr_idemp in H;
      [congruence|pose proof (prefix_mask_ok f p); lia..].
Qed.

(** The three verdicts exclude one another. *)
Lemma rfc6811_unique f (S : IpPrefix f -> RoaEntry -> Prop) a n asn v w :
  rfc6811 S a n asn v -> rfc6811 S a n asn w -> v = w.
Proof.
  destruct v, w; simpl; intros Hv Hw; try done; exfalso.
  - destruct Hv as (p & e & ? & ? & ?), Hw as [_ Hw]. by apply (Hw p e).
  - destruct Hv as (p & e & ? & ? & ?). by apply (Hw p e).
  - destruct Hw as (p & e & ? & ? & ?), Hv as [_ Hv]. by apply (Hv p e).
  - destruct Hv as [(p & e & ? & ?) _]. by apply (Hw p e).
  - destruct Hw as (p & e & ? & ? & ?). by apply (Hv p e).
  - destruct Hw as [(p & e & ? & ?) _]. by apply (Hv p e).
Qed.
Lemma rfc6811_ext f (S S' : IpPrefix f -> RoaEntry -> Prop) a n asn v :
  (forall p e, S p e <-> S' p e) -> rfc6811 S a n asn v -> rfc6811 S' a n asn v.
Proof. intros E. destruct v; simpl; setoid_rewrite E; done. Qed.

(** The table after a history of PDUs holds exactly its payloads. *)
Lemma family_apply t pdu f :
  family_table (apply_prefix_pdu t pdu) f
  = match pdu_payload f pdu with
    | Some (p, e, announce) => apply_flagged (family_table t f) p e announce
    | None => family_table t f
    end.
Proof. destruct f, pdu; simpl; try done; by destruct (prefix_new _ _ _). Qed.

Lemma payload_step_vrp f t pdu q e :
  vrp (family_table (apply_prefix_pdu t pdu) f) q e
  <-> payload_step f (vrp (family_table t f)) pdu q e.
Proof.
  rewrite family_apply. unfold payload_step.
  destruct (pdu_payload f pdu) as [[[p e'] []]|]; [|..|done]; simpl; unfold apply_flagged.
  - rewrite vrp_insert. destruct (decide _); naive_solver.
  - rewrite vrp_remove. destruct (decide _); naive_solver.
Qed.

Lemma payload_step_ext f S S' pdu q e : (forall q e, S q e <-> S' q e) ->
  payload_step f S pdu q e <-> payload_step f S' pdu q e.
Proof. intros E. unfold payload_step. destruct (pdu_payload f pdu) as [[[? ?] ?]|]; [|apply E]. 
  destruct (decide _); [done|apply E]. Qed.

Lemma apply_history f t hist :
  (forall q e, vrp (family_table (foldl apply_prefix_pdu t hist) f) q e
     <-> foldl (payload_step f) (vrp (family_table t f)) hist q e)
  /\ (table_ok (family_table t f) -> table_ok (family_table (foldl apply_prefix_pdu t hist) f)).
Proof.
  induction hist as [|pdu hist IH] using rev_ind; [done|]. rewrite !foldl_snoc. split.
  - intros q e. rewrite payload_step_vrp. apply payload_step_ext, IH.
  - intros Ht. specialize (proj2 IH Ht) as Ht'. rewrite family_apply.
    destruct (pdu_payload f pdu) as [[[p e] []]|]; [|..|done]; simpl.
    + by apply table_ok_insert.
    + by apply table_ok_remove.
Qed.

Lemma table_ok_new f : table_ok (family_table roa_new f).
Proof. intros p es. destruct f; simpl; unfold ft_new; by rewrite rm_get_new. Qed.
Lemma vrp_new f q e : ~ vrp (family_table roa_new f) q e.
Proof. intros (es & H & _). destruct f; simpl in H; unfold ft_new in H; by rewrite rm_get_new in H. Qed.

Lemma foldl_payload_ext f S S' hist : (forall q e, S q e <-> S' q e) ->
  forall q e, foldl (payload_step f) S hist q e <-> foldl (payload_step f) S' hist q e.
Proof.
  intros E. induction hist as [|pdu hist IH] using rev_ind; [done|].
  intros q e. rewrite !foldl_snoc. by apply payload_step_ext.
Qed.

End Roa.
