(* ===== verification/RtrClient.v ===== *)
(** The RTR client ([pathvector-rpki/src/client.rs]): session synchronisation,
    version fallback and reconnection.

    The source is an async loop over a TCP stream; here it is a state machine.
    [Phase] is the await point the loop is suspended at, an event is what that
    await returns (a PDU, an I/O or decoding error, a timer), and [client_step]
    runs the code up to the next await point, returning the PDUs written. *)
From Stdlib Require Import ZArith Lia Bool.
From stdpp Require Import base tactics numbers decidable list.
From S2P Require Import Prelude Addr RouteMap Rtr Roa.
Open Scope Z_scope.

Definition ERROR_CODE_UNSUPPORTED_PROTOCOL_VERSION : Z := 4.
Definition ERROR_CODE_NO_DATA_AVAILABLE : Z := 2.

(** The text of [UnexpectedPdu] is left out. *)
Inductive RtrError :=
| RtrIo
| RtrPdu (e : PduError)
| UnexpectedPdu
| ErrorReported (code : Z) (text : list Z)
| SessionIdMismatch (expected got : Z)
| RtrClosed.

Section Client.
Context `{P : IpPrefixOps} {M : RouteMapOps}.

(** The fields of [RtrConfig] the loop reads; durations in seconds. *)
Record RtrConfig := mkRtrConfig {
  refresh_interval : Z;
  retry_interval : Z;
  initial_version : RtrVersion;
}.

(** [last_error] is [Display]ed in the source; the error itself is kept here.  The
    two clocks of [RtrStatus] are one reading [last_update]. *)
Record RtrStatus := mkRtrStatus {
  connected : bool;
  version : option RtrVersion;
  status_serial : option Z;
  roa_count : nat;
  last_update : option Z;
  last_error : option (RtrError + list Z);
}.
Definition disconnected : RtrStatus := mkRtrStatus false None None 0 None None.

(** Where the task is suspended: waiting for the TCP connection (or sleeping
    before it), for the answer to a query, for the next PDU of the diff, or idle
    until the refresh timer or a notification. *)
Inductive Phase :=
| PConnect
| PAwaitResponse (attempted_fallback force_reset : bool)
| PDiff (expected_session_id : Z)
| PIdle.

Record Client := mkClient {
  config : RtrConfig;
  table : RoaTable;
  status : RtrStatus;
  changed : Z;
  negotiated_version : RtrVersion;
  session_id : option Z;
  cur_refresh : Z;
  cur_retry : Z;
  phase : Phase;
}.

Inductive RtrEvent :=
| EvConnected
| EvConnectFailed
| EvPdu (wire_version : RtrVersion) (pdu : Pdu)
| EvReadError (e : RtrError)
| EvRefresh (* the refresh timer fired *).

(** [RtrClient::spawn] *)
Definition client_new (cfg : RtrConfig) : Client :=
  mkClient cfg roa_new disconnected 0 (initial_version cfg) None
    (refresh_interval cfg) (retry_interval cfg) PConnect.

(** Field assignments *)
Definition set_phase (c : Client) p : Client :=
  mkClient (config c) (table c) (status c) (changed c) (negotiated_version c) (session_id c)
    (cur_refresh c) (cur_retry c) p.
Definition set_table (c : Client) t : Client :=
  mkClient (config c) t (status c) (changed c) (negotiated_version c) (session_id c)
    (cur_refresh c) (cur_retry c) (phase c).
Definition set_status (c : Client) s : Client :=
  mkClient (config c) (table c) s (changed c) (negotiated_version c) (session_id c)
    (cur_refresh c) (cur_retry c) (phase c).
Definition set_version (c : Client) v : Client :=
  mkClient (config c) (table c) (status c) (changed c) v (session_id c)
    (cur_refresh c) (cur_retry c) (phase c).
Definition set_session_id (c : Client) s : Client :=
  mkClient (config c) (table c) (status c) (changed c) (negotiated_version c) s
    (cur_refresh c) (cur_retry c) (phase c).
Definition set_intervals (c : Client) r y : Client :=
  mkClient (config c) (table c) (status c) (changed c) (negotiated_version c) (session_id c)
    r y (phase c).
Definition notify_changed (c : Client) : Client :=
  mkClient (config c) (table c) (status c) ((changed c + 1) mod 2 ^ 64)
    (negotiated_version c) (session_id c) (cur_refresh c) (cur_retry c) (phase c).

Definition Sent : Type := list (RtrVersion * Pdu).

(** [run_session_loop] after an error: [set_disconnected], then a pause. *)
Definition set_disconnected (c : Client) (e : RtrError) : Client :=
  let s := status c in
  set_status c (mkRtrStatus false (version s) (status_serial s) (roa_count s) (last_update s)
    (Some (inl e))).
Definition fail (c : Client) (e : RtrError) : Client * Sent :=
  (set_phase (set_disconnected c e) PConnect, []).

(** The top of the loop of [sync_once]: choose and write the query. *)
Definition query (c : Client) (force_reset : bool) : Pdu :=
  if force_reset then ResetQuery
  else match roa_serial (table c), session_id c with
       | Some serial, Some sid => SerialQuery sid serial
       | _, _ => ResetQuery
       end.
Definition send_query (c : Client) (attempted_fallback force_reset : bool) : Client * Sent :=
  (set_phase c (PAwaitResponse attempted_fallback force_reset),
   [(negotiated_version c, query c force_reset)]).

(** [run_one_connection], up to its first read *)
Definition on_connected (c : Client) : Client * Sent :=
  send_query (set_intervals c (refresh_interval (config c)) (retry_interval (config c)))
    false false.

(** [sync_once], on a response *)
Definition on_response (c : Client) (attempted_fallback force_reset : bool)
    (observed_version : RtrVersion) (response : Pdu) : Client * Sent :=
  match response with
  | CacheResponse sid =>
      let c := if decide (observed_version = negotiated_version c) then c
               else set_version c observed_version in
      let c := if force_reset then set_table c (roa_clear (table c)) else c in
      (set_phase (set_session_id c (Some sid)) (PDiff sid), [])
  | ErrorReport error_code _ text =>
      if (error_code =? ERROR_CODE_UNSUPPORTED_PROTOCOL_VERSION) && negb attempted_fallback
      then
        let c := set_version c V0 in
        let c := set_table c (roa_clear (table c)) in
        send_query c true force_reset
      else if error_code =? ERROR_CODE_NO_DATA_AVAILABLE
      then
        let s := status c in
        let c := set_status c (mkRtrStatus (connected s) (version s) (status_serial s)
                   (roa_count s) (last_update s) (Some (inr text))) in
        send_query c attempted_fallback true
      else fail c (ErrorReported error_code text)
  | _ => fail c UnexpectedPdu
  end.

(** [apply_diff_stream] and the code of [run_one_connection] after it; [now] is
    the clock. *)
Definition on_diff (c : Client) (expected_session_id now : Z) (pdu : Pdu) : Client * Sent :=
  match pdu with
  | Ipv4Prefix _ _ _ _ _ | Ipv6Prefix _ _ _ _ _ =>
      (set_table c (apply_prefix_pdu (table c) pdu), [])
  | RouterKey => (c, [])
  | CacheReset => send_query (set_table c (roa_clear (table c))) false false
  | EndOfData sid serial intervals =>
      if negb (sid =? expected_session_id) then
        fail (set_table c (roa_clear (table c))) (SessionIdMismatch expected_session_id sid)
      else
        let c := set_table c (set_serial (table c) serial) in
        let c := notify_changed c in
        let c := match intervals with
                 | Some iv => set_intervals c (refresh iv) (retry iv)
                 | None => c
                 end in
        let c := set_status c (mkRtrStatus true (Some (negotiated_version c))
                   (roa_serial (table c)) (roa_len (table c)) (Some now) None) in
        (set_phase c PIdle, [])
  | _ => fail c UnexpectedPdu
  end.

(** The [select!] of [run_one_connection] *)
Definition on_idle_pdu (c : Client) (pdu : Pdu) : Client * Sent :=
  match pdu with
  | SerialNotify _ _ => send_query c false false
  | _ => fail c UnexpectedPdu
  end.

(** One event at the current await point; [None] when the task is not waiting
    for such an event. *)
Definition client_step (c : Client) (now : Z) (ev : RtrEvent) : option (Client * Sent) :=
  match phase c, ev with
  | PConnect, EvConnected => Some (on_connected c)
  | PConnect, EvConnectFailed => Some (fail c RtrIo)
  | PAwaitResponse fb fr, EvPdu v pdu => Some (on_response c fb fr v pdu)
  | PDiff sid, EvPdu _ pdu => Some (on_diff c sid now pdu)
  | PIdle, EvPdu _ pdu => Some (on_idle_pdu c pdu)
  | PIdle, EvRefresh => Some (send_query c false false)
  | (PAwaitResponse _ _ | PDiff _ | PIdle), EvReadError e => Some (fail c e)
  | _, _ => None
  end.

(** Runs, with the PDUs written. *)
Fixpoint client_run (c : Client) (evs : list (Z * RtrEvent)) : option (Client * Sent) :=
  match evs with
  | [] => Some (c, [])
  | (now, ev) :: evs' =>
      match client_step c now ev with
      | None => None
      | Some (c', out) =>
          match client_run c' evs' with
          | None => None
          | Some (c'', out') => Some (c'', out ++ out')
          end
      end
  end.

(** ** Facts *)

(** The PDUs of a diff that leave the task in the diff: prefixes and router keys. *)
Definition is_diff_pdu (p : Pdu) : bool :=
  match p with
  | Ipv4Prefix _ _ _ _ _ | Ipv6Prefix _ _ _ _ _ | RouterKey => true
  | _ => false
  end.
Definition pdu_events (l : list (Z * RtrVersion * Pdu)) : list (Z * RtrEvent) :=
  map (fun x => (fst (fst x), EvPdu (snd (fst x)) (snd x))) l.

Lemma client_run_app c evs1 evs2 :
  client_run c (evs1 ++ evs2)
  = match client_run c evs1 with
    | None => None
    | Some (c', out) =>
        match client_run c' evs2 with
        | None => None
        | Some (c'', out') => Some (c'', out ++ out')
        end
    end.
Proof.
  revert c. induction evs1 as [|[now ev] evs IH]; intros c; simpl.
  - by destruct (client_run c evs2) as [[? ?]|].
  - destruct (client_step c now ev) as [[c' out]|]; [|done]. rewrite IH.
    destruct (client_run c' evs) as [[c1 o1]|]; [|done].
    destruct (client_run c1 evs2) as [[c2 o2]|]; [|done]. by rewrite app_assoc.
Qed.

Lemma set_table_id c : set_table c (table c) = c.
Proof. by destruct c. Qed.

Lemma diff_run c sid l : phase c = PDiff sid ->
  Forall (fun x => is_diff_pdu (snd x) = true) l ->
  client_run c (pdu_events l)
  = Some (set_table c (foldl apply_prefix_pdu (table c) (map snd l)), []).
Proof.
  revert c. induction l as [|[[now v] p] l IH]; intros c Hp Hl; simpl.
  { by rewrite set_table_id. }
  apply Forall_cons in Hl as [Hd Hl]. simpl in Hd. unfold client_step. rewrite Hp.
  destruct p; try done; cbn [on_diff]; rewrite IH by done; by destruct c.
Qed.

(** [connected] is only reported with the serial of a completed sync: the task is
    connected and idle only with a known session and serial, and the next query
    resumes from them. *)
Definition client_inv (c : Client) : Prop :=
  match phase c with
  | PIdle => exists sid, session_id c = Some sid
  | PDiff sid => session_id c = Some sid
  | _ => True
  end
  /\ (has_serial (table c) = true -> session_id c <> None)
  /\ (phase c = PIdle -> has_serial (table c) = true /\ connected (status c) = true
       /\ status_serial (status c) = roa_serial (table c)).

Lemma client_inv_step c now ev c' out :
  client_inv c -> client_step c now ev = Some (c', out) -> client_inv c'.
Proof.
  intros (H1 & H2 & H3). unfold client_step, client_inv in *.
  destruct c as [cfg t s ch v sid r y ph]; simpl in *.
  destruct ph as [|fb fr|esid|], ev as [| |w p|e|]; try done; try (intros [= <- <-]; simpl; naive_solver).
  - unfold on_response.
    destruct p as [| | |sid'| | | | |code cp tx|]; cbn beta iota zeta;
      try (intros [= <- <-]; simpl; naive_solver).
    destruct (_ && _)%bool; [intros [= <- <-]; simpl; naive_solver|].
    destruct (_ =? _); intros [= <- <-]; simpl; naive_solver.
  - unfold on_diff.
    destruct p as [| | | |an n m a asn|an n m a asn|sid' ser iv| | |]; cbn beta iota zeta;
      try (intros [= <- <-]; simpl; naive_solver).
    destruct (negb _); [intros [= <- <-]; simpl; naive_solver|].
    intros [= <- <-]. destruct iv; simpl; naive_solver.
  - unfold on_idle_pdu. destruct p; intros [= <- <-]; simpl; naive_solver.
Qed.

Lemma client_inv_run cfg evs c out :
  client_run (client_new cfg) evs = Some (c, out) -> client_inv c.
Proof.
  assert (Hi : client_inv (client_new cfg)) by done. revert Hi. generalize (client_new cfg).
  revert c out. induction evs as [|[now ev] evs IH]; intros c out c0 Hi; simpl.
  { by intros [= <- <-]. }
  destruct (client_step c0 now ev) as [[c1 o1]|] eqn:E; [|done].
  destruct (client_run c1 evs) as [[c2 o2]|] eqn:E2; [|done]. intros [= <- <-].
  eapply IH; [|exact E2]. by eapply client_inv_step.
Qed.
End Client.
