(* ===== verification/RpkiTheorems.v ===== *)
(** Theorems on the RPKI side: the PDU codec, RFC 6811 validation over the ROA
    cache, and the synchronisation of the RTR client. *)
From Stdlib Require Import ZArith Lia Bool.
From stdpp Require Import base tactics numbers decidable list.
From S2P Require Import Prelude Addr Wire Notification RouteMap Rtr Roa RtrClient.
Open Scope Z_scope.

(** Reading [n] PDUs off a stream. *)
Fixpoint read_pdus (n : nat) (stream : list Z) : option (list (RtrVersion * Pdu) * list Z) :=
  match n with
  | O => Some ([], stream)
  | S n' =>
      match Rtr.read_pdu stream with
      | Some (Ok vp, rest) =>
          match read_pdus n' rest with
          | Some (l, tl) => Some (vp :: l, tl)
          | None => None
          end
      | _ => None
      end
  end.
(** Writing PDUs. *)
Definition write_pdus (l : list (RtrVersion * Pdu)) : Outcome PduError (list Z) :=
  foldr (fun vp acc => b ← Rtr.encode (fst vp) (snd vp); tl ← acc; mret (b ++ tl)) (mret []) l.

Lemma read_write_pdus l tl : Forall (fun vp => Rtr.pdu_encodable (fst vp) (snd vp)) l ->
  exists bs, write_pdus l = Ok bs /\ read_pdus (length l) (bs ++ tl) = Some (l, tl).
Proof.
  induction l as [|[v p] l IH]; intros Hl.
  { by exists []. }
  apply Forall_cons in Hl as [Hp Hl]. destruct (IH Hl) as (bs & Hw & Hr).
  destruct (rtr_sent v p Hp) as (t & field & body & Hs).
  exists ((Rtr.write_header v t field (8 + len body) ++ body) ++ bs). split.
  - cbn [write_pdus foldr fst snd]. rewrite (proj1 Hs). cbn [mbind outcome_bind].
    unfold write_pdus in Hw. by rewrite Hw.
  - cbn [length read_pdus]. rewrite <- app_assoc, (read_pdu_sent v p t field body) by done.
    by rewrite Hr.
Qed.

(** Reading a PDU off any byte stream never panics; it waits for more bytes,
    or consumes a nonempty prefix of at most 64 KiB and either reports an error or
    returns a PDU whose fields fit their widths and whose text is UTF-8. *)
Theorem rtr_read_total stream : bytes stream ->
  match Rtr.read_pdu stream with
  | None => True
  | Some (r, rest) =>
      returns r = true
      /\ (exists used, stream = used ++ rest /\ 8 <= len used <= 65536)
      /\ forall v p, r = Ok (v, p) -> Rtr.pdu_wf p
  end.
Proof.
  intros Hb. unfold Rtr.read_pdu. destruct (Nat.ltb_spec (length stream) 8); [done|].
  assert (Hsp : stream = take 8 stream ++ drop 8 stream) by (by rewrite take_drop).
  assert (Hl8 : length (take 8 stream) = 8%nat) by (rewrite length_take; lia).
  assert (H8 : exists used, stream = used ++ drop 8 stream /\ 8 <= len used <= 65536)
    by (exists (take 8 stream); split; [done|unfold len; lia]).
  pose proof (rtr_header_safe (take 8 stream) ltac:(by apply Forall_take)) as Hh.
  destruct (Rtr.decode_header _) as [[[[v t] field] n]| | |]; try done.
  destruct Hh as [Hf Hn]. unfold Rtr.MAX_PDU_LEN.
  destruct (Z.ltb_spec (64 * 1024) n); [done|].
  destruct (Nat.ltb_spec (length (drop 8 stream)) (Z.to_nat (n - 8))) as [|Hr]; [done|].
  assert (Hbf : bytes (take 8 stream ++ take (Z.to_nat (n - 8)) (drop 8 stream))).
  { apply Forall_app. split; [by apply Forall_take|by apply Forall_take, Forall_drop]. }
  pose proof (rtr_payload_safe v t field n _ Hbf Hf) as Hp. split_and!.
  - by destruct (Rtr.decode_payload _ _ _ _ _).
  - exists (take 8 stream ++ take (Z.to_nat (n - 8)) (drop 8 stream)).
    rewrite <- app_assoc, take_drop, <- Hsp. split; [done|].
    unfold len. rewrite length_app, Hl8, length_take. unfold is_u32 in Hn. lia.
  - intros v' p. destruct (Rtr.decode_payload _ _ _ _ _); try done. by intros [= <- <-].
Qed.
Lemma rtr_read_total_witness :
  match Rtr.read_pdu [1; 2; 0; 0; 0; 0; 0; 8; 7] with
  | None => True
  | Some (r, rest) =>
      returns r = true
      /\ (exists used, [1; 2; 0; 0; 0; 0; 0; 8; 7] = used ++ rest /\ 8 <= len used <= 65536)
      /\ forall v p, r = Ok (v, p) -> Rtr.pdu_wf p
  end.
Proof. apply (rtr_read_total [1; 2; 0; 0; 0; 0; 0; 8; 7]). flist; unfold is_u8; lia. Defined.

(** PDUs written to a stream are read back one by one, each at its version,
    whatever follows them. *)
Theorem rtr_stream_roundtrip l tl :
  Forall (fun vp => Rtr.pdu_encodable (fst vp) (snd vp)) l ->
  exists bs, write_pdus l = Ok bs /\ read_pdus (length l) (bs ++ tl) = Some (l, tl).
Proof. apply read_write_pdus. Qed.
Lemma rtr_stream_roundtrip_witness :
  exists bs, write_pdus [(V1, ResetQuery); (V0, EndOfData 7 9 None)] = Ok bs
    /\ read_pdus 2 (bs ++ [1]) = Some ([(V1, ResetQuery); (V0, EndOfData 7 9 None)], [1]).
Proof.
  apply (rtr_stream_roundtrip [(V1, ResetQuery); (V0, EndOfData 7 9 None)] [1]).
  repeat constructor; simpl; lia.
Defined.

Section Validation.
Context `{P : IpPrefixOps} {L : IpPrefixLaws} {M : RouteMapOps} {ML : RouteMapLaws}.

Lemma history_rfc6811 f hist a n asn : addr_ok f a -> 0 <= n <= width f ->
  rfc6811 (payloads f hist) a n asn (roa_lookup (foldl apply_prefix_pdu roa_new hist) f a n asn).
Proof.
  intros Ha Hn. destruct (apply_history f roa_new hist) as [Hv Hok].
  pose proof (validate_rfc6811 f _ a n asn (Hok (table_ok_new f)) Ha Hn) as H.
  apply rfc6811_ext with (S' := payloads f hist) in H; [by destruct f|].
  intros q e. rewrite Hv. apply foldl_payload_ext. intros q' e'. split; [|done].
  intros ?. by destruct (vrp_new f q' e').
Qed.
Lemma roa_lookup_serial t s f : roa_lookup (Roa.set_serial t s) f = roa_lookup t f.
Proof. by destruct f. Qed.

(** C34: after any history of prefix PDUs the cache gives, for every query, the
    verdict RFC 6811 defines on the payloads the history leaves: Valid when one
    that covers the route authorises its origin and length, Invalid when some
    cover it but none authorises it, NotFound when none covers it; AS 0 matches
    nothing, and exactly one verdict applies. *)
Theorem roa_validate_rfc6811 f hist a n asn v : addr_ok f a -> 0 <= n <= width f ->
  rfc6811 (payloads f hist) a n asn v
  <-> roa_lookup (foldl apply_prefix_pdu roa_new hist) f a n asn = v.
Proof.
  intros Ha Hn. pose proof (history_rfc6811 f hist a n asn Ha Hn) as H.
  split; [|by intros <-]. intros Hw. by eapply rfc6811_unique.
Qed.

(** A complete answer to a query leaves the client idle and connected, with
    the announced serial, and the cache holding the previous payloads (none
    after a forced reset) changed by exactly the PDUs of the answer; subscribers
    are notified once. *)
Theorem rtr_sync_applies_diff c fb fr v sid l now serial iv f :
  phase c = PAwaitResponse fb fr ->
  Forall (fun x => is_diff_pdu (snd x) = true) l ->
  exists c' out,
    client_run c ((now, EvPdu v (CacheResponse sid)) :: pdu_events l
                  ++ [(now, EvPdu v (EndOfData sid serial iv))]) = Some (c', out)
    /\ phase c' = PIdle /\ connected (status c') = true
    /\ roa_serial (table c') = Some serial /\ session_id c' = Some sid
    /\ negotiated_version c' = v
    /\ changed c' = (changed c + 1) mod 2 ^ 64
    /\ forall q e, vrp (family_table (table c') f) q e
         <-> foldl (payload_step f)
               (if fr then (fun _ _ => False) else vrp (family_table (table c) f))
               (map snd l) q e.
Proof.
  intros Hp Hl. cbn [client_run]. unfold client_step. rewrite Hp. cbn [on_response].
  set (c1 := set_phase _ _).
  assert (Hd : client_run c1 (pdu_events l)
    = Some (set_table c1 (foldl apply_prefix_pdu (table c1) (map snd l)), []))
    by (by apply (diff_run c1 sid)).
  rewrite client_run_app, Hd. cbn [client_run]. unfold client_step.
  cbn [set_table phase c1 set_phase on_diff]. rewrite Z.eqb_refl. cbn [negb].
  eexists _, _. split; [done|].
  assert (Ht : table c1 = if fr then roa_clear (table c) else table c)
    by (unfold c1; destruct fr, (decide _); by destruct c).
  assert (Hv : negotiated_version c1 = v).
  { unfold c1. destruct (decide (v = negotiated_version c)) as [->|], fr; by destruct c. }
  assert (Hs : session_id c1 = Some sid) by (unfold c1; destruct fr, (decide _); by destruct c).
  assert (Hc : changed c1 = changed c) by (unfold c1; destruct fr, (decide _); by destruct c).
  assert (Hg : forall t0, family_table (Roa.set_serial t0 serial) f = family_table t0 f)
    by (by destruct f).
  destruct iv as [ivs|]; (split; [done|]); (split; [done|]); (split; [done|]); (split; [exact Hs|]);
    (split; [exact Hv|]); (split; [by rewrite <- Hc|]); intros q e;
    cbn [table set_table set_phase set_status set_intervals notify_changed]; rewrite Hg;
    rewrite (proj1 (apply_history f (table c1) (map snd l))), Ht;
    apply foldl_payload_ext; intros q' e'; destruct fr; try done;
    (split; [|done]); intros (es & Hes & _); destruct f; simpl in Hes;
    unfold ft_clear in Hes; by rewrite rm_get_new in Hes.
Qed.

(** Whenever the client is idle it is connected, knows its session and
    serial, and on the refresh timer or a Serial Notify asks for the changes
    since exactly that serial. *)
Theorem rtr_idle_resumes cfg evs c out now : client_run (client_new cfg) evs = Some (c, out) ->
  phase c = PIdle ->
  connected (status c) = true
  /\ exists sid serial, session_id c = Some sid /\ status_serial (status c) = Some serial
     /\ forall ev, ev = EvRefresh \/ (exists v s n, ev = EvPdu v (SerialNotify s n)) ->
        exists c', client_step c now ev
          = Some (c', [(negotiated_version c, SerialQuery sid serial)]).
Proof.
  intros Hr Hp. destruct (client_inv_run _ _ _ _ Hr) as (H1 & _ & H3). rewrite Hp in H1.
  destruct H1 as [sid Hs], (H3 Hp) as (Hh & Hc & Hser). split; [done|].
  exists sid, (table_serial (table c)). unfold roa_serial in Hser. rewrite Hh in Hser.
  split_and!; [done..|]. intros ev He. unfold client_step. rewrite Hp.
  unfold send_query, query, roa_serial.
  destruct He as [->|(v & s & n & ->)]; cbn [on_idle_pdu]; unfold send_query, query, roa_serial;
    rewrite Hh, Hs; by eexists.
Qed.

(** Two loads of which the first is cut after one prefix PDU. *)
Lemma interrupted_load cfg an n m a asn : let pdu := Ipv4Prefix an n m a asn in
  has_serial (apply_prefix_pdu roa_new pdu) = false ->
  exists c v1 v2,
    client_run (client_new cfg)
      [(0, EvConnected); (0, EvPdu V1 (CacheResponse 7)); (0, EvPdu V1 pdu);
       (0, EvReadError RtrClosed);
       (9, EvConnected); (9, EvPdu V1 (CacheResponse 7)); (9, EvPdu V1 (EndOfData 7 1 None))]
    = Some (c, [(v1, ResetQuery); (v2, ResetQuery)])
    /\ phase c = PIdle /\ connected (status c) = true
    /\ table c = Roa.set_serial (apply_prefix_pdu roa_new pdu) 1.
Proof.
  intros pdu Hs. unfold pdu in *. destruct cfg as [r y v0].
    destruct v0; cbv -[apply_prefix_pdu roa_new has_serial roa_len Roa.set_serial table_serial];
    rewrite Hs; by eauto 10.
Qed.

Lemma one_payload_invalid a n m asn asn' p : prefix_new FamV4 a n = Some p ->
  addr_ok FamV4 a -> 0 <= n <= 32 -> asn <> asn' ->
  rfc6811 (payloads FamV4 [Ipv4Prefix true n m a asn]) a n asn' Invalid.
Proof.
  intros Hp Ha Hn Hne.
  assert (Hpay : forall q e, payloads FamV4 [Ipv4Prefix true n m a asn] q e
    <-> prefix_masked p = prefix_masked q /\ e = mkRoaEntry m asn).
  { intros q e. cbn [payloads foldl]. unfold payload_step, pdu_payload. rewrite Hp.
    destruct (decide _) as [Hd|Hd]; naive_solver. }
  split.
  - exists p, (mkRoaEntry m asn). split; [by apply Hpay|].
    destruct (proj1 (masked_ancestor FamV4 a n p p Hp Ha Hn) eq_refl) as [Hm Hc].
    by split; [rewrite Hm|].
  - intros q e [_ ->]%Hpay _. simpl. intros (_ & ? & _). done.
Qed.

(** A connection lost during the first full load leaves the payloads already
    received in the cache, and the full load of the next connection is added to
    them: after two loads, of which the second is complete and empty, the client
    reports itself connected with a payload no cache announces any more, and
    rejects as Invalid a route that RFC 6811 finds NotFound. *)
Theorem rtr_phantom_roa cfg :
  exists c out,
    client_run (client_new cfg)
      [(0, EvConnected); (0, EvPdu V1 (CacheResponse 7));
       (0, EvPdu V1 (Ipv4Prefix true 8 24 167772160 65001)); (0, EvReadError RtrClosed);
       (9, EvConnected); (9, EvPdu V1 (CacheResponse 7)); (9, EvPdu V1 (EndOfData 7 1 None))]
    = Some (c, out)
    /\ map snd out = [ResetQuery; ResetQuery]
    /\ phase c = PIdle /\ connected (status c) = true
    /\ roa_lookup (table c) FamV4 167772160 8 65002 = Invalid
    /\ rfc6811 (payloads FamV4 []) 167772160 8 65002 NotFound.
Proof.
  set (pdu := Ipv4Prefix true 8 24 167772160 65001).
  destruct (prefix_new_ok FamV4 167772160 8) as (p & Hp & _); [by split|by split|].
  destruct (interrupted_load cfg true 8 24 167772160 65001)
    as (c & v1 & v2 & Hrun & Hph & Hco & Ht); [simpl; by rewrite Hp|].
  exists c, [(v1, ResetQuery); (v2, ResetQuery)]. rewrite Ht.
  split; [exact Hrun|]. split; [reflexivity|]. split; [exact Hph|]. split; [exact Hco|].
  split; [|by intros q e].
  rewrite roa_lookup_serial.
  eapply rfc6811_unique; [apply (history_rfc6811 FamV4 [pdu]); by split|].
  apply (one_payload_invalid 167772160 8 24 65001 65002 p); [done|by split|lia|lia].
Qed.
End Validation.

(** ** Witnesses *)
Definition sample_rtr : RtrConfig := mkRtrConfig 3600 600 V1.
Section Witnesses.
#[local] Existing Instances ModelPrefix.ops ModelPrefix.laws ModelRouteMap.ops ModelRouteMap.laws.

Lemma roa_validate_rfc6811_witness :
  roa_lookup (foldl apply_prefix_pdu roa_new [Ipv4Prefix true 8 24 167772160 65001])
    FamV4 167772160 8 65002 = Invalid.
Proof.
  apply (roa_validate_rfc6811 FamV4 [Ipv4Prefix true 8 24 167772160 65001] 167772160 8 65002
    Invalid); [by split|by split|].
  destruct (prefix_new_ok FamV4 167772160 8) as (p & Hp & _); [by split|by split|].
  apply (one_payload_invalid 167772160 8 24 65001 65002 p Hp); [by split|lia|lia].
Defined.

Lemma rtr_sync_applies_diff_witness :
  exists c' out, client_run (fst (on_connected (client_new sample_rtr)))
      ((5, EvPdu V0 (CacheResponse 7))
       :: pdu_events [(5, V0, Ipv4Prefix true 8 24 167772160 65001)]
       ++ [(5, EvPdu V0 (EndOfData 7 1 None))]) = Some (c', out)
    /\ phase c' = PIdle /\ roa_serial (table c') = Some 1.
Proof.
  destruct (rtr_sync_applies_diff (fst (on_connected (client_new sample_rtr))) false false V0 7
    [(5, V0, Ipv4Prefix true 8 24 167772160 65001)] 5 1 None FamV4)
    as (c' & out & H1 & H2 & _ & H3 & _); [reflexivity|by repeat constructor|].
  exists c', out. split; [exact H1|]. split; [exact H2|exact H3].
Defined.

Lemma rtr_idle_resumes_witness :
  exists sid serial, forall ev, ev = EvRefresh \/ (exists v s n, ev = EvPdu v (SerialNotify s n)) ->
    exists c c', client_step c 60 ev = Some (c', [(V1, SerialQuery sid serial)]).
Proof.
  destruct (rtr_idle_resumes sample_rtr
    [(0, EvConnected); (0, EvPdu V1 (CacheResponse 7)); (0, EvPdu V1 (EndOfData 7 1 None))]
    (mkClient sample_rtr (Roa.set_serial roa_new 1)
       (mkRtrStatus true (Some V1) (Some 1) (roa_len roa_new) (Some 0) None) 1 V1 (Some 7)
       3600 600 PIdle) [(V1, ResetQuery)] 60 eq_refl eq_refl)
    as (_ & sid & serial & _ & _ & H).
  exists sid, serial. intros ev Hev. destruct (H ev Hev) as [c' Hc']. eexists _, c'. exact Hc'.
Defined.

Lemma rtr_phantom_roa_witness : exists c out,
  client_run (client_new sample_rtr)
    [(0, EvConnected); (0, EvPdu V1 (CacheResponse 7));
     (0, EvPdu V1 (Ipv4Prefix true 8 24 167772160 65001)); (0, EvReadError RtrClosed);
     (9, EvConnected); (9, EvPdu V1 (CacheResponse 7)); (9, EvPdu V1 (EndOfData 7 1 None))]
  = Some (c, out) /\ phase c = PIdle.
Proof.
  destruct (rtr_phantom_roa sample_rtr) as (c & out & H1 & _ & H2 & _).
  exists c, out. split; [exact H1|exact H2].
Defined.
End Witnesses.
