(* ===== verification/Policy.v ===== *)
(** The policy engine ([pathvector-policy]): conditions, actions, terms and
    policies over any route type with the [BgpRoute] interface, and the RFC 9234
    (Only to Customer) conditions and action.

    A condition is the predicate its [matches] computes, an action the state
    transformer its [apply] performs; the trait objects of the source are these
    functions. *)
From Stdlib Require Import ZArith Lia Bool.
From stdpp Require Import base tactics numbers decidable list.
From S2P Require Import Prelude Addr Types AsPath.
Open Scope Z_scope.

(** [outcome.rs] *)
Inductive Decision := DAccept | DReject | DNext.
Inductive DefaultAction := DefAccept | DefReject.
#[export] Instance Decision_eq_dec : EqDecision Decision.
Proof. solve_decision. Defined.
#[export] Instance DefaultAction_eq_dec : EqDecision DefaultAction.
Proof. solve_decision. Defined.
Definition decision_from (d : DefaultAction) : Decision :=
  match d with DefAccept => DAccept | DefReject => DReject end.

(** [route.rs]: the interface a route type offers to policies. *)
Class BgpRoute `{P : IpPrefixOps} (f : Family) (R : Type) := {
  br_nlri : R -> Nlri f;
  br_origin : R -> Origin;
  br_local_pref : R -> option Z;
  br_med : R -> option Z;
  br_as_path : R -> AsPath;
  br_communities : R -> list Z;
  br_large_communities : R -> list LargeCommunity;
  br_extended_communities : R -> list (list Z);
  br_next_hop : R -> option NextHop;
  br_otc : R -> option Z;
  br_set_origin : R -> Origin -> R;
  br_set_local_pref : R -> option Z -> R;
  br_set_med : R -> option Z -> R;
  br_set_as_path : R -> AsPath -> R;
  br_set_communities : R -> list Z -> R;
  br_set_large_communities : R -> list LargeCommunity -> R;
  br_set_extended_communities : R -> list (list Z) -> R;
  br_set_next_hop : R -> option NextHop -> R;
  br_set_otc : R -> option Z -> R;
}.

(** What the engine's clients rely on: a setter changes its own attribute and
    no other one that a condition reads. *)
Class BgpRouteLaws `{B : BgpRoute f R} : Prop := {
  br_otc_set : forall r v, br_otc (br_set_otc r v) = v;
  br_nlri_set_otc : forall r v, br_nlri (br_set_otc r v) = br_nlri r;
  br_as_path_set_otc : forall r v, br_as_path (br_set_otc r v) = br_as_path r;
  br_communities_set_otc : forall r v, br_communities (br_set_otc r v) = br_communities r;
  br_as_path_set : forall r p, br_as_path (br_set_as_path r p) = p;
  br_local_pref_set : forall r v, br_local_pref (br_set_local_pref r v) = v;
  br_med_set : forall r v, br_med (br_set_med r v) = v;
  br_communities_set : forall r v, br_communities (br_set_communities r v) = v;
  br_otc_set_as_path : forall r p, br_otc (br_set_as_path r p) = br_otc r;
  br_otc_set_local_pref : forall r v, br_otc (br_set_local_pref r v) = br_otc r;
  br_otc_set_med : forall r v, br_otc (br_set_med r v) = br_otc r;
  br_otc_set_communities : forall r v, br_otc (br_set_communities r v) = br_otc r;
}.

(** [IpSet] of the third-party crate [ipnetx], with [contains_range] on the range
    of a prefix. *)
Class IpSetOps `{P : IpPrefixOps} := {
  IpSet : Family -> Type;
  IpRange : Family -> Type;
  prefix_to_range : forall {f}, IpPrefix f -> IpRange f;
  ipset_contains_range : forall {f}, IpSet f -> IpRange f -> bool;
}.

Inductive CompareOp :=
| Equal | NotEqual | LessThan | LessOrEqual | GreaterThan | GreaterOrEqual.
Definition compare (op : CompareOp) (lhs rhs : Z) : bool :=
  match op with
  | Equal => lhs =? rhs
  | NotEqual => negb (lhs =? rhs)
  | LessThan => lhs <? rhs
  | LessOrEqual => lhs <=? rhs
  | GreaterThan => rhs <? lhs
  | GreaterOrEqual => rhs <=? lhs
  end.

Section Engine.
Context `{P : IpPrefixOps} {f : Family} {R : Type} {B : BgpRoute f R}.

Definition Condition : Type := R -> bool.
Definition Action : Type := R -> R * Decision.

(** ** [condition.rs] *)
Definition AnyCondition : Condition := fun _ => true.
Definition Not (c : Condition) : Condition := fun route => negb (c route).
Definition PrefixListCondition `{!IpSetOps} (set : IpSet f) : Condition := fun route =>
  ipset_contains_range set (prefix_to_range (prefix_masked (nlri_prefix (br_nlri route)))).
Definition CommunityCondition (community : Z) : Condition := fun route =>
  existsb (fun c => c =? community) (br_communities route).
Definition LargeCommunityCondition (community : LargeCommunity) : Condition := fun route =>
  existsb (fun c => bool_decide (c = community)) (br_large_communities route).
Definition AsPathContainsCondition (asn : Z) : Condition := fun route =>
  Path.contains (br_as_path route) asn.
Definition AsPathLengthCondition (op : CompareOp) (length : Z) : Condition := fun route =>
  compare op (Z.of_nat (Path.path_length (br_as_path route))) length.
Definition LocalPrefCondition (op : CompareOp) (value : Z) : Condition := fun route =>
  match br_local_pref route with Some lp => compare op lp value | None => false end.
Definition MedCondition (op : CompareOp) (value : Z) : Condition := fun route =>
  match br_med route with Some med => compare op med value | None => false end.
Definition OriginCondition (origin : Origin) : Condition := fun route =>
  bool_decide (br_origin route = origin).

(** ** [action.rs] *)
Definition Accept : Action := fun route => (route, DAccept).
Definition Reject : Action := fun route => (route, DReject).
Definition Next : Action := fun route => (route, DNext).
Definition SetLocalPref (v : option Z) : Action := fun route =>
  (br_set_local_pref route v, DNext).
Definition SetMed (v : option Z) : Action := fun route => (br_set_med route v, DNext).
Definition SetOrigin (v : Origin) : Action := fun route => (br_set_origin route v, DNext).
Definition SetNextHop (v : option NextHop) : Action := fun route =>
  (br_set_next_hop route v, DNext).
(** [for _ in 0..self.times { path.prepend(self.asn) }] *)
Fixpoint prepend_times (times : nat) (asn : Z) (path : AsPath) : AsPath :=
  match times with
  | O => path
  | S n => prepend_times n asn (Path.prepend path asn)
  end.
Definition PrependAsPath (asn : Z) (times : nat) : Action := fun route =>
  (br_set_as_path route (prepend_times times asn (br_as_path route)), DNext).
(** [PrependAsPath::new] asserts that [times] is positive. *)
Definition PrependAsPath_new (asn : Z) (times : nat) : Outcome False Action :=
  if (0 <? times)%nat then Ok (PrependAsPath asn times) else Panic.
Definition AddCommunity (c : Z) : Action := fun route =>
  (br_set_communities route (br_communities route ++ [c]), DNext).
Definition RemoveCommunity (c : Z) : Action := fun route =>
  (br_set_communities route (List.filter (fun x => negb (x =? c)) (br_communities route)), DNext).
Definition SetCommunities (cs : list Z) : Action := fun route =>
  (br_set_communities route cs, DNext).
Definition AddLargeCommunity (c : LargeCommunity) : Action := fun route =>
  (br_set_large_communities route (br_large_communities route ++ [c]), DNext).
Definition RemoveLargeCommunity (c : LargeCommunity) : Action := fun route =>
  (br_set_large_communities route
     (List.filter (fun x => negb (bool_decide (x = c))) (br_large_communities route)), DNext).
Fixpoint ActionSequence (steps : list Action) : Action := fun route =>
  match steps with
  | [] => (route, DNext)
  | step :: steps' =>
      match step route with
      | (route', DNext) => ActionSequence steps' route'
      | (route', d) => (route', d)
      end
  end.

(** ** [term.rs] *)
Record Term := mkTerm { condition : Condition; action : Action }.
(** [EvaluateTerm::evaluate] *)
Definition term_evaluate (t : Term) (route : R) : R * option Decision :=
  if condition t route then let '(r, d) := action t route in (r, Some d) else (route, None).

Record Policy := mkPolicy { terms : list Term; default_action : DefaultAction }.
Definition policy_new (d : DefaultAction) : Policy := mkPolicy [] d.
Definition add_term (p : Policy) (t : Term) : Policy := mkPolicy (terms p ++ [t]) (default_action p).
Definition set_default (p : Policy) (d : DefaultAction) : Policy := mkPolicy (terms p) d.
Fixpoint evaluate_terms (ts : list Term) (d : DefaultAction) (route : R) : R * Decision :=
  match ts with
  | [] => (route, decision_from d)
  | t :: ts' =>
      match term_evaluate t route with
      | (r, Some DAccept) => (r, DAccept)
      | (r, Some DReject) => (r, DReject)
      | (r, _) => evaluate_terms ts' d r
      end
  end.
Definition evaluate (p : Policy) (route : R) : R * Decision :=
  evaluate_terms (terms p) (default_action p) route.

(** ** [otc.rs] *)
Definition OtcLeakCondition (session_role : Role) (peer_asn : Z) : Condition := fun route =>
  match session_role, br_otc route with
  | (Provider | RouteServer), Some _ => true
  | Peer, Some otc => negb (otc =? peer_asn)
  | _, _ => false
  end.
Definition OtcPropagationCondition : Condition := fun route =>
  match br_otc route with Some _ => true | None => false end.
Definition SetOtc (asn : Z) : Action := fun route =>
  (match br_otc route with None => br_set_otc route (Some asn) | Some _ => route end, DNext).

(** ** Reference semantics *)

(** A term lets the route pass: it does not match, or its action says [Next]. *)
Definition passes (t : Term) (r r' : R) : Prop :=
  (condition t r = false /\ r' = r) \/ (condition t r = true /\ action t r = (r', DNext)).
Inductive pass_all : list Term -> R -> R -> Prop :=
| pass_nil r : pass_all [] r r
| pass_cons t ts r r1 r2 : passes t r r1 -> pass_all ts r1 r2 -> pass_all (t :: ts) r r2.

Lemma term_evaluate_cases t r :
  match term_evaluate t r with
  | (r', Some DAccept) => condition t r = true /\ action t r = (r', DAccept)
  | (r', Some DReject) => condition t r = true /\ action t r = (r', DReject)
  | (r', _) => passes t r r'
  end.
Proof.
  unfold term_evaluate, passes. destruct (condition t r) eqn:Ec; [|by left].
  destruct (action t r) as [r' []] eqn:Ea; auto.
Qed.

Lemma evaluate_terms_pass ts1 ts2 d r r1 : pass_all ts1 r r1 ->
  evaluate_terms (ts1 ++ ts2) d r = evaluate_terms ts2 d r1.
Proof.
  induction 1 as [|t ts r r1 r2 [[Hc ->]|[Hc Ha]] _ IH]; [done|..]; simpl;
    unfold term_evaluate; rewrite Hc; [done|]. by rewrite Ha.
Qed.

Lemma evaluate_terms_cases ts d r :
  (exists ts1 t ts2 r1 r' dec, ts = ts1 ++ t :: ts2 /\ pass_all ts1 r r1
     /\ condition t r1 = true /\ action t r1 = (r', dec) /\ dec <> DNext
     /\ evaluate_terms ts d r = (r', dec))
  \/ (exists r', pass_all ts r r' /\ evaluate_terms ts d r = (r', decision_from d)).
Proof.
  revert r. induction ts as [|t ts IH]; intros r.
  { right. exists r. by split; [constructor|]. }
  cbn [evaluate_terms]. pose proof (term_evaluate_cases t r) as Ht.
  destruct (term_evaluate t r) as [r1 [[]|]].
  - destruct Ht as [Hc Ha]. left. exists [], t, ts, r, r1, DAccept. by split_and!; [|constructor|..].
  - destruct Ht as [Hc Ha]. left. exists [], t, ts, r, r1, DReject. by split_and!; [|constructor|..].
  - destruct (IH r1) as [(ts1 & t' & ts2 & r2 & r' & dec & -> & Hp & Hc & Ha & Hd & He)|(r' & Hp & He)].
    + left. exists (t :: ts1), t', ts2, r2, r', dec.
      split_and!; [done|by econstructor|done..].
    + right. exists r'. split; [by econstructor|done].
  - destruct (IH r1) as [(ts1 & t' & ts2 & r2 & r' & dec & -> & Hp & Hc & Ha & Hd & He)|(r' & Hp & He)].
    + left. exists (t :: ts1), t', ts2, r2, r', dec.
      split_and!; [done|by econstructor|done..].
    + right. exists r'. split; [by econstructor|done].
Qed.

Lemma evaluate_final p r : snd (evaluate p r) <> DNext.
Proof.
  destruct (evaluate_terms_cases (terms p) (default_action p) r)
    as [(ts1 & t & ts2 & r1 & r' & d & _ & _ & _ & _ & Hd & He)|(r' & _ & He)];
    unfold evaluate; rewrite He; [done|]. by destruct (default_action p).
Qed.

End Engine.

Arguments Condition R : clear implicits.
Arguments Action R : clear implicits.
Arguments Term R : clear implicits.
Arguments Policy R : clear implicits.

(** ** Attribute effects of the actions *)
Lemma prepend_times_length n asn p :
  Path.path_length (prepend_times n asn p) = (n + Path.path_length p)%nat.
Proof. revert p. induction n as [|n IH]; intros p; simpl; [done|]. rewrite IH, prepend_length. lia. Qed.

Lemma prepend_times_wf n asn p : is_u32 asn -> Path.wf p -> Path.wf (prepend_times n asn p).
Proof. revert p. induction n as [|n IH]; intros p Ha Hp; simpl; [done|]. by apply IH, prepend_wf. Qed.

Lemma prepend_times_contains n asn p a :
  Path.contains (prepend_times n asn p) a = ((0 <? n)%nat && (asn =? a)) || Path.contains p a.
Proof.
  revert p. induction n as [|n IH]; intros p; [done|]. cbn [prepend_times].
  rewrite IH, prepend_contains. by destruct (0 <? n)%nat, (asn =? a).
Qed.
