(* ===== verification/Route.v ===== *)
(** Routes of the RIB ([pathvector-rib/src/route.rs], [peer.rs]) and their
    [BgpRoute] interface to the policy engine.

    [Arc<AsPath>] is the path it points to (routes never mutate a shared path in
    place), [Option<Box<RareAttrs>>] an [option RareAttrs]. *)
From Stdlib Require Import ZArith Lia Bool.
From stdpp Require Import base tactics numbers decidable list.
From S2P Require Import Prelude Addr Types AsPath Policy.
Open Scope Z_scope.

(** [pub struct PeerId(IpAddr)] *)
Definition PeerId : Type := IpAddr.

Record RareAttrs := mkRare {
  communities : list Z;
  large_communities : list LargeCommunity;
  extended_communities : list (list Z);
  cluster_list : list Z;
  atomic_aggregate : bool;
  aggregator : option Aggregator;
  originator_id : option Z;
  otc : option Z;
  unknown : list UnknownAttribute;
}.
#[export] Instance RareAttrs_eq_dec : EqDecision RareAttrs.
Proof. solve_decision. Defined.

(** [RareAttrs::default()], also the static [RARE_DEFAULT] *)
Definition RARE_DEFAULT : RareAttrs := mkRare [] [] [] [] false None None None [].

(** Field assignments *)
Definition rare_set_communities (r : RareAttrs) v : RareAttrs :=
  mkRare v (large_communities r) (extended_communities r) (cluster_list r)
    (atomic_aggregate r) (aggregator r) (originator_id r) (otc r) (unknown r).
Definition rare_set_large_communities (r : RareAttrs) v : RareAttrs :=
  mkRare (communities r) v (extended_communities r) (cluster_list r)
    (atomic_aggregate r) (aggregator r) (originator_id r) (otc r) (unknown r).
Definition rare_set_extended_communities (r : RareAttrs) v : RareAttrs :=
  mkRare (communities r) (large_communities r) v (cluster_list r)
    (atomic_aggregate r) (aggregator r) (originator_id r) (otc r) (unknown r).
Definition rare_set_cluster_list (r : RareAttrs) v : RareAttrs :=
  mkRare (communities r) (large_communities r) (extended_communities r) v
    (atomic_aggregate r) (aggregator r) (originator_id r) (otc r) (unknown r).
Definition rare_set_atomic_aggregate (r : RareAttrs) v : RareAttrs :=
  mkRare (communities r) (large_communities r) (extended_communities r) (cluster_list r)
    v (aggregator r) (originator_id r) (otc r) (unknown r).
Definition rare_set_aggregator (r : RareAttrs) v : RareAttrs :=
  mkRare (communities r) (large_communities r) (extended_communities r) (cluster_list r)
    (atomic_aggregate r) v (originator_id r) (otc r) (unknown r).
Definition rare_set_originator_id (r : RareAttrs) v : RareAttrs :=
  mkRare (communities r) (large_communities r) (extended_communities r) (cluster_list r)
    (atomic_aggregate r) (aggregator r) v (otc r) (unknown r).
Definition rare_set_otc (r : RareAttrs) v : RareAttrs :=
  mkRare (communities r) (large_communities r) (extended_communities r) (cluster_list r)
    (atomic_aggregate r) (aggregator r) (originator_id r) v (unknown r).
Definition rare_set_unknown (r : RareAttrs) v : RareAttrs :=
  mkRare (communities r) (large_communities r) (extended_communities r) (cluster_list r)
    (atomic_aggregate r) (aggregator r) (originator_id r) (otc r) v.

Section Route.
Context `{P : IpPrefixOps} {f : Family}.

Record Route := mkRoute {
  nlri : Nlri f;
  origin : Origin;
  as_path : AsPath;
  next_hop : option NextHop;
  local_pref : option Z;
  med : option Z;
  peer_type : PeerType;
  received_at : Z;
  peer_bgp_id : option Z;
  rare : option RareAttrs;
  stale : bool;
}.
#[export] Instance Route_eq_dec : EqDecision Route.
Proof. solve_decision. Defined.

Definition rare_or_default (r : Route) : RareAttrs := default RARE_DEFAULT (rare r).

(** Field assignments; [with_rare_mut r g] is [g] applied to [r.rare_mut()]. *)
Definition with_rare (r : Route) v : Route :=
  mkRoute (nlri r) (origin r) (as_path r) (next_hop r) (local_pref r) (med r) (peer_type r)
    (received_at r) (peer_bgp_id r) v (stale r).
Definition with_rare_mut (r : Route) (g : RareAttrs -> RareAttrs) : Route :=
  with_rare r (Some (g (rare_or_default r))).
Definition set_stale (r : Route) v : Route :=
  mkRoute (nlri r) (origin r) (as_path r) (next_hop r) (local_pref r) (med r) (peer_type r)
    (received_at r) (peer_bgp_id r) (rare r) v.
Definition set_peer_type (r : Route) v : Route :=
  mkRoute (nlri r) (origin r) (as_path r) (next_hop r) (local_pref r) (med r) v
    (received_at r) (peer_bgp_id r) (rare r) (stale r).

(** ** [impl BgpRoute for Route<A>] *)
Definition set_origin (r : Route) v : Route :=
  mkRoute (nlri r) v (as_path r) (next_hop r) (local_pref r) (med r) (peer_type r)
    (received_at r) (peer_bgp_id r) (rare r) (stale r).
Definition set_local_pref (r : Route) v : Route :=
  mkRoute (nlri r) (origin r) (as_path r) (next_hop r) v (med r) (peer_type r)
    (received_at r) (peer_bgp_id r) (rare r) (stale r).
Definition set_med (r : Route) v : Route :=
  mkRoute (nlri r) (origin r) (as_path r) (next_hop r) (local_pref r) v (peer_type r)
    (received_at r) (peer_bgp_id r) (rare r) (stale r).
Definition set_as_path (r : Route) v : Route :=
  mkRoute (nlri r) (origin r) v (next_hop r) (local_pref r) (med r) (peer_type r)
    (received_at r) (peer_bgp_id r) (rare r) (stale r).
Definition set_next_hop (r : Route) v : Route :=
  mkRoute (nlri r) (origin r) (as_path r) v (local_pref r) (med r) (peer_type r)
    (received_at r) (peer_bgp_id r) (rare r) (stale r).
Definition set_communities (r : Route) (c : list Z) : Route :=
  match c with
  | [] => with_rare r ((fun x => rare_set_communities x []) <$> rare r)
  | _ => with_rare_mut r (fun x => rare_set_communities x c)
  end.
Definition set_large_communities (r : Route) (c : list LargeCommunity) : Route :=
  match c with
  | [] => with_rare r ((fun x => rare_set_large_communities x []) <$> rare r)
  | _ => with_rare_mut r (fun x => rare_set_large_communities x c)
  end.
Definition set_extended_communities (r : Route) (c : list (list Z)) : Route :=
  match c with
  | [] => with_rare r ((fun x => rare_set_extended_communities x []) <$> rare r)
  | _ => with_rare_mut r (fun x => rare_set_extended_communities x c)
  end.
Definition set_otc (r : Route) (v : option Z) : Route :=
  match v, rare r with
  | None, None => r
  | _, _ => with_rare_mut r (fun x => rare_set_otc x v)
  end.

#[export] Instance Route_BgpRoute : BgpRoute f Route := {|
  br_nlri := nlri;
  br_origin := origin;
  br_local_pref := local_pref;
  br_med := med;
  br_as_path := as_path;
  br_communities r := communities (rare_or_default r);
  br_large_communities r := large_communities (rare_or_default r);
  br_extended_communities r := extended_communities (rare_or_default r);
  br_next_hop := next_hop;
  br_otc r := otc (rare_or_default r);
  br_set_origin := set_origin;
  br_set_local_pref := set_local_pref;
  br_set_med := set_med;
  br_set_as_path := set_as_path;
  br_set_communities := set_communities;
  br_set_large_communities := set_large_communities;
  br_set_extended_communities := set_extended_communities;
  br_set_next_hop := set_next_hop;
  br_set_otc := set_otc;
|}.

(** ** [RouteBuilder]

    The builder has the fields of the route but [stale]; it is modelled by the
    route it builds, and [build] clears [stale].  [now] is the clock read by
    [now_unix_secs]. *)
(** [u32::try_from(secs).unwrap_or(u32::MAX)] *)
Definition now_unix_secs (secs : Z) : Z := Z.min secs 4294967295.
(** [RouteBuilder::new] and [with_shared_as_path] *)
Definition builder_new (now : Z) (n : Nlri f) (o : Origin) (p : AsPath) : Route :=
  mkRoute n o p None None None External (now_unix_secs now) None None false.
Definition b_next_hop (r : Route) (nh : NextHop) : Route := set_next_hop r (Some nh).
Definition b_local_pref (r : Route) (v : Z) : Route := set_local_pref r (Some v).
Definition b_med (r : Route) (v : Z) : Route := set_med r (Some v).
Definition b_community (r : Route) (c : Z) : Route :=
  with_rare_mut r (fun x => rare_set_communities x (communities x ++ [c])).
Definition b_large_community (r : Route) (c : LargeCommunity) : Route :=
  with_rare_mut r (fun x => rare_set_large_communities x (large_communities x ++ [c])).
Definition b_extended_community (r : Route) (c : list Z) : Route :=
  with_rare_mut r (fun x => rare_set_extended_communities x (extended_communities x ++ [c])).
Definition b_atomic_aggregate (r : Route) : Route :=
  with_rare_mut r (fun x => rare_set_atomic_aggregate x true).
Definition b_aggregator (r : Route) (a : Aggregator) : Route :=
  with_rare_mut r (fun x => rare_set_aggregator x (Some a)).
Definition b_otc (r : Route) (asn : Z) : Route :=
  with_rare_mut r (fun x => rare_set_otc x (Some asn)).
Definition b_unknown_attribute (r : Route) (a : UnknownAttribute) : Route :=
  with_rare_mut r (fun x => rare_set_unknown x (unknown x ++ [a])).
Definition b_peer_type (r : Route) (pt : PeerType) : Route := set_peer_type r pt.
Definition b_peer_bgp_id (r : Route) (id : Z) : Route :=
  mkRoute (nlri r) (origin r) (as_path r) (next_hop r) (local_pref r) (med r) (peer_type r)
    (received_at r) (Some id) (rare r) (stale r).
Definition build (r : Route) : Route := set_stale r false.

(** ** Laws *)
Lemma rare_set_otc_otc r v : otc (rare_or_default (set_otc r v)) = v.
Proof. destruct r as [? ? ? ? ? ? ? ? ? [] ?], v; reflexivity. Qed.
Lemma set_communities_communities r c : communities (rare_or_default (set_communities r c)) = c.
Proof. destruct r as [? ? ? ? ? ? ? ? ? [] ?], c; reflexivity. Qed.
Lemma set_communities_otc r c :
  otc (rare_or_default (set_communities r c)) = otc (rare_or_default r).
Proof. destruct r as [? ? ? ? ? ? ? ? ? [] ?], c; reflexivity. Qed.

#[export] Instance Route_laws : BgpRouteLaws (R:=Route).
Proof.
  split; simpl.
  - apply rare_set_otc_otc.
  - by intros [? ? ? ? ? ? ? ? ? [] ?] [].
  - by intros [? ? ? ? ? ? ? ? ? [] ?] [].
  - by intros [? ? ? ? ? ? ? ? ? [] ?] [].
  - done.
  - done.
  - done.
  - apply set_communities_communities.
  - done.
  - done.
  - done.
  - apply set_communities_otc.
Qed.

(** Two routes that no reader of the record can tell apart: equal up to an
    allocated but default [RareAttrs]. *)
Definition route_equiv (a b : Route) : Prop :=
  with_rare a (Some (rare_or_default a)) = with_rare b (Some (rare_or_default b)).

End Route.

Arguments Route {P} f.
