(* ===== verification/DaemonPolicy.v ===== *)
(** How the daemon builds and changes its per-peer policies
    ([pathvectord/src/daemon/mod.rs], [peer.rs], [policy.rs],
    [pathvector-policy/src/rpki.rs]): RFC 8212 defaults, RFC 9234 OTC terms, and
    the RFC 6811 reject-Invalid term. *)
From Stdlib Require Import ZArith Lia Bool.
From stdpp Require Import base tactics numbers decidable gmap list.
From S2P Require Import Prelude Addr Types AsPath RouteMap Rtr Roa Policy Route.
Open Scope Z_scope.

(** The fields of [config::PeerConfig] the daemon's state depends on (a shutdown
    message is its UTF-8 bytes); [ImportDefault], [ExportDefault] and [PeerRole] convert one to one to
    [DefaultAction] and [Role]. *)
Record PeerConfig := mkPeerConfig {
  pc_address : IpAddr;
  pc_remote_as : Z;
  pc_import_default : option DefaultAction;
  pc_import_default_v6 : option DefaultAction;
  pc_export_default : option DefaultAction;
  pc_is_rr_client : bool;
  pc_next_hop_self : bool;
  pc_confederation_member : bool;
  pc_role : option Role;
  pc_hold_time : option Z;
  pc_shutdown_message : option (list Z);
  pc_max_prefixes_v4 : option Z;
  pc_max_prefixes_v6 : option Z;
  pc_max_prefixes_restart : option Z;
  pc_port : Z;
  pc_md5_password : option (list Z);
  pc_connect_retry_time : option Z;
}.

Definition resolve_import_default (opt : option DefaultAction) (is_ebgp : bool) : DefaultAction :=
  match opt with
  | Some d => d
  | None => if is_ebgp then DefReject else DefAccept
  end.
Definition resolve_export_default (opt : option DefaultAction) (is_ebgp : bool) : DefaultAction :=
  match opt with
  | Some d => d
  | None => if is_ebgp then DefReject else DefAccept
  end.
Definition config_peer_type (local_as remote_as : Z) (confed_member : bool) : PeerType :=
  if local_as =? remote_as then Internal
  else if confed_member then ConfedMember else External.
Definition effective_session_as (local_as : Z) (confederation_id : option Z) (pt : PeerType) : Z :=
  match pt with
  | External => default local_as confederation_id
  | Internal | ConfedMember | Local => local_as
  end.
Definition effective_role (peer : PeerConfig) (local_as : Z) : option Role :=
  match pc_role peer with
  | None => None
  | Some role => if pc_remote_as peer =? local_as then None else Some role
  end.
Definition effective_confederation_member (peer : PeerConfig) (confederation_id : option Z) : bool :=
  if negb (pc_confederation_member peer) then false
  else match confederation_id with None => false | Some _ => true end.

(** [a.or(b)] *)
Definition option_or {A} (a b : option A) : option A :=
  match a with Some _ => a | None => b end.

Section Terms.
Context `{P : IpPrefixOps} {f : Family} {R : Type} {B : BgpRoute f R}.

Definition is_up_role (r : Role) : bool :=
  match r with Customer | Peer | RsClient => true | _ => false end.
Definition is_down_role (r : Role) : bool :=
  match r with Provider | Peer | RouteServer => true | _ => false end.

Definition install_otc_import_term (policy : Policy R) (session_role : Role) (peer_asn : Z)
    : Policy R :=
  let policy := add_term policy (mkTerm (OtcLeakCondition session_role peer_asn) Reject) in
  if is_up_role session_role
  then add_term policy (mkTerm AnyCondition (SetOtc peer_asn)) else policy.
Definition install_otc_export_term (policy : Policy R) (session_role : Role) (local_asn : Z)
    : Policy R :=
  let policy :=
    if is_up_role session_role
    then add_term policy (mkTerm OtcPropagationCondition Reject) else policy in
  if is_down_role session_role
  then add_term policy (mkTerm AnyCondition (SetOtc local_asn)) else policy.

(** [RoaValidityCondition]; the RTR handle is the ROA cache it reads at the time
    of the evaluation. *)
Definition RoaValidityCondition `{!RouteMapOps} (rtr : RoaTable) (target : RoaValidity)
    (local_as : Z) : Condition R := fun route =>
  let asn := default 0 (Path.origin_as (br_as_path route) local_as) in
  let prefix := nlri_prefix (br_nlri route) in
  bool_decide (roa_lookup rtr f (prefix_ip prefix) (prefix_mask prefix) asn = target).

(** The policies [DaemonState::new] and [add_peer] build for a peer. *)
Definition import_policy_for (role : option Role) (default : option DefaultAction)
    (peer : PeerConfig) (local_as : Z) : Policy R :=
  let is_ebgp := negb (pc_remote_as peer =? local_as) in
  let policy := policy_new (resolve_import_default default is_ebgp) in
  match role with
  | Some role => install_otc_import_term policy role (pc_remote_as peer)
  | None => policy
  end.
Definition export_policy_for (role : option Role) (peer : PeerConfig) (local_as : Z)
    : Policy R :=
  let is_ebgp := negb (pc_remote_as peer =? local_as) in
  let policy := policy_new (resolve_export_default (pc_export_default peer) is_ebgp) in
  match role with
  | Some role => install_otc_export_term policy role local_as
  | None => policy
  end.
End Terms.

Section Tables.
Context `{P : IpPrefixOps} {M : RouteMapOps}.

(** The four policy maps of [DaemonState] *)
Record PolicyTables := mkTables {
  import_policies : gmap IpAddr (Policy (Route FamV4));
  import_policies_v6 : gmap IpAddr (Policy (Route FamV6));
  export_policies : gmap IpAddr (Policy (Route FamV4));
  export_policies_v6 : gmap IpAddr (Policy (Route FamV6));
}.

(** [peers.iter().map(..).collect()] into a [HashMap]: a later entry wins. *)
Definition collect {A} (g : PeerConfig -> A) (peers : list PeerConfig) : gmap IpAddr A :=
  foldl (fun m p => <[pc_address p := g p]> m) ∅ peers.

(** The policy part of [DaemonState::new], with its map of effective roles. *)
Definition peer_roles_of (local_as : Z) (peers : list PeerConfig) : gmap IpAddr Role :=
  foldl (fun m p => match effective_role p local_as with
                    | Some r => <[pc_address p := r]> m | None => m end) ∅ peers.
Definition tables_new (local_as : Z) (peers : list PeerConfig) : PolicyTables :=
  let peer_roles := peer_roles_of local_as peers in
  let role p := peer_roles !! pc_address p in
  mkTables
    (collect (fun p => import_policy_for (role p) (pc_import_default p) p local_as) peers)
    (collect (fun p => import_policy_for (role p)
       (option_or (pc_import_default_v6 p) (pc_import_default p)) p local_as) peers)
    (collect (fun p => export_policy_for (role p) p local_as) peers)
    (collect (fun p => export_policy_for (role p) p local_as) peers).

Definition install_rpki_import_terms (t : PolicyTables) (rtr : RoaTable) (local_as : Z)
    : PolicyTables :=
  mkTables
    ((fun policy => add_term policy
        (mkTerm (RoaValidityCondition rtr Invalid local_as) Reject)) <$> import_policies t)
    ((fun policy => add_term policy
        (mkTerm (RoaValidityCondition rtr Invalid local_as) Reject)) <$> import_policies_v6 t)
    (export_policies t) (export_policies_v6 t).

(** The policies [add_peer] inserts and [remove_peer] removes. *)
Definition tables_insert_peer (t : PolicyTables) (local_as : Z) (peer : PeerConfig) : PolicyTables :=
  let role := effective_role peer local_as in
  mkTables
    (<[pc_address peer := import_policy_for role (pc_import_default peer) peer local_as]>
       (import_policies t))
    (<[pc_address peer := import_policy_for role
         (option_or (pc_import_default_v6 peer) (pc_import_default peer)) peer local_as]>
       (import_policies_v6 t))
    (<[pc_address peer := export_policy_for role peer local_as]> (export_policies t))
    (<[pc_address peer := export_policy_for role peer local_as]> (export_policies_v6 t)).
Definition tables_delete_peer (t : PolicyTables) (ip : IpAddr) : PolicyTables :=
  mkTables (delete ip (import_policies t)) (delete ip (import_policies_v6 t))
    (delete ip (export_policies t)) (delete ip (export_policies_v6 t)).
(** With their guards; the Adj-RIB-In and policy maps have the same keys. *)
Definition tables_add_peer (t : PolicyTables) (local_as : Z) (peer : PeerConfig) : PolicyTables :=
  match import_policies t !! pc_address peer with
  | Some _ => t
  | None => tables_insert_peer t local_as peer
  end.
Definition tables_remove_peer (t : PolicyTables) (ip : IpAddr) : PolicyTables :=
  match import_policies t !! ip with
  | None => t
  | Some _ => tables_delete_peer t ip
  end.
(** The policy part of [set_import_default] and [set_export_default] *)
Definition tables_set_import_default (t : PolicyTables) (ip : IpAddr) (d : DefaultAction)
    : PolicyTables :=
  mkTables (alter (fun p => set_default p d) ip (import_policies t))
    (alter (fun p => set_default p d) ip (import_policies_v6 t))
    (export_policies t) (export_policies_v6 t).
Definition tables_set_export_default (t : PolicyTables) (ip : IpAddr) (d : DefaultAction)
    : PolicyTables :=
  mkTables (import_policies t) (import_policies_v6 t)
    (alter (fun p => set_default p d) ip (export_policies t))
    (alter (fun p => set_default p d) ip (export_policies_v6 t)).

Definition import_policy (t : PolicyTables) (f : Family) : gmap IpAddr (Policy (Route f)) :=
  match f with FamV4 => import_policies t | FamV6 => import_policies_v6 t end.
Definition export_policy (t : PolicyTables) (f : Family) : gmap IpAddr (Policy (Route f)) :=
  match f with FamV4 => export_policies t | FamV6 => export_policies_v6 t end.

(** The life of the tables: the daemon starts with its configured peers, the RPKI
    terms are installed if RPKI is configured, and peers and defaults change
    through the management interface. *)
Inductive TableOp :=
| OpInstallRpki (rtr : RoaTable)
| OpAddPeer (p : PeerConfig)
| OpRemovePeer (ip : IpAddr)
| OpSetImportDefault (ip : IpAddr) (d : DefaultAction)
| OpSetExportDefault (ip : IpAddr) (d : DefaultAction).
Definition table_op (local_as : Z) (t : PolicyTables) (op : TableOp) : PolicyTables :=
  match op with
  | OpInstallRpki rtr => install_rpki_import_terms t rtr local_as
  | OpAddPeer p => tables_add_peer t local_as p
  | OpRemovePeer ip => tables_remove_peer t ip
  | OpSetImportDefault ip d => tables_set_import_default t ip d
  | OpSetExportDefault ip d => tables_set_export_default t ip d
  end.
Definition tables_after (local_as : Z) (peers : list PeerConfig) (ops : list TableOp)
    : PolicyTables := foldl (table_op local_as) (tables_new local_as peers) ops.

(** ** Specification *)

(** What a peer's policies should be made of: its configuration, its role and the
    ROA caches installed since it was added. *)
Record PeerSpec := mkPeerSpec {
  ps_config : PeerConfig;
  ps_role : option Role;
  ps_rovs : list RoaTable;
}.
Definition spec_op (local_as : Z) (g : gmap IpAddr PeerSpec) (op : TableOp)
    : gmap IpAddr PeerSpec :=
  match op with
  | OpInstallRpki rtr =>
      (fun x => mkPeerSpec (ps_config x) (ps_role x) (ps_rovs x ++ [rtr])) <$> g
  | OpAddPeer p =>
      match g !! pc_address p with
      | Some _ => g
      | None => <[pc_address p := mkPeerSpec p (effective_role p local_as) []]> g
      end
  | OpRemovePeer ip => delete ip g
  | _ => g
  end.
Definition spec_new (local_as : Z) (peers : list PeerConfig) : gmap IpAddr PeerSpec :=
  collect (fun p => mkPeerSpec p (peer_roles_of local_as peers !! pc_address p) []) peers.
Definition spec_after (local_as : Z) (peers : list PeerConfig) (ops : list TableOp)
    : gmap IpAddr PeerSpec := foldl (spec_op local_as) (spec_new local_as peers) ops.

(** The defaults a peer should have: the configured ones, or those of RFC 8212, until they
    are changed. *)
Record PeerDefaults := mkPeerDefaults {
  pd_import_v4 : DefaultAction;
  pd_import_v6 : DefaultAction;
  pd_export : DefaultAction;
}.
Definition pd_import (f : Family) (x : PeerDefaults) : DefaultAction :=
  match f with FamV4 => pd_import_v4 x | FamV6 => pd_import_v6 x end.
Definition configured_defaults (local_as : Z) (p : PeerConfig) : PeerDefaults :=
  let rfc8212 := if decide (pc_remote_as p = local_as) then DefAccept else DefReject in
  mkPeerDefaults (default rfc8212 (pc_import_default p))
    (match pc_import_default_v6 p with Some d => d | None => default rfc8212 (pc_import_default p) end)
    (default rfc8212 (pc_export_default p)).
Definition defaults_op (local_as : Z) (g : gmap IpAddr PeerDefaults) (op : TableOp) : gmap IpAddr PeerDefaults :=
  match op with
  | OpInstallRpki _ => g
  | OpAddPeer p => if g !! pc_address p then g else <[pc_address p := configured_defaults local_as p]> g
  | OpRemovePeer ip => delete ip g
  | OpSetImportDefault ip d => alter (fun x => mkPeerDefaults d d (pd_export x)) ip g
  | OpSetExportDefault ip d => alter (fun x => mkPeerDefaults (pd_import_v4 x) (pd_import_v6 x) d) ip g
  end.
Definition defaults_after (local_as : Z) (peers : list PeerConfig) (ops : list TableOp) : gmap IpAddr PeerDefaults :=
  foldl (defaults_op local_as) (collect (configured_defaults local_as) peers) ops.

Context {f : Family}.
Definition is_leak (role : option Role) (asn : Z) (r : Route f) : bool :=
  match role with Some role => OtcLeakCondition role asn r | None => false end.
(** RFC 9234 ingress and egress marking *)
Definition mark (attach : Role -> bool) (role : option Role) (asn : Z) (r : Route f) : Route f :=
  match role with
  | Some role => if attach role then fst (SetOtc asn r) else r
  | None => r
  end.
Definition import_verdict (x : PeerSpec) (local_as : Z) (d : DefaultAction) (r : Route f)
    : Route f * Decision :=
  let peer_as := pc_remote_as (ps_config x) in
  if is_leak (ps_role x) peer_as r then (r, DReject)
  else
    let r' := mark is_up_role (ps_role x) peer_as r in
    if existsb (fun rtr => RoaValidityCondition rtr Invalid local_as r') (ps_rovs x)
    then (r', DReject) else (r', decision_from d).
Definition export_verdict (x : PeerSpec) (local_as : Z) (d : DefaultAction) (r : Route f)
    : Route f * Decision :=
  match ps_role x with
  | Some role =>
      if is_up_role role && OtcPropagationCondition r then (r, DReject)
      else (mark is_down_role (Some role) local_as r, decision_from d)
  | None => (r, decision_from d)
  end.

End Tables.

(** * Facts *)
Section Facts.
Context `{P : IpPrefixOps} {M : RouteMapOps}.

Definition rov_term {f} (las : Z) (rtr : RoaTable) : Term (Route f) :=
  mkTerm (RoaValidityCondition rtr Invalid las) Reject.
(** The policies of a peer are the ones its configuration asks for. *)
Definition import_ok (f : Family) (las : Z) (x : PeerSpec)
    (pol : Policy (Route f)) : Prop :=
  terms pol = terms (import_policy_for (R:=Route f) (ps_role x) None (ps_config x) las)
              ++ map (rov_term las) (ps_rovs x).
Definition export_ok (f : Family) (las : Z) (x : PeerSpec)
    (pol : Policy (Route f)) : Prop :=
  terms pol = terms (export_policy_for (R:=Route f) (ps_role x) (ps_config x) las).
Definition agree {A B} (g : gmap IpAddr A) (m : gmap IpAddr B) (Q : A -> B -> Prop) : Prop :=
  forall ip, option_Forall2 Q (g !! ip) (m !! ip).
Definition tables_ok (las : Z) (g : gmap IpAddr PeerSpec)
    (t : PolicyTables) : Prop :=
  forall f, agree g (import_policy t f) (import_ok f las)
         /\ agree g (export_policy t f) (export_ok f las).

Lemma import_policy_for_terms f role d (p : PeerConfig) las :
  terms (import_policy_for (R:=Route f) role d p las)
  = terms (import_policy_for (R:=Route f) role None p las).
Proof. unfold import_policy_for. by destruct role as [[]|]. Qed.

Lemma agree_insert {A B} (g : gmap IpAddr A) (m : gmap IpAddr B) Q ip a b :
  agree g m Q -> Q a b -> agree (<[ip := a]> g) (<[ip := b]> m) Q.
Proof.
  intros H Hq ip'. rewrite !lookup_insert. destruct (decide _); [by constructor|apply H].
Qed.
Lemma agree_delete {A B} (g : gmap IpAddr A) (m : gmap IpAddr B) Q ip :
  agree g m Q -> agree (delete ip g) (delete ip m) Q.
Proof. intros H ip'. rewrite !lookup_delete. destruct (decide _); [constructor|apply H]. Qed.
Lemma agree_alter {A B} (g : gmap IpAddr A) (m : gmap IpAddr B) (Q : A -> B -> Prop) h ip :
  agree g m Q -> (forall a b, Q a b -> Q a (h b)) -> agree g (alter h ip m) Q.
Proof.
  intros H Hh ip'. rewrite lookup_alter. destruct (decide _) as [->|]; [|apply H].
  destruct (H ip'); constructor. auto.
Qed.
Lemma agree_fmap {A B} (g : gmap IpAddr A) (m : gmap IpAddr B) (Q : A -> B -> Prop) k h :
  agree g m Q -> (forall a b, Q a b -> Q (k a) (h b)) -> agree (k <$> g) (h <$> m) Q.
Proof.
  intros H Hh ip'. rewrite !lookup_fmap. destruct (H ip'); constructor. auto.
Qed.
Lemma agree_fmap_l {A B} (g : gmap IpAddr A) (m : gmap IpAddr B) (Q : A -> B -> Prop) k :
  agree g m Q -> (forall a b, Q a b -> Q (k a) b) -> agree (k <$> g) m Q.
Proof. intros H Hh ip'. rewrite !lookup_fmap. destruct (H ip'); constructor. auto. Qed.
Lemma agree_none {A B} (g : gmap IpAddr A) (m : gmap IpAddr B) Q ip :
  agree g m Q -> g !! ip = None <-> m !! ip = None.
Proof. intros H. destruct (H ip); naive_solver. Qed.

Lemma agree_collect {A B} (k : PeerConfig -> A) (h : PeerConfig -> B) (Q : A -> B -> Prop) peers :
  (forall p, Q (k p) (h p)) -> agree (collect k peers) (collect h peers) Q.
Proof.
  intros Hq. unfold collect. induction peers as [|p peers IH] using rev_ind.
  { intros ip. cbn [foldl]. rewrite !lookup_empty. constructor. }
  rewrite !foldl_snoc. by apply agree_insert.
Qed.

Lemma tables_ok_new las peers : tables_ok las (spec_new las peers) (tables_new las peers).
Proof.
  intros f. split; destruct f; apply agree_collect; intros p; try done;
    unfold import_ok; simpl; rewrite app_nil_r; apply import_policy_for_terms.
Qed.

Lemma tables_ok_op las g t op : tables_ok las g t ->
  tables_ok las (spec_op las g op) (table_op las t op).
Proof.
  intros Ht. assert (Hkey : forall ip, g !! ip = None <-> import_policies t !! ip = None)
    by (intros ip; apply (agree_none _ _ _ _ (proj1 (Ht FamV4)))).
  destruct op as [rtr|p|ip|ip d|ip d]; cbn [table_op spec_op].
  - intros f. split.
    + destruct f; (eapply agree_fmap; [apply Ht|]); intros [p role rovs] pol Hp; unfold import_ok in *;
        simpl in *; rewrite Hp, map_app, app_assoc; done.
    + destruct f; (eapply agree_fmap_l; [apply Ht|]); by intros [].
  - unfold tables_add_peer. destruct (import_policies t !! pc_address p) eqn:Ei.
    + destruct (g !! pc_address p) eqn:Eg; [done|]. apply Hkey in Eg. congruence.
    + apply Hkey in Ei as Eg. rewrite Eg. intros f.
      split; destruct f; (apply agree_insert; [apply Ht|]); try done;
        unfold import_ok; simpl; rewrite app_nil_r; apply import_policy_for_terms.
  - unfold tables_remove_peer. destruct (import_policies t !! ip) eqn:Ei.
    + intros f. split; destruct f; apply agree_delete, Ht.
    + apply Hkey in Ei as Eg.
      assert (delete ip g = g) as -> by (by apply (delete_id (M:=gmap IpAddr))). done.
  - intros f. split; [|destruct f; apply Ht]. destruct f; (apply agree_alter; [apply Ht|done]).
  - intros f. split; [destruct f; apply Ht|]. destruct f; (apply agree_alter; [apply Ht|done]).
Qed.

Lemma tables_ok_after las peers ops :
  tables_ok las (spec_after las peers ops) (tables_after las peers ops).
Proof.
  unfold spec_after, tables_after. induction ops as [|op ops IH] using rev_ind.
  { apply tables_ok_new. }
  rewrite !foldl_snoc. by apply tables_ok_op.
Qed.

(** ** Defaults *)
Definition defaults_ok (g : gmap IpAddr PeerDefaults) (t : PolicyTables) : Prop := forall f,
  agree g (import_policy t f) (fun x pol => default_action pol = pd_import f x)
  /\ agree g (export_policy t f) (fun x pol => default_action pol = pd_export x).
Lemma agree_alter_both {A B} (g : gmap IpAddr A) (m : gmap IpAddr B) (Q : A -> B -> Prop) k h ip :
  agree g m Q -> (forall a b, Q a b -> Q (k a) (h b)) -> agree (alter k ip g) (alter h ip m) Q.
Proof.
  intros H Hh ip'. rewrite !lookup_alter. destruct (decide _) as [->|]; [|apply H]. destruct (H ip'); constructor. auto.
Qed.
Lemma agree_alter_l {A B} (g : gmap IpAddr A) (m : gmap IpAddr B) (Q : A -> B -> Prop) k ip :
  agree g m Q -> (forall a b, Q a b -> Q (k a) b) -> agree (alter k ip g) m Q.
Proof.
  intros H Hh ip'. rewrite lookup_alter. destruct (decide _) as [->|]; [|apply H]. destruct (H ip'); constructor. auto.
Qed.
Lemma agree_fmap_r {A B} (g : gmap IpAddr A) (m : gmap IpAddr B) (Q : A -> B -> Prop) h :
  agree g m Q -> (forall a b, Q a b -> Q a (h b)) -> agree g (h <$> m) Q.
Proof. intros H Hh ip'. rewrite lookup_fmap. destruct (H ip'); constructor. auto. Qed.
Lemma resolve_configured (o : option DefaultAction) (p : PeerConfig) las :
  resolve_import_default o (negb (pc_remote_as p =? las))
  = default (if decide (pc_remote_as p = las) then DefAccept else DefReject) o.
Proof. destruct o; [done|]. cbn. destruct (Z.eqb_spec (pc_remote_as p) las); by case_decide. Qed.
Lemma import_default_for f role o (p : PeerConfig) las :
  default_action (import_policy_for (R:=Route f) role o p las)
  = default (if decide (pc_remote_as p = las) then DefAccept else DefReject) o.
Proof. rewrite <- resolve_configured. unfold import_policy_for. by destruct role as [[]|]. Qed.
Lemma export_default_for f role (p : PeerConfig) las :
  default_action (export_policy_for (R:=Route f) role p las) = pd_export (configured_defaults las p).
Proof.
  cbn. rewrite <- (resolve_configured (pc_export_default p)). unfold export_policy_for. by destruct role as [[]|].
Qed.
Lemma import_default_configured f role (p : PeerConfig) las :
  default_action (import_policy_for (R:=Route f) role
    (match f with FamV4 => pc_import_default p | FamV6 => option_or (pc_import_default_v6 p) (pc_import_default p) end) p las)
  = pd_import f (configured_defaults las p).
Proof. rewrite import_default_for. destruct f; [done|]. cbn. by destruct (pc_import_default_v6 p). Qed.
Lemma defaults_ok_new las peers : defaults_ok (collect (configured_defaults las) peers) (tables_new las peers).
Proof.
  intros f. split; destruct f; apply agree_collect; intros p;
    [exact (import_default_configured FamV4 _ p las)|exact (import_default_configured FamV6 _ p las)|apply export_default_for..].
Qed.
Lemma defaults_ok_op las g t op : defaults_ok g t -> defaults_ok (defaults_op las g op) (table_op las t op).
Proof.
  intros Ht. assert (Hkey : forall ip, g !! ip = None <-> import_policies t !! ip = None)
    by (intros ip; apply (agree_none _ _ _ _ (proj1 (Ht FamV4)))).
  destruct op as [rtr|p|ip|ip d|ip d]; cbn [table_op defaults_op].
  - intros f. split; destruct f; try apply Ht; (eapply agree_fmap_r; [apply Ht|done]).
  - unfold tables_add_peer. destruct (import_policies t !! pc_address p) eqn:Ei.
    + destruct (g !! pc_address p) eqn:Eg; [done|]. apply Hkey in Eg. congruence.
    + apply Hkey in Ei as Eg. rewrite Eg. intros f. split; destruct f; (apply agree_insert; [apply Ht|]);
        [exact (import_default_configured FamV4 _ p las)|exact (import_default_configured FamV6 _ p las)|apply export_default_for..].
  - unfold tables_remove_peer. destruct (import_policies t !! ip) eqn:Ei.
    + intros f. split; destruct f; apply agree_delete, Ht.
    + apply Hkey in Ei as Eg.
      assert (delete ip g = g) as -> by (by apply (delete_id (M:=gmap IpAddr))). done.
  - intros f. split; destruct f; try (apply agree_alter_both; [apply Ht|done]); (apply agree_alter_l; [apply Ht|done]).
  - intros f. split; destruct f; try (apply agree_alter_both; [apply Ht|done]); (apply agree_alter_l; [apply Ht|done]).
Qed.
Lemma defaults_ok_after las peers ops : defaults_ok (defaults_after las peers ops) (tables_after las peers ops).
Proof.
  unfold defaults_after, tables_after. induction ops as [|op ops IH] using rev_ind; [apply defaults_ok_new|].
  rewrite !foldl_snoc. by apply defaults_ok_op.
Qed.

(** ** Evaluation *)
Lemma rov_terms_eval {f} las rovs d (r : Route f) :
  evaluate_terms (map (rov_term las) rovs) d r
  = if existsb (fun rtr => RoaValidityCondition rtr Invalid las r) rovs
    then (r, DReject) else (r, decision_from d).
Proof.
  induction rovs as [|rtr rovs IH]; [done|]. cbn [map evaluate_terms existsb].
  unfold term_evaluate, rov_term at 1. cbn [condition action].
  by destruct (RoaValidityCondition rtr Invalid las r).
Qed.

Lemma import_eval {f} las x (pol : Policy (Route f)) r : import_ok f las x pol ->
  evaluate pol r = import_verdict x las (default_action pol) r.
Proof.
  intros Ho. unfold evaluate. rewrite Ho. destruct x as [p role rovs]; cbn [ps_role ps_config ps_rovs].
  unfold import_policy_for, import_verdict, is_leak, mark. cbn [ps_role ps_config ps_rovs].
  destruct role as [role|]; [|apply rov_terms_eval].
  unfold install_otc_import_term.
  destruct role; cbn [is_up_role add_term policy_new terms app map evaluate_terms]; unfold term_evaluate;
    cbn [condition action]; (destruct (OtcLeakCondition _ _ r); [done|]);
    cbn [AnyCondition SetOtc fst]; apply rov_terms_eval.
Qed.

Lemma export_eval {f} las x (pol : Policy (Route f)) r : export_ok f las x pol ->
  evaluate pol r = export_verdict x las (default_action pol) r.
Proof.
  intros Ho. unfold evaluate. rewrite Ho. destruct x as [p role rovs]; cbn [ps_role ps_config].
  unfold export_policy_for, export_verdict, mark. cbn [ps_role].
  destruct role as [role|]; [|done]. unfold install_otc_export_term.
  destruct role; cbn [is_up_role is_down_role add_term policy_new terms app evaluate_terms andb];
    unfold term_evaluate; cbn [condition action]; try done;
    by destruct (OtcPropagationCondition r).
Qed.

Lemma import_verdict_accept {f} x las d (r r' : Route f) :
  import_verdict x las d r = (r', DAccept) ->
  r' = mark is_up_role (ps_role x) (pc_remote_as (ps_config x)) r
  /\ is_leak (ps_role x) (pc_remote_as (ps_config x)) r = false
  /\ forall rtr, rtr ∈ ps_rovs x -> RoaValidityCondition rtr Invalid las r' = false.
Proof.
  unfold import_verdict. destruct (is_leak _ _ _); [done|].
  destruct (existsb _ _) eqn:Ex; [done|]. intros He.
  assert (r' = mark is_up_role (ps_role x) (pc_remote_as (ps_config x)) r) as -> by congruence.
  split_and!; [done|done|]. intros rtr Hin. apply not_true_iff_false. intros Hb.
  apply not_true_iff_false in Ex. apply Ex. apply existsb_exists. exists rtr.
  by rewrite <- list_elem_of_In.
Qed.

Lemma mark_otc {f} attach role asn (r : Route f) : attach role = true ->
  br_otc (mark attach (Some role) asn r) = Some (default asn (br_otc r)).
Proof.
  intros Ha. unfold mark. rewrite Ha. unfold SetOtc.
  destruct (br_otc r) as [o|] eqn:E; cbn [fst default from_option]; [done|].
  apply br_otc_set.
Qed.
End Facts.
