(* ===== verification/PolicyTheorems.v ===== *)
(** Theorems on the policy engine and the daemon's policy tables. *)
From Stdlib Require Import ZArith Lia Bool.
From stdpp Require Import base tactics numbers decidable gmap list.
From S2P Require Import Prelude Addr Types AsPath RouteMap Rtr Roa Policy Route DaemonPolicy.
Open Scope Z_scope.

(** A policy evaluates to the decision of the first term that matches and
    does not say Next, applied to the route as the earlier terms left it, or to
    its default when there is none; and to nothing else. *)
Theorem policy_first_match `{B : BgpRoute f R} (p : Policy R) (r r' : R) (d : Decision) :
  evaluate p r = (r', d)
  <-> (exists ts1 t ts2 r1, terms p = ts1 ++ t :: ts2 /\ pass_all ts1 r r1
         /\ condition t r1 = true /\ action t r1 = (r', d) /\ d <> DNext)
      \/ (pass_all (terms p) r r' /\ d = decision_from (default_action p)).
Proof.
  unfold evaluate. split.
  - intros He. destruct (evaluate_terms_cases (terms p) (default_action p) r)
      as [(ts1 & t & ts2 & r1 & r2 & d2 & Ht & Hp & Hc & Ha & Hd & He')|(r2 & Hp & He')];
      rewrite He' in He; injection He as <- <-.
    + left. by exists ts1, t, ts2, r1.
    + by right.
  - intros [(ts1 & t & ts2 & r1 & Ht & Hp & Hc & Ha & Hd)|[Hp ->]].
    + rewrite Ht, (evaluate_terms_pass ts1 _ _ r r1) by done. cbn [evaluate_terms].
      unfold term_evaluate. rewrite Hc, Ha. by destruct d.
    + rewrite <- (app_nil_r (terms p)). by rewrite (evaluate_terms_pass _ _ _ r r').
Qed.

Section Tables.
Context `{P : IpPrefixOps} {M : RouteMapOps}.

(** C19: after any sequence of peer additions and removals, default changes and
    RPKI installations, a known peer has in each family exactly the import policy
    [import_verdict] (leaks rejected, OTC attached, Invalid rejected by every ROA
    cache installed since it was added, then the default) and the export policy
    [export_verdict], each with the default last set for it, or else configured, or
    else that of RFC 8212; an unknown peer has none. *)
Theorem policy_tables_exact f las peers ops ip :
  let t := tables_after las peers ops in
  match spec_after las peers ops !! ip, defaults_after las peers ops !! ip with
  | None, None => import_policy t f !! ip = None /\ export_policy t f !! ip = None
  | Some x, Some dd => exists imp exp,
      import_policy t f !! ip = Some imp /\ export_policy t f !! ip = Some exp
      /\ (forall r, evaluate imp r = import_verdict x las (pd_import f dd) r)
      /\ (forall r, evaluate exp r = export_verdict x las (pd_export dd) r)
  | _, _ => False
  end.
Proof.
  intros t. destruct (tables_ok_after las peers ops f) as [Hi He], (defaults_ok_after las peers ops f) as [Di De].
  specialize (Hi ip). specialize (He ip). specialize (Di ip). specialize (De ip). fold t in Hi, He, Di, De.
  destruct (spec_after las peers ops !! ip) as [x|].
  - inversion Hi as [? imp Hi' E1 E2|]; inversion He as [? exp He' E3 E4|]; subst.
    rewrite <- E2 in *. rewrite <- E4 in *. inversion Di as [dd ? Hd E5 E6|]; subst. rewrite <- E5 in *.
    inversion De as [? ? Hd'|]; subst. exists imp, exp. split_and!; [done|done| |].
    + intros r. rewrite <- Hd. apply (import_eval las x), Hi'.
    + intros r. rewrite <- Hd'. apply (export_eval las x), He'.
  - inversion Hi as [|E1 E2]; inversion He as [|E3 E4]. rewrite <- E2 in *. rewrite <- E4 in *.
    inversion Di as [|E5 E6]. done.
Qed.

(** C20: RFC 9234 never lets a route climb back: a route accepted from a Provider,
    Peer or Route Server (our role is Customer, Peer or RS-Client) carries OTC,
    and while it does the export policy of every Provider, Peer or Route Server
    rejects it, whatever the peers' defaults and the RPKI state. *)
Theorem otc_valley_free f las peers ops ip1 ip2 x1 x2 role1 role2 imp exp
    (r r1 r2 : Route f) :
  spec_after las peers ops !! ip1 = Some x1 -> spec_after las peers ops !! ip2 = Some x2 ->
  ps_role x1 = Some role1 -> is_up_role role1 = true ->
  ps_role x2 = Some role2 -> is_up_role role2 = true ->
  import_policy (tables_after las peers ops) f !! ip1 = Some imp ->
  export_policy (tables_after las peers ops) f !! ip2 = Some exp ->
  evaluate imp r = (r1, DAccept) -> br_otc r2 = br_otc r1 ->
  br_otc r1 <> None /\ snd (evaluate exp r2) = DReject.
Proof.
  intros Hg1 Hg2 Hr1 Hu1 Hr2 Hu2 Hi He Hev Ho.
  destruct (tables_ok_after las peers ops f) as [Hti Hte].
  specialize (Hti ip1). specialize (Hte ip2). rewrite Hg1, Hi in Hti. rewrite Hg2, He in Hte.
  inversion Hti as [? ? Hio|]; inversion Hte as [? ? Heo|]; subst.
  rewrite (import_eval _ _ _ _ Hio) in Hev. rewrite (export_eval _ _ _ _ Heo).
  apply import_verdict_accept in Hev as (-> & _). rewrite Hr1 in *.
  unfold export_verdict. rewrite Hr2, Hu2.
  assert (Hotc : br_otc (mark is_up_role (Some role1) (pc_remote_as (ps_config x1)) r) <> None)
    by (by rewrite mark_otc).
  split; [done|]. unfold OtcPropagationCondition. rewrite Ho.
  by destruct (br_otc (mark _ _ _ _)).
Qed.

(** A route with OTC from a Customer or RS-Client, or from a Peer other than
    the one that set it, is rejected unchanged whatever the other settings. *)
Theorem otc_leak_rejected f las peers ops ip x role imp (r : Route f) otc :
  spec_after las peers ops !! ip = Some x -> ps_role x = Some role ->
  import_policy (tables_after las peers ops) f !! ip = Some imp ->
  br_otc r = Some otc ->
  role = Provider \/ role = RouteServer \/ (role = Peer /\ otc <> pc_remote_as (ps_config x)) ->
  evaluate imp r = (r, DReject).
Proof.
  intros Hg Hr Hi Ho Hc. destruct (tables_ok_after las peers ops f) as [Hti _].
  specialize (Hti ip). rewrite Hg, Hi in Hti. inversion Hti as [? ? Hio|]; subst.
  rewrite (import_eval _ _ _ _ Hio). unfold import_verdict, is_leak, OtcLeakCondition.
  rewrite Hr, Ho. destruct Hc as [->|[->|[-> Hne]]]; [done|done|].
  by rewrite (proj2 (Z.eqb_neq _ _) Hne).
Qed.

(** A route a peer's import policy accepts is not Invalid for any ROA cache
    installed since the peer was added. *)
Theorem rov_accepts_not_invalid f las peers ops ip x imp (r r' : Route f) rtr :
  spec_after las peers ops !! ip = Some x -> rtr ∈ ps_rovs x ->
  import_policy (tables_after las peers ops) f !! ip = Some imp ->
  evaluate imp r = (r', DAccept) ->
  let n := nlri_prefix (nlri r') in
  roa_lookup rtr f (prefix_ip n) (prefix_mask n)
    (default 0 (Path.origin_as (as_path r') las)) <> Invalid.
Proof.
  intros Hg Hin Hi Hev. destruct (tables_ok_after las peers ops f) as [Hti _].
  specialize (Hti ip). rewrite Hg, Hi in Hti. inversion Hti as [? ? Hio|]; subst.
  rewrite (import_eval _ _ _ _ Hio) in Hev.
  apply import_verdict_accept in Hev as (_ & _ & Hr). specialize (Hr rtr Hin).
  by apply bool_decide_eq_false in Hr.
Qed.

(** A peer added while RPKI is running gets no reject-Invalid term: with an
    accepting import default it accepts every route without change, also one the
    ROA cache finds Invalid. *)
Theorem dynamic_peer_without_rov f las rtr p (r : Route f) :
  effective_role p las = None ->
  pc_import_default p = Some DefAccept -> pc_import_default_v6 p = None ->
  exists imp, import_policy (tables_after las [] [OpInstallRpki rtr; OpAddPeer p]) f
      !! pc_address p = Some imp
    /\ evaluate imp r = (r, DAccept).
Proof.
  intros Hr Hd Hd6.
  exists (import_policy_for None (Some DefAccept) p las). split.
  - unfold tables_after. cbn [foldl table_op]. unfold tables_add_peer, install_rpki_import_terms.
    cbn [import_policies tables_new collect foldl]. rewrite fmap_empty, lookup_empty. unfold tables_insert_peer.
    rewrite Hd, Hd6, Hr. destruct f; apply lookup_insert_eq.
  - done.
Qed.
End Tables.

(** ** Witnesses *)
Section Witnesses.
Context `{P : IpPrefixOps} {M : RouteMapOps}.
Definition provider_peer : PeerConfig :=
  mkPeerConfig (IpV4 1) 65010 (Some DefAccept) None (Some DefAccept) false false false (Some Customer)
    None None None None None 179 None None.
Definition lateral_peer : PeerConfig :=
  mkPeerConfig (IpV4 2) 65020 (Some DefAccept) None (Some DefAccept) false false false (Some Peer)
    None None None None None 179 None None.
Definition plain_peer : PeerConfig :=
  mkPeerConfig (IpV4 3) 65030 (Some DefAccept) None None false false false None
    None None None None None 179 None None.
Definition sample_route {f} (n : Nlri f) : Route f :=
  builder_new 0 n Igp (Path.from_sequence [65010; 65099]).
End Witnesses.

Definition sample_nlri : Nlri (P:=ModelPrefix.ops) FamV4 :=
  ModelPrefix.nlri FamV4 167772160 8 eq_refl.
Section Applied.
#[local] Existing Instances ModelPrefix.ops ModelPrefix.laws ModelRouteMap.ops.

(** An external peer configured without defaults, whose import default is then set. *)
Definition bare_peer : PeerConfig :=
  mkPeerConfig (IpV4 4) 65040 None None None false false false None None None None None None 179 None None.
Lemma policy_tables_exact_witness : exists imp exp,
  import_policy (tables_after 65001 [bare_peer] [OpSetImportDefault (IpV4 4) DefAccept]) FamV4 !! IpV4 4 = Some imp
  /\ export_policy (tables_after 65001 [bare_peer] [OpSetImportDefault (IpV4 4) DefAccept]) FamV4 !! IpV4 4 = Some exp
  /\ evaluate imp (sample_route sample_nlri) = (sample_route sample_nlri, DAccept)
  /\ evaluate exp (sample_route sample_nlri) = (sample_route sample_nlri, DReject).
Proof.
  destruct (policy_tables_exact FamV4 65001 [bare_peer] [OpSetImportDefault (IpV4 4) DefAccept] (IpV4 4))
    as (imp & exp & Hi & He & Ei & Ee).
  exists imp, exp. split_and!; [exact Hi|exact He|rewrite Ei; reflexivity|rewrite Ee; reflexivity].
Defined.

Lemma otc_valley_free_witness :
  br_otc (set_otc (sample_route sample_nlri) (Some 65010)) <> None
  /\ snd (evaluate (export_policy_for (Some Peer) lateral_peer 65001)
            (set_otc (sample_route sample_nlri) (Some 65010))) = DReject.
Proof.
  apply (otc_valley_free FamV4 65001 [provider_peer; lateral_peer] [] (IpV4 1) (IpV4 2)
    (mkPeerSpec provider_peer (Some Customer) []) (mkPeerSpec lateral_peer (Some Peer) [])
    Customer Peer
    (import_policy_for (Some Customer) (Some DefAccept) provider_peer 65001)
    (export_policy_for (Some Peer) lateral_peer 65001)
    (sample_route sample_nlri)); reflexivity.
Defined.

Lemma otc_leak_rejected_witness :
  evaluate (import_policy_for (Some Peer) (Some DefAccept) lateral_peer 65001)
    (set_otc (sample_route sample_nlri) (Some 65010))
  = (set_otc (sample_route sample_nlri) (Some 65010), DReject).
Proof.
  apply (otc_leak_rejected FamV4 65001 [lateral_peer] [] (IpV4 2)
    (mkPeerSpec lateral_peer (Some Peer) []) Peer
    (import_policy_for (Some Peer) (Some DefAccept) lateral_peer 65001) _ 65010);
    [reflexivity|reflexivity|reflexivity|reflexivity|].
  right. right. split; [reflexivity|]. simpl. lia.
Defined.

Lemma rov_accepts_not_invalid_witness :
  roa_lookup roa_new FamV4 167772160 8 65099 <> Invalid.
Proof.
  exact (rov_accepts_not_invalid FamV4 65001 [plain_peer] [OpInstallRpki roa_new] (IpV4 3)
    (mkPeerSpec plain_peer None [roa_new])
    (add_term (import_policy_for None (Some DefAccept) plain_peer 65001)
       (mkTerm (RoaValidityCondition roa_new Invalid 65001) Reject))
    (sample_route sample_nlri) (sample_route sample_nlri) roa_new
    eq_refl ltac:(left) eq_refl eq_refl).
Defined.

Lemma dynamic_peer_without_rov_witness : exists imp,
  import_policy (tables_after 65001 [] [OpInstallRpki roa_new; OpAddPeer plain_peer]) FamV4
    !! IpV4 3 = Some imp
  /\ evaluate imp (sample_route sample_nlri) = (sample_route sample_nlri, DAccept).
Proof.
  apply (dynamic_peer_without_rov FamV4 65001 roa_new plain_peer); reflexivity.
Defined.
End Applied.
