(* ===== verification/BestPath.v ===== *)
(** The BGP decision process ([pathvector-rib/src/best_path.rs], [oracle.rs]).

    [select_best_with_oracle] gets its candidates as the list of map entries in
    the order the hash map happens to yield them, and [group_order] is the order
    in which the map of groups yields its values. *)
From Stdlib Require Import ZArith Lia Bool.
From stdpp Require Import base tactics numbers decidable gmap list.
From S2P Require Import Prelude Addr Types AsPath Policy Route.
Open Scope Z_scope.

(** [trait NextHopOracle] *)
Record NextHopOracle := mkOracle {
  is_reachable : NextHop -> bool;
  igp_metric : NextHop -> option Z;
}.
Definition AlwaysReachable : NextHopOracle := mkOracle (fun _ => true) (fun _ => None).

Definition peer_type_rank (pt : PeerType) : Z :=
  match pt with Internal | ConfedMember => 0 | External => 1 | Local => 2 end.

(** [Iterator::max_by]: the last of the maximal elements of a left fold. *)
Definition max_by {A} (cmp : A -> A -> comparison) (l : list A) : option A :=
  match l with
  | [] => None
  | x :: l => Some (fold_left (fun acc y => match cmp acc y with Gt => acc | _ => y end) l x)
  end.

Section BestPath.
Context `{P : IpPrefixOps} {f : Family}.

Definition Candidate : Type := PeerId * Route f.

Definition stale_cmp (a b : Route f) : comparison :=
  match stale a, stale b with
  | false, true => Gt
  | true, false => Lt
  | _, _ => Eq
  end.
Definition local_pref_cmp (a b : Route f) : comparison :=
  default LocalPref_DEFAULT (local_pref a) ?= default LocalPref_DEFAULT (local_pref b).
Definition path_len_cmp (a b : Route f) : comparison :=
  (Path.path_length (as_path b) ?= Path.path_length (as_path a))%nat.
Definition origin_cmp (a b : Route f) : comparison := OriginOps.cmp (origin b) (origin a).
Definition med_cmp (a b : Route f) : comparison :=
  match Path.neighboring_as (as_path a) with
  | None => Eq
  | Some _ =>
      if decide (Path.neighboring_as (as_path a) = Path.neighboring_as (as_path b))
      then default 0 (med b) ?= default 0 (med a) else Eq
  end.
Definition session_cmp (a b : Route f) : comparison :=
  peer_type_rank (peer_type a) ?= peer_type_rank (peer_type b).
(** [a.next_hop.as_ref().and_then(|nh| oracle.igp_metric(nh))] *)
Definition metric (oracle : NextHopOracle) (a : Route f) : option Z :=
  match next_hop a with Some nh => igp_metric oracle nh | None => None end.
Definition metric_cmp (oracle : NextHopOracle) (a b : Route f) : comparison :=
  match metric oracle a, metric oracle b with
  | Some ma, Some mb => mb ?= ma
  | _, _ => Eq
  end.
Definition age_cmp (a b : Route f) : comparison :=
  if decide (peer_type a = External) then received_at b ?= received_at a else Eq.
Definition bgp_id_cmp (a b : Route f) : comparison :=
  match peer_bgp_id a, peer_bgp_id b with
  | Some ida, Some idb => idb ?= ida
  | _, _ => Eq
  end.

Definition prefer (oracle : NextHopOracle) (x y : Candidate) : comparison :=
  let '(peer_a, a) := x in
  let '(peer_b, b) := y in
  then_cmp (stale_cmp a b)
  (then_cmp (local_pref_cmp a b)
  (then_cmp (path_len_cmp a b)
  (then_cmp (origin_cmp a b)
  (then_cmp (med_cmp a b)
  (then_cmp (session_cmp a b)
  (then_cmp (metric_cmp oracle a b)
  (then_cmp (age_cmp a b)
  (then_cmp (bgp_id_cmp a b)
  (ipaddr_cmp peer_b peer_a))))))))).

(** [route.next_hop.as_ref().is_none_or(|nh| oracle.is_reachable(nh))] *)
Definition reachable (oracle : NextHopOracle) (x : Candidate) : bool :=
  match next_hop (snd x) with Some nh => is_reachable oracle nh | None => true end.
Definition group_key (x : Candidate) : option Z := Path.neighboring_as (as_path (snd x)).
(** [groups.entry(key).or_default().push(x)] for each candidate *)
Definition group_by (l : list Candidate) : gmap (option Z) (list Candidate) :=
  fold_left (fun m x => <[group_key x := default [] (m !! group_key x) ++ [x]]> m) l ∅.

Definition select_best_with_oracle (group_order : list (list Candidate) -> list (list Candidate))
    (candidates : list Candidate) (oracle : NextHopOracle) : option Candidate :=
  let l := List.filter (reachable oracle) candidates in
  match l with
  | [] => None
  | _ =>
      let groups := group_order (snd <$> map_to_list (group_by l)) in
      let group_winners := omap (max_by (prefer oracle)) groups in
      max_by (prefer oracle) group_winners
  end.
Definition select_best (group_order : list (list Candidate) -> list (list Candidate))
    (candidates : list Candidate) : option Candidate :=
  select_best_with_oracle group_order candidates AlwaysReachable.

(** ** Specification *)

(** RFC 4271 9.1.2.2 (a): an AS_SET counts as one hop whatever its size; confederation
    segments do not count (RFC 5065 5.3). *)
Fixpoint as_hops (p : AsPath) : Z :=
  match p with
  | [] => 0
  | Sequence asns :: p => Z.of_nat (length asns) + as_hops p
  | Set_ _ :: p => 1 + as_hops p
  | (ConfedSequence _ | ConfedSet _) :: p => as_hops p
  end.
(** The neighbouring AS: the first AS number of the first sequence that has one. *)
Fixpoint neighbor_as (p : AsPath) : option Z :=
  match p with
  | [] => None
  | Sequence (asn :: _) :: _ => Some asn
  | _ :: p => neighbor_as p
  end.
(** The values of ORIGIN on the wire (RFC 4271 4.3). *)
Definition origin_value (o : Origin) : Z := match o with Igp => 0 | Egp => 1 | Incomplete => 2 end.
Definition address_below (p q : PeerId) : Prop :=
  match p, q with
  | IpV4 a, IpV4 b | IpV6 a, IpV6 b => a < b
  | IpV4 _, IpV6 _ => True
  | IpV6 _, IpV4 _ => False
  end.
Definition resolvable (oracle : NextHopOracle) (x : Candidate) : Prop :=
  match next_hop (snd x) with Some nh => is_reachable oracle nh = true | None => True end.

(** The criteria in their order, each as "strictly better": fresh routes before stale
    ones (RFC 4724), the degree of preference, then the tie-breakers of RFC 4271
    9.1.2.2 (a) to (g), with routes of the router itself first and the age of
    external routes before the identifiers. *)
Definition rfc4271_criteria (oracle : NextHopOracle) : list (Candidate -> Candidate -> Prop) := [
  fun x y => stale (snd x) = false /\ stale (snd y) = true;
  fun x y => default 100 (local_pref (snd y)) < default 100 (local_pref (snd x));
  fun x y => as_hops (as_path (snd x)) < as_hops (as_path (snd y));
  fun x y => origin_value (origin (snd x)) < origin_value (origin (snd y));
  fun x y => neighbor_as (as_path (snd x)) = neighbor_as (as_path (snd y))
    /\ neighbor_as (as_path (snd x)) <> None /\ default 0 (med (snd x)) < default 0 (med (snd y));
  fun x y => match peer_type (snd x), peer_type (snd y) with
             | Local, (External | Internal | ConfedMember) | External, (Internal | ConfedMember) => True
             | _, _ => False
             end;
  fun x y => match next_hop (snd x) ≫= igp_metric oracle, next_hop (snd y) ≫= igp_metric oracle with
             | Some m, Some m' => m < m'
             | _, _ => False
             end;
  fun x y => peer_type (snd x) = External /\ peer_type (snd y) = External
    /\ received_at (snd x) < received_at (snd y);
  fun x y => match peer_bgp_id (snd x), peer_bgp_id (snd y) with Some i, Some j => i < j | _, _ => False end;
  fun x y => address_below (fst x) (fst y)
].
(** The first criterion that tells the two apart decides. *)
Fixpoint decided_by (criteria : list (Candidate -> Candidate -> Prop)) (x y : Candidate) : Prop :=
  match criteria with
  | [] => False
  | better :: criteria => better x y \/ (~ better x y /\ ~ better y x /\ decided_by criteria x y)
  end.
Definition rfc4271_prefers (oracle : NextHopOracle) : Candidate -> Candidate -> Prop :=
  decided_by (rfc4271_criteria oracle).
(** [x] is the best of the resolvable candidates of [l] with its neighbouring AS. *)
Definition best_of_neighbor (oracle : NextHopOracle) (l : list Candidate) (x : Candidate) : Prop :=
  x ∈ l /\ resolvable oracle x
  /\ forall y, y ∈ l -> resolvable oracle y -> neighbor_as (as_path (snd y)) = neighbor_as (as_path (snd x)) ->
       y <> x -> rfc4271_prefers oracle x y.
(** RFC 4271 9.1: the best candidate of its neighbouring AS (where MED counts) that
    beats the best of every other neighbouring AS (where it does not). *)
Definition rfc4271_winner (oracle : NextHopOracle) (candidates : list Candidate) (x : Candidate)
    : Prop :=
  best_of_neighbor oracle candidates x
  /\ forall y, best_of_neighbor oracle candidates y -> y <> x -> rfc4271_prefers oracle x y.

(** The same by the comparison of the code. *)
Definition group_best (oracle : NextHopOracle) (l : list Candidate) (x : Candidate) : Prop :=
  x ∈ l /\ forall y, y ∈ l -> group_key y = group_key x -> y <> x -> prefer oracle x y = Gt.
Definition prefer_winner (oracle : NextHopOracle) (candidates : list Candidate) (x : Candidate)
    : Prop :=
  let l := List.filter (reachable oracle) candidates in
  group_best oracle l x
  /\ forall y, group_best oracle l y -> y <> x -> prefer oracle x y = Gt.
(** The optional criteria are known alike for the candidates they compare. *)
Definition comparable (oracle : NextHopOracle) (l : list Candidate) : Prop :=
  forall x y, x ∈ l -> y ∈ l ->
    peer_type_rank (peer_type (snd x)) = peer_type_rank (peer_type (snd y)) ->
    (metric oracle (snd x) = None <-> metric oracle (snd y) = None)
    /\ (peer_bgp_id (snd x) = None <-> peer_bgp_id (snd y) = None).

(** ** The comparison follows the criteria *)
Definition follows (c : comparison) (better worse : Prop) : Prop := (c = Gt <-> better) /\ (c = Lt <-> worse).
Lemma follows_lt a b : follows (b ?= a) (a < b) (b < a).
Proof. split; [rewrite Z.compare_gt_iff|rewrite Z.compare_lt_iff]; lia. Qed.
Lemma as_hops_length p : as_hops p = Z.of_nat (Path.path_length p).
Proof.
  unfold Path.path_length. induction p as [|[v|v|v|v] p IH]; cbn [as_hops sum_list_with foldr Seg.path_length]; [done|..]; lia.
Qed.
Lemma neighbor_neighboring p : neighbor_as p = Path.neighboring_as p.
Proof.
  unfold Path.neighboring_as. induction p as [|[[|a v]|v|v|v] p IH]; cbn [neighbor_as find_map head]; done.
Qed.
Lemma reachable_resolvable oracle x : reachable oracle x = true <-> resolvable oracle x.
Proof. unfold reachable, resolvable. by destruct (next_hop (snd x)). Qed.
Lemma decided_step c d (better : Candidate -> Candidate -> Prop) criteria x y :
  follows c (better x y) (better y x) -> (c = Eq -> d = Gt <-> decided_by criteria x y) ->
  then_cmp c d = Gt <-> decided_by (better :: criteria) x y.
Proof. intros [Hg Hl] Hd. cbn [decided_by]. rewrite <- Hg, <- Hl. destruct c; cbn [then_cmp]; naive_solver. Qed.

Lemma follows_known (o o' : option Z) :
  follows (match o, o' with Some m, Some m' => m' ?= m | _, _ => Eq end)
    (match o, o' with Some m, Some m' => m < m' | _, _ => False end)
    (match o', o with Some m, Some m' => m < m' | _, _ => False end).
Proof. destruct o, o'; [apply follows_lt|done..]. Qed.
Lemma med_follows a b : follows (med_cmp a b)
  (neighbor_as (as_path a) = neighbor_as (as_path b) /\ neighbor_as (as_path a) <> None /\ default 0 (med a) < default 0 (med b))
  (neighbor_as (as_path b) = neighbor_as (as_path a) /\ neighbor_as (as_path b) <> None /\ default 0 (med b) < default 0 (med a)).
Proof.
  rewrite !neighbor_neighboring. unfold med_cmp. destruct (Path.neighboring_as (as_path a)) eqn:Ea.
  - destruct (decide _) as [E|E].
    + rewrite <- E. destruct (follows_lt (default 0 (med a)) (default 0 (med b))) as [H1 H2].
      split; [rewrite H1|rewrite H2]; naive_solver.
    + split; split; (done || naive_solver).
  - split; split; (done || naive_solver).
Qed.
Lemma age_follows a b : session_cmp a b = Eq -> follows (age_cmp a b)
  (peer_type a = External /\ peer_type b = External /\ received_at a < received_at b)
  (peer_type b = External /\ peer_type a = External /\ received_at b < received_at a).
Proof.
  intros Hs. unfold age_cmp. destruct (decide _) as [E|E].
  - assert (Eb : peer_type b = External) by (unfold session_cmp in Hs; rewrite E in Hs; by destruct (peer_type b)).
    destruct (follows_lt (received_at a) (received_at b)) as [H1 H2]. split; [rewrite H1|rewrite H2]; naive_solver.
  - split; split; (done || naive_solver).
Qed.
Lemma address_follows p q : ipaddr_cmp q p = Gt <-> address_below p q.
Proof. destruct p, q; cbn; [apply follows_lt|done..|apply follows_lt]. Qed.
Lemma prefer_rfc4271 oracle x y : prefer oracle x y = Gt <-> rfc4271_prefers oracle x y.
Proof.
  destruct x as [p a], y as [q b]. unfold rfc4271_prefers, rfc4271_criteria, prefer.
  apply decided_step.
  { unfold follows, stale_cmp. cbn. destruct (stale a), (stale b); naive_solver. }
  intros _. apply decided_step; [apply (follows_lt (default 100 (local_pref b)))|].
  intros _. apply decided_step.
  { cbn. rewrite !as_hops_length. unfold path_len_cmp. rewrite <- Nat2Z.inj_compare. apply follows_lt. }
  intros _. apply decided_step; [apply (follows_lt (origin_value (origin a)))|].
  intros _. apply decided_step; [apply med_follows|].
  intros _. apply decided_step.
  { unfold follows, session_cmp. cbn. destruct (peer_type a), (peer_type b); cbn; naive_solver. }
  intros Hs. apply decided_step; [apply (follows_known (metric oracle a) (metric oracle b))|].
  intros _. apply decided_step; [by apply age_follows|].
  intros _. apply decided_step; [apply (follows_known (peer_bgp_id a) (peer_bgp_id b))|].
  intros _. cbn [decided_by]. rewrite address_follows. naive_solver.
Qed.

(** ** Lexicographic comparison *)

(** Transitivity of "at least as good" at three points, strict unless all tie. *)
Definition cmp_trans {A} (c : A -> A -> comparison) (x y z : A) : Prop :=
  c x y <> Lt -> c y z <> Lt -> c x z <> Lt /\ (c x z = Eq -> c x y = Eq /\ c y z = Eq).

Lemma cmp_trans_key {A} (k : A -> Z) x y z : cmp_trans (fun a b => k a ?= k b) x y z.
Proof.
  unfold cmp_trans. rewrite !Z.compare_ge_iff, !Z.compare_eq_iff. lia.
Qed.
Lemma cmp_trans_rev {A} (c : A -> A -> comparison) x y z :
  (forall a b, c b a = CompOpp (c a b)) ->
  cmp_trans c z y x -> cmp_trans (fun a b => c b a) x y z.
Proof. intros Ha H H1 H2. destruct (H H2 H1) as [H3 H4]. split; [done|]. intros E. naive_solver. Qed.
Lemma cmp_trans_key_rev {A} (k : A -> Z) x y z : cmp_trans (fun a b => k b ?= k a) x y z.
Proof.
  apply (cmp_trans_rev (fun a b => k a ?= k b)); [intros; apply Z.compare_antisym|].
  apply cmp_trans_key.
Qed.
Lemma cmp_trans_lex {A} (c1 c2 : A -> A -> comparison) x y z :
  cmp_trans c1 x y z -> (c1 x y = Eq -> c1 y z = Eq -> cmp_trans c2 x y z) ->
  cmp_trans (fun a b => then_cmp (c1 a b) (c2 a b)) x y z.
Proof.
  unfold cmp_trans, then_cmp. intros H1 H2 Hxy Hyz.
  destruct (c1 x y) eqn:E1, (c1 y z) eqn:E2; try done;
    destruct H1 as [H3 H4]; try done;
    destruct (c1 x z) eqn:E3; try done; naive_solver.
Qed.
Lemma cmp_trans_const {A} (x y z : A) : cmp_trans (fun _ _ => Eq) x y z.
Proof. by unfold cmp_trans. Qed.
Lemma cmp_trans_ext {A} (c c' : A -> A -> comparison) x y z :
  c x y = c' x y -> c y z = c' y z -> c x z = c' x z -> cmp_trans c x y z -> cmp_trans c' x y z.
Proof. unfold cmp_trans. by intros -> -> ->. Qed.
Lemma ipaddr_cmp_trans x y z : cmp_trans ipaddr_cmp x y z.
Proof.
  unfold cmp_trans. destruct x, y, z; simpl; try naive_solver;
    rewrite !Z.compare_ge_iff, !Z.compare_eq_iff; lia.
Qed.

(** ** [max_by] *)
Lemma fold_max_in {A} (cmp : A -> A -> comparison) l x :
  let m := fold_left (fun acc y => match cmp acc y with Gt => acc | _ => y end) l x in
  m = x \/ m ∈ l.
Proof.
  revert x. induction l as [|y l IH]; intros x; simpl; [by left|].
  destruct (IH (match cmp x y with Gt => x | _ => y end)) as [->|Hin]; [|right; by right].
  destruct (cmp x y); [right; left|right; left|by left].
Qed.
Lemma max_by_in {A} (cmp : A -> A -> comparison) l m : max_by cmp l = Some m -> m ∈ l.
Proof.
  destruct l as [|x l]; [done|]. intros [= <-].
  destruct (fold_max_in cmp l x) as [->|]; [left|by right].
Qed.
Lemma max_by_some {A} (cmp : A -> A -> comparison) l : l <> [] -> is_Some (max_by cmp l).
Proof. destruct l; [done|]. by eexists. Qed.

(** Let the comparator refine an order [p] that is transitive on the list; then a
    maximum is at least as good for [p] as every element. *)
Lemma max_by_ge {A} (cmp p : A -> A -> comparison) l m :
  (forall a, p a a = Eq) ->
  (forall a b, match cmp a b with Gt => p a b <> Lt | _ => p b a <> Lt end) ->
  (forall a b c, a ∈ l -> b ∈ l -> c ∈ l -> cmp_trans p a b c) ->
  max_by cmp l = Some m -> forall y, y ∈ l -> p m y <> Lt.
Proof.
  intros Hrefl Hcmp. destruct l as [|x l]; [done|]. intros Ht [= <-].
  revert x Ht. induction l as [|y l IH]; intros x Ht z Hz; simpl.
  { apply list_elem_of_singleton in Hz as ->. by rewrite Hrefl. }
  set (x' := match cmp x y with Gt => x | _ => y end).
  assert (Hx' : x' = x \/ x' = y) by (unfold x'; destruct (cmp x y); auto).
  assert (Hge : p x' x <> Lt /\ p x' y <> Lt).
  { unfold x'. specialize (Hcmp x y). destruct (cmp x y); by rewrite ?Hrefl. }
  assert (Ht' : forall a b c, a ∈ x' :: l -> b ∈ x' :: l -> c ∈ x' :: l -> cmp_trans p a b c).
  { assert (Hsub : forall a, a ∈ x' :: l -> a ∈ x :: y :: l)
      by (intros a; rewrite !elem_of_cons; destruct Hx' as [->| ->]; tauto).
    intros a b c ? ? ?. apply Ht; auto. }
  set (m := fold_left _ l x').
  assert (Hm : p m x' <> Lt) by (apply (IH x' Ht'); left).
  assert (Hx'in : x' ∈ x :: y :: l) by (rewrite !elem_of_cons; destruct Hx' as [->| ->]; tauto).
  assert (Hin : m ∈ x :: y :: l).
  { destruct (fold_max_in cmp l x') as [E|E]; fold m in E; [by rewrite E|].
    rewrite !elem_of_cons. tauto. }
  rewrite !elem_of_cons in Hz. destruct Hz as [->|[->|Hz]].
  - apply (Ht m x' x); [done|done|left|done|apply Hge].
  - apply (Ht m x' y); [done|done|right; left|done|apply Hge].
  - apply (IH x' Ht'). by right.
Qed.

(** ** The comparator *)
Lemma then_cmp_opp a b a' b' : a' = CompOpp a -> b' = CompOpp b ->
  then_cmp a' b' = CompOpp (then_cmp a b).
Proof. intros -> ->. by destruct a. Qed.

Lemma med_cmp_antisym a b : med_cmp b a = CompOpp (med_cmp a b).
Proof.
  unfold med_cmp.
  destruct (Path.neighboring_as (as_path a)) as [x|], (Path.neighboring_as (as_path b)) as [y|];
    [|by rewrite decide_False..|done].
  destruct (decide (Some x = Some y)) as [E|E].
  - rewrite decide_True by congruence. apply Z.compare_antisym.
  - by rewrite decide_False by congruence.
Qed.

Lemma prefer_antisym oracle x y : prefer oracle y x = CompOpp (prefer oracle x y).
Proof.
  destruct x as [pa a], y as [pb b]. unfold prefer.
  assert (Hz : forall u v : Z, (u ?= v) = CompOpp (v ?= u)) by (intros; apply Z.compare_antisym).
  apply then_cmp_opp; [unfold stale_cmp; by destruct (stale a), (stale b)|].
  apply then_cmp_opp; [apply Hz|].
  apply then_cmp_opp; [apply Nat.compare_antisym|].
  apply then_cmp_opp; [apply Hz|].
  apply then_cmp_opp; [apply med_cmp_antisym|].
  destruct (session_cmp a b) eqn:Es.
  2,3: unfold session_cmp in *; rewrite Hz, Es; done.
  assert (Es' : session_cmp b a = Eq) by (unfold session_cmp in *; by rewrite Hz, Es).
  rewrite Es'. cbn [then_cmp]. unfold session_cmp in Es. apply Z.compare_eq in Es.
  apply then_cmp_opp.
  { unfold metric_cmp. destruct (metric oracle a), (metric oracle b); try done; apply Hz. }
  apply then_cmp_opp.
  { unfold age_cmp. destruct (peer_type a), (peer_type b); try done; apply Hz. }
  apply then_cmp_opp.
  { unfold bgp_id_cmp. destruct (peer_bgp_id a), (peer_bgp_id b); try done; apply Hz. }
  apply ipaddr_cmp_antisym.
Qed.

Lemma prefer_eq oracle x y : prefer oracle x y = Eq -> fst x = fst y.
Proof.
  destruct x as [pa a], y as [pb b]. unfold prefer, then_cmp.
  repeat (case_match; try done). intros E. by apply ipaddr_cmp_eq in E.
Qed.

(** Where MED is compared alike, the candidates are totally ordered. *)
Definition same_med (x y z : Candidate) : Prop :=
  (group_key x = group_key y /\ group_key y = group_key z)
  \/ (group_key x <> group_key y /\ group_key y <> group_key z /\ group_key x <> group_key z).

Lemma med_trans x y z : same_med x y z ->
  cmp_trans (fun a b : Candidate => med_cmp (snd a) (snd b)) x y z.
Proof.
  unfold same_med, group_key, med_cmp. intros [[E1 E2]|(E1 & E2 & E3)].
  - destruct (Path.neighboring_as (as_path (snd x))) as [n|] eqn:Ex; symmetry in E1, E2;
      rename E1 into Ey; rewrite Ey in E2; rename E2 into Ez.
    + eapply (cmp_trans_ext (fun a b : Candidate => default 0 (med (snd b)) ?= default 0 (med (snd a))));
        [..|apply cmp_trans_key_rev].
      all: rewrite ?Ex, ?Ey, ?Ez; by rewrite decide_True.
    + eapply (cmp_trans_ext (fun _ _ => Eq)); [..|apply cmp_trans_const]; by rewrite ?Ex, ?Ey.
  - eapply (cmp_trans_ext (fun _ _ => Eq)); [..|apply cmp_trans_const].
    all: case_match; [symmetry; apply decide_False; congruence|done].
Qed.

(** A step that is skipped unless both values are known *)
Lemma known_trans (g : Candidate -> option Z) x y z :
  (g x = None <-> g y = None) -> (g y = None <-> g z = None) ->
  cmp_trans (fun a b => match g a, g b with Some m, Some m' => m' ?= m | _, _ => Eq end) x y z.
Proof.
  intros H1 H2. destruct (g x) eqn:Ex.
  - eapply cmp_trans_ext; [..|apply (cmp_trans_key_rev (fun a => default 0 (g a)))]; cbn; rewrite ?Ex;
      (destruct (g y); [|naive_solver]); (destruct (g z); [|naive_solver]); done.
  - eapply (cmp_trans_ext (fun _ _ => Eq)); [..|apply cmp_trans_const]; cbn; rewrite ?Ex, ?(proj1 H1); done.
Qed.
Lemma age_trans x y z : peer_type_rank (peer_type (snd x)) = peer_type_rank (peer_type (snd y)) ->
  peer_type_rank (peer_type (snd y)) = peer_type_rank (peer_type (snd z)) ->
  cmp_trans (fun a b : Candidate => age_cmp (snd a) (snd b)) x y z.
Proof.
  assert (Hpt : forall a b : PeerType, peer_type_rank a = peer_type_rank b ->
    a = External <-> b = External) by (by intros [] []).
  intros S1%Hpt S2%Hpt. unfold age_cmp. destruct (decide (peer_type (snd x) = External)) as [E|E].
  - eapply cmp_trans_ext; [..|apply (cmp_trans_key_rev (fun a => received_at (snd a)))];
      symmetry; apply decide_True; naive_solver.
  - eapply (cmp_trans_ext (fun _ _ => Eq)); [..|apply cmp_trans_const]; symmetry; apply decide_False; naive_solver.
Qed.

Lemma prefer_trans oracle l x y z : comparable oracle l -> x ∈ l -> y ∈ l -> z ∈ l ->
  same_med x y z -> cmp_trans (prefer oracle) x y z.
Proof.
  intros Hc Hx Hy Hz Hm.
  apply (cmp_trans_ext (fun a b : Candidate =>
    then_cmp (stale_cmp (snd a) (snd b)) (then_cmp (local_pref_cmp (snd a) (snd b))
    (then_cmp (path_len_cmp (snd a) (snd b)) (then_cmp (origin_cmp (snd a) (snd b))
    (then_cmp (med_cmp (snd a) (snd b)) (then_cmp (session_cmp (snd a) (snd b))
    (then_cmp (metric_cmp oracle (snd a) (snd b)) (then_cmp (age_cmp (snd a) (snd b))
    (then_cmp (bgp_id_cmp (snd a) (snd b)) (ipaddr_cmp (fst b) (fst a))))))))))));
    [by destruct x, y|by destruct y, z|by destruct x, z|].
  apply cmp_trans_lex.
  { unfold cmp_trans, stale_cmp. by destruct (stale (snd x)), (stale (snd y)), (stale (snd z)). }
  intros _ _. apply cmp_trans_lex.
  { apply (cmp_trans_key (fun a : Candidate => default LocalPref_DEFAULT (local_pref (snd a)))). }
  intros _ _. apply cmp_trans_lex.
  { unfold path_len_cmp. eapply cmp_trans_ext;
      [..|apply (cmp_trans_key_rev (fun a => Z.of_nat (Path.path_length (as_path (snd a)))))];
      apply Nat2Z.inj_compare. }
  intros _ _. apply cmp_trans_lex; [apply (cmp_trans_key_rev (fun a => OriginOps.as_u8 (origin (snd a))))|].
  intros _ _. apply cmp_trans_lex; [by apply med_trans|].
  intros _ _. apply cmp_trans_lex;
    [apply (cmp_trans_key (fun a : Candidate => peer_type_rank (peer_type (snd a))))|].
  intros S1%Z.compare_eq S2%Z.compare_eq.
  destruct (Hc x y Hx Hy S1) as [M1 I1], (Hc y z Hy Hz S2) as [M2 I2].
  apply cmp_trans_lex.
  { apply (known_trans (fun a => metric oracle (snd a))); [exact M1|exact M2]. }
  intros _ _. apply cmp_trans_lex; [by apply age_trans|].
  intros _ _. apply cmp_trans_lex; [apply (known_trans (fun a => peer_bgp_id (snd a))); [exact I1|exact I2]|].
  intros _ _. apply (cmp_trans_rev (fun a b : Candidate => ipaddr_cmp (fst a) (fst b)));
    [intros; apply ipaddr_cmp_antisym|].
  unfold cmp_trans. apply ipaddr_cmp_trans.
Qed.

(** ** Groups *)
Definition in_group (k : option Z) (x : Candidate) : bool := bool_decide (group_key x = k).

Lemma group_by_lookup l k :
  group_by l !! k = match List.filter (in_group k) l with [] => None | g => Some g end.
Proof.
  unfold group_by. induction l as [|x l IH] using rev_ind; [apply lookup_empty|].
  rewrite fold_left_app, List.filter_app. cbn [fold_left List.filter].
  set (m := fold_left _ l ∅) in *. unfold in_group at 2. rewrite lookup_insert.
  destruct (decide (group_key x = k)) as [E|E].
  - rewrite bool_decide_true by done. rewrite E, IH. by destruct (List.filter _ l).
  - rewrite bool_decide_false by done. by rewrite app_nil_r, IH.
Qed.

Lemma in_group_elem l k x : x ∈ List.filter (in_group k) l <-> x ∈ l /\ group_key x = k.
Proof.
  unfold in_group. rewrite !list_elem_of_In, filter_In, bool_decide_eq_true. done.
Qed.
Lemma reachable_elem oracle l x :
  x ∈ List.filter (reachable oracle) l <-> x ∈ l /\ reachable oracle x = true.
Proof. by rewrite !list_elem_of_In, filter_In. Qed.

(** The groups the selection runs over are the nonempty classes of candidates. *)
Lemma groups_elem l g :
  g ∈ (snd <$> map_to_list (group_by l))
  <-> exists k, g = List.filter (in_group k) l /\ g <> [].
Proof.
  rewrite list_elem_of_fmap. split.
  - intros ([k g'] & -> & Hin%elem_of_map_to_list). rewrite group_by_lookup in Hin. exists k.
    simpl. destruct (List.filter _ l); [done|]. by injection Hin as <-.
  - intros (k & -> & Hne). exists (k, List.filter (in_group k) l). split; [done|].
    apply elem_of_map_to_list. rewrite group_by_lookup. by destruct (List.filter _ l).
Qed.

Section Select.
Context (group_order : list (list Candidate) -> list (list Candidate)).
Context (Hperm : forall l, group_order l ≡ₚ l).

(** The winners of the groups. *)
Definition winners oracle l : list Candidate :=
  omap (max_by (prefer oracle)) (group_order (snd <$> map_to_list (group_by l))).

Lemma winners_elem oracle l x :
  x ∈ winners oracle l
  <-> max_by (prefer oracle) (List.filter (in_group (group_key x)) l) = Some x.
Proof.
  unfold winners. rewrite list_elem_of_omap. setoid_rewrite Hperm. setoid_rewrite groups_elem.
  split.
  - intros (g & (k & -> & Hne) & Hm). pose proof (max_by_in _ _ _ Hm) as Hin.
    apply in_group_elem in Hin as [_ ->]. done.
  - intros Hm. eexists. split; [|exact Hm]. eexists. split; [done|].
    intros E. by rewrite E in Hm.
Qed.

Lemma select_cases oracle candidates :
  let l := List.filter (reachable oracle) candidates in
  match select_best_with_oracle group_order candidates oracle with
  | None => l = []
  | Some x => max_by (prefer oracle) (winners oracle l) = Some x
  end.
Proof.
  unfold select_best_with_oracle.
  destruct (List.filter (reachable oracle) candidates) as [|y l] eqn:E; [done|].
  change (omap (max_by (prefer oracle)) (group_order (snd <$> map_to_list (group_by (y :: l)))))
    with (winners oracle (y :: l)). cbn zeta.
  destruct (max_by (prefer oracle) (winners oracle (y :: l))) eqn:Em; [done|]. exfalso.
  destruct (max_by_some (prefer oracle) (List.filter (in_group (group_key y)) (y :: l)))
    as [z Hz].
  { intros Hn. assert (Hy : y ∈ List.filter (in_group (group_key y)) (y :: l))
      by (apply in_group_elem; split; [left|done]). rewrite Hn in Hy. by apply not_elem_of_nil in Hy. }
  assert (Hk : group_key z = group_key y) by (by apply max_by_in, in_group_elem in Hz as [_ ?]).
  assert (Hw : z ∈ winners oracle (y :: l)) by (apply winners_elem; by rewrite Hk).
  destruct (winners oracle (y :: l)); [by apply not_elem_of_nil in Hw|done].
Qed.

(** *** The criteria before MED *)
Definition primary (x y : Candidate) : comparison :=
  then_cmp (stale_cmp (snd x) (snd y))
  (then_cmp (local_pref_cmp (snd x) (snd y))
  (then_cmp (path_len_cmp (snd x) (snd y)) (origin_cmp (snd x) (snd y)))).

Lemma primary_antisym x y : primary y x = CompOpp (primary x y).
Proof.
  assert (Hz : forall u v : Z, (u ?= v) = CompOpp (v ?= u)) by (intros; apply Z.compare_antisym).
  apply then_cmp_opp; [unfold stale_cmp; by destruct (stale (snd x)), (stale (snd y))|].
  apply then_cmp_opp; [apply Hz|]. apply then_cmp_opp; [apply Nat.compare_antisym|apply Hz].
Qed.
Lemma primary_trans x y z : cmp_trans primary x y z.
Proof.
  apply cmp_trans_lex.
  { unfold cmp_trans, stale_cmp. by destruct (stale (snd x)), (stale (snd y)), (stale (snd z)). }
  intros _ _. apply cmp_trans_lex.
  { apply (cmp_trans_key (fun a : Candidate => default LocalPref_DEFAULT (local_pref (snd a)))). }
  intros _ _. apply cmp_trans_lex.
  - unfold path_len_cmp. eapply cmp_trans_ext;
      [..|apply (cmp_trans_key_rev (fun a => Z.of_nat (Path.path_length (as_path (snd a)))))];
      apply Nat2Z.inj_compare.
  - intros _ _. apply (cmp_trans_key_rev (fun a => OriginOps.as_u8 (origin (snd a)))).
Qed.
Lemma prefer_primary oracle x y :
  match prefer oracle x y with Gt => primary x y <> Lt | _ => primary y x <> Lt end.
Proof.
  rewrite primary_antisym. destruct x as [pa a], y as [pb b].
  unfold prefer, primary. cbn [snd].
  destruct (stale_cmp a b); try done. destruct (local_pref_cmp a b); try done.
  destruct (path_len_cmp a b); try done. destruct (origin_cmp a b); try done.
  cbn [then_cmp]. by destruct (then_cmp _ _).
Qed.

Lemma select_primary oracle candidates x y :
  select_best_with_oracle group_order candidates oracle = Some x ->
  y ∈ candidates -> reachable oracle y = true -> primary x y <> Lt.
Proof.
  intros Hs Hy Hr. pose proof (select_cases oracle candidates) as Hc. rewrite Hs in Hc.
  set (l := List.filter (reachable oracle) candidates) in *. cbn zeta in Hc.
  assert (Hl : y ∈ l) by (by apply reachable_elem).
  assert (Hrefl : forall a, primary a a = Eq)
    by (intros a; pose proof (primary_antisym a a); by destruct (primary a a)).
  destruct (max_by_some (prefer oracle) (List.filter (in_group (group_key y)) l)) as [w Hw].
  { intros Hn. assert (Hg : y ∈ List.filter (in_group (group_key y)) l) by (by apply in_group_elem).
    rewrite Hn in Hg. by apply not_elem_of_nil in Hg. }
  assert (Hwy : primary w y <> Lt).
  { eapply max_by_ge; [done|apply prefer_primary| |exact Hw|by apply in_group_elem].
    intros; apply primary_trans. }
  assert (Hww : w ∈ winners oracle l).
  { pose proof (max_by_in _ _ _ Hw) as [_ Ek]%in_group_elem. apply winners_elem. by rewrite Ek. }
  assert (Hxw : primary x w <> Lt).
  { eapply max_by_ge; [done|apply prefer_primary| |exact Hc|done]. intros; apply primary_trans. }
  by apply (primary_trans x w y).
Qed.

Lemma select_sound oracle candidates x :
  select_best_with_oracle group_order candidates oracle = Some x ->
  x ∈ candidates /\ reachable oracle x = true.
Proof.
  intros Hs. pose proof (select_cases oracle candidates) as Hc. rewrite Hs in Hc.
  apply max_by_in, winners_elem, max_by_in, in_group_elem in Hc as [Hc _].
  by apply reachable_elem.
Qed.

Lemma select_none oracle candidates :
  select_best_with_oracle group_order candidates oracle = None
  <-> forall x, x ∈ candidates -> reachable oracle x = false.
Proof.
  pose proof (select_cases oracle candidates) as Hc. split.
  - intros Hs. rewrite Hs in Hc. intros x Hx. apply not_true_iff_false. intros Hr.
    assert (Hin : x ∈ List.filter (reachable oracle) candidates) by (by apply reachable_elem).
    rewrite Hc in Hin. by apply not_elem_of_nil in Hin.
  - intros Hn. destruct (select_best_with_oracle _ _ _) as [x|] eqn:Hs; [|done].
    destruct (select_sound _ _ _ Hs) as [Hx Hr]. rewrite Hn in Hr by done. done.
Qed.

(** *** The full decision, where the optional criteria are known alike *)
Lemma prefer_refl oracle x : prefer oracle x x = Eq.
Proof. pose proof (prefer_antisym oracle x x). by destruct (prefer oracle x x). Qed.

Lemma cmp_trans_repeat {A} (c : A -> A -> comparison) x y z :
  (forall a b, c b a = CompOpp (c a b)) -> x = y \/ y = z \/ x = z -> cmp_trans c x y z.
Proof.
  intros Ha. assert (Hr : forall a, c a a = Eq)
    by (intros a; specialize (Ha a a); by destruct (c a a)).
  intros [->|[->| ->]] H1 H2; rewrite ?Hr; [done|done|].
  specialize (Ha z y). destruct (c z y); naive_solver.
Qed.

Context (oracle : NextHopOracle) (l : list Candidate).
Context (Hnd : NoDup l.*1) (Hcomp : comparable oracle l).

Lemma same_peer x y : x ∈ l -> y ∈ l -> fst x = fst y -> x = y.
Proof.
  intros Hx Hy E. destruct x as [p a], y as [q b]; simpl in E; subst q. f_equal.
  eapply NoDup_fmap_1 in Hnd as Hnd'.
  apply list_elem_of_lookup in Hx as [i Hi], Hy as [j Hj].
  assert (i = j) as ->; [|congruence].
  eapply NoDup_lookup; [exact Hnd|by rewrite list_lookup_fmap, Hi|by rewrite list_lookup_fmap, Hj].
Qed.

Lemma strict_of_ge x y : x ∈ l -> y ∈ l -> y <> x -> prefer oracle x y <> Lt ->
  prefer oracle x y = Gt.
Proof.
  intros Hx Hy Hne Hge. destruct (prefer oracle x y) eqn:E; [|done|done].
  apply prefer_eq in E. by destruct Hne; apply same_peer.
Qed.
Lemma strict_asym x y : prefer oracle x y = Gt -> prefer oracle y x = Gt -> False.
Proof. intros E. by rewrite prefer_antisym, E. Qed.

Lemma group_best_unique x y : group_best oracle l x -> group_best oracle l y ->
  group_key x = group_key y -> x = y.
Proof.
  intros [Hx Bx] [Hy By] E. destruct (decide (x = y)) as [|Hne]; [done|].
  destruct (strict_asym x y); [by apply Bx|by apply By].
Qed.

Lemma winners_group_best x : x ∈ winners oracle l <-> group_best oracle l x.
Proof.
  rewrite winners_elem.
  assert (Hsound : forall x, max_by (prefer oracle) (List.filter (in_group (group_key x)) l) = Some x ->
    group_best oracle l x).
  { clear x. intros x Hm. pose proof (max_by_in _ _ _ Hm) as [Hx _]%in_group_elem. split; [done|].
    intros y Hy Hk Hne. apply strict_of_ge; [done|done|done|].
    eapply (max_by_ge (prefer oracle) (prefer oracle)); [apply prefer_refl| | |exact Hm|].
    - intros a b. rewrite (prefer_antisym oracle a b). by destruct (prefer oracle a b).
    - intros a b c [Ha Ka]%in_group_elem [Hb Kb]%in_group_elem [Hc Kc]%in_group_elem.
      apply (prefer_trans oracle l); [done..|]. left. split; congruence.
    - by apply in_group_elem. }
  split; [apply Hsound|]. intros Hb. pose proof Hb as [Hx _].
  destruct (max_by_some (prefer oracle) (List.filter (in_group (group_key x)) l)) as [w Hw].
  { intros Hn. assert (Hg : x ∈ List.filter (in_group (group_key x)) l) by (by apply in_group_elem).
    rewrite Hn in Hg. by apply not_elem_of_nil in Hg. }
  rewrite Hw. f_equal. assert (Hk : group_key w = group_key x)
    by (by apply max_by_in, in_group_elem in Hw as [_ ?]).
  apply group_best_unique; [|done|done]. apply Hsound. by rewrite Hk.
Qed.
End Select.

Lemma select_prefer_winner group_order oracle candidates :
  (forall l, group_order l ≡ₚ l) -> NoDup candidates.*1 -> comparable oracle candidates ->
  forall x, select_best_with_oracle group_order candidates oracle = Some x
    <-> prefer_winner oracle candidates x.
Proof.
  intros Hp Hnd0 Hc0 x. set (l := List.filter (reachable oracle) candidates).
  assert (Hnd : NoDup l.*1) by (by apply NoDup_fst_filter).
  assert (Hc : comparable oracle l).
  { intros a b [Ha _]%reachable_elem [Hb _]%reachable_elem. by apply Hc0. }
  pose proof (select_cases group_order Hp oracle candidates) as Hs. fold l in Hs. cbn zeta in Hs.
  assert (Hw : forall m, max_by (prefer oracle) (winners group_order oracle l) = Some m ->
    prefer_winner oracle candidates m).
  { intros m Hm. unfold prefer_winner. fold l. cbn zeta.
    assert (Hbm : group_best oracle l m)
      by (eapply (winners_group_best group_order Hp oracle l Hnd Hc), max_by_in; done).
    split; [done|]. intros y Hby Hne. apply (strict_of_ge oracle l); [done|apply Hbm|apply Hby|done|].
    eapply (max_by_ge (prefer oracle) (prefer oracle)); [apply prefer_refl| | |exact Hm|].
    - intros a b. rewrite (prefer_antisym oracle a b). by destruct (prefer oracle a b).
    - intros a b c Ha Hb Hcc.
      apply (winners_group_best group_order Hp oracle l Hnd Hc) in Ha, Hb, Hcc.
      destruct (decide (a = b \/ b = c \/ a = c)) as [Hr|Hr].
      + apply cmp_trans_repeat; [apply prefer_antisym|done].
      + apply (prefer_trans oracle l); [done|apply Ha|apply Hb|apply Hcc|]. right.
        split_and!; intros E; apply Hr;
          [left|right; left|right; right]; by apply (group_best_unique oracle l).
    - by apply (winners_group_best group_order Hp oracle l Hnd Hc). }
  split.
  - intros E. rewrite E in Hs. by apply Hw.
  - intros [Hbx Hx]. fold l in Hbx, Hx. destruct (select_best_with_oracle _ _ _) as [m|].
    + destruct (decide (x = m)) as [->|Hne]; [done|]. exfalso.
      destruct (Hw m Hs) as [Hbm Hm]. fold l in Hbm, Hm.
      apply (strict_asym oracle x m); [by apply Hx|by apply Hm].
    + destruct Hbx as [Hin _]. rewrite Hs in Hin. by apply not_elem_of_nil in Hin.
Qed.
Lemma group_best_rfc4271 oracle candidates x :
  group_best oracle (List.filter (reachable oracle) candidates) x <-> best_of_neighbor oracle candidates x.
Proof.
  unfold group_best, best_of_neighbor, group_key. rewrite reachable_elem, reachable_resolvable, !neighbor_neighboring.
  setoid_rewrite reachable_elem. setoid_rewrite reachable_resolvable. setoid_rewrite neighbor_neighboring.
  setoid_rewrite prefer_rfc4271. naive_solver.
Qed.
Lemma prefer_winner_rfc4271 oracle candidates x : prefer_winner oracle candidates x <-> rfc4271_winner oracle candidates x.
Proof.
  unfold prefer_winner, rfc4271_winner. cbn zeta. setoid_rewrite group_best_rfc4271. setoid_rewrite prefer_rfc4271. done.
Qed.
Lemma select_winner group_order oracle candidates :
  (forall l, group_order l ≡ₚ l) -> NoDup candidates.*1 -> comparable oracle candidates ->
  forall x, select_best_with_oracle group_order candidates oracle = Some x
    <-> rfc4271_winner oracle candidates x.
Proof. intros Hp Hnd Hc x. rewrite <- prefer_winner_rfc4271. by apply select_prefer_winner. Qed.
End BestPath.
