(* ===== verification/LocRib.v ===== *)
(** The local RIB ([pathvector-rib/src/loc_rib.rs]): candidates per prefix and
    peer, the reverse index, and the table of winning peers.

    The hash maps are [gmap]s; where the code iterates over one, the order is
    that of [hash_order], an arbitrary permutation.  [self.candidates[&key]]
    panics on a missing key. *)
From Stdlib Require Import ZArith Lia Bool.
From stdpp Require Import base tactics numbers decidable gmap list.
From S2P Require Import Prelude Addr Types AsPath RouteMap Policy Route BestPath.
Open Scope Z_scope.

(** The iteration order of a hash map, given its entries in some order. *)
Class HashOrder := hash_order : forall {A : Type}, list A -> list A.
Class HashOrderLaw `{HashOrder} : Prop :=
  hash_order_perm : forall A (l : list A), hash_order l ≡ₚ l.
(** An order for witnesses: insertion order reversed. *)
Module ModelHashOrder.
#[export] Instance order : HashOrder := fun A l => rev l.
#[export] Instance order_law : HashOrderLaw.
Proof. intros A l. symmetry. apply Permutation_rev. Qed.
End ModelHashOrder.

Section LocRib.
Context `{P : IpPrefixOps} {M : RouteMapOps} {HO : HashOrder} {f : Family}.

Inductive BestPathChange :=
| Announced (n : Nlri f) (r : Route f)
| Withdrawn (n : Nlri f)
| Unchanged.

Record LocRib := mkLocRib {
  candidates : gmap (Nlri f * PeerId) (Route f);
  peer_index : gmap (Nlri f) (list PeerId);
  best_map : RouteMap f PeerId;
}.

Definition loc_rib_new : LocRib := mkLocRib ∅ ∅ rm_new.

(** [self.best.get(nlri.prefix()).copied()], which is also [LocRib::best_peer] *)
Definition best_peer (lr : LocRib) (n : Nlri f) : option PeerId :=
  rm_get (best_map lr) (nlri_prefix n).
Definition best (lr : LocRib) (n : Nlri f) : option (Route f) :=
  peer ← best_peer lr n; candidates lr !! (n, peer).

(** The entries of [peer_map] in [recompute_best] *)
Definition cand_list (lr : LocRib) (n : Nlri f) : list (PeerId * Route f) :=
  omap (fun p => (fun r => (p, r)) <$> candidates lr !! (n, p)) (default [] (peer_index lr !! n)).
Definition set_best (lr : LocRib) (b : RouteMap f PeerId) : LocRib :=
  mkLocRib (candidates lr) (peer_index lr) b.
Definition recompute_best (lr : LocRib) (n : Nlri f) (oracle : NextHopOracle) : LocRib :=
  match select_best_with_oracle hash_order (hash_order (cand_list lr n)) oracle with
  | Some (peer, _) => set_best lr (rm_insert (best_map lr) (nlri_prefix n) peer)
  | None => set_best lr (rm_remove (best_map lr) (nlri_prefix n))
  end.

(** [BestPathChange::Announced(nlri, self.candidates[&(nlri, peer)].clone())] *)
Definition announced (lr : LocRib) (n : Nlri f) (peer : PeerId) : Outcome False BestPathChange :=
  match candidates lr !! (n, peer) with Some r => Ok (Announced n r) | None => Panic end.

Definition loc_rib_insert (lr : LocRib) (peer : PeerId) (route : Route f) (oracle : NextHopOracle)
    : Outcome False (LocRib * BestPathChange) :=
  let n := nlri route in
  let old_best_peer := best_peer lr n in
  let peers := default [] (peer_index lr !! n) in
  let peers := if bool_decide (peer ∈ peers) then peers else peers ++ [peer] in
  let lr := mkLocRib (<[(n, peer) := route]> (candidates lr)) (<[n := peers]> (peer_index lr))
              (best_map lr) in
  let lr := recompute_best lr n oracle in
  match best_peer lr n with
  | None => Ok (lr, Unchanged)
  | Some new_peer =>
      ann ← announced lr n new_peer;
      match old_best_peer with
      | Some old_peer =>
          if decide (old_peer = new_peer) then
            if decide (peer = new_peer) then Ok (lr, ann) else Ok (lr, Unchanged)
          else Ok (lr, ann)
      | None => Ok (lr, ann)
      end
  end.

Definition loc_rib_withdraw (lr : LocRib) (peer : PeerId) (n : Nlri f) (oracle : NextHopOracle)
    : Outcome False (LocRib * BestPathChange) :=
  let had_best := best_peer lr n in
  match candidates lr !! (n, peer) with
  | None => Ok (lr, Unchanged)
  | Some _ =>
      let cands := delete (n, peer) (candidates lr) in
      let peers := (fun ps => List.filter (fun p => negb (bool_decide (p = peer))) ps)
                     <$> (peer_index lr !! n) in
      match peers with
      | None | Some [] =>
          let lr := mkLocRib cands (delete n (peer_index lr))
                      (rm_remove (best_map lr) (nlri_prefix n)) in
          Ok (lr, match had_best with Some _ => Withdrawn n | None => Unchanged end)
      | Some peers =>
          let lr := mkLocRib cands (<[n := peers]> (peer_index lr)) (best_map lr) in
          let old_best_peer := best_peer lr n in
          let lr := recompute_best lr n oracle in
          match best_peer lr n with
          | None => Ok (lr, Withdrawn n)
          | Some new_peer =>
              if decide (old_best_peer = Some new_peer /\ old_best_peer <> Some peer)
              then Ok (lr, Unchanged)
              else ann ← announced lr n new_peer; Ok (lr, ann)
          end
      end
  end.

(** [affected.into_iter().map(|n| self.withdraw(..)).collect()] *)
Fixpoint withdraw_all (lr : LocRib) (peer : PeerId) (affected : list (Nlri f))
    (oracle : NextHopOracle) : Outcome False (LocRib * list BestPathChange) :=
  match affected with
  | [] => Ok (lr, [])
  | n :: ns =>
      '(lr, c) ← loc_rib_withdraw lr peer n oracle;
      '(lr, cs) ← withdraw_all lr peer ns oracle;
      Ok (lr, c :: cs)
  end.
Definition affected (lr : LocRib) (peer : PeerId) : list (Nlri f) :=
  fst <$> List.filter (fun x : Nlri f * list PeerId => bool_decide (peer ∈ snd x))
            (hash_order (map_to_list (peer_index lr))).
Definition withdraw_peer (lr : LocRib) (peer : PeerId) (oracle : NextHopOracle)
    : Outcome False (LocRib * list BestPathChange) :=
  withdraw_all lr peer (affected lr peer) oracle.

Definition best_routes (lr : LocRib) : list (Nlri f * Route f) :=
  omap (fun '(prefix, peer) =>
    let n := from_prefix prefix in (fun r => (n, r)) <$> candidates lr !! (n, peer))
    (rm_iter (best_map lr)).
Definition longest_match (lr : LocRib) (addr : Z) : option (Route f) :=
  '(prefix, peer) ← rm_longest_match_entry (best_map lr) addr;
  candidates lr !! (from_prefix prefix, peer).
(** [LocRib::candidates]: the map as its entries *)
Definition candidates_of (lr : LocRib) (n : Nlri f) : option (list (PeerId * Route f)) :=
  match peer_index lr !! n with
  | None => None
  | Some _ => match cand_list lr n with [] => None | routes => Some routes end
  end.
Definition loc_rib_len (lr : LocRib) : nat := size (peer_index lr).
Definition loc_rib_is_empty (lr : LocRib) : bool := bool_decide (peer_index lr = ∅).

Fixpoint recompute_each (lr : LocRib) (nlris : list (Nlri f)) (oracle : NextHopOracle)
    : Outcome False (LocRib * list BestPathChange) :=
  match nlris with
  | [] => Ok (lr, [])
  | n :: ns =>
      let old_peer := best_peer lr n in
      let lr := recompute_best lr n oracle in
      let new_peer := best_peer lr n in
      c ← match old_peer, new_peer with
          | None, None => Ok None
          | Some _, None => Ok (Some (Withdrawn n))
          | Some op, Some np =>
              if decide (op = np) then Ok None else ann ← announced lr n np; Ok (Some ann)
          | None, Some np => ann ← announced lr n np; Ok (Some ann)
          end;
      '(lr, cs) ← recompute_each lr ns oracle;
      Ok (lr, match c with Some c => c :: cs | None => cs end)
  end.
Definition recompute_all (lr : LocRib) (oracle : NextHopOracle)
    : Outcome False (LocRib * list BestPathChange) :=
  recompute_each lr (hash_order (map_to_list (peer_index lr)).*1) oracle.

(** ** Invariants *)

(** The structure of the tables, whatever oracle they were computed with. *)
Record rib_ok (lr : LocRib) : Prop := {
  ok_index : forall n p,
    (exists ps, peer_index lr !! n = Some ps /\ p ∈ ps) <-> is_Some (candidates lr !! (n, p));
  ok_peers : forall n ps, peer_index lr !! n = Some ps -> ps <> [] /\ NoDup ps;
  ok_nlri : forall n p r, candidates lr !! (n, p) = Some r -> nlri r = n;
  ok_canonical : forall n ps, peer_index lr !! n = Some ps -> canonical n;
  ok_best : forall n p, canonical n -> best_peer lr n = Some p -> is_Some (candidates lr !! (n, p));
}.

(** What the decision process guarantees of the peer it selects. *)
Definition selected (oracle : NextHopOracle) (l : list (PeerId * Route f)) (o : option PeerId)
    : Prop :=
  match o with
  | None => forall x, x ∈ l -> reachable oracle x = false
  | Some p => exists r, (p, r) ∈ l /\ reachable oracle (p, r) = true
      /\ (forall y, y ∈ l -> reachable oracle y = true -> primary (p, r) y <> Lt)
      /\ (comparable oracle l -> rfc4271_winner oracle l (p, r))
  end.
(** The best table is what the decision process selects with [oracle]. *)
Definition up_to_date (oracle : NextHopOracle) (lr : LocRib) (n : Nlri f) : Prop :=
  selected oracle (cand_list lr n) (best_peer lr n).


(** ** Facts *)
Context {L : IpPrefixLaws} {ML : RouteMapLaws} {HL : HashOrderLaw}.

Lemma canonical_prefix (n m : Nlri f) : canonical n -> canonical m ->
  prefix_masked (nlri_prefix n) = prefix_masked (nlri_prefix m) <-> n = m.
Proof.
  unfold canonical, nlri_masked. destruct n as [p], m as [q]; simpl.
  intros [= E1] [= E2]. rewrite E1, E2. split; [by intros ->|by intros [= ->]].
Qed.

Lemma best_peer_insert lr (n m : Nlri f) p : canonical n -> canonical m ->
  best_peer (set_best lr (rm_insert (best_map lr) (nlri_prefix n) p)) m
  = if decide (n = m) then Some p else best_peer lr m.
Proof.
  intros Hn Hm. unfold best_peer. simpl. rewrite rm_get_insert.
  destruct (decide (n = m)) as [->|Hne]; [by rewrite decide_True|].
  rewrite decide_False; [done|]. by rewrite canonical_prefix.
Qed.
Lemma best_peer_remove b (n m : Nlri f) : canonical n -> canonical m ->
  rm_get (V:=PeerId) (rm_remove b (nlri_prefix n)) (nlri_prefix m)
  = if decide (n = m) then None else rm_get b (nlri_prefix m).
Proof.
  intros Hn Hm. rewrite rm_get_remove.
  destruct (decide (n = m)) as [->|Hne]; [by rewrite decide_True|].
  rewrite decide_False; [done|]. by rewrite canonical_prefix.
Qed.

(** The candidates of a prefix, as the index lists them. *)
Lemma cand_list_elem lr n p r : rib_ok lr ->
  (p, r) ∈ cand_list lr n <-> candidates lr !! (n, p) = Some r.
Proof.
  intros Hok. unfold cand_list. rewrite list_elem_of_omap. split.
  - intros (q & _ & Hq). destruct (candidates lr !! (n, q)) eqn:E; [|done].
    by injection Hq as <- <-.
  - intros E. destruct (proj2 (ok_index lr Hok n p) ltac:(by eexists)) as (ps & Hps & Hin).
    exists p. rewrite Hps. split; [done|]. by rewrite E.
Qed.
Lemma cand_list_nodup lr n : rib_ok lr -> NoDup (cand_list lr n).*1.
Proof.
  intros Hok. unfold cand_list. destruct (peer_index lr !! n) as [ps|] eqn:E; [|constructor].
  destruct (ok_peers lr Hok n ps E) as [_ Hnd]. simpl. clear E.
  induction Hnd as [|p ps Hp Hnd IH]; simpl; [constructor|].
  destruct (candidates lr !! (n, p)) as [r|]; simpl; [|done]. constructor; [|done].
  intros ([q r'] & -> & Hin)%list_elem_of_fmap. apply list_elem_of_omap in Hin as (p' & Hp' & Hq).
  destruct (candidates lr !! (n, p')); [|done]. by injection Hq as <- <-.
Qed.
Lemma cand_list_same lr lr' n : rib_ok lr -> rib_ok lr' ->
  (forall p, candidates lr' !! (n, p) = candidates lr !! (n, p)) ->
  forall x, x ∈ cand_list lr' n <-> x ∈ cand_list lr n.
Proof. intros H H' E [p r]. by rewrite !cand_list_elem, E. Qed.

Lemma comparable_same oracle (l l' : list (PeerId * Route f)) :
  (forall x, x ∈ l' <-> x ∈ l) -> comparable oracle l -> comparable oracle l'.
Proof. intros E H x y. rewrite !E. apply H. Qed.
Lemma winner_same oracle (l l' : list (PeerId * Route f)) x :
  (forall x, x ∈ l' <-> x ∈ l) -> rfc4271_winner oracle l x -> rfc4271_winner oracle l' x.
Proof.
  intros E. assert (Eb : forall x, best_of_neighbor oracle l' x <-> best_of_neighbor oracle l x)
    by (intros y; unfold best_of_neighbor; rewrite E; by setoid_rewrite E).
  intros [H1 H2]. split; [by apply Eb|]. intros y Hy. by apply H2, Eb.
Qed.
Lemma selected_same oracle l l' o : (forall x, x ∈ l' <-> x ∈ l) ->
  selected oracle l o -> selected oracle l' o.
Proof.
  intros E. destruct o as [p|]; simpl; [|by setoid_rewrite E].
  intros (r & H1 & H2 & H3 & H4). exists r. rewrite E. split_and!; try done.
  - intros y Hy. apply H3. by apply E.
  - intros Hc. apply (winner_same oracle l); [done|]. apply H4.
    apply (comparable_same oracle l'); [|done]. intros z. by rewrite E.
Qed.

Lemma select_selected oracle l : NoDup l.*1 ->
  selected oracle l (fst <$> select_best_with_oracle hash_order (hash_order l) oracle).
Proof.
  intros Hnd. assert (E : forall x, x ∈ l <-> x ∈ hash_order l)
    by (intros x; by rewrite (hash_order_perm _ l)).
  apply (selected_same oracle (hash_order l)); [done|].
  assert (Hp : forall g, hash_order (A:=list (PeerId * Route f)) g ≡ₚ g)
    by (intros; apply hash_order_perm).
  destruct (select_best_with_oracle _ _ _) as [[p r]|] eqn:Es; simpl.
  - exists r. destruct (select_sound _ Hp _ _ _ Es) as [H1 H2]. split_and!; try done.
    + intros y. by apply (select_primary _ Hp).
    + intros Hc. apply (select_winner hash_order); [done| |done|done].
      by rewrite (hash_order_perm _ l).
  - by apply (select_none _ Hp).
Qed.

(** [recompute_best] at a canonical prefix *)
Lemma recompute_tables lr n oracle :
  candidates (recompute_best lr n oracle) = candidates lr
  /\ peer_index (recompute_best lr n oracle) = peer_index lr.
Proof. unfold recompute_best. by destruct (select_best_with_oracle _ _ _) as [[]|]. Qed.
Lemma recompute_best_peer lr n m oracle : canonical n -> canonical m ->
  best_peer (recompute_best lr n oracle) m
  = if decide (n = m)
    then fst <$> select_best_with_oracle hash_order (hash_order (cand_list lr n)) oracle
    else best_peer lr m.
Proof.
  intros Hn Hm. unfold recompute_best. destruct (select_best_with_oracle _ _ _) as [[p r]|].
  - by rewrite best_peer_insert.
  - unfold best_peer. simpl. by rewrite best_peer_remove.
Qed.

(** The tables but for the winner of one prefix, which is to be recomputed. *)
Record rib_ok_but (n : Nlri f) (lr : LocRib) : Prop := {
  okb_index : forall m p,
    (exists ps, peer_index lr !! m = Some ps /\ p ∈ ps) <-> is_Some (candidates lr !! (m, p));
  okb_peers : forall m ps, peer_index lr !! m = Some ps -> ps <> [] /\ NoDup ps;
  okb_nlri : forall m p r, candidates lr !! (m, p) = Some r -> nlri r = m;
  okb_canonical : forall m ps, peer_index lr !! m = Some ps -> canonical m;
  okb_best : forall m p, canonical m -> m <> n -> best_peer lr m = Some p ->
    is_Some (candidates lr !! (m, p));
}.
Lemma rib_ok_weaken n lr : rib_ok lr -> rib_ok_but n lr.
Proof. intros []. split; eauto. Qed.

Lemma recompute_ok lr n oracle : canonical n -> rib_ok_but n lr ->
  rib_ok (recompute_best lr n oracle)
  /\ up_to_date oracle (recompute_best lr n oracle) n
  /\ (forall m, canonical m -> m <> n ->
        best_peer (recompute_best lr n oracle) m = best_peer lr m).
Proof.
  intros Hn [H1 H2 H3 H4 H5]. destruct (recompute_tables lr n oracle) as [Ec Ei].
  set (bare := mkLocRib (candidates lr) (peer_index lr) rm_new).
  assert (Hbare : rib_ok bare).
  { split; try done. intros m p _. unfold best_peer. simpl. by rewrite rm_get_new. }
  assert (Hsel : selected oracle (cand_list lr n)
    (fst <$> select_best_with_oracle hash_order (hash_order (cand_list lr n)) oracle))
    by (apply select_selected, (cand_list_nodup bare n Hbare)).
  assert (Hother : forall m, canonical m -> m <> n ->
    best_peer (recompute_best lr n oracle) m = best_peer lr m).
  { intros m Hm Hne. rewrite recompute_best_peer by done. by rewrite decide_False. }
  split_and!; [|unfold up_to_date, cand_list|done].
  - split; rewrite ?Ec, ?Ei; try done. intros m p Hm Hb.
    rewrite recompute_best_peer in Hb by done. destruct (decide (n = m)) as [<-|]; [|eauto].
    rewrite Hb in Hsel. destruct Hsel as (r & Hin & _).
    apply (cand_list_elem bare n p r Hbare) in Hin. by eexists.
  - rewrite Ec, Ei, recompute_best_peer by done. by rewrite decide_True.
Qed.

Lemma announced_ok lr n p : rib_ok lr -> canonical n -> best_peer lr n = Some p ->
  exists r, announced lr n p = Ok (Announced n r) /\ best lr n = Some r.
Proof.
  intros Hok Hn Hb. destruct (ok_best lr Hok n p Hn Hb) as [r Hr].
  exists r. unfold announced, best. by rewrite Hb, Hr.
Qed.

(** What a reported change says about the best route of its prefix. *)
Definition change_ok (n : Nlri f) (before after : option (Route f)) (c : BestPathChange) : Prop :=
  match c with
  | Announced m r => m = n /\ after = Some r
  | Withdrawn m => m = n /\ after = None
  | Unchanged => after = before
  end.

(** *** insert *)
Lemma insert_but lr peer route ps :
  rib_ok lr -> canonical (nlri route) ->
  ps = default [] (peer_index lr !! nlri route) ->
  rib_ok_but (nlri route) (mkLocRib (<[(nlri route, peer) := route]> (candidates lr))
    (<[nlri route := if bool_decide (peer ∈ ps) then ps else ps ++ [peer]]> (peer_index lr))
    (best_map lr)).
Proof.
  intros [H1 H2 H3 H4 H5] Hc ->. set (n := nlri route) in *.
  set (ps := default [] (peer_index lr !! n)).
  set (ps' := if bool_decide (peer ∈ ps) then ps else ps ++ [peer]).
  assert (Hps : forall p, p ∈ ps' <-> p = peer \/ p ∈ ps).
  { intros p. unfold ps'. case_bool_decide; [naive_solver|].
    rewrite elem_of_app, list_elem_of_singleton. tauto. }
  assert (Hcand : forall p, p ∈ ps <-> is_Some (candidates lr !! (n, p))).
  { intros p. rewrite <- H1. unfold ps. destruct (peer_index lr !! n); simpl; [naive_solver|].
    split; [by intros ?%not_elem_of_nil|]. by intros (? & ? & _). }
  split; cbn [candidates peer_index].
  - intros m p. rewrite !lookup_insert. destruct (decide (n = m)) as [<-|Hne].
    + destruct (decide (peer = p)) as [<-|].
      * rewrite decide_True by done. split; [by eexists|].
        intros _. eexists. split; [done|]. apply Hps. by left.
      * rewrite decide_False by congruence. rewrite <- Hcand. split; [|naive_solver].
        intros (? & [= <-] & [->|?]%Hps); [done|done].
    + rewrite decide_False by congruence. apply H1.
  - intros m qs. rewrite lookup_insert. destruct (decide (n = m)) as [<-|]; [|apply H2].
    intros [= <-]. split.
    + intros E. apply (not_elem_of_nil peer). rewrite <- E. apply Hps. by left.
    + unfold ps'. assert (Hnd : NoDup ps).
      { unfold ps. destruct (peer_index lr !! n) eqn:E; [by apply (H2 n)|constructor]. }
      case_bool_decide; [done|]. apply NoDup_app. split_and!; [done| |apply NoDup_singleton].
      intros x Hx ->%list_elem_of_singleton. done.
  - intros m p r. rewrite lookup_insert. destruct (decide _) as [[= <- <-]|]; [|apply H3].
    by intros [= <-].
  - intros m qs. rewrite lookup_insert. destruct (decide (n = m)) as [<-|]; [done|apply H4].
  - intros m p Hm Hne Hb. rewrite lookup_insert_ne by congruence. by apply H5.
Qed.

Lemma insert_spec lr peer route oracle : rib_ok lr -> canonical (nlri route) ->
  exists lr' c, loc_rib_insert lr peer route oracle = Ok (lr', c)
    /\ rib_ok lr'
    /\ candidates lr' = <[(nlri route, peer) := route]> (candidates lr)
    /\ up_to_date oracle lr' (nlri route)
    /\ (forall m, canonical m -> m <> nlri route -> best_peer lr' m = best_peer lr m)
    /\ match best lr' (nlri route) with
       | None => c = Unchanged
       | Some _ => change_ok (nlri route) (best lr (nlri route)) (best lr' (nlri route)) c
       end.
Proof.
  intros Hok Hc. set (n := nlri route).
  pose proof (insert_but lr peer route _ Hok Hc eq_refl) as Hb. fold n in Hb.
  unfold loc_rib_insert. fold n. cbv zeta. set (lr1 := mkLocRib _ _ _) in *.
  destruct (recompute_ok lr1 n oracle Hc Hb) as (Hok' & Hup & Hoth).
  destruct (recompute_tables lr1 n oracle) as [Ec _].
  set (lr' := recompute_best lr1 n oracle) in *.
  assert (Hfin : forall c, (match best lr' n with None => c = Unchanged
      | Some _ => change_ok n (best lr n) (best lr' n) c end) ->
    exists lr'' c', Ok (E:=False) (lr', c) = Ok (lr'', c') /\ rib_ok lr''
    /\ candidates lr'' = <[(n, peer) := route]> (candidates lr)
    /\ up_to_date oracle lr'' n
    /\ (forall m, canonical m -> m <> n -> best_peer lr'' m = best_peer lr m)
    /\ match best lr'' n with None => c' = Unchanged
       | Some _ => change_ok n (best lr n) (best lr'' n) c' end).
  { intros c Hch. by exists lr', c. }
  destruct (best_peer lr' n) as [np|] eqn:Enp.
  2:{ apply Hfin. unfold best. by rewrite Enp. }
  destruct (announced_ok lr' n np Hok' Hc Enp) as (r & Ean & Ebr). rewrite Ean.
  cbn [mbind outcome_bind].
  destruct (best_peer lr n) as [op|] eqn:Eop; [|apply Hfin; by rewrite Ebr].
  destruct (decide (op = np)) as [->|]; [|apply Hfin; by rewrite Ebr].
  destruct (decide (peer = np)) as [->|Hne]; [apply Hfin; by rewrite Ebr|].
  apply Hfin. rewrite Ebr. simpl. rewrite <- Ebr. unfold best. rewrite Enp, Eop. simpl.
  rewrite Ec. cbn [candidates lr1]. by rewrite lookup_insert_ne by congruence.
Qed.

Lemma insert_reachable lr peer route oracle lr' c : rib_ok lr -> canonical (nlri route) ->
  loc_rib_insert lr peer route oracle = Ok (lr', c) -> reachable oracle (peer, route) = true ->
  best lr' (nlri route) <> None.
Proof.
  intros Hok Hc Hi Hr.
  destruct (insert_spec lr peer route oracle Hok Hc) as (lr2 & c2 & E & Hok' & Ec & Hup & _).
  rewrite Hi in E. injection E as <- <-. unfold up_to_date, selected in Hup. unfold best.
  destruct (best_peer lr' (nlri route)) as [p|] eqn:Eb; simpl.
  - destruct (ok_best lr' Hok' _ p Hc Eb) as [r ->]. done.
  - rewrite (Hup (peer, route)) in Hr; [done|]. apply cand_list_elem; [done|].
    rewrite Ec. apply lookup_insert_eq.
Qed.

(** *** withdraw *)
Lemma withdraw_candidates lr peer n ps : rib_ok lr -> peer_index lr !! n = Some ps ->
  forall p, p ∈ List.filter (fun p => negb (bool_decide (p = peer))) ps
    <-> is_Some (delete (n, peer) (candidates lr) !! (n, p)).
Proof.
  intros Hok Hps p. rewrite list_elem_of_In, filter_In, <- list_elem_of_In, negb_true_iff,
    bool_decide_eq_false.
  rewrite lookup_delete. destruct (decide ((n, peer) = (n, p))) as [[= ->]|Hne].
  - split; [tauto|]. by intros [? ?].
  - rewrite <- (ok_index lr Hok). rewrite Hps. split; [naive_solver|].
    intros (? & [= <-] & ?). split; [done|congruence].
Qed.

Lemma withdraw_last lr peer n ps : rib_ok lr -> canonical n -> peer_index lr !! n = Some ps ->
  List.filter (fun p => negb (bool_decide (p = peer))) ps = [] ->
  rib_ok (mkLocRib (delete (n, peer) (candidates lr)) (delete n (peer_index lr))
            (rm_remove (best_map lr) (nlri_prefix n))).
Proof.
  intros Hok Hn Hps Hf. pose proof (withdraw_candidates lr peer n ps Hok Hps) as Hc.
  destruct Hok as [H1 H2 H3 H4 H5]. split; cbn [candidates peer_index].
  - intros m p. destruct (decide (n = m)) as [<-|Hne].
    + rewrite <- Hc, Hf, lookup_delete_eq. split; [by intros (? & ? & _)|by intros ?%not_elem_of_nil].
    + rewrite !lookup_delete_ne by congruence. apply H1.
  - intros m qs. rewrite lookup_delete. destruct (decide (n = m)); [done|apply H2].
  - intros m p r. rewrite lookup_delete. destruct (decide _); [done|apply H3].
  - intros m qs. rewrite lookup_delete. destruct (decide (n = m)); [done|apply H4].
  - intros m p Hm. unfold best_peer. cbn [best_map]. rewrite best_peer_remove by done.
    destruct (decide (n = m)); [done|]. intros Hb. rewrite lookup_delete_ne by congruence.
    by apply H5.
Qed.

Lemma withdraw_but lr peer n ps q qs : rib_ok lr -> canonical n -> peer_index lr !! n = Some ps ->
  List.filter (fun p => negb (bool_decide (p = peer))) ps = q :: qs ->
  rib_ok_but n (mkLocRib (delete (n, peer) (candidates lr)) (<[n := q :: qs]> (peer_index lr))
                  (best_map lr)).
Proof.
  intros Hok Hn Hps Hf. pose proof (withdraw_candidates lr peer n ps Hok Hps) as Hc.
  rewrite Hf in Hc. destruct Hok as [H1 H2 H3 H4 H5]. split; cbn [candidates peer_index].
  - intros m p. destruct (decide (n = m)) as [<-|Hne].
    + rewrite <- Hc, lookup_insert_eq. naive_solver.
    + rewrite lookup_insert_ne, lookup_delete_ne by congruence. apply H1.
  - intros m ps'. rewrite lookup_insert. destruct (decide (n = m)) as [<-|]; [|apply H2].
    intros [= <-]. split; [done|]. rewrite <- Hf. apply NoDup_ListNoDup, List.NoDup_filter.
    apply NoDup_ListNoDup. by apply (H2 n).
  - intros m p r. rewrite lookup_delete. destruct (decide _); [done|apply H3].
  - intros m ps'. rewrite lookup_insert. destruct (decide (n = m)) as [<-|]; [done|apply H4].
  - intros m p Hm Hne Hb. rewrite lookup_delete_ne by congruence. by apply H5.
Qed.

Lemma withdraw_spec lr peer n oracle : rib_ok lr -> canonical n ->
  exists lr' c, loc_rib_withdraw lr peer n oracle = Ok (lr', c)
    /\ rib_ok lr'
    /\ candidates lr' = delete (n, peer) (candidates lr)
    /\ (candidates lr !! (n, peer) <> None \/ up_to_date oracle lr n -> up_to_date oracle lr' n)
    /\ (forall m, canonical m -> m <> n -> best_peer lr' m = best_peer lr m)
    /\ change_ok n (best lr n) (best lr' n) c.
Proof.
  intros Hok Hn. unfold loc_rib_withdraw.
  destruct (candidates lr !! (n, peer)) as [r0|] eqn:Ecand.
  2:{ exists lr, Unchanged. rewrite delete_id by done. split_and!; try done. naive_solver. }
  destruct (proj2 (ok_index lr Hok n peer) ltac:(by eexists)) as (ps & Hps & Hin). rewrite Hps.
  simpl. destruct (List.filter _ ps) as [|q qs] eqn:Ef.
  - pose proof (withdraw_last lr peer n ps Hok Hn Hps Ef) as Hok'.
    eexists _, _. split; [done|]. split; [done|]. split; [done|].
    assert (Hnone : best_peer (mkLocRib (delete (n, peer) (candidates lr)) (delete n (peer_index lr))
      (rm_remove (best_map lr) (nlri_prefix n))) n = None).
    { unfold best_peer. cbn [best_map]. rewrite best_peer_remove by done. by rewrite decide_True. }
    split_and!.
    + intros _. unfold up_to_date, cand_list. rewrite Hnone. cbn [peer_index].
      rewrite lookup_delete_eq. simpl. by intros x ?%not_elem_of_nil.
    + intros m Hm Hne. unfold best_peer. cbn [best_map]. rewrite best_peer_remove by done.
      by rewrite decide_False.
    + unfold best at 2. rewrite Hnone. unfold best.
      destruct (best_peer lr n); [done|]. done.
  - pose proof (withdraw_but lr peer n ps q qs Hok Hn Hps Ef) as Hb. set (lr1 := mkLocRib _ _ _) in *.
    destruct (recompute_ok lr1 n oracle Hn Hb) as (Hok' & Hup & Hoth).
    destruct (recompute_tables lr1 n oracle) as [Ec _].
    set (lr' := recompute_best lr1 n oracle) in *.
    assert (Hfin : forall c, change_ok n (best lr n) (best lr' n) c ->
      exists lr'' c', Ok (E:=False) (lr', c) = Ok (lr'', c') /\ rib_ok lr''
      /\ candidates lr'' = delete (n, peer) (candidates lr)
      /\ (Some r0 <> None \/ up_to_date oracle lr n -> up_to_date oracle lr'' n)
      /\ (forall m, canonical m -> m <> n -> best_peer lr'' m = best_peer lr m)
      /\ change_ok n (best lr n) (best lr'' n) c').
    { intros c Hch. exists lr', c. by split_and!. }
    destruct (best_peer lr' n) as [np|] eqn:Enp.
    2:{ apply Hfin. unfold best at 2. rewrite Enp. done. }
    destruct (announced_ok lr' n np Hok' Hn Enp) as (r & Ean & Ebr).
    destruct (decide _) as [[Eold Hne]|Hch].
    + apply Hfin. simpl. change (best_peer lr1 n) with (best_peer lr n) in *.
      unfold best. rewrite Enp, Eold. simpl. rewrite Ec. cbn [candidates lr1].
      apply lookup_delete_ne. congruence.
    + rewrite Ean. cbn [mbind outcome_bind]. apply Hfin. by rewrite Ebr.
Qed.

(** *** Several prefixes *)
Definition all_up_to_date (oracle : NextHopOracle) (lr : LocRib) : Prop :=
  forall n, canonical n -> up_to_date oracle lr n.

Lemma up_to_date_other oracle lr lr' m : rib_ok lr -> rib_ok lr' ->
  (forall p, candidates lr' !! (m, p) = candidates lr !! (m, p)) ->
  best_peer lr' m = best_peer lr m -> up_to_date oracle lr m -> up_to_date oracle lr' m.
Proof.
  intros H H' Ec Eb Hu. unfold up_to_date. rewrite Eb.
  apply (selected_same oracle (cand_list lr m)); [|done]. by apply cand_list_same.
Qed.
Lemma best_other lr lr' m : (forall p, candidates lr' !! (m, p) = candidates lr !! (m, p)) ->
  best_peer lr' m = best_peer lr m -> best lr' m = best lr m.
Proof. intros Ec Eb. unfold best. rewrite Eb. destruct (best_peer lr m); simpl; [apply Ec|done]. Qed.

Lemma withdraw_all_spec peer oracle ns : forall lr, rib_ok lr -> Forall canonical ns -> NoDup ns ->
  exists lr' cs, withdraw_all lr peer ns oracle = Ok (lr', cs)
    /\ rib_ok lr'
    /\ (forall m p, candidates lr' !! (m, p)
          = if decide (p = peer /\ m ∈ ns) then None else candidates lr !! (m, p))
    /\ (all_up_to_date oracle lr -> all_up_to_date oracle lr')
    /\ (forall m, canonical m -> m ∉ ns -> best_peer lr' m = best_peer lr m)
    /\ Forall2 (fun n c => change_ok n (best lr n) (best lr' n) c) ns cs.
Proof.
  induction ns as [|n ns IH]; intros lr Hok Hc Hnd; cbn [withdraw_all].
  { exists lr, []. split_and!; try done. intros m p. rewrite decide_False; [done|].
    by intros [_ ?%not_elem_of_nil]. }
  apply Forall_cons in Hc as [Hn Hc]. apply NoDup_cons in Hnd as [Hnn Hnd].
  destruct (withdraw_spec lr peer n oracle Hok Hn) as (lr1 & c & E1 & Hok1 & Ec1 & Hu1 & Ho1 & Hch).
  destruct (IH lr1 Hok1 Hc Hnd) as (lr2 & cs & E2 & Hok2 & Ec2 & Hu2 & Ho2 & Hf).
  rewrite E1. cbn [mbind outcome_bind]. rewrite E2. cbn [mbind outcome_bind].
  assert (Hsame : forall m, m <> n -> forall p, candidates lr1 !! (m, p) = candidates lr !! (m, p))
    by (intros m Hm p; rewrite Ec1; apply lookup_delete_ne; congruence).
  exists lr2, (c :: cs). split_and!; [done|done| | | |].
  - intros m p. rewrite Ec2, Ec1, lookup_delete.
    destruct (decide (p = peer /\ m ∈ ns)) as [[-> Hm]|Hnm].
    + rewrite decide_True; [done|]. split; [done|]. by right.
    + destruct (decide ((n, peer) = (m, p))) as [[= <- <-]|Hne].
      * rewrite decide_True; [done|]. split; [done|]. by left.
      * rewrite decide_False; [done|]. intros [-> [->|?]%elem_of_cons]; naive_solver.
  - intros Hu. apply Hu2. intros m Hm. destruct (decide (m = n)) as [->|Hne].
    + apply Hu1. right. by apply Hu.
    + apply (up_to_date_other oracle lr); [done|done|by apply Hsame|by apply Ho1|by apply Hu].
  - intros m Hm [Hne Hnin]%not_elem_of_cons. rewrite Ho2, Ho1; done.
  - constructor.
    + replace (best lr2 n) with (best lr1 n); [done|]. symmetry. apply best_other; [|by apply Ho2].
      intros p. rewrite Ec2. rewrite decide_False; [done|]. by intros [_ ?].
    + eapply Forall2_impl_in; [exact Hf|]. intros m c' Hm Hc'.
      replace (best lr m) with (best lr1 m); [done|].
      assert (m <> n) by (by intros ->).
      apply best_other; [by apply Hsame|]. apply Ho1; [|done].
      by apply (Forall_forall canonical ns).
Qed.

Lemma affected_spec lr peer n : rib_ok lr ->
  n ∈ affected lr peer <-> is_Some (candidates lr !! (n, peer)).
Proof.
  intros Hok. unfold affected. rewrite list_elem_of_fmap. rewrite <- (ok_index lr Hok). split.
  - intros ([m ps] & -> & Hin). rewrite list_elem_of_In, filter_In, <- list_elem_of_In in Hin.
    destruct Hin as [Hin Hp]. rewrite hash_order_perm in Hin. apply elem_of_map_to_list in Hin.
    apply bool_decide_eq_true in Hp. by exists ps.
  - intros (ps & Hps & Hp). exists (n, ps). split; [done|].
    rewrite list_elem_of_In, filter_In, <- list_elem_of_In. split; [|by apply bool_decide_eq_true].
    rewrite hash_order_perm. by apply elem_of_map_to_list.
Qed.
Lemma affected_nodup lr peer : NoDup (affected lr peer).
Proof.
  unfold affected. apply NoDup_fst_filter. rewrite (hash_order_perm _ (map_to_list _)).
  apply NoDup_fst_map_to_list.
Qed.
Lemma candidate_canonical lr n p : rib_ok lr -> is_Some (candidates lr !! (n, p)) -> canonical n.
Proof. intros Hok (ps & Hps & _)%(ok_index lr Hok). by apply (ok_canonical lr Hok n ps). Qed.

Lemma withdraw_peer_spec lr peer oracle : rib_ok lr ->
  exists lr' cs, withdraw_peer lr peer oracle = Ok (lr', cs)
    /\ rib_ok lr'
    /\ (forall m p, candidates lr' !! (m, p)
          = if decide (p = peer) then None else candidates lr !! (m, p))
    /\ (all_up_to_date oracle lr -> all_up_to_date oracle lr')
    /\ Forall2 (fun n c => change_ok n (best lr n) (best lr' n) c) (affected lr peer) cs
    /\ (forall m, canonical m -> m ∉ affected lr peer -> best lr' m = best lr m).
Proof.
  intros Hok.
  destruct (withdraw_all_spec peer oracle (affected lr peer) lr Hok)
    as (lr' & cs & E & Hok' & Ec & Hu & Ho & Hf).
  { apply Forall_forall. intros n Hn%affected_spec; [|done]. by eapply candidate_canonical. }
  { apply affected_nodup. }
  assert (Ec' : forall m p, candidates lr' !! (m, p)
    = if decide (p = peer) then None else candidates lr !! (m, p)).
  { intros m p. rewrite Ec. destruct (decide (p = peer)) as [->|].
    - destruct (decide (m ∈ affected lr peer)) as [Hm|Hm]; [by rewrite decide_True|].
      rewrite decide_False by tauto. apply eq_None_not_Some. by rewrite <- affected_spec.
    - by rewrite decide_False by tauto. }
  exists lr', cs. split_and!; [done..|]. intros m Hm Hna. apply best_other; [|by apply Ho].
  intros p. rewrite Ec. by rewrite decide_False by tauto.
Qed.

(** What the recomputation of some prefixes does. *)
Definition change_of (lr : LocRib) (n : Nlri f) : BestPathChange :=
  match best lr n with Some r => Announced n r | None => Withdrawn n end.
Record recomputed oracle (ns : list (Nlri f)) (lr lr' : LocRib) (cs : list BestPathChange) : Prop := {
  rc_ok : rib_ok lr';
  rc_candidates : candidates lr' = candidates lr;
  rc_index : peer_index lr' = peer_index lr;
  rc_here : forall n, n ∈ ns -> up_to_date oracle lr' n;
  rc_other : forall m, canonical m -> m ∉ ns -> best_peer lr' m = best_peer lr m;
  rc_changes : forall c, c ∈ cs <-> exists n, n ∈ ns /\ best_peer lr' n <> best_peer lr n /\ c = change_of lr' n;
}.
Lemma recomputed_cons oracle n ns lr lr2 cs (o : option BestPathChange) : rib_ok lr -> Forall canonical (n :: ns) -> n ∉ ns ->
  recomputed oracle ns (recompute_best lr n oracle) lr2 cs ->
  (o = None /\ best_peer lr2 n = best_peer lr n) \/ (o = Some (change_of lr2 n) /\ best_peer lr2 n <> best_peer lr n) ->
  recomputed oracle (n :: ns) lr lr2 (match o with Some c => c :: cs | None => cs end).
Proof.
  intros Hok [Hn Hc]%Forall_cons Hnn [Hok2 Ec2 Ei2 Hu2 Ho2 Hcs] Ho.
  destruct (recompute_ok lr n oracle Hn (rib_ok_weaken n lr Hok)) as (Hok1 & Hup1 & Ho1).
  destruct (recompute_tables lr n oracle) as [Ec1 Ei1]. set (lr1 := recompute_best lr n oracle) in *.
  assert (Hns : forall m, m ∈ ns -> best_peer lr1 m = best_peer lr m).
  { intros m Hm. apply Ho1; [by apply (Forall_forall canonical ns)|]. by intros ->. }
  split; [done|by rewrite Ec2|by rewrite Ei2| | |].
  - intros m [->|Hm]%elem_of_cons; [|by apply Hu2].
    apply (up_to_date_other oracle lr1); [done|done|by rewrite Ec2|by apply Ho2|done].
  - intros m Hm [Hne Hni]%not_elem_of_cons. by rewrite Ho2, Ho1.
  - intros c. setoid_rewrite elem_of_cons.
    assert (Htail : c ∈ cs <-> exists m, m ∈ ns /\ best_peer lr2 m <> best_peer lr m /\ c = change_of lr2 m).
    { rewrite Hcs. split; intros (m & Hm & Hne & ->); exists m;
        [rewrite <- (Hns m Hm)|rewrite (Hns m Hm)]; done. }
    destruct Ho as [[-> Hsame]|[-> Hdiff]]; [|rewrite elem_of_cons]; rewrite Htail; naive_solver.
Qed.
Lemma recompute_each_spec oracle ns : forall lr, rib_ok lr -> Forall canonical ns -> NoDup ns ->
  exists lr' cs, recompute_each lr ns oracle = Ok (lr', cs) /\ recomputed oracle ns lr lr' cs.
Proof.
  induction ns as [|n ns IH]; intros lr Hok Hc Hnd; cbn [recompute_each].
  { exists lr, []. split; [done|]. split; try done; [by intros n ?%not_elem_of_nil|].
    intros c. split; [by intros ?%not_elem_of_nil|]. by intros (n & ?%not_elem_of_nil & _). }
  pose proof (Forall_cons_1 _ _ _ Hc) as [Hn Hc']. apply NoDup_cons in Hnd as [Hnn Hnd].
  destruct (recompute_ok lr n oracle Hn (rib_ok_weaken n lr Hok)) as (Hok1 & _ & _).
  cbv zeta. destruct (IH (recompute_best lr n oracle) Hok1 Hc' Hnd) as (lr2 & cs & E2 & H2).
  assert (Hbn : best_peer lr2 n = best_peer (recompute_best lr n oracle) n) by (by apply (rc_other _ _ _ _ _ H2)).
  assert (Hbest : best lr2 n = best (recompute_best lr n oracle) n)
    by (apply best_other; [by rewrite (rc_candidates _ _ _ _ _ H2)|done]).
  pose proof (recomputed_cons oracle n ns lr lr2 cs) as Hfin. unfold change_of in Hfin. rewrite Hbn, Hbest in Hfin.
  set (lr1 := recompute_best lr n oracle) in *. rewrite E2.
  destruct (best_peer lr n) as [op|] eqn:Eop, (best_peer lr1 n) as [np|] eqn:Enp.
  - destruct (decide (op = np)) as [->|Hne]; cbn [mbind outcome_bind].
    + eexists lr2, _. split; [done|]. apply (Hfin None); auto.
    + destruct (announced_ok lr1 n np Hok1 Hn Enp) as (r & -> & Ebr). cbn [mbind outcome_bind].
      eexists lr2, _. split; [done|]. apply (Hfin (Some (Announced n r))); auto. right. rewrite Ebr. split; [done|congruence].
  - cbn [mbind outcome_bind]. eexists lr2, _. split; [done|]. apply (Hfin (Some (Withdrawn n))); auto.
    right. unfold best. by rewrite Enp.
  - destruct (announced_ok lr1 n np Hok1 Hn Enp) as (r & -> & Ebr). cbn [mbind outcome_bind].
    eexists lr2, _. split; [done|]. apply (Hfin (Some (Announced n r))); auto. right. by rewrite Ebr.
  - cbn [mbind outcome_bind]. eexists lr2, _. split; [done|]. apply (Hfin None); auto.
Qed.

Lemma recompute_all_spec lr oracle : rib_ok lr ->
  exists lr' cs, recompute_all lr oracle = Ok (lr', cs)
    /\ rib_ok lr' /\ candidates lr' = candidates lr /\ all_up_to_date oracle lr'
    /\ (forall c, c ∈ cs <-> exists n, canonical n /\ best_peer lr' n <> best_peer lr n
          /\ c = match best lr' n with Some r => Announced n r | None => Withdrawn n end).
Proof.
  intros Hok. unfold recompute_all.
  set (ns := hash_order (map_to_list (peer_index lr)).*1).
  assert (Hns : forall n, n ∈ ns <-> is_Some (peer_index lr !! n)).
  { intros n. unfold ns. rewrite (hash_order_perm _ (map_to_list (peer_index lr)).*1).
    rewrite list_elem_of_fmap. split.
    - intros ([m ps] & -> & Hin%elem_of_map_to_list). by eexists.
    - intros [ps Hps]. exists (n, ps). split; [done|]. by apply elem_of_map_to_list. }
  assert (Hcan : Forall canonical ns).
  { apply Forall_forall. intros n [ps Hps]%Hns. by apply (ok_canonical lr Hok n ps). }
  destruct (recompute_each_spec oracle ns lr Hok Hcan) as (lr' & cs & E & [Hok' Ec Ei Hu Ho Hcs]).
  { unfold ns. rewrite (hash_order_perm _ (map_to_list (peer_index lr)).*1).
    apply NoDup_fst_map_to_list. }
  assert (Hout : forall lr0 m, rib_ok lr0 -> peer_index lr0 !! m = None -> canonical m ->
    best_peer lr0 m = None).
  { intros lr0 m Hok0 Hm Hcm. destruct (best_peer lr0 m) as [p|] eqn:Eb; [|done].
    destruct (proj2 (ok_index lr0 Hok0 m p) (ok_best lr0 Hok0 m p Hcm Eb)) as (ps & ? & _).
    congruence. }
  exists lr', cs. split_and!; [done|done|done| |].
  - intros n Hn. destruct (peer_index lr !! n) as [ps|] eqn:Ep.
    + apply Hu, Hns. by eexists.
    + unfold up_to_date. rewrite (Hout lr' n Hok') by (by rewrite ?Ei).
      unfold cand_list. rewrite Ei, Ep. simpl. by intros x ?%not_elem_of_nil.
  - intros c. rewrite Hcs. split; intros (n & Hn & Hne & ->); exists n.
    + split; [|done]. by apply (Forall_forall canonical ns).
    + split; [|done]. apply Hns. destruct (peer_index lr !! n) eqn:Ep; [by eexists|].
      destruct Hne. rewrite (Hout lr n), (Hout lr' n); by rewrite ?Ei.
Qed.
End LocRib.

Arguments LocRib {P M} f.
Arguments BestPathChange {P} f.
