(* ===== verification/RibTheorems.v ===== *)
(** The properties of the decision process and of the local RIB. *)
From Stdlib Require Import ZArith Lia Bool.
From stdpp Require Import base tactics numbers decidable gmap list.
From S2P Require Import Prelude Addr Types AsPath RouteMap Policy Route BestPath LocRib.
Open Scope Z_scope.

(** ** Histories of the local RIB *)
Section History.
Context `{P : IpPrefixOps} {M : RouteMapOps} {HO : HashOrder} {f : Family}.

Inductive RibOp :=
| RInsert (peer : PeerId) (route : Route f) (oracle : NextHopOracle)
| RWithdraw (peer : PeerId) (n : Nlri f) (oracle : NextHopOracle)
| RWithdrawPeer (peer : PeerId) (oracle : NextHopOracle)
| RRecomputeAll (oracle : NextHopOracle).

Definition one (r : Outcome False (LocRib f * BestPathChange f))
    : Outcome False (LocRib f * list (BestPathChange f)) :=
  '(lr, c) ← r; Ok (lr, [c]).
Definition rib_step (lr : LocRib f) (op : RibOp)
    : Outcome False (LocRib f * list (BestPathChange f)) :=
  match op with
  | RInsert peer route oracle => one (loc_rib_insert lr peer route oracle)
  | RWithdraw peer n oracle => one (loc_rib_withdraw lr peer n oracle)
  | RWithdrawPeer peer oracle => withdraw_peer lr peer oracle
  | RRecomputeAll oracle => recompute_all lr oracle
  end.
Fixpoint rib_run (lr : LocRib f) (ops : list RibOp)
    : Outcome False (LocRib f * list (BestPathChange f)) :=
  match ops with
  | [] => Ok (lr, [])
  | op :: ops =>
      '(lr, cs) ← rib_step lr op;
      '(lr, cs') ← rib_run lr ops;
      Ok (lr, cs ++ cs')
  end.

(** The NLRIs of the program are masked when they are made. *)
Definition op_ok (op : RibOp) : Prop :=
  match op with
  | RInsert _ r _ => canonical (nlri r)
  | RWithdraw _ n _ => canonical n
  | _ => True
  end.
(** An inserted route has a reachable next hop. *)
Definition op_reachable (op : RibOp) : Prop :=
  match op with RInsert p r oracle => reachable oracle (p, r) = true | _ => True end.
Definition op_oracle (op : RibOp) : NextHopOracle :=
  match op with
  | RInsert _ _ o | RWithdraw _ _ o | RWithdrawPeer _ o | RRecomputeAll o => o
  end.

(** The specification: the last route each peer has announced and not withdrawn. *)
Definition spec_step (m : gmap (Nlri f * PeerId) (Route f)) (op : RibOp)
    : gmap (Nlri f * PeerId) (Route f) :=
  match op with
  | RInsert p r _ => <[(nlri r, p) := r]> m
  | RWithdraw p n _ => delete (n, p) m
  | RWithdrawPeer p _ => filter (fun kv => kv.1.2 <> p) m
  | RRecomputeAll _ => m
  end.
Definition spec_run : list RibOp -> gmap (Nlri f * PeerId) (Route f) := foldl spec_step ∅.
(** Every decision of the history still holds for [oracle]: no other oracle was
    used since the start or the last full recomputation. *)
Definition synced (oracle : NextHopOracle) : list RibOp -> Prop :=
  foldl (fun s op => op_oracle op = oracle
                     /\ match op with RRecomputeAll _ => True | _ => s end) True.

(** A table of best routes that follows the reported changes. *)
Definition apply_change (m : gmap (Nlri f) (Route f)) (c : BestPathChange f)
    : gmap (Nlri f) (Route f) :=
  match c with
  | Announced n r => <[n := r]> m
  | Withdrawn n => delete n m
  | Unchanged => m
  end.

Context {L : IpPrefixLaws} {ML : RouteMapLaws} {HL : HashOrderLaw}.

(** *** Following changes *)
Definition consistent (after : Nlri f -> option (Route f)) (c : BestPathChange f) : Prop :=
  match c with
  | Announced n r => after n = Some r
  | Withdrawn n => after n = None
  | Unchanged => True
  end.
Definition mentions (n : Nlri f) (c : BestPathChange f) : Prop :=
  match c with Announced m _ | Withdrawn m => m = n | Unchanged => False end.

Lemma follow_changes after cs : forall mir, Forall (consistent after) cs ->
  forall n, mir !! n = after n \/ Exists (mentions n) cs ->
  foldl apply_change mir cs !! n = after n.
Proof.
  induction cs as [|c cs IH]; intros mir Hc n H; simpl.
  { destruct H as [?|?%Exists_nil]; done. }
  apply Forall_cons in Hc as [Hc Hcs]. apply IH; [done|].
  rewrite Exists_cons in H.
  destruct H as [H|[H|H]]; [|left|by right].
  - left. destruct c as [m r|m|]; simpl in *; [| |done].
    + rewrite lookup_insert. destruct (decide (m = n)) as [<-|]; done.
    + rewrite lookup_delete. destruct (decide (m = n)) as [<-|]; done.
  - destruct c as [m r|m|]; simpl in *; [| |done]; subst m.
    + by rewrite lookup_insert_eq.
    + by rewrite lookup_delete_eq.
Qed.

(** One reported change per prefix, and no other prefix changed. *)
Lemma follow_reports (before after : Nlri f -> option (Route f)) ns cs mir :
  Forall2 (fun n c => change_ok n (before n) (after n) c) ns cs ->
  (forall n, canonical n -> mir !! n = before n) ->
  (forall n, canonical n -> n ∉ ns -> after n = before n) ->
  forall n, canonical n -> foldl apply_change mir cs !! n = after n.
Proof.
  intros Hf Hm Ho n Hn. apply follow_changes.
  - clear -Hf. induction Hf as [|m c ns cs Hc _ IH]; constructor; [|done].
    destruct c; simpl in *; [by destruct Hc as [-> ?]..|done].
  - destruct (decide (n ∈ ns)) as [Hin|Hnin]; [|left; rewrite Ho by done; by apply Hm].
    apply list_elem_of_lookup in Hin as [i Hi].
    destruct (Forall2_lookup_l _ _ _ _ _ Hf Hi) as (c & Hci & Hch).
    destruct c as [m r|m|]; simpl in Hch.
    + right. apply Exists_exists. eexists. split; [by eapply list_elem_of_lookup_2|]. by destruct Hch.
    + right. apply Exists_exists. eexists. split; [by eapply list_elem_of_lookup_2|]. by destruct Hch.
    + left. rewrite Hch. by apply Hm.
Qed.

(** *** One operation *)
Lemma rib_step_spec lr op : rib_ok lr -> op_ok op ->
  exists lr' cs, rib_step lr op = Ok (lr', cs)
    /\ rib_ok lr'
    /\ (forall n p, candidates lr' !! (n, p) = spec_step (candidates lr) op !! (n, p))
    /\ (match op with RRecomputeAll _ => True | _ => all_up_to_date (op_oracle op) lr end ->
        all_up_to_date (op_oracle op) lr')
    /\ (op_reachable op -> forall mir,
         (forall n, canonical n -> mir !! n = best lr n) ->
         forall n, canonical n -> foldl apply_change mir cs !! n = best lr' n).
Proof.
  intros Hok Hop. destruct op as [p r o|p n o|p o|o]; simpl in Hop.
  - destruct (insert_spec lr p r o Hok Hop) as (lr' & c & E & Hok' & Ec & Hu & Ho & Hch).
    exists lr', [c]. simpl. rewrite E. cbn [one mbind outcome_bind].
    assert (Hoth : forall m, m <> nlri r -> forall q, candidates lr' !! (m, q) = candidates lr !! (m, q))
      by (intros m Hm q; rewrite Ec; apply lookup_insert_ne; congruence).
    split_and!; [done|done|by intros; rewrite Ec| |].
    + intros Hall m Hm. destruct (decide (m = nlri r)) as [->|Hne]; [done|].
      apply (up_to_date_other o lr); [done|done|by apply Hoth|by apply Ho|by apply Hall].
    + intros Hr mir Hmir. apply (follow_reports (best lr) (best lr') [nlri r] [c]); [|done|].
      * constructor; [|constructor]. pose proof (insert_reachable lr p r o lr' c Hok Hop E Hr).
        by destruct (best lr' (nlri r)).
      * intros m Hm [Hne _]%not_elem_of_cons. apply best_other; [by apply Hoth|by apply Ho].
  - destruct (withdraw_spec lr p n o Hok Hop) as (lr' & c & E & Hok' & Ec & Hu & Ho & Hch).
    exists lr', [c]. simpl. rewrite E. cbn [one mbind outcome_bind].
    assert (Hoth : forall m, m <> n -> forall q, candidates lr' !! (m, q) = candidates lr !! (m, q))
      by (intros m Hm q; rewrite Ec; apply lookup_delete_ne; congruence).
    split_and!; [done|done|by intros; rewrite Ec| |].
    + intros Hall m Hm. destruct (decide (m = n)) as [->|Hne]; [apply Hu; right; by apply Hall|].
      apply (up_to_date_other o lr); [done|done|by apply Hoth|by apply Ho|by apply Hall].
    + intros _ mir Hmir. apply (follow_reports (best lr) (best lr') [n] [c]); [|done|].
      * by repeat constructor.
      * intros m Hm [Hne _]%not_elem_of_cons. apply best_other; [by apply Hoth|by apply Ho].
  - destruct (withdraw_peer_spec lr p o Hok) as (lr' & cs & E & Hok' & Ec & Hu & Hf & Ho).
    exists lr', cs. split_and!; [done|done| |done|].
    + intros n q. rewrite Ec. simpl. destruct (decide (q = p)) as [->|Hne].
      * symmetry. apply map_lookup_filter_None. right. intros x _. simpl. tauto.
      * symmetry. destruct (candidates lr !! (n, q)) eqn:Eq.
        -- by apply map_lookup_filter_Some.
        -- apply map_lookup_filter_None. by left.
    + intros _ mir Hmir. by apply (follow_reports (best lr) (best lr') (affected lr p) cs).
  - destruct (recompute_all_spec lr o Hok) as (lr' & cs & E & Hok' & Ec & Hu & Hcs).
    exists lr', cs. split_and!; [done|done|by intros; rewrite Ec|done|].
    intros _ mir Hmir n Hn. apply follow_changes.
    + apply Forall_forall. intros c (m & Hm & _ & ->)%Hcs. by destruct (best lr' m) eqn:Eb.
    + destruct (decide (best_peer lr' n = best_peer lr n)) as [Eb|Hne].
      * left. rewrite (best_other lr lr'); [by apply Hmir|by intros; rewrite Ec|done].
      * right. apply Exists_exists. eexists. split; [apply Hcs; by exists n|].
        by destruct (best lr' n).
Qed.

Lemma rib_run_spec ops : forall lr, rib_ok lr -> Forall op_ok ops ->
  exists lr' cs, rib_run lr ops = Ok (lr', cs)
    /\ rib_ok lr'
    /\ (forall m, (forall n p, candidates lr !! (n, p) = m !! (n, p)) ->
        forall n p, candidates lr' !! (n, p) = foldl spec_step m ops !! (n, p))
    /\ (forall oracle (s : Prop), (s -> all_up_to_date oracle lr) ->
        foldl (fun s op => op_oracle op = oracle
          /\ match op with RRecomputeAll _ => True | _ => s end) s ops -> all_up_to_date oracle lr')
    /\ (Forall op_reachable ops -> forall mir,
         (forall n, canonical n -> mir !! n = best lr n) ->
         forall n, canonical n -> foldl apply_change mir cs !! n = best lr' n).
Proof.
  induction ops as [|op ops IH]; intros lr Hok Hops; cbn [rib_run].
  { exists lr, []. split_and!; [done|done|done| |done]. intros oracle s Hs H. by apply Hs. }
  apply Forall_cons in Hops as [Hop Hops].
  destruct (rib_step_spec lr op Hok Hop) as (lr1 & cs1 & E1 & Hok1 & Ec1 & Hu1 & Hm1).
  destruct (IH lr1 Hok1 Hops) as (lr2 & cs2 & E2 & Hok2 & Ec2 & Hu2 & Hm2).
  rewrite E1. cbn [mbind outcome_bind]. rewrite E2. cbn [mbind outcome_bind].
  exists lr2, (cs1 ++ cs2). split_and!; [done|done| | |].
  - intros m Hm. simpl. apply Ec2. intros n p. rewrite Ec1.
    assert (candidates lr = m) as -> by (apply map_eq; by intros [n' p']). done.
  - intros oracle s Hs Hfold. simpl in Hfold. refine (Hu2 oracle _ _ Hfold).
    intros [<- H]. apply Hu1. destruct op; auto.
  - intros [Hr Hrs]%Forall_cons mir Hmir. rewrite foldl_app. apply Hm2; [done|].
    by apply Hm1.
Qed.

(** What an insertion or withdrawal is about; the best route of any other prefix is
    left alone. *)
Definition op_about (n : Nlri f) (op : RibOp) : Prop :=
  match op with RInsert _ r _ => nlri r = n | RWithdraw _ m _ => m = n | _ => True end.
Lemma rib_step_other lr op lr' cs n : rib_ok lr -> op_ok op -> canonical n -> ~ op_about n op ->
  rib_step lr op = Ok (lr', cs) -> best_peer lr' n = best_peer lr n.
Proof.
  intros Hok Hop Hn Ha E. destruct op as [p r o|p m o|p o|o]; cbn [op_about op_ok rib_step] in *; [| |tauto..].
  - destruct (insert_spec lr p r o Hok Hop) as (lr1 & c & E1 & _ & _ & _ & Ho & _). rewrite E1 in E.
    injection E as <- _. apply Ho; [done|congruence].
  - destruct (withdraw_spec lr p m o Hok Hop) as (lr1 & c & E1 & _ & _ & _ & Ho & _). rewrite E1 in E.
    injection E as <- _. apply Ho; [done|congruence].
Qed.
Lemma rib_run_other n ops : canonical n -> forall lr lr' cs, rib_ok lr -> Forall op_ok ops ->
  Forall (fun op => ~ op_about n op) ops -> rib_run lr ops = Ok (lr', cs) -> best_peer lr' n = best_peer lr n.
Proof.
  intros Hn. induction ops as [|op ops IH]; intros lr lr' cs Hok Hops Ha E; cbn [rib_run] in E; [by injection E as <- _|].
  apply Forall_cons in Hops as [Hop Hops], Ha as [Ha1 Ha].
  destruct (rib_step_spec lr op Hok Hop) as (lr1 & cs1 & E1 & Hok1 & _). rewrite E1 in E. cbn [mbind outcome_bind] in E.
  destruct (rib_run lr1 ops) as [[lr2 cs2]| | |] eqn:E2; cbn [mbind outcome_bind] in E; [|done..].
  injection E as <- _. rewrite (IH lr1 lr2 cs2) by done. by eapply rib_step_other.
Qed.

Lemma loc_rib_new_ok : rib_ok (f:=f) loc_rib_new.
Proof.
  split; simpl.
  - intros n p. rewrite !lookup_empty. split; [by intros (? & ? & _)|by intros [? ?]].
  - intros n ps. by rewrite lookup_empty.
  - intros n p r. by rewrite lookup_empty.
  - intros n ps. by rewrite lookup_empty.
  - intros n p _. unfold best_peer. simpl. by rewrite rm_get_new.
Qed.
Lemma loc_rib_new_up_to_date oracle : all_up_to_date (f:=f) oracle loc_rib_new.
Proof.
  intros n _. unfold up_to_date, best_peer, cand_list. simpl. rewrite rm_get_new, lookup_empty.
  simpl. by intros x ?%not_elem_of_nil.
Qed.
Lemma loc_rib_new_best n : best (f:=f) loc_rib_new n = None.
Proof. unfold best, best_peer. simpl. by rewrite rm_get_new. Qed.
(** *** Reading the table *)
Lemma best_canonical lr (n : Nlri f) : best_peer lr (nlri_masked n) = best_peer lr n.
Proof. apply rm_get_masked. Qed.
Lemma best_entry lr (n : Nlri f) p :
  (nlri_prefix n, p) ∈ rm_iter (best_map lr) <-> canonical n /\ best_peer lr n = Some p.
Proof.
  rewrite rm_iter_elem. unfold canonical, nlri_masked. destruct n as [x]; simpl.
  split; intros [H1 H2]; (split; [|done]); [by rewrite H1|by injection H1].
Qed.
Lemma best_routes_elem lr (n : Nlri f) r :
  (n, r) ∈ best_routes lr <-> canonical n /\ best lr n = Some r.
Proof.
  unfold best_routes. rewrite list_elem_of_omap. split.
  - intros ([x p] & Hin & E). apply (best_entry lr (from_prefix x)) in Hin as [Hc Hb].
    simpl in E. destruct (candidates lr !! (from_prefix x, p)) as [r0|] eqn:Ec; [|done].
    injection E as <- <-. split; [done|]. unfold best. by rewrite Hb.
  - intros [Hc Hb]. unfold best in Hb. destruct (best_peer lr n) as [p|] eqn:Ep; [|done].
    exists (nlri_prefix n, p). split; [by apply best_entry|]. simpl in *.
    destruct n. unfold from_prefix. simpl. by rewrite Hb.
Qed.
Lemma best_routes_nodup lr : NoDup (best_routes (f:=f) lr).*1.
Proof.
  unfold best_routes. pose proof (rm_iter_nodup f PeerId (best_map lr)) as Hnd.
  induction (rm_iter (best_map lr)) as [|[x p] l IH]; simpl; [constructor|].
  apply NoDup_cons in Hnd as [Hx Hnd]. destruct (candidates lr !! _) as [r|]; simpl; [|by apply IH].
  constructor; [|by apply IH].
  intros ([n r'] & E & Hin)%list_elem_of_fmap. apply list_elem_of_omap in Hin as ([y q] & Hy & Hq).
  destruct (candidates lr !! (from_prefix y, q)); [|done]. injection Hq as <- <-. injection E as ->.
  apply Hx. apply list_elem_of_fmap. by exists (y, q).
Qed.
Lemma longest_match_spec lr a : rib_ok lr -> addr_ok f a ->
  match longest_match (f:=f) lr a with
  | Some r => canonical (nlri r) /\ best lr (nlri r) = Some r /\ nlri_contains (nlri r) a = true
      /\ forall n r', canonical n -> best lr n = Some r' -> nlri_contains n a = true ->
           prefix_len n <= prefix_len (nlri r)
  | None => forall n r, canonical n -> best lr n = Some r -> nlri_contains n a = false
  end.
Proof.
  intros Hok Ha. unfold longest_match.
  assert (Hent : forall n r, canonical n -> best lr n = Some r -> exists p,
    (nlri_prefix n, p) ∈ rm_iter (best_map lr)).
  { intros n r Hn Hb. unfold best in Hb. destruct (best_peer lr n) as [p|] eqn:E; [|done].
    exists p. by apply best_entry. }
  destruct (rm_longest_match_entry (best_map lr) a) as [[x p]|] eqn:E; simpl.
  - destruct (rm_longest_some _ _ _ _ _ _ Ha E) as (Hin & Hc & Hmax).
    apply (best_entry lr (from_prefix x)) in Hin as [Hcan Hb].
    destruct (ok_best lr Hok _ p Hcan Hb) as [r Hr]. rewrite Hr.
    pose proof (ok_nlri lr Hok _ _ _ Hr) as En. rewrite En. split_and!; [done| |done|].
    + unfold best. by rewrite Hb.
    + intros n r' Hn Hbn Hcn. destruct (Hent n r' Hn Hbn) as [q Hq]. by eapply Hmax.
  - intros n r Hn Hb. destruct (Hent n r Hn Hb) as [q Hq].
    by apply (proj1 (rm_longest_none _ _ _ _ Ha) E _ _ Hq).
Qed.

(** The only candidate of a prefix is selected when it is reachable. *)
Lemma select_singleton (x : PeerId * Route f) oracle : reachable oracle x = true ->
  select_best_with_oracle hash_order (hash_order [x]) oracle = Some x.
Proof.
  intros Hr. assert (Hp : forall g, hash_order (A:=list (PeerId * Route f)) g ≡ₚ g)
    by (intros; apply hash_order_perm).
  assert (Hin : forall y, y ∈ hash_order [x] <-> y = x)
    by (intros y; rewrite (hash_order_perm _ [x]); apply list_elem_of_singleton).
  destruct (select_best_with_oracle _ _ _) as [y|] eqn:E.
  - apply (select_sound _ Hp) in E as [E%Hin _]. by subst y.
  - apply (select_none _ Hp) with (x:=x) in E; [congruence|by apply Hin].
Qed.

(** A lone candidate: the first insertion at a prefix, canonical or not. *)
Lemma insert_lone lr q (r : Route f) oracle : reachable oracle (q, r) = true ->
  peer_index lr !! nlri r = None ->
  exists lr' c, loc_rib_insert lr q r oracle = Ok (lr', c)
    /\ candidates lr' = <[(nlri r, q) := r]> (candidates lr)
    /\ (forall m, best_peer lr' m
         = if decide (prefix_masked (nlri_prefix (nlri r)) = prefix_masked (nlri_prefix m))
           then Some q else best_peer lr m).
Proof.
  intros Hr Hi. unfold loc_rib_insert. rewrite Hi. cbn [default]. cbv zeta.
  rewrite bool_decide_false by apply not_elem_of_nil. cbn [app].
  set (lr1 := mkLocRib _ _ _).
  assert (E : recompute_best lr1 (nlri r) oracle
    = set_best lr1 (rm_insert (best_map lr1) (nlri_prefix (nlri r)) q)).
  { unfold recompute_best, cand_list. cbn [peer_index candidates lr1].
    rewrite lookup_insert_eq. cbn [default from_option id]. simpl. rewrite lookup_insert_eq. simpl.
    by rewrite select_singleton. }
  rewrite E. assert (Hb : forall m, best_peer (set_best lr1
      (rm_insert (best_map lr1) (nlri_prefix (nlri r)) q)) m
    = if decide (prefix_masked (nlri_prefix (nlri r)) = prefix_masked (nlri_prefix m))
      then Some q else best_peer lr m) by (intros m; unfold best_peer; simpl; apply rm_get_insert).
  rewrite (Hb (nlri r)), decide_True by done. unfold announced. cbn [candidates set_best lr1].
  rewrite lookup_insert_eq. cbn [mbind outcome_bind].
  destruct (best_peer lr (nlri r)) as [o|]; [destruct (decide (o = q)); [rewrite decide_True by done|]|];
    eexists _, _; (split; [reflexivity|]); split; [done|exact Hb|done|exact Hb|done|exact Hb].
Qed.
End History.

Arguments RibOp {P} f.

(** ** The decision process *)
Section Claims.
Context `{P : IpPrefixOps} {M : RouteMapOps} {HO : HashOrder}.
Context {L : IpPrefixLaws} {ML : RouteMapLaws} {HL : HashOrderLaw}.

(** C7: among candidates of distinct peers whose optional criteria (metric of the
    next hop, BGP identifier) are known alike, the selection does not depend on the
    order of the candidates or of the groups, and the selected route is exactly the
    RFC 4271 winner [rfc4271_winner]: reachable, the best of its neighbouring AS,
    and preferred to the best of every other one, by the criteria of RFC 4271 9.1.2
    written out in their order in [rfc4271_criteria], independently of the code:
    routes that are not stale first (RFC 4724), then higher LOCAL_PREF (100 if there
    is none), shorter AS_PATH, lower ORIGIN, lower MED among routes of one
    neighbouring AS, local before external before internal, lower metric, of two
    external routes the older, lower BGP identifier, lower peer address. *)
Theorem best_path_winner {f} (group_order group_order' : list (list (Candidate (f:=f))) -> _)
    (candidates candidates' : list Candidate) oracle :
  (forall l, group_order l ≡ₚ l) -> (forall l, group_order' l ≡ₚ l) ->
  candidates ≡ₚ candidates' -> NoDup candidates.*1 -> comparable oracle candidates ->
  select_best_with_oracle group_order candidates oracle
    = select_best_with_oracle group_order' candidates' oracle
  /\ forall x, select_best_with_oracle group_order candidates oracle = Some x
       <-> rfc4271_winner oracle candidates x.
Proof.
  intros H1 H2 Hp Hnd Hc. split; [|by apply select_winner].
  assert (Hnd' : NoDup candidates'.*1) by (by rewrite <- Hp).
  assert (Hin : forall x, x ∈ candidates' <-> x ∈ candidates) by (intros; by rewrite Hp).
  assert (Hc' : comparable oracle candidates') by (by eapply comparable_same).
  assert (E : forall x, select_best_with_oracle group_order candidates oracle = Some x
    <-> select_best_with_oracle group_order' candidates' oracle = Some x).
  { intros x. rewrite !select_winner by done.
    split; apply winner_same; [done|intros; by rewrite Hin]. }
  apply option_eq, E.
Qed.

(** Whatever the metrics and however the maps are ordered, the selection
    fails only if no candidate is reachable; what it selects is a reachable
    candidate, not stale if any other is not, and no reachable candidate of the
    same staleness has a higher LOCAL_PREF, or an equal one and a shorter
    AS_PATH, or equal ones and a lower ORIGIN. *)
Theorem best_path_primary {f} (group_order : list (list (Candidate (f:=f))) -> _) candidates oracle :
  (forall l, group_order l ≡ₚ l) ->
  match select_best_with_oracle group_order candidates oracle with
  | None => forall x, x ∈ candidates -> reachable oracle x = false
  | Some (p, a) => (p, a) ∈ candidates /\ reachable oracle (p, a) = true
      /\ forall q b, (q, b) ∈ candidates -> reachable oracle (q, b) = true ->
           (stale b = false -> stale a = false)
           /\ (stale b = stale a ->
               let pref r := default LocalPref_DEFAULT (local_pref r) in
               let plen r := Path.path_length (as_path r) in
               let orig r := OriginOps.as_u8 (origin r) in
               pref b <= pref a
               /\ (pref b = pref a -> (plen a <= plen b)%nat)
               /\ (pref b = pref a -> plen b = plen a -> orig a <= orig b))
  end.
Proof.
  intros Hp. destruct (select_best_with_oracle _ _ _) as [[p a]|] eqn:E.
  2:{ by apply (select_none group_order Hp). }
  destruct (select_sound group_order Hp _ _ _ E) as [Hin Hr]. split_and!; [done|done|].
  intros q b Hb Hrb. pose proof (select_primary group_order Hp _ _ _ _ E Hb Hrb) as Hge.
  unfold primary in Hge. cbn [snd] in Hge. unfold stale_cmp in Hge. split.
  - intros Es. rewrite Es in Hge. by destruct (stale a).
  - intros Es. rewrite Es in Hge. cbv zeta.
    assert (H : then_cmp (local_pref_cmp a b) (then_cmp (path_len_cmp a b) (origin_cmp a b)) <> Lt)
      by (by destruct (stale a)). clear Hge. revert H.
    unfold local_pref_cmp, path_len_cmp, origin_cmp, OriginOps.cmp, then_cmp.
    destruct (Z.compare_spec (default LocalPref_DEFAULT (local_pref a))
      (default LocalPref_DEFAULT (local_pref b))); [|done|lia].
    destruct (Nat.compare_spec (Path.path_length (as_path b)) (Path.path_length (as_path a)));
      [|done|lia].
    destruct (Z.compare_spec (OriginOps.as_u8 (origin b)) (OriginOps.as_u8 (origin a)));
      [lia|done|lia].
Qed.

Definition tie_route {f} (n : Nlri f) (nh : Z) : Route f :=
  set_peer_type (b_next_hop (builder_new 0 n Igp (Path.from_sequence [65010])) (NhV4 nh)) Internal.
(** IGP metrics 5 and 10 for the next hops 1 and 3, none for 2. *)
Definition partial_oracle : NextHopOracle :=
  mkOracle (fun _ => true)
    (fun nh => match nh with NhV4 1 => Some 5 | NhV4 3 => Some 10 | _ => None end).

(** With a metric known for some next hops only, the comparator has cycles:
    two orders of the same three candidates elect different routes, and the
    route that loses is preferred to the one that wins. *)
Theorem best_path_order_dependent {f} (n : Nlri f) :
  let a : Candidate := (IpV4 3, tie_route n 1) in
  let b : Candidate := (IpV4 2, tie_route n 2) in
  let c : Candidate := (IpV4 1, tie_route n 3) in
  select_best_with_oracle id [a; b; c] partial_oracle = Some c
  /\ select_best_with_oracle id [b; c; a] partial_oracle = Some a
  /\ prefer partial_oracle a c = Gt.
Proof. done. Qed.

(** ** The local RIB *)

(** C6: a history of inserts, withdrawals, lost peers and recomputations on prefixes
    without host bits never panics; the candidates are each peer's last route that
    is not withdrawn; a best peer always has a candidate; and where the history has
    used one next-hop oracle since the last full recomputation ([synced]), every
    best peer is one the decision process selects from the candidates of the prefix.
    The hypotheses are needed: [loc_rib_host_bits] for the prefixes; and where
    metrics or identifiers are known for some candidates only, which one is selected
    depends on the iteration order of a hash map ([best_path_order_dependent]). *)
Theorem loc_rib_refines {f} (ops : list (RibOp f)) : Forall op_ok ops ->
  exists lr cs, rib_run loc_rib_new ops = Ok (lr, cs)
    /\ (forall n p, candidates lr !! (n, p) = spec_run ops !! (n, p))
    /\ (forall n p, canonical n -> best_peer lr n = Some p -> is_Some (spec_run ops !! (n, p)))
    /\ forall oracle n l, synced oracle ops -> canonical n ->
         (forall p r, (p, r) ∈ l <-> spec_run ops !! (n, p) = Some r) ->
         selected oracle l (best_peer lr n).
Proof.
  intros Hops. destruct (rib_run_spec ops loc_rib_new loc_rib_new_ok Hops)
    as (lr & cs & E & Hok & Hc & Hu & _).
  specialize (Hc ∅ ltac:(done)). exists lr, cs. split_and!; [done|exact Hc| |].
  - intros n p Hn Hb. unfold spec_run. rewrite <- Hc. by apply (ok_best lr Hok).
  - intros oracle n l Hs Hn Hl. apply (selected_same oracle (cand_list lr n)).
    + intros [p r]. rewrite Hl. unfold spec_run. rewrite <- Hc. by rewrite cand_list_elem.
    + refine (Hu oracle True _ Hs n Hn). intros _. apply loc_rib_new_up_to_date.
Qed.

(** As long as inserted routes have a reachable next hop, the reported
    changes are complete: a table that starts empty and applies them, in order,
    always holds exactly the best routes. *)
Theorem loc_rib_reports_complete {f} (ops : list (RibOp f)) :
  Forall op_ok ops -> Forall op_reachable ops ->
  exists lr cs, rib_run loc_rib_new ops = Ok (lr, cs)
    /\ forall n, canonical n -> foldl apply_change ∅ cs !! n = best lr n.
Proof.
  intros Hops Hr. destruct (rib_run_spec ops loc_rib_new loc_rib_new_ok Hops)
    as (lr & cs & E & _ & _ & _ & Hm).
  exists lr, cs. split; [done|]. apply Hm; [done|].
  intros n _. by rewrite loc_rib_new_best, lookup_empty.
Qed.

(** When a peer replaces the only route of a prefix by one whose next hop is
    unreachable, the best route is gone but the insertion reports no change. *)
Theorem loc_rib_unreported_loss {f} p (r r' : Route f) oracle :
  nlri r' = nlri r -> canonical (nlri r) ->
  reachable oracle (p, r) = true -> reachable oracle (p, r') = false ->
  exists lr1 lr2,
    rib_run loc_rib_new [RInsert p r oracle] = Ok (lr1, [Announced (nlri r) r])
    /\ best lr1 (nlri r) = Some r
    /\ loc_rib_insert lr1 p r' oracle = Ok (lr2, Unchanged)
    /\ best lr2 (nlri r) = None.
Proof.
  intros En Hn Hr Hr'.
  destruct (insert_spec loc_rib_new p r oracle loc_rib_new_ok Hn)
    as (lr1 & c1 & E1 & Hok1 & Ec1 & Hu1 & _ & Hch1).
  pose proof (insert_reachable _ _ _ _ _ _ loc_rib_new_ok Hn E1 Hr) as Hb1.
  assert (Hcand1 : forall q x, candidates lr1 !! (nlri r, q) = Some x -> q = p /\ x = r).
  { intros q x. rewrite Ec1. rewrite lookup_insert. destruct (decide _) as [[= <-]|].
    - by intros [= <-].
    - simpl. by rewrite lookup_empty. }
  assert (Eb1 : best lr1 (nlri r) = Some r).
  { destruct (best lr1 (nlri r)) as [x|] eqn:Eb; [|done]. unfold best in Eb.
    destruct (best_peer lr1 (nlri r)) as [q|]; [|done]. simpl in Eb.
    by apply Hcand1 in Eb as [_ ->]. }
  rewrite Eb1 in Hch1.
  destruct (insert_spec lr1 p r' oracle Hok1 ltac:(by rewrite En))
    as (lr2 & c2 & E2 & Hok2 & Ec2 & Hu2 & _ & Hch2).
  rewrite En in *. exists lr1, lr2.
  assert (Eb2 : best lr2 (nlri r) = None).
  { unfold up_to_date, selected in Hu2. unfold best.
    destruct (best_peer lr2 (nlri r)) as [q|] eqn:Eq; [|done]. exfalso.
    destruct Hu2 as (x & Hin & Hx & _). apply cand_list_elem in Hin; [|done].
    rewrite Ec2, lookup_insert in Hin. destruct (decide _) as [[= <-]|Hne].
    - injection Hin as <-. congruence.
    - apply Hcand1 in Hin as [-> _]. done. }
  rewrite Eb2 in Hch2. subst c2. split_and!; [|done|done|done].
  simpl. rewrite E1. cbn [one mbind outcome_bind]. simpl.
  destruct c1 as [m x|m|]; simpl in Hch1.
  - destruct Hch1 as [-> [= ->]]. done.
  - by destruct Hch1.
  - by rewrite loc_rib_new_best in Hch1.
Qed.

(** Reading the table agrees with it: [best_routes] lists each prefix that has
    a best route once, with that route, and [longest_match] returns the best
    route of the most specific such prefix containing the address, or none if
    there is no such prefix. *)
Theorem loc_rib_lookup {f} (ops : list (RibOp f)) a : Forall op_ok ops -> addr_ok f a ->
  exists lr cs, rib_run loc_rib_new ops = Ok (lr, cs)
    /\ NoDup (best_routes lr).*1
    /\ (forall n r, (n, r) ∈ best_routes lr <-> canonical n /\ best lr n = Some r)
    /\ match longest_match lr a with
       | Some r => canonical (nlri r) /\ best lr (nlri r) = Some r
           /\ nlri_contains (nlri r) a = true
           /\ forall n r', canonical n -> best lr n = Some r' -> nlri_contains n a = true ->
                prefix_len n <= prefix_len (nlri r)
       | None => forall n r, canonical n -> best lr n = Some r -> nlri_contains n a = false
       end.
Proof.
  intros Hops Ha. destruct (rib_run_spec ops loc_rib_new loc_rib_new_ok Hops)
    as (lr & cs & E & Hok & _). exists lr, cs. split; [done|].
  split; [apply best_routes_nodup|]. split; [apply best_routes_elem|by apply longest_match_spec].
Qed.

(** A route inserted with host bits set in its prefix, as a parsed prefix may
    have them, takes the best-path entry of the network away from another peer's
    route: the table then lists no route for it. *)
Theorem loc_rib_host_bits {f} p q (r r' : Route f) oracle :
  canonical (nlri r) -> nlri r' <> nlri r -> nlri_masked (nlri r') = nlri r -> p <> q ->
  reachable oracle (p, r) = true -> reachable oracle (q, r') = true ->
  exists lr cs, rib_run loc_rib_new [RInsert p r oracle; RInsert q r' oracle] = Ok (lr, cs)
    /\ candidates lr !! (nlri r, p) = Some r
    /\ best lr (nlri r) = None
    /\ best_routes lr = [].
Proof.
  intros Hn Hne Hm Hpq Hr Hr'.
  destruct (insert_lone loc_rib_new p r oracle Hr (lookup_empty _)) as (lr1 & c1 & E1 & Ec1 & Eb1).
  assert (Hi1 : peer_index lr1 !! nlri r' = None).
  { destruct (insert_spec loc_rib_new p r oracle loc_rib_new_ok Hn) as (lr1' & ? & E1' & Hok1 & _).
    rewrite E1 in E1'. injection E1' as <- _. destruct (peer_index lr1 !! nlri r') as [ps|] eqn:E; [|done].
    pose proof (ok_canonical lr1 Hok1 _ _ E) as Hc. unfold canonical in Hc. congruence. }
  destruct (insert_lone lr1 q r' oracle Hr' Hi1) as (lr2 & c2 & E2 & Ec2 & Eb2).
  assert (Hmask : prefix_masked (nlri_prefix (nlri r')) = nlri_prefix (nlri r)) by (by rewrite <- Hm).
  assert (Hbest : forall m, best lr2 m = None \/ ~ canonical m).
  { intros m. destruct (decide (nlri_masked m = m)) as [Hc|]; [left|by right].
    unfold best. rewrite Eb2, Eb1, Hmask.
    assert (Hmm : nlri_prefix (nlri_masked m) = nlri_prefix m) by (by rewrite Hc).
    assert (Hnn : nlri_prefix (nlri_masked (nlri r)) = nlri_prefix (nlri r)) by (by rewrite Hn).
    simpl in Hmm, Hnn. rewrite Hmm, Hnn. destruct (decide _) as [E|].
    2:{ unfold best_peer. simpl. by rewrite rm_get_new. }
    simpl. assert (nlri r = m) as <- by (destruct (nlri r), m; simpl in E; congruence).
    rewrite Ec2, Ec1. rewrite !lookup_insert_ne by congruence. simpl. by rewrite lookup_empty. }
  exists lr2, ([c1] ++ [c2] ++ []). split_and!.
  - cbn [rib_run rib_step]. rewrite E1. cbn [one mbind outcome_bind].
    rewrite E2. cbn [one mbind outcome_bind]. done.
  - rewrite Ec2, Ec1, lookup_insert_ne by congruence. apply lookup_insert_eq.
  - by destruct (Hbest (nlri r)).
  - destruct (best_routes lr2) as [|[n x] l] eqn:E; [done|].
    assert (Hin : (n, x) ∈ best_routes lr2) by (rewrite E; left).
    apply best_routes_elem in Hin as [Hc Hb]. destruct (Hbest n); [congruence|done].
Qed.
End Claims.

(** ** Witnesses *)
Section Applied.
#[local] Existing Instances ModelPrefix.ops ModelPrefix.laws ModelRouteMap.ops ModelRouteMap.laws.
#[local] Existing Instances ModelHashOrder.order ModelHashOrder.order_law.

Definition net10 : Nlri FamV4 := ModelPrefix.nlri FamV4 167772160 8 eq_refl.
Definition net10_host : Nlri FamV4 := ModelPrefix.nlri FamV4 167772161 8 eq_refl.
Definition route10 : Route FamV4 := tie_route net10 1.
Definition route10' : Route FamV4 := tie_route net10 2.
(** Only the next hop 1 is reachable. *)
Definition one_reachable : NextHopOracle :=
  mkOracle (fun nh => match nh with NhV4 1 => true | _ => false end) (fun _ => None).

Lemma net10_canonical : canonical net10.
Proof. exact (ModelPrefix.nlri_canonical FamV4 167772160 8 eq_refl eq_refl). Qed.

Lemma best_path_winner_witness :
  NoDup [IpV4 1; IpV4 2]
  /\ rfc4271_winner AlwaysReachable [(IpV4 1, route10); (IpV4 2, route10')] (IpV4 1, route10).
Proof.
  assert (Hnd : NoDup [IpV4 1; IpV4 2]) by (apply NoDup_ListNoDup; repeat constructor; simpl; naive_solver).
  split; [exact Hnd|].
  apply (best_path_winner id (@rev _) [(IpV4 1, route10); (IpV4 2, route10')]
    [(IpV4 2, route10'); (IpV4 1, route10)] AlwaysReachable);
    [done|intros l; symmetry; apply Permutation_rev|constructor|exact Hnd| |reflexivity].
  intros x y Hx Hy _. rewrite !list_elem_of_In in *. simpl in Hx, Hy. naive_solver.
Defined.

Lemma best_path_primary_witness :
  select_best_with_oracle id [(IpV4 1, route10); (IpV4 2, route10')] one_reachable
    = Some (IpV4 1, route10)
  /\ (IpV4 1, route10) ∈ [(IpV4 1, route10); (IpV4 2, route10')].
Proof.
  split; [reflexivity|].
  exact (proj1 (best_path_primary id [(IpV4 1, route10); (IpV4 2, route10')] one_reachable
    ltac:(done))).
Defined.

Lemma loc_rib_refines_witness : exists lr cs,
  rib_run loc_rib_new [RInsert (IpV4 1) route10 one_reachable] = Ok (lr, cs)
  /\ candidates lr !! (net10, IpV4 1) = Some route10.
Proof.
  destruct (loc_rib_refines [RInsert (IpV4 1) route10 one_reachable]) as (lr & cs & E & Hc & _).
  - exact (Forall_cons_2 op_ok (RInsert (IpV4 1) route10 one_reachable) _ net10_canonical (Forall_nil_2 _)).
  - exists lr, cs. split; [exact E|]. rewrite Hc. apply lookup_insert_eq.
Defined.

Lemma loc_rib_reports_complete_witness : exists lr cs,
  rib_run loc_rib_new [RInsert (IpV4 1) route10 one_reachable; RWithdrawPeer (IpV4 1) one_reachable]
    = Ok (lr, cs)
  /\ foldl apply_change ∅ cs !! net10 = best lr net10.
Proof.
  destruct (loc_rib_reports_complete
    [RInsert (IpV4 1) route10 one_reachable; RWithdrawPeer (IpV4 1) one_reachable])
    as (lr & cs & E & Hc).
  - exact (Forall_cons_2 op_ok (RInsert (IpV4 1) route10 one_reachable) _ net10_canonical (Forall_cons_2 _ (RWithdrawPeer (IpV4 1) one_reachable) _ I (Forall_nil_2 _))).
  - exact (Forall_cons_2 op_reachable (RInsert (IpV4 1) route10 one_reachable) _ eq_refl (Forall_cons_2 _ (RWithdrawPeer (IpV4 1) one_reachable) _ I (Forall_nil_2 _))).
  - exists lr, cs. split; [exact E|]. apply Hc, net10_canonical.
Defined.

Lemma loc_rib_unreported_loss_witness : exists lr1 lr2,
  best lr1 net10 = Some route10
  /\ loc_rib_insert lr1 (IpV4 1) route10' one_reachable = Ok (lr2, Unchanged)
  /\ best lr2 net10 = None.
Proof.
  destruct (loc_rib_unreported_loss (IpV4 1) route10 route10' one_reachable eq_refl
    net10_canonical eq_refl eq_refl) as (lr1 & lr2 & _ & H1 & H2 & H3).
  exists lr1, lr2. exact (conj H1 (conj H2 H3)).
Defined.

Lemma loc_rib_lookup_witness : exists lr cs,
  rib_run loc_rib_new [RInsert (IpV4 1) route10 one_reachable] = Ok (lr, cs)
  /\ NoDup (best_routes lr).*1.
Proof.
  destruct (loc_rib_lookup [RInsert (IpV4 1) route10 one_reachable] 167772161)
    as (lr & cs & E & Hn & _).
  - exact (Forall_cons_2 op_ok (RInsert (IpV4 1) route10 one_reachable) _ net10_canonical (Forall_nil_2 _)).
  - unfold addr_ok. simpl. lia.
  - exists lr, cs. exact (conj E Hn).
Defined.

Lemma loc_rib_host_bits_witness : exists lr cs,
  rib_run loc_rib_new [RInsert (IpV4 1) route10 AlwaysReachable;
                       RInsert (IpV4 2) (tie_route net10_host 1) AlwaysReachable] = Ok (lr, cs)
  /\ candidates lr !! (net10, IpV4 1) = Some route10
  /\ best_routes lr = [].
Proof.
  destruct (loc_rib_host_bits (IpV4 1) (IpV4 2) route10 (tie_route net10_host 1) AlwaysReachable)
    as (lr & cs & E & Hc & _ & Hb); [exact net10_canonical| | |discriminate|reflexivity|reflexivity|].
  - intros [=].
  - apply (f_equal from_prefix). apply prefix_ext; [|rewrite prefix_masked_mask; reflexivity].
    rewrite prefix_masked_ip. reflexivity.
  - exists lr, cs. exact (conj E (conj Hc Hb)).
Defined.
End Applied.
