(* ===== verification/AdjRib.v ===== *)
(** The per-peer RIBs and the transforms of outgoing routes
    ([pathvector-rib/src/adj_rib_in.rs], [adj_rib_out.rs], [outbound.rs]). *)
From Stdlib Require Import ZArith Lia Bool.
From stdpp Require Import base tactics numbers decidable gmap list.
From S2P Require Import Prelude Addr Types AsPath RouteMap Policy Route BestPath LocRib.
Open Scope Z_scope.

Section AdjRib.
Context `{P : IpPrefixOps} {f : Family}.

(** ** [AdjRibIn] *)
Record AdjRibIn := mkAdjRibIn {
  ari_peer : PeerId;
  ari_routes : gmap (Nlri f) (Route f);
}.
Definition ari_new (peer : PeerId) : AdjRibIn := mkAdjRibIn peer ∅.
(** [insert] and [withdraw] return the route that was stored before. *)
Definition ari_insert (t : AdjRibIn) (route : Route f) : AdjRibIn * option (Route f) :=
  (mkAdjRibIn (ari_peer t) (<[nlri route := route]> (ari_routes t)), ari_routes t !! nlri route).
Definition ari_withdraw (t : AdjRibIn) (n : Nlri f) : AdjRibIn * option (Route f) :=
  (mkAdjRibIn (ari_peer t) (delete n (ari_routes t)), ari_routes t !! n).
Definition ari_get (t : AdjRibIn) (n : Nlri f) : option (Route f) := ari_routes t !! n.
Definition ari_iter `{HashOrder} (t : AdjRibIn) : list (Nlri f * Route f) :=
  hash_order (map_to_list (ari_routes t)).
Definition ari_len (t : AdjRibIn) : nat := size (ari_routes t).
Definition ari_is_empty (t : AdjRibIn) : bool := bool_decide (ari_routes t = ∅).
Definition mark_all_stale `{HashOrder} (t : AdjRibIn) : AdjRibIn * list (Route f) :=
  (mkAdjRibIn (ari_peer t) ((fun r => set_stale r true) <$> ari_routes t),
   (fun x : Nlri f * Route f => set_stale (snd x) true) <$> hash_order (map_to_list (ari_routes t))).
Definition ari_clear (t : AdjRibIn) : AdjRibIn := mkAdjRibIn (ari_peer t) ∅.

(** ** [AdjRibOut] *)
Inductive InsertOutcome :=
| Accepted (prev : option (Route f))
| Filtered (prev : option (Route f)).

Record AdjRibOut := mkAdjRibOut {
  aro_peer : PeerId;
  aro_peer_type : PeerType;
  aro_reflects : bool;
  aro_routes : gmap (Nlri f) (Route f);
}.
Definition aro_new (peer : PeerId) (pt : PeerType) : AdjRibOut := mkAdjRibOut peer pt false ∅.
Definition aro_new_reflecting (peer : PeerId) (pt : PeerType) : AdjRibOut :=
  mkAdjRibOut peer pt true ∅.
Definition aro_set_routes (t : AdjRibOut) (m : gmap (Nlri f) (Route f)) : AdjRibOut :=
  mkAdjRibOut (aro_peer t) (aro_peer_type t) (aro_reflects t) m.
Definition aro_insert (t : AdjRibOut) (route : Route f) : AdjRibOut * InsertOutcome :=
  if negb (aro_reflects t) && bool_decide (aro_peer_type t = Internal)
     && bool_decide (peer_type route = Internal)
  then (aro_set_routes t (delete (nlri route) (aro_routes t)),
        Filtered (aro_routes t !! nlri route))
  else
    let route :=
      if bool_decide (aro_peer_type t = External)
      then set_as_path route (Path.strip_confed_segments (as_path route)) else route in
    (aro_set_routes t (<[nlri route := route]> (aro_routes t)),
     Accepted (aro_routes t !! nlri route)).
Definition aro_withdraw (t : AdjRibOut) (n : Nlri f) : AdjRibOut * option (Route f) :=
  (aro_set_routes t (delete n (aro_routes t)), aro_routes t !! n).
Definition aro_get (t : AdjRibOut) (n : Nlri f) : option (Route f) := aro_routes t !! n.
Definition aro_iter `{HashOrder} (t : AdjRibOut) : list (Nlri f * Route f) :=
  hash_order (map_to_list (aro_routes t)).
Definition aro_len (t : AdjRibOut) : nat := size (aro_routes t).
Definition aro_is_empty (t : AdjRibOut) : bool := bool_decide (aro_routes t = ∅).
End AdjRib.

Arguments AdjRibIn {P} f.
Arguments AdjRibOut {P} f.
Arguments InsertOutcome {P} f.

(** ** [outbound.rs] *)
Definition is_export_suppressed (cs : list Z) (pt : PeerType) : bool :=
  existsb (fun c =>
    Community.is_no_advertise c
    || (Community.is_no_export c && bool_decide (pt = External))
    || (Community.is_no_export_subconfed c
        && match pt with External | ConfedMember => true | _ => false end)) cs.

Section Prepare.
Context `{P : IpPrefixOps}.

Definition prepare_outbound (route : Route FamV4) (pt : PeerType) (local_as public_as : Z)
    (local_next_hop : Z) (next_hop_self : bool) : Route FamV4 :=
  match pt with
  | External =>
      let route := set_as_path route (Path.strip_confed_segments (as_path route)) in
      let route := set_as_path route (Path.prepend (as_path route) public_as) in
      let route := set_next_hop route (Some (NhV4 local_next_hop)) in
      set_local_pref route None
  | ConfedMember =>
      let route := set_as_path route (Path.prepend_confed (as_path route) local_as) in
      if next_hop_self then set_next_hop route (Some (NhV4 local_next_hop)) else route
  | Internal | Local =>
      if next_hop_self then set_next_hop route (Some (NhV4 local_next_hop)) else route
  end.

Definition prepare_outbound_v6 (route : Route FamV6) (pt : PeerType) (local_as public_as : Z)
    (local_ipv6 : option Z) (next_hop_self : bool) : Route FamV6 :=
  match pt with
  | External =>
      let route := set_as_path route (Path.strip_confed_segments (as_path route)) in
      let route := set_as_path route (Path.prepend (as_path route) public_as) in
      let route := match local_ipv6 with
                   | Some addr => set_next_hop route (Some (NhV6 addr)) | None => route end in
      set_local_pref route None
  | ConfedMember =>
      let route := set_as_path route (Path.prepend_confed (as_path route) local_as) in
      match next_hop_self, local_ipv6 with
      | true, Some addr => set_next_hop route (Some (NhV6 addr))
      | _, _ => route
      end
  | Internal | Local =>
      match next_hop_self, local_ipv6 with
      | true, Some addr => set_next_hop route (Some (NhV6 addr))
      | _, _ => route
      end
  end.
End Prepare.
