(* ===== verification/Outbound.v ===== *)
(** The outbound pipeline ([pathvectord/src/outbound.rs]): what a peer is told
    about a prefix, the attributes it is sent, and the packing of decisions into
    UPDATE messages.

    A bounded [mpsc::Sender] is the number of its free slots and the messages
    sent through it so far. *)
From Stdlib Require Import ZArith Lia Bool.
From stdpp Require Import base tactics numbers decidable gmap list.
From S2P Require Import Prelude Addr Types AsPath Wire Header Update UpdateFacts RouteMap Policy Route BestPath LocRib AdjRib.
Open Scope Z_scope.

Section Outbound.
Context `{P : IpPrefixOps}.

Definition UPDATE_FIXED_OVERHEAD : nat := 19 + 2 + 2.

(** ** Attributes *)
Definition unknown_attrs_to_path_attributes (unknown : list UnknownAttribute) : list PathAttribute :=
  map (fun a => PaUnknown (Z.lor 0x80 0x40) (ua_type_code a) (ua_value a)) unknown.

Definition opt_attr {A} (o : option A) (mk : A -> PathAttribute) : list PathAttribute :=
  match o with Some a => [mk a] | None => [] end.
Definition list_attr {A} (l : list A) (mk : list A -> PathAttribute) : list PathAttribute :=
  match l with [] => [] | _ => [mk l] end.
Definition is_v4_next_hop (o : option NextHop) : option Z :=
  match o with Some (NhV4 a) => Some a | _ => None end.

(** The path on the wire and the AS4_PATH that goes with it. *)
Definition wire_as_paths (p : AsPath) (peer_four_byte : bool) : AsPath * option AsPath :=
  if peer_four_byte then (p, None) else Path.downgrade_for_two_byte_peer p.
(** The attributes from LOCAL_PREF on, alike in both families. *)
Definition common_attributes {f} (route : Route f) (pt : PeerType) (as4_path : option AsPath)
    : list PathAttribute :=
  let strip_med := bool_decide (pt = External) in
  let strip_rr_metadata := match pt with External | ConfedMember => true | _ => false end in
  let rare := rare_or_default route in
  opt_attr (local_pref route) PaLocalPref
  ++ (if strip_med then [] else opt_attr (med route) PaMed)
  ++ list_attr (communities rare) PaCommunities
  ++ list_attr (large_communities rare) PaLargeCommunities
  ++ list_attr (extended_communities rare) PaExtendedCommunities
  ++ (if atomic_aggregate rare then [PaAtomicAggregate] else [])
  ++ opt_attr (aggregator rare) PaAggregator
  ++ (if strip_rr_metadata then []
      else opt_attr (originator_id rare) PaOriginatorId
           ++ list_attr (cluster_list rare) PaClusterList)
  ++ opt_attr (otc rare) PaOnlyToCustomer
  ++ unknown_attrs_to_path_attributes (unknown rare)
  ++ opt_attr as4_path (fun p => PaAs4Path (Path.strip_confed_segments p)).
Definition route_to_attributes (route : Route FamV4) (pt : PeerType) (peer_four_byte : bool)
    : list PathAttribute :=
  let '(wire_as_path, as4_path) := wire_as_paths (as_path route) peer_four_byte in
  [PaOrigin (origin route); PaAsPath wire_as_path]
  ++ opt_attr (is_v4_next_hop (next_hop route)) PaNextHop
  ++ common_attributes route pt as4_path.
Definition route_v6_to_attributes (route : Route FamV6) (pt : PeerType) (peer_four_byte : bool)
    : list PathAttribute * MpReachNlri :=
  let '(wire_as_path, as4_path) := wire_as_paths (as_path route) peer_four_byte in
  ([PaOrigin (origin route); PaAsPath wire_as_path] ++ common_attributes route pt as4_path,
   mkMpReach IPV6_UNICAST (default (NhV6 0) (next_hop route)) [PfxV6 (nlri route)]).

(** ** Decisions *)

(** [trait RibView], and its implementation by the local RIB *)
Class RibView (f : Family) (V : Type) := {
  rv_best : V -> Nlri f -> option (Route f);
  rv_best_peer : V -> Nlri f -> option PeerId;
}.
#[export] Instance LocRib_RibView `{!RouteMapOps} f : RibView f (LocRib f) :=
  {| rv_best := best; rv_best_peer := best_peer |}.

(** [PrefixDecision] and [PrefixDecisionV6] *)
Inductive PrefixDecision (f : Family) :=
| PdAnnounce (r : Route f)
| PdWithdraw (n : Nlri f)
| PdNoChange.
Arguments PdAnnounce {f} r.
Arguments PdWithdraw {f} n.
Arguments PdNoChange {f}.

(** [if adj_rib_out.withdraw(&nlri).is_some() { Withdraw } else { NoChange }] *)
Definition withdraw_decision {f} (aro : AdjRibOut f) (n : Nlri f)
    : AdjRibOut f * PrefixDecision f :=
  let '(aro, prev) := aro_withdraw aro n in
  (aro, match prev with Some _ => PdWithdraw n | None => PdNoChange end).

(** The body shared by both families: [prepare] is their [prepare_outbound], and
    without [can_announce] a best route counts as none. *)
Definition propagate {f V} `{!RibView f V} (prepare : Route f -> Route f) (can_announce : bool)
    (n : Nlri f) (loc_rib : V) (aro : AdjRibOut f) (export_policy : Policy (Route f))
    (pt : PeerType) (deferred : bool) : AdjRibOut f * PrefixDecision f :=
  if deferred then (aro, PdNoChange)
  else
    match rv_best loc_rib n, can_announce with
    | Some best, true =>
        if decide (rv_best_peer loc_rib n = Some (aro_peer aro)) then withdraw_decision aro n
        else
          match evaluate export_policy (prepare best) with
          | (route, DAccept) =>
              if negb (is_export_suppressed (communities (rare_or_default route)) pt) then
                match aro_insert aro route with
                | (aro, Accepted prev) =>
                    (aro, if decide (prev = Some route) then PdNoChange else PdAnnounce route)
                | (aro, Filtered (Some _)) => (aro, PdWithdraw n)
                | (aro, Filtered None) => (aro, PdNoChange)
                end
              else withdraw_decision aro n
          | (_, DReject) | (_, DNext) => withdraw_decision aro n
          end
    | _, _ => withdraw_decision aro n
    end.
Definition propagate_prefix {V} `{!RibView FamV4 V} (n : Nlri FamV4) (loc_rib : V)
    (aro : AdjRibOut FamV4) (export_policy : Policy (Route FamV4)) (pt : PeerType)
    (local_as public_as local_next_hop : Z) (next_hop_self deferred : bool)
    : AdjRibOut FamV4 * PrefixDecision FamV4 :=
  propagate (fun r => prepare_outbound r pt local_as public_as local_next_hop next_hop_self)
    true n loc_rib aro export_policy pt deferred.
Definition propagate_prefix_v6 {V} `{!RibView FamV6 V} (n : Nlri FamV6) (loc_rib : V)
    (aro : AdjRibOut FamV6) (export_policy : Policy (Route FamV6)) (pt : PeerType)
    (local_as public_as : Z) (local_ipv6 : option Z) (next_hop_self deferred : bool)
    : AdjRibOut FamV6 * PrefixDecision FamV6 :=
  let can_announce := negb (bool_decide (pt = External))
                      || match local_ipv6 with Some _ => true | None => false end in
  propagate (fun r => prepare_outbound_v6 r pt local_as public_as local_ipv6 next_hop_self)
    can_announce n loc_rib aro export_policy pt deferred.

(** ** Sending *)
Record Sender := mkSender { tx_free : nat; tx_sent : list UpdateMessage }.
(** [update_tx.try_send(m)]: the result is [is_ok()] *)
Definition try_send (tx : Sender) (m : UpdateMessage) : Sender * bool :=
  match tx_free tx with
  | O => (tx, false)
  | S k => (mkSender k (tx_sent tx ++ [m]), true)
  end.

(** The loop that fills a batch and sends it when the next NLRI would overflow
    it, and the send of the last batch. *)
Fixpoint send_batches {A} (mk : list A -> UpdateMessage) (nlen : A -> nat) (base max_len : nat)
    (nlris batch : list A) (batch_bytes : nat) (tx : Sender) : Sender * bool :=
  match nlris with
  | [] => match batch with [] => (tx, true) | _ => try_send tx (mk batch) end
  | n :: nlris =>
      match batch with
      | _ :: _ =>
          if (max_len <? batch_bytes + nlen n)%nat then
            let '(tx, ok) := try_send tx (mk batch) in
            if ok then send_batches mk nlen base max_len nlris [n] (base + nlen n) tx
            else (tx, false)
          else send_batches mk nlen base max_len nlris (batch ++ [n]) (batch_bytes + nlen n) tx
      | [] => send_batches mk nlen base max_len nlris [n] (batch_bytes + nlen n) tx
      end
  end.

Definition AnnounceGroup (f : Family) : Type := list Z * list PathAttribute * list (Nlri f).
(** Push the NLRI to the group with the same attribute bytes, or open a group. *)
Fixpoint add_to_group (attr_bytes : list Z) (attrs : list PathAttribute) (n : Nlri FamV4)
    (groups : list (AnnounceGroup FamV4)) : list (AnnounceGroup FamV4) :=
  match groups with
  | [] => [(attr_bytes, attrs, [n])]
  | (key, attrs', nlris) :: groups =>
      if decide (key = attr_bytes) then (key, attrs', nlris ++ [n]) :: groups
      else (key, attrs', nlris) :: add_to_group attr_bytes attrs n groups
  end.
(** The first loop of [flush_updates]. *)
Definition collect_decision (pt : PeerType) (peer_four_byte : bool)
    (acc : list (Nlri FamV4) * list (AnnounceGroup FamV4)) (d : PrefixDecision FamV4)
    : list (Nlri FamV4) * list (AnnounceGroup FamV4) :=
  let '(withdrawals, groups) := acc in
  match d with
  | PdWithdraw n => (withdrawals ++ [n], groups)
  | PdAnnounce route =>
      let attrs := route_to_attributes route pt peer_four_byte in
      (withdrawals, add_to_group (encode_attributes attrs) attrs (nlri route) groups)
  | PdNoChange => (withdrawals, groups)
  end.
Fixpoint send_groups (max_len : nat) (groups : list (AnnounceGroup FamV4)) (tx : Sender)
    : Sender * bool :=
  match groups with
  | [] => (tx, true)
  | (attr_bytes, attrs, nlris) :: groups =>
      let base := (UPDATE_FIXED_OVERHEAD + length attr_bytes)%nat in
      let '(tx, ok) := send_batches (fun b => mkUpdate [] attrs b) nlri_encoded_len base max_len
                         nlris [] base tx in
      if ok then send_groups max_len groups tx else (tx, false)
  end.
Definition flush_updates (decisions : list (PrefixDecision FamV4)) (max_len : nat) (tx : Sender)
    (pt : PeerType) (peer_four_byte : bool) : Sender * bool :=
  let '(withdrawals, groups) := foldl (collect_decision pt peer_four_byte) ([], []) decisions in
  let '(tx, ok) := send_batches (fun b => mkUpdate b [] []) nlri_encoded_len
                     UPDATE_FIXED_OVERHEAD max_len withdrawals [] UPDATE_FIXED_OVERHEAD tx in
  if ok then send_groups max_len groups tx else (tx, false).

(** ** IPv6 *)
Definition send_mp_unreach_v6 (nlris : list (Nlri FamV6)) (tx : Sender) : Sender * bool :=
  try_send tx (mkUpdate [] [PaMpUnreachNlri (mkMpUnreach IPV6_UNICAST (map PfxV6 nlris))] []).
Fixpoint send_withdrawals_v6 (max_len : nat) (nlris batch : list (Nlri FamV6))
    (batch_bytes : nat) (tx : Sender) : Sender * bool :=
  match nlris with
  | [] => match batch with [] => (tx, true) | _ => send_mp_unreach_v6 batch tx end
  | n :: nlris =>
      let nlen := nlri_v6_encoded_len n in
      match batch with
      | _ :: _ =>
          if (max_len <? batch_bytes + 0 + nlen)%nat then
            let '(tx, ok) := send_mp_unreach_v6 batch tx in
            if ok then send_withdrawals_v6 max_len nlris [n]
                         (UPDATE_FIXED_OVERHEAD + (4 + 3) + nlen) tx
            else (tx, false)
          else send_withdrawals_v6 max_len nlris (batch ++ [n]) (batch_bytes + nlen) tx
      | [] => send_withdrawals_v6 max_len nlris [n] (batch_bytes + (4 + 3) + nlen) tx
      end
  end.
(** Push onto the prefix list of the first MP_REACH_NLRI. *)
Fixpoint push_mp_prefix (n : Nlri FamV6) (attrs : list PathAttribute) : list PathAttribute :=
  match attrs with
  | [] => []
  | PaMpReachNlri mp :: attrs =>
      PaMpReachNlri (mkMpReach (mpr_afi_safi mp) (mpr_next_hop mp) (mpr_prefixes mp ++ [PfxV6 n]))
      :: attrs
  | a :: attrs => a :: push_mp_prefix n attrs
  end.
Fixpoint add_to_group_v6 (key : list Z) (attrs : list PathAttribute) (mp_reach : MpReachNlri)
    (n : Nlri FamV6) (groups : list (AnnounceGroup FamV6)) : list (AnnounceGroup FamV6) :=
  match groups with
  | [] => [(key, attrs ++ [PaMpReachNlri mp_reach], [n])]
  | (k, group_attrs, nlris) :: groups =>
      if decide (k = key) then (k, push_mp_prefix n group_attrs, nlris ++ [n]) :: groups
      else (k, group_attrs, nlris) :: add_to_group_v6 key attrs mp_reach n groups
  end.
Definition collect_decision_v6 (pt : PeerType) (peer_four_byte : bool)
    (acc : list (Nlri FamV6) * list (AnnounceGroup FamV6)) (d : PrefixDecision FamV6)
    : list (Nlri FamV6) * list (AnnounceGroup FamV6) :=
  let '(withdrawals, groups) := acc in
  match d with
  | PdWithdraw n => (withdrawals ++ [n], groups)
  | PdAnnounce route =>
      let '(attrs, mp_reach) := route_v6_to_attributes route pt peer_four_byte in
      (withdrawals,
       add_to_group_v6 (encode_attributes attrs) attrs mp_reach (nlri route) groups)
  | PdNoChange => (withdrawals, groups)
  end.
Fixpoint send_groups_v6 (groups : list (AnnounceGroup FamV6)) (tx : Sender) : Sender * bool :=
  match groups with
  | [] => (tx, true)
  | (_, attrs, _) :: groups =>
      let '(tx, ok) := try_send tx (mkUpdate [] attrs []) in
      if ok then send_groups_v6 groups tx else (tx, false)
  end.
Definition flush_updates_v6 (decisions : list (PrefixDecision FamV6)) (max_len : nat) (tx : Sender)
    (pt : PeerType) (peer_four_byte : bool) : Sender * bool :=
  let '(withdrawals, groups) := foldl (collect_decision_v6 pt peer_four_byte) ([], []) decisions in
  let '(tx, ok) := send_withdrawals_v6 max_len withdrawals [] UPDATE_FIXED_OVERHEAD tx in
  if ok then send_groups_v6 groups tx else (tx, false).

Definition send_eor_ipv4 (tx : Sender) : Sender * bool := try_send tx (mkUpdate [] [] []).
Definition send_eor_ipv6 (tx : Sender) : Sender * bool :=
  try_send tx (mkUpdate [] [PaMpUnreachNlri (mkMpUnreach IPV6_UNICAST [])] []).
End Outbound.

Arguments PdAnnounce {P f} r.
Arguments PdWithdraw {P f} n.
Arguments PdNoChange {P f}.
