(* ===== verification/OutboundTheorems.v ===== *)
(** The properties of the outbound pipeline. *)
From Stdlib Require Import ZArith Lia Bool.
From stdpp Require Import base tactics numbers decidable gmap list.
From S2P Require Import Prelude Addr Types AsPath Wire Header Update UpdateFacts UpdateRoundtrip RouteMap Rtr Roa Policy Route DaemonPolicy BestPath LocRib AdjRib Outbound.
Open Scope Z_scope.

(** ** What a peer is told *)
Section Propagation.
Context `{P : IpPrefixOps} {f : Family} {V : Type} {R : RibView f V}.

(** iBGP split horizon of [AdjRibOut::insert] *)
Definition split_horizon (aro : AdjRibOut f) (r : Route f) : bool :=
  negb (aro_reflects aro) && bool_decide (aro_peer_type aro = Internal)
  && bool_decide (peer_type r = Internal).
(** The route as the Adj-RIB-Out stores it. *)
Definition stored (aro : AdjRibOut f) (r : Route f) : Route f :=
  if bool_decide (aro_peer_type aro = External)
  then set_as_path r (Path.strip_confed_segments (as_path r)) else r.
(** What the peer should be told about a prefix: the best route after the
    transforms and the export policy, unless the peer sent it, a well-known
    community forbids it or iBGP split horizon applies. *)
Definition advertised (aro : AdjRibOut f) (prepare : Route f -> Route f) (can_announce : bool)
    (n : Nlri f) (rib : V) (pol : Policy (Route f)) (pt : PeerType) : option (Route f) :=
  match rv_best rib n, can_announce with
  | Some b, true =>
      if decide (rv_best_peer rib n = Some (aro_peer aro)) then None
      else match evaluate pol (prepare b) with
           | (r, DAccept) =>
               if is_export_suppressed (communities (rare_or_default r)) pt
                  || split_horizon aro r then None else Some r
           | _ => None
           end
  | _, _ => None
  end.
Definition update_to (aro : AdjRibOut f) (n : Nlri f) (adv : option (Route f))
    (m : gmap (Nlri f) (Route f)) : gmap (Nlri f) (Route f) :=
  match adv with Some r => <[n := stored aro r]> m | None => delete n m end.
(** The decision that takes the peer from [prev] to [adv]. *)
Definition difference (n : Nlri f) (prev adv : option (Route f)) : PrefixDecision f :=
  match adv, prev with
  | Some r, _ => if decide (prev = Some r) then PdNoChange else PdAnnounce r
  | None, Some _ => PdWithdraw n
  | None, None => PdNoChange
  end.

(** The views, transforms and policies of the program keep the prefix. *)
Definition keeps_prefix (prepare : Route f -> Route f) (n : Nlri f) (rib : V)
    (pol : Policy (Route f)) : Prop :=
  forall b, rv_best rib n = Some b -> nlri (fst (evaluate pol (prepare b))) = n.

Lemma propagate_spec prepare can_announce n rib aro pol pt :
  keeps_prefix prepare n rib pol ->
  let adv := advertised aro prepare can_announce n rib pol pt in
  propagate prepare can_announce n rib aro pol pt false
  = (aro_set_routes aro (update_to aro n adv (aro_routes aro)),
     difference n (aro_routes aro !! n) adv).
Proof.
  intros Hk. cbn zeta. unfold propagate, advertised.
  assert (Hw : withdraw_decision aro n = (aro_set_routes aro (update_to aro n None (aro_routes aro)),
     difference n (aro_routes aro !! n) None)) by done.
  destruct (rv_best rib n) as [b|] eqn:Eb; [|exact Hw]. destruct can_announce; [|exact Hw].
  specialize (Hk b Eb). destruct (decide _) as [_|_]; [exact Hw|].
  destruct (evaluate pol (prepare b)) as [r d]. cbn [fst] in Hk.
  destruct d; [|exact Hw|exact Hw].
  destruct (is_export_suppressed _ pt); [exact Hw|]. cbn [negb orb].
  unfold aro_insert. fold (split_horizon aro r). rewrite Hk.
  destruct (split_horizon aro r).
  - unfold update_to, difference. by destruct (aro_routes aro !! n).
  - unfold update_to, difference, stored.
    destruct (bool_decide _); cbn [set_as_path nlri]; by rewrite Hk.
Qed.

(** *** A history of decisions *)
Record Call := mkCall {
  call_prepare : Route f -> Route f;
  call_can_announce : bool;
  call_nlri : Nlri f;
  call_rib : V;
  call_policy : Policy (Route f);
  call_peer_type : PeerType;
  call_deferred : bool;
}.
Definition call_ok (c : Call) : Prop :=
  keeps_prefix (call_prepare c) (call_nlri c) (call_rib c) (call_policy c).
(** The peer's table, changed as the decisions say. *)
Definition peer_apply (m : gmap (Nlri f) (Route f)) (d : PrefixDecision f)
    : gmap (Nlri f) (Route f) :=
  match d with
  | PdAnnounce r => <[nlri r := r]> m
  | PdWithdraw n => delete n m
  | PdNoChange => m
  end.
Definition call_step (s : AdjRibOut f * gmap (Nlri f) (Route f)) (c : Call)
    : AdjRibOut f * gmap (Nlri f) (Route f) :=
  let '(aro, d) := propagate (call_prepare c) (call_can_announce c) (call_nlri c) (call_rib c)
                     (fst s) (call_policy c) (call_peer_type c) (call_deferred c) in
  (aro, peer_apply (snd s) d).
(** The last decision on each prefix, deferred calls left out. *)
Definition spec_call (aro : AdjRibOut f) (m : gmap (Nlri f) (Route f)) (c : Call)
    : gmap (Nlri f) (Route f) :=
  if call_deferred c then m
  else update_to aro (call_nlri c)
         (advertised aro (call_prepare c) (call_can_announce c) (call_nlri c) (call_rib c)
            (call_policy c) (call_peer_type c)) m.

Lemma stored_idemp aro r : stored aro (stored aro r) = stored aro r.
Proof.
  unfold stored. destruct (bool_decide _); [|done].
  by destruct r; unfold set_as_path; simpl; rewrite strip_confed_idemp.
Qed.
Lemma stored_nlri aro r : nlri (stored aro r) = nlri r.
Proof. unfold stored. by destruct (bool_decide _). Qed.
Lemma advertised_nlri aro prepare can n rib pol pt r : keeps_prefix prepare n rib pol ->
  advertised aro prepare can n rib pol pt = Some r -> nlri r = n.
Proof.
  intros Hk. unfold advertised. destruct (rv_best rib n) as [b|] eqn:Eb; [|done].
  specialize (Hk b Eb). destruct can; [|done]. destruct (decide _); [done|].
  destruct (evaluate pol (prepare b)) as [r' []]; try done.
  destruct (_ || _); [done|]. by intros [= ->].
Qed.

(** The peer's table and the Adj-RIB-Out agree, up to the stored form. *)
Definition in_sync (aro : AdjRibOut f) (peer : gmap (Nlri f) (Route f)) : Prop :=
  forall n, stored aro <$> peer !! n = aro_routes aro !! n.

Lemma sync_step aro peer n adv :
  (forall r, adv = Some r -> nlri r = n) -> in_sync aro peer ->
  in_sync (aro_set_routes aro (update_to aro n adv (aro_routes aro)))
    (peer_apply peer (difference n (aro_routes aro !! n) adv)).
Proof.
  intros Hn Hs m. change (stored (aro_set_routes aro _)) with (stored aro).
  cbn [aro_routes aro_set_routes]. destruct adv as [r|]; unfold difference, update_to.
  - specialize (Hn r eq_refl). destruct (decide _) as [Eprev|_]; cbn [peer_apply].
    + rewrite lookup_insert. destruct (decide (n = m)) as [<-|]; [|apply Hs].
      rewrite Hs, Eprev. f_equal. pose proof (Hs n) as Hn'. rewrite Eprev in Hn'.
      destruct (peer !! n) as [r0|]; [|done]. injection Hn' as <-. by rewrite stored_idemp.
    + rewrite Hn, !lookup_insert. destruct (decide (n = m)); [done|apply Hs].
  - rewrite lookup_delete. destruct (aro_routes aro !! n) as [x|] eqn:E; cbn [peer_apply].
    + rewrite lookup_delete. destruct (decide (n = m)); [done|apply Hs].
    + destruct (decide (n = m)) as [<-|]; [|apply Hs]. by rewrite Hs.
Qed.

Lemma call_step_spec aro peer c : call_ok c -> in_sync aro peer ->
  exists peer', call_step (aro, peer) c
      = (aro_set_routes aro (spec_call aro (aro_routes aro) c), peer')
    /\ in_sync (aro_set_routes aro (spec_call aro (aro_routes aro) c)) peer'.
Proof.
  intros Hk Hs. unfold call_step, spec_call. cbn [fst snd].
  destruct (call_deferred c).
  - exists peer. cbn [propagate peer_apply]. by destruct aro.
  - rewrite propagate_spec by exact Hk. eexists. split; [reflexivity|].
    apply sync_step; [|exact Hs]. intros r. by apply advertised_nlri.
Qed.

Lemma spec_call_routes aro m m' c : spec_call (aro_set_routes aro m) m' c = spec_call aro m' c.
Proof. done. Qed.

Lemma calls_spec calls : forall aro peer, Forall call_ok calls -> in_sync aro peer ->
  exists peer', foldl call_step (aro, peer) calls
      = (aro_set_routes aro (foldl (spec_call aro) (aro_routes aro) calls), peer')
    /\ in_sync (aro_set_routes aro (foldl (spec_call aro) (aro_routes aro) calls)) peer'.
Proof.
  induction calls as [|c calls IH]; intros aro peer Hok Hs; cbn [foldl].
  { exists peer. by destruct aro. }
  apply Forall_cons in Hok as [Hc Hok].
  destruct (call_step_spec aro peer c Hc Hs) as (peer1 & -> & Hs1).
  destruct (IH _ peer1 Hok Hs1) as (peer2 & -> & Hs2). exists peer2. split; [done|exact Hs2].
Qed.
End Propagation.

(** ** What an external peer is sent *)
Section External.
Context `{P : IpPrefixOps} {M : RouteMapOps}.

(** The daemon's export policies only ever set OTC. *)
Lemma export_keeps {f} las x (pol : Policy (Route f)) (r : Route f) : export_ok f las x pol ->
  let r' := fst (evaluate pol r) in
  nlri r' = nlri r /\ as_path r' = as_path r /\ next_hop r' = next_hop r
  /\ local_pref r' = local_pref r
  /\ communities (rare_or_default r') = communities (rare_or_default r).
Proof.
  intros Ho. rewrite (export_eval _ _ _ _ Ho). unfold export_verdict, mark, SetOtc.
  destruct (ps_role x) as [role|]; [|done].
  destruct (is_up_role role && _); [done|]. cbn [fst].
  destruct (is_down_role role); [|done]. destruct (br_otc r); [done|].
  destruct r as [? ? ? ? ? ? ? ? ? [] ?]; done.
Qed.

(** An attribute an external peer may be sent. *)
Definition external_attr (first_as local_next_hop : Z) (a : PathAttribute) : Prop :=
  match a with
  | PaAsPath p => Path.neighboring_as p = Some first_as
      /\ Forall (fun s => Seg.is_confed s = false) p
  | PaAs4Path p => Forall (fun s => Seg.is_confed s = false) p
  | PaNextHop a => a = local_next_hop
  | PaLocalPref _ | PaMed _ | PaOriginatorId _ | PaClusterList _ => False
  | _ => True
  end.

Lemma Forall_opt_attr {A} (Q : PathAttribute -> Prop) (o : option A) mk :
  (forall a, o = Some a -> Q (mk a)) -> Forall Q (opt_attr o mk).
Proof. destruct o; simpl; intros H; flist. by apply H. Qed.
Lemma Forall_list_attr {A} (Q : PathAttribute -> Prop) (l : list A) mk :
  Q (mk l) -> Forall Q (list_attr l mk).
Proof. destruct l; simpl; intros H; flist. Qed.

Lemma downgrade_confed_free p : Forall (fun s => Seg.is_confed s = false) p ->
  Forall (fun s => Seg.is_confed s = false) (fst (Path.downgrade_for_two_byte_peer p)).
Proof.
  intros H. unfold Path.downgrade_for_two_byte_peer. destruct (negb _); [done|]. cbn [fst].
  rewrite Forall_map. eapply Forall_impl; [exact H|]. by intros [].
Qed.
Lemma downgrade_neighboring p a : Path.neighboring_as p = Some a ->
  Path.neighboring_as (fst (Path.downgrade_for_two_byte_peer p)) = Some (Path.downgrade_asn a).
Proof.
  intros H. unfold Path.downgrade_for_two_byte_peer.
  destruct (existsb _ p) eqn:E; cbn [negb fst].
  - clear E. revert H. unfold Path.neighboring_as. induction p as [|s p IH]; simpl; [done|].
    destruct s as [[|x v]|v|v|v]; simpl; try apply IH. by intros [= ->].
  - rewrite H. f_equal. unfold Path.downgrade_asn. destruct (Asn.is_four_byte a) eqn:Ea; [|done].
    exfalso. apply existsb_false_Forall in E. apply find_map_Some in H as (s & Hs & Ha).
    destruct s as [v|v|v|v]; try done. pose proof (proj1 (Forall_forall _ _) E _ Hs) as Hv.
    cbn [Seg.asns] in Hv. apply existsb_false_Forall in Hv.
    destruct v as [|x v]; [done|]. injection Ha as ->. apply Forall_cons in Hv as [Hv _]. congruence.
Qed.

Lemma external_attributes (r : Route FamV4) p a nh (four : bool) :
  as_path r = Path.prepend (Path.strip_confed_segments p) a ->
  next_hop r = Some (NhV4 nh) -> local_pref r = None ->
  Forall (external_attr (if four then a else Path.downgrade_asn a) nh)
    (route_to_attributes r External four).
Proof.
  intros Hp Hn Hl.
  assert (Hfree : Forall (fun s => Seg.is_confed s = false) (as_path r))
    by (rewrite Hp; apply prepend_confed_free, strip_confed_Forall).
  assert (Hnb : Path.neighboring_as (as_path r) = Some a) by (rewrite Hp; apply prepend_neighboring).
  unfold route_to_attributes. destruct (wire_as_paths (as_path r) four) as [w a4] eqn:E.
  assert (Hw : external_attr (if four then a else Path.downgrade_asn a) nh (PaAsPath w)).
  { unfold wire_as_paths in E. destruct four; simpl.
    - injection E as <- _. by split.
    - pose proof (downgrade_neighboring _ _ Hnb) as H1. pose proof (downgrade_confed_free _ Hfree) as H2.
      rewrite E in H1, H2. by split. }
  unfold common_attributes. rewrite Hl, Hn.
  repeat (apply Forall_app_2 || apply Forall_cons_2 || apply Forall_nil_2
    || (apply Forall_opt_attr; intros ? ?) || apply Forall_list_attr); simplify_eq; try done.
  - by destruct (atomic_aggregate _); flist.
  - unfold unknown_attrs_to_path_attributes. rewrite Forall_map. by apply Forall_true.
  - apply strip_confed_Forall.
Qed.

End External.

(** ** Packing *)
Section Packing.
Context `{P : IpPrefixOps} {L : IpPrefixLaws}.

Lemma try_send_spec tx m tx' ok : try_send tx m = (tx', ok) ->
  (ok = true /\ tx_sent tx' = tx_sent tx ++ [m] /\ tx_free tx = S (tx_free tx'))
  \/ (ok = false /\ tx' = tx /\ tx_free tx = O).
Proof.
  unfold try_send. destruct (tx_free tx) as [|k] eqn:E; intros [= <- <-]; [by right|by left].
Qed.

(** The batches sent are a prefix of the NLRIs, all of them unless the channel
    filled up; each is nonempty and within the limit if each NLRI is alone. *)
Lemma send_batches_spec {A} mk (nlen : A -> nat) base max_len nlris :
  forall batch batch_bytes tx tx' ok,
  send_batches mk nlen base max_len nlris batch batch_bytes tx = (tx', ok) ->
  batch_bytes = (base + sum_list_with nlen batch)%nat ->
  exists bs rest, tx_sent tx' = tx_sent tx ++ map mk bs
    /\ tx_free tx = (tx_free tx' + length bs)%nat
    /\ concat bs ++ rest = batch ++ nlris
    /\ Forall (fun b => b <> []) bs
    /\ (ok = true -> rest = []) /\ (ok = false -> rest <> [] /\ tx_free tx' = O)
    /\ ((batch <> [] -> (batch_bytes <= max_len)%nat) ->
        Forall (fun n => (base + nlen n <= max_len)%nat) nlris ->
        Forall (fun b => (base + sum_list_with nlen b <= max_len)%nat) bs).
Proof.
  induction nlris as [|n nlris IH]; intros batch bytes tx tx' ok; cbn [send_batches].
  - intros H ->. destruct batch as [|x batch].
    + injection H as <- <-. exists [], []. simpl. rewrite app_nil_r. split_and!; try done; lia.
    + destruct (try_send_spec _ _ _ _ H) as [(-> & Es & Ef)|(-> & -> & Ef)].
      * exists [x :: batch], []. simpl. rewrite !app_nil_r.
        split_and!; [done|lia|done|by flist|done|done|]. intros Hb _. flist. by apply Hb.
      * exists [], (x :: batch). simpl. rewrite !app_nil_r.
        split_and!; [done|lia|done|constructor|done|done|constructor].
  - intros H ->. destruct batch as [|x batch].
    + destruct (IH [n] _ _ _ _ H) as (bs & rest & ? & ? & ? & ? & ? & ? & Hsz); [simpl; lia|].
      exists bs, rest. split_and!; [done..|]. intros _ Hf. apply Forall_cons in Hf as [Hn Hf].
      apply Hsz; [|done]. simpl. lia.
    + destruct (Nat.ltb_spec max_len (base + sum_list_with nlen (x :: batch) + nlen n)).
      * destruct (try_send tx (mk (x :: batch))) as [tx1 ok1] eqn:Et.
        destruct (try_send_spec _ _ _ _ Et) as [(-> & Es & Ef)|(-> & -> & Ef)].
        -- destruct (IH [n] _ _ _ _ H) as (bs & rest & E1 & E2 & E3 & E4 & E5 & E6 & Hsz);
             [simpl; lia|].
           exists ((x :: batch) :: bs), rest. split_and!.
           ++ rewrite E1, Es. by rewrite <- app_assoc.
           ++ simpl. lia.
           ++ cbn [concat]. rewrite <- app_assoc, E3. done.
           ++ by flist.
           ++ done.
           ++ done.
           ++ intros Hb Hf. apply Forall_cons in Hf as [Hn Hf]. flist; [by apply Hb|].
              apply Hsz; [simpl; lia|done].
        -- injection H as <- <-. exists [], ((x :: batch) ++ n :: nlris).
           split_and!; [by rewrite app_nil_r|simpl; lia|done|constructor|done|done|constructor].
      * destruct (IH _ _ _ _ _ H) as (bs & rest & E1 & E2 & E3 & E4 & E5 & E6 & Hsz).
        { rewrite sum_list_with_app. simpl. lia. }
        exists bs, rest. split_and!; [done|done| |done..|].
        -- rewrite E3, <- app_assoc. done.
        -- intros _ Hf. apply Forall_cons in Hf as [_ Hf]. apply Hsz; [|done]. intros _. lia.
Qed.

(** *** Groups *)
Definition flat {f} (groups : list (AnnounceGroup f)) : list (list Z * Nlri f) :=
  concat (map (fun g => map (pair (fst (fst g))) (snd g)) groups).
Definition groups_ok {f} (groups : list (AnnounceGroup f)) : Prop :=
  Forall (fun g => fst (fst g) = encode_attributes (snd (fst g))) groups.

Lemma add_to_group_flat attrs n groups : groups_ok groups ->
  groups_ok (add_to_group (encode_attributes attrs) attrs n groups)
  /\ flat (add_to_group (encode_attributes attrs) attrs n groups)
     ≡ₚ flat groups ++ [(encode_attributes attrs, n)].
Proof.
  unfold groups_ok, flat. induction groups as [|[[k a] ns] gs IH]; intros Hok; cbn [add_to_group].
  { split; [by flist|done]. }
  apply Forall_cons in Hok as [Hk Hok]. destruct (decide _) as [->|_].
  - split; [by flist|]. cbn [map concat fst snd]. rewrite map_app. simpl.
    rewrite <- !app_assoc. apply Permutation_app_head, Permutation_app_comm.
  - destruct (IH Hok) as [H1 H2]. split; [by flist|]. cbn [map concat fst snd].
    rewrite H2. by rewrite app_assoc.
Qed.

(** *** What a batch of decisions asks for *)
Definition withdrawals {f} (ds : list (PrefixDecision f)) : list (Nlri f) :=
  omap (fun d => match d with PdWithdraw n => Some n | _ => None end) ds.
Definition announcements (pt : PeerType) (four : bool) (ds : list (PrefixDecision FamV4))
    : list (list Z * Nlri FamV4) :=
  omap (fun d => match d with
    | PdAnnounce r => Some (encode_attributes (route_to_attributes r pt four), nlri r)
    | _ => None end) ds.
(** The decision fits in a message of its own. *)
Definition decision_fits (pt : PeerType) (four : bool) (max_len : nat) (d : PrefixDecision FamV4)
    : Prop :=
  match d with
  | PdWithdraw n => (UPDATE_FIXED_OVERHEAD + nlri_encoded_len n <= max_len)%nat
  | PdAnnounce r =>
      (UPDATE_FIXED_OVERHEAD + length (encode_attributes (route_to_attributes r pt four))
       + nlri_encoded_len (nlri r) <= max_len)%nat
  | PdNoChange => True
  end.
(** The announcements of a message: attribute bytes and NLRI. *)
Definition announces (m : UpdateMessage) : list (list Z * Nlri FamV4) :=
  map (pair (encode_attributes (attributes m))) (Update.announced m).

Lemma collect_spec pt four ds : forall ws groups ws' groups',
  groups_ok groups ->
  foldl (collect_decision pt four) (ws, groups) ds = (ws', groups') ->
  ws' = ws ++ withdrawals ds /\ groups_ok groups'
  /\ flat groups' ≡ₚ flat groups ++ announcements pt four ds.
Proof.
  induction ds as [|d ds IH]; intros ws groups ws' groups' Hok; cbn [foldl].
  { intros [= <- <-]. by rewrite !app_nil_r. }
  destruct d as [r|n|]; cbn [collect_decision].
  - intros H. destruct (add_to_group_flat (route_to_attributes r pt four) (nlri r) groups Hok)
      as [Hok1 Hf1]. destruct (IH _ _ _ _ Hok1 H) as (-> & Hok' & Hf). split_and!; [done|done|].
    rewrite Hf, Hf1. simpl. by rewrite <- app_assoc.
  - intros H. destruct (IH _ _ _ _ Hok H) as (-> & Hok' & Hf). simpl. by rewrite <- app_assoc.
  - apply IH, Hok.
Qed.

Lemma nlri_encoded_len_spec (n : Nlri FamV4) : length (encode_nlri n) = nlri_encoded_len n.
Proof.
  unfold encode_nlri, nlri_encoded_len. rewrite length_app, length_take, be_bytes_length. simpl.
  pose proof (byte_count_le FamV4 (prefix_len n) (prefix_mask_ok FamV4 (nlri_prefix n))).
  simpl in *. lia.
Qed.
Lemma encode_nlri_list_length (l : list (Nlri FamV4)) :
  length (encode_nlri_list l) = sum_list_with nlri_encoded_len l.
Proof.
  unfold encode_nlri_list. induction l as [|n l IH]; [done|]. cbn [map concat].
  by rewrite length_app, IH, nlri_encoded_len_spec.
Qed.
Lemma update_encode_length u :
  length (update_encode u)
  = (UPDATE_FIXED_OVERHEAD + sum_list_with nlri_encoded_len (withdrawn u)
     + length (encode_attributes (attributes u))
     + sum_list_with nlri_encoded_len (Update.announced u))%nat.
Proof.
  unfold update_encode. rewrite encode_framed_length. unfold update_encode_body.
  rewrite !length_app, !u16_be_length. unfold encode_nlri_list_v4.
  rewrite !encode_nlri_list_length. unfold UPDATE_FIXED_OVERHEAD, encode_attributes, HEADER_LEN. lia.
Qed.

(** *** Sending the groups *)
Definition group_fits (max_len : nat) (g : AnnounceGroup FamV4) : Prop :=
  Forall (fun n => (UPDATE_FIXED_OVERHEAD + length (fst (fst g)) + nlri_encoded_len n <= max_len)%nat)
    (snd g).

Lemma announces_batches attrs bs :
  concat (map announces (map (fun b => mkUpdate [] attrs b) bs))
  = map (pair (encode_attributes attrs)) (concat bs).
Proof. induction bs as [|b bs IH]; [done|]. simpl. by rewrite IH, map_app. Qed.

Lemma send_groups_spec max_len groups : forall tx tx' ok, groups_ok groups ->
  send_groups max_len groups tx = (tx', ok) ->
  exists ms rest, tx_sent tx' = tx_sent tx ++ ms
    /\ tx_free tx = (tx_free tx' + length ms)%nat
    /\ concat (map announces ms) ++ rest = flat groups
    /\ Forall (fun m => withdrawn m = [] /\ Update.announced m <> []) ms
    /\ (ok = true -> rest = []) /\ (ok = false -> rest <> [] /\ tx_free tx' = O)
    /\ (Forall (group_fits max_len) groups ->
        Forall (fun m => (length (update_encode m) <= max_len)%nat) ms).
Proof.
  induction groups as [|[[k attrs] ns] groups IH]; intros tx tx' ok Hok; cbn [send_groups].
  { intros [= <- <-]. exists [], []. rewrite app_nil_r. split_and!; try done; simpl; lia. }
  apply Forall_cons in Hok as [Hk Hok]. cbn [fst snd] in Hk.
  destruct (send_batches _ _ _ _ _ _ _ _) as [tx1 ok1] eqn:E1. intros H.
  destruct (send_batches_spec _ _ _ _ _ _ _ _ _ _ E1) as (bs & rest & Es & Ef & Ec & Hne & Hr1 & Hr2 & Hsz);
    [simpl; lia|]. cbn [app] in Ec.
  assert (Hms : Forall (fun m => withdrawn m = [] /\ Update.announced m <> [])
    (map (fun b => mkUpdate [] attrs b) bs)).
  { rewrite Forall_map. eapply Forall_impl; [exact Hne|]. done. }
  assert (Hms2 : Forall (group_fits max_len) ((k, attrs, ns) :: groups) ->
    Forall (fun m => (length (update_encode m) <= max_len)%nat)
      (map (fun b => mkUpdate [] attrs b) bs)).
  { intros [Hg _]%Forall_cons. rewrite Forall_map. eapply Forall_impl; [apply Hsz; [done|exact Hg]|].
    intros b Hb. rewrite update_encode_length.
    cbn [withdrawn attributes Update.announced sum_list_with]. rewrite <- Hk. cbn beta in Hb. lia. }
  unfold flat. cbn [map concat fst snd]. fold (flat groups).
  destruct ok1; [|injection H as <- <-].
  - rewrite (Hr1 eq_refl), app_nil_r in Ec. subst ns.
    destruct (IH tx1 tx' ok Hok H) as (ms & rest' & Es' & Ef' & Ec' & Hms' & Hr1' & Hr2' & Hsz').
    exists (map (fun b => mkUpdate [] attrs b) bs ++ ms), rest'. split_and!; [| | | |done|done|].
    + by rewrite Es', Es, app_assoc.
    + rewrite length_app, length_map. lia.
    + rewrite map_app, concat_app, announces_batches, <- app_assoc, Ec'. by rewrite <- Hk.
    + by apply Forall_app_2.
    + intros Hg. apply Forall_app_2; [by apply Hms2|]. apply Forall_cons in Hg as [_ Hg]. by apply Hsz'.
  - destruct (Hr2 eq_refl) as [Hne' Hz]. exists (map (fun b => mkUpdate [] attrs b) bs),
      (map (pair k) rest ++ flat groups). split_and!; [done| | |done|done| |by intros; apply Hms2].
    + by rewrite length_map.
    + rewrite announces_batches, <- Hk, app_assoc, <- map_app. by rewrite Ec.
    + intros _. split; [|done]. by destruct rest.
Qed.
End Packing.

Section Claims.
Context `{P : IpPrefixOps}.

(** C17: whatever the RIB, the policies and the deferral were at each call, the
    Adj-RIB-Out of a peer holds for each prefix what the last call that was not
    deferred should advertise, and a peer that follows the decisions holds the
    same routes (an external peer's without confederation segments). *)
Theorem outbound_in_sync {f V} {R : RibView f V} (calls : list (Call (f:=f) (V:=V))) aro0 :
  aro_routes aro0 = ∅ -> Forall call_ok calls ->
  exists aro told, foldl call_step (aro0, ∅) calls = (aro, told)
    /\ forall n, aro_routes aro !! n = foldl (spec_call aro0) ∅ calls !! n
         /\ stored aro0 <$> told !! n = aro_routes aro !! n.
Proof.
  intros H0 Hok. destruct (calls_spec calls aro0 ∅ Hok) as (told & E & Hs).
  { intros n. by rewrite H0, !lookup_empty. }
  rewrite H0 in *. eexists _, told. split; [exact E|]. intros n. split; [done|apply Hs].
Qed.

Lemma groups_fit max_len (groups : list (AnnounceGroup FamV4)) :
  Forall (fun x => (UPDATE_FIXED_OVERHEAD + length (fst x) + nlri_encoded_len (snd x) <= max_len)%nat)
    (flat groups) ->
  Forall (group_fits max_len) groups.
Proof.
  unfold flat. induction groups as [|[[k a] ns] gs IH]; [constructor|]. cbn [map concat fst snd].
  intros [H1 H2]%Forall_app. constructor; [|by apply IH]. by rewrite Forall_map in H1.
Qed.

Lemma decisions_fit pt four max_len ds : Forall (decision_fits pt four max_len) ds ->
  Forall (fun n => (UPDATE_FIXED_OVERHEAD + nlri_encoded_len n <= max_len)%nat) (withdrawals ds)
  /\ Forall (fun x => (UPDATE_FIXED_OVERHEAD + length (fst x) + nlri_encoded_len (snd x) <= max_len)%nat)
       (announcements pt four ds).
Proof.
  induction 1 as [|d ds Hd _ [IH1 IH2]]; [by split|].
  destruct d; simpl; (split; [|]); try done; by constructor.
Qed.
Lemma decisions_count pt four ds :
  (length (withdrawals ds) + length (announcements pt four ds) <= length ds)%nat.
Proof. induction ds as [|[] ds IH]; simpl; lia. Qed.
Lemma concat_nonempty_length {A B} (g : A -> list B) l : Forall (fun x => g x <> []) l ->
  (length l <= length (concat (map g l)))%nat.
Proof.
  induction 1 as [|x l Hx _ IH]; [done|]. simpl. rewrite length_app. destruct (g x); [done|].
  simpl. lia.
Qed.
Lemma withdrawn_batches (bs : list (list (Nlri FamV4))) :
  concat (map withdrawn (map (fun b => mkUpdate b [] []) bs)) = concat bs.
Proof. induction bs as [|b bs IH]; [done|]. simpl. by rewrite IH. Qed.

Lemma flush_withdrawals ws max_len tx tx' ok {L : IpPrefixLaws} :
  send_batches (fun b => mkUpdate b [] []) nlri_encoded_len UPDATE_FIXED_OVERHEAD max_len ws []
    UPDATE_FIXED_OVERHEAD tx = (tx', ok) ->
  exists ms rest, tx_sent tx' = tx_sent tx ++ ms
    /\ tx_free tx = (tx_free tx' + length ms)%nat
    /\ concat (map withdrawn ms) ++ rest = ws
    /\ Forall (fun m => withdrawn m <> [] /\ attributes m = [] /\ Update.announced m = []) ms
    /\ (ok = true -> rest = []) /\ (ok = false -> rest <> [] /\ tx_free tx' = O)
    /\ (Forall (fun n => (UPDATE_FIXED_OVERHEAD + nlri_encoded_len n <= max_len)%nat) ws ->
        Forall (fun m => (length (update_encode m) <= max_len)%nat) ms).
Proof.
  intros E. destruct (send_batches_spec _ _ _ _ _ _ _ _ _ _ E)
    as (bs & rest & Es & Ef & Ec & Hne & Hr1 & Hr2 & Hsz); [done|].
  exists (map (fun b => mkUpdate b [] []) bs), rest. split_and!; [done| | | |done|done|].
  - by rewrite length_map.
  - by rewrite withdrawn_batches, Ec.
  - rewrite Forall_map. eapply Forall_impl; [exact Hne|]. done.
  - intros Hf. rewrite Forall_map. eapply Forall_impl; [by apply Hsz|].
    intros b Hb. rewrite update_encode_length. cbn [withdrawn attributes Update.announced sum_list_with].
    change (encode_attributes []) with (@nil Z). cbn [length]. cbn beta in Hb. lia.
Qed.

(** With room in the channel a batch of decisions is sent completely: first
    every withdrawal, in order, then every announcement exactly once with the
    attribute bytes of its route; no message is empty (it would mean End-of-RIB)
    or longer than the limit if each decision fits in a message of its own; and
    only a full channel makes the flush fail. *)
Theorem flush_updates_complete {L : IpPrefixLaws} ds max_len tx pt four :
  exists tx' ok ws ms, flush_updates ds max_len tx pt four = (tx', ok)
    /\ tx_sent tx' = tx_sent tx ++ ws ++ ms
    /\ Forall (fun m => withdrawn m <> [] /\ attributes m = [] /\ Update.announced m = []) ws
    /\ Forall (fun m => withdrawn m = [] /\ Update.announced m <> []) ms
    /\ (ok = true -> concat (map withdrawn ws) = withdrawals ds
          /\ concat (map announces ms) ≡ₚ announcements pt four ds)
    /\ (ok = false -> tx_free tx' = O)
    /\ ((length ds <= tx_free tx)%nat -> ok = true)
    /\ (Forall (decision_fits pt four max_len) ds ->
        Forall (fun m => (length (update_encode m) <= max_len)%nat) (ws ++ ms)).
Proof.
  unfold flush_updates.
  destruct (foldl (collect_decision pt four) ([], []) ds) as [wds groups] eqn:Ec.
  destruct (collect_spec pt four ds [] [] wds groups) as (-> & Hg & Hf); [constructor|done|].
  cbn [app flat] in *. change (flat []) with (@nil (list Z * Nlri FamV4)) in Hf. cbn [app] in Hf.
  destruct (send_batches _ _ _ _ _ _ _ _) as [tx1 ok1] eqn:Ew.
  destruct (flush_withdrawals _ _ _ _ _ Ew) as (ws & rest & Es & Efr & Ecw & Hws & Hr1 & Hr2 & Hsz).
  assert (Hlw : (length ws + length rest <= length (withdrawals ds))%nat).
  { rewrite <- Ecw, length_app. enough (length ws <= length (concat (map withdrawn ws)))%nat by lia.
    apply concat_nonempty_length. eapply Forall_impl; [exact Hws|naive_solver]. }
  pose proof (decisions_count pt four ds) as Hcount.
  destruct ok1.
  - destruct (send_groups max_len groups tx1) as [tx2 ok2] eqn:Eg.
    destruct (send_groups_spec _ _ _ _ _ Hg Eg) as (ms & rest' & Es' & Ef' & Ec' & Hms & Hr1' & Hr2' & Hsz').
    assert (Hlm : (length ms + length rest' <= length (announcements pt four ds))%nat).
    { rewrite <- (Permutation_length Hf), <- Ec', length_app.
      enough (length ms <= length (concat (map announces ms)))%nat by lia.
      apply concat_nonempty_length. eapply Forall_impl; [exact Hms|].
      intros m [_ Hm]. unfold announces. by destruct (Update.announced m). }
    exists tx2, ok2, ws, ms. rewrite (Hr1 eq_refl), app_nil_r in Ecw.
    split_and!; [done|by rewrite Es', Es, app_assoc|done|done| | | |].
    + intros ->. split; [done|]. rewrite (Hr1' eq_refl), app_nil_r in Ec'. by rewrite Ec'.
    + intros ->. by destruct (Hr2' eq_refl).
    + intros Hroom. destruct ok2; [done|]. destruct (Hr2' eq_refl) as [Hne Hz].
      destruct rest'; [done|]. simpl in Hlm. lia.
    + intros [H1 H2]%decisions_fit. apply Forall_app_2; [by apply Hsz|]. apply Hsz', groups_fit.
      by rewrite Hf.
  - destruct (Hr2 eq_refl) as [Hne Hz]. exists tx1, false, ws, [].
    split_and!; [done|by rewrite app_nil_r|done|constructor|done|done| |].
    + intros Hroom. destruct rest; [done|]. simpl in Hlw. lia.
    + intros [H1 H2]%decisions_fit. rewrite app_nil_r. by apply Hsz.
Qed.

(** *** IPv6 *)
Lemma push_mp_prefix_last n attrs mp :
  Forall (fun a => match a with PaMpReachNlri _ => False | _ => True end) attrs ->
  push_mp_prefix n (attrs ++ [PaMpReachNlri mp])
  = attrs ++ [PaMpReachNlri (mkMpReach (mpr_afi_safi mp) (mpr_next_hop mp) (mpr_prefixes mp ++ [PfxV6 n]))].
Proof.
  induction 1 as [|a attrs Ha _ IH]; [done|]. cbn [app push_mp_prefix]. rewrite IH. by destruct a.
Qed.
Lemma v6_attributes_no_mp r pt four :
  Forall (fun a => match a with PaMpReachNlri _ => False | _ => True end)
    (fst (route_v6_to_attributes r pt four)).
Proof.
  unfold route_v6_to_attributes. destruct (wire_as_paths _ _) as [w a4]. cbn [fst].
  unfold common_attributes, unknown_attrs_to_path_attributes.
  destruct (bool_decide _), pt, (atomic_aggregate _);
    repeat (apply Forall_app_2 || apply Forall_cons_2 || apply Forall_nil_2
      || (apply Forall_opt_attr; intros ? ?) || apply Forall_list_attr); try done;
    rewrite Forall_map; by apply Forall_true.
Qed.

(** Routes with the same attributes make one message, with the next hop of the
    first. *)
Lemma flush_v6_one_group r0 rs pt four max_len tx :
  Forall (fun r => fst (route_v6_to_attributes r pt four)
                   = fst (route_v6_to_attributes r0 pt four)) rs ->
  flush_updates_v6 (map PdAnnounce (r0 :: rs)) max_len tx pt four
  = try_send tx (mkUpdate [] (fst (route_v6_to_attributes r0 pt four)
      ++ [PaMpReachNlri (mkMpReach IPV6_UNICAST (default (NhV6 0) (next_hop r0))
            (map (fun r => PfxV6 (nlri r)) (r0 :: rs)))]) []).
Proof.
  intros Hs. unfold flush_updates_v6. cbn [map foldl collect_decision_v6].
  pose proof (v6_attributes_no_mp r0 pt four) as Hno.
  assert (Hmp : snd (route_v6_to_attributes r0 pt four)
    = mkMpReach IPV6_UNICAST (default (NhV6 0) (next_hop r0)) [PfxV6 (nlri r0)]).
  { unfold route_v6_to_attributes. by destruct (wire_as_paths _ _). }
  destruct (route_v6_to_attributes r0 pt four) as [attrs mp]. cbn [fst snd] in *. subst mp.
  cbn [add_to_group_v6].
  assert (Hfold : forall pfx ns, foldl (collect_decision_v6 pt four)
      ([], [(encode_attributes attrs,
             attrs ++ [PaMpReachNlri (mkMpReach IPV6_UNICAST (default (NhV6 0) (next_hop r0)) pfx)], ns)])
      (map PdAnnounce rs)
    = ([], [(encode_attributes attrs,
             attrs ++ [PaMpReachNlri (mkMpReach IPV6_UNICAST (default (NhV6 0) (next_hop r0))
               (pfx ++ map (fun r => PfxV6 (nlri r)) rs))], ns ++ map nlri rs)])).
  { induction Hs as [|r rs Hr _ IH]; intros pfx ns; [by rewrite !app_nil_r|].
    cbn [map foldl collect_decision_v6].
    destruct (route_v6_to_attributes r pt four) as [attrs' mp']. cbn [fst] in Hr. subst attrs'.
    cbn [add_to_group_v6]. rewrite decide_True by done.
    rewrite push_mp_prefix_last by exact Hno. cbn [mpr_afi_safi mpr_next_hop mpr_prefixes].
    rewrite IH, <- !app_assoc. done. }
  rewrite Hfold. cbn [send_withdrawals_v6 send_groups_v6 app].
  by destruct (try_send tx _) as [tx' []].
Qed.

Lemma mp_message_length w attrs a nh pfxs ns :
  (length pfxs <= length (update_encode
     (mkUpdate w (attrs ++ [PaMpReachNlri (mkMpReach a nh (map PfxV6 pfxs))]) ns)))%nat.
Proof.
  unfold update_encode. rewrite encode_framed_length. unfold update_encode_body.
  cbn [attributes]. rewrite !length_app. unfold encode_path_attributes.
  rewrite map_app, concat_app, length_app. cbn [map concat]. rewrite app_nil_r.
  unfold encode_one_path_attr. cbn [encode_attr_value mpr_prefixes]. cbv zeta.
  set (value := u16_be _ ++ _). assert (Hv : (length pfxs <= length value)%nat).
  { unfold value. rewrite !length_app. cbn [mpr_prefixes].
    assert (Hc : (length pfxs <= length (concat (map encode_prefix (map PfxV6 pfxs))))%nat).
    { clear. induction pfxs as [|p l IH]; [done|]. cbn [map concat encode_prefix].
      unfold encode_nlri_v6, encode_nlri. rewrite !length_app. simpl. lia. }
    lia. }
  rewrite !length_app. lia.
Qed.

(** IPv6 announcements with the same attributes are never split: whatever the
    limit, enough of them make one message that exceeds it. *)
Theorem flush_v6_oversized r0 rs pt four max_len tx :
  Forall (fun r => fst (route_v6_to_attributes r pt four)
                   = fst (route_v6_to_attributes r0 pt four)) rs ->
  tx_free tx <> O -> (max_len <= length rs)%nat ->
  exists tx' m, flush_updates_v6 (map PdAnnounce (r0 :: rs)) max_len tx pt four = (tx', true)
    /\ tx_sent tx' = tx_sent tx ++ [m]
    /\ (max_len < length (update_encode m))%nat.
Proof.
  intros Hs Hf Hl. rewrite flush_v6_one_group by exact Hs. unfold try_send.
  destruct (tx_free tx) as [|k]; [done|]. eexists _, _. split; [done|]. split; [done|].
  assert (Hm : map (fun r => PfxV6 (nlri r)) (r0 :: rs) = map PfxV6 (map nlri (r0 :: rs)))
    by (by rewrite map_map). rewrite Hm.
  eapply Nat.lt_le_trans; [|apply mp_message_length]. rewrite length_map. simpl. lia.
Qed.

(** IPv6 announcements are grouped without regard to the next hop: of two
    routes with the same other attributes, the second is sent with the next hop
    of the first, and its own next hop is not sent at all. *)
Theorem flush_v6_wrong_next_hop r1 r2 nh1 nh2 pt four max_len tx :
  fst (route_v6_to_attributes r2 pt four) = fst (route_v6_to_attributes r1 pt four) ->
  next_hop r1 = Some nh1 -> next_hop r2 = Some nh2 -> nh1 <> nh2 -> tx_free tx <> O ->
  exists tx', flush_updates_v6 [PdAnnounce r1; PdAnnounce r2] max_len tx pt four = (tx', true)
    /\ tx_sent tx' = tx_sent tx
         ++ [mkUpdate [] (fst (route_v6_to_attributes r1 pt four)
               ++ [PaMpReachNlri (mkMpReach IPV6_UNICAST nh1 [PfxV6 (nlri r1); PfxV6 (nlri r2)])]) []].
Proof.
  intros Hs H1 H2 _ Hf.
  rewrite (flush_v6_one_group r1 [r2]) by (by flist). rewrite H1. unfold try_send.
  destruct (tx_free tx) as [|k]; [done|]. eexists. split; done.
Qed.
End Claims.

(** ** Witnesses *)
Section Applied.
#[local] Existing Instances ModelPrefix.ops ModelPrefix.laws ModelRouteMap.ops ModelRouteMap.laws.

(** A RIB of one route, learned from 10.0.0.9. *)
#[local] Instance one_route_view {f} : RibView f (Route f) :=
  {| rv_best r n := if decide (nlri r = n) then Some r else None;
     rv_best_peer _ _ := Some (IpV4 167772169) |}.
Definition out_route : Route FamV4 :=
  builder_new 0 (ModelPrefix.nlri FamV4 167772160 8 eq_refl) Igp (Path.from_sequence [65010]).
Definition out_policy : Policy (Route FamV4) := policy_new DefAccept.
Definition out_peer : PeerConfig :=
  mkPeerConfig (IpV4 3) 65030 None None (Some DefAccept) false false false None
    None None None None None 179 None None.
Definition out_call : Call (f:=FamV4) (V:=Route FamV4) :=
  mkCall (fun r => prepare_outbound r External 65001 65001 1 false) true (nlri out_route)
    out_route out_policy External false.

Lemma outbound_in_sync_witness : exists aro told,
  foldl call_step (aro_new (IpV4 3) External, ∅) [out_call] = (aro, told)
  /\ aro_routes aro !! nlri out_route
     = Some (prepare_outbound out_route External 65001 65001 1 false).
Proof.
  destruct (outbound_in_sync [out_call] (aro_new (IpV4 3) External)) as (aro & told & E & H).
  - reflexivity.
  - constructor; [|constructor]. intros b. unfold out_call, call_rib, call_nlri. simpl.
    by intros [= <-].
  - exists aro, told. split; [exact E|]. rewrite (proj1 (H _)). apply lookup_insert_eq.
Defined.


Lemma flush_updates_complete_witness : exists tx' ok ws ms,
  flush_updates [PdAnnounce out_route] 4096 (mkSender 1 []) Internal true = (tx', ok)
  /\ tx_sent tx' = ws ++ ms /\ ok = true.
Proof.
  destruct (flush_updates_complete [PdAnnounce out_route] 4096 (mkSender 1 []) Internal true)
    as (tx' & ok & ws & ms & E & Hs & _ & _ & _ & _ & Hok & _).
  exists tx', ok, ws, ms. split; [exact E|]. split; [exact Hs|]. apply Hok. simpl. lia.
Defined.

Definition v6_route (nh : Z) : Route FamV6 :=
  b_next_hop (builder_new 0 (ModelPrefix.nlri FamV6 0 8 eq_refl) Igp (Path.from_sequence [65010]))
    (NhV6 nh).

Lemma flush_v6_oversized_witness : exists tx' m,
  flush_updates_v6 (map PdAnnounce (v6_route 1 :: replicate 4096 (v6_route 1)))
    4096 (mkSender 1 []) Internal true = (tx', true)
  /\ tx_sent tx' = [m] /\ (4096 < length (update_encode m))%nat.
Proof.
  apply (flush_v6_oversized (v6_route 1) (replicate 4096 (v6_route 1)) Internal true
    4096 (mkSender 1 [])).
  - apply Forall_replicate. reflexivity.
  - discriminate.
  - by rewrite length_replicate.
Defined.

Lemma flush_v6_wrong_next_hop_witness : exists tx',
  flush_updates_v6 [PdAnnounce (v6_route 1); PdAnnounce (v6_route 2)] 4096 (mkSender 1 [])
    Internal true = (tx', true)
  /\ tx_sent tx' = [mkUpdate [] (fst (route_v6_to_attributes (v6_route 1) Internal true)
       ++ [PaMpReachNlri (mkMpReach IPV6_UNICAST (NhV6 1)
             [PfxV6 (nlri (v6_route 1)); PfxV6 (nlri (v6_route 2))])]) []].
Proof.
  apply (flush_v6_wrong_next_hop (v6_route 1) (v6_route 2) (NhV6 1) (NhV6 2) Internal true 4096
    (mkSender 1 [])); [reflexivity|reflexivity|reflexivity|discriminate|discriminate].
Defined.
End Applied.
