(* ===== verification/Deferral.v ===== *)
(** The Selection_Deferral_Timer of a restarting speaker
    ([pathvectord/src/daemon/deferral.rs]): when the advertisement of each
    address family is released.

    An [Instant] is a number of nanoseconds. *)
From Stdlib Require Import ZArith Lia Bool.
From stdpp Require Import base tactics numbers decidable gmap list.
From S2P Require Import Prelude Addr Types.
Open Scope Z_scope.

Definition Instant : Type := Z.
(** [Duration::from_secs] *)
Definition from_secs (n : Z) : Z := n * 1000000000.

Record SelectionDeferral := mkDeferral {
  sd_deadline : option Instant;
  v4_released : bool;
  v6_released : bool;
}.

Definition sd_disabled : SelectionDeferral := mkDeferral None true true.
Definition sd_new (daemon_start : Instant) (deferral_secs : Z) : SelectionDeferral :=
  if deferral_secs =? 0 then sd_disabled
  else mkDeferral (Some (daemon_start + from_secs deferral_secs)) false false.
Definition pending_deadline (sd : SelectionDeferral) : option Instant :=
  if v4_released sd && v6_released sd then None else sd_deadline sd.
Definition v4_deferred (sd : SelectionDeferral) : bool := negb (v4_released sd).
Definition v6_deferred (sd : SelectionDeferral) : bool := negb (v6_released sd).

(** The sets [recompute] is given besides the configured peers. *)
Record GrView := mkGrView {
  gv_peer_types : gmap IpAddr PeerType;
  gv_gr_advertised_peers : gset IpAddr;
  gv_gr_peer_restarting : gset IpAddr;
  gv_ipv6_capable_peers : gset IpAddr;
  gv_eor_received : gset IpAddr;
  gv_eor_received_v6 : gset IpAddr;
}.

Definition family_blocks (v : GrView) (peer_ip : IpAddr) (is_v6 : bool) : bool :=
  match gv_peer_types v !! peer_ip with
  | None => true
  | Some _ =>
      if is_v6 && negb (bool_decide (peer_ip ∈ gv_ipv6_capable_peers v)) then false
      else if negb (bool_decide (peer_ip ∈ gv_gr_advertised_peers v)) then false
      else if bool_decide (peer_ip ∈ gv_gr_peer_restarting v) then false
      else negb (bool_decide (peer_ip ∈ (if is_v6 then gv_eor_received_v6 v else gv_eor_received v)))
  end.

(** The loop over the configured peers, which stops once both families are
    blocked. *)
Fixpoint blocked_by (v : GrView) (peers : list IpAddr) (v4_blocked v6_blocked : bool) : bool * bool :=
  match peers with
  | [] => (v4_blocked, v6_blocked)
  | peer_ip :: peers =>
      let v4_blocked := if negb v4_blocked && family_blocks v peer_ip false then true else v4_blocked in
      let v6_blocked := if negb v6_blocked && family_blocks v peer_ip true then true else v6_blocked in
      if v4_blocked && v6_blocked then (v4_blocked, v6_blocked)
      else blocked_by v peers v4_blocked v6_blocked
  end.
Definition sd_recompute (sd : SelectionDeferral) (configured_peers : list IpAddr) (v : GrView)
    : SelectionDeferral * (bool * bool) :=
  if v4_released sd && v6_released sd then (sd, (false, false))
  else
    let '(v4_blocked, v6_blocked) := blocked_by v configured_peers (v4_released sd) (v6_released sd) in
    let v4_transitioned := negb (v4_released sd) && negb v4_blocked in
    let v6_transitioned := negb (v6_released sd) && negb v6_blocked in
    (mkDeferral (sd_deadline sd) (if v4_transitioned then true else v4_released sd)
       (if v6_transitioned then true else v6_released sd),
     (v4_transitioned, v6_transitioned)).
Definition force_release (sd : SelectionDeferral) : SelectionDeferral * (bool * bool) :=
  (mkDeferral (sd_deadline sd) true true, (negb (v4_released sd), negb (v6_released sd))).

(** ** The wait-set *)

(** RFC 4724 4.1: a peer whose End-of-RIB marker is awaited in the family. *)
Definition awaited (v : GrView) (is_v6 : bool) (ip : IpAddr) : Prop :=
  gv_peer_types v !! ip = None
  \/ ip ∈ gv_gr_advertised_peers v /\ ip ∉ gv_gr_peer_restarting v
     /\ (is_v6 = true -> ip ∈ gv_ipv6_capable_peers v)
     /\ ip ∉ (if is_v6 then gv_eor_received_v6 v else gv_eor_received v).

Lemma family_blocks_spec v ip is_v6 : family_blocks v ip is_v6 = true <-> awaited v is_v6 ip.
Proof.
  unfold family_blocks, awaited. destruct (gv_peer_types v !! ip) as [t|] eqn:E; [|by split; [left|]].
  repeat case_bool_decide; destruct is_v6; simpl in *; naive_solver.
Qed.

Lemma blocked_by_spec v peers b4 b6 :
  blocked_by v peers b4 b6
  = (b4 || existsb (fun ip => family_blocks v ip false) peers,
     b6 || existsb (fun ip => family_blocks v ip true) peers).
Proof.
  revert b4 b6. induction peers as [|ip peers IH]; intros b4 b6; cbn [blocked_by existsb].
  { by rewrite !orb_false_r. }
  rewrite IH. destruct b4, b6, (family_blocks v ip false), (family_blocks v ip true); reflexivity.
Qed.

(** No awaited peer in the family. *)
Definition wait_set_empty (v : GrView) (peers : list IpAddr) (is_v6 : bool) : bool :=
  negb (existsb (fun ip => family_blocks v ip is_v6) peers).
Lemma wait_set_empty_spec v peers is_v6 :
  wait_set_empty v peers is_v6 = true <-> Forall (fun ip => ~ awaited v is_v6 ip) peers.
Proof.
  unfold wait_set_empty. rewrite negb_true_iff, existsb_false_Forall.
  apply Forall_proper; [intros ip|done]. rewrite <- family_blocks_spec. by destruct (family_blocks _ _ _).
Qed.

Lemma recompute_spec sd peers v :
  sd_recompute sd peers v
  = (mkDeferral (sd_deadline sd) (v4_released sd || wait_set_empty v peers false)
       (v6_released sd || wait_set_empty v peers true),
     (negb (v4_released sd) && wait_set_empty v peers false,
      negb (v6_released sd) && wait_set_empty v peers true)).
Proof.
  unfold sd_recompute. destruct sd as [dl r4 r6]; cbn [sd_deadline v4_released v6_released].
  rewrite blocked_by_spec. unfold wait_set_empty.
  destruct r4, r6, (existsb _ _), (existsb _ _); reflexivity.
Qed.

(** ** Histories *)

(** What happens to the gate: checks of the wait-set, and the timer. *)
Inductive GateOp :=
| GateRecompute (configured_peers : list IpAddr) (v : GrView)
| GateTimer.
Definition gate_step (sd : SelectionDeferral) (op : GateOp) : SelectionDeferral * (bool * bool) :=
  match op with
  | GateRecompute l v => sd_recompute sd l v
  | GateTimer => force_release sd
  end.
(** The gate after a history, with the transitions each operation reported. *)
Fixpoint gate_run (sd : SelectionDeferral) (ops : list GateOp) : SelectionDeferral * list (bool * bool) :=
  match ops with
  | [] => (sd, [])
  | op :: ops =>
      let '(sd, t) := gate_step sd op in
      let '(sd, ts) := gate_run sd ops in (sd, t :: ts)
  end.
(** The operation releases the family. *)
Definition releases (is_v6 : bool) (op : GateOp) : bool :=
  match op with GateRecompute l v => wait_set_empty v l is_v6 | GateTimer => true end.
Definition released (is_v6 : bool) (sd : SelectionDeferral) : bool :=
  if is_v6 then v6_released sd else v4_released sd.
Definition transitioned (is_v6 : bool) (t : bool * bool) : bool := if is_v6 then snd t else fst t.

Lemma gate_step_spec sd op is_v6 :
  released is_v6 (fst (gate_step sd op)) = released is_v6 sd || releases is_v6 op
  /\ transitioned is_v6 (snd (gate_step sd op)) = negb (released is_v6 sd) && releases is_v6 op
  /\ sd_deadline (fst (gate_step sd op)) = sd_deadline sd.
Proof.
  destruct op as [l v|]; cbn [gate_step releases].
  - rewrite recompute_spec. by destruct is_v6.
  - destruct sd as [dl [] []], is_v6; by split_and!.
Qed.
(** The number of times a family is released. *)
Definition release_count (is_v6 : bool) (ts : list (bool * bool)) : nat :=
  length (List.filter (transitioned is_v6) ts).

Lemma gate_run_spec ops is_v6 : forall sd,
  let '(sd', ts) := gate_run sd ops in
  released is_v6 sd' = released is_v6 sd || existsb (releases is_v6) ops
  /\ release_count is_v6 ts
     = (if negb (released is_v6 sd) && existsb (releases is_v6) ops then 1 else 0)%nat
  /\ length ts = length ops /\ sd_deadline sd' = sd_deadline sd.
Proof.
  induction ops as [|op ops IH]; intros sd; cbn [gate_run existsb].
  { rewrite orb_false_r, andb_false_r. done. }
  pose proof (gate_step_spec sd op is_v6) as (Hr & Ht & Hd).
  destruct (gate_step sd op) as [sd1 t]. specialize (IH sd1).
  destruct (gate_run sd1 ops) as [sd2 ts]. destruct IH as (Hr2 & Hc & Hl & Hd2).
  cbn [fst snd] in *. split_and!; [|unfold release_count in *; cbn [List.filter]|simpl; lia|congruence].
  - by rewrite Hr2, Hr, orb_assoc.
  - rewrite Ht. rewrite Hr in Hc.
    destruct (released is_v6 sd), (releases is_v6 op), (existsb (releases is_v6) ops);
      cbn [negb andb orb length] in *; lia.
Qed.

(** ** Claims *)

(** C37: the early-exit loop of [recompute] releases a family exactly when no
    configured peer is awaited in it (every one is established, and has sent its
    End-of-RIB marker unless it never advertised graceful restart, is itself
    restarting or has not negotiated the family), whatever the order in which
    the peers are visited; a released family stays released. *)
Theorem recompute_wait_set sd peers peers' v : peers ≡ₚ peers' ->
  sd_recompute sd peers v = sd_recompute sd peers' v
  /\ forall is_v6, let '(sd', t) := sd_recompute sd peers v in
     (released is_v6 sd' = true <->
        released is_v6 sd = true \/ Forall (fun ip => ~ awaited v is_v6 ip) peers)
     /\ (transitioned is_v6 t = true <->
        released is_v6 sd = false /\ Forall (fun ip => ~ awaited v is_v6 ip) peers).
Proof.
  intros Hp. rewrite !recompute_spec. split.
  - assert (E : forall b, wait_set_empty v peers b = wait_set_empty v peers' b); [|by rewrite !E].
    intros b. apply eq_true_iff_eq. rewrite !wait_set_empty_spec. by rewrite Hp.
  - intros is_v6. rewrite <- wait_set_empty_spec.
    destruct is_v6; cbn [released transitioned fst snd v4_released v6_released];
      rewrite orb_true_iff, andb_true_iff, negb_true_iff; done.
Qed.

(** Along any history the gate of a family is a one-way latch: it opens
    exactly if some operation found the wait-set empty or the timer fired, and it
    is reported open exactly once, so that the table is dumped once; the daemon
    has a timer to wait for until both gates are open and none afterwards, and
    with the feature disabled both gates are open from the start. *)
Theorem deferral_releases_once daemon_start secs ops is_v6 :
  let '(sd, ts) := gate_run (sd_new daemon_start secs) ops in
  (released is_v6 sd = true <-> secs = 0 \/ exists op, op ∈ ops /\ releases is_v6 op = true)
  /\ release_count is_v6 ts = (if (secs =? 0)%Z || negb (released is_v6 sd) then 0 else 1)%nat
  /\ pending_deadline sd
     = (if released false sd && released true sd then None
        else Some (daemon_start + from_secs secs)).
Proof.
  pose proof (gate_run_spec ops is_v6 (sd_new daemon_start secs)) as H1.
  pose proof (gate_run_spec ops (negb is_v6) (sd_new daemon_start secs)) as H2.
  destruct (gate_run _ ops) as [sd ts]. destruct H1 as (Hr & Hc & _ & Hd), H2 as (Hr2 & _).
  rewrite <- existsb_elem. rewrite Hr, Hc. unfold pending_deadline, sd_new in *.
  destruct (Z.eqb_spec secs 0) as [->|Hne].
  - destruct is_v6; cbn [released sd_disabled v4_released v6_released orb negb andb] in *;
      rewrite Hr, Hr2; (split_and!; [by split; [left|]|done|done]).
  - destruct is_v6; cbn [released v4_released v6_released sd_deadline orb negb andb] in *;
      rewrite ?Hd; (split_and!; [|by destruct (existsb _ _)|done]);
      (split; [by right|by intros [?|?]]).
Qed.

(** Once every configured peer is established and either has sent its
    End-of-RIB marker or need not send one, the next check of the wait-set opens
    the gate; and the timer opens it in any state. *)
Theorem deferral_liveness sd op (is_v6 : bool) :
  match op with
  | GateTimer => True
  | GateRecompute peers v => forall ip, ip ∈ peers ->
      is_Some (gv_peer_types v !! ip)
      /\ (ip ∈ (if is_v6 then gv_eor_received_v6 v else gv_eor_received v)
          \/ ip ∉ gv_gr_advertised_peers v \/ ip ∈ gv_gr_peer_restarting v)
  end -> forall ops, released is_v6 (fst (gate_run sd (op :: ops))) = true.
Proof.
  intros Hop ops. pose proof (gate_run_spec (op :: ops) is_v6 sd) as H.
  destruct (gate_run sd (op :: ops)) as [sd' ts]. destruct H as [H _]. cbn [fst]. rewrite H.
  cbn [existsb]. enough (E : releases is_v6 op = true) by (rewrite E; by rewrite !orb_true_r).
  destruct op as [peers v|]; [|done]. apply wait_set_empty_spec, Forall_forall.
  intros ip Hin [E|(Ha & Hr & _ & He)]; destruct (Hop ip Hin) as [[t Ht] H']; [congruence|tauto].
Qed.

Lemma recompute_wait_set_witness :
  [IpV4 1; IpV4 2] ≡ₚ [IpV4 2; IpV4 1]
  /\ sd_recompute (sd_new 0 60) [IpV4 1; IpV4 2] (mkGrView ∅ ∅ ∅ ∅ ∅ ∅)
     = sd_recompute (sd_new 0 60) [IpV4 2; IpV4 1] (mkGrView ∅ ∅ ∅ ∅ ∅ ∅).
Proof.
  assert (Hp : [IpV4 1; IpV4 2] ≡ₚ [IpV4 2; IpV4 1]) by (apply Permutation_swap).
  split; [exact Hp|].
  exact (proj1 (recompute_wait_set (sd_new 0 60) _ _ (mkGrView ∅ ∅ ∅ ∅ ∅ ∅) Hp)).
Defined.
(** One peer, without graceful restart. *)
Lemma deferral_liveness_witness :
  released false (fst (gate_run (sd_new 0 60)
    [GateRecompute [IpV4 1] (mkGrView {[IpV4 1 := External]} ∅ ∅ ∅ ∅ ∅)])) = true.
Proof.
  apply (deferral_liveness (sd_new 0 60)
    (GateRecompute [IpV4 1] (mkGrView {[IpV4 1 := External]} ∅ ∅ ∅ ∅ ∅)) false).
  intros ip Hin. apply elem_of_cons in Hin as [->|Hin]; [|by apply not_elem_of_nil in Hin].
  split; [by eexists; apply lookup_insert_eq|]. right. left. apply not_elem_of_empty.
Defined.
