(* ===== verification/Session.v ===== *)
(** The session task ([pathvector-session/src/transport/mod.rs]): the I/O layer
    around the session state machine.

    [Session] is the state of the task.  [select] picks the first ready arm of the
    biased [select!] of [wait_for_input], [arm_step] is the body of the arm,
    [handle_input] the body of the loop of [run].  A TCP connection is a [Stream]:
    an identity and the addresses the code asks the socket for.  What is written
    and what is reported to the daemon is appended to the [outbox]; whether the
    n-th write succeeds is the environment's choice [write_ok n].  The clock is
    read once per step, and durations are seconds.  The MD5 option of the connect
    task, the capacity of the event channel, and logging are left out. *)
From Stdlib Require Import ZArith Lia Bool.
From stdpp Require Import base tactics numbers decidable list.
From S2P Require Import Prelude Addr Types AsPath Wire Header Notification Open Update Message Fsm Deferral.
Open Scope Z_scope.

Definition COLLISION_CANDIDATE_OPEN_TIMEOUT : Z := 240.
Definition DEFAULT_CONNECT_RETRY_TIME : Z := 120.

Inductive ConnectionOrigin := Outbound | Inbound.
#[export] Instance ConnectionOrigin_eq_dec : EqDecision ConnectionOrigin.
Proof. solve_decision. Defined.
Record ConnectionIdentity := mkIdentity {
  ci_local : IpAddr;
  ci_peer : IpAddr;
  ci_origin : ConnectionOrigin;
}.
#[export] Instance ConnectionIdentity_eq_dec : EqDecision ConnectionIdentity.
Proof. solve_decision. Defined.
Definition is_reversed_pair_with (self other : ConnectionIdentity) : bool :=
  bool_decide (ci_local self = ci_local other) && bool_decide (ci_peer self = ci_peer other)
  && negb (bool_decide (ci_origin self = ci_origin other)).

(** A connected [TcpStream]; [None] if the address lookup fails. *)
Record Stream := mkStream {
  st_id : nat;
  st_local_addr : option IpAddr;
  st_peer_addr : option IpAddr;
}.
Definition connection_identity (stream : Stream) (origin : ConnectionOrigin) : option ConnectionIdentity :=
  match st_local_addr stream, st_peer_addr stream with
  | Some local, Some peer => Some (mkIdentity local peer origin)
  | _, _ => None
  end.

(** [FramedBgpTransport]: the connection and the codec of its reader. *)
Record Transport := mkTransport { tr_id : nat; tr_codec : BgpCodec }.
Definition from_stream (stream : Stream) : Transport := mkTransport (st_id stream) codec_new.

Inductive CollisionPurpose := Collision | GracefulRestart.
#[export] Instance CollisionPurpose_eq_dec : EqDecision CollisionPurpose.
Proof. solve_decision. Defined.
Record CollisionCandidate := mkCandidate {
  cc_transport : Transport;
  cc_identity : ConnectionIdentity;
  cc_open : option OpenMessage;
  cc_purpose : CollisionPurpose;
}.

Record SessionConfig := mkSessionConfig {
  sn_local_as : Z;
  sn_local_bgp_id : Z;
  sn_hold_time : Z;
  sn_connect_retry_time : Z;
  sn_capabilities : list Capability;
  sn_required_capabilities : list Capability;
  sn_peer_as : option Z;
  sn_confederation_member : bool;
  sn_public_as : Z;
  sn_peer_addr : IpAddr * Z;
  sn_md5_password : option (list Z);
}.
Definition fsm_config_of (c : SessionConfig) : FsmConfig :=
  mkFsmConfig (sn_local_as c) (sn_public_as c) (sn_local_bgp_id c) (sn_hold_time c) (sn_capabilities c)
    (sn_required_capabilities c) (sn_peer_as c) (sn_confederation_member c).

Inductive TerminationReason :=
| TrUnclean
| TrNotification (n : NotificationMessage)
| TrOperatorStop.

(** [FramingError::Codec] and [FramingError::Io] *)
Inductive FramingError := FeCodec (e : CodecError) | FeIo.

Section Session.
Context `{P : IpPrefixOps}.

Inductive SessionEvent :=
| SeEstablished (info : SessionInfo)
| SeTerminated (reason : TerminationReason)
| SeRouteUpdate (msg : UpdateMessage).
Inductive SessionCommand :=
| ScStart
| ScStop
| ScNotification (n : NotificationMessage)
| ScIncomingConnection (stream : Stream)
| ScRouteRefresh (rr : RouteRefreshMessage)
| ScSetCapabilities (caps : list Capability).

(** Deadlines; [None] means the timer is not running. *)
Record Timers := mkTimers {
  hold_deadline : option Instant;
  keepalive_deadline : option Instant;
  retry_deadline : option Instant;
}.
(** The connection; [connect_task] is whether an outbound connect is running, and
    [connect_factory] is false for an injected transport. *)
Record Link := mkLink {
  transport : option Transport;
  transport_identity : option ConnectionIdentity;
  local_addr : option IpAddr;
  connect_task : bool;
  connect_factory : bool;
  pending_transport : option Transport;
  pending_input : option FsmInput;
}.
(** [pending_collision_candidate] and [pending_collision_deadline] *)
Record Staging := mkStaging {
  staged : option CollisionCandidate;
  staged_deadline : option Instant;
}.
Record Outbox := mkOutbox {
  events : list SessionEvent;
  sent : list (nat * BgpMessage);
  writes : nat;
}.
Record Session := mkSession {
  ss_config : SessionConfig;
  ss_fsm : Fsm;
  ss_timers : Timers;
  ss_link : Link;
  ss_staging : Staging;
  ss_outbox : Outbox;
  ss_reason : TerminationReason;
}.

(** Field assignments *)
Definition set_fsm (f : Fsm) (s : Session) : Session :=
  mkSession (ss_config s) f (ss_timers s) (ss_link s) (ss_staging s) (ss_outbox s) (ss_reason s).
Definition set_timers (t : Timers) (s : Session) : Session :=
  mkSession (ss_config s) (ss_fsm s) t (ss_link s) (ss_staging s) (ss_outbox s) (ss_reason s).
Definition set_link (l : Link) (s : Session) : Session :=
  mkSession (ss_config s) (ss_fsm s) (ss_timers s) l (ss_staging s) (ss_outbox s) (ss_reason s).
Definition set_staging (g : Staging) (s : Session) : Session :=
  mkSession (ss_config s) (ss_fsm s) (ss_timers s) (ss_link s) g (ss_outbox s) (ss_reason s).
Definition set_outbox (o : Outbox) (s : Session) : Session :=
  mkSession (ss_config s) (ss_fsm s) (ss_timers s) (ss_link s) (ss_staging s) o (ss_reason s).
Definition set_reason (r : TerminationReason) (s : Session) : Session :=
  mkSession (ss_config s) (ss_fsm s) (ss_timers s) (ss_link s) (ss_staging s) (ss_outbox s) r.
Definition set_hold (d : option Instant) (s : Session) : Session :=
  set_timers (mkTimers d (keepalive_deadline (ss_timers s)) (retry_deadline (ss_timers s))) s.
Definition set_keepalive (d : option Instant) (s : Session) : Session :=
  set_timers (mkTimers (hold_deadline (ss_timers s)) d (retry_deadline (ss_timers s))) s.
Definition set_retry (d : option Instant) (s : Session) : Session :=
  set_timers (mkTimers (hold_deadline (ss_timers s)) (keepalive_deadline (ss_timers s)) d) s.
Definition set_transport (t : option Transport) (l : Link) : Link :=
  mkLink t (transport_identity l) (local_addr l) (connect_task l) (connect_factory l)
    (pending_transport l) (pending_input l).
Definition set_connect_task (b : bool) (l : Link) : Link :=
  mkLink (transport l) (transport_identity l) (local_addr l) b (connect_factory l)
    (pending_transport l) (pending_input l).
Definition set_pending_input (i : option FsmInput) (l : Link) : Link :=
  mkLink (transport l) (transport_identity l) (local_addr l) (connect_task l) (connect_factory l)
    (pending_transport l) i.
(** A connection comes up, or is adopted. *)
Definition attach (t : option Transport) (identity : option ConnectionIdentity)
    (addr : option IpAddr) (s : Session) : Session :=
  let l := ss_link s in
  set_link (mkLink t identity addr (connect_task l) (connect_factory l) (pending_transport l)
              (pending_input l)) s.

(** [event_tx.send(e)] *)
Definition send_event (e : SessionEvent) (s : Session) : Session :=
  let o := ss_outbox s in set_outbox (mkOutbox (events o ++ [e]) (sent o) (writes o)) s.

(** [spawn] ([spawn_with] for an injected transport) *)
Definition session_new (config : SessionConfig) (injected : option Transport) : Session :=
  mkSession config (fsm_new (fsm_config_of config)) (mkTimers None None None)
    (mkLink None None None false (match injected with None => true | Some _ => false end) injected None)
    (mkStaging None None) (mkOutbox [] [] 0) TrUnclean.

(** [drop_connection]: the connect task is aborted. *)
Definition drop_connection (s : Session) : Session :=
  let l := ss_link s in
  set_link (mkLink None None (local_addr l) false (connect_factory l) (pending_transport l)
              (pending_input l)) s.

(** ** Messages that need no state *)

(** [header_error_notification] *)
Definition header_error_notification (e : FramingError) : option NotificationMessage :=
  match e with
  | FeCodec InvalidMarker => Some (mkNotification (NeMessageHeader ConnectionNotSynchronized) [])
  | FeCodec (InvalidLength len) => Some (mkNotification (NeMessageHeader BadMessageLength) (u16_be len))
  | FeCodec (UnknownMessageType t) => Some (mkNotification (NeMessageHeader BadMessageType) [t])
  | FeCodec (UnsupportedOptionalParameter _) =>
      Some (mkNotification (NeOpenMessage OmUnsupportedOptionalParameter) [])
  | _ => None
  end.

(** [is_nlri_less_with_attributes] *)
Definition is_nlri_less_with_attributes (update : UpdateMessage) (errors : list AttributeDecodeError)
    : bool :=
  let has_reachable_nlri :=
    match Update.announced update with [] => false | _ => true end
    || existsb (fun a => match a with
         | PaMpReachNlri mp => match mpr_prefixes mp with [] => false | _ => true end
         | _ => false end) (attributes update) in
  if has_reachable_nlri then false
  else existsb (fun a => match a with PaMpUnreachNlri _ => false | _ => true end) (attributes update)
       || existsb (fun e => negb (ade_type_code e =? ATTR_MP_UNREACH_NLRI)) errors.

(** [make_treat_as_withdraw] *)
Definition make_treat_as_withdraw (update : UpdateMessage) : UpdateMessage :=
  mkUpdate (withdrawn update ++ Update.announced update)
    (omap (fun attr => match attr with
       | PaMpReachNlri mp => Some (PaMpUnreachNlri (mkMpUnreach (mpr_afi_safi mp) (mpr_prefixes mp)))
       | _ => None end) (attributes update)) [].

(** ** Executing the actions of the state machine *)
Section Worker.
Context (write_ok : nat -> bool).

(** [t.send(msg)]: the write is logged if it succeeds. *)
Definition write (t : Transport) (m : BgpMessage) (s : Session) : Session * bool :=
  let o := ss_outbox s in
  let ok := write_ok (writes o) in
  (set_outbox (mkOutbox (events o) (if ok then sent o ++ [(tr_id t, m)] else sent o) (S (writes o))) s, ok).
(** [if let Some(t) = &mut self.transport && t.send(msg).await.is_err() { drop_connection }] *)
Definition send_primary (m : BgpMessage) (s : Session) : Session * bool :=
  match transport (ss_link s) with
  | None => (s, true)
  | Some t => let '(s, ok) := write t m s in if ok then (s, true) else (drop_connection s, false)
  end.

Definition has_extended (caps : list Capability) : bool :=
  existsb (fun c => bool_decide (c = CapExtendedMessage)) caps.
Definition has_four_byte (caps : list Capability) : bool :=
  existsb (fun c => match c with CapFourByteAsn _ => true | _ => false end) caps.
(** The [SessionEstablished] arm: the codec's limits, and the report. *)
Definition announce_session (info : SessionInfo) (s : Session) : Session :=
  let extended := has_extended (si_peer_capabilities info) && has_extended (sn_capabilities (ss_config s)) in
  let four := has_four_byte (si_peer_capabilities info) && has_four_byte (sn_capabilities (ss_config s)) in
  let l := ss_link s in
  let t := (fun t => mkTransport (tr_id t)
              (set_four_byte_asn (set_extended_message (tr_codec t) extended) four)) <$> transport l in
  send_event (SeEstablished (mkSessionInfo (si_peer_as info) (si_peer_bgp_id info) (si_hold_time info)
                (si_peer_capabilities info) (si_peer_type info) (local_addr l)))
    (set_link (set_transport t l) s).
(** [InitiateTcpConnect] *)
Definition initiate_connect (s : Session) : Session :=
  let l := ss_link s in
  match pending_transport l with
  | Some t => set_link (mkLink (Some t) (transport_identity l) (local_addr l) (connect_task l)
                          (connect_factory l) None (Some TcpConnected)) s
  | None => if connect_factory l then set_link (set_connect_task true l) s
            else set_link (set_pending_input (Some TcpFailed) l) s
  end.

Fixpoint execute (now : Instant) (outputs : list FsmOutput) (s : Session) : Session * bool :=
  match outputs with
  | [] => (s, true)
  | output :: outputs =>
      match output with
      | InitiateTcpConnect => execute now outputs (initiate_connect s)
      | CloseTcpConnection => execute now outputs (drop_connection s)
      | SendMessage m =>
          let '(s, ok) := send_primary m s in if ok then execute now outputs s else (s, false)
      | StartHoldTimer d => execute now outputs (set_hold (Some (now + from_secs d)) s)
      | StopHoldTimer => execute now outputs (set_hold None s)
      | StartKeepaliveTimer d => execute now outputs (set_keepalive (Some (now + from_secs d)) s)
      | StopKeepaliveTimer => execute now outputs (set_keepalive None s)
      | StartConnectRetryTimer _ =>
          execute now outputs (set_retry (Some (now + from_secs (sn_connect_retry_time (ss_config s)))) s)
      | StopConnectRetryTimer => execute now outputs (set_retry None s)
      | SessionEstablished info => execute now outputs (announce_session info s)
      | SessionTerminated => execute now outputs (send_event (SeTerminated (ss_reason s)) s)
      | RouteUpdate update => execute now outputs (send_event (SeRouteUpdate update) s)
      end
  end.
(** [let outputs = self.fsm.process(input); self.execute(outputs).await] *)
Definition process_execute (now : Instant) (input : FsmInput) (s : Session) : Session * bool :=
  let '(f, outputs) := process (ss_fsm s) input in execute now outputs (set_fsm f s).

(** ** Messages of the primary connection *)

(** RFC 7606: reset, treat-as-withdraw, or forward what is left. *)
Definition handle_malformed_update (m : MalformedUpdate) (s : Session) : Session * option FsmInput :=
  let malformed := mkNotification (NeUpdateMessage MalformedAttributeList) [] in
  if mu_session_reset m then
    let notif := default malformed (find_map (fun e => match ade_policy e with
        | SessionReset error data => Some (mkNotification error data) | _ => None end) (mu_errors m)) in
    (s, Some (ProtocolErrorNotificationToSend notif))
  else if mu_treat_as_withdraw m && is_nlri_less_with_attributes (mu_update m) (mu_errors m)
  then (s, Some (ProtocolErrorNotificationToSend malformed))
  else
    let update := if mu_treat_as_withdraw m then make_treat_as_withdraw (mu_update m) else mu_update m in
    (send_event (SeRouteUpdate update) s, None).
(** What a transport yields: [None] when the connection has closed. *)
Definition Received : Type := option (BgpMessage + FramingError).
Definition handle_primary_message (msg : Received) (s : Session) : Session * option FsmInput :=
  match msg with
  | Some (inl (BmMalformedUpdate m)) => handle_malformed_update m s
  | Some (inl m) => (s, Some (MessageReceived m))
  | Some (inr e) =>
      let s := match header_error_notification e, transport (ss_link s) with
               | Some notif, Some t => fst (write t (BmNotification notif) s)
               | _, _ => s end in
      (drop_connection s, Some TcpFailed)
  | None => (drop_connection s, Some TcpFailed)
  end.

(** ** A second connection *)
Definition stage_collision_candidate (now : Instant) (stream : Stream) (purpose : CollisionPurpose)
    (s : Session) : Session :=
  match connection_identity stream Inbound with
  | None => s
  | Some identity =>
      if connect_factory (ss_link s)
      then set_staging (mkStaging (Some (mkCandidate (from_stream stream) identity None purpose))
                          (Some (now + from_secs COLLISION_CANDIDATE_OPEN_TIMEOUT))) s
      else s
  end.
Definition handle_incoming_connection (now : Instant) (stream : Stream) (s : Session)
    : Session * option FsmInput :=
  match staged (ss_staging s) with
  | Some _ => (s, None)
  | None =>
      match fsm_state (ss_fsm s) with
      | Idle | Connect | Active =>
          let l := ss_link s in
          (attach (if connect_factory l then Some (from_stream stream) else transport l)
             (connection_identity stream Inbound) (st_local_addr stream) s, Some TcpConnected)
      | OpenSent | OpenConfirm => (stage_collision_candidate now stream Collision s, None)
      | Established =>
          (if peer_has_graceful_restart (ss_fsm s)
           then stage_collision_candidate now stream GracefulRestart s else s, None)
      end
  end.

(** What to do with a candidate whose OPEN is known ([adopt] of
    [try_resolve_pending_candidate]; [Wait] where it returns early). *)
Inductive Verdict := Wait | Adopt | Reject.
Definition resolve_candidate (f : Fsm) (local_bgp_id : Z) (purpose : CollisionPurpose)
    (open : OpenMessage) : Verdict :=
  let decide_adopt (b : bool) := if b then Adopt else Reject in
  match fsm_state f, purpose with
  | OpenSent, Collision => Wait
  | OpenConfirm, Collision =>
      match peer_bgp_id f with
      | Some existing_id =>
          if existing_id =? bgp_id open then decide_adopt (local_bgp_id <? bgp_id open) else Reject
      | None => Wait
      end
  | Established, GracefulRestart =>
      if peer_has_graceful_restart f
      then decide_adopt (bool_decide (peer_bgp_id f = Some (bgp_id open))) else Reject
  | (Idle | Connect | Active), _ => Adopt
  | (OpenSent | OpenConfirm | Established), _ => Reject
  end.
(** The existing connection is closed first; [OpenSent] is [unreachable!] there. *)
Definition close_existing (now : Instant) (s : Session) : Session :=
  match fsm_state (ss_fsm s) with
  | OpenConfirm => fst (process_execute now CollisionDetected s)
  | Established => fst (process_execute now CollisionDetected (set_reason TrUnclean s))
  | Idle | Connect | Active | OpenSent => s
  end.
Definition adopt_candidate (now : Instant) (candidate : CollisionCandidate) (open : OpenMessage)
    (s : Session) : Session :=
  let s := close_existing now s in
  let s := attach (Some (cc_transport candidate)) (Some (cc_identity candidate))
             (Some (ci_local (cc_identity candidate))) s in
  let s := fst (process_execute now TcpConnected s) in
  fst (process_execute now (MessageReceived (BmOpen open)) s).
(** [self.pending_collision_candidate.take()] *)
Definition take_candidate (s : Session) : Session :=
  set_staging (mkStaging None (staged_deadline (ss_staging s))) s.
Definition try_resolve_pending_candidate (now : Instant) (s : Session) : Session :=
  match staged (ss_staging s) with
  | None => s
  | Some candidate =>
      match cc_open candidate with
      | None => s
      | Some open =>
          match resolve_candidate (ss_fsm s) (sn_local_bgp_id (ss_config s)) (cc_purpose candidate) open with
          | Wait => s
          | Reject => take_candidate s
          | Adopt => adopt_candidate now candidate open (take_candidate s)
          end
      end
  end.

(** The candidate's first message; its deadline is cleared whatever it is. *)
Definition handle_collision_candidate_message (now : Instant) (msg : Received) (s : Session) : Session :=
  match staged (ss_staging s) with
  | None => s
  | Some candidate =>
      let s := set_staging (mkStaging None None) s in
      match msg with
      | Some (inl (BmOpen open)) =>
          match validate_open (ss_fsm s) open with
          | inr (error, data) =>
              fst (write (cc_transport candidate) (BmNotification (mkNotification error data)) s)
          | inl _ =>
              let reversed_pair := match transport_identity (ss_link s) with
                | Some e => is_reversed_pair_with e (cc_identity candidate) | None => false end in
              if bool_decide (cc_purpose candidate = Collision) && negb reversed_pair then s
              else
                let candidate := mkCandidate (cc_transport candidate) (cc_identity candidate) (Some open)
                                   (cc_purpose candidate) in
                try_resolve_pending_candidate now (set_staging (mkStaging (Some candidate) None) s)
          end
      | _ => s
      end
  end.

(** ** The event loop *)

(** What is ready when the task is polled; [rd_connect] is the finished connect. *)
Record Ready := mkReady {
  rd_now : Instant;
  rd_command : option (option SessionCommand);
  rd_connect : option (option Stream);
  rd_message : option Received;
  rd_candidate : option Received;
  rd_update : option UpdateMessage;
}.
Inductive Arm :=
| ArCommand (c : option SessionCommand)
| ArConnect (r : option Stream)
| ArMessage (m : Received)
| ArCandidate (m : Received)
| ArCollisionDeadline
| ArHold
| ArKeepalive
| ArRetry
| ArUpdate (u : UpdateMessage).
(** [deadline_fut] *)
Definition expired (now : Instant) (d : option Instant) : bool :=
  match d with Some d => d <=? now | None => false end.
(** [recv_connect], [recv_message], [recv_candidate_message]: pending unless there
    is something to wait for. *)
Definition armed (s : Session) (a : Arm) : bool :=
  match a with
  | ArConnect _ => connect_task (ss_link s)
  | ArMessage _ => match transport (ss_link s) with Some _ => true | None => false end
  | ArCandidate _ => match staged (ss_staging s) with
                     | Some c => match cc_open c with None => true | Some _ => false end
                     | None => false end
  | _ => true
  end.
(** The arms in the order of the [select!]; the first that is ready is taken. *)
Definition ready_arms (s : Session) (r : Ready) : list Arm :=
  let timer (d : option Instant) (a : Arm) := if expired (rd_now r) d then [a] else [] in
  option_list (ArCommand <$> rd_command r) ++ option_list (ArConnect <$> rd_connect r)
  ++ option_list (ArMessage <$> rd_message r) ++ option_list (ArCandidate <$> rd_candidate r)
  ++ timer (staged_deadline (ss_staging s)) ArCollisionDeadline
  ++ timer (hold_deadline (ss_timers s)) ArHold
  ++ timer (keepalive_deadline (ss_timers s)) ArKeepalive
  ++ timer (retry_deadline (ss_timers s)) ArRetry
  ++ option_list (ArUpdate <$> rd_update r).
Definition select (s : Session) (r : Ready) : option Arm := List.find (armed s) (ready_arms s r).

(** The body of an arm: [Some input] where [wait_for_input] returns, [None] where
    its loop goes on. *)
Definition write_or_fail (m : BgpMessage) (s : Session) : Session * option FsmInput :=
  let '(s, ok) := send_primary m s in (s, if ok then None else Some TcpFailed).
Definition command_step (now : Instant) (c : option SessionCommand) (s : Session)
    : Session * option FsmInput :=
  match c with
  | Some ScStart => (s, Some ManualStart)
  | Some ScStop | None => (s, Some ManualStop)
  | Some (ScNotification msg) => (s, Some (NotificationToSend msg))
  | Some (ScIncomingConnection stream) => handle_incoming_connection now stream s
  | Some (ScRouteRefresh rr) => write_or_fail (BmRouteRefresh rr) s
  | Some (ScSetCapabilities caps) =>
      (if is_established (ss_fsm s) then s else set_fsm (Fsm.set_capabilities (ss_fsm s) caps) s, None)
  end.
Definition arm_step (now : Instant) (a : Arm) (s : Session) : Session * option FsmInput :=
  match a with
  | ArCommand c => command_step now c s
  | ArConnect r =>
      let s := set_link (set_connect_task false (ss_link s)) s in
      match r with
      | Some stream =>
          (attach (Some (from_stream stream)) (connection_identity stream Outbound)
             (st_local_addr stream) s, Some TcpConnected)
      | None => (s, Some TcpFailed)
      end
  | ArMessage m => handle_primary_message m s
  | ArCandidate m => (handle_collision_candidate_message now m s, None)
  | ArCollisionDeadline => (set_staging (mkStaging None None) s, None)
  | ArHold => (set_hold None s, Some InHoldTimerExpired)
  | ArKeepalive => (set_keepalive None s, Some KeepaliveTimerExpired)
  | ArRetry => (set_retry None s, Some ConnectRetryTimerExpired)
  | ArUpdate u => write_or_fail (BmUpdate u) s
  end.

(** The body of the loop of [run] for one input. *)
Definition reason_of (input : FsmInput) : TerminationReason :=
  match input with
  | MessageReceived (BmNotification n) => TrNotification n
  | ManualStop | NotificationToSend _ | ProtocolErrorNotificationToSend _ => TrOperatorStop
  | _ => TrUnclean
  end.
Definition is_deliberate_stop (input : FsmInput) : bool :=
  match input with ManualStop | NotificationToSend _ => true | _ => false end.
Definition handle_input (now : Instant) (input : FsmInput) (s : Session) : Session :=
  let s := if is_established (ss_fsm s) then set_reason (reason_of input) s else s in
  let s := match staged (ss_staging s) with
           | Some _ => if is_deliberate_stop input then set_staging (mkStaging None None) s else s
           | None => s end in
  let '(s, ok) := process_execute now input s in
  let s := if ok then s else fst (process_execute now TcpFailed s) in
  try_resolve_pending_candidate now s.
(** One turn: a queued input, or the arm that is ready. *)
Definition session_step (s : Session) (r : Ready) : Session :=
  match pending_input (ss_link s) with
  | Some input => handle_input (rd_now r) input (set_link (set_pending_input None (ss_link s)) s)
  | None =>
      match select s r with
      | None => s
      | Some a =>
          let '(s, input) := arm_step (rd_now r) a s in
          match input with Some input => handle_input (rd_now r) input s | None => s end
      end
  end.
Definition session_run (s : Session) (rs : list Ready) : Session := foldl session_step s rs.
End Worker.
End Session.
