(* ===== verification/Capabilities.v ===== *)
(** The capabilities a session advertises and what the daemon reads from its
    peer's ([pathvectord/src/daemon/capabilities.rs], [extract_gr_capability] of
    [peer.rs]). *)
From Stdlib Require Import ZArith Lia Bool.
From stdpp Require Import base tactics numbers decidable gmap list.
From S2P Require Import Prelude Addr Types AsPath Wire Header Notification Open Update Message Fsm DaemonPolicy Deferral Session.
Open Scope Z_scope.

Definition build_local_capabilities (local_as graceful_restart_time : Z) (restarting : bool)
    (role : option Role) : list Capability :=
  let restart_flags :=
    if 0 <? graceful_restart_time
    then Z.lor (if restarting then 0x08 else 0x00) 0x04 else 0x00 in
  let forwarding_preserved := negb restarting || (graceful_restart_time =? 0) in
  let gr_families :=
    if 0 <? graceful_restart_time
    then [mkGrFamily IPV4_UNICAST forwarding_preserved; mkGrFamily IPV6_UNICAST forwarding_preserved]
    else [] in
  [CapMultiProtocol IPV4_UNICAST; CapMultiProtocol IPV6_UNICAST; CapRouteRefresh;
   CapFourByteAsn local_as; CapExtendedMessage;
   CapGracefulRestart restart_flags (Z.min graceful_restart_time 4095) gr_families]
  ++ match role with Some role => [CapRole role] | None => [] end.

Record SpawnConfig := mkSpawnConfig {
  sc_local_as : Z;
  sc_local_bgp_id : Z;
  sc_hold_time : Z;
  sc_graceful_restart_time : Z;
  sc_configured_restarting : bool;
  sc_startup_instant : Instant;
  sc_confederation_id : option Z;
}.
(** [SpawnConfig::capabilities] at the time [now]. *)
Definition sc_capabilities (sc : SpawnConfig) (now : Instant) (role : option Role)
    (advertised_as : Z) : list Capability :=
  let in_window :=
    sc_configured_restarting sc && (0 <? sc_graceful_restart_time sc)
    && (now - sc_startup_instant sc <? from_secs (sc_graceful_restart_time sc)) in
  build_local_capabilities advertised_as (sc_graceful_restart_time sc) in_window role.

(** [(advertised, restart_time, families, n_bit, r_bit)] *)
Definition extract_gr_capability (caps : list Capability)
    : bool * option Z * list GracefulRestartFamily * bool * bool :=
  let last := find_map (fun c => match c with
      | CapGracefulRestart restart_flags restart_time families =>
          Some (restart_flags, restart_time, families)
      | _ => None end) (rev caps) in
  match last with
  | Some (restart_flags, restart_time, families) =>
      let n_bit := has_flag restart_flags 0x04 in
      let r_bit := has_flag restart_flags 0x08 in
      (true, if 0 <? restart_time then Some restart_time else None, families, n_bit, r_bit)
  | None => (false, None, [], false, false)
  end.

(** The session configuration a peer is started with ([run_command_processor],
    [run]). *)
Definition session_config (sc : SpawnConfig) (now : Instant) (peer : PeerConfig) : SessionConfig :=
  let confed_member := effective_confederation_member peer (sc_confederation_id sc) in
  let pt := config_peer_type (sc_local_as sc) (pc_remote_as peer) confed_member in
  let public_as := effective_session_as (sc_local_as sc) (sc_confederation_id sc) pt in
  mkSessionConfig (sc_local_as sc) (sc_local_bgp_id sc) (default (sc_hold_time sc) (pc_hold_time peer))
    (default DEFAULT_CONNECT_RETRY_TIME (pc_connect_retry_time peer))
    (sc_capabilities sc now (effective_role peer (sc_local_as sc)) public_as)
    [] (Some (pc_remote_as peer)) confed_member public_as (pc_address peer, pc_port peer)
    (pc_md5_password peer).

(** ** Claims *)

Lemma local_capabilities_ok asn gr restarting role : is_u32 asn -> 0 <= gr ->
  Forall OpenCodec.cap_wf (build_local_capabilities asn gr restarting role).
Proof.
  intros Ha Hg.
  assert (Hcap : forall c, OpenCodec.cap_ok c ->
    (length (OpenCodec.encode_capability_value c) <= 20)%nat -> OpenCodec.cap_wf c)
    by (intros c Hc Hl; split; [done|blia]).
  assert (H4 : AfiSafi_wf IPV4_UNICAST) by (by split).
  assert (H6 : AfiSafi_wf IPV6_UNICAST) by (by split).
  unfold build_local_capabilities. apply Forall_app_2.
  - flist; apply Hcap; try done; try (apply Nat.leb_le; reflexivity).
    + cbn [OpenCodec.cap_ok]. destruct (0 <? gr), restarting; split_and!; try lia;
        repeat constructor; done.
    + destruct (0 <? gr); apply Nat.leb_le; reflexivity.
  - destruct role as [r|]; flist.
Qed.
Lemma opt_params_short asn gr restarting role :
  len (OpenCodec.encode_opt_params (build_local_capabilities asn gr restarting role)) <= 255.
Proof.
  unfold build_local_capabilities.
  destruct role, (0 <? gr); apply Z.leb_le; reflexivity.
Qed.

Lemma extract_local asn gr restarting role : 0 <= gr ->
  extract_gr_capability (build_local_capabilities asn gr restarting role)
  = (true, if 0 <? gr then Some (Z.min gr 4095) else None,
     if 0 <? gr then [mkGrFamily IPV4_UNICAST (negb restarting); mkGrFamily IPV6_UNICAST (negb restarting)]
     else [], 0 <? gr, (0 <? gr) && restarting).
Proof.
  intros Hg. unfold extract_gr_capability, build_local_capabilities.
  destruct (Z.ltb_spec 0 gr) as [Hl|Hl].
  - assert (E : (0 <? Z.min gr 4095) = true) by lia. assert (E0 : (gr =? 0) = false) by lia.
    destruct role, restarting; cbn -[Z.min]; rewrite ?E, ?E0; done.
  - assert (gr = 0) as -> by lia. by destruct role, restarting.
Qed.

(** C39: whatever the configuration, the OPEN a session sends is encoded without
    panic in a message of at most 4096 bytes that decodes to itself, and a peer
    reading its capabilities finds graceful restart advertised, with the
    configured time capped at 4095 seconds (none if it is 0), the Notification
    bit exactly with a nonzero time, and the Restart bit exactly within the
    configured restart window. *)
Theorem session_open_advertises `{P : IpPrefixOps} {L : IpPrefixLaws} sc now peer :
  is_u32 (sc_local_as sc) -> (forall c, sc_confederation_id sc = Some c -> is_u32 c) ->
  is_u32 (sc_local_bgp_id sc) -> is_u16 (default (sc_hold_time sc) (pc_hold_time peer)) ->
  0 <= sc_graceful_restart_time sc ->
  let open := make_open (ss_fsm (session_new (session_config sc now peer) None)) in
  let gr := sc_graceful_restart_time sc in
  let restarting := sc_configured_restarting sc && (0 <? gr)
                    && (now - sc_startup_instant sc <? from_secs gr) in
  (exists bs, message_encode (BmOpen open) = Ok bs /\ len bs <= MAX_LEN
     /\ forall four, decode_with_limit_and_caps bs MAX_LEN four = Ok (BmOpen open))
  /\ exists families, extract_gr_capability (capabilities open)
     = (true, if 0 <? gr then Some (Z.min gr 4095) else None, families, 0 <? gr, restarting).
Proof.
  intros Has Hcid Hid Hh Hg open gr restarting. split.
  2:{ subst open gr restarting. cbn [make_open ss_fsm session_new fsm_config_of fsm_new fsm_config session_config sn_capabilities cfg_capabilities capabilities].
      unfold sc_capabilities. rewrite extract_local by done. eexists. f_equal.
      by destruct (sc_configured_restarting sc), (0 <? _). }
  assert (Hpub : forall pt, is_u32 (effective_session_as (sc_local_as sc) (sc_confederation_id sc) pt))
    by (intros []; simpl; try done; destruct (sc_confederation_id sc) eqn:E; simpl; auto).
  assert (Hpt : forall b, is_u32 (effective_session_as (sc_local_as sc) (sc_confederation_id sc)
      (config_peer_type (sc_local_as sc) (pc_remote_as peer) b))) by (intros b; apply Hpub).
  assert (Hwf : OpenCodec.wf open).
  { subst open. unfold make_open, session_new, fsm_config_of, fsm_new, session_config, sc_capabilities.
    cbn [ss_fsm sn_local_as sn_public_as sn_local_bgp_id sn_hold_time sn_capabilities sn_required_capabilities
      sn_peer_as sn_confederation_member fsm_config cfg_capabilities cfg_public_as cfg_hold_time cfg_local_bgp_id].
    split_and!; cbn [version my_as hold_time bgp_id capabilities]; try done.
    - case (Z.ltb 65535 _); [unfold is_u16, AS_TRANS; lia|apply as_u16_is_u16].
    - by apply local_capabilities_ok.
    - apply opt_params_short. }
  exists (wire (BmOpen open)).
  assert (Hl : len (wire (BmOpen open)) <= MAX_LEN).
  { cbn [wire]. unfold len. rewrite encode_framed_length. pose proof (open_body_length open Hwf).
    unfold MAX_LEN, HEADER_LEN. lia. }
  split_and!; [reflexivity|exact Hl|]. intros four. by apply (decode_wire four (BmOpen open)).
Qed.

Lemma session_open_advertises_witness :
  exists bs, message_encode (P:=ModelPrefix.ops) (BmOpen (make_open (ss_fsm (session_new (P:=ModelPrefix.ops) (session_config
    (mkSpawnConfig 65001 1 90 120 true 0 None) 5
    (mkPeerConfig (IpV4 2) 65002 None None None false false false None None None None None None 179 None None)) None)))) = Ok bs
  /\ len bs <= MAX_LEN.
Proof.
  destruct (session_open_advertises (P:=ModelPrefix.ops) (L:=ModelPrefix.laws)
    (mkSpawnConfig 65001 1 90 120 true 0 None) 5
    (mkPeerConfig (IpV4 2) 65002 None None None false false false None None None None None None 179 None None))
    as [(bs & E & Hl & _) _]; [by split..|done|by split| |done|].
  - by split.
  - exists bs. exact (conj E Hl).
Defined.
