(* ===== verification/HandleUpdate.v ===== *)
(** Import of a received UPDATE ([pathvectord/src/daemon/route.rs]):
    [handle_update] and [reapply_import_policy].

    [Side] is what the function changes for one address family: the peer's
    Adj-RIB-In, the Loc-RIB and the lists it returns.  Logging and the counters
    kept for it are left out. *)
From Stdlib Require Import ZArith Lia Bool.
From stdpp Require Import base tactics numbers decidable gmap list.
From S2P Require Import Prelude Addr Types AsPath Wire Notification Update RouteMap Policy Route BestPath LocRib AdjRib.
Open Scope Z_scope.

Definition is_valid_next_hop_v4 (addr : Z) (own_addr : option Z) : bool :=
  negb (Ipv4.is_unspecified addr) && negb (Ipv4.is_loopback addr)
  && negb (Ipv4.is_multicast addr) && negb (addr =? Ipv4.BROADCAST)
  && match own_addr with Some own => negb (addr =? own) | None => true end.
Definition is_valid_next_hop_v6 (addr : Z) : bool :=
  negb (Ipv6.is_unspecified addr) && negb (Ipv6.is_multicast addr).
Definition bad_v4_nh (nh : option NextHop) (local_v4_addr : option Z) : bool :=
  match nh with Some (NhV4 addr) => negb (is_valid_next_hop_v4 addr local_v4_addr) | _ => false end.
Definition bad_v6_nh (nh : NextHop) (local_v6_addr : option Z) : bool :=
  let own a := match local_v6_addr with Some local => local =? a | None => false end in
  match nh with
  | NhV6 addr => negb (is_valid_next_hop_v6 addr) || own addr
  | NhV6WithLinkLocal global link_local =>
      negb (is_valid_next_hop_v6 global) || own global || Ipv6.is_multicast link_local
  | NhV4 _ => false
  end.

Section HandleUpdate.
Context `{P : IpPrefixOps} {M : RouteMapOps} {HO : HashOrder}.

(** ** The attribute pass *)
(** The local variables of the single pass over the attributes; the rare
    attributes are gathered in a [RareAttrs]. *)
Record Parsed := mkParsed {
  has_origin : bool;
  has_as_path : bool;
  pu_origin : Origin;
  pu_as_path : AsPath;
  pu_next_hop : option NextHop;
  pu_local_pref : option Z;
  pu_med : option Z;
  pu_rare : RareAttrs;
  mp_v4_announced : list (Nlri FamV4 * NextHop);
  mp_v4_withdrawn : list (Nlri FamV4);
  mp_v6_announced : list (Nlri FamV6 * NextHop);
  mp_v6_withdrawn : list (Nlri FamV6);
}.
Definition parsed_new : Parsed :=
  mkParsed false false Incomplete Path.new None None None RARE_DEFAULT [] [] [] [].

Definition v4_prefixes (l : list Prefix) : list (Nlri FamV4) :=
  omap (fun p => match p with PfxV4 n => Some n | PfxV6 _ => None end) l.
Definition v6_prefixes (l : list Prefix) : list (Nlri FamV6) :=
  omap (fun p => match p with PfxV6 n => Some n | PfxV4 _ => None end) l.

Definition parse_attr (pt : PeerType) (p : Parsed) (attr : PathAttribute) : Parsed :=
  let '(mkParsed ho ha o path nh lp m rare a4 w4 a6 w6) := p in
  let with_rare r := mkParsed ho ha o path nh lp m r a4 w4 a6 w6 in
  match attr with
  | PaOrigin o => mkParsed true ha o path nh lp m rare a4 w4 a6 w6
  | PaAsPath path => mkParsed ho true o path nh lp m rare a4 w4 a6 w6
  | PaNextHop ip => mkParsed ho ha o path (Some (NhV4 ip)) lp m rare a4 w4 a6 w6
  | PaLocalPref lp' =>
      match pt with
      | Internal | ConfedMember => mkParsed ho ha o path nh (Some lp') m rare a4 w4 a6 w6
      | _ => p
      end
  | PaMed m => mkParsed ho ha o path nh lp (Some m) rare a4 w4 a6 w6
  | PaCommunities cs => with_rare (rare_set_communities rare cs)
  | PaLargeCommunities lcs => with_rare (rare_set_large_communities rare lcs)
  | PaExtendedCommunities ecs => with_rare (rare_set_extended_communities rare ecs)
  | PaAtomicAggregate => with_rare (rare_set_atomic_aggregate rare true)
  | PaAggregator a => with_rare (rare_set_aggregator rare (Some a))
  | PaOriginatorId id => with_rare (rare_set_originator_id rare (Some id))
  | PaClusterList l => with_rare (rare_set_cluster_list rare l)
  | PaOnlyToCustomer asn => with_rare (rare_set_otc rare (Some asn))
  | PaUnknown flags tc value =>
      if has_flag flags 0x80 && has_flag flags 0x40
      then with_rare (rare_set_unknown rare (unknown rare ++ [mkUnknownAttribute tc value]))
      else p
  | PaMpReachNlri mp =>
      if decide (mpr_afi_safi mp = IPV4_UNICAST) then
        mkParsed ho ha o path nh lp m rare
          (a4 ++ map (fun n => (n, mpr_next_hop mp)) (v4_prefixes (mpr_prefixes mp))) w4 a6 w6
      else if decide (mpr_afi_safi mp = IPV6_UNICAST) then
        mkParsed ho ha o path nh lp m rare a4 w4
          (a6 ++ map (fun n => (n, mpr_next_hop mp)) (v6_prefixes (mpr_prefixes mp))) w6
      else p
  | PaMpUnreachNlri mp =>
      if decide (mpu_afi_safi mp = IPV4_UNICAST) then
        mkParsed ho ha o path nh lp m rare a4 (w4 ++ v4_prefixes (mpu_prefixes mp)) a6 w6
      else if decide (mpu_afi_safi mp = IPV6_UNICAST) then
        mkParsed ho ha o path nh lp m rare a4 w4 a6 (w6 ++ v6_prefixes (mpu_prefixes mp))
      else p
  | PaAs4Path _ | PaAs4Aggregator _ _ => p
  end.
Definition parse_attributes (pt : PeerType) (attrs : list PathAttribute) : Parsed :=
  foldl (parse_attr pt) parsed_new attrs.

(** ** One family *)
Record Side (f : Family) := mkSide {
  s_in : AdjRibIn f;
  s_rib : LocRib f;
  s_changes : list (BestPathChange f);
  s_bh_announced : list (Nlri f);
  s_bh_withdrawn : list (Nlri f);
}.
Arguments mkSide {f} _ _ _ _ _.
Arguments s_in {f} s.
Arguments s_rib {f} s.
Arguments s_changes {f} s.
Arguments s_bh_announced {f} s.
Arguments s_bh_withdrawn {f} s.
Definition side_new {f} (t : AdjRibIn f) (lr : LocRib f) : Side f := mkSide t lr [] [] [].

Definition has_blackhole {f} (r : Route f) : bool :=
  existsb Community.is_blackhole (communities (rare_or_default r)).

Definition withdraw_route {f} (peer : PeerId) (oracle : NextHopOracle) (s : Side f) (n : Nlri f)
    : Outcome False (Side f) :=
  let bh := match ari_get (s_in s) n with
            | Some r => if has_blackhole r then s_bh_withdrawn s ++ [n] else s_bh_withdrawn s
            | None => s_bh_withdrawn s
            end in
  let '(t, _) := ari_withdraw (s_in s) n in
  '(lr, c) ← loc_rib_withdraw (s_rib s) peer n oracle;
  Ok (mkSide t lr (s_changes s ++ [c]) (s_bh_announced s) bh).
Fixpoint withdraw_routes {f} (peer : PeerId) (oracle : NextHopOracle) (s : Side f)
    (l : list (Nlri f)) : Outcome False (Side f) :=
  match l with
  | [] => Ok s
  | n :: l => s ← withdraw_route peer oracle s n; withdraw_routes peer oracle s l
  end.

(** The body of the announcement loops once the route is built. *)
Definition import_route {f} (peer : PeerId) (policy : Policy (Route f)) (oracle : NextHopOracle)
    (s : Side f) (raw : Route f) : Outcome False (Side f) :=
  if has_blackhole raw then
    let '(t, _) := ari_insert (s_in s) raw in
    '(lr, c) ← loc_rib_withdraw (s_rib s) peer (nlri raw) oracle;
    Ok (mkSide t lr (s_changes s ++ [c]) (s_bh_announced s ++ [nlri raw]) (s_bh_withdrawn s))
  else
    let '(t, _) := ari_insert (s_in s) raw in
    match evaluate policy raw with
    | (route, DAccept) =>
        '(lr, c) ← loc_rib_insert (s_rib s) peer route oracle;
        Ok (mkSide t lr (s_changes s ++ [c]) (s_bh_announced s) (s_bh_withdrawn s))
    | (_, DReject) | (_, DNext) =>
        Ok (mkSide t (s_rib s) (s_changes s) (s_bh_announced s) (s_bh_withdrawn s))
    end.

(** The builder calls; [now] is the clock when the builder is created. *)
Definition build_route {f} (now : Z) (pt : PeerType) (bgp_id : option Z) (p : Parsed) (n : Nlri f)
    (nh : option NextHop) : Route f :=
  let rare := pu_rare p in
  let b := b_peer_type (builder_new now n (pu_origin p) (pu_as_path p)) pt in
  let b := match bgp_id with Some id => b_peer_bgp_id b id | None => b end in
  let b := match nh with Some nh => b_next_hop b nh | None => b end in
  let b := match pu_local_pref p with Some lp => b_local_pref b lp | None => b end in
  let b := match pu_med p with Some m => b_med b m | None => b end in
  let b := foldl b_community b (communities rare) in
  let b := foldl b_large_community b (large_communities rare) in
  let b := foldl b_extended_community b (extended_communities rare) in
  let b := if atomic_aggregate rare then b_atomic_aggregate b else b in
  let b := match aggregator rare with Some a => b_aggregator b a | None => b end in
  let b := match otc rare with Some asn => b_otc b asn | None => b end in
  let b := foldl b_unknown_attribute b (unknown rare) in
  build b.
(** The route-reflection attributes, which only the IPv4 loop restores. *)
Definition restore_rr {f} (p : Parsed) (raw : Route f) : Route f :=
  match originator_id (pu_rare p), cluster_list (pu_rare p) with
  | None, [] => raw
  | oid, cl => with_rare_mut raw (fun r => rare_set_cluster_list (rare_set_originator_id r oid) cl)
  end.

(** ** The whole message *)
Record UpdateCtx := mkUpdateCtx {
  cx_peer : PeerId;
  cx_policy : Policy (Route FamV4);
  cx_policy_v6 : Policy (Route FamV6);
  cx_peer_type : PeerType;
  cx_peer_bgp_id : option Z;
  cx_oracle_v4 : NextHopOracle;
  cx_oracle_v6 : NextHopOracle;
  cx_local_as : Z;
  cx_confederation_id : option Z;
  cx_local_v4_addr : option Z;
  cx_local_v6_addr : option Z;
  cx_clock : forall f, Nlri f -> Z;
}.

Fixpoint announce_v4 (cx : UpdateCtx) (p : Parsed) (skip_announces : bool) (s : Side FamV4)
    (l : list (Nlri FamV4 * option NextHop)) : Outcome False (Side FamV4) :=
  match l with
  | [] => Ok s
  | (n, nh) :: l =>
      if skip_announces then announce_v4 cx p skip_announces s l
      else if bad_v4_nh nh (cx_local_v4_addr cx) then announce_v4 cx p skip_announces s l
      else
        let raw := restore_rr p (build_route (cx_clock cx FamV4 n) (cx_peer_type cx)
                                   (cx_peer_bgp_id cx) p n nh) in
        s ← import_route (cx_peer cx) (cx_policy cx) (cx_oracle_v4 cx) s raw;
        announce_v4 cx p skip_announces s l
  end.
Fixpoint announce_v6 (cx : UpdateCtx) (p : Parsed) (s : Side FamV6)
    (l : list (Nlri FamV6 * NextHop)) : Outcome False (Side FamV6) :=
  match l with
  | [] => Ok s
  | (n, nh) :: l =>
      if bad_v6_nh nh (cx_local_v6_addr cx) then announce_v6 cx p s l
      else
        let raw := build_route (cx_clock cx FamV6 n) (cx_peer_type cx) (cx_peer_bgp_id cx) p n
                     (Some nh) in
        s ← import_route (cx_peer cx) (cx_policy_v6 cx) (cx_oracle_v6 cx) s raw;
        announce_v6 cx p s l
  end.

(** The state between the stages: both sides, the announcements not yet drained
    ([msg.announced] and the two MP lists) and the notification. *)
Record Work := mkWork {
  w_v4 : Side FamV4;
  w_v6 : Side FamV6;
  w_announced : list (Nlri FamV4);
  w_mp_v4 : list (Nlri FamV4 * NextHop);
  w_mp_v6 : list (Nlri FamV6 * NextHop);
  w_notification : option NotificationMessage;
}.

Definition treat_as_withdraw_all (cx : UpdateCtx) (w : Work) : Outcome False Work :=
  s4 ← withdraw_routes (cx_peer cx) (cx_oracle_v4 cx) (w_v4 w) (w_announced w ++ (w_mp_v4 w).*1);
  s6 ← withdraw_routes (cx_peer cx) (cx_oracle_v6 cx) (w_v6 w) (w_mp_v6 w).*1;
  Ok (mkWork s4 s6 [] [] [] (w_notification w)).

Definition nonempty {A} (l : list A) : bool := match l with [] => false | _ => true end.
Definition has_reachable_nlri_on_wire (msg : UpdateMessage) : bool :=
  nonempty (Update.announced msg)
  || existsb (fun a => match a with PaMpReachNlri mp => nonempty (mpr_prefixes mp) | _ => false end)
       (attributes msg).
(** ORIGIN, AS_PATH, and NEXT_HOP for traditional announcements *)
Definition missing_attr (p : Parsed) (msg : UpdateMessage) : option Z :=
  if negb (has_origin p) then Some 1
  else if negb (has_as_path p) then Some 2
  else match Update.announced msg, pu_next_hop p with _ :: _, None => Some 3 | _, _ => None end.
Definition has_any_announces (p : Parsed) (msg : UpdateMessage) : bool :=
  nonempty (Update.announced msg) || nonempty (mp_v4_announced p) || nonempty (mp_v6_announced p).

(** RFC 7606 3(d) and 5.2 *)
Definition check_mandatory (cx : UpdateCtx) (p : Parsed) (msg : UpdateMessage) (w : Work)
    : Outcome False Work :=
  if has_any_announces p msg then
    match missing_attr p msg with Some _ => treat_as_withdraw_all cx w | None => Ok w end
  else if has_reachable_nlri_on_wire msg then Ok w
  else
    let has_non_unreach_attr :=
      existsb (fun a => match a with PaMpUnreachNlri _ => false | _ => true end) (attributes msg) in
    let missing := if negb (has_origin p) then Some 1
                   else if negb (has_as_path p) then Some 2 else None in
    match has_non_unreach_attr, missing with
    | true, Some attr_type =>
        Ok (mkWork (w_v4 w) (w_v6 w) (w_announced w) (w_mp_v4 w) (w_mp_v6 w)
             (Some (mkNotification (NeUpdateMessage MissingWellKnownAttribute) [attr_type])))
    | _, _ => Ok w
    end.

Definition has_as_zero (p : Parsed) : bool := Path.contains (pu_as_path p) 0.
Definition has_loop (cx : UpdateCtx) (p : Parsed) : bool :=
  Path.contains (pu_as_path p) (cx_local_as cx)
  || match cx_confederation_id cx with
     | Some cid => Path.contains (pu_as_path p) cid | None => false end.
(** [if bad && some announcements { clear the MP lists }] *)
Definition clear_mp (bad : bool) (w : Work) : Work :=
  if bad && (nonempty (w_announced w) || nonempty (w_mp_v4 w) || nonempty (w_mp_v6 w))
  then mkWork (w_v4 w) (w_v6 w) (w_announced w) [] [] (w_notification w) else w.

(** RFC 5065 5 *)
Definition malformed_confed (pt : PeerType) (path : AsPath) : bool :=
  match pt with
  | External => existsb Seg.is_confed path
  | ConfedMember => match path with ConfedSequence _ :: _ => false | _ => true end
  | _ => false
  end.
Definition check_confed (cx : UpdateCtx) (p : Parsed) (msg : UpdateMessage) (w : Work)
    : Outcome False Work :=
  match has_as_path p, w_notification w with
  | true, None =>
      if malformed_confed (cx_peer_type cx) (pu_as_path p) then
        if has_reachable_nlri_on_wire msg then treat_as_withdraw_all cx w
        else Ok (mkWork (w_v4 w) (w_v6 w) (w_announced w) (w_mp_v4 w) (w_mp_v6 w)
                   (Some (mkNotification (NeUpdateMessage MalformedAsPath) [])))
      else Ok w
  | _, _ => Ok w
  end.

Definition handle_update (cx : UpdateCtx) (msg : UpdateMessage)
    (adj_rib_in : AdjRibIn FamV4) (loc_rib : LocRib FamV4)
    (adj_rib_in_v6 : AdjRibIn FamV6) (loc_rib_v6 : LocRib FamV6)
    : Outcome False (Side FamV4 * Side FamV6 * option NotificationMessage) :=
  s4 ← withdraw_routes (cx_peer cx) (cx_oracle_v4 cx) (side_new adj_rib_in loc_rib) (withdrawn msg);
  let p := parse_attributes (cx_peer_type cx) (attributes msg) in
  let w := mkWork s4 (side_new adj_rib_in_v6 loc_rib_v6) (Update.announced msg)
             (mp_v4_announced p) (mp_v6_announced p) None in
  w ← check_mandatory cx p msg w;
  let w := clear_mp (has_as_zero p) w in
  let w := clear_mp (has_loop cx p) w in
  w ← check_confed cx p msg w;
  s4 ← withdraw_routes (cx_peer cx) (cx_oracle_v4 cx) (w_v4 w) (mp_v4_withdrawn p);
  let all_announced := map (fun n => (n, pu_next_hop p)) (w_announced w)
                       ++ map (fun x => (fst x, Some (snd x))) (w_mp_v4 w) in
  s4 ← announce_v4 cx p (has_loop cx p || has_as_zero p) s4 all_announced;
  s6 ← withdraw_routes (cx_peer cx) (cx_oracle_v6 cx) (w_v6 w) (mp_v6_withdrawn p);
  s6 ← announce_v6 cx p s6 (w_mp_v6 w);
  Ok (s4, s6, w_notification w).

(** ** Soft reconfiguration *)
Fixpoint reapply_each {f} (peer : PeerId) (policy : Policy (Route f)) (oracle : NextHopOracle)
    (lr : LocRib f) (l : list (Nlri f * Route f)) : Outcome False (LocRib f * list (BestPathChange f)) :=
  match l with
  | [] => Ok (lr, [])
  | (n, raw) :: l =>
      '(lr, c) ← match evaluate policy raw with
                 | (route, DAccept) => loc_rib_insert lr peer route oracle
                 | (_, DReject) | (_, DNext) => loc_rib_withdraw lr peer n oracle
                 end;
      '(lr, cs) ← reapply_each peer policy oracle lr l;
      Ok (lr, c :: cs)
  end.
Definition reapply_import_policy {f} (peer : PeerId) (t : AdjRibIn f) (lr : LocRib f)
    (policy : Policy (Route f)) (oracle : NextHopOracle)
    : Outcome False (LocRib f * list (BestPathChange f)) :=
  reapply_each peer policy oracle lr (ari_iter t).
End HandleUpdate.

Arguments Side {P M} f.
Arguments mkSide {P M f} _ _ _ _ _.
Arguments s_in {P M f} s.
Arguments s_rib {P M f} s.
Arguments s_changes {P M f} s.
Arguments s_bh_announced {P M f} s.
Arguments s_bh_withdrawn {P M f} s.
