(* ===== verification/ImportTheorems.v ===== *)
(** The import of UPDATE messages refines a plan of withdrawals and imports. *)
From Stdlib Require Import ZArith Lia Bool.
From stdpp Require Import base tactics numbers decidable gmap list.
From S2P Require Import Prelude Addr Types AsPath Wire Notification Update UpdateFacts RouteMap Policy Route BestPath LocRib RibTheorems AdjRib HandleUpdate.
Open Scope Z_scope.

(** ** Plans of one family *)
Section Side.
Context `{P : IpPrefixOps} {M : RouteMapOps} {HO : HashOrder} {f : Family}.
Context (peer : PeerId) (policy : Policy (Route f)) (oracle : NextHopOracle).

Inductive SideOp :=
| SoWithdraw (n : Nlri f)
| SoImport (raw : Route f).

Definition side_op (s : Side f) (op : SideOp) : Outcome False (Side f) :=
  match op with
  | SoWithdraw n => withdraw_route peer oracle s n
  | SoImport raw => import_route peer policy oracle s raw
  end.
Fixpoint side_run (s : Side f) (ops : list SideOp) : Outcome False (Side f) :=
  match ops with [] => Ok s | op :: ops => s ← side_op s op; side_run s ops end.

(** What an operation does to the peer's Adj-RIB-In, and to the Loc-RIB. *)
Definition in_op (m : gmap (Nlri f) (Route f)) (op : SideOp) : gmap (Nlri f) (Route f) :=
  match op with
  | SoWithdraw n => delete n m
  | SoImport raw => <[nlri raw := raw]> m
  end.
Definition rib_ops (op : SideOp) : list (RibOp f) :=
  match op with
  | SoWithdraw n => [RWithdraw peer n oracle]
  | SoImport raw =>
      if has_blackhole raw then [RWithdraw peer (nlri raw) oracle]
      else match evaluate policy raw with
           | (r, DAccept) => [RInsert peer r oracle]
           | _ => []
           end
  end.
Definition side_op_ok (op : SideOp) : Prop :=
  match op with SoWithdraw n => canonical n | SoImport raw => canonical (nlri raw) end.
Definition keeps_nlri (pol : Policy (Route f)) : Prop :=
  forall r, nlri (fst (evaluate pol r)) = nlri r.

Context {L : IpPrefixLaws} {ML : RouteMapLaws} {HL : HashOrderLaw}.

Lemma rib_ops_ok op : keeps_nlri policy -> side_op_ok op -> Forall op_ok (rib_ops op).
Proof.
  intros Hk. destruct op as [n|raw]; simpl; intros Hc; [by repeat constructor|].
  destruct (has_blackhole raw); [by repeat constructor|]. specialize (Hk raw).
  destruct (evaluate policy raw) as [r []]; try constructor; [|constructor].
  simpl in *. by rewrite Hk.
Qed.

(** One operation is one step of the RIB, or none. *)
Lemma side_op_spec s op : keeps_nlri policy -> side_op_ok op -> rib_ok (s_rib s) ->
  exists s' cs, side_op s op = Ok s'
    /\ rib_run (s_rib s) (rib_ops op) = Ok (s_rib s', cs)
    /\ s_changes s' = s_changes s ++ cs
    /\ ari_routes (s_in s') = in_op (ari_routes (s_in s)) op.
Proof.
  intros Hk Hc Hok.
  assert (Hrun : forall rop (k : LocRib f -> BestPathChange f -> Side f), op_ok rop ->
    (forall lr, rib_step lr rop = one (match rop with
       | RInsert p r o => loc_rib_insert lr p r o
       | RWithdraw p n o => loc_rib_withdraw lr p n o
       | _ => Panic end)) ->
    exists lr c, (match rop with
       | RInsert p r o => loc_rib_insert (s_rib s) p r o
       | RWithdraw p n o => loc_rib_withdraw (s_rib s) p n o
       | _ => Panic end) = Ok (lr, c)
      /\ rib_run (s_rib s) [rop] = Ok (lr, [c])).
  { intros rop k Ho Hstep. destruct (rib_step_spec (s_rib s) rop Hok Ho) as (lr & cs & E & _).
    cbn [rib_run]. rewrite Hstep in *. destruct rop; try done;
      (destruct (loc_rib_insert _ _ _ _) as [[lr1 c]| | |] || destruct (loc_rib_withdraw _ _ _ _) as [[lr1 c]| | |]);
      try done; exists lr1, c; done. }
  destruct op as [n|raw]; cbn [side_op rib_ops in_op].
  - destruct (Hrun (RWithdraw peer n oracle) (fun lr _ => s) Hc ltac:(done)) as (lr & c & E & Er).
    unfold withdraw_route. cbn [ari_withdraw]. rewrite E. cbn [mbind outcome_bind].
    eexists _, [c]. split; [reflexivity|]. done.
  - unfold import_route. cbn [ari_insert]. destruct (has_blackhole raw).
    + destruct (Hrun (RWithdraw peer (nlri raw) oracle) (fun lr _ => s) Hc ltac:(done)) as (lr & c & E & Er).
      rewrite E. cbn [mbind outcome_bind]. eexists _, [c]. split; [reflexivity|]. done.
    + specialize (Hk raw). destruct (evaluate policy raw) as [r d]. cbn [fst] in Hk.
      destruct d; [|eexists _, []; split; [reflexivity|]; by rewrite app_nil_r..].
      assert (Hc' : op_ok (RInsert peer r oracle)) by (simpl; by rewrite Hk).
      destruct (Hrun (RInsert peer r oracle) (fun lr _ => s) Hc' ltac:(done)) as (lr & c & E & Er).
      rewrite E. cbn [mbind outcome_bind]. eexists _, [c]. split; [reflexivity|]. done.
Qed.

Lemma rib_run_app (lr : LocRib f) ops1 ops2 :
  rib_run lr (ops1 ++ ops2)
  = ('(lr, cs) ← rib_run lr ops1; '(lr, cs') ← rib_run lr ops2; Ok (lr, cs ++ cs')).
Proof.
  revert lr. induction ops1 as [|op ops1 IH]; intros lr; cbn [rib_run app mbind outcome_bind].
  { by destruct (rib_run lr ops2) as [[]| | |]. }
  destruct (rib_step lr op) as [[lr1 cs1]| | |]; cbn [mbind outcome_bind]; [|done..].
  rewrite IH. destruct (rib_run lr1 ops1) as [[lr2 cs2]| | |]; cbn [mbind outcome_bind]; [|done..].
  destruct (rib_run lr2 ops2) as [[lr3 cs3]| | |]; cbn [mbind outcome_bind]; [|done..].
  by rewrite app_assoc.
Qed.

Definition plan_rib (ops : list SideOp) : list (RibOp f) := concat (map rib_ops ops).

(** The prefix of an operation; the plan is about no other. *)
Definition side_nlri (op : SideOp) : Nlri f := match op with SoWithdraw n => n | SoImport raw => nlri raw end.
Lemma plan_other n ops : keeps_nlri policy -> n ∉ map side_nlri ops ->
  Forall (fun op => ~ op_about n op) (plan_rib ops).
Proof.
  intros Hk Hn. unfold plan_rib. induction ops as [|op ops IH]; [constructor|]. cbn [map concat] in *.
  apply not_elem_of_cons in Hn as [Hne Hn]. apply Forall_app_2; [|by apply IH].
  destruct op as [m|raw]; cbn [rib_ops side_nlri] in *; [repeat constructor; cbn; congruence|].
  destruct (has_blackhole raw); [repeat constructor; cbn; congruence|]. specialize (Hk raw).
  destruct (evaluate policy raw) as [r []]; repeat constructor. cbn in *. congruence.
Qed.
Lemma plan_ok ops : keeps_nlri policy -> Forall side_op_ok ops -> Forall op_ok (plan_rib ops).
Proof.
  intros Hk. unfold plan_rib. induction 1 as [|op ops Hop _ IH]; [constructor|].
  cbn [map concat]. apply Forall_app_2; [by apply rib_ops_ok|done].
Qed.

Lemma side_run_spec ops : forall s, keeps_nlri policy -> Forall side_op_ok ops -> rib_ok (s_rib s) ->
  exists s' cs, side_run s ops = Ok s'
    /\ rib_run (s_rib s) (plan_rib ops) = Ok (s_rib s', cs)
    /\ s_changes s' = s_changes s ++ cs
    /\ ari_routes (s_in s') = foldl in_op (ari_routes (s_in s)) ops.
Proof.
  induction ops as [|op ops IH]; intros s Hk Hops Hok; cbn [side_run].
  { exists s, []. by rewrite app_nil_r. }
  apply Forall_cons in Hops as [Hop Hops].
  destruct (side_op_spec s op Hk Hop Hok) as (s1 & cs1 & E1 & R1 & C1 & I1).
  assert (Hok1 : rib_ok (s_rib s1)).
  { destruct (rib_run_spec (rib_ops op) (s_rib s) Hok) as (lr & cs & E & Hok1 & _);
      [by apply rib_ops_ok|]. rewrite R1 in E. by injection E as <- _. }
  destruct (IH s1 Hk Hops Hok1) as (s2 & cs2 & E2 & R2 & C2 & I2).
  rewrite E1. cbn [mbind outcome_bind]. exists s2, (cs1 ++ cs2). split_and!; [done| | |].
  - unfold plan_rib. cbn [map concat]. rewrite rib_run_app, R1. cbn [mbind outcome_bind].
    fold (plan_rib ops). by rewrite R2.
  - by rewrite C2, C1, app_assoc.
  - by rewrite I2, I1.
Qed.

Lemma side_run_app s ops1 ops2 :
  side_run s (ops1 ++ ops2) = (s ← side_run s ops1; side_run s ops2).
Proof.
  revert s. induction ops1 as [|op ops1 IH]; intros s; cbn [side_run app]; [done|].
  destruct (side_op s op); cbn [mbind outcome_bind]; [apply IH|done..].
Qed.
Lemma withdraw_routes_run s l : withdraw_routes peer oracle s l = side_run s (map SoWithdraw l).
Proof.
  revert s. induction l as [|n l IH]; intros s; cbn [withdraw_routes map side_run side_op]; [done|].
  destruct (withdraw_route peer oracle s n); cbn [mbind outcome_bind]; [apply IH|done..].
Qed.
End Side.
Arguments SoWithdraw {P f} n.
Arguments SoImport {P f} raw.
Arguments SideOp {P} f.

(** ** What a message means *)
Section Plan.
Context `{P : IpPrefixOps} {M : RouteMapOps} {HO : HashOrder}.
Context (cx : UpdateCtx) (msg : UpdateMessage).

Definition attrs_of : Parsed := parse_attributes (cx_peer_type cx) (attributes msg).
(** A mandatory attribute is missing from an announcement. *)
Definition lacks_mandatory : bool :=
  has_any_announces attrs_of msg
  && match missing_attr attrs_of msg with Some _ => true | None => false end.
(** The AS_PATH carries AS 0, the local AS or the confederation identifier. *)
Definition dropped : bool := has_as_zero attrs_of || has_loop cx attrs_of.
(** Confederation segments where the peer's type forbids or requires them. *)
Definition confed_malformed : bool :=
  has_as_path attrs_of && malformed_confed (cx_peer_type cx) (pu_as_path attrs_of)
  && has_reachable_nlri_on_wire msg.

(** The announced prefixes left for the announcement stage. *)
Definition kept_v4 : list (Nlri FamV4) := if lacks_mandatory then [] else Update.announced msg.
Definition kept_mp_v4 : list (Nlri FamV4 * NextHop) :=
  if lacks_mandatory || dropped then [] else mp_v4_announced attrs_of.
Definition kept_mp_v6 : list (Nlri FamV6 * NextHop) :=
  if lacks_mandatory || dropped then [] else mp_v6_announced attrs_of.

Definition routes_v4 : list (Route FamV4) :=
  omap (fun x : Nlri FamV4 * option NextHop =>
    if bad_v4_nh (snd x) (cx_local_v4_addr cx) then None
    else Some (restore_rr attrs_of (build_route (cx_clock cx FamV4 (fst x)) (cx_peer_type cx)
                                      (cx_peer_bgp_id cx) attrs_of (fst x) (snd x))))
    (map (fun n => (n, pu_next_hop attrs_of)) kept_v4
     ++ map (fun x => (fst x, Some (snd x))) kept_mp_v4).
Definition routes_v6 : list (Route FamV6) :=
  omap (fun x : Nlri FamV6 * NextHop =>
    if bad_v6_nh (snd x) (cx_local_v6_addr cx) then None
    else Some (build_route (cx_clock cx FamV6 (fst x)) (cx_peer_type cx) (cx_peer_bgp_id cx)
                 attrs_of (fst x) (Some (snd x)))) kept_mp_v6.

Definition plan_v4 : list (SideOp FamV4) :=
  map SoWithdraw (withdrawn msg)
  ++ (if lacks_mandatory
      then map SoWithdraw (Update.announced msg ++ (mp_v4_announced attrs_of).*1) else [])
  ++ (if confed_malformed then map SoWithdraw (kept_v4 ++ kept_mp_v4.*1) else [])
  ++ map SoWithdraw (mp_v4_withdrawn attrs_of)
  ++ (if confed_malformed || dropped then [] else map SoImport routes_v4).
Definition plan_v6 : list (SideOp FamV6) :=
  (if lacks_mandatory then map SoWithdraw (mp_v6_announced attrs_of).*1 else [])
  ++ (if confed_malformed then map SoWithdraw kept_mp_v6.*1 else [])
  ++ map SoWithdraw (mp_v6_withdrawn attrs_of)
  ++ (if confed_malformed then [] else map SoImport routes_v6).

(** Only an UPDATE with attributes but no reachable NLRI resets the session: for
    a missing mandatory attribute, else for a malformed confederation path. *)
Definition plan_notification : option NotificationMessage :=
  if has_reachable_nlri_on_wire msg then None
  else
    let missing := if negb (has_origin attrs_of) then Some 1
                   else if negb (has_as_path attrs_of) then Some 2 else None in
    match existsb (fun a => match a with PaMpUnreachNlri _ => false | _ => true end) (attributes msg),
          missing with
    | true, Some t => Some (mkNotification (NeUpdateMessage MissingWellKnownAttribute) [t])
    | _, _ =>
        if has_as_path attrs_of && malformed_confed (cx_peer_type cx) (pu_as_path attrs_of)
        then Some (mkNotification (NeUpdateMessage MalformedAsPath) []) else None
    end.

(** *** The attribute pass on well-formed attributes *)
Definition parsed_ok (p : Parsed) : Prop :=
  Forall canonical (mp_v4_announced p).*1 /\ Forall canonical (mp_v4_withdrawn p)
  /\ Forall canonical (mp_v6_announced p).*1 /\ Forall canonical (mp_v6_withdrawn p).

Lemma fmap_fst_pair {A B} (b : B) (l : list A) : (map (fun n => (n, b)) l).*1 = l.
Proof. induction l as [|x l IH]; [done|]. cbn. f_equal. exact IH. Qed.
Lemma omap_map_all {A B} (g : B -> option A) (c : A -> B) l : (forall x, g (c x) = Some x) ->
  omap g (map c l) = l.
Proof. intros H. induction l as [|x l IH]; [done|]. cbn. rewrite H. f_equal. exact IH. Qed.
Lemma omap_map_nil {A B C} (g : B -> option A) (c : C -> B) l : (forall x, g (c x) = None) ->
  omap g (map c l) = [].
Proof. intros H. induction l as [|x l IH]; [done|]. cbn. rewrite H. exact IH. Qed.
Lemma prefixes_canonical a l : prefixes_ok a l ->
  Forall canonical (v4_prefixes l) /\ Forall canonical (v6_prefixes l).
Proof.
  intros [[_ (ns & -> & H)]|[[_ (ns & -> & H)]|(_ & _ & ->)]].
  - assert (v4_prefixes (map PfxV4 ns) = ns) as -> by (by apply omap_map_all).
    assert (v6_prefixes (map PfxV4 ns) = []) as -> by (by apply omap_map_nil).
    by split.
  - assert (v4_prefixes (map PfxV6 ns) = []) as -> by (by apply omap_map_nil).
    assert (v6_prefixes (map PfxV6 ns) = ns) as -> by (by apply omap_map_all).
    by split.
  - by split.
Qed.

(** The prefixes of a message are in canonical form, as the decoder makes them. *)
Definition mp_ok (a : PathAttribute) : Prop :=
  match a with
  | PaMpReachNlri m => prefixes_ok (afi (mpr_afi_safi m)) (mpr_prefixes m)
  | PaMpUnreachNlri m => prefixes_ok (afi (mpu_afi_safi m)) (mpu_prefixes m)
  | _ => True
  end.
Definition msg_ok (u : UpdateMessage) : Prop :=
  Forall canonical (withdrawn u) /\ Forall canonical (Update.announced u)
  /\ Forall mp_ok (attributes u).
Lemma update_msg_ok u : update_ok u -> msg_ok u.
Proof.
  intros (H1 & H2 & H3 & _). split_and!; [done|done|]. eapply Forall_impl; [exact H3|].
  intros [] H; cbn [mp_ok pa_ok] in *; naive_solver.
Qed.
Lemma parse_attr_ok pt p a : mp_ok a -> parsed_ok p -> parsed_ok (parse_attr pt p a).
Proof.
  intros Ha Hp. destruct p as [ho ha o path nh lp m rare a4 w4 a6 w6].
  destruct Hp as (H1 & H2 & H3 & H4). cbn [mp_v4_announced mp_v4_withdrawn mp_v6_announced mp_v6_withdrawn] in *.
  destruct a as [| | | |lp'| | | | | |mp|mp| | | | | |flags tc v]; cbn [parse_attr]; try done.
  - by destruct pt.
  - destruct (prefixes_canonical _ _ Ha) as [Hc4 Hc6].
    destruct (decide _) as [_|_]; [|destruct (decide _) as [_|_]; [|done]];
      (split_and!; cbn [mp_v4_announced mp_v4_withdrawn mp_v6_announced mp_v6_withdrawn]; try done);
      rewrite fmap_app, fmap_fst_pair; by apply Forall_app_2.
  - destruct (prefixes_canonical _ _ Ha) as [Hc4 Hc6].
    destruct (decide _) as [_|_]; [|destruct (decide _) as [_|_]; [|done]];
      (split_and!; cbn [mp_v4_announced mp_v4_withdrawn mp_v6_announced mp_v6_withdrawn]; try done);
      by apply Forall_app_2.
  - by destruct (_ && _).
Qed.
Lemma parse_ok pt attrs : Forall mp_ok attrs -> parsed_ok (parse_attributes pt attrs).
Proof.
  unfold parse_attributes. assert (H0 : parsed_ok parsed_new) by (by split_and!).
  revert H0. generalize parsed_new. induction attrs as [|a attrs IH]; intros p Hp Ha; [done|].
  apply Forall_cons in Ha as [Ha Hs]. apply IH; [by apply parse_attr_ok|done].
Qed.

(** An announcement the parser keeps was on the wire. *)
Lemma parse_attr_wire pt p a :
  nonempty (mp_v4_announced (parse_attr pt p a)) || nonempty (mp_v6_announced (parse_attr pt p a)) = true ->
  nonempty (mp_v4_announced p) || nonempty (mp_v6_announced p)
  || match a with PaMpReachNlri mp => nonempty (mpr_prefixes mp) | _ => false end = true.
Proof.
  destruct p as [ho ha o path nh lp m rare a4 w4 a6 w6].
  destruct a as [| | | |lp'| | | | | |mp|mp| | | | | |flags tc v];
    cbn [parse_attr mp_v4_announced mp_v6_announced]; rewrite ?orb_false_r; try done.
  - by destruct pt.
  - assert (Hn : forall (A : Type) (g : Prefix -> option A), omap g (mpr_prefixes mp) = []
      \/ nonempty (mpr_prefixes mp) = true) by (intros; destruct (mpr_prefixes mp); auto).
    destruct (decide _) as [_|_]; [|destruct (decide _) as [_|_]; [|]];
      cbn [mp_v4_announced mp_v6_announced].
    + destruct (Hn _ (fun p => match p with PfxV4 n => Some n | PfxV6 _ => None end)) as [E| ->];
        [|by rewrite orb_true_r].
      unfold v4_prefixes. rewrite E. simpl. rewrite app_nil_r. intros ->. done.
    + destruct (Hn _ (fun p => match p with PfxV6 n => Some n | PfxV4 _ => None end)) as [E| ->];
        [|by rewrite orb_true_r].
      unfold v6_prefixes. rewrite E. simpl. rewrite app_nil_r. intros ->. done.
    + by intros ->.
  - destruct (decide _) as [_|_]; [done|]. by destruct (decide _).
  - by destruct (_ && _).
Qed.
Lemma announces_on_wire :
  has_any_announces attrs_of msg = true -> has_reachable_nlri_on_wire msg = true.
Proof.
  unfold has_any_announces, has_reachable_nlri_on_wire.
  destruct (nonempty (Update.announced msg)); [done|]. cbn [orb]. unfold attrs_of, parse_attributes.
  assert (H : forall attrs p,
    nonempty (mp_v4_announced (foldl (parse_attr (cx_peer_type cx)) p attrs))
      || nonempty (mp_v6_announced (foldl (parse_attr (cx_peer_type cx)) p attrs)) = true ->
    nonempty (mp_v4_announced p) || nonempty (mp_v6_announced p)
      || existsb (fun a => match a with PaMpReachNlri mp => nonempty (mpr_prefixes mp) | _ => false end)
           attrs = true).
  { induction attrs as [|a attrs IH]; intros p; cbn [foldl existsb]; [by intros ->|].
    intros [H|H]%IH%orb_true_iff; [|rewrite H; by rewrite !orb_true_r].
    apply parse_attr_wire in H. rewrite orb_assoc, H. done. }
  apply (H (attributes msg) parsed_new).
Qed.

(** *** The stages *)
Notation run4 := (side_run (cx_peer cx) (cx_policy cx) (cx_oracle_v4 cx)).
Notation run6 := (side_run (cx_peer cx) (cx_policy_v6 cx) (cx_oracle_v6 cx)).

Definition note_mandatory : option NotificationMessage :=
  if has_reachable_nlri_on_wire msg then None
  else
    match existsb (fun a => match a with PaMpUnreachNlri _ => false | _ => true end) (attributes msg),
          (if negb (has_origin attrs_of) then Some 1
           else if negb (has_as_path attrs_of) then Some 2 else None) with
    | true, Some t => Some (mkNotification (NeUpdateMessage MissingWellKnownAttribute) [t])
    | _, _ => None
    end.

Lemma treat_as_withdraw_run s4 s6 s4' s6' ann a4 a6 note :
  run4 s4 (map SoWithdraw (ann ++ a4.*1)) = Ok s4' -> run6 s6 (map SoWithdraw a6.*1) = Ok s6' ->
  treat_as_withdraw_all cx (mkWork s4 s6 ann a4 a6 note) = Ok (mkWork s4' s6' [] [] [] note).
Proof.
  intros E4 E6. unfold treat_as_withdraw_all. cbn [w_v4 w_v6 w_announced w_mp_v4 w_mp_v6 w_notification].
  rewrite (withdraw_routes_run _ (cx_policy cx)), E4. cbn [mbind outcome_bind].
  by rewrite (withdraw_routes_run _ (cx_policy_v6 cx)), E6.
Qed.

Lemma check_mandatory_run s4 s6 s4' s6' :
  run4 s4 (if lacks_mandatory then map SoWithdraw (Update.announced msg ++ (mp_v4_announced attrs_of).*1)
           else []) = Ok s4' ->
  run6 s6 (if lacks_mandatory then map SoWithdraw (mp_v6_announced attrs_of).*1 else []) = Ok s6' ->
  check_mandatory cx attrs_of msg
    (mkWork s4 s6 (Update.announced msg) (mp_v4_announced attrs_of) (mp_v6_announced attrs_of) None)
  = Ok (mkWork s4' s6' kept_v4 (if lacks_mandatory then [] else mp_v4_announced attrs_of)
          (if lacks_mandatory then [] else mp_v6_announced attrs_of) note_mandatory).
Proof.
  intros E4 E6. pose proof announces_on_wire as Hw. unfold check_mandatory, kept_v4, note_mandatory.
  unfold lacks_mandatory in *. destruct (has_any_announces attrs_of msg); cbn [andb] in *.
  - rewrite (Hw eq_refl). destruct (missing_attr attrs_of msg).
    + by apply treat_as_withdraw_run.
    + injection E4 as <-. by injection E6 as <-.
  - injection E4 as <-. injection E6 as <-.
    destruct (has_reachable_nlri_on_wire msg); [done|]. cbn [w_v4 w_v6 w_announced w_mp_v4 w_mp_v6].
    by destruct (existsb _ _), (negb (has_origin attrs_of)), (negb (has_as_path attrs_of)).
Qed.

Lemma clear_mp_spec bad w :
  clear_mp bad w = mkWork (w_v4 w) (w_v6 w) (w_announced w) (if bad then [] else w_mp_v4 w)
    (if bad then [] else w_mp_v6 w) (w_notification w).
Proof.
  unfold clear_mp. destruct w as [s4 s6 ann a4 a6 note], bad; [|done].
  cbn [w_v4 w_v6 w_announced w_mp_v4 w_mp_v6 w_notification andb]. by destruct ann, a4, a6.
Qed.

Lemma check_confed_run s4 s6 s4' s6' :
  run4 s4 (if confed_malformed then map SoWithdraw (kept_v4 ++ kept_mp_v4.*1) else []) = Ok s4' ->
  run6 s6 (if confed_malformed then map SoWithdraw kept_mp_v6.*1 else []) = Ok s6' ->
  check_confed cx attrs_of msg (mkWork s4 s6 kept_v4 kept_mp_v4 kept_mp_v6 note_mandatory)
  = Ok (mkWork s4' s6' (if confed_malformed then [] else kept_v4)
          (if confed_malformed then [] else kept_mp_v4)
          (if confed_malformed then [] else kept_mp_v6) plan_notification).
Proof.
  unfold check_confed, confed_malformed. cbn [w_notification]. intros E4 E6.
  assert (Hkeep : has_as_path attrs_of && malformed_confed (cx_peer_type cx) (pu_as_path attrs_of) = false
      \/ note_mandatory <> None -> note_mandatory = plan_notification).
  { unfold note_mandatory, plan_notification. destruct (has_reachable_nlri_on_wire msg); [done|].
    destruct (existsb _ _), (negb (has_origin attrs_of)), (negb (has_as_path attrs_of));
      intros [E|?]; rewrite ?E; done. }
  destruct (has_as_path attrs_of) eqn:Ep; cbn [andb] in *.
  2:{ injection E4 as <-. injection E6 as <-. by rewrite Hkeep by auto. }
  destruct (malformed_confed _ _) eqn:Em; cbn [andb] in *.
  2:{ injection E4 as <-. injection E6 as <-. rewrite Hkeep by auto. by destruct plan_notification. }
  destruct (has_reachable_nlri_on_wire msg) eqn:Er.
  - assert (Hn : note_mandatory = None /\ plan_notification = None)
      by (unfold note_mandatory, plan_notification; by rewrite Er).
    destruct Hn as [-> ->]. by apply treat_as_withdraw_run.
  - injection E4 as <-. injection E6 as <-. destruct note_mandatory as [note|] eqn:En.
    + by rewrite <- Hkeep by (right; done).
    + cbn [w_v4 w_v6 w_announced w_mp_v4 w_mp_v6]. do 2 f_equal.
      revert En. unfold note_mandatory, plan_notification. rewrite Er, Ep, Em.
      by destruct (existsb _ _), (negb (has_origin attrs_of)).
Qed.

Lemma announce_v4_run p s l :
  announce_v4 cx p false s l
  = run4 s (map SoImport (omap (fun x : Nlri FamV4 * option NextHop =>
      if bad_v4_nh (snd x) (cx_local_v4_addr cx) then None
      else Some (restore_rr p (build_route (cx_clock cx FamV4 (fst x)) (cx_peer_type cx)
                                 (cx_peer_bgp_id cx) p (fst x) (snd x)))) l)).
Proof.
  revert s. induction l as [|[n nh] l IH]; intros s; cbn [announce_v4]; [done|].
  cbn [omap list_omap fst snd]. destruct (bad_v4_nh nh _); [apply IH|].
  cbn [map side_run side_op]. destruct (import_route _ _ _ _ _); cbn [mbind outcome_bind]; [apply IH|done..].
Qed.
Lemma announce_v4_skip p s l : announce_v4 cx p true s l = Ok s.
Proof. revert s. induction l as [|[n nh] l IH]; intros s; [done|]. apply IH. Qed.
Lemma announce_v6_run p s l :
  announce_v6 cx p s l
  = run6 s (map SoImport (omap (fun x : Nlri FamV6 * NextHop =>
      if bad_v6_nh (snd x) (cx_local_v6_addr cx) then None
      else Some (build_route (cx_clock cx FamV6 (fst x)) (cx_peer_type cx) (cx_peer_bgp_id cx) p
                   (fst x) (Some (snd x)))) l)).
Proof.
  revert s. induction l as [|[n nh] l IH]; intros s; cbn [announce_v6]; [done|].
  cbn [omap list_omap fst snd]. destruct (bad_v6_nh nh _); [apply IH|].
  cbn [map side_run side_op]. destruct (import_route _ _ _ _ _); cbn [mbind outcome_bind]; [apply IH|done..].
Qed.

Lemma run_split {f} peer pol oracle (s s' : Side f) ops1 ops2 :
  side_run peer pol oracle s (ops1 ++ ops2) = Ok s' ->
  exists s1, side_run peer pol oracle s ops1 = Ok s1 /\ side_run peer pol oracle s1 ops2 = Ok s'.
Proof. rewrite side_run_app. destruct (side_run _ _ _ s ops1) as [s1| | |]; [|done..]. eauto. Qed.

(** If the plans of both families run, the message is handled by running them. *)
Lemma handle_update_plan t4 lr4 t6 lr6 s4 s6 :
  run4 (side_new t4 lr4) plan_v4 = Ok s4 -> run6 (side_new t6 lr6) plan_v6 = Ok s6 ->
  handle_update cx msg t4 lr4 t6 lr6 = Ok (s4, s6, plan_notification).
Proof.
  unfold plan_v4, plan_v6. intros E4 E6.
  apply run_split in E4 as (a1 & Ea1 & E4). apply run_split in E4 as (a2 & Ea2 & E4).
  apply run_split in E4 as (a3 & Ea3 & E4). apply run_split in E4 as (a4 & Ea4 & E4).
  apply run_split in E6 as (b1 & Eb1 & E6). apply run_split in E6 as (b2 & Eb2 & E6).
  apply run_split in E6 as (b3 & Eb3 & E6).
  unfold handle_update. rewrite (withdraw_routes_run _ (cx_policy cx)), Ea1. cbn [mbind outcome_bind].
  fold attrs_of. rewrite (check_mandatory_run _ _ _ _ Ea2 Eb1). cbn [mbind outcome_bind].
  rewrite !clear_mp_spec. cbn [w_v4 w_v6 w_announced w_mp_v4 w_mp_v6 w_notification].
  assert (Ek4 : (if has_loop cx attrs_of then [] else if has_as_zero attrs_of then []
      else if lacks_mandatory then [] else mp_v4_announced attrs_of) = kept_mp_v4)
    by (unfold kept_mp_v4, dropped; by destruct (has_loop _ _), (has_as_zero _), lacks_mandatory).
  assert (Ek6 : (if has_loop cx attrs_of then [] else if has_as_zero attrs_of then []
      else if lacks_mandatory then [] else mp_v6_announced attrs_of) = kept_mp_v6)
    by (unfold kept_mp_v6, dropped; by destruct (has_loop _ _), (has_as_zero _), lacks_mandatory).
  rewrite Ek4, Ek6, (check_confed_run _ _ _ _ Ea3 Eb2). cbn [mbind outcome_bind].
  cbn [w_v4 w_v6 w_announced w_mp_v4 w_mp_v6 w_notification].
  rewrite (withdraw_routes_run _ (cx_policy cx)), Ea4. cbn [mbind outcome_bind].
  assert (En4 : announce_v4 cx attrs_of (has_loop cx attrs_of || has_as_zero attrs_of) a4
      (map (fun n => (n, pu_next_hop attrs_of)) (if confed_malformed then [] else kept_v4)
       ++ map (fun x => (fst x, Some (snd x))) (if confed_malformed then [] else kept_mp_v4)) = Ok s4).
  { unfold dropped in E4. rewrite (orb_comm (has_loop _ _)).
    destruct (has_as_zero attrs_of || has_loop cx attrs_of).
    - rewrite announce_v4_skip. rewrite orb_true_r in E4. exact E4.
    - rewrite announce_v4_run. rewrite orb_false_r in E4.
      destruct confed_malformed; [exact E4|]. exact E4. }
  rewrite En4. cbn [mbind outcome_bind].
  rewrite (withdraw_routes_run _ (cx_policy_v6 cx)), Eb3. cbn [mbind outcome_bind].
  rewrite announce_v6_run.
  assert (En6 : run6 b3 (map SoImport (omap (fun x : Nlri FamV6 * NextHop =>
      if bad_v6_nh (snd x) (cx_local_v6_addr cx) then None
      else Some (build_route (cx_clock cx FamV6 (fst x)) (cx_peer_type cx) (cx_peer_bgp_id cx) attrs_of
                   (fst x) (Some (snd x)))) (if confed_malformed then [] else kept_mp_v6))) = Ok s6)
    by (destruct confed_malformed; exact E6).
  by rewrite En6.
Qed.
End Plan.

(** ** Facts for the claims *)
Section Facts.
Context `{P : IpPrefixOps} {M : RouteMapOps} {HO : HashOrder}.

Lemma foldl_keeps_nlri {f A} (g : Route f -> A -> Route f) l : (forall r a, nlri (g r a) = nlri r) ->
  forall r, nlri (foldl g r l) = nlri r.
Proof. intros Hg. induction l as [|a l IH]; intros r; [done|]. cbn [foldl]. by rewrite IH. Qed.
Lemma build_route_nlri {f} now pt id p (n : Nlri f) nh : nlri (build_route now pt id p n nh) = n.
Proof.
  unfold build_route. cbn [build set_stale nlri].
  rewrite foldl_keeps_nlri by done. destruct (otc _); cbn [b_otc with_rare_mut with_rare nlri];
    destruct (aggregator _); cbn [b_aggregator with_rare_mut with_rare nlri];
    destruct (atomic_aggregate _); cbn [b_atomic_aggregate with_rare_mut with_rare nlri];
    rewrite !foldl_keeps_nlri by done;
    by destruct (pu_med p), (pu_local_pref p), nh, id.
Qed.
Lemma restore_rr_nlri {f} p (r : Route f) : nlri (restore_rr p r) = nlri r.
Proof. unfold restore_rr. by destruct (originator_id _), (cluster_list _). Qed.

Lemma withdraws_ok {f} (l : list (Nlri f)) : Forall canonical l -> Forall side_op_ok (map SoWithdraw l).
Proof. intros H. rewrite Forall_map. exact H. Qed.
Lemma Forall_if {A} (Q : A -> Prop) (b : bool) l l' : Forall Q l -> Forall Q l' ->
  Forall Q (if b then l else l').
Proof. by destruct b. Qed.
Lemma Forall_if_nil {A} (Q : A -> Prop) (b : bool) (l : list A) : Forall Q l ->
  Forall Q (if b then [] else l).
Proof. destruct b; [constructor|done]. Qed.

Lemma plan_v4_ok cx msg : msg_ok msg -> Forall side_op_ok (plan_v4 cx msg).
Proof.
  intros (H1 & H2 & H3). destruct (parse_ok (cx_peer_type cx) _ H3) as (P1 & P2 & _ & _).
  fold (attrs_of cx msg) in P1, P2.
  assert (K1 : Forall canonical (kept_v4 cx msg)) by (by apply Forall_if_nil).
  assert (K2 : Forall canonical (kept_mp_v4 cx msg).*1)
    by (unfold kept_mp_v4; destruct (_ || _); [constructor|done]).
  unfold plan_v4. repeat apply Forall_app_2; try (apply Forall_if; [|constructor]);
    try (by apply withdraws_ok); try (apply withdraws_ok; by apply Forall_app_2).
  apply Forall_if_nil. rewrite Forall_map. unfold routes_v4. apply Forall_forall.
  intros r ([n nh] & Hin & E)%list_elem_of_omap. cbn [fst snd] in E.
  destruct (bad_v4_nh _ _); [done|]. injection E as <-. cbn [side_op_ok].
  rewrite restore_rr_nlri, build_route_nlri. apply elem_of_app in Hin as [Hin|Hin].
  - apply list_elem_of_fmap in Hin as (m & [= -> ->] & Hm). by apply (Forall_forall canonical (kept_v4 cx msg)).
  - apply list_elem_of_fmap in Hin as ([m h] & [= -> ->] & Hm).
    apply (Forall_forall canonical (kept_mp_v4 cx msg).*1); [done|]. apply list_elem_of_fmap. by exists (m, h).
Qed.
Lemma plan_v6_ok cx msg : msg_ok msg -> Forall side_op_ok (plan_v6 cx msg).
Proof.
  intros (H1 & H2 & H3). destruct (parse_ok (cx_peer_type cx) _ H3) as (_ & _ & P1 & P2).
  fold (attrs_of cx msg) in P1, P2.
  assert (K2 : Forall canonical (kept_mp_v6 cx msg).*1)
    by (unfold kept_mp_v6; destruct (_ || _); [constructor|done]).
  unfold plan_v6. repeat apply Forall_app_2; try (apply Forall_if; [|constructor]);
    try (by apply withdraws_ok).
  apply Forall_if_nil. rewrite Forall_map. unfold routes_v6. apply Forall_forall.
  intros r ([n nh] & Hin & E)%list_elem_of_omap. cbn [fst snd] in E.
  destruct (bad_v6_nh _ _); [done|]. injection E as <-. cbn [side_op_ok]. rewrite build_route_nlri.
  apply (Forall_forall canonical (kept_mp_v6 cx msg).*1); [done|]. apply list_elem_of_fmap. by exists (n, nh).
Qed.

(** Every entry of an Adj-RIB-In is stored under its own canonical prefix. *)
Definition ari_ok {f} (m : gmap (Nlri f) (Route f)) : Prop :=
  forall n r, m !! n = Some r -> nlri r = n /\ canonical n.
Lemma in_ops_ok {f} (ops : list (SideOp f)) : Forall side_op_ok ops ->
  forall m, ari_ok m -> ari_ok (foldl in_op m ops).
Proof.
  induction 1 as [|op ops Hop _ IH]; intros m Hm; [done|]. apply IH. intros n r.
  destruct op as [n'|raw]; cbn [in_op].
  - rewrite lookup_delete. destruct (decide _); [done|apply Hm].
  - rewrite lookup_insert. destruct (decide _) as [<-|]; [|apply Hm]. by intros [= <-].
Qed.

(** What running a plan promises of the tables of one family. *)
Record side_refines {f} (peer : PeerId) (policy : Policy (Route f)) (oracle : NextHopOracle)
    (t : AdjRibIn f) (lr : LocRib f) (ops : list (SideOp f)) (s : Side f) : Prop := {
  sr_ok : rib_ok (s_rib s);
  sr_in : ari_routes (s_in s) = foldl in_op (ari_routes t) ops;
  sr_in_ok : ari_ok (ari_routes t) -> ari_ok (ari_routes (s_in s));
  sr_candidates : forall n p, candidates (s_rib s) !! (n, p)
    = foldl spec_step (candidates lr) (plan_rib peer policy oracle ops) !! (n, p);
  sr_best : all_up_to_date oracle lr -> all_up_to_date oracle (s_rib s);
  sr_other : forall n, canonical n -> n ∉ map side_nlri ops -> best_peer (s_rib s) n = best_peer lr n;
  sr_fib : Forall op_reachable (plan_rib peer policy oracle ops) -> forall fib,
    (forall n, canonical n -> fib !! n = best lr n) ->
    forall n, canonical n -> foldl apply_change fib (s_changes s) !! n = best (s_rib s) n;
}.

Lemma one_oracle {f} oracle (ops : list (RibOp f)) (s : Prop) :
  Forall (fun op => op_oracle op = oracle) ops -> s ->
  foldl (fun s op => op_oracle op = oracle
    /\ match op with RRecomputeAll _ => True | _ => s end) s ops.
Proof.
  intros H. revert s. induction H as [|op ops Ho _ IH]; intros s Hs; [done|]. cbn [foldl].
  apply IH. split; [done|]. by destruct op.
Qed.
Lemma plan_oracle {f} peer (policy : Policy (Route f)) oracle ops :
  Forall (fun op => op_oracle op = oracle) (plan_rib peer policy oracle ops).
Proof.
  unfold plan_rib. induction ops as [|op ops IH]; [constructor|]. cbn [map concat].
  apply Forall_app_2; [|done]. destruct op as [n|raw]; cbn [rib_ops]; [by repeat constructor|].
  destruct (has_blackhole raw); [by repeat constructor|].
  destruct (evaluate policy raw) as [r []]; by repeat constructor.
Qed.

Context {L : IpPrefixLaws} {ML : RouteMapLaws} {HL : HashOrderLaw}.

Lemma side_run_refines {f} peer (policy : Policy (Route f)) oracle t lr ops :
  keeps_nlri policy -> Forall side_op_ok ops -> rib_ok lr ->
  exists s, side_run peer policy oracle (side_new t lr) ops = Ok s
    /\ side_refines peer policy oracle t lr ops s.
Proof.
  intros Hk Hops Hok.
  destruct (side_run_spec peer policy oracle ops (side_new t lr) Hk Hops Hok) as (s & cs & E & R & C & I).
  cbn [side_new s_rib s_changes s_in app] in *. exists s. split; [done|].
  destruct (rib_run_spec (plan_rib peer policy oracle ops) lr Hok) as (lr' & cs' & E' & Hok' & Hc & Hu & Hm);
    [by apply plan_ok|].
  rewrite R in E'. injection E' as <- <-. split.
  - done.
  - done.
  - intros Ht. rewrite I. by apply in_ops_ok.
  - by apply Hc.
  - intros Hall. apply (Hu oracle (all_up_to_date oracle lr)); [done|].
    apply one_oracle; [apply plan_oracle|done].
  - intros n Hn Hin. eapply rib_run_other; [exact Hn|exact Hok|by eapply plan_ok| |exact R]. by apply plan_other.
  - rewrite C. exact Hm.
Qed.

(** Operations that leave a peer's candidate for a prefix alone. *)
Lemma untouched {f} peer (policy : Policy (Route f)) oracle n ops :
  keeps_nlri policy ->
  Forall (fun op => match op with
    | SoWithdraw m => m <> n
    | SoImport raw => nlri raw = n ->
        has_blackhole raw = false /\ snd (evaluate policy raw) <> DAccept end) ops ->
  forall m, foldl spec_step m (plan_rib peer policy oracle ops) !! (n, peer) = m !! (n, peer).
Proof.
  intros Hk. unfold plan_rib. induction 1 as [|op ops Hop _ IH]; intros m; [done|].
  cbn [map concat]. rewrite foldl_app, IH. destruct op as [k|raw]; cbn [rib_ops].
  - simpl. apply lookup_delete_ne. congruence.
  - specialize (Hk raw). destruct (has_blackhole raw) eqn:Eb.
    + simpl. apply lookup_delete_ne. intros [= E]. by destruct (Hop E).
    + destruct (evaluate policy raw) as [r []]; try done. simpl in *.
      apply lookup_insert_ne. intros [= E]. rewrite Hk in E. by destruct (Hop E).
Qed.

(** Withdrawing a list of prefixes. *)
Lemma withdraws_in {f} (l : list (Nlri f)) n : n ∈ l -> forall m,
  foldl in_op m (map SoWithdraw l) !! n = None.
Proof.
  assert (Hnone : forall l m, m !! n = None -> foldl (in_op (f:=f)) m (map SoWithdraw l) !! n = None).
  { clear. induction l as [|k l IH]; intros m Hm; [done|]. apply IH. cbn [in_op].
    rewrite lookup_delete. by destruct (decide _). }
  induction l as [|k l IH]; intros Hin m; [by apply not_elem_of_nil in Hin|].
  apply elem_of_cons in Hin as [->|Hin]; [|by apply IH].
  apply (Hnone l). apply lookup_delete_eq.
Qed.
Lemma withdraws_candidates {f} peer (policy : Policy (Route f)) oracle (l : list (Nlri f)) n : n ∈ l ->
  forall m, foldl spec_step m (plan_rib peer policy oracle (map SoWithdraw l)) !! (n, peer) = None.
Proof.
  assert (Hnone : forall l m, m !! (n, peer) = None ->
    foldl spec_step m (plan_rib peer policy oracle (map SoWithdraw l)) !! (n, peer) = None).
  { clear. induction l as [|k l IH]; intros m Hm; [done|]. apply IH. simpl.
    rewrite lookup_delete. by destruct (decide _). }
  induction l as [|k l IH]; intros Hin m; [by apply not_elem_of_nil in Hin|].
  apply elem_of_cons in Hin as [->|Hin]; [|by apply IH].
  apply (Hnone l). apply lookup_delete_eq.
Qed.
End Facts.

(** ** Claims *)
Section Claims.
Context `{P : IpPrefixOps} {M : RouteMapOps} {HO : HashOrder}.
Context {L : IpPrefixLaws} {ML : RouteMapLaws} {HL : HashOrderLaw}.
Context (cx : UpdateCtx) (msg : UpdateMessage).
Context (t4 : AdjRibIn FamV4) (lr4 : LocRib FamV4) (t6 : AdjRibIn FamV6) (lr6 : LocRib FamV6).
Context (Hmsg : msg_ok msg) (Hlr4 : rib_ok lr4) (Hlr6 : rib_ok lr6).
Context (Hk4 : keeps_nlri (cx_policy cx)) (Hk6 : keeps_nlri (cx_policy_v6 cx)).

Lemma handle_update_spec : exists s4 s6,
  handle_update cx msg t4 lr4 t6 lr6 = Ok (s4, s6, plan_notification cx msg)
  /\ side_refines (cx_peer cx) (cx_policy cx) (cx_oracle_v4 cx) t4 lr4 (plan_v4 cx msg) s4
  /\ side_refines (cx_peer cx) (cx_policy_v6 cx) (cx_oracle_v6 cx) t6 lr6 (plan_v6 cx msg) s6.
Proof.
  destruct (side_run_refines (cx_peer cx) _ (cx_oracle_v4 cx) t4 lr4 _ Hk4 (plan_v4_ok cx msg Hmsg) Hlr4)
    as (s4 & E4 & R4).
  destruct (side_run_refines (cx_peer cx) _ (cx_oracle_v6 cx) t6 lr6 _ Hk6 (plan_v6_ok cx msg Hmsg) Hlr6)
    as (s6 & E6 & R6).
  exists s4, s6. split; [|done]. by apply handle_update_plan.
Qed.


Lemma malformed_plans :
  lacks_mandatory cx msg = true \/ (confed_malformed cx msg = true /\ dropped cx msg = false) ->
  exists l4 l6, plan_v4 cx msg = map SoWithdraw l4 /\ plan_v6 cx msg = map SoWithdraw l6
    /\ (forall n, n ∈ Update.announced msg \/ n ∈ (mp_v4_announced (attrs_of cx msg)).*1 -> n ∈ l4)
    /\ (forall n, n ∈ (mp_v6_announced (attrs_of cx msg)).*1 -> n ∈ l6).
Proof.
  intros Hbad.
  exists (withdrawn msg
    ++ (if lacks_mandatory cx msg
        then Update.announced msg ++ (mp_v4_announced (attrs_of cx msg)).*1 else [])
    ++ (if confed_malformed cx msg then kept_v4 cx msg ++ (kept_mp_v4 cx msg).*1 else [])
    ++ mp_v4_withdrawn (attrs_of cx msg)).
  exists ((if lacks_mandatory cx msg then (mp_v6_announced (attrs_of cx msg)).*1 else [])
    ++ (if confed_malformed cx msg then (kept_mp_v6 cx msg).*1 else [])
    ++ mp_v6_withdrawn (attrs_of cx msg)).
  unfold plan_v4, plan_v6, routes_v4, routes_v6, kept_v4, kept_mp_v4, kept_mp_v6.
  destruct (lacks_mandatory cx msg), (confed_malformed cx msg), (dropped cx msg);
    destruct Hbad as [H|[H1 H2]]; try done; rewrite !map_app; cbn [orb map app fmap list_fmap];
    rewrite ?app_nil_r; (split; [done|]; split; [done|]; split);
    intros m; rewrite ?elem_of_app; tauto.
Qed.

(** RFC 7606: when an UPDATE that announces prefixes lacks a mandatory
    attribute, or has confederation segments its peer may not send, none of the
    prefixes it announces is left in the peer's Adj-RIB-In or among its
    candidates, and the session is kept. *)
Theorem handle_update_treat_as_withdraw :
  lacks_mandatory cx msg = true \/ (confed_malformed cx msg = true /\ dropped cx msg = false) ->
  exists s4 s6, handle_update cx msg t4 lr4 t6 lr6 = Ok (s4, s6, None)
    /\ (forall n, n ∈ Update.announced msg \/ n ∈ (mp_v4_announced (attrs_of cx msg)).*1 ->
          ari_routes (s_in s4) !! n = None /\ candidates (s_rib s4) !! (n, cx_peer cx) = None)
    /\ (forall n, n ∈ (mp_v6_announced (attrs_of cx msg)).*1 ->
          ari_routes (s_in s6) !! n = None /\ candidates (s_rib s6) !! (n, cx_peer cx) = None).
Proof.
  intros Hbad. destruct handle_update_spec as (s4 & s6 & E & R4 & R6).
  assert (Hw : has_reachable_nlri_on_wire msg = true).
  { destruct Hbad as [H|[H _]].
    - apply announces_on_wire with cx. unfold lacks_mandatory in H. by apply andb_true_iff in H as [H _].
    - unfold confed_malformed in H. by apply andb_true_iff in H as [_ H]. }
  assert (En : plan_notification cx msg = None) by (unfold plan_notification; by rewrite Hw).
  rewrite En in E. exists s4, s6. split; [done|].
  destruct (malformed_plans Hbad) as (l4 & l6 & E4 & E6 & H4 & H6). split; intros n Hn.
  - rewrite (sr_in _ _ _ _ _ _ _ R4), (sr_candidates _ _ _ _ _ _ _ R4), E4.
    split; [apply withdraws_in|apply withdraws_candidates]; by apply H4.
  - rewrite (sr_in _ _ _ _ _ _ _ R6), (sr_candidates _ _ _ _ _ _ _ R6), E6.
    split; [apply withdraws_in|apply withdraws_candidates]; by apply H6.
Qed.

(** An announcement that is dropped (its path has AS 0, the local AS or the
    confederation identifier) or rejected by the import policy does not replace
    the route the peer announced before: that one stays a candidate. *)
Theorem handle_update_keeps_replaced n :
  n ∈ Update.announced msg -> n ∉ withdrawn msg -> n ∉ mp_v4_withdrawn (attrs_of cx msg) ->
  lacks_mandatory cx msg = false -> confed_malformed cx msg = false ->
  dropped cx msg = true \/ Forall (fun raw => nlri raw = n ->
    has_blackhole raw = false /\ snd (evaluate (cx_policy cx) raw) <> DAccept) (routes_v4 cx msg) ->
  exists s4 s6 note, handle_update cx msg t4 lr4 t6 lr6 = Ok (s4, s6, note)
    /\ candidates (s_rib s4) !! (n, cx_peer cx) = candidates lr4 !! (n, cx_peer cx).
Proof.
  intros _ Hw Hmw Hl Hc Hd. destruct handle_update_spec as (s4 & s6 & E & R4 & _).
  exists s4, s6, (plan_notification cx msg). split; [done|].
  rewrite (sr_candidates _ _ _ _ _ _ _ R4). apply untouched; [exact Hk4|].
  unfold plan_v4. rewrite Hl, Hc. cbn [app orb].
  assert (Hne : forall l : list (Nlri FamV4), n ∉ l -> Forall (fun op => match op with
    | SoWithdraw m => m <> n
    | SoImport raw => nlri raw = n ->
        has_blackhole raw = false /\ snd (evaluate (cx_policy cx) raw) <> DAccept end)
    (map SoWithdraw l)).
  { intros l Hn. rewrite Forall_map. apply Forall_forall. intros m Hm ->. done. }
  apply Forall_app_2; [by apply Hne|]. apply Forall_app_2; [by apply Hne|].
  destruct Hd as [->|Hd]; [constructor|]. apply Forall_if_nil. by rewrite Forall_map.
Qed.
End Claims.

(** ** Soft reconfiguration *)
Section Reapply.
Context `{P : IpPrefixOps} {M : RouteMapOps} {HO : HashOrder} {f : Family}.
Context {L : IpPrefixLaws} {ML : RouteMapLaws} {HL : HashOrderLaw}.

Definition reapply_op (peer : PeerId) (policy : Policy (Route f)) oracle (x : Nlri f * Route f)
    : RibOp f :=
  match evaluate policy (snd x) with
  | (r, DAccept) => RInsert peer r oracle
  | _ => RWithdraw peer (fst x) oracle
  end.
Lemma reapply_run peer policy oracle l : forall lr,
  reapply_each peer policy oracle lr l = rib_run lr (map (reapply_op peer policy oracle) l).
Proof.
  induction l as [|[n raw] l IH]; intros lr; cbn [reapply_each map rib_run]; [done|].
  unfold reapply_op at 2. cbn [fst snd].
  destruct (evaluate policy raw) as [r []]; cbn [rib_step].
  - destruct (loc_rib_insert lr peer r oracle) as [[lr1 c]| | |]; cbn [one mbind outcome_bind]; [|done..].
    rewrite IH. by destruct (rib_run lr1 _) as [[]| | |].
  - destruct (loc_rib_withdraw lr peer n oracle) as [[lr1 c]| | |]; cbn [one mbind outcome_bind]; [|done..].
    rewrite IH. by destruct (rib_run lr1 _) as [[]| | |].
  - destruct (loc_rib_withdraw lr peer n oracle) as [[lr1 c]| | |]; cbn [one mbind outcome_bind]; [|done..].
    rewrite IH. by destruct (rib_run lr1 _) as [[]| | |].
Qed.

(** The candidate a raw route leaves. *)
Definition accepted_route (policy : Policy (Route f)) (raw : Route f) : option (Route f) :=
  match evaluate policy raw with (r, DAccept) => Some r | _ => None end.

Lemma reapply_step peer policy oracle n raw m k q :
  keeps_nlri policy -> nlri raw = n ->
  spec_step m (reapply_op peer policy oracle (n, raw)) !! (k, q)
  = if decide ((k, q) = (n, peer)) then accepted_route policy raw else m !! (k, q).
Proof.
  intros Hk Hn. unfold reapply_op, accepted_route. cbn [fst snd]. specialize (Hk raw).
  destruct (evaluate policy raw) as [r []]; cbn [spec_step fst] in *.
  - rewrite Hk, Hn, lookup_insert. destruct (decide ((n, peer) = (k, q))) as [E|E].
    + by rewrite decide_True by congruence.
    + by rewrite decide_False by congruence.
  - rewrite lookup_delete. destruct (decide ((n, peer) = (k, q))).
    + by rewrite decide_True by congruence.
    + by rewrite decide_False by congruence.
  - rewrite lookup_delete. destruct (decide ((n, peer) = (k, q))).
    + by rewrite decide_True by congruence.
    + by rewrite decide_False by congruence.
Qed.
Lemma reapply_other peer policy oracle l k q : keeps_nlri policy ->
  Forall (fun x : Nlri f * Route f => nlri (snd x) = fst x) l -> (q = peer -> k ∉ l.*1) -> forall m,
  foldl spec_step m (map (reapply_op peer policy oracle) l) !! (k, q) = m !! (k, q).
Proof.
  intros Hk. induction 1 as [|[n raw] l Hn _ IH]; intros Hnin m; [done|]. cbn [map foldl fst snd] in *.
  rewrite IH by (intros E; specialize (Hnin E); set_solver). rewrite reapply_step by done.
  destruct (decide _) as [[= -> ->]|]; [|done]. destruct (Hnin eq_refl). left.
Qed.
Lemma reapply_candidates peer policy oracle l : keeps_nlri policy ->
  NoDup l.*1 -> Forall (fun x : Nlri f * Route f => nlri (snd x) = fst x) l -> forall m n raw,
  (n, raw) ∈ l ->
  foldl spec_step m (map (reapply_op peer policy oracle) l) !! (n, peer) = accepted_route policy raw.
Proof.
  intros Hk. induction l as [|[k raw'] l IH]; intros Hnd Hf m n raw Hin; [by apply not_elem_of_nil in Hin|].
  cbn [map foldl fst snd] in *. apply NoDup_cons in Hnd as [Hni Hnd]. apply Forall_cons in Hf as [Hn Hf].
  apply elem_of_cons in Hin as [[= -> ->]|Hin]; [|by apply IH].
  rewrite reapply_other by (try done; by intros _).
  rewrite reapply_step by done. by rewrite decide_True.
Qed.

(** Soft reconfiguration makes the peer's candidates exactly the routes the
    policy accepts: for each prefix of its Adj-RIB-In the accepted form of the
    stored route, or none; other candidates are left alone and the best routes
    stay those of the decision process. *)
Theorem reapply_import_policy_exact peer (t : AdjRibIn f) lr policy oracle :
  keeps_nlri policy -> ari_ok (ari_routes t) -> rib_ok lr ->
  exists lr' cs, reapply_import_policy peer t lr policy oracle = Ok (lr', cs)
    /\ rib_ok lr'
    /\ (forall n raw, ari_routes t !! n = Some raw ->
          candidates lr' !! (n, peer) = accepted_route policy raw)
    /\ (forall n q, q <> peer \/ ari_routes t !! n = None ->
          candidates lr' !! (n, q) = candidates lr !! (n, q))
    /\ (all_up_to_date oracle lr -> all_up_to_date oracle lr').
Proof.
  intros Hk Ht Hok. unfold reapply_import_policy. rewrite reapply_run.
  set (l := ari_iter t). assert (Hl : forall n raw, (n, raw) ∈ l <-> ari_routes t !! n = Some raw).
  { intros n raw. unfold l, ari_iter. rewrite (hash_order_perm _ (map_to_list _)). apply elem_of_map_to_list. }
  assert (Hnd : NoDup l.*1).
  { unfold l, ari_iter. rewrite (hash_order_perm _ (map_to_list _)). apply NoDup_fst_map_to_list. }
  assert (Hf : Forall (fun x : Nlri f * Route f => nlri (snd x) = fst x) l).
  { apply Forall_forall. intros [n raw] Hin%Hl. by apply Ht. }
  destruct (rib_run_spec (map (reapply_op peer policy oracle) l) lr Hok) as (lr' & cs & E & Hok' & Hc & Hu & _).
  { rewrite Forall_map. apply Forall_forall. intros [n raw] Hin%Hl. destruct (Ht n raw Hin) as [Hn Hcn].
    unfold reapply_op. cbn [fst snd]. specialize (Hk raw). destruct (evaluate policy raw) as [r []]; [|exact Hcn..].
    simpl in *. by rewrite Hk, Hn. }
  specialize (Hc (candidates lr) ltac:(done)). exists lr', cs. split_and!; [done|done| | |].
  - intros n raw Hin%Hl. rewrite Hc. by apply reapply_candidates.
  - intros n q Hnq. rewrite Hc. apply reapply_other; [done|done|]. intros -> Hin.
    apply list_elem_of_fmap in Hin as ([k raw] & -> & Hin%Hl). destruct Hnq; [done|]. simpl in *. congruence.
  - intros Hall. apply (Hu oracle (all_up_to_date oracle lr)); [done|]. apply one_oracle; [|done].
    rewrite Forall_map. apply Forall_forall. intros [n raw] _. unfold reapply_op.
    by destruct (evaluate policy _) as [r []].
Qed.
End Reapply.

(** ** Witnesses *)
Section Applied.
#[local] Existing Instances ModelPrefix.ops ModelPrefix.laws ModelRouteMap.ops ModelRouteMap.laws.
#[local] Existing Instances ModelHashOrder.order ModelHashOrder.order_law.

Definition imp10 : Nlri FamV4 := ModelPrefix.nlri FamV4 167772160 8 eq_refl.
Lemma imp10_canonical : canonical imp10.
Proof. exact (ModelPrefix.nlri_canonical FamV4 167772160 8 eq_refl eq_refl). Qed.
Definition imp_attrs : list PathAttribute :=
  [PaOrigin Igp; PaAsPath (Path.from_sequence [65010]); PaNextHop 3232235777].
Definition imp_msg (attrs : list PathAttribute) : UpdateMessage := mkUpdate [] attrs [imp10].
Definition imp_ctx (d : DefaultAction) : UpdateCtx :=
  mkUpdateCtx (IpV4 3232235777) (policy_new d) (policy_new d) External (Some 7) AlwaysReachable
    AlwaysReachable 65001 None None None (fun _ _ => 0).

Lemma imp_attrs_ok : Forall pa_ok imp_attrs.
Proof.
  refine (Forall_cons_2 pa_ok (PaOrigin Igp) _ I (Forall_cons_2 pa_ok (PaAsPath _) _ _
    (Forall_cons_2 pa_ok (PaNextHop 3232235777) _ _ (Forall_nil_2 _)))).
  - assert (H : Path.seg_wf (Sequence [65010])).
    { split; [apply Nat.leb_le; reflexivity|]. repeat constructor; unfold is_u32; lia. }
    exact (Forall_cons_2 Path.seg_wf _ [] H (Forall_nil_2 _)).
  - cbn [pa_ok]. unfold is_u32. lia.
Qed.
Lemma imp_msg_ok attrs : Forall pa_ok attrs -> NoDup (map type_code attrs) -> msg_ok (imp_msg attrs).
Proof.
  intros Ha Hd. apply update_msg_ok. split_and!; [constructor| |exact Ha|exact Hd].
  exact (Forall_cons_2 canonical imp10 _ imp10_canonical (Forall_nil_2 _)).
Qed.
Lemma imp_full_ok : msg_ok (imp_msg imp_attrs).
Proof.
  apply imp_msg_ok; [exact imp_attrs_ok|]. apply NoDup_ListNoDup.
  repeat constructor; simpl; naive_solver.
Qed.
Lemma imp_bare_ok : msg_ok (imp_msg []).
Proof. apply imp_msg_ok; constructor. Qed.


Lemma handle_update_treat_as_withdraw_witness : exists s4 s6,
  handle_update (imp_ctx DefAccept) (imp_msg []) (ari_new (IpV4 3232235777)) loc_rib_new
    (ari_new (IpV4 3232235777)) loc_rib_new = Ok (s4, s6, None)
  /\ ari_routes (s_in s4) !! imp10 = None.
Proof.
  destruct (handle_update_treat_as_withdraw (imp_ctx DefAccept) (imp_msg []) (ari_new (IpV4 3232235777))
    loc_rib_new (ari_new (IpV4 3232235777)) loc_rib_new imp_bare_ok loc_rib_new_ok loc_rib_new_ok
    (fun _ => eq_refl) (fun _ => eq_refl) (or_introl eq_refl)) as (s4 & s6 & E & H & _).
  exists s4, s6. split; [exact E|]. apply H. left. apply elem_of_cons. by left.
Defined.

Lemma handle_update_keeps_replaced_witness : exists s4 s6 note,
  handle_update (imp_ctx DefReject) (imp_msg imp_attrs) (ari_new (IpV4 3232235777)) loc_rib_new
    (ari_new (IpV4 3232235777)) loc_rib_new = Ok (s4, s6, note)
  /\ candidates (s_rib s4) !! (imp10, IpV4 3232235777) = None.
Proof.
  apply (handle_update_keeps_replaced (imp_ctx DefReject) (imp_msg imp_attrs) (ari_new (IpV4 3232235777))
    loc_rib_new (ari_new (IpV4 3232235777)) loc_rib_new imp_full_ok loc_rib_new_ok loc_rib_new_ok
    (fun _ => eq_refl) (fun _ => eq_refl) imp10).
  - apply elem_of_cons. by left.
  - apply not_elem_of_nil.
  - apply not_elem_of_nil.
  - reflexivity.
  - reflexivity.
  - right. assert (E : exists r, routes_v4 (imp_ctx DefReject) (imp_msg imp_attrs) = [r]
      /\ has_blackhole r = false) by (eexists; split; reflexivity).
    destruct E as (r & -> & Hb). constructor; [|constructor].
    intros _. split; [exact Hb|discriminate].
Defined.

Definition imp_route : Route FamV4 := builder_new 0 imp10 Igp (Path.from_sequence [65010]).
Definition imp_in : AdjRibIn FamV4 := fst (ari_insert (ari_new (IpV4 3232235777)) imp_route).
Lemma imp_in_ok : ari_ok (ari_routes imp_in).
Proof.
  intros n r. unfold imp_in. cbn [ari_insert ari_new fst ari_routes]. rewrite lookup_insert.
  destruct (decide _) as [<-|]; [|rewrite lookup_empty; done].
  intros [= <-]. split; [done|exact imp10_canonical].
Qed.
Lemma reapply_import_policy_exact_witness : exists lr' cs,
  reapply_import_policy (IpV4 3232235777) imp_in loc_rib_new (policy_new DefAccept) AlwaysReachable
    = Ok (lr', cs)
  /\ candidates lr' !! (imp10, IpV4 3232235777) = Some imp_route.
Proof.
  destruct (reapply_import_policy_exact (IpV4 3232235777) imp_in loc_rib_new (policy_new DefAccept)
    AlwaysReachable (fun _ => eq_refl) imp_in_ok loc_rib_new_ok) as (lr' & cs & E & _ & H & _).
  exists lr', cs. split; [exact E|]. exact (H imp10 imp_route (lookup_insert_eq _ _ _)).
Defined.
End Applied.
