(* ===== verification/DaemonState.v ===== *)
(** The state of the daemon ([DaemonState] and [RibSnapshot] of
    [pathvectord/src/daemon/mod.rs]) and its elementary operations.

    The fields the code keeps twice, for IPv4 and IPv6, are the record [Fam] of
    one address family; the others are grouped by what they belong to.  The
    shared snapshot is copied on write, so it is part of the state.  The calls to
    the FIB manager, a trait object, are logged in order ([None]: no manager),
    and so are the route events sent to the watchers; the peer events, which
    carry no data, and the logging are left out. *)
From Stdlib Require Import ZArith Lia Bool.
From stdpp Require Import base tactics numbers decidable gmap list.
From S2P Require Import Prelude Addr Types AsPath Wire Header Notification Open Update RouteMap Policy Route DaemonPolicy BestPath LocRib AdjRib Outbound HandleUpdate Deferral.
Open Scope Z_scope.

(** [MRAI], 30 s *)
Definition MRAI : Z := from_secs 30.
Definition LOCAL_ORIGIN_PEER : PeerId := IpV4 0.

Section DaemonState.
Context `{P : IpPrefixOps} {M : RouteMapOps} {HO : HashOrder}.

(** ** State *)

(** Fixed at start-up. *)
Record Local := mkLocal {
  local_as : Z;
  local_bgp_id : Z;
  local_ipv6 : option Z;
  cluster_id : Z;
  confederation_id : option Z;
  rr_clients : gset IpAddr;
  config_capabilities : list Capability;
}.
(** The tables of one address family; [stale_nlri] is a field of
    [GracefulRestartState]. *)
Record Fam (f : Family) := mkFam {
  adj_ribs_in : gmap IpAddr (AdjRibIn f);
  adj_ribs_out : gmap IpAddr (AdjRibOut f);
  loc_rib : LocRib f;
  oracle : NextHopOracle;
  pending_decisions : gmap IpAddr (list (PrefixDecision f));
  eor_received : gset IpAddr;
  stale_nlri : gmap IpAddr (gset (Nlri f));
  originated_routes : gset (Nlri f);
  peer_max_prefixes : gmap IpAddr Z;
}.
Arguments mkFam {f}.
Arguments adj_ribs_in {f}.
Arguments adj_ribs_out {f}.
Arguments loc_rib {f}.
Arguments oracle {f}.
Arguments pending_decisions {f}.
Arguments eor_received {f}.
Arguments stale_nlri {f}.
Arguments originated_routes {f}.
Arguments peer_max_prefixes {f}.
(** What is known of the established peers. *)
Record Sessions := mkSessions {
  peer_types : gmap IpAddr PeerType;
  established_at : gmap IpAddr Instant;
  hold_times : gmap IpAddr Z;
  local_addrs : gmap IpAddr IpAddr;
  peer_bgp_ids : gmap IpAddr Z;
  negotiated_max_len : gmap IpAddr nat;
  ipv6_capable_peers : gset IpAddr;
  four_byte_peers : gset IpAddr;
  route_refresh_peers : gset IpAddr;
  gr_capable_peers : gmap IpAddr Z;
  gr_advertised_peers : gset IpAddr;
  gr_peer_restarting : gset IpAddr;
  negotiated_roles : gmap IpAddr Role;
}.
(** What is known of the configured peers. *)
Record Peers := mkPeers {
  policies : PolicyTables;
  peer_remote_as : gmap IpAddr Z;
  peer_roles : gmap IpAddr Role;
  peer_config_types : gmap IpAddr PeerType;
  next_hop_self_peers : gset IpAddr;
  shutdown_messages : gmap IpAddr (list Z);
  peer_max_prefixes_restart : gmap IpAddr Z;
  max_prefix_idle : gmap IpAddr Instant;
  pending_removal : gset IpAddr;
}.
(** [GracefulRestartState] *)
Record GracefulRestartState := mkGr {
  gr_deadlines : gmap IpAddr Instant;
  gr_peer_families : gmap IpAddr (list GracefulRestartFamily);
  notification_capable_peers : gset IpAddr;
}.
(** The way out to the sessions. *)
Record Outgoing := mkOutgoing {
  update_senders : gmap IpAddr Sender;
  mrai_last_sent : gmap IpAddr (gmap (Nlri FamV4) Instant);
  mrai_pending : gmap IpAddr (gset (Nlri FamV4));
  stalled_peers : list IpAddr;
}.
Inductive FibCall :=
| FibApply (f : Family) (c : BestPathChange f)
| FibBlackhole (f : Family) (n : Nlri f)
| FibWithdrawBlackhole (f : Family) (n : Nlri f).
Inductive RouteEvent :=
| EvAnnounced (f : Family) (p : PeerId) (n : Nlri f) (r : Route f)
| EvWithdrawn (f : Family) (n : Nlri f).
(** Counters for the status queries, and the calls out. *)
Record Observed := mkObserved {
  prefixes_received : gmap IpAddr nat;
  prefixes_advertised : gmap IpAddr nat;
  route_events : list RouteEvent;
  fib_manager : option (list FibCall);
}.
Record DaemonState := mkDaemon {
  ds_local : Local;
  ds_v4 : Fam FamV4;
  ds_v6 : Fam FamV6;
  ds_sess : Sessions;
  ds_peers : Peers;
  ds_gr : GracefulRestartState;
  ds_deferral : SelectionDeferral;
  ds_out : Outgoing;
  ds_obs : Observed;
}.

(** ** Field updates *)
Definition ds_fam (d : DaemonState) (f : Family) : Fam f :=
  match f with FamV4 => ds_v4 d | FamV6 => ds_v6 d end.
Definition set_fam {f} : Fam f -> DaemonState -> DaemonState :=
  match f with
  | FamV4 => fun x d => mkDaemon (ds_local d) x (ds_v6 d) (ds_sess d) (ds_peers d) (ds_gr d)
                          (ds_deferral d) (ds_out d) (ds_obs d)
  | FamV6 => fun x d => mkDaemon (ds_local d) (ds_v4 d) x (ds_sess d) (ds_peers d) (ds_gr d)
                          (ds_deferral d) (ds_out d) (ds_obs d)
  end.
Definition set_sess (x : Sessions) (d : DaemonState) : DaemonState :=
  mkDaemon (ds_local d) (ds_v4 d) (ds_v6 d) x (ds_peers d) (ds_gr d) (ds_deferral d) (ds_out d) (ds_obs d).
Definition set_peers (x : Peers) (d : DaemonState) : DaemonState :=
  mkDaemon (ds_local d) (ds_v4 d) (ds_v6 d) (ds_sess d) x (ds_gr d) (ds_deferral d) (ds_out d) (ds_obs d).
Definition set_gr (x : GracefulRestartState) (d : DaemonState) : DaemonState :=
  mkDaemon (ds_local d) (ds_v4 d) (ds_v6 d) (ds_sess d) (ds_peers d) x (ds_deferral d) (ds_out d) (ds_obs d).
Definition set_deferral (x : SelectionDeferral) (d : DaemonState) : DaemonState :=
  mkDaemon (ds_local d) (ds_v4 d) (ds_v6 d) (ds_sess d) (ds_peers d) (ds_gr d) x (ds_out d) (ds_obs d).
Definition set_out (x : Outgoing) (d : DaemonState) : DaemonState :=
  mkDaemon (ds_local d) (ds_v4 d) (ds_v6 d) (ds_sess d) (ds_peers d) (ds_gr d) (ds_deferral d) x (ds_obs d).
Definition set_obs (x : Observed) (d : DaemonState) : DaemonState :=
  mkDaemon (ds_local d) (ds_v4 d) (ds_v6 d) (ds_sess d) (ds_peers d) (ds_gr d) (ds_deferral d) (ds_out d) x.

Definition fam_set_in {f} (m : gmap IpAddr (AdjRibIn f)) (x : Fam f) : Fam f :=
  mkFam m (adj_ribs_out x) (loc_rib x) (oracle x) (pending_decisions x) (eor_received x)
    (stale_nlri x) (originated_routes x) (peer_max_prefixes x).
Definition fam_set_out {f} (m : gmap IpAddr (AdjRibOut f)) (x : Fam f) : Fam f :=
  mkFam (adj_ribs_in x) m (loc_rib x) (oracle x) (pending_decisions x) (eor_received x)
    (stale_nlri x) (originated_routes x) (peer_max_prefixes x).
Definition fam_set_rib {f} (lr : LocRib f) (x : Fam f) : Fam f :=
  mkFam (adj_ribs_in x) (adj_ribs_out x) lr (oracle x) (pending_decisions x) (eor_received x)
    (stale_nlri x) (originated_routes x) (peer_max_prefixes x).
Definition fam_set_oracle {f} (o : NextHopOracle) (x : Fam f) : Fam f :=
  mkFam (adj_ribs_in x) (adj_ribs_out x) (loc_rib x) o (pending_decisions x) (eor_received x)
    (stale_nlri x) (originated_routes x) (peer_max_prefixes x).
Definition fam_set_pending {f} (m : gmap IpAddr (list (PrefixDecision f))) (x : Fam f) : Fam f :=
  mkFam (adj_ribs_in x) (adj_ribs_out x) (loc_rib x) (oracle x) m (eor_received x)
    (stale_nlri x) (originated_routes x) (peer_max_prefixes x).
Definition fam_set_eor {f} (s : gset IpAddr) (x : Fam f) : Fam f :=
  mkFam (adj_ribs_in x) (adj_ribs_out x) (loc_rib x) (oracle x) (pending_decisions x) s
    (stale_nlri x) (originated_routes x) (peer_max_prefixes x).
Definition fam_set_stale {f} (m : gmap IpAddr (gset (Nlri f))) (x : Fam f) : Fam f :=
  mkFam (adj_ribs_in x) (adj_ribs_out x) (loc_rib x) (oracle x) (pending_decisions x)
    (eor_received x) m (originated_routes x) (peer_max_prefixes x).
Definition fam_set_originated {f} (s : gset (Nlri f)) (x : Fam f) : Fam f :=
  mkFam (adj_ribs_in x) (adj_ribs_out x) (loc_rib x) (oracle x) (pending_decisions x)
    (eor_received x) (stale_nlri x) s (peer_max_prefixes x).
Definition fam_set_max {f} (m : gmap IpAddr Z) (x : Fam f) : Fam f :=
  mkFam (adj_ribs_in x) (adj_ribs_out x) (loc_rib x) (oracle x) (pending_decisions x)
    (eor_received x) (stale_nlri x) (originated_routes x) m.
Definition upd_fam {f} (g : Fam f -> Fam f) (d : DaemonState) : DaemonState :=
  set_fam (g (ds_fam d f)) d.

Definition out_set_sender (ip : IpAddr) (tx : Sender) (o : Outgoing) : Outgoing :=
  mkOutgoing (<[ip := tx]> (update_senders o)) (mrai_last_sent o) (mrai_pending o) (stalled_peers o).
Definition out_set_mrai (ip : IpAddr) (last_sent : gmap (Nlri FamV4) Instant)
    (pending : gset (Nlri FamV4)) (o : Outgoing) : Outgoing :=
  mkOutgoing (update_senders o) (<[ip := last_sent]> (mrai_last_sent o))
    (<[ip := pending]> (mrai_pending o)) (stalled_peers o).
Definition push_stalled (ip : IpAddr) (d : DaemonState) : DaemonState :=
  let o := ds_out d in
  set_out (mkOutgoing (update_senders o) (mrai_last_sent o) (mrai_pending o) (stalled_peers o ++ [ip])) d.

(** ** Elementary operations *)
Definition fib_call (c : FibCall) (d : DaemonState) : DaemonState :=
  let o := ds_obs d in
  set_obs (mkObserved (prefixes_received o) (prefixes_advertised o) (route_events o)
             ((fun log => log ++ [c]) <$> fib_manager o)) d.
(** [if let Some(fm) = &self.fib_manager { for change in fib_changes { .. } }] *)
Definition fib_calls (cs : list FibCall) (d : DaemonState) : DaemonState :=
  foldl (fun d c => fib_call c d) d cs.
Definition send_event (e : RouteEvent) (d : DaemonState) : DaemonState :=
  let o := ds_obs d in
  set_obs (mkObserved (prefixes_received o) (prefixes_advertised o) (route_events o ++ [e])
             (fib_manager o)) d.

Definition in_len {f} (x : Fam f) (ip : IpAddr) : nat :=
  match adj_ribs_in x !! ip with Some t => ari_len t | None => 0 end.
Definition out_len {f} (x : Fam f) (ip : IpAddr) : nat :=
  match adj_ribs_out x !! ip with Some t => aro_len t | None => 0 end.
Definition sync_received (ip : IpAddr) (d : DaemonState) : DaemonState :=
  let o := ds_obs d in
  set_obs (mkObserved (<[ip := (in_len (ds_v4 d) ip + in_len (ds_v6 d) ip)%nat]> (prefixes_received o))
             (prefixes_advertised o) (route_events o) (fib_manager o)) d.
Definition sync_advertised (ip : IpAddr) (d : DaemonState) : DaemonState :=
  let o := ds_obs d in
  set_obs (mkObserved (prefixes_received o)
             (<[ip := (out_len (ds_v4 d) ip + out_len (ds_v6 d) ip)%nat]> (prefixes_advertised o))
             (route_events o) (fib_manager o)) d.
Definition take_stalled_peers (d : DaemonState) : DaemonState * list IpAddr :=
  let o := ds_out d in
  (set_out (mkOutgoing (update_senders o) (mrai_last_sent o) (mrai_pending o) []) d, stalled_peers o).
Definition set_oracles (o4 o6 : NextHopOracle) (d : DaemonState) : DaemonState :=
  upd_fam (f:=FamV6) (fam_set_oracle o6) (upd_fam (f:=FamV4) (fam_set_oracle o4) d).

(** The wrappers of the RIB mutations ([rib_insert_v4], ..). *)
Definition rib_insert {f} (peer : PeerId) (route : Route f) (d : DaemonState)
    : Outcome False (DaemonState * BestPathChange f) :=
  '(lr, c) ← loc_rib_insert (loc_rib (ds_fam d f)) peer route (oracle (ds_fam d f));
  Ok (upd_fam (fam_set_rib lr) d, c).
Definition rib_withdraw {f} (peer : PeerId) (n : Nlri f) (d : DaemonState)
    : Outcome False (DaemonState * BestPathChange f) :=
  '(lr, c) ← loc_rib_withdraw (loc_rib (ds_fam d f)) peer n (oracle (ds_fam d f));
  Ok (upd_fam (fam_set_rib lr) d, c).
Definition rib_withdraw_peer f (peer : PeerId) (d : DaemonState)
    : Outcome False (DaemonState * list (BestPathChange f)) :=
  '(lr, cs) ← withdraw_peer (loc_rib (ds_fam d f)) peer (oracle (ds_fam d f));
  Ok (upd_fam (fam_set_rib lr) d, cs).
Definition rib_recompute_all f (d : DaemonState)
    : Outcome False (DaemonState * list (BestPathChange f)) :=
  '(lr, cs) ← recompute_all (loc_rib (ds_fam d f)) (oracle (ds_fam d f));
  Ok (upd_fam (fam_set_rib lr) d, cs).

Definition emit_route_events (affected : list (Nlri FamV4)) (d : DaemonState) : DaemonState :=
  foldl (fun d n =>
    send_event
      (match best (loc_rib (ds_v4 d)) n with
       | Some route =>
           EvAnnounced FamV4 (default (IpV4 0) (best_peer (loc_rib (ds_v4 d)) n)) n route
       | None => EvWithdrawn FamV4 n
       end) d) d affected.

Definition is_rr (d : DaemonState) : bool := negb (bool_decide (rr_clients (ds_local d) = ∅)).
Definition make_adj_ribs_out {f} (peer : PeerId) (pt : PeerType) (is_rr : bool) : AdjRibOut f :=
  if is_rr && bool_decide (pt = Internal) then aro_new_reflecting peer pt else aro_new peer pt.
Definition make_adj_ribs_out_pair (peer : PeerId) (pt : PeerType) (is_rr : bool)
    : AdjRibOut FamV4 * AdjRibOut FamV6 :=
  (make_adj_ribs_out peer pt is_rr, make_adj_ribs_out peer pt is_rr).
Definition best_nlris {f} (d : DaemonState) : list (Nlri f) := (best_routes (loc_rib (ds_fam d f))).*1.

(** [for c in changes { fm.apply(c) }] *)
Definition fib_apply {f} (cs : list (BestPathChange f)) (d : DaemonState) : DaemonState :=
  fib_calls (map (FibApply f) cs) d.
End DaemonState.

Arguments Fam {P M} f.
Arguments mkFam {P M f}.
Arguments adj_ribs_in {P M f}.
Arguments adj_ribs_out {P M f}.
Arguments loc_rib {P M f}.
Arguments oracle {P M f}.
Arguments pending_decisions {P M f}.
Arguments eor_received {P M f}.
Arguments stale_nlri {P M f}.
Arguments originated_routes {P M f}.
Arguments peer_max_prefixes {P M f}.
