(* ===== verification/Propagate.v ===== *)
(** Propagation of best paths to the established peers
    ([pathvectord/src/daemon/route.rs] 416-780, [deferral.rs]): the decisions for
    every peer, the MRAI timer, the coalescing buffers, and the full-table dumps.

    The two families differ in the local address a decision is given, in the
    IPv6 capability check and in MRAI, which only IPv4 has. *)
From Stdlib Require Import ZArith Lia Bool.
From stdpp Require Import base tactics numbers decidable gmap list.
From S2P Require Import Prelude Addr Types AsPath Wire Header Notification Open Update RouteMap Policy Route DaemonPolicy BestPath LocRib AdjRib Outbound HandleUpdate Deferral DaemonState.
Open Scope Z_scope.

Section Propagate.
Context `{P : IpPrefixOps} {M : RouteMapOps} {HO : HashOrder}.

(** ** The decisions for one peer *)
Definition deferred (f : Family) (d : DaemonState) : bool :=
  match f with FamV4 => v4_deferred (ds_deferral d) | FamV6 => v6_deferred (ds_deferral d) end.
Definition public_as (d : DaemonState) : Z :=
  default (local_as (ds_local d)) (confederation_id (ds_local d)).
Definition local_next_hop (d : DaemonState) (ip : IpAddr) : Z :=
  match local_addrs (ds_sess d) !! ip with
  | Some (IpV4 v4) => v4
  | _ => local_bgp_id (ds_local d)
  end.
Definition peer_type_of (d : DaemonState) (ip : IpAddr) : PeerType :=
  default External (peer_types (ds_sess d) !! ip).
Definition max_len_of (d : DaemonState) (ip : IpAddr) : nat :=
  default (Z.to_nat MAX_LEN) (negotiated_max_len (ds_sess d) !! ip).
Definition four_byte (d : DaemonState) (ip : IpAddr) : bool :=
  bool_decide (ip ∈ four_byte_peers (ds_sess d)).
(** Only peers with the IPv6 capability take part in IPv6. *)
Definition capable (f : Family) (d : DaemonState) (ip : IpAddr) : bool :=
  match f with FamV4 => true | FamV6 => bool_decide (ip ∈ ipv6_capable_peers (ds_sess d)) end.

(** The call of [propagate_prefix] or [propagate_prefix_v6]; [nh] is the local
    next hop of the IPv4 call. *)
Definition prefix_decision {f} (d : DaemonState) (ip : IpAddr) (pt : PeerType) (nh : Z)
    (deferred : bool)
    : Policy (Route f) -> AdjRibOut f -> Nlri f -> AdjRibOut f * PrefixDecision f :=
  let next_hop_self := bool_decide (ip ∈ next_hop_self_peers (ds_peers d)) in
  match f with
  | FamV4 => fun policy aro n =>
      propagate_prefix n (loc_rib (ds_v4 d)) aro policy pt (local_as (ds_local d)) (public_as d) nh
        next_hop_self deferred
  | FamV6 => fun policy aro n =>
      propagate_prefix_v6 n (loc_rib (ds_v6 d)) aro policy pt (local_as (ds_local d)) (public_as d)
        (local_ipv6 (ds_local d)) next_hop_self deferred
  end.
(** RFC 4456 8: between two iBGP peers that are not clients nothing is reflected. *)
Definition rr_blocked {f} (d : DaemonState) (ip : IpAddr) (pt : PeerType) (n : Nlri f) : bool :=
  is_rr d && bool_decide (pt = Internal)
  && match best_peer (loc_rib (ds_fam d f)) n with
     | Some (IpV4 a) =>
         let src_is_client := bool_decide (IpV4 a ∈ rr_clients (ds_local d)) in
         let src_is_ibgp := bool_decide (peer_types (ds_sess d) !! IpV4 a = Some Internal) in
         let dest_is_client := bool_decide (ip ∈ rr_clients (ds_local d)) in
         src_is_ibgp && negb src_is_client && negb dest_is_client
     | _ => false
     end.
Definition guarded_decision {f} (d : DaemonState) (ip : IpAddr) (pt : PeerType) (nh : Z)
    (deferred : bool) (policy : Policy (Route f)) (aro : AdjRibOut f) (n : Nlri f)
    : AdjRibOut f * PrefixDecision f :=
  if rr_blocked d ip pt n then (aro, PdNoChange)
  else prefix_decision d ip pt nh deferred policy aro n.
(** [nlris.iter().map(..).collect()]: the decisions share the Adj-RIB-Out. *)
Fixpoint decide_all {f} (g : AdjRibOut f -> Nlri f -> AdjRibOut f * PrefixDecision f)
    (aro : AdjRibOut f) (nlris : list (Nlri f)) : AdjRibOut f * list (PrefixDecision f) :=
  match nlris with
  | [] => (aro, [])
  | n :: nlris =>
      let '(aro, x) := g aro n in
      let '(aro, xs) := decide_all g aro nlris in (aro, x :: xs)
  end.
Definition flush {f} : list (PrefixDecision f) -> nat -> Sender -> PeerType -> bool -> Sender * bool :=
  match f with FamV4 => flush_updates | FamV6 => flush_updates_v6 end.
Definition send_eor f : Sender -> Sender * bool :=
  match f with FamV4 => send_eor_ipv4 | FamV6 => send_eor_ipv6 end.
Definition set_sender (ip : IpAddr) (tx : Sender) (d : DaemonState) : DaemonState :=
  set_out (out_set_sender ip tx (ds_out d)) d.
Definition set_aro {f} (ip : IpAddr) (aro : AdjRibOut f) (d : DaemonState) : DaemonState :=
  upd_fam (fun x : Fam f => fam_set_out (<[ip := aro]> (adj_ribs_out x)) x) d.
Definition established (d : DaemonState) : list IpAddr :=
  (hash_order (map_to_list (peer_types (ds_sess d)))).*1.

(** ** MRAI *)
Definition MraiTable : Type := gmap (Nlri FamV4) Instant * gset (Nlri FamV4).
(** One step of the map over the decisions of an external peer. *)
Definition mrai_decision (now : Instant) (t : MraiTable) (x : PrefixDecision FamV4)
    : MraiTable * PrefixDecision FamV4 :=
  let '(last_sent, pending) := t in
  match x with
  | PdAnnounce route =>
      let n := nlri route in
      let elapsed := match last_sent !! n with
                     | Some t => Z.max 0 (now - t) | None => MRAI end in
      if MRAI <=? elapsed then ((<[n := now]> last_sent, pending ∖ {[n]}), x)
      else ((last_sent, {[n]} ∪ pending), PdNoChange)
  | PdWithdraw n => ((delete n last_sent, pending ∖ {[n]}), x)
  | PdNoChange => (t, x)
  end.
Fixpoint mrai_filter (now : Instant) (t : MraiTable) (xs : list (PrefixDecision FamV4))
    : MraiTable * list (PrefixDecision FamV4) :=
  match xs with
  | [] => (t, [])
  | x :: xs =>
      let '(t, x) := mrai_decision now t x in
      let '(t, xs) := mrai_filter now t xs in (t, x :: xs)
  end.
Definition mrai_table (d : DaemonState) (ip : IpAddr) : MraiTable :=
  (default ∅ (mrai_last_sent (ds_out d) !! ip), default ∅ (mrai_pending (ds_out d) !! ip)).
Definition apply_mrai {f} : Instant -> IpAddr -> list (PrefixDecision f) -> DaemonState ->
    DaemonState * list (PrefixDecision f) :=
  match f with
  | FamV4 => fun now ip xs d =>
      if bool_decide (peer_type_of d ip = External) then
        let '((last_sent, pending), xs) := mrai_filter now (mrai_table d ip) xs in
        (set_out (out_set_mrai ip last_sent pending (ds_out d)) d, xs)
      else (d, xs)
  | FamV6 => fun _ _ xs d => (d, xs)
  end.

(** ** Propagation to all peers *)
Definition extend_pending {f} (ip : IpAddr) (xs : list (PrefixDecision f)) (d : DaemonState)
    : DaemonState :=
  upd_fam (fun x : Fam f =>
    fam_set_pending (<[ip := default [] (pending_decisions x !! ip) ++ xs]> (pending_decisions x)) x) d.
(** The body of the loop over the established peers. *)
Definition propagate_peer {f} (now : IpAddr -> Instant) (nlris : list (Nlri f)) (d : DaemonState)
    (ip : IpAddr) : DaemonState :=
  let pt := peer_type_of d ip in
  match export_policy (policies (ds_peers d)) f !! ip, adj_ribs_out (ds_fam d f) !! ip with
  | Some policy, Some aro =>
      let '(aro, xs) := decide_all
        (guarded_decision d ip pt (local_next_hop d ip) (deferred f d) policy) aro nlris in
      let '(d, xs) := apply_mrai (now ip) ip xs (set_aro ip aro d) in
      extend_pending ip xs d
  | _, _ => d
  end.
Definition sync_all f (d : DaemonState) : DaemonState :=
  foldl (fun d ip => sync_advertised ip d) d
    (hash_order (map_to_list (adj_ribs_out (ds_fam d f)))).*1.
(** [propagate_to_all_peers] and its IPv6 counterpart; [now ip] is the clock when
    the loop comes to the peer. *)
Definition propagate_to_all_peers {f} (now : IpAddr -> Instant) (nlris : list (Nlri f))
    (d : DaemonState) : DaemonState :=
  sync_all f (foldl (propagate_peer now nlris) d
    (List.filter (capable f d) (established d))).

Definition has_mrai_pending (d : DaemonState) : bool :=
  existsb (fun x : IpAddr * gset (Nlri FamV4) => negb (bool_decide (x.2 = ∅)))
    (map_to_list (mrai_pending (ds_out d))).
Definition mrai_ready (now : Instant) (d : DaemonState) (ip : IpAddr) (n : Nlri FamV4) : bool :=
  match mrai_last_sent (ds_out d) !! ip with
  | Some m => match m !! n with Some t => MRAI <=? Z.max 0 (now - t) | None => true end
  | None => true
  end.
Definition set_mrai_pending (ip : IpAddr) (s : gset (Nlri FamV4)) (d : DaemonState) : DaemonState :=
  let o := ds_out d in
  set_out (mkOutgoing (update_senders o) (mrai_last_sent o) (<[ip := s]> (mrai_pending o))
             (stalled_peers o)) d.
(** The body of the loop of [flush_mrai_pending]; [now] is read before the loop,
    [later] by each propagation. *)
Definition flush_mrai_peer (now : Instant) (later : IpAddr -> IpAddr -> Instant) (d : DaemonState)
    (ip : IpAddr) : DaemonState :=
  match mrai_pending (ds_out d) !! ip with
  | None => d
  | Some pending =>
      let ready := List.filter (mrai_ready now d ip) (hash_order (elements pending)) in
      let not_ready := List.filter (fun n => negb (mrai_ready now d ip n)) (elements pending) in
      match ready with
      | [] => d
      | _ => propagate_to_all_peers (later ip) ready (set_mrai_pending ip (list_to_set not_ready) d)
      end
  end.
Definition flush_mrai_pending (now : Instant) (later : IpAddr -> IpAddr -> Instant) (d : DaemonState)
    : DaemonState :=
  foldl (flush_mrai_peer now later) d
    (List.filter (fun x : IpAddr * gset (Nlri FamV4) => negb (bool_decide (x.2 = ∅)))
       (hash_order (map_to_list (mrai_pending (ds_out d))))).*1.

(** ** The coalescing buffers *)
Definition take_pending f (ip : IpAddr) (d : DaemonState) : DaemonState * list (PrefixDecision f) :=
  (upd_fam (fun x : Fam f => fam_set_pending (delete ip (pending_decisions x)) x) d,
   default [] (pending_decisions (ds_fam d f) !! ip)).
(** [flush_updates(..)] to the sender of the peer. *)
Definition flush_to {f} (xs : list (PrefixDecision f)) (ip : IpAddr) (tx : Sender) (d : DaemonState)
    : DaemonState * bool :=
  let '(tx, ok) := flush xs (max_len_of d ip) tx (peer_type_of d ip) (four_byte d ip) in
  (set_sender ip tx d, ok).
Definition flush_nonempty {f} (xs : list (PrefixDecision f)) (ip : IpAddr) (d : DaemonState)
    : DaemonState * bool :=
  match xs, update_senders (ds_out d) !! ip with
  | _ :: _, Some tx => flush_to xs ip tx d
  | _, _ => (d, true)
  end.
Definition flush_peer (d : DaemonState) (ip : IpAddr) : DaemonState :=
  let '(d, decisions) := take_pending FamV4 ip d in
  let '(d, decisions_v6) := take_pending FamV6 ip d in
  match decisions, decisions_v6 with
  | [], [] => d
  | _, _ =>
      match update_senders (ds_out d) !! ip with
      | None => d
      | Some _ =>
          let '(d, ok) := flush_nonempty decisions ip d in
          if ok then
            let '(d, ok) := flush_nonempty decisions_v6 ip d in
            if ok then d else push_stalled ip d
          else push_stalled ip d
      end
  end.
Definition flush_pending (d : DaemonState) : DaemonState :=
  foldl flush_peer d (hash_order (elements
    (dom (pending_decisions (ds_v4 d)) ∪ dom (pending_decisions (ds_v6 d))))).

(** ** Immediate propagation *)

(** The loop of [on_terminated], [prune_stale_nlri], [on_gr_deadline_expired] and
    the stale-marking functions over the established peers other than [peer_ip]:
    it sends at once, without the reflection check and without MRAI. *)
Definition repropagate_peer {f} (nlris : list (Nlri f)) (d : DaemonState) (ip : IpAddr) : DaemonState :=
  let pt := peer_type_of d ip in
  if capable f d ip then
    match export_policy (policies (ds_peers d)) f !! ip, adj_ribs_out (ds_fam d f) !! ip,
          update_senders (ds_out d) !! ip with
    | Some policy, Some aro, Some tx =>
        let '(aro, xs) := decide_all
          (prefix_decision d ip pt (local_next_hop d ip) (deferred f d) policy) aro nlris in
        let '(d, ok) := flush_to xs ip tx (set_aro ip aro d) in
        let d := if ok then d else push_stalled ip d in
        sync_advertised ip d
    | _, _, _ => d
    end
  else d.
Definition repropagate {f} (peer_ip : IpAddr) (nlris : list (Nlri f)) (d : DaemonState) : DaemonState :=
  foldl (repropagate_peer nlris) d
    (List.filter (fun ip => negb (bool_decide (ip = peer_ip))) (established d)).

(** ** Full-table dumps *)

(** [dump_family_v4] and [dump_family_v6] (which sends only the End-of-RIB marker
    when the table is empty); the second component is the value returned. *)
Definition send_marker f (ip : IpAddr) (d : DaemonState) : DaemonState * bool :=
  match update_senders (ds_out d) !! ip with
  | None => (d, false)
  | Some tx =>
      let '(tx, ok) := send_eor f tx in
      let d := set_sender ip tx d in
      (if ok then d else push_stalled ip d, negb ok)
  end.
Definition dump_family f (ip : IpAddr) (d : DaemonState) : DaemonState * bool :=
  match peer_types (ds_sess d) !! ip, capable f d ip, negotiated_max_len (ds_sess d) !! ip,
        update_senders (ds_out d) !! ip with
  | Some pt, true, Some _, Some tx =>
      let nlris := best_nlris (f:=f) d in
      if match f with FamV4 => false | FamV6 => negb (nonempty nlris) end then send_marker f ip d
      else
        match export_policy (policies (ds_peers d)) f !! ip, adj_ribs_out (ds_fam d f) !! ip with
        | Some policy, Some aro =>
            let '(aro, xs) := decide_all
              (guarded_decision d ip pt (local_next_hop d ip) false policy) aro nlris in
            let '(d, ok) := flush_to xs ip tx (set_aro ip aro d) in
            let '(d, stalled) := if ok then send_marker f ip d else (push_stalled ip d, true) in
            (sync_advertised ip d, stalled)
        | _, _ => (d, false)
        end
  | _, _, _, _ => (d, false)
  end.

Definition catch_up_released_families (released : bool * bool) (d : DaemonState) : DaemonState :=
  let peers := established d in
  let d := if fst released then foldl (fun d ip => fst (dump_family FamV4 ip d)) d peers else d in
  if snd released then foldl (fun d ip => fst (dump_family FamV6 ip d)) d peers else d.
Definition gr_view (d : DaemonState) : GrView :=
  mkGrView (peer_types (ds_sess d)) (gr_advertised_peers (ds_sess d)) (gr_peer_restarting (ds_sess d))
    (ipv6_capable_peers (ds_sess d)) (eor_received (ds_v4 d)) (eor_received (ds_v6 d)).
Definition recompute_selection_deferral (d : DaemonState) : DaemonState :=
  let configured := (hash_order (map_to_list (peer_remote_as (ds_peers d)))).*1 in
  let '(sd, released) := sd_recompute (ds_deferral d) configured (gr_view d) in
  catch_up_released_families released (set_deferral sd d).
Definition force_release_selection_deferral (d : DaemonState) : DaemonState :=
  let '(sd, released) := force_release (ds_deferral d) in
  catch_up_released_families released (set_deferral sd d).
End Propagate.
