(* ===== verification/Graceful.v ===== *)
(** Graceful restart of a peer ([pathvectord/src/daemon/gr.rs]): its routes are
    kept, marked stale, until it has announced its table again or its restart
    time is over. *)
From Stdlib Require Import ZArith Lia Bool.
From stdpp Require Import base tactics numbers decidable gmap list.
From S2P Require Import Prelude Addr Types AsPath Wire Header Notification Open Update RouteMap Policy Route DaemonPolicy BestPath LocRib AdjRib Outbound HandleUpdate Deferral DaemonState Propagate.
Open Scope Z_scope.

Section Graceful.
Context `{P : IpPrefixOps} {M : RouteMapOps} {HO : HashOrder}.

(** ** [GracefulRestartState] *)
Definition gr_new : GracefulRestartState := mkGr ∅ ∅ ∅.
Definition earliest_deadline (g : GracefulRestartState) : option Instant :=
  match (map_to_list (gr_deadlines g)).*2 with
  | [] => None
  | t :: ts => Some (foldl Z.min t ts)
  end.
Definition drain_expired (now : Instant) (g : GracefulRestartState) : GracefulRestartState * list IpAddr :=
  (mkGr (filter (fun x : IpAddr * Instant => now < x.2) (gr_deadlines g)) (gr_peer_families g)
     (notification_capable_peers g),
   (List.filter (fun x : IpAddr * Instant => x.2 <=? now)
      (hash_order (map_to_list (gr_deadlines g)))).*1).
Definition set_deadlines (m : gmap IpAddr Instant) (d : DaemonState) : DaemonState :=
  set_gr (mkGr m (gr_peer_families (ds_gr d)) (notification_capable_peers (ds_gr d))) d.
Definition remove_stale f (ip : IpAddr) (d : DaemonState) : DaemonState :=
  upd_fam (fun x : Fam f => fam_set_stale (delete ip (stale_nlri x)) x) d.

(** ** Tables of one peer *)
Definition clear_in f (ip : IpAddr) (d : DaemonState) : DaemonState :=
  match adj_ribs_in (ds_fam d f) !! ip with
  | Some t => upd_fam (fun x : Fam f => fam_set_in (<[ip := ari_clear t]> (adj_ribs_in x)) x) d
  | None => d
  end.
(** [if let Some(aro) = self.adj_ribs_out.get_mut(..) { *aro = new_aro }] *)
Definition reset_aro f (ip : IpAddr) (pt : PeerType) (d : DaemonState) : DaemonState :=
  match adj_ribs_out (ds_fam d f) !! ip with
  | Some _ => set_aro (f:=f) ip (make_adj_ribs_out ip pt (is_rr d)) d
  | None => d
  end.
(** Null routes bypass the Loc-RIB and are withdrawn from the FIB apart. *)
Definition withdraw_peer_blackhole_kernel_routes f (ip : IpAddr) (d : DaemonState) : DaemonState :=
  match adj_ribs_in (ds_fam d f) !! ip with
  | Some t =>
      fib_calls (map (FibWithdrawBlackhole f)
        (List.filter (fun x : Nlri f * Route f => has_blackhole x.2) (ari_iter t)).*1) d
  | None => d
  end.

Fixpoint rib_insert_all {f} (peer : PeerId) (routes : list (Route f)) (d : DaemonState)
    : Outcome False (DaemonState * list (BestPathChange f)) :=
  match routes with
  | [] => Ok (d, [])
  | r :: routes =>
      '(d, c) ← rib_insert peer r d;
      '(d, cs) ← rib_insert_all peer routes d; Ok (d, c :: cs)
  end.
Fixpoint rib_withdraw_all {f} (peer : PeerId) (nlris : list (Nlri f)) (d : DaemonState)
    : Outcome False (DaemonState * list (BestPathChange f)) :=
  match nlris with
  | [] => Ok (d, [])
  | n :: nlris =>
      '(d, c) ← rib_withdraw peer n d;
      '(d, cs) ← rib_withdraw_all peer nlris d; Ok (d, c :: cs)
  end.

(** ** Stale marking *)
(** The prefixes announced again after the marking: in IPv4 those that had a best
    route before, in IPv6 those that have one now. *)
Definition stale_affected {f} (prev : list (Nlri f)) (d : DaemonState) : list (Nlri f) :=
  match f return list (Nlri f) -> list (Nlri f) with
  | FamV4 => fun prev =>
      List.filter (fun n => bool_decide (n ∈ prev)) (best_nlris (f:=FamV4) d)
      ++ List.filter (fun n => match best (loc_rib (ds_v4 d)) n with None => true | Some _ => false end) prev
  | FamV6 => fun _ => best_nlris (f:=FamV6) d
  end prev.
Definition emit_events {f} : list (Nlri f) -> DaemonState -> DaemonState :=
  match f with FamV4 => emit_route_events | FamV6 => fun _ d => d end.
Definition mark_stale f (ip : IpAddr) (d : DaemonState) : Outcome False DaemonState :=
  match adj_ribs_in (ds_fam d f) !! ip with
  | None => Ok d
  | Some t =>
      let '(t, stale) := mark_all_stale t in
      let d := upd_fam (fun x : Fam f => fam_set_in (<[ip := t]> (adj_ribs_in x)) x) d in
      match stale with
      | [] => Ok d
      | _ =>
          let prev := best_nlris (f:=f) d in
          '(d, changes) ← rib_insert_all ip stale d;
          let d := fib_apply changes d in
          let d := repropagate ip (stale_affected prev d) d in
          Ok (emit_events prev d)
      end
  end.
Definition mark_stale_and_repropagate (ip : IpAddr) (do_v4 do_v6 : bool) (d : DaemonState)
    : Outcome False DaemonState :=
  d ← (if do_v4 then mark_stale FamV4 ip d else Ok d);
  if do_v6 then mark_stale FamV6 ip d else Ok d.

(** ** Pruning *)
Definition prune_stale_nlri {f} (ip : IpAddr) (stale : gset (Nlri f)) (d : DaemonState)
    : Outcome False DaemonState :=
  let l := hash_order (elements stale) in
  let d :=
    match adj_ribs_in (ds_fam d f) !! ip with
    | Some t =>
        let black := List.filter (fun n => match ari_get t n with
                       | Some r => has_blackhole r | None => false end) l in
        let d := fib_calls (map (FibWithdrawBlackhole f) black) d in
        let t := foldl (fun t n => fst (ari_withdraw t n)) t l in
        upd_fam (fun x : Fam f => fam_set_in (<[ip := t]> (adj_ribs_in x)) x) d
    | None => d
    end in
  let prev := best_nlris (f:=f) d in
  '(d, changes) ← rib_withdraw_all ip l d;
  let d := fib_apply changes d in
  let d := repropagate ip l d in
  Ok (emit_events prev d).

(** ** The deadline *)
Definition on_gr_deadline_expired (ip : IpAddr) (d : DaemonState) : Outcome False DaemonState :=
  let d := remove_stale FamV6 ip (remove_stale FamV4 ip d) in
  let d := withdraw_peer_blackhole_kernel_routes FamV4 ip d in
  let d := withdraw_peer_blackhole_kernel_routes FamV6 ip d in
  let d := clear_in FamV6 ip (clear_in FamV4 ip d) in
  let prev := best_nlris (f:=FamV4) d in
  let prev_v6 := best_nlris (f:=FamV6) d in
  '(d, changes) ← rib_withdraw_peer FamV4 ip d;
  '(d, changes_v6) ← rib_withdraw_peer FamV6 ip d;
  let d := fib_apply changes_v6 (fib_apply changes d) in
  let pt := default External (peer_config_types (ds_peers d) !! ip) in
  let d := reset_aro FamV6 ip pt (reset_aro FamV4 ip pt d) in
  let d := repropagate ip prev d in
  let d := repropagate ip prev_v6 d in
  Ok (emit_route_events prev d).
End Graceful.
