(* ===== verification/PeerLifecycle.v ===== *)
(** The life of a peer in the daemon ([pathvectord/src/daemon/mod.rs] 442-672,
    [peer.rs] 62-795): start-up, peers added and removed at run time, sessions
    established and terminated. *)
From Stdlib Require Import ZArith Lia Bool.
From stdpp Require Import base tactics numbers decidable gmap list.
From S2P Require Import Prelude Addr Types AsPath Wire Header Notification Open Update Fsm Session RouteMap Policy Route DaemonPolicy BestPath LocRib AdjRib Outbound HandleUpdate Deferral Capabilities DaemonState Propagate Graceful.
Open Scope Z_scope.

Section PeerLifecycle.
Context `{P : IpPrefixOps} {M : RouteMapOps} {HO : HashOrder}.

(** ** Start-up *)
(** [filter_map(..).collect()] into a [HashMap] *)
Definition collect_some {A} (g : PeerConfig -> option A) (peers : list PeerConfig) : gmap IpAddr A :=
  foldl (fun m p => match g p with Some a => <[pc_address p := a]> m | None => m end) ∅ peers.
Definition collect_set (g : PeerConfig -> bool) (peers : list PeerConfig) : gset IpAddr :=
  list_to_set (map pc_address (List.filter g peers)).
Definition config_type (local_as : Z) (confederation_id : option Z) (p : PeerConfig) : PeerType :=
  let confed_member :=
    pc_confederation_member p && match confederation_id with Some _ => true | None => false end in
  config_peer_type local_as (pc_remote_as p) confed_member.
Definition positive (o : option Z) : option Z :=
  match o with Some r => if 0 <? r then Some r else None | None => None end.
Definition fam_new f (local_as : Z) (confederation_id : option Z) (is_rr : bool)
    (limit : PeerConfig -> option Z) (peers : list PeerConfig) : Fam f :=
  mkFam (collect (fun p => ari_new (pc_address p)) peers)
    (collect (fun p => make_adj_ribs_out (pc_address p) (config_type local_as confederation_id p) is_rr) peers)
    loc_rib_new AlwaysReachable ∅ ∅ ∅ ∅ (collect_some limit peers).
Definition daemon_new (local_as local_bgp_id : Z) (local_ipv6 cluster_id confederation_id : option Z)
    (peers : list PeerConfig) (senders : gmap IpAddr Sender) (config_capabilities : list Capability)
    : DaemonState :=
  let rr_clients := collect_set (fun p => pc_is_rr_client p && (pc_remote_as p =? local_as)) peers in
  let is_rr := negb (bool_decide (rr_clients = ∅)) in
  mkDaemon
    (mkLocal local_as local_bgp_id local_ipv6 (default local_bgp_id cluster_id) confederation_id
       rr_clients config_capabilities)
    (fam_new FamV4 local_as confederation_id is_rr pc_max_prefixes_v4 peers)
    (fam_new FamV6 local_as confederation_id is_rr pc_max_prefixes_v6 peers)
    (mkSessions ∅ ∅ ∅ ∅ ∅ ∅ ∅ ∅ ∅ ∅ ∅ ∅ ∅)
    (mkPeers (tables_new local_as peers) (collect pc_remote_as peers) (peer_roles_of local_as peers)
       (collect (config_type local_as confederation_id) peers) (collect_set pc_next_hop_self peers)
       (collect_some pc_shutdown_message peers)
       (collect_some (fun p => positive (pc_max_prefixes_restart p)) peers) ∅ ∅)
    gr_new sd_disabled (mkOutgoing senders ∅ ∅ []) (mkObserved ∅ ∅ [] None).

(** ** Peers at run time *)
(** [if let Some(x) = o { m.insert(ip, x) }] *)
Definition insert_some {A} (ip : IpAddr) (o : option A) (m : gmap IpAddr A) : gmap IpAddr A :=
  match o with Some a => <[ip := a]> m | None => m end.
Definition add_fam {f} (ip : IpAddr) (pt : PeerType) (is_rr : bool) (limit : option Z) (x : Fam f) : Fam f :=
  fam_set_max (insert_some ip limit (peer_max_prefixes x))
    (fam_set_out (<[ip := make_adj_ribs_out ip pt is_rr]> (adj_ribs_out x))
       (fam_set_in (<[ip := ari_new ip]> (adj_ribs_in x)) x)).
Definition add_peer (peer : PeerConfig) (sender : Sender) (d : DaemonState) : DaemonState * bool :=
  let ip := pc_address peer in
  match adj_ribs_in (ds_v4 d) !! ip with
  | Some _ => (d, false)
  | None =>
      let l := ds_local d in let p := ds_peers d in let o := ds_out d in
      let pt := config_type (local_as l) (confederation_id l) peer in
      let d := upd_fam (f:=FamV4) (add_fam ip pt (is_rr d) (pc_max_prefixes_v4 peer)) d in
      let d := upd_fam (f:=FamV6) (add_fam ip pt (is_rr d) (pc_max_prefixes_v6 peer)) d in
      let d := set_peers
        (mkPeers (tables_insert_peer (policies p) (local_as l) peer)
           (<[ip := pc_remote_as peer]> (peer_remote_as p))
           (insert_some ip (effective_role peer (local_as l)) (peer_roles p))
           (<[ip := pt]> (peer_config_types p))
           (if pc_next_hop_self peer then {[ip]} ∪ next_hop_self_peers p else next_hop_self_peers p)
           (insert_some ip (pc_shutdown_message peer) (shutdown_messages p))
           (insert_some ip (positive (pc_max_prefixes_restart peer)) (peer_max_prefixes_restart p))
           (max_prefix_idle p) (pending_removal p)) d in
      (set_out (out_set_sender ip sender (ds_out d)) d, true)
  end.

(** The entries of a peer in the tables of its session, dropped when it ends. *)
Definition remove_session (ip : IpAddr) (s : Sessions) : Sessions :=
  mkSessions (delete ip (peer_types s)) (delete ip (established_at s)) (delete ip (hold_times s))
    (delete ip (local_addrs s)) (delete ip (peer_bgp_ids s)) (delete ip (negotiated_max_len s))
    (ipv6_capable_peers s ∖ {[ip]}) (four_byte_peers s ∖ {[ip]}) (route_refresh_peers s ∖ {[ip]})
    (delete ip (gr_capable_peers s)) (gr_advertised_peers s ∖ {[ip]}) (gr_peer_restarting s ∖ {[ip]})
    (delete ip (negotiated_roles s)).
Definition remove_counters (ip : IpAddr) (o : Observed) : Observed :=
  mkObserved (delete ip (prefixes_received o)) (delete ip (prefixes_advertised o)) (route_events o)
    (fib_manager o).
(** MRAI and coalescing entries. *)
Definition remove_mrai (ip : IpAddr) (o : Outgoing) : Outgoing :=
  mkOutgoing (update_senders o) (delete ip (mrai_last_sent o)) (delete ip (mrai_pending o)) (stalled_peers o).
Definition remove_sender (ip : IpAddr) (o : Outgoing) : Outgoing :=
  mkOutgoing (delete ip (update_senders o)) (mrai_last_sent o) (mrai_pending o) (stalled_peers o).
Definition remove_pending f (ip : IpAddr) (d : DaemonState) : DaemonState :=
  upd_fam (fun x : Fam f => fam_set_pending (delete ip (pending_decisions x)) x) d.
Definition remove_fam f (ip : IpAddr) (d : DaemonState) : DaemonState :=
  upd_fam (fun x : Fam f =>
    mkFam (delete ip (adj_ribs_in x)) (delete ip (adj_ribs_out x)) (loc_rib x) (oracle x)
      (delete ip (pending_decisions x)) (eor_received x) (delete ip (stale_nlri x))
      (originated_routes x) (delete ip (peer_max_prefixes x))) d.
Definition remove_peer (ip : IpAddr) (d : DaemonState) : DaemonState * bool :=
  match adj_ribs_in (ds_v4 d) !! ip with
  | None => (d, false)
  | Some _ =>
      let p := ds_peers d in let g := ds_gr d in
      let d := remove_fam FamV6 ip (remove_fam FamV4 ip d) in
      let d := set_peers
        (mkPeers (tables_delete_peer (policies p) ip) (delete ip (peer_remote_as p))
           (delete ip (peer_roles p)) (delete ip (peer_config_types p))
           (next_hop_self_peers p ∖ {[ip]}) (delete ip (shutdown_messages p))
           (delete ip (peer_max_prefixes_restart p)) (delete ip (max_prefix_idle p))
           (pending_removal p)) d in
      let d := set_gr (mkGr (delete ip (gr_deadlines g)) (delete ip (gr_peer_families g))
                        (notification_capable_peers g ∖ {[ip]})) d in
      let d := set_out (remove_mrai ip (remove_sender ip (ds_out d))) d in
      let d := set_sess (remove_session ip (ds_sess d)) d in
      let d := set_obs (remove_counters ip (ds_obs d)) d in
      (recompute_selection_deferral d, true)
  end.

(** ** A session is established *)
Definition has_family (a : AfiSafi) (o : option (list GracefulRestartFamily)) : bool :=
  match o with
  | Some fs => existsb (fun g => bool_decide (gr_afi_safi g = a)) fs
  | None => false
  end.
(** Within its restart window: the prefixes held become the stale ones. *)
Definition snapshot_stale f (ip : IpAddr) (d : DaemonState) : DaemonState :=
  let stale_now : gset (Nlri f) :=
    match adj_ribs_in (ds_fam d f) !! ip with Some t => dom (ari_routes t) | None => ∅ end in
  if bool_decide (stale_now = ∅) then d
  else upd_fam (fun x : Fam f => fam_set_stale (<[ip := stale_now]> (stale_nlri x)) x) d.
Definition has_cap (c : Capability) (caps : list Capability) : bool := bool_decide (c ∈ caps).
Definition toggle (b : bool) (ip : IpAddr) (s : gset IpAddr) : gset IpAddr :=
  if b then {[ip]} ∪ s else s ∖ {[ip]}.
Definition remove_eor f (ip : IpAddr) (d : DaemonState) : DaemonState :=
  upd_fam (fun x : Fam f => fam_set_eor (eor_received x ∖ {[ip]}) x) d.

(** What the OPEN tells of the session, before the guards of [on_established]. *)
Definition enter_session (ip : IpAddr) (info : SessionInfo) (now : Instant) (d : DaemonState) : DaemonState :=
  let caps := si_peer_capabilities info in
  let s := ds_sess d in
  let max_len := Z.to_nat
    (if has_cap CapExtendedMessage caps && has_cap CapExtendedMessage (config_capabilities (ds_local d))
     then MAX_LEN_EXTENDED else MAX_LEN) in
  set_sess
    (mkSessions (<[ip := si_peer_type info]> (peer_types s)) (<[ip := now]> (established_at s))
       (<[ip := si_hold_time info]> (hold_times s))
       (insert_some ip (si_local_addr info) (local_addrs s))
       (<[ip := si_peer_bgp_id info]> (peer_bgp_ids s)) (<[ip := max_len]> (negotiated_max_len s))
       (ipv6_capable_peers s) (four_byte_peers s) (route_refresh_peers s)
       (gr_capable_peers s) (gr_advertised_peers s) (gr_peer_restarting s) (negotiated_roles s)) d.
Definition set_capabilities_of (ip : IpAddr) (caps : list Capability) (d : DaemonState) : DaemonState :=
  let s := ds_sess d in
  let peer_four_byte := existsb (fun c => match c with CapFourByteAsn _ => true | _ => false end) caps in
  let peer_route_refresh :=
    has_cap CapRouteRefresh caps && has_cap CapRouteRefresh (config_capabilities (ds_local d)) in
  let peer_supports_ipv6 := has_cap (CapMultiProtocol IPV6_UNICAST) caps in
  set_sess
    (mkSessions (peer_types s) (established_at s) (hold_times s) (local_addrs s) (peer_bgp_ids s)
       (negotiated_max_len s) (toggle peer_supports_ipv6 ip (ipv6_capable_peers s))
       (toggle peer_four_byte ip (four_byte_peers s)) (toggle peer_route_refresh ip (route_refresh_peers s))
       (gr_capable_peers s) (gr_advertised_peers s) (gr_peer_restarting s) (negotiated_roles s)) d.
Definition insert_or_remove {A} (ip : IpAddr) (o : option A) (m : gmap IpAddr A) : gmap IpAddr A :=
  match o with Some a => <[ip := a]> m | None => delete ip m end.
Definition set_gr_capability_of (ip : IpAddr) (caps : list Capability) (d : DaemonState) : DaemonState :=
  let '(advertised, time, families, n_bit, r_bit) := extract_gr_capability caps in
  let role := find_map (fun c => match c with CapRole r => Some r | _ => None end) caps in
  let s := ds_sess d in let g := ds_gr d in
  let d := set_sess
    (mkSessions (peer_types s) (established_at s) (hold_times s) (local_addrs s) (peer_bgp_ids s)
       (negotiated_max_len s) (ipv6_capable_peers s) (four_byte_peers s) (route_refresh_peers s)
       (insert_or_remove ip time (gr_capable_peers s)) (toggle advertised ip (gr_advertised_peers s))
       (toggle (advertised && r_bit) ip (gr_peer_restarting s))
       (insert_or_remove ip role (negotiated_roles s))) d in
  match time with
  | Some _ =>
      set_gr (mkGr (gr_deadlines g) (<[ip := families]> (gr_peer_families g))
                (toggle n_bit ip (notification_capable_peers g))) d
  | None =>
      set_gr (mkGr (gr_deadlines g) (delete ip (gr_peer_families g))
                (notification_capable_peers g ∖ {[ip]})) d
  end.
Definition on_established (ip : IpAddr) (info : SessionInfo) (now : Instant) (d : DaemonState) : DaemonState :=
  let caps := si_peer_capabilities info in
  let was_in_gr := match gr_deadlines (ds_gr d) !! ip with Some _ => true | None => false end in
  let d := set_deadlines (delete ip (gr_deadlines (ds_gr d))) d in
  let gr_v4 := was_in_gr && has_family IPV4_UNICAST (gr_peer_families (ds_gr d) !! ip) in
  let gr_v6 := was_in_gr && has_family IPV6_UNICAST (gr_peer_families (ds_gr d) !! ip) in
  let d := if gr_v4 then snapshot_stale FamV4 ip d else d in
  let d := if gr_v6 then snapshot_stale FamV6 ip d else d in
  let d := remove_eor FamV6 ip (remove_eor FamV4 ip d) in
  let d := enter_session ip info now d in
  let d := reset_aro FamV4 ip (si_peer_type info) d in
  let d := if gr_v6 then d
           else upd_fam (fun x : Fam FamV6 => fam_set_in (<[ip := ari_new ip]> (adj_ribs_in x)) x) d in
  let d := set_aro (f:=FamV6) ip (make_adj_ribs_out ip (si_peer_type info) (is_rr d)) d in
  match export_policies (policies (ds_peers d)) !! ip, adj_ribs_out (ds_v4 d) !! ip,
        update_senders (ds_out d) !! ip with
  | Some _, Some _, Some _ =>
      let d := set_capabilities_of ip caps d in
      let d := if v4_deferred (ds_deferral d) then d else fst (dump_family FamV4 ip d) in
      let d := if v6_deferred (ds_deferral d) then d else fst (dump_family FamV6 ip d) in
      let d := set_gr_capability_of ip caps d in
      recompute_selection_deferral d
  | _, _, _ => d
  end.

(** ** A session is terminated *)
(** Whether the routes are kept for the restart time; RFC 8538: a notification
    counts if both sides have the N-bit and it is not a hard reset. *)
Definition we_have_n_bit (d : DaemonState) : bool :=
  existsb (fun c => match c with
    | CapGracefulRestart restart_flags restart_time _ =>
        (0 <? restart_time) && has_flag restart_flags 0x04
    | _ => false end) (config_capabilities (ds_local d)).
Definition notification_gr_eligible (ip : IpAddr) (reason : TerminationReason) (d : DaemonState) : bool :=
  match reason with
  | TrNotification n =>
      negb (bool_decide (nm_error n = Cease HardReset)) && we_have_n_bit d
      && bool_decide (ip ∈ notification_capable_peers (ds_gr d))
  | _ => false
  end.
Definition gr_restart_time (ip : IpAddr) (d : DaemonState) : Z :=
  default 0 (gr_capable_peers (ds_sess d) !! ip).
Definition enter_gr (ip : IpAddr) (reason : TerminationReason) (d : DaemonState) : bool :=
  negb (bool_decide (ip ∈ pending_removal (ds_peers d))) && (0 <? gr_restart_time ip d)
  && (match reason with TrUnclean => true | _ => false end || notification_gr_eligible ip reason d).

Definition leave_session (ip : IpAddr) (d : DaemonState) : DaemonState :=
  let d := set_sess (remove_session ip (ds_sess d)) d in
  let d := set_obs (remove_counters ip (ds_obs d)) d in
  let d := remove_eor FamV6 ip (remove_eor FamV4 ip d) in
  let d := set_out (remove_mrai ip (ds_out d)) d in
  remove_pending FamV6 ip (remove_pending FamV4 ip d).
Definition flush_uncovered f (ip : IpAddr) (d : DaemonState) : DaemonState :=
  clear_in f ip (withdraw_peer_blackhole_kernel_routes f ip d).
Definition terminate_gr (ip : IpAddr) (restart_time : Z) (now : Instant) (d : DaemonState)
    : Outcome False DaemonState :=
  let families := gr_peer_families (ds_gr d) !! ip in
  let gr_v4 := has_family IPV4_UNICAST families in
  let gr_v6 := has_family IPV6_UNICAST families in
  let d := if gr_v4 then d else flush_uncovered FamV4 ip d in
  let d := if gr_v6 then d else flush_uncovered FamV6 ip d in
  let d := set_deadlines (<[ip := now + from_secs restart_time]> (gr_deadlines (ds_gr d))) d in
  mark_stale_and_repropagate ip gr_v4 gr_v6 d.
Definition terminate_clean (ip : IpAddr) (d : DaemonState) : Outcome False DaemonState :=
  let d := withdraw_peer_blackhole_kernel_routes FamV6 ip
             (withdraw_peer_blackhole_kernel_routes FamV4 ip d) in
  let d := clear_in FamV6 ip (clear_in FamV4 ip d) in
  let prev := best_nlris (f:=FamV4) d in
  '(d, changes) ← rib_withdraw_peer FamV4 ip d;
  '(d, changes_v6) ← rib_withdraw_peer FamV6 ip d;
  let d := fib_apply changes_v6 (fib_apply changes d) in
  let pt := default External (peer_config_types (ds_peers d) !! ip) in
  let d := reset_aro FamV6 ip pt (reset_aro FamV4 ip pt d) in
  let d := repropagate ip prev d in
  Ok (emit_route_events prev d).
Definition on_terminated (ip : IpAddr) (reason : TerminationReason) (now : Instant) (d : DaemonState)
    : Outcome False DaemonState :=
  if enter_gr ip reason d then terminate_gr ip (gr_restart_time ip d) now (leave_session ip d)
  else terminate_clean ip (leave_session ip d).
End PeerLifecycle.
