(* ===== verification/RouteUpdate.v ===== *)
(** What changes the routes ([pathvectord/src/daemon/route.rs] 7-405,
    [policy.rs], [origination.rs], [fib.rs]): a received UPDATE, a changed policy,
    a local origination, a changed kernel table. *)
From Stdlib Require Import ZArith Lia Bool.
From stdpp Require Import base tactics numbers decidable gmap list.
From S2P Require Import Prelude Addr Types AsPath Wire Header Notification Open Update RouteMap Policy Route DaemonPolicy BestPath LocRib AdjRib Outbound HandleUpdate Deferral DaemonState Propagate Graceful.
Open Scope Z_scope.

Section RouteUpdate.
Context `{P : IpPrefixOps} {M : RouteMapOps} {HO : HashOrder}.

(** ** Received UPDATE messages *)
Definition is_eor_v4 (msg : UpdateMessage) : bool :=
  match withdrawn msg, attributes msg, Update.announced msg with [], [], [] => true | _, _, _ => false end.
Definition is_eor_v6 (msg : UpdateMessage) : bool :=
  match withdrawn msg, Update.announced msg, attributes msg with
  | [], [], [PaMpUnreachNlri m] =>
      bool_decide (mpu_afi_safi m = IPV6_UNICAST) && negb (nonempty (mpu_prefixes m))
  | _, _, _ => false
  end.
Definition end_of_rib f (ip : IpAddr) (d : DaemonState) : Outcome False DaemonState :=
  let d := upd_fam (fun x : Fam f => fam_set_eor ({[ip]} ∪ eor_received x) x) d in
  d ← match stale_nlri (ds_fam d f) !! ip with
      | Some stale =>
          let d := remove_stale f ip d in
          if bool_decide (stale = ∅) then Ok d else prune_stale_nlri ip stale d
      | None => Ok d
      end;
  Ok (recompute_selection_deferral d).

(** RFC 4456 8 *)
Definition rr_loop (local_bgp_id cluster_id : Z) (msg : UpdateMessage) : bool :=
  existsb (fun a => match a with PaOriginatorId id => id =? local_bgp_id | _ => false end) (attributes msg)
  || existsb (fun a => match a with PaClusterList l => bool_decide (cluster_id ∈ l) | _ => false end)
       (attributes msg).
(** Insert at the head of the first CLUSTER_LIST, or add one. *)
Fixpoint prepend_cluster (cluster_id : Z) (attrs : list PathAttribute) : list PathAttribute :=
  match attrs with
  | [] => [PaClusterList [cluster_id]]
  | PaClusterList l :: attrs => PaClusterList (cluster_id :: l) :: attrs
  | a :: attrs => a :: prepend_cluster cluster_id attrs
  end.
Definition rr_inject (peer_bgp_id cluster_id : Z) (msg : UpdateMessage) : UpdateMessage :=
  let attrs :=
    if existsb (fun a => match a with PaOriginatorId _ => true | _ => false end) (attributes msg)
    then attributes msg else attributes msg ++ [PaOriginatorId peer_bgp_id] in
  mkUpdate (withdrawn msg) (prepend_cluster cluster_id attrs) (Update.announced msg).
(** The message to import; [None] for one that has looped. *)
Definition rr_inbound (ip : IpAddr) (d : DaemonState) (msg : UpdateMessage) : option UpdateMessage :=
  if is_rr d && bool_decide (peer_type_of d ip = Internal) then
    let l := ds_local d in
    if rr_loop (local_bgp_id l) (cluster_id l) msg then None
    else Some (rr_inject (default (local_bgp_id l) (peer_bgp_ids (ds_sess d) !! ip)) (cluster_id l) msg)
  else Some msg.

Definition mp_prefixes (a : AfiSafi) (attrs : list PathAttribute) : list Prefix :=
  concat (map (fun attr => match attr with
    | PaMpUnreachNlri m => if bool_decide (mpu_afi_safi m = a) then mpu_prefixes m else []
    | PaMpReachNlri m => if bool_decide (mpr_afi_safi m = a) then mpr_prefixes m else []
    | _ => [] end) attrs).
Definition affected_v4 (msg : UpdateMessage) : list (Nlri FamV4) :=
  withdrawn msg ++ Update.announced msg ++ v4_prefixes (mp_prefixes IPV4_UNICAST (attributes msg)).
Definition affected_v6 (msg : UpdateMessage) : list (Nlri FamV6) :=
  v6_prefixes (mp_prefixes IPV6_UNICAST (attributes msg)).

(** What the peer announces again is no longer stale. *)
Definition refresh_stale {f} (ip : IpAddr) (nlris : list (Nlri f)) (d : DaemonState) : DaemonState :=
  match stale_nlri (ds_fam d f) !! ip with
  | Some stale =>
      upd_fam (fun x : Fam f => fam_set_stale (<[ip := stale ∖ list_to_set nlris]> (stale_nlri x)) x) d
  | None => d
  end.
Definition mp_reach_v6 (attrs : list PathAttribute) : list (Nlri FamV6) :=
  v6_prefixes (concat (map (fun attr => match attr with
    | PaMpReachNlri m => if bool_decide (mpr_afi_safi m = IPV6_UNICAST) then mpr_prefixes m else []
    | _ => [] end) attrs)).

Definition update_ctx (ip : IpAddr) (policy : Policy (Route FamV4)) (policy_v6 : Policy (Route FamV6))
    (clock : forall f, Nlri f -> Z) (d : DaemonState) : UpdateCtx :=
  mkUpdateCtx ip policy policy_v6 (peer_type_of d ip) (peer_bgp_ids (ds_sess d) !! ip)
    (oracle (ds_v4 d)) (oracle (ds_v6 d)) (local_as (ds_local d)) (confederation_id (ds_local d))
    (match local_addrs (ds_sess d) !! ip with Some (IpV4 v4) => Some v4 | _ => None end)
    (local_ipv6 (ds_local d)) clock.
Definition exceeds (limit : option Z) (n : nat) : bool :=
  match limit with Some lim => lim <? Z.of_nat n | None => false end.
Definition max_prefix_notification : NotificationMessage :=
  mkNotification (Cease MaximumNumberOfPrefixesReached) [].
Definition hold_idle (ip : IpAddr) (now : Instant) (d : DaemonState) : DaemonState :=
  let p := ds_peers d in
  match peer_max_prefixes_restart p !! ip with
  | Some secs =>
      set_peers (mkPeers (policies p) (peer_remote_as p) (peer_roles p) (peer_config_types p)
        (next_hop_self_peers p) (shutdown_messages p) (peer_max_prefixes_restart p)
        (<[ip := now + from_secs secs]> (max_prefix_idle p)) (pending_removal p)) d
  | None => d
  end.
(** A withdrawn null route gives way to the best route another peer may have. *)
Definition reinstall {f} (d : DaemonState) (n : Nlri f) : list FibCall :=
  FibWithdrawBlackhole f n
  :: match best (loc_rib (ds_fam d f)) n with Some r => [FibApply f (Announced n r)] | None => [] end.
Definition fib_update (s4 : Side FamV4) (s6 : Side FamV6) (d : DaemonState) : DaemonState :=
  fib_calls (map (FibApply FamV4) (s_changes s4) ++ map (FibApply FamV6) (s_changes s6)
    ++ map (FibBlackhole FamV4) (s_bh_announced s4) ++ map (FibBlackhole FamV6) (s_bh_announced s6)
    ++ concat (map (reinstall d) (s_bh_withdrawn s4))
    ++ concat (map (reinstall d) (s_bh_withdrawn s6))) d.

(** The clock readings of one call. *)
Record Clock := mkClock {
  ck_route : forall f, Nlri f -> Z;
  ck_now : Instant;
  ck_peer : IpAddr -> Instant;
}.
(** After [handle_update]: the limits, the FIB, the other peers. *)
Definition after_update (ip : IpAddr) (clock : Clock) (msg : UpdateMessage)
    (s4 : Side FamV4) (s6 : Side FamV6) (note : option NotificationMessage) (d : DaemonState)
    : DaemonState * option NotificationMessage :=
  if exceeds (peer_max_prefixes (ds_v4 d) !! ip) (ari_len (s_in s4))
     || exceeds (peer_max_prefixes (ds_v6 d) !! ip) (ari_len (s_in s6))
  then (hold_idle ip (ck_now clock) d, Some max_prefix_notification)
  else
    let d := fib_update s4 s6 d in
    let d := sync_received ip d in
    let d := propagate_to_all_peers (ck_peer clock) (affected_v4 msg) d in
    let d := if nonempty (affected_v6 msg)
             then propagate_to_all_peers (ck_peer clock) (affected_v6 msg) d else d in
    (emit_route_events (affected_v4 msg) d, note).
Definition import_update (ip : IpAddr) (clock : Clock) (msg : UpdateMessage) (d : DaemonState)
    : Outcome False (DaemonState * option NotificationMessage) :=
  match import_policies (policies (ds_peers d)) !! ip,
        import_policies_v6 (policies (ds_peers d)) !! ip, adj_ribs_in (ds_v4 d) !! ip with
  | Some policy, Some policy_v6, Some t4 =>
      let t6 := default (ari_new ip) (adj_ribs_in (ds_v6 d) !! ip) in
      let d := refresh_stale ip (Update.announced msg) d in
      let d := refresh_stale ip (mp_reach_v6 (attributes msg)) d in
      '(s4, s6, note) ← handle_update (update_ctx ip policy policy_v6 (ck_route clock) d) msg
                          t4 (loc_rib (ds_v4 d)) t6 (loc_rib (ds_v6 d));
      let d := upd_fam (fun x : Fam FamV4 =>
        fam_set_in (<[ip := s_in s4]> (adj_ribs_in x)) (fam_set_rib (s_rib s4) x)) d in
      let d := upd_fam (fun x : Fam FamV6 =>
        fam_set_in (match adj_ribs_in x !! ip with
                    | Some _ => <[ip := s_in s6]> (adj_ribs_in x) | None => adj_ribs_in x end)
          (fam_set_rib (s_rib s6) x)) d in
      Ok (after_update ip clock msg s4 s6 note d)
  | _, _, _ => Ok (d, None)
  end.
Definition on_route_update (ip : IpAddr) (clock : Clock) (msg : UpdateMessage) (d : DaemonState)
    : Outcome False (DaemonState * option NotificationMessage) :=
  if is_eor_v4 msg then d ← end_of_rib FamV4 ip d; Ok (d, None)
  else if is_eor_v6 msg then d ← end_of_rib FamV6 ip d; Ok (d, None)
  else
    match rr_inbound ip d msg with
    | None => Ok (d, None)
    | Some msg => import_update ip clock msg d
    end.

(** ** Policy changes *)
(** [&self.adj_ribs_in[&peer_ip]] and the policy lookups panic on a missing peer. *)
Definition reevaluate_family {f} (ip : IpAddr) (now : IpAddr -> Instant) (d : DaemonState)
    : Outcome False DaemonState :=
  match adj_ribs_in (ds_fam d f) !! ip, import_policy (policies (ds_peers d)) f !! ip with
  | Some t, Some policy =>
      let nlris := (ari_iter t).*1 in
      '(lr, changes) ← reapply_import_policy ip t (loc_rib (ds_fam d f)) policy (oracle (ds_fam d f));
      let d := upd_fam (fun x : Fam f => fam_set_rib lr x) d in
      let d := fib_apply changes d in
      let d := propagate_to_all_peers now nlris d in
      Ok (emit_events nlris d)
  | _, _ => Panic
  end.
Definition reevaluate_import_for_peer (ip : IpAddr) (now : IpAddr -> Instant) (d : DaemonState)
    : Outcome False DaemonState :=
  d ← reevaluate_family (f:=FamV4) ip now d; reevaluate_family (f:=FamV6) ip now d.
Fixpoint reevaluate_peers (ips : list IpAddr) (now : IpAddr -> Instant) (d : DaemonState)
    : Outcome False DaemonState :=
  match ips with
  | [] => Ok d
  | ip :: ips => d ← reevaluate_import_for_peer ip now d; reevaluate_peers ips now d
  end.
Definition reevaluate_all_import_policies (now : IpAddr -> Instant) (d : DaemonState)
    : Outcome False DaemonState :=
  d ← reevaluate_peers (hash_order (map_to_list (import_policies (policies (ds_peers d))))).*1 now d;
  Ok (flush_pending d).
Definition set_policies (t : PolicyTables) (d : DaemonState) : DaemonState :=
  let p := ds_peers d in
  set_peers (mkPeers t (peer_remote_as p) (peer_roles p) (peer_config_types p) (next_hop_self_peers p)
    (shutdown_messages p) (peer_max_prefixes_restart p) (max_prefix_idle p) (pending_removal p)) d.
Definition set_import_default (ip : IpAddr) (action : DefaultAction) (now : IpAddr -> Instant)
    (d : DaemonState) : Outcome False DaemonState :=
  let t := policies (ds_peers d) in
  match import_policies t !! ip, import_policies_v6 t !! ip with
  | None, _ => Ok d
  | Some _, None => Panic
  | Some _, Some _ =>
      d ← reevaluate_import_for_peer ip now (set_policies (tables_set_import_default t ip action) d);
      Ok (flush_pending d)
  end.
(** The whole Loc-RIB against the changed policy: sent at once, to an IPv4 peer
    with the BGP identifier as local next hop. *)
Definition reexport_family f (ip : IpAddr) (pt : PeerType) (d : DaemonState) : DaemonState :=
  match export_policy (policies (ds_peers d)) f !! ip, adj_ribs_out (ds_fam d f) !! ip,
        update_senders (ds_out d) !! ip with
  | Some policy, Some aro, Some tx =>
      let '(aro, xs) := decide_all
        (prefix_decision d ip pt (local_bgp_id (ds_local d)) (deferred f d) policy) aro
        (best_nlris (f:=f) d) in
      let '(d, ok) := flush_to xs ip tx (set_aro ip aro d) in
      if ok then d else push_stalled ip d
  | _, _, _ => d
  end.
Definition set_export_default (ip : IpAddr) (action : DefaultAction) (d : DaemonState)
    : Outcome False DaemonState :=
  let t := policies (ds_peers d) in
  match export_policies t !! ip, export_policies_v6 t !! ip with
  | None, _ => Ok d
  | Some _, None => Panic
  | Some _, Some _ =>
      let d := set_policies (tables_set_export_default t ip action) d in
      match peer_types (ds_sess d) !! ip with
      | None => Ok d
      | Some pt =>
          let d := reexport_family FamV4 ip pt d in
          let d := if capable FamV6 d ip then reexport_family FamV6 ip pt d else d in
          Ok (sync_advertised ip d)
      end
  end.

(** ** Origination *)
Definition originate_one {f} (route : Route f) (d : DaemonState) : Outcome False DaemonState :=
  let n := nlri route in
  let d := upd_fam (fun x : Fam f => fam_set_originated ({[n]} ∪ originated_routes x) x) d in
  let d := send_event (EvAnnounced f LOCAL_ORIGIN_PEER n route) d in
  '(d, change) ← rib_insert LOCAL_ORIGIN_PEER route d;
  match f with
  | FamV4 => Ok d
  | FamV6 => Ok (fib_apply [change] d)
  end.
Fixpoint originate_each {f} (routes : list (Route f)) (d : DaemonState) : Outcome False DaemonState :=
  match routes with
  | [] => Ok d
  | r :: routes => d ← originate_one r d; originate_each routes d
  end.
Definition originate_routes {f} (routes : list (Route f)) (now : IpAddr -> Instant) (d : DaemonState)
    : Outcome False DaemonState :=
  d ← originate_each routes d;
  Ok (flush_pending (propagate_to_all_peers now (map nlri routes) d)).
Definition withdraw_originated_one {f} (n : Nlri f) (d : DaemonState) : Outcome False DaemonState :=
  let d := upd_fam (fun x : Fam f => fam_set_originated (originated_routes x ∖ {[n]}) x) d in
  '(d, change) ← rib_withdraw LOCAL_ORIGIN_PEER n d;
  Ok (send_event (EvWithdrawn f n) (fib_apply [change] d)).
Fixpoint withdraw_originated_each {f} (nlris : list (Nlri f)) (d : DaemonState)
    : Outcome False DaemonState :=
  match nlris with
  | [] => Ok d
  | n :: nlris => d ← withdraw_originated_one n d; withdraw_originated_each nlris d
  end.
Definition withdraw_originated_routes {f} (nlris : list (Nlri f)) (now : IpAddr -> Instant)
    (d : DaemonState) : Outcome False DaemonState :=
  d ← withdraw_originated_each nlris d;
  Ok (flush_pending (propagate_to_all_peers now nlris d)).

(** ** The kernel's table changes *)
Definition changed_nlris {f} (cs : list (BestPathChange f)) : list (Nlri f) :=
  omap (fun c => match c with Announced n _ | Withdrawn n => Some n | Unchanged => None end) cs.
Definition on_fib_change (now : IpAddr -> Instant) (d : DaemonState) : Outcome False DaemonState :=
  '(d, changes_v4) ← rib_recompute_all FamV4 d;
  '(d, changes_v6) ← rib_recompute_all FamV6 d;
  let d := fib_apply changes_v6 (fib_apply changes_v4 d) in
  let l4 := changed_nlris changes_v4 in
  let l6 := changed_nlris changes_v6 in
  let d := if nonempty l4 then emit_route_events l4 (propagate_to_all_peers now l4 d) else d in
  Ok (if nonempty l6 then propagate_to_all_peers now l6 d else d).
End RouteUpdate.
