(* ===== verification/EventLoop.v ===== *)
(** The daemon's event loop ([run_event_loop] of [pathvectord/src/daemon/mod.rs]
    1198-1660): every arm of its [select!] as one step, and the commands of
    [run_command_processor] ([peer.rs] 839-1001).

    The event channel is a queue, filled by the sessions; the commands sent back
    to the sessions are the output of a step.  A peer's command channel exists
    while it is in [el_stops].  The metrics it reports are in [Metrics], the peer
    store and the listener in [PeerStore]. *)
From Stdlib Require Import ZArith Lia Bool.
From stdpp Require Import base tactics numbers decidable gmap list.
From S2P Require Import Prelude Addr Types AsPath Wire Header Notification Open Update Fsm Session RouteMap Roa Policy Route DaemonPolicy BestPath LocRib AdjRib Outbound HandleUpdate Deferral Capabilities DaemonState Propagate Graceful PeerLifecycle RouteUpdate.
Open Scope Z_scope.

Section EventLoop.
Context `{P : IpPrefixOps} {M : RouteMapOps} {HO : HashOrder}.

Record EventLoop := mkEventLoop {
  el_daemon : DaemonState;
  el_queue : list (IpAddr * SessionEvent);
  el_stops : gset IpAddr;
}.
Definition Output : Type := list (IpAddr * SessionCommand).
(** [stop_senders.get(&peer)], then [tx.send(cmd)] *)
Definition command (stops : gset IpAddr) (ip : IpAddr) (c : SessionCommand) : Output :=
  if bool_decide (ip ∈ stops) then [(ip, c)] else [].
Definition stop_all (stops : gset IpAddr) (ips : list IpAddr) : Output :=
  concat (map (fun ip => command stops ip ScStop) ips).

Definition idle_held (ip : IpAddr) (d : DaemonState) : bool :=
  match max_prefix_idle (ds_peers d) !! ip with Some _ => true | None => false end.
Definition unmark_removal (ip : IpAddr) (d : DaemonState) : DaemonState :=
  let p := ds_peers d in
  set_peers (mkPeers (policies p) (peer_remote_as p) (peer_roles p) (peer_config_types p)
    (next_hop_self_peers p) (shutdown_messages p) (peer_max_prefixes_restart p) (max_prefix_idle p)
    (pending_removal p ∖ {[ip]})) d.
(** [Terminated], in both places: the peer is removed for good if that was asked. *)
Definition terminated (ip : IpAddr) (reason : TerminationReason) (now : Instant) (stops : gset IpAddr)
    (d : DaemonState) : Outcome False (DaemonState * gset IpAddr * bool) :=
  let is_removed := bool_decide (ip ∈ pending_removal (ds_peers d)) in
  d ← on_terminated ip reason now (unmark_removal ip d);
  if is_removed then Ok (fst (remove_peer ip d), stops ∖ {[ip]}, true) else Ok (d, stops, false).
(** The capabilities of the next OPEN: never with the Restart bit. *)
Definition caps_refresh (ip : IpAddr) (d : DaemonState) : list Capability :=
  let gr_time := default 0 (find_map (fun c => match c with
      | CapGracefulRestart _ restart_time _ => Some restart_time | _ => None end)
      (config_capabilities (ds_local d))) in
  let pt := default External (peer_config_types (ds_peers d) !! ip) in
  build_local_capabilities
    (effective_session_as (local_as (ds_local d)) (confederation_id (ds_local d)) pt)
    gr_time false (peer_roles (ds_peers d) !! ip).

(** The clock at the n-th event of an iteration. *)
Definition Clocks : Type := nat -> Clock.

(** The loop that drains the events that are already there; a notification ends
    it and leaves the rest in the queue. *)
Fixpoint drain (ck : Clocks) (i : nat) (q : list (IpAddr * SessionEvent)) (idle : list IpAddr)
    (stops : gset IpAddr) (d : DaemonState)
    : Outcome False (DaemonState * gset IpAddr * list IpAddr
                     * option (IpAddr * NotificationMessage) * list (IpAddr * SessionEvent)) :=
  match q with
  | [] => Ok (d, stops, idle, None, [])
  | (ip, SeEstablished info) :: q =>
      if idle_held ip d then drain ck (S i) q (idle ++ [ip]) stops d
      else drain ck (S i) q idle stops (on_established ip info (ck_now (ck i)) d)
  | (ip, SeTerminated reason) :: q =>
      '(d, stops, _) ← terminated ip reason (ck_now (ck i)) stops d;
      drain ck (S i) q idle stops d
  | (ip, SeRouteUpdate msg) :: q =>
      '(d, err) ← on_route_update ip (ck i) msg d;
      match err with
      | Some err => Ok (d, stops, idle, Some (ip, err), q)
      | None => drain ck (S i) q idle stops d
      end
  end.
(** [flush_pending], then the overflowing sessions are stopped. *)
Definition flush_and_take (d : DaemonState) : DaemonState * list IpAddr :=
  take_stalled_peers (flush_pending d).
Definition notify (ip : IpAddr) (err : NotificationMessage) (stops : gset IpAddr)
    (q : list (IpAddr * SessionEvent)) (d : DaemonState) : EventLoop * Output :=
  let '(d, stalled) := flush_and_take d in
  (mkEventLoop d q stops, command stops ip (ScNotification err) ++ stop_all stops stalled).
(** After the first event, unless it ended the iteration. *)
Definition finish (ck : Clocks) (q : list (IpAddr * SessionEvent)) (stops : gset IpAddr)
    (d : DaemonState) : Outcome False (EventLoop * Output) :=
  '(d, stops, idle, err, q) ← drain ck 1 q [] stops d;
  match err with
  | Some (ip, err) => Ok (notify ip err stops q d)
  | None =>
      let '(d, stalled) := flush_and_take d in
      Ok (mkEventLoop d q stops, stop_all stops stalled ++ stop_all stops idle)
  end.

(** The arms of the [select!]. *)
Inductive Arm :=
| ArmEvent (ck : Clocks)
| ArmFibChanged (ck : Clock)
| ArmGrDeadline (now : Instant)
| ArmDeferral
| ArmIdleExpired (now : Instant)
| ArmMraiTick (now : Instant) (later : IpAddr -> IpAddr -> Instant).

Definition event_arm (ck : Clocks) (l : EventLoop) : Outcome False (EventLoop * Output) :=
  let d := el_daemon l in let stops := el_stops l in
  match el_queue l with
  | [] => Ok (l, [])
  | (ip, SeEstablished info) :: q =>
      if idle_held ip d then Ok (mkEventLoop d q stops, command stops ip ScStop)
      else finish ck q stops (on_established ip info (ck_now (ck 0%nat)) d)
  | (ip, SeTerminated reason) :: q =>
      '(d, stops', removed) ← terminated ip reason (ck_now (ck 0%nat)) stops d;
      Ok (mkEventLoop d q stops',
          if (removed : bool) then [] else command stops ip (ScSetCapabilities (caps_refresh ip d)))
  | (ip, SeRouteUpdate msg) :: q =>
      '(d, err) ← on_route_update ip (ck 0%nat) msg d;
      match err with
      | Some err => Ok (notify ip err stops q d)
      | None => finish ck q stops d
      end
  end.
Fixpoint expire_all (ips : list IpAddr) (d : DaemonState) : Outcome False DaemonState :=
  match ips with
  | [] => Ok d
  | ip :: ips => d ← on_gr_deadline_expired ip d; expire_all ips d
  end.
Definition expire_idle (now : Instant) (d : DaemonState) : DaemonState :=
  let p := ds_peers d in
  set_peers (mkPeers (policies p) (peer_remote_as p) (peer_roles p) (peer_config_types p)
    (next_hop_self_peers p) (shutdown_messages p) (peer_max_prefixes_restart p)
    (filter (fun x : IpAddr * Instant => now < x.2) (max_prefix_idle p)) (pending_removal p)) d.
Definition loop_step (l : EventLoop) (a : Arm) : Outcome False (EventLoop * Output) :=
  let stops := el_stops l in
  let stop_stalled '(d, stalled) := (mkEventLoop d (el_queue l) stops, stop_all stops stalled) in
  match a with
  | ArmEvent ck => event_arm ck l
  | ArmFibChanged ck =>
      d ← on_fib_change (ck_peer ck) (el_daemon l); Ok (stop_stalled (flush_and_take d))
  | ArmGrDeadline now =>
      let '(g, expired) := drain_expired now (ds_gr (el_daemon l)) in
      d ← expire_all expired (set_gr g (el_daemon l));
      match expired with
      | [] => Ok (mkEventLoop d (el_queue l) stops, [])
      | _ => Ok (stop_stalled (take_stalled_peers d))
      end
  | ArmDeferral =>
      Ok (stop_stalled (flush_and_take (force_release_selection_deferral (el_daemon l))))
  | ArmIdleExpired now => Ok (mkEventLoop (expire_idle now (el_daemon l)) (el_queue l) stops, [])
  | ArmMraiTick now later =>
      let d := flush_pending (el_daemon l) in
      if has_mrai_pending d then Ok (stop_stalled (flush_and_take (flush_mrai_pending now later d)))
      else Ok (mkEventLoop d (el_queue l) stops, [])
  end.

(** ** Commands ([run_command_processor]) *)

(** [AddPeer]: a session is started with the returned configuration, unless the
    peer is known; [sender] is the way to it. *)
Definition add_peer_command (sc : SpawnConfig) (now : Instant) (peer : PeerConfig) (sender : Sender)
    (l : EventLoop) : EventLoop * option SessionConfig :=
  match adj_ribs_in (ds_v4 (el_daemon l)) !! pc_address peer with
  | Some _ => (l, None)
  | None =>
      (mkEventLoop (fst (add_peer peer sender (el_daemon l))) (el_queue l)
         ({[pc_address peer]} ∪ el_stops l),
       Some (session_config sc now peer))
  end.
Definition mark_removal (ip : IpAddr) (d : DaemonState) : DaemonState :=
  let p := ds_peers d in
  set_peers (mkPeers (policies p) (peer_remote_as p) (peer_roles p) (peer_config_types p)
    (next_hop_self_peers p) (shutdown_messages p) (peer_max_prefixes_restart p) (max_prefix_idle p)
    ({[ip]} ∪ pending_removal p)) d.
(** [RemovePeer]: the rest is done when the session reports that it has ended;
    without a session that is reported here. *)
Definition remove_peer_command (ip : IpAddr) (l : EventLoop) : EventLoop * Output :=
  match adj_ribs_in (ds_v4 (el_daemon l)) !! ip with
  | None => (l, [])
  | Some _ =>
      let d := mark_removal ip (el_daemon l) in
      if bool_decide (ip ∈ el_stops l) then
        (mkEventLoop d (el_queue l) (el_stops l),
         [(ip, match shutdown_messages (ds_peers d) !! ip with
               | Some reason => ScNotification (mkNotification (Cease AdministrativeShutdown)
                                                  (Shutdown.encode_shutdown_message reason))
               | None => ScStop
               end)])
      else (mkEventLoop d (el_queue l ++ [(ip, SeTerminated TrOperatorStop)]) (el_stops l), [])
  end.

(** ** Start-up ([build_daemon] and [run_with]) *)

(** The fields of [config::DaemonConfig] the state depends on, and the peers. *)
Record DaemonConfig := mkDaemonConfig {
  dc_local_as : Z;
  dc_bgp_id : Z;
  dc_local_ipv6 : option Z;
  dc_cluster_id : option Z;
  dc_confederation_id : option Z;
  dc_hold_time : Z;
  dc_graceful_restart_time : Z;
  dc_restarting : bool;
  dc_selection_deferral_time : Z;
  dc_peers : list PeerConfig;
}.
Definition spawn_config (cfg : DaemonConfig) (daemon_start : Instant) : SpawnConfig :=
  mkSpawnConfig (dc_local_as cfg) (dc_bgp_id cfg) (dc_hold_time cfg) (dc_graceful_restart_time cfg)
    (dc_restarting cfg) daemon_start (dc_confederation_id cfg).
(** A session per peer, started with the returned configurations; [sender] is
    the way to the session of a peer. *)
Definition build_daemon (cfg : DaemonConfig) (startup_instant now : Instant) (sender : IpAddr -> Sender)
    : EventLoop * list SessionConfig :=
  let peers := dc_peers cfg in
  (mkEventLoop
     (daemon_new (dc_local_as cfg) (dc_bgp_id cfg) (dc_local_ipv6 cfg) (dc_cluster_id cfg)
        (dc_confederation_id cfg) peers (collect (fun p => sender (pc_address p)) peers)
        (build_local_capabilities (dc_local_as cfg) (dc_graceful_restart_time cfg) false None))
     [] (list_to_set (map pc_address peers)),
   map (session_config (spawn_config cfg startup_instant) now) peers).
(** The oracles of the kernel's table, the FIB manager if the kernel can be
    written to, and the deferral timer. *)
Definition connect_kernel (oracle_v4 oracle_v6 : NextHopOracle) (fib_writer : bool)
    (daemon_start : Instant) (cfg : DaemonConfig) (d : DaemonState) : DaemonState :=
  let d := set_oracles oracle_v4 oracle_v6 d in
  let o := ds_obs d in
  let d := if fib_writer
           then set_obs (mkObserved (prefixes_received o) (prefixes_advertised o) (route_events o) (Some [])) d
           else d in
  set_deferral (sd_new daemon_start (dc_selection_deferral_time cfg)) d.
Definition install_rpki (rtr : RoaTable) (d : DaemonState) : DaemonState :=
  set_policies (install_rpki_import_terms (policies (ds_peers d)) rtr (local_as (ds_local d))) d.
End EventLoop.
