(* ===== verification/DaemonFacts.v ===== *)
(** What the operations of the daemon leave alone, and the invariant of its
    tables.

    [strip] blanks everything propagation writes to: the Adj-RIBs-Out, the
    buffers, the senders, the counters and logs.  Two states with the same
    [strip] agree on every other field, by computation. *)
From Stdlib Require Import ZArith Lia Bool.
From stdpp Require Import base tactics numbers decidable gmap list.
From S2P Require Import Prelude Addr Types AsPath Wire Header Notification Open Update RouteMap Roa Policy Route DaemonPolicy BestPath LocRib RibTheorems AdjRib Outbound HandleUpdate ImportTheorems Deferral Capabilities DaemonState Propagate Graceful PeerLifecycle RouteUpdate.
Open Scope Z_scope.

(** * Frames *)
Section Frame.
Context `{P : IpPrefixOps} {M : RouteMapOps} {HO : HashOrder}.

Definition fam_strip {f} (x : Fam f) : Fam f :=
  mkFam (adj_ribs_in x) ∅ (loc_rib x) (oracle x) ∅ (eor_received x) (stale_nlri x)
    (originated_routes x) (peer_max_prefixes x).
Definition strip (d : DaemonState) : DaemonState :=
  mkDaemon (ds_local d) (fam_strip (ds_v4 d)) (fam_strip (ds_v6 d)) (ds_sess d) (ds_peers d)
    (ds_gr d) (ds_deferral d) (mkOutgoing ∅ ∅ ∅ []) (mkObserved ∅ ∅ [] None).

Lemma foldl_strip {A} (g : DaemonState -> A -> DaemonState) :
  (forall d a, strip (g d a) = strip d) -> forall l d, strip (foldl g d l) = strip d.
Proof. intros H l. induction l as [|a l IH]; intros d; [done|]. cbn [foldl]. by rewrite IH. Qed.

Lemma strip_set_out x d : strip (set_out x d) = strip d.
Proof. done. Qed.
Lemma strip_set_obs x d : strip (set_obs x d) = strip d.
Proof. done. Qed.
Lemma strip_set_sender ip tx d : strip (set_sender ip tx d) = strip d.
Proof. done. Qed.
Lemma strip_push_stalled ip d : strip (push_stalled ip d) = strip d.
Proof. done. Qed.
Lemma strip_sync_advertised ip d : strip (sync_advertised ip d) = strip d.
Proof. done. Qed.
Lemma strip_sync_received ip d : strip (sync_received ip d) = strip d.
Proof. done. Qed.
Lemma strip_fib_calls cs d : strip (fib_calls cs d) = strip d.
Proof. by apply foldl_strip. Qed.
Lemma strip_fib_apply {f} (cs : list (BestPathChange f)) d : strip (fib_apply cs d) = strip d.
Proof. apply strip_fib_calls. Qed.
Lemma strip_send_event e d : strip (send_event e d) = strip d.
Proof. done. Qed.
Lemma strip_emit_route_events l d : strip (emit_route_events l d) = strip d.
Proof. by apply foldl_strip. Qed.
Lemma strip_emit_events {f} (l : list (Nlri f)) d : strip (emit_events l d) = strip d.
Proof. destruct f; [apply strip_emit_route_events|done]. Qed.
Lemma strip_set_aro {f} ip (aro : AdjRibOut f) d : strip (set_aro ip aro d) = strip d.
Proof. by destruct f. Qed.
Lemma strip_extend_pending {f} ip (xs : list (PrefixDecision f)) d :
  strip (extend_pending ip xs d) = strip d.
Proof. by destruct f. Qed.
Lemma strip_remove_pending f ip d : strip (remove_pending f ip d) = strip d.
Proof. by destruct f. Qed.
Lemma strip_reset_aro f ip pt d : strip (reset_aro f ip pt d) = strip d.
Proof. unfold reset_aro. destruct (adj_ribs_out (ds_fam d f) !! ip); [apply strip_set_aro|done]. Qed.
Lemma strip_blackhole f ip d : strip (withdraw_peer_blackhole_kernel_routes f ip d) = strip d.
Proof.
  unfold withdraw_peer_blackhole_kernel_routes.
  destruct (adj_ribs_in (ds_fam d f) !! ip); [apply strip_fib_calls|done].
Qed.
Lemma strip_sync_all f d : strip (sync_all f d) = strip d.
Proof. by apply foldl_strip. Qed.

Lemma strip_apply_mrai {f} now ip (xs : list (PrefixDecision f)) d :
  strip (fst (apply_mrai now ip xs d)) = strip d.
Proof.
  destruct f; [|done]. unfold apply_mrai. destruct (bool_decide _); [|done].
  by destruct (mrai_filter now (mrai_table d ip) xs) as [[] ?].
Qed.
Lemma strip_propagate_peer {f} now (l : list (Nlri f)) d ip : strip (propagate_peer now l d ip) = strip d.
Proof.
  unfold propagate_peer. destruct (export_policy _ f !! ip); [|done].
  destruct (adj_ribs_out _ !! ip) as [aro|]; [|done]. destruct (decide_all _ aro l) as [aro' xs].
  pose proof (strip_apply_mrai (now ip) ip xs (set_aro ip aro' d)) as H.
  destruct (apply_mrai _ _ _ _) as [d' xs']. cbn [fst] in H.
  by rewrite strip_extend_pending, H, strip_set_aro.
Qed.
Lemma strip_propagate {f} now (l : list (Nlri f)) d : strip (propagate_to_all_peers now l d) = strip d.
Proof.
  unfold propagate_to_all_peers. rewrite strip_sync_all. apply foldl_strip. intros. apply strip_propagate_peer.
Qed.
Lemma strip_flush_mrai_peer now later d ip : strip (flush_mrai_peer now later d ip) = strip d.
Proof.
  unfold flush_mrai_peer. destruct (mrai_pending _ !! ip) as [s|]; [|done].
  destruct (List.filter _ _); [done|]. by rewrite strip_propagate.
Qed.
Lemma strip_flush_mrai now later d : strip (flush_mrai_pending now later d) = strip d.
Proof. apply foldl_strip. intros. apply strip_flush_mrai_peer. Qed.

Lemma strip_flush_to {f} (xs : list (PrefixDecision f)) ip tx d : strip (fst (flush_to xs ip tx d)) = strip d.
Proof. unfold flush_to. by destruct (flush _ _ _ _ _) as [tx' ok]. Qed.
Lemma strip_flush_nonempty {f} (xs : list (PrefixDecision f)) ip d :
  strip (fst (flush_nonempty xs ip d)) = strip d.
Proof.
  unfold flush_nonempty. destruct xs; [done|]. destruct (update_senders _ !! ip); [|done].
  apply strip_flush_to.
Qed.
Lemma strip_take_pending f ip d : strip (fst (take_pending f ip d)) = strip d.
Proof. by destruct f. Qed.
Lemma strip_flush_peer d ip : strip (flush_peer d ip) = strip d.
Proof.
  unfold flush_peer.
  destruct (take_pending FamV4 ip d) as [d1 xs] eqn:E1. destruct (take_pending FamV6 ip d1) as [d2 xs6] eqn:E2.
  assert (H : strip d2 = strip d).
  { pose proof (strip_take_pending FamV4 ip d) as H1. pose proof (strip_take_pending FamV6 ip d1) as H2.
    rewrite E1 in H1. rewrite E2 in H2. cbn [fst] in *. by rewrite H2, H1. }
  rewrite <- H. clear -d. assert (Hgo : strip (match update_senders (ds_out d2) !! ip with
      | None => d2
      | Some _ => let '(d, ok) := flush_nonempty xs ip d2 in
          if ok then let '(d, ok) := flush_nonempty xs6 ip d in if ok then d else push_stalled ip d
          else push_stalled ip d end) = strip d2).
  { destruct (update_senders _ !! ip); [|done].
    pose proof (strip_flush_nonempty xs ip d2) as H1. destruct (flush_nonempty xs ip d2) as [d3 ok].
    cbn [fst] in H1. pose proof (strip_flush_nonempty xs6 ip d3) as H2. destruct ok; [|done].
    destruct (flush_nonempty xs6 ip d3) as [d4 ok]. cbn [fst] in H2.
    destruct ok; [|rewrite strip_push_stalled]; by rewrite H2. }
  destruct xs, xs6; done.
Qed.
Lemma strip_flush_pending d : strip (flush_pending d) = strip d.
Proof. apply foldl_strip. intros. apply strip_flush_peer. Qed.

Lemma strip_repropagate_peer {f} (l : list (Nlri f)) d ip : strip (repropagate_peer l d ip) = strip d.
Proof.
  unfold repropagate_peer. destruct (capable f d ip); [|done]. destruct (export_policy _ f !! ip); [|done].
  destruct (adj_ribs_out _ !! ip) as [aro|]; [|done]. destruct (update_senders _ !! ip) as [tx|]; [|done].
  destruct (decide_all _ aro l) as [aro' xs].
  pose proof (strip_flush_to xs ip tx (set_aro ip aro' d)) as H.
  destruct (flush_to xs ip tx _) as [d' ok]. cbn [fst] in H. rewrite strip_sync_advertised.
  by destruct ok; rewrite ?strip_push_stalled, H, strip_set_aro.
Qed.
Lemma strip_repropagate {f} ip (l : list (Nlri f)) d : strip (repropagate ip l d) = strip d.
Proof. apply foldl_strip. intros. apply strip_repropagate_peer. Qed.

Lemma strip_send_marker f ip d : strip (fst (send_marker f ip d)) = strip d.
Proof.
  unfold send_marker. destruct (update_senders _ !! ip); [|done]. destruct (send_eor f _) as [tx ok].
  by destruct ok.
Qed.
Lemma strip_dump_family f ip d : strip (fst (dump_family f ip d)) = strip d.
Proof.
  unfold dump_family. destruct (peer_types _ !! ip); [|done]. destruct (capable f d ip); [|done].
  destruct (negotiated_max_len _ !! ip); [|done]. destruct (update_senders _ !! ip) as [tx|]; [|done].
  match goal with |- context [if ?b then send_marker _ _ _ else _] => destruct b end;
    [apply strip_send_marker|].
  destruct (export_policy _ f !! ip); [|done]. destruct (adj_ribs_out _ !! ip) as [aro|]; [|done].
  destruct (decide_all _ aro _) as [aro' xs].
  pose proof (strip_flush_to xs ip tx (set_aro ip aro' d)) as H.
  destruct (flush_to xs ip tx _) as [d' ok]. cbn [fst] in H. rewrite strip_set_aro in H.
  pose proof (strip_send_marker f ip d') as H'. destruct ok.
  - destruct (send_marker f ip d') as [d2 s]. cbn [fst] in *. by rewrite strip_sync_advertised, H'.
  - cbn [fst]. by rewrite strip_sync_advertised, strip_push_stalled.
Qed.
Lemma strip_catch_up released d : strip (catch_up_released_families released d) = strip d.
Proof.
  assert (H : forall f l d, strip (foldl (fun d ip => fst (dump_family f ip d)) d l) = strip d)
    by (intros; apply foldl_strip; intros; apply strip_dump_family).
  unfold catch_up_released_families. destruct released as [[] []]; cbn [fst snd]; by rewrite ?H.
Qed.
End Frame.

#[export] Hint Rewrite @strip_set_out @strip_set_obs @strip_set_sender @strip_push_stalled
  @strip_sync_advertised @strip_sync_received @strip_fib_calls @strip_fib_apply @strip_send_event
  @strip_emit_route_events @strip_emit_events @strip_set_aro @strip_extend_pending
  @strip_remove_pending @strip_reset_aro @strip_blackhole @strip_sync_all @strip_propagate
  @strip_flush_mrai @strip_flush_pending @strip_repropagate @strip_dump_family @strip_catch_up : strip.

(** * The invariant *)
Section Invariant.
Context `{P : IpPrefixOps} {M : RouteMapOps} {HO : HashOrder}.

(** Every action of the policy leaves the prefix alone. *)
Definition nlri_terms {f} (pol : Policy (Route f)) : Prop :=
  Forall (fun t => forall r, nlri (fst (action t r)) = nlri r) (terms pol).

Lemma nlri_terms_keep {f} (pol : Policy (Route f)) : nlri_terms pol -> keeps_nlri pol.
Proof.
  unfold nlri_terms, keeps_nlri, evaluate. intros H. induction H as [|t ts Ht _ IH]; intros r; [done|].
  cbn [evaluate_terms]. unfold term_evaluate. destruct (condition t r); [|apply IH].
  specialize (Ht r). destruct (action t r) as [r' []]; cbn [fst] in *; [done|done|]. by rewrite IH.
Qed.
Lemma nlri_terms_new {f} d : nlri_terms (f:=f) (policy_new d).
Proof. constructor. Qed.
Lemma nlri_terms_add {f} (pol : Policy (Route f)) c a : nlri_terms pol ->
  (forall r, nlri (fst (a r)) = nlri r) -> nlri_terms (add_term pol (mkTerm c a)).
Proof. intros H Ha. apply Forall_app_2; [done|]. by repeat constructor. Qed.
Lemma SetOtc_nlri {f} asn (r : Route f) : nlri (fst (SetOtc asn r)) = nlri r.
Proof. unfold SetOtc. destruct (br_otc r); [done|]. exact (br_nlri_set_otc (R:=Route f) r (Some asn)). Qed.
Lemma nlri_terms_import {f} role d p las : nlri_terms (import_policy_for (R:=Route f) role d p las).
Proof.
  unfold import_policy_for, install_otc_import_term. destruct role as [role|]; [|apply nlri_terms_new].
  destruct (is_up_role role); repeat apply nlri_terms_add;
    try done; try apply nlri_terms_new; intros; apply SetOtc_nlri.
Qed.

Record fam_ok {f} (x : Fam f) : Prop := {
  fo_rib : rib_ok (loc_rib x);
  fo_in : forall ip t, adj_ribs_in x !! ip = Some t -> ari_ok (ari_routes t);
  fo_stale : forall ip s, stale_nlri x !! ip = Some s -> forall n, n ∈ s -> canonical n;
}.
(** The policies, and the tables of a peer, go together. *)
Definition known (d : DaemonState) (f : Family) (ip : IpAddr) : Prop :=
  is_Some (import_policy (policies (ds_peers d)) f !! ip) /\ is_Some (adj_ribs_in (ds_fam d f) !! ip).
Record daemon_ok (d : DaemonState) : Prop := {
  dk_fam : forall f, fam_ok (ds_fam d f);
  dk_policy : forall f ip pol, import_policy (policies (ds_peers d)) f !! ip = Some pol -> nlri_terms pol;
  dk_known : forall f ip, is_Some (import_policies (policies (ds_peers d)) !! ip) -> known d f ip;
  dk_export : forall ip, is_Some (export_policies (policies (ds_peers d)) !! ip) ->
    is_Some (export_policies_v6 (policies (ds_peers d)) !! ip);
}.
(** The best routes are what the decision process selects now. *)
Definition synced_rib (d : DaemonState) : Prop :=
  forall f, all_up_to_date (oracle (ds_fam d f)) (loc_rib (ds_fam d f)).

(** What both depend on. *)
Definition fam_core {f} (x : Fam f) : Fam f :=
  mkFam (adj_ribs_in x) ∅ (loc_rib x) (oracle x) ∅ ∅ (stale_nlri x) ∅ ∅.
Definition core (d : DaemonState) : Fam FamV4 * Fam FamV6 * PolicyTables :=
  (fam_core (ds_v4 d), fam_core (ds_v6 d), policies (ds_peers d)).
Lemma strip_core d d' : strip d' = strip d -> core d' = core d.
Proof. intros H. exact (f_equal core H). Qed.
Lemma core_fam f d d' : core d' = core d -> fam_core (ds_fam d' f) = fam_core (ds_fam d f).
Proof. intros E. destruct f; [exact (f_equal (fun c => c.1.1) E)|exact (f_equal (fun c => c.1.2) E)]. Qed.

Lemma daemon_ok_core d d' : core d' = core d -> daemon_ok d -> daemon_ok d'.
Proof.
  intros E [Hf Hp Hk He].
  assert (Et : policies (ds_peers d') = policies (ds_peers d)) by exact (f_equal snd E).
  assert (Ei : forall f, adj_ribs_in (ds_fam d' f) = adj_ribs_in (ds_fam d f))
    by (intros f; exact (f_equal adj_ribs_in (core_fam f d d' E))).
  split; try rewrite Et; try done.
  - intros f. specialize (Hf f). destruct Hf as [H1 H2 H3].
    pose proof (core_fam f d d' E) as Ef. split.
    + pose proof (f_equal loc_rib Ef) as El. cbn in El. by rewrite El.
    + by rewrite Ei.
    + pose proof (f_equal stale_nlri Ef) as El. cbn in El. by rewrite El.
  - intros f ip H. unfold known. rewrite Et, Ei. by apply Hk.
Qed.
Lemma synced_core d d' : core d' = core d -> synced_rib d -> synced_rib d'.
Proof.
  intros E H f. specialize (H f). pose proof (core_fam f d d' E) as Ef.
  pose proof (f_equal loc_rib Ef) as El. pose proof (f_equal oracle Ef) as Eo. cbn in El, Eo.
  by rewrite El, Eo.
Qed.

(** ** Running an operation *)

(** From a good state the operation does not panic, ends in a good state, and the
    best routes stay those of the decision process. *)
Definition safely {A} (π : A -> DaemonState) (d : DaemonState) (r : Outcome False A) : Prop :=
  daemon_ok d -> exists a, r = Ok a /\ daemon_ok (π a) /\ (synced_rib d -> synced_rib (π a)).

Lemma safely_bind {A B} (π : A -> DaemonState) (ρ : B -> DaemonState) d r k :
  safely π d r -> (forall a, safely ρ (π a) (k a)) -> safely ρ d (a ← r; k a).
Proof.
  intros Hr Hk Hd. destruct (Hr Hd) as (a & -> & Ha & Hs). destruct (Hk a Ha) as (b & E & Hb & Hs').
  cbn [mbind outcome_bind]. exists b. split_and!; [done|done|tauto].
Qed.
Lemma safely_core {A} (π : A -> DaemonState) d d' r : core d' = core d -> safely π d' r -> safely π d r.
Proof.
  intros E H Hd. destruct (H (daemon_ok_core _ _ E Hd)) as (a & -> & Ha & Hs).
  exists a. split_and!; [done|done|]. intros Hsd. by apply Hs, (synced_core _ _ E).
Qed.
Lemma safely_assume {A} (π : A -> DaemonState) d r : (daemon_ok d -> safely π d r) -> safely π d r.
Proof. intros H Hd. by apply H. Qed.
Lemma safely_ret {A} (π : A -> DaemonState) d a : core (π a) = core d -> safely π d (Ok a).
Proof.
  intros E Hd. exists a. split_and!; [done|by eapply daemon_ok_core|by apply synced_core].
Qed.
End Invariant.

(** ** The operations on the routes *)
Section Operations.
Context `{P : IpPrefixOps} {M : RouteMapOps} {HO : HashOrder}.

Lemma upd_fam_ind {f} (Q : forall f, Fam f -> Prop) (g : Fam f -> Fam f) d :
  Q f (g (ds_fam d f)) -> (forall f', Q f' (ds_fam d f')) -> forall f', Q f' (ds_fam (upd_fam g d) f').
Proof. intros Hg H f'. destruct f, f'; first [exact Hg|exact (H FamV4)|exact (H FamV6)]. Qed.
Lemma upd_fam_peers {f} (g : Fam f -> Fam f) d : ds_peers (upd_fam g d) = ds_peers d.
Proof. by destruct f. Qed.
Lemma ds_fam_upd {f} (g : Fam f -> Fam f) d : ds_fam (upd_fam g d) f = g (ds_fam d f).
Proof. by destruct f. Qed.

Lemma upd_fam_ok {f} (g : Fam f -> Fam f) d : daemon_ok d -> fam_ok (g (ds_fam d f)) ->
  (forall ip, is_Some (adj_ribs_in (ds_fam d f) !! ip) -> is_Some (adj_ribs_in (g (ds_fam d f)) !! ip)) ->
  daemon_ok (upd_fam g d).
Proof.
  intros [Hf Hp Hk He] Hg Hin. split; try (by rewrite upd_fam_peers).
  - by apply (upd_fam_ind (@fam_ok _ _)).
  - intros f' ip H. rewrite upd_fam_peers in H. unfold known. rewrite upd_fam_peers.
    split; [by apply Hk|]. revert f'.
    apply (upd_fam_ind (fun f' (x : Fam f') => is_Some (adj_ribs_in x !! ip))); [apply Hin|intros f']; by apply Hk.
Qed.
Lemma upd_fam_synced {f} (g : Fam f -> Fam f) d : synced_rib d ->
  all_up_to_date (oracle (g (ds_fam d f))) (loc_rib (g (ds_fam d f))) -> synced_rib (upd_fam g d).
Proof. intros H Hg. exact (upd_fam_ind (fun f' (x : Fam f') => all_up_to_date (oracle x) (loc_rib x)) g d Hg H). Qed.

(** An update of one family, and what it must keep. *)
Lemma safely_upd {A f} (π : A -> DaemonState) (g : Fam f -> Fam f) d r :
  (fam_ok (ds_fam d f) -> fam_ok (g (ds_fam d f))) ->
  (forall ip, is_Some (adj_ribs_in (ds_fam d f) !! ip) -> is_Some (adj_ribs_in (g (ds_fam d f)) !! ip)) ->
  loc_rib (g (ds_fam d f)) = loc_rib (ds_fam d f) -> oracle (g (ds_fam d f)) = oracle (ds_fam d f) ->
  safely π (upd_fam g d) r -> safely π d r.
Proof.
  intros Hg Hin El Eo H Hd. destruct H as (a & -> & Ha & Hs).
  { apply upd_fam_ok; [done| |done]. by apply Hg, dk_fam. }
  exists a. split_and!; [done|done|]. intros Hsd. apply Hs, upd_fam_synced; [done|]. by rewrite El, Eo.
Qed.

(** The result of a run of the RIB put in place. *)
Definition rib_goes {f} (d : DaemonState) (lr : LocRib f) : Prop :=
  rib_ok lr /\ (all_up_to_date (oracle (ds_fam d f)) (loc_rib (ds_fam d f)) ->
               all_up_to_date (oracle (ds_fam d f)) lr).
Lemma set_rib_ok {f} (lr : LocRib f) d : daemon_ok d -> rib_goes d lr ->
  daemon_ok (upd_fam (fam_set_rib lr) d) /\ (synced_rib d -> synced_rib (upd_fam (fam_set_rib lr) d)).
Proof.
  intros Hd [Hok Hu]. split.
  - apply upd_fam_ok; [done| |done]. destruct (dk_fam d Hd f) as [_ H2 H3]. by split.
  - intros Hs. apply upd_fam_synced; [done|]. apply Hu, Hs.
Qed.

Context {L : IpPrefixLaws} {ML : RouteMapLaws} {HL : HashOrderLaw}.

Lemma rib_ops_goes {f} (d : DaemonState) (ops : list (RibOp f)) : daemon_ok d -> Forall op_ok ops ->
  Forall (fun op => op_oracle op = oracle (ds_fam d f)) ops ->
  exists lr cs, rib_run (loc_rib (ds_fam d f)) ops = Ok (lr, cs) /\ rib_goes d lr.
Proof.
  intros Hd Hops Ho.
  destruct (rib_run_spec ops _ (fo_rib _ (dk_fam d Hd f)) Hops) as (lr & cs & E & Hok & _ & Hu & _).
  exists lr, cs. split; [done|]. split; [done|]. intros Hall.
  apply (Hu _ (all_up_to_date (oracle (ds_fam d f)) (loc_rib (ds_fam d f)))); [done|]. by apply one_oracle.
Qed.
Lemma one_ok {f} (r : Outcome False (LocRib f * BestPathChange f)) lr cs :
  (one r = Ok (lr, cs)) -> exists c, r = Ok (lr, c) /\ cs = [c].
Proof. destruct r as [[lr' c]| | |]; [|done..]. intros [= -> <-]. by exists c. Qed.

(** One step of the RIB, and the new table put in place. *)
Lemma rib_step_goes {f} (d : DaemonState) (op : RibOp f) : daemon_ok d -> op_ok op ->
  op_oracle op = oracle (ds_fam d f) ->
  exists lr cs, rib_step (loc_rib (ds_fam d f)) op = Ok (lr, cs) /\ rib_goes d lr.
Proof.
  intros Hd Hop Ho. destruct (rib_ops_goes d [op] Hd) as (lr & cs & E & Hg); [by repeat constructor..|].
  cbn [rib_run] in E. destruct (rib_step _ op) as [[lr1 cs1]| | |]; [|done..].
  cbn [mbind outcome_bind] in E. injection E as -> _. by exists lr, cs1.
Qed.
Lemma safely_rib_insert {f} peer (r : Route f) d : canonical (nlri r) -> safely fst d (rib_insert peer r d).
Proof.
  intros Hc Hd.
  destruct (rib_step_goes d (RInsert peer r (oracle (ds_fam d f))) Hd Hc eq_refl) as (lr & cs & E & Hg).
  apply one_ok in E as (c & E & _). unfold rib_insert. rewrite E. cbn [mbind outcome_bind].
  eexists. split; [done|]. by apply set_rib_ok.
Qed.
Lemma safely_rib_withdraw {f} peer (n : Nlri f) d : canonical n -> safely fst d (rib_withdraw peer n d).
Proof.
  intros Hc Hd.
  destruct (rib_step_goes d (RWithdraw peer n (oracle (ds_fam d f))) Hd Hc eq_refl) as (lr & cs & E & Hg).
  apply one_ok in E as (c & E & _). unfold rib_withdraw. rewrite E. cbn [mbind outcome_bind].
  eexists. split; [done|]. by apply set_rib_ok.
Qed.
Lemma safely_rib_withdraw_peer f peer d : safely fst d (rib_withdraw_peer f peer d).
Proof.
  intros Hd.
  destruct (rib_step_goes d (RWithdrawPeer peer (oracle (ds_fam d f))) Hd I eq_refl) as (lr & cs & E & Hg).
  cbn [rib_step] in E. unfold rib_withdraw_peer. rewrite E. cbn [mbind outcome_bind].
  eexists. split; [done|]. by apply set_rib_ok.
Qed.
Lemma safely_rib_recompute_all f d : safely fst d (rib_recompute_all f d).
Proof.
  intros Hd.
  destruct (rib_step_goes d (RRecomputeAll (oracle (ds_fam d f))) Hd I eq_refl) as (lr & cs & E & Hg).
  cbn [rib_step] in E. unfold rib_recompute_all. rewrite E. cbn [mbind outcome_bind].
  eexists. split; [done|]. by apply set_rib_ok.
Qed.
Lemma safely_rib_insert_all {f} peer (rs : list (Route f)) : Forall (fun r => canonical (nlri r)) rs ->
  forall d, safely fst d (rib_insert_all peer rs d).
Proof.
  induction 1 as [|r rs Hr _ IH]; intros d; cbn [rib_insert_all]; [by apply safely_ret|].
  eapply safely_bind; [by apply safely_rib_insert|]. intros [d1 c]. cbn [fst].
  eapply safely_bind; [apply IH|]. intros [d2 cs]. by apply safely_ret.
Qed.
Lemma safely_rib_withdraw_all {f} peer (ns : list (Nlri f)) : Forall canonical ns ->
  forall d, safely fst d (rib_withdraw_all peer ns d).
Proof.
  induction 1 as [|n ns Hn _ IH]; intros d; cbn [rib_withdraw_all]; [by apply safely_ret|].
  eapply safely_bind; [by apply safely_rib_withdraw|]. intros [d1 c]. cbn [fst].
  eapply safely_bind; [apply IH|]. intros [d2 cs]. by apply safely_ret.
Qed.

(** A state that propagation has left. *)
Lemma safely_done d d' : strip d' = strip d -> safely id d (Ok d').
Proof. intros E. by apply safely_ret, strip_core. Qed.

(** ** Graceful restart *)
Lemma fam_set_in_ok {f} ip (t : AdjRibIn f) (x : Fam f) : fam_ok x -> ari_ok (ari_routes t) ->
  fam_ok (fam_set_in (<[ip := t]> (adj_ribs_in x)) x).
Proof.
  intros [H1 H2 H3] Ht. split; [done| |done]. intros ip' t'. cbn [adj_ribs_in fam_set_in].
  rewrite lookup_insert. destruct (decide _); [by intros [= <-]|apply H2].
Qed.
Lemma insert_is_Some {A} ip ip' (a : A) (m : gmap IpAddr A) : is_Some (m !! ip') -> is_Some (<[ip := a]> m !! ip').
Proof. intros H. rewrite lookup_insert. by destruct (decide _). Qed.
Lemma safely_set_in {A f} (π : A -> DaemonState) ip (t : AdjRibIn f) d r :
  (fam_ok (ds_fam d f) -> ari_ok (ari_routes t)) ->
  safely π (upd_fam (fun x : Fam f => fam_set_in (<[ip := t]> (adj_ribs_in x)) x) d) r -> safely π d r.
Proof.
  intros Ht. apply safely_upd; try done.
  - intros Hf. apply fam_set_in_ok; auto.
  - intros ip' H. by apply insert_is_Some.
Qed.
Lemma safely_clear_in {A} (π : A -> DaemonState) f ip d r :
  safely π (clear_in f ip d) r -> safely π d r.
Proof.
  unfold clear_in. destruct (adj_ribs_in (ds_fam d f) !! ip) as [t|]; [|done].
  apply safely_set_in. intros _ n r0. cbn [ari_clear ari_routes]. by rewrite lookup_empty.
Qed.
Lemma safely_remove_stale {A} (π : A -> DaemonState) f ip d r :
  safely π (remove_stale f ip d) r -> safely π d r.
Proof.
  apply safely_upd; try done. intros [H1 H2 H3]. split; [done|done|]. intros ip' s.
  cbn [stale_nlri fam_set_stale]. rewrite lookup_delete. destruct (decide _); [done|apply H3].
Qed.

Lemma repropagate_strip_core {f} ip (l : list (Nlri f)) d : core (repropagate ip l d) = core d.
Proof. apply strip_core, strip_repropagate. Qed.

Lemma mark_all_stale_ok {f} (t : AdjRibIn f) : ari_ok (ari_routes t) ->
  ari_ok (ari_routes (fst (mark_all_stale t)))
  /\ Forall (fun r => canonical (nlri r)) (snd (mark_all_stale t)).
Proof.
  intros Ht. unfold mark_all_stale. cbn [fst snd ari_routes]. split.
  - intros n r. rewrite lookup_fmap_Some. intros (r0 & <- & Hr). exact (Ht n r0 Hr).
  - apply Forall_fmap, Forall_forall. intros [n r] Hin. rewrite (hash_order_perm _ (map_to_list _)) in Hin.
    apply elem_of_map_to_list in Hin. destruct (Ht n r Hin) as [<- Hc]. exact Hc.
Qed.
Lemma safely_mark_stale f ip d : safely id d (mark_stale f ip d).
Proof.
  unfold mark_stale. destruct (adj_ribs_in (ds_fam d f) !! ip) as [t|] eqn:Et; [|by apply safely_done].
  apply safely_assume. intros Hd.
  assert (Ht : ari_ok (ari_routes t)) by (by eapply fo_in; [apply dk_fam|]).
  destruct (mark_all_stale_ok t Ht) as [Ht' Hs]. destruct (mark_all_stale t) as [t' stale].
  cbn [fst snd] in Ht', Hs.
  apply (safely_set_in id ip t'); [done|].
  set (d1 := upd_fam _ d). destruct stale as [|r rs]; [by apply safely_done|].
  eapply safely_bind; [by apply safely_rib_insert_all|]. intros [d2 cs]. cbn [fst].
  apply safely_done. by autorewrite with strip.
Qed.
Lemma safely_mark_stale_and_repropagate ip b4 b6 d : safely id d (mark_stale_and_repropagate ip b4 b6 d).
Proof.
  unfold mark_stale_and_repropagate. apply (safely_bind id).
  - destruct b4; [apply safely_mark_stale|by apply safely_done].
  - intros d1. destruct b6; [apply safely_mark_stale|by apply safely_done].
Qed.

Lemma ari_withdraws_ok {f} l : forall t : AdjRibIn f, ari_ok (ari_routes t) ->
  ari_ok (ari_routes (foldl (fun t n => fst (ari_withdraw t n)) t l)).
Proof.
  induction l as [|n l IH]; intros t Ht; [done|]. cbn [foldl]. apply IH. intros m r. cbn [ari_withdraw fst ari_routes].
  rewrite lookup_delete. destruct (decide _); [done|apply Ht].
Qed.
(** The Adj-RIB-In without the pruned prefixes. *)
Definition pruned_in {f} ip (l : list (Nlri f)) (d : DaemonState) : DaemonState :=
  match adj_ribs_in (ds_fam d f) !! ip with
  | Some t => upd_fam (fun x : Fam f =>
      fam_set_in (<[ip := foldl (fun t n => fst (ari_withdraw t n)) t l]> (adj_ribs_in x)) x)
      (fib_calls (map (FibWithdrawBlackhole f) (List.filter (fun n => match ari_get t n with
         | Some r => has_blackhole r | None => false end) l)) d)
  | None => d
  end.
Lemma safely_pruned_in {A} (π : A -> DaemonState) {f} ip (l : list (Nlri f)) d r :
  safely π (pruned_in ip l d) r -> safely π d r.
Proof.
  unfold pruned_in. destruct (adj_ribs_in (ds_fam d f) !! ip) as [t|] eqn:Et; [|done].
  set (cs := map _ _). intros H.
  apply (safely_core π d (fib_calls cs d)); [apply strip_core, strip_fib_calls|]. revert H.
  apply safely_set_in. intros Hf. apply ari_withdraws_ok. apply (fo_in _ Hf ip).
  pose proof (f_equal adj_ribs_in (core_fam f _ _ (strip_core _ _ (strip_fib_calls cs d)))) as E.
  cbn [fam_core adj_ribs_in] in E. by rewrite E.
Qed.
Lemma safely_prune {f} ip (stale : gset (Nlri f)) d : (forall n, n ∈ stale -> canonical n) ->
  safely id d (prune_stale_nlri ip stale d).
Proof.
  intros Hs. unfold prune_stale_nlri. fold (pruned_in ip (hash_order (elements stale)) d).
  apply (safely_pruned_in id ip (hash_order (elements stale))).
  eapply safely_bind.
  - apply safely_rib_withdraw_all. apply Forall_forall. intros n Hn. apply Hs.
    rewrite (hash_order_perm _ (elements stale)) in Hn. by apply elem_of_elements.
  - intros [d1 cs]. cbn [fst]. apply safely_done. by autorewrite with strip.
Qed.

Lemma safely_gr_deadline ip d : safely id d (on_gr_deadline_expired ip d).
Proof.
  unfold on_gr_deadline_expired.
  apply (safely_remove_stale id FamV4 ip). apply (safely_remove_stale id FamV6 ip).
  set (d1 := remove_stale FamV6 ip (remove_stale FamV4 ip d)). clearbody d1.
  apply (safely_core id d1 (withdraw_peer_blackhole_kernel_routes FamV6 ip
                       (withdraw_peer_blackhole_kernel_routes FamV4 ip d1)));
    [apply strip_core; by autorewrite with strip|].
  apply (safely_clear_in id FamV4 ip), (safely_clear_in id FamV6 ip).
  eapply safely_bind; [apply safely_rib_withdraw_peer|]. intros [d2 cs]. cbn [fst].
  eapply safely_bind; [apply safely_rib_withdraw_peer|]. intros [d3 cs6]. cbn [fst].
  apply safely_done. by autorewrite with strip.
Qed.

Lemma core_recompute_deferral d : core (recompute_selection_deferral d) = core d.
Proof.
  unfold recompute_selection_deferral. destruct (sd_recompute _ _ _) as [sd released].
  rewrite (strip_core _ _ (strip_catch_up released (set_deferral sd d))). done.
Qed.
Lemma core_force_release d : core (force_release_selection_deferral d) = core d.
Proof.
  unfold force_release_selection_deferral. destruct (force_release _) as [sd released].
  rewrite (strip_core _ _ (strip_catch_up released (set_deferral sd d))). done.
Qed.

(** ** Received UPDATE messages *)
Lemma safely_end_of_rib f ip d : safely id d (end_of_rib f ip d).
Proof.
  unfold end_of_rib. set (d1 := upd_fam _ d).
  apply (safely_core id d d1); [by destruct f|].
  eapply (safely_bind id); [|intros d2; apply safely_ret, core_recompute_deferral].
  destruct (stale_nlri (ds_fam d1 f) !! ip) as [stale|] eqn:Es; [|by apply safely_done].
  apply safely_assume. intros Hd. pose proof (fo_stale _ (dk_fam d1 Hd f) ip stale Es) as Hs.
  apply (safely_remove_stale id f ip).
  destruct (bool_decide (stale = ∅)); [by apply safely_done|]. by apply safely_prune.
Qed.

Lemma prepend_cluster_ok cid attrs : Forall mp_ok attrs -> Forall mp_ok (prepend_cluster cid attrs).
Proof.
  induction 1 as [|a attrs Ha Hs IH]; [by repeat constructor|].
  destruct a; cbn [prepend_cluster]; apply Forall_cons_2; first [exact Ha|exact IH|exact Hs].
Qed.
Lemma rr_inbound_ok ip d msg msg' : rr_inbound ip d msg = Some msg' -> msg_ok msg -> msg_ok msg'.
Proof.
  unfold rr_inbound. destruct (_ && _); [|by intros [= ->]]. destruct (rr_loop _ _ _); [done|].
  intros [= <-] (H1 & H2 & H3). split_and!; [done|done|]. cbn [rr_inject attributes].
  apply prepend_cluster_ok. destruct (existsb _ _); [done|]. apply Forall_app_2; [done|]. by repeat constructor.
Qed.

Lemma refresh_stale_core_fam {A} (π : A -> DaemonState) {f} ip (l : list (Nlri f)) d r :
  safely π (refresh_stale ip l d) r -> safely π d r.
Proof.
  unfold refresh_stale. destruct (stale_nlri (ds_fam d f) !! ip) as [s|] eqn:Es; [|done].
  apply safely_upd; try done. intros [H1 H2 H3]. split; [done|done|]. intros ip' s'.
  cbn [stale_nlri fam_set_stale]. rewrite lookup_insert. destruct (decide _) as [<-|]; [|apply H3].
  intros [= <-] n [Hn _]%elem_of_difference. by apply (H3 ip s).
Qed.
Lemma refresh_stale_fields {f} ip (l : list (Nlri f)) d :
  ds_peers (refresh_stale ip l d) = ds_peers d
  /\ forall f', adj_ribs_in (ds_fam (refresh_stale ip l d) f') = adj_ribs_in (ds_fam d f').
Proof.
  unfold refresh_stale. destruct (stale_nlri (ds_fam d f) !! ip); [|done].
  split; [by destruct f|intros f'; by destruct f, f'].
Qed.

Lemma core_after_update ip clock msg s4 s6 note d :
  core (fst (after_update ip clock msg s4 s6 note d)) = core d.
Proof.
  unfold after_update. destruct (_ || _).
  - unfold hold_idle. by destruct (peer_max_prefixes_restart _ !! ip).
  - cbn [fst]. apply strip_core. rewrite strip_emit_route_events.
    destruct (nonempty _); autorewrite with strip; unfold fib_update; by autorewrite with strip.
Qed.

(** Both sides of an import put in place. *)
Lemma sides_ok ip s4 s6 d : daemon_ok d -> rib_goes (f:=FamV4) d (s_rib s4) ->
  rib_goes (f:=FamV6) d (s_rib s6) -> ari_ok (ari_routes (s_in s4)) -> ari_ok (ari_routes (s_in s6)) ->
  let d' := upd_fam (fun x : Fam FamV6 =>
      fam_set_in (match adj_ribs_in x !! ip with
                  | Some _ => <[ip := s_in s6]> (adj_ribs_in x) | None => adj_ribs_in x end)
        (fam_set_rib (s_rib s6) x))
    (upd_fam (fun x : Fam FamV4 =>
      fam_set_in (<[ip := s_in s4]> (adj_ribs_in x)) (fam_set_rib (s_rib s4) x)) d) in
  daemon_ok d' /\ (synced_rib d -> synced_rib d').
Proof.
  intros Hd [H4 Hu4] [H6 Hu6] Hi4 Hi6. cbv zeta. split.
  - apply upd_fam_ok; [apply upd_fam_ok; [done| |]| |].
    + refine (fam_set_in_ok ip _ (fam_set_rib (s_rib s4) (ds_fam d FamV4)) _ Hi4).
      destruct (dk_fam d Hd FamV4). by split.
    + intros ip' H. by apply insert_is_Some.
    + destruct (dk_fam d Hd FamV6) as [_ K2 K3]. cbn [ds_fam upd_fam set_fam ds_v6].
      destruct (adj_ribs_in (ds_v6 d) !! ip); [|by split].
      refine (fam_set_in_ok ip _ (fam_set_rib (s_rib s6) (ds_v6 d)) _ Hi6). by split.
    + cbn [ds_fam upd_fam set_fam ds_v6]. intros ip' H. cbn [adj_ribs_in fam_set_in].
      destruct (adj_ribs_in (ds_v6 d) !! ip); [by apply insert_is_Some|done].
  - intros Hs. apply upd_fam_synced; [apply upd_fam_synced; [done|]|].
    + cbn. apply Hu4, (Hs FamV4).
    + cbn. destruct (adj_ribs_in (ds_v6 d) !! ip); apply Hu6, (Hs FamV6).
Qed.
Lemma safely_import_update ip clock msg d : msg_ok msg -> safely fst d (import_update ip clock msg d).
Proof.
  intros Hmsg. unfold import_update.
  destruct (import_policies _ !! ip) as [policy|] eqn:Ep; [|by apply safely_ret].
  destruct (import_policies_v6 _ !! ip) as [policy6|] eqn:Ep6; [|by apply safely_ret].
  destruct (adj_ribs_in (ds_v4 d) !! ip) as [t4|] eqn:Et; [|by apply safely_ret].
  set (t6 := default (ari_new ip) (adj_ribs_in (ds_v6 d) !! ip)).
  apply safely_assume. intros Hd0.
  assert (Hk : keeps_nlri policy) by (by eapply nlri_terms_keep, (dk_policy d Hd0 FamV4)).
  assert (Hk6 : keeps_nlri policy6) by (by eapply nlri_terms_keep, (dk_policy d Hd0 FamV6)).
  assert (Ht4 : ari_ok (ari_routes t4)) by (by eapply (fo_in _ (dk_fam d Hd0 FamV4))).
  assert (Ht6 : ari_ok (ari_routes t6)).
  { unfold t6. destruct (adj_ribs_in (ds_v6 d) !! ip) eqn:E6; [by eapply (fo_in _ (dk_fam d Hd0 FamV6))|].
    intros n r. cbn. by rewrite lookup_empty. }
  apply (refresh_stale_core_fam fst ip (Update.announced msg)).
  apply (refresh_stale_core_fam fst ip (mp_reach_v6 (attributes msg))).
  set (d1 := refresh_stale ip (mp_reach_v6 _) _). clearbody d1. intros Hd.
  set (cx := update_ctx ip policy policy6 (ck_route clock) d1).
  destruct (handle_update_spec cx msg t4 (loc_rib (ds_v4 d1)) t6 (loc_rib (ds_v6 d1)) Hmsg
      (fo_rib _ (dk_fam d1 Hd FamV4)) (fo_rib _ (dk_fam d1 Hd FamV6)) Hk Hk6) as (s4 & s6 & E & R4 & R6).
  rewrite E. cbn [mbind outcome_bind]. eexists. split; [reflexivity|].
  destruct (sides_ok ip s4 s6 d1 Hd) as [Hok Hsync].
  - split; [apply (sr_ok _ _ _ _ _ _ _ R4)|apply (sr_best _ _ _ _ _ _ _ R4)].
  - split; [apply (sr_ok _ _ _ _ _ _ _ R6)|apply (sr_best _ _ _ _ _ _ _ R6)].
  - by apply (sr_in_ok _ _ _ _ _ _ _ R4).
  - by apply (sr_in_ok _ _ _ _ _ _ _ R6).
  - set (d2 := upd_fam _ (upd_fam _ d1)) in *.
    pose proof (core_after_update ip clock msg s4 s6 (plan_notification cx msg) d2) as Ec.
    split; [by eapply daemon_ok_core|]. intros Hs. eapply synced_core; [exact Ec|auto].
Qed.
Lemma safely_route_update ip clock msg d : msg_ok msg -> safely fst d (on_route_update ip clock msg d).
Proof.
  intros Hmsg. unfold on_route_update. destruct (is_eor_v4 msg); [|destruct (is_eor_v6 msg)].
  - eapply (safely_bind id); [apply safely_end_of_rib|]. intros d1. by apply safely_ret.
  - eapply (safely_bind id); [apply safely_end_of_rib|]. intros d1. by apply safely_ret.
  - destruct (rr_inbound ip d msg) as [msg'|] eqn:E; [|by apply safely_ret].
    apply safely_import_update. by eapply rr_inbound_ok.
Qed.
End Operations.
