(* ===== verification/DaemonInvariant.v ===== *)
(** Every operation of the daemon keeps its invariant, and so does every step of
    its event loop. *)
From Stdlib Require Import ZArith Lia Bool.
From stdpp Require Import base tactics numbers decidable gmap list.
From S2P Require Import Prelude Addr Types AsPath Wire Header Notification Open Update Fsm Session RouteMap Roa Policy Route DaemonPolicy BestPath LocRib RibTheorems AdjRib Outbound HandleUpdate ImportTheorems Deferral Capabilities DaemonState Propagate Graceful PeerLifecycle RouteUpdate EventLoop DaemonFacts.
Open Scope Z_scope.

Section Operations.
Context `{P : IpPrefixOps} {M : RouteMapOps} {HO : HashOrder}.
Context {L : IpPrefixLaws} {ML : RouteMapLaws} {HL : HashOrderLaw}.

(** ** Policy changes *)
Lemma emit_propagate_strip {f} now (l : list (Nlri f)) (cs : list (BestPathChange f)) d :
  strip (emit_events l (propagate_to_all_peers now l (fib_apply cs d))) = strip d.
Proof. by rewrite strip_emit_events, strip_propagate, strip_fib_apply. Qed.

(** What soft reconfiguration does: the RIB of the family, and propagation. *)
Lemma reevaluate_family_spec {f} ip now d : daemon_ok d -> known d f ip ->
  exists (lr : LocRib f) d', reevaluate_family (f:=f) ip now d = Ok d' /\ rib_goes d lr
    /\ strip d' = strip (upd_fam (fam_set_rib lr) d).
Proof.
  intros Hd [[pol Hp] [t Ht]]. unfold reevaluate_family. rewrite Ht, Hp.
  unfold reapply_import_policy. rewrite reapply_run.
  assert (Hk : keeps_nlri pol) by (by eapply nlri_terms_keep, dk_policy).
  destruct (rib_ops_goes d (map (reapply_op ip pol (oracle (ds_fam d f))) (ari_iter t)) Hd)
    as (lr & cs & E & Hg).
  - rewrite Forall_map. apply Forall_forall. intros [n raw] Hin. unfold ari_iter in Hin.
    rewrite (hash_order_perm _ (map_to_list _)) in Hin. apply elem_of_map_to_list in Hin.
    destruct (fo_in _ (dk_fam d Hd f) ip t Ht n raw Hin) as [Hn Hc].
    unfold reapply_op. cbn [fst snd]. specialize (Hk raw). destruct (evaluate pol raw) as [r []]; [|exact Hc..].
    cbn [op_ok]. cbn [fst] in Hk. by rewrite Hk, Hn.
  - rewrite Forall_map. apply Forall_forall. intros [n raw] _. unfold reapply_op.
    by destruct (evaluate pol _) as [r []].
  - rewrite E. cbn [mbind outcome_bind]. exists lr. eexists. split_and!; [reflexivity|done|].
    apply emit_propagate_strip.
Qed.
(** The operation keeps the policies, and the tables known. *)
Definition keeps_known (d d' : DaemonState) : Prop :=
  policies (ds_peers d') = policies (ds_peers d) /\ forall f ip, known d f ip -> known d' f ip.
Lemma strip_known d d' : strip d' = strip d -> keeps_known d d'.
Proof.
  intros E. assert (Ep : policies (ds_peers d') = policies (ds_peers d))
    by exact (f_equal (fun d => policies (ds_peers d)) E).
  assert (Ei : forall f, adj_ribs_in (ds_fam d' f) = adj_ribs_in (ds_fam d f)).
  { intros f. exact (f_equal adj_ribs_in (core_fam f _ _ (strip_core _ _ E))). }
  split; [exact Ep|]. intros f ip [H1 H2]. unfold known. by rewrite Ei, Ep.
Qed.
Lemma set_rib_known {f} (lr : LocRib f) d : keeps_known d (upd_fam (fam_set_rib lr) d).
Proof.
  unfold keeps_known, known. rewrite !upd_fam_peers. split; [done|]. intros f' ip [H1 H2].
  split; [done|]. by destruct f, f'.
Qed.
Lemma keeps_known_trans d1 d2 d3 : keeps_known d1 d2 -> keeps_known d2 d3 -> keeps_known d1 d3.
Proof. intros [E1 H1] [E2 H2]. split; [congruence|auto]. Qed.

Lemma reevaluate_family_safe {f} ip now d : daemon_ok d -> known d f ip ->
  exists d', reevaluate_family (f:=f) ip now d = Ok d' /\ daemon_ok d'
    /\ (synced_rib d -> synced_rib d') /\ keeps_known d d'.
Proof.
  intros Hd Hk. destruct (reevaluate_family_spec ip now d Hd Hk) as (lr & d' & E & Hg & Es).
  destruct (set_rib_ok lr d Hd Hg) as [Hok Hsync]. pose proof (strip_core _ _ Es) as Ec.
  exists d'. split_and!; [done|by eapply daemon_ok_core|intros Hs; eapply synced_core; [exact Ec|auto]|].
  eapply keeps_known_trans; [apply (set_rib_known lr)|by apply strip_known].
Qed.
Lemma reevaluate_peer_safe ip now d : daemon_ok d -> (forall f, known d f ip) ->
  exists d', reevaluate_import_for_peer ip now d = Ok d' /\ daemon_ok d'
    /\ (synced_rib d -> synced_rib d') /\ keeps_known d d'.
Proof.
  intros Hd Hk. destruct (reevaluate_family_safe ip now d Hd (Hk FamV4)) as (d1 & E1 & H1 & S1 & K1).
  destruct (reevaluate_family_safe ip now d1 H1 (proj2 K1 FamV6 ip (Hk FamV6))) as (d2 & E2 & H2 & S2 & K2).
  exists d2. unfold reevaluate_import_for_peer. rewrite E1. cbn [mbind outcome_bind].
  split_and!; [done|done|tauto|by eapply keeps_known_trans].
Qed.
Lemma reevaluate_peers_safe ips now : forall d, daemon_ok d ->
  Forall (fun ip => forall f, known d f ip) ips -> safely id d (reevaluate_peers ips now d).
Proof.
  induction ips as [|ip ips IH]; intros d Hd Hk; cbn [reevaluate_peers]; [by apply safely_done|].
  apply Forall_cons in Hk as [Hip Hk].
  destruct (reevaluate_peer_safe ip now d Hd Hip) as (d1 & E1 & H1 & S1 & K1). intros _. rewrite E1.
  cbn [mbind outcome_bind]. destruct (IH d1 H1) as (d2 & E2 & H2 & S2); [|done|].
  - eapply Forall_impl; [exact Hk|]. intros ip' H f. apply K1, H.
  - exists d2. split_and!; [done|done|]. unfold id in *. tauto.
Qed.
Lemma safely_reevaluate_all now d : safely id d (reevaluate_all_import_policies now d).
Proof.
  unfold reevaluate_all_import_policies. apply safely_assume. intros Hd. eapply (safely_bind id).
  - apply reevaluate_peers_safe; [done|]. apply Forall_forall. intros ip Hin f.
    rewrite (hash_order_perm _ (map_to_list _)) in Hin.
    apply list_elem_of_fmap in Hin as ([ip' pol] & -> & Hin). apply elem_of_map_to_list in Hin.
    apply (dk_known d Hd). by exists pol.
  - intros d1. apply safely_done, strip_flush_pending.
Qed.

Lemma alter_is_Some {A} (g : A -> A) ip ip' (m : gmap IpAddr A) :
  is_Some (alter g ip m !! ip') <-> is_Some (m !! ip').
Proof. rewrite lookup_alter. destruct (decide _) as [->|]; [|done]. apply fmap_is_Some. Qed.
Lemma set_default_terms {f} ip a (m : gmap IpAddr (Policy (Route f))) :
  (forall ip pol, m !! ip = Some pol -> nlri_terms pol) ->
  forall ip' pol, alter (fun p => set_default p a) ip m !! ip' = Some pol -> nlri_terms pol.
Proof.
  intros H ip' pol. rewrite lookup_alter. destruct (decide _) as [->|]; [|apply H].
  destruct (m !! ip') as [p|] eqn:E; [|done]. intros [= <-]. exact (H ip' p E).
Qed.
(** Other policies for the same peers. *)
Lemma set_policies_ok t d : daemon_ok d ->
  (forall f ip pol, import_policy t f !! ip = Some pol -> nlri_terms pol) ->
  (forall f ip, is_Some (import_policy t f !! ip) <-> is_Some (import_policy (policies (ds_peers d)) f !! ip)) ->
  (forall ip, is_Some (export_policies t !! ip) -> is_Some (export_policies_v6 t !! ip)) ->
  daemon_ok (set_policies t d) /\ forall f ip, known d f ip -> known (set_policies t d) f ip.
Proof.
  intros [Hf Hp Hk He] Hpt Hi Hx.
  assert (Hkn : forall f ip, known d f ip -> known (set_policies t d) f ip).
  { intros f ip [H1 H2]. split; [by apply Hi|]. by destruct f. }
  split; [|done]. split; [by intros []; apply Hf|exact Hpt| |exact Hx].
  intros f ip H%(Hi FamV4). by apply Hkn, Hk.
Qed.
Lemma set_default_ok ip a d : daemon_ok d ->
  let d' := set_policies (tables_set_import_default (policies (ds_peers d)) ip a) d in
  daemon_ok d' /\ forall f ip', known d f ip' -> known d' f ip'.
Proof.
  intros Hd. apply set_policies_ok; [done| | |exact (dk_export d Hd)].
  - intros [] ip' pol'; cbn [import_policy tables_set_import_default];
      apply set_default_terms; [apply (dk_policy d Hd FamV4)|apply (dk_policy d Hd FamV6)].
  - intros [] ip'; apply alter_is_Some.
Qed.
Lemma safely_set_import_default ip a now d : safely id d (set_import_default ip a now d).
Proof.
  unfold set_import_default. destruct (import_policies _ !! ip) as [pol|] eqn:Ep; [|by apply safely_done].
  intros Hd. destruct (dk_known d Hd FamV6 ip) as [[pol6 Ep6] _]; [by exists pol|].
  cbn [import_policy] in Ep6. rewrite Ep6.
  set (t := tables_set_import_default (policies (ds_peers d)) ip a).
  destruct (set_default_ok ip a d Hd) as [H1 K1]. fold t in H1, K1.
  destruct (reevaluate_peer_safe ip now (set_policies t d) H1) as (d1 & E1 & H2 & S2 & _).
  { intros f. apply K1, (dk_known d Hd). by exists pol. }
  fold t. rewrite E1. cbn [mbind outcome_bind]. eexists. split; [reflexivity|].
  pose proof (strip_core _ _ (strip_flush_pending d1)) as Ec.
  split; [by eapply daemon_ok_core|]. intros Hs. eapply synced_core; [exact Ec|]. by apply S2.
Qed.
Lemma strip_reexport f ip pt d : strip (reexport_family f ip pt d) = strip d.
Proof.
  unfold reexport_family. destruct (export_policy _ f !! ip); [|done].
  destruct (adj_ribs_out _ !! ip) as [aro|]; [|done]. destruct (update_senders _ !! ip) as [tx|]; [|done].
  destruct (decide_all _ aro _) as [aro' xs].
  pose proof (strip_flush_to xs ip tx (set_aro ip aro' d)) as H.
  destruct (flush_to xs ip tx _) as [d' ok]. cbn [fst] in H.
  by destruct ok; rewrite ?strip_push_stalled, H, strip_set_aro.
Qed.
Lemma safely_set_export_default ip a d : safely id d (set_export_default ip a d).
Proof.
  unfold set_export_default. destruct (export_policies _ !! ip) as [pol|] eqn:Ep; [|by apply safely_done].
  intros Hd. destruct (dk_export d Hd ip) as [pol6 Ep6]; [by exists pol|]. rewrite Ep6.
  set (t := tables_set_export_default (policies (ds_peers d)) ip a).
  destruct (set_policies_ok t d Hd) as [H1 _].
  { exact (dk_policy d Hd). }
  { by intros []. }
  { intros ip'. cbn [t tables_set_export_default export_policies export_policies_v6].
    rewrite !alter_is_Some. apply (dk_export d Hd). }
  fold t. set (d1 := set_policies t d) in *. assert (S1 : synced_rib d -> synced_rib d1).
  { intros Hs f. by destruct f; [apply (Hs FamV4)|apply (Hs FamV6)]. }
  destruct (peer_types _ !! ip) as [pt|]; [|exists d1; done]. eexists. split; [reflexivity|].
  assert (Es : strip (sync_advertised ip (if capable FamV6 (reexport_family FamV4 ip pt d1) ip
      then reexport_family FamV6 ip pt (reexport_family FamV4 ip pt d1)
      else reexport_family FamV4 ip pt d1)) = strip d1).
  { rewrite strip_sync_advertised. destruct (capable _ _ _); by rewrite !strip_reexport. }
  apply strip_core in Es. split; [by eapply daemon_ok_core|]. intros Hs. eapply synced_core; [exact Es|auto].
Qed.

(** ** Origination and the kernel's table *)
Lemma safely_upd_core {A f} (π : A -> DaemonState) (g : Fam f -> Fam f) d r :
  fam_core (g (ds_fam d f)) = fam_core (ds_fam d f) -> safely π (upd_fam g d) r -> safely π d r.
Proof.
  intros E. apply safely_core. unfold core. destruct f; cbn [upd_fam set_fam ds_fam ds_v4 ds_v6 ds_peers] in *;
    by rewrite E.
Qed.
Lemma safely_originate_each {f} (rs : list (Route f)) : Forall (fun r => canonical (nlri r)) rs ->
  forall d, safely id d (originate_each rs d).
Proof.
  induction 1 as [|r rs Hr _ IH]; intros d; cbn [originate_each]; [by apply safely_done|].
  eapply (safely_bind id); [|intros d1; apply IH]. unfold originate_one.
  set (g := fun x : Fam f => _). apply (safely_upd_core id g); [done|].
  apply (safely_core id _ (send_event (EvAnnounced f LOCAL_ORIGIN_PEER (nlri r) r) (upd_fam g d))); [done|].
  eapply safely_bind; [by apply safely_rib_insert|]. intros [d1 c]. cbn [fst].
  destruct f; apply safely_done; [done|apply strip_fib_apply].
Qed.
Lemma safely_originate {f} (rs : list (Route f)) now d : Forall (fun r => canonical (nlri r)) rs ->
  safely id d (originate_routes rs now d).
Proof.
  intros H. unfold originate_routes. eapply (safely_bind id); [by apply safely_originate_each|].
  intros d1. apply safely_done. by autorewrite with strip.
Qed.
Lemma safely_withdraw_each {f} (ns : list (Nlri f)) : Forall canonical ns ->
  forall d, safely id d (withdraw_originated_each ns d).
Proof.
  induction 1 as [|n ns Hn _ IH]; intros d; cbn [withdraw_originated_each]; [by apply safely_done|].
  eapply (safely_bind id); [|intros d1; apply IH]. unfold withdraw_originated_one.
  set (g := fun x : Fam f => _). apply (safely_upd_core id g); [done|].
  eapply safely_bind; [by apply safely_rib_withdraw|]. intros [d1 c]. cbn [fst].
  apply safely_done. by autorewrite with strip.
Qed.
Lemma safely_withdraw_originated {f} (ns : list (Nlri f)) now d : Forall canonical ns ->
  safely id d (withdraw_originated_routes ns now d).
Proof.
  intros H. unfold withdraw_originated_routes. eapply (safely_bind id); [by apply safely_withdraw_each|].
  intros d1. apply safely_done. by autorewrite with strip.
Qed.

(** The recomputation makes the best routes those of the present oracle. *)
Lemma recompute_all_safe f d : daemon_ok d -> exists d' cs, rib_recompute_all f d = Ok (d', cs)
  /\ daemon_ok d' /\ all_up_to_date (oracle (ds_fam d' f)) (loc_rib (ds_fam d' f))
  /\ forall f', f' <> f -> ds_fam d' f' = ds_fam d f'.
Proof.
  intros Hd. destruct (recompute_all_spec (loc_rib (ds_fam d f)) (oracle (ds_fam d f)) (fo_rib _ (dk_fam d Hd f)))
    as (lr & cs & E & Hok & _ & Hu & _).
  unfold rib_recompute_all. rewrite E. cbn [mbind outcome_bind]. eexists _, cs. split; [reflexivity|].
  split_and!.
  - apply upd_fam_ok; [done| |done]. destruct (dk_fam d Hd f). by split.
  - rewrite ds_fam_upd. exact Hu.
  - intros f' Hne. by destruct f, f'.
Qed.
Lemma fib_change_strip now cs4 cs6 l4 l6 d :
  strip (let d := fib_apply (f:=FamV6) cs6 (fib_apply (f:=FamV4) cs4 d) in
         let d := if nonempty l4 then emit_route_events l4 (propagate_to_all_peers now l4 d) else d in
         if nonempty l6 then propagate_to_all_peers (f:=FamV6) now l6 d else d) = strip d.
Proof. destruct l4, l6; cbn [nonempty]; by autorewrite with strip. Qed.
Lemma on_fib_change_safe now d : daemon_ok d ->
  exists d', on_fib_change now d = Ok d' /\ daemon_ok d' /\ synced_rib d'.
Proof.
  intros Hd. destruct (recompute_all_safe FamV4 d Hd) as (d1 & cs4 & E1 & H1 & U1 & _).
  destruct (recompute_all_safe FamV6 d1 H1) as (d2 & cs6 & E2 & H2 & U2 & K2).
  unfold on_fib_change. rewrite E1. cbn [mbind outcome_bind]. rewrite E2. cbn [mbind outcome_bind].
  eexists. split; [reflexivity|].
  pose proof (strip_core _ _ (fib_change_strip now cs4 cs6 (changed_nlris cs4) (changed_nlris cs6) d2)) as Ec.
  split; [by eapply daemon_ok_core|]. eapply synced_core; [exact Ec|].
  intros []; [|exact U2]. rewrite (K2 FamV4) by done. exact U1.
Qed.
Lemma safely_fib_change now d : safely id d (on_fib_change now d).
Proof. intros Hd. destruct (on_fib_change_safe now d Hd) as (d' & E & H & S). by exists d'. Qed.
End Operations.

(** ** Peers and sessions *)
Section Peers.
Context `{P : IpPrefixOps} {M : RouteMapOps} {HO : HashOrder}.
Context {L : IpPrefixLaws} {ML : RouteMapLaws} {HL : HashOrderLaw}.

Lemma ari_new_ok {f} ip : ari_ok (ari_routes (f:=f) (ari_new ip)).
Proof. intros n r. cbn. by rewrite lookup_empty. Qed.
Lemma lookup_insert_cases {A} ip ip' (a b : A) (m : gmap IpAddr A) :
  <[ip := a]> m !! ip' = Some b -> (ip = ip' /\ a = b) \/ m !! ip' = Some b.
Proof. rewrite lookup_insert. destruct (decide _); [intros [= ->]; by left|by right]. Qed.
Lemma insert_Some {A} ip ip' (a : A) (m : gmap IpAddr A) :
  is_Some (<[ip := a]> m !! ip') -> ip = ip' \/ is_Some (m !! ip').
Proof. intros [b [[-> _]|H]%lookup_insert_cases]; [by left|right; by exists b]. Qed.

Lemma add_fam_ok {f} ip pt rr limit (x : Fam f) : fam_ok x -> fam_ok (add_fam ip pt rr limit x).
Proof. intros Hx. destruct (fam_set_in_ok ip (ari_new ip) x Hx (ari_new_ok ip)). by split. Qed.
Lemma add_peer_safe peer tx d : daemon_ok d ->
  daemon_ok (fst (add_peer peer tx d)) /\ (synced_rib d -> synced_rib (fst (add_peer peer tx d))).
Proof.
  intros Hd. unfold add_peer. destruct (adj_ribs_in (ds_v4 d) !! pc_address peer) eqn:Ea; [done|].
  destruct Hd as [Hf Hp Hk He]. split; [|intros Hs []; [apply (Hs FamV4)|apply (Hs FamV6)]].
  set (ip := pc_address peer) in *. cbn [fst]. split.
  - intros []; apply add_fam_ok; [apply (Hf FamV4)|apply (Hf FamV6)].
  - intros [] ip' pol [[_ <-]|H]%lookup_insert_cases; try apply nlri_terms_import;
      [by apply (Hp FamV4 ip')|by apply (Hp FamV6 ip')].
  - intros f ip' [<-|H]%insert_Some.
    + split; destruct f; eexists; apply lookup_insert_eq.
    + destruct (Hk f ip' H) as [H1 H2]. split; destruct f; by apply insert_is_Some.
  - intros ip' [<-|H]%insert_Some; [eexists; apply lookup_insert_eq|by apply insert_is_Some, He].
Qed.

Lemma remove_fam_ok f ip d : (forall f', fam_ok (ds_fam d f')) ->
  forall f', fam_ok (ds_fam (remove_fam f ip d) f').
Proof.
  intros H. apply (upd_fam_ind (@fam_ok _ _)); [|done]. destruct (H f) as [H1 H2 H3]. split; [done|..].
  - intros ip' t. cbn. rewrite lookup_delete. destruct (decide _); [done|apply H2].
  - intros ip' s. cbn. rewrite lookup_delete. destruct (decide _); [done|apply H3].
Qed.
Lemma delete_is_Some {A} ip ip' (m : gmap IpAddr A) :
  is_Some (delete ip m !! ip') <-> ip <> ip' /\ is_Some (m !! ip').
Proof. rewrite lookup_delete. destruct (decide _); [|tauto]. split; [by intros [? ?]|tauto]. Qed.
Lemma remove_peer_safe ip d : daemon_ok d ->
  daemon_ok (fst (remove_peer ip d)) /\ (synced_rib d -> synced_rib (fst (remove_peer ip d))).
Proof.
  intros Hd. unfold remove_peer. destruct (adj_ribs_in (ds_v4 d) !! ip) eqn:Ea; [|done].
  cbn [fst]. set (d1 := set_obs _ _). pose proof (core_recompute_deferral d1) as Ec.
  assert (H1 : daemon_ok d1 /\ (synced_rib d -> synced_rib d1)).
  { destruct Hd as [Hf Hp Hk He]. split; [|intros Hs []; [apply (Hs FamV4)|apply (Hs FamV6)]]. split.
    - exact (remove_fam_ok FamV6 ip _ (remove_fam_ok FamV4 ip d Hf)).
    - intros [] ip' pol H; [apply (Hp FamV4 ip')|apply (Hp FamV6 ip')];
        exact (proj2 (proj1 (lookup_delete_Some _ _ _ _) H)).
    - intros f ip' [Hne H]%delete_is_Some. destruct (Hk f ip' H) as [K1 K2].
      split; destruct f; by apply delete_is_Some.
    - intros ip' [Hne H]%delete_is_Some. apply delete_is_Some. split; [done|by apply He]. }
  destruct H1 as [H1 S1]. split; [by eapply daemon_ok_core|]. intros Hs. eapply synced_core; [exact Ec|auto].
Qed.

(** A step that cannot fail. *)
Definition advances (d d' : DaemonState) : Prop :=
  daemon_ok d -> daemon_ok d' /\ (synced_rib d -> synced_rib d').
Lemma advances_core d d' : core d' = core d -> advances d d'.
Proof. intros E Hd. split; [by eapply daemon_ok_core|by apply synced_core]. Qed.
#[global] Instance advances_preorder : PreOrder advances.
Proof.
  split; [by intros d Hd|]. intros d1 d2 d3 H1 H2 Hd. destruct (H1 Hd) as [Hd2 S1].
  destruct (H2 Hd2) as [Hd3 S2]. split; [done|auto].
Qed.
Lemma safely_advances {A} (π : A -> DaemonState) d d' r : advances d d' -> safely π d' r -> safely π d r.
Proof.
  intros H Hr Hd. destruct (H Hd) as [Hd' S]. destruct (Hr Hd') as (a & E & Ha & S'). exists a.
  split_and!; [done|done|auto].
Qed.
Lemma advances_safely {A} (π : A -> DaemonState) d a : advances d (π a) -> safely π d (Ok a).
Proof. intros H Hd. exists a. split; [done|by apply H]. Qed.
Lemma safely_advances_of {A} d d' (a : A) : safely (fun _ : A => d') d (Ok a) -> advances d d'.
Proof. intros H Hd. destruct (H Hd) as (a' & _ & Ha). exact Ha. Qed.

Lemma snapshot_advances f ip d : advances d (snapshot_stale f ip d).
Proof.
  unfold snapshot_stale. destruct (bool_decide _); [reflexivity|].
  apply (safely_advances_of _ _ tt). apply (safely_upd _ (fun x : Fam f => fam_set_stale
    (<[ip := match adj_ribs_in (ds_fam d f) !! ip with Some t => dom (ari_routes t) | None => ∅ end]>
      (stale_nlri x)) x)); try done; [|by apply advances_safely].
  intros [H1 H2 H3]. split; [done|done|]. intros ip' s. cbn [stale_nlri fam_set_stale].
  intros [[_ <-]|H]%lookup_insert_cases; [|by apply (H3 ip')].
  intros n Hn. destruct (adj_ribs_in (ds_fam d f) !! ip) as [t|] eqn:E; [|set_solver].
  apply elem_of_dom in Hn as [r Hr]. by apply (H2 ip t E n r).
Qed.
Lemma set_in_advances {f} ip (t : AdjRibIn f) d : ari_ok (ari_routes t) ->
  advances d (upd_fam (fun x : Fam f => fam_set_in (<[ip := t]> (adj_ribs_in x)) x) d).
Proof.
  intros Ht. apply (safely_advances_of _ _ tt), (safely_set_in _ ip t); [done|]. by apply advances_safely.
Qed.
Lemma core_remove_eor f ip d : core (remove_eor f ip d) = core d.
Proof. by destruct f. Qed.
Lemma core_dump f ip d : core (fst (dump_family f ip d)) = core d.
Proof. apply strip_core, strip_dump_family. Qed.
Lemma core_set_gr_capability ip caps d : core (set_gr_capability_of ip caps d) = core d.
Proof.
  unfold set_gr_capability_of. destruct (extract_gr_capability caps) as [[[[adv [t|]] fs] n] r]; done.
Qed.
Lemma established_advances ip info now d : advances d (on_established ip info now d).
Proof.
  unfold on_established. set (d1 := set_deadlines _ d). transitivity d1; [by apply advances_core|].
  set (gr4 := _ && has_family IPV4_UNICAST _). set (gr6 := _ && has_family IPV6_UNICAST _).
  set (d2 := if gr4 then _ else d1). transitivity d2; [unfold d2; destruct gr4; [apply snapshot_advances|done]|].
  set (d3 := if gr6 then _ else d2). transitivity d3; [unfold d3; destruct gr6; [apply snapshot_advances|done]|].
  set (d4 := reset_aro FamV4 ip _ _). transitivity d4.
  { apply advances_core. unfold d4. rewrite (strip_core _ _ (strip_reset_aro _ _ _ _)).
    unfold enter_session. by destruct (si_local_addr info). }
  set (d5 := if gr6 then d4 else _).
  transitivity d5; [unfold d5; destruct gr6; [done|apply set_in_advances, ari_new_ok]|].
  set (d6 := set_aro _ _ d5). transitivity d6; [apply advances_core; by apply strip_core, strip_set_aro|].
  destruct (export_policies _ !! ip); [|reflexivity]. destruct (adj_ribs_out _ !! ip); [|reflexivity].
  destruct (update_senders _ !! ip); [|reflexivity]. apply advances_core.
  rewrite core_recompute_deferral, core_set_gr_capability.
  destruct (v6_deferred _), (v4_deferred _); rewrite ?core_dump; done.
Qed.

Lemma leave_advances ip d : advances d (leave_session ip d).
Proof. by apply advances_core. Qed.
Lemma flush_uncovered_advances f ip d : advances d (flush_uncovered f ip d).
Proof.
  unfold flush_uncovered. transitivity (withdraw_peer_blackhole_kernel_routes f ip d);
    [apply advances_core, strip_core, strip_blackhole|].
  apply (safely_advances_of _ _ tt), (safely_clear_in _ f ip). by apply advances_safely.
Qed.
Lemma safely_terminated ip reason now d : safely id d (on_terminated ip reason now d).
Proof.
  unfold on_terminated. apply (safely_advances id d (leave_session ip d)); [apply leave_advances|].
  destruct (enter_gr ip reason d).
  - unfold terminate_gr. set (d1 := leave_session ip d). clearbody d1.
    set (gr4 := has_family IPV4_UNICAST _). set (gr6 := has_family IPV6_UNICAST _).
    set (d2 := if gr4 then d1 else _). apply (safely_advances id d1 d2);
      [unfold d2; destruct gr4; [done|apply flush_uncovered_advances]|].
    set (d3 := if gr6 then d2 else _). apply (safely_advances id d2 d3);
      [unfold d3; destruct gr6; [done|apply flush_uncovered_advances]|].
    eapply (safely_core id); [|apply safely_mark_stale_and_repropagate]. done.
  - unfold terminate_clean. set (d1 := leave_session ip d). clearbody d1.
    apply (safely_core id d1 (withdraw_peer_blackhole_kernel_routes FamV6 ip
                         (withdraw_peer_blackhole_kernel_routes FamV4 ip d1)));
      [apply strip_core; by autorewrite with strip|].
    apply (safely_clear_in id FamV4 ip), (safely_clear_in id FamV6 ip).
    eapply safely_bind; [apply safely_rib_withdraw_peer|]. intros [d2 cs]. cbn [fst].
    eapply safely_bind; [apply safely_rib_withdraw_peer|]. intros [d3 cs6]. cbn [fst].
    apply safely_done. by autorewrite with strip.
Qed.
End Peers.

(** ** The event loop *)
Section Loop.
Context `{P : IpPrefixOps} {M : RouteMapOps} {HO : HashOrder}.

(** Sessions deliver decoded messages. *)
Definition event_ok (e : IpAddr * SessionEvent) : Prop :=
  match e.2 with SeRouteUpdate msg => msg_ok msg | _ => True end.

(** The tasks of the daemon, which take turns on its state: the event loop, the
    sessions, the kernel, the management interface, the RPKI client. *)
Inductive DaemonOp :=
| OpLoop (a : Arm)
| OpEvent (ip : IpAddr) (e : SessionEvent)
| OpKernelTable (oracle_v4 oracle_v6 : NextHopOracle)
| OpInstallRpki (rtr : RoaTable)
| OpReevaluate (now : IpAddr -> Instant)
| OpAddPeer (sc : SpawnConfig) (now : Instant) (peer : PeerConfig) (sender : Sender)
| OpRemovePeer (ip : IpAddr)
| OpOriginate (f : Family) (routes : list (Route f)) (now : IpAddr -> Instant)
| OpWithdraw (f : Family) (nlris : list (Nlri f)) (now : IpAddr -> Instant)
| OpImportDefault (ip : IpAddr) (a : DefaultAction) (now : IpAddr -> Instant)
| OpExportDefault (ip : IpAddr) (a : DefaultAction).
Definition set_daemon (l : EventLoop) (d : DaemonState) : EventLoop :=
  mkEventLoop d (el_queue l) (el_stops l).
Definition daemon_op (l : EventLoop) (op : DaemonOp) : Outcome False (EventLoop * Output) :=
  let on_state (r : Outcome False DaemonState) : Outcome False (EventLoop * Output) :=
    d ← r; Ok (set_daemon l d, []) in
  match op with
  | OpLoop a => loop_step l a
  | OpEvent ip e => Ok (mkEventLoop (el_daemon l) (el_queue l ++ [(ip, e)]) (el_stops l), [])
  | OpKernelTable o4 o6 => Ok (set_daemon l (set_oracles o4 o6 (el_daemon l)), [])
  | OpInstallRpki rtr => Ok (set_daemon l (install_rpki rtr (el_daemon l)), [])
  | OpReevaluate now => on_state (reevaluate_all_import_policies now (el_daemon l))
  | OpAddPeer sc now peer tx => Ok (fst (add_peer_command sc now peer tx l), [])
  | OpRemovePeer ip => Ok (remove_peer_command ip l)
  | OpOriginate f rs now => on_state (originate_routes rs now (el_daemon l))
  | OpWithdraw f ns now => on_state (withdraw_originated_routes ns now (el_daemon l))
  | OpImportDefault ip a now => on_state (set_import_default ip a now (el_daemon l))
  | OpExportDefault ip a => on_state (set_export_default ip a (el_daemon l))
  end.
Fixpoint daemon_run (l : EventLoop) (ops : list DaemonOp) : Outcome False (EventLoop * Output) :=
  match ops with
  | [] => Ok (l, [])
  | op :: ops =>
      '(l, out) ← daemon_op l op; '(l, out') ← daemon_run l ops; Ok (l, out ++ out')
  end.
(** Prefixes are in canonical form, as the decoder makes them. *)
Definition daemon_op_ok (op : DaemonOp) : Prop :=
  match op with
  | OpEvent ip e => event_ok (ip, e)
  | OpOriginate _ rs _ => Forall (fun r => canonical (nlri r)) rs
  | OpWithdraw _ ns _ => Forall canonical ns
  | _ => True
  end.
(** Whether the loop has been told of the last change of the kernel's table. *)
Definition kernel_seen (s : Prop) (op : DaemonOp) : Prop :=
  match op with
  | OpKernelTable _ _ => False
  | OpLoop (ArmFibChanged _) => True
  | _ => s
  end.

Definition loop_ok (l : EventLoop) : Prop := daemon_ok (el_daemon l) /\ Forall event_ok (el_queue l).

Context {L : IpPrefixLaws} {ML : RouteMapLaws} {HL : HashOrderLaw}.

Lemma terminated_safe ip reason now stops d :
  safely (fun x => x.1.1) d (terminated ip reason now stops d).
Proof.
  unfold terminated. destruct (bool_decide _).
  - apply (safely_core _ d (unmark_removal ip d)); [done|].
    eapply (safely_bind id); [apply safely_terminated|]. intros d1. apply advances_safely.
    intros Hd. by apply remove_peer_safe.
  - apply (safely_core _ d (unmark_removal ip d)); [done|].
    eapply (safely_bind id); [apply safely_terminated|]. intros d1. by apply safely_ret.
Qed.
Lemma drain_safe ck q : Forall event_ok q -> forall i idle stops d,
  safely (fun x => x.1.1.1.1) d (drain ck i q idle stops d).
Proof.
  induction 1 as [|[ip [info|reason|msg]] q Hm _ IH]; intros i idle stops d; cbn [drain].
  - by apply safely_ret.
  - destruct (idle_held ip d); [apply IH|].
    eapply safely_advances; [apply established_advances|apply IH].
  - eapply safely_bind; [apply terminated_safe|]. intros [[d1 stops1] b]. cbn [fst snd]. apply IH.
  - eapply safely_bind; [by apply safely_route_update|]. intros [d1 [err|]]; cbn [fst]; [by apply safely_ret|].
    apply IH.
Qed.
Lemma drain_queue ck q : forall i idle stops d d' stops' idle' err q',
  drain ck i q idle stops d = Ok (d', stops', idle', err, q') -> exists pre, q = pre ++ q'.
Proof.
  induction q as [|[ip [info|reason|msg]] q IH]; intros i idle stops d d' stops' idle' err q'; cbn [drain].
  - intros [= _ _ _ _ <-]. by exists [].
  - destruct (idle_held ip d); intros [pre ->]%IH; by exists ((ip, SeEstablished info) :: pre).
  - destruct (terminated _ _ _ _ _) as [[[d1 s1] b]| | |]; [|done..]. cbn [mbind outcome_bind].
    intros [pre ->]%IH. by exists ((ip, SeTerminated reason) :: pre).
  - destruct (on_route_update _ _ _ _) as [[d1 [e|]]| | |]; [..|done|done|done]; cbn [mbind outcome_bind].
    + intros [= _ _ _ _ <-]. by exists [(ip, SeRouteUpdate msg)].
    + intros [pre ->]%IH. by exists ((ip, SeRouteUpdate msg) :: pre).
Qed.

Lemma core_flush_and_take d : core (fst (flush_and_take d)) = core d.
Proof. exact (strip_core _ _ (strip_flush_pending d)). Qed.
Lemma core_notify ip err stops q d : core (el_daemon (fst (notify ip err stops q d))) = core d.
Proof.
  unfold notify. pose proof (core_flush_and_take d) as E. by destruct (flush_and_take d) as [d' stalled].
Qed.

(** A step of the loop keeps the state good, and what is left of the queue. *)
Definition loop_safely (l : EventLoop) (d : DaemonState) (r : Outcome False (EventLoop * Output)) : Prop :=
  safely (fun x => el_daemon x.1) d r
  /\ forall l' out, r = Ok (l', out) -> exists pre, el_queue l = pre ++ el_queue l'.
Lemma loop_safely_same l d d' stops out : advances d d' ->
  loop_safely l d (Ok (mkEventLoop d' (el_queue l) stops, out)).
Proof. intros H. split; [by apply advances_safely|]. intros l' out' [= <- _]. by exists []. Qed.
Lemma loop_safely_bind {A} (π : A -> DaemonState) l d r k : safely π d r ->
  (forall a, loop_safely l (π a) (k a)) -> loop_safely l d (a ← r; k a).
Proof.
  intros Hr Hk. split.
  - eapply safely_bind; [exact Hr|]. intros a. apply Hk.
  - intros l' out. destruct r as [a| | |]; [|done..]. apply Hk.
Qed.
Lemma loop_safely_flush l d stops out : loop_safely l d (Ok (
  let '(d, stalled) := flush_and_take d in (mkEventLoop d (el_queue l) stops, out ++ stop_all stops stalled))).
Proof.
  pose proof (core_flush_and_take d) as E. destruct (flush_and_take d) as [d' stalled].
  apply loop_safely_same. by apply advances_core.
Qed.
Lemma finish_safe ck e q stops l d : el_queue l = e :: q -> Forall event_ok q ->
  loop_safely l d (finish ck q stops d).
Proof.
  intros El Hq. unfold finish. split.
  - eapply safely_bind; [by apply drain_safe|]. intros [[[[d1 stops1] idle] [[ip err]|]] q']; cbn [fst].
    + apply safely_ret, core_notify.
    + pose proof (core_flush_and_take d1) as E. destruct (flush_and_take d1) as [d2 stalled].
      by apply safely_ret.
  - intros l' out. destruct (drain ck 1 q [] stops d) as [[[[[d1 stops1] idle] err] q']| | |] eqn:E; [|done..].
    apply drain_queue in E as [pre ->]. cbn [mbind outcome_bind]. rewrite El.
    assert (H : forall d2 s2, el_queue (mkEventLoop d2 q' s2) = q') by done.
    destruct err as [[ip err]|].
    + unfold notify. destruct (flush_and_take d1). intros [= <- _]. by exists (e :: pre).
    + destruct (flush_and_take d1). intros [= <- _]. by exists (e :: pre).
Qed.

Lemma loop_safely_popped l d d' e q stops out : el_queue l = e :: q -> core d' = core d ->
  loop_safely l d (Ok (mkEventLoop d' q stops, out)).
Proof.
  intros El E. split; [by apply safely_ret|]. intros l' out' [= <- _]. exists [e]. by rewrite El.
Qed.
Lemma loop_safely_notify l d ip err stops e q : el_queue l = e :: q ->
  loop_safely l d (Ok (notify ip err stops q d)).
Proof.
  intros El. unfold notify. pose proof (core_flush_and_take d) as E. destruct (flush_and_take d) as [d' stalled].
  by eapply loop_safely_popped.
Qed.
Lemma event_arm_safe ck l : Forall event_ok (el_queue l) -> loop_safely l (el_daemon l) (event_arm ck l).
Proof.
  intros Hq. unfold event_arm. destruct (el_queue l) as [|[ip [info|reason|msg]] q] eqn:El.
  - split; [by apply safely_ret|]. intros l' out [= <- _]. by exists [].
  - apply Forall_cons in Hq as [_ Hq]. try (case_match; [by eapply loop_safely_popped|]).
    split; [|by eapply finish_safe].
    eapply safely_advances; [apply established_advances|]. by eapply finish_safe.
  - eapply loop_safely_bind; [apply terminated_safe|]. intros [[d1 stops1] removed]. cbn [fst].
    by eapply loop_safely_popped.
  - apply Forall_cons in Hq as [Hm Hq]. eapply loop_safely_bind; [by apply safely_route_update|].
    intros [d1 [err|]]; cbn [fst]; [by eapply loop_safely_notify|by eapply finish_safe].
Qed.
Lemma expire_all_safe ips : forall d, safely id d (expire_all ips d).
Proof.
  induction ips as [|ip ips IH]; intros d; cbn [expire_all]; [by apply safely_done|].
  eapply (safely_bind id); [apply safely_gr_deadline|]. intros d1. apply IH.
Qed.
Lemma loop_step_safe l a : loop_ok l -> loop_safely l (el_daemon l) (loop_step l a).
Proof.
  intros [Hd Hq]. destruct a as [ck|ck|now| |now|now later]; cbn [loop_step].
  - by apply event_arm_safe.
  - eapply (loop_safely_bind id); [apply safely_fib_change|]. intros d1. apply (loop_safely_flush l d1 _ []).
  - destruct (drain_expired now (ds_gr (el_daemon l))) as [g expired].
    eapply (loop_safely_bind id); [eapply (safely_core id); [|apply expire_all_safe]; done|].
    intros d1. destruct expired; by apply loop_safely_same, advances_core.
  - pose proof (loop_safely_flush l (force_release_selection_deferral (el_daemon l)) (el_stops l) []) as [H1 H2].
    split; [|exact H2]. eapply safely_core; [apply core_force_release|exact H1].
  - by apply loop_safely_same, advances_core.
  - set (d1 := flush_pending (el_daemon l)). assert (E1 : core d1 = core (el_daemon l))
      by apply strip_core, strip_flush_pending.
    destruct (has_mrai_pending d1); [|by apply loop_safely_same, advances_core].
    pose proof (loop_safely_flush l (flush_mrai_pending now later d1) (el_stops l) []) as [H1 H2].
    split; [|exact H2]. eapply safely_core; [|exact H1].
    by rewrite (strip_core _ _ (strip_flush_mrai now later d1)).
Qed.
(** The arm of the kernel's table brings the best routes up to date. *)
Lemma fib_arm_synced l ck l' out : daemon_ok (el_daemon l) -> loop_step l (ArmFibChanged ck) = Ok (l', out) ->
  synced_rib (el_daemon l').
Proof.
  intros Hd. cbn [loop_step]. destruct (on_fib_change_safe (ck_peer ck) (el_daemon l) Hd) as (d1 & E & H1 & S1).
  rewrite E. cbn [mbind outcome_bind]. pose proof (core_flush_and_take d1) as Ec.
  destruct (flush_and_take d1) as [d2 stalled]. intros [= <- _]. by eapply synced_core.
Qed.

(** ** Every operation of the daemon *)
Lemma install_rpki_advances rtr d : advances d (install_rpki rtr d).
Proof.
  intros Hd. unfold install_rpki. destruct (set_policies_ok
    (install_rpki_import_terms (policies (ds_peers d)) rtr (local_as (ds_local d))) d Hd) as [H _].
  - intros [] ip pol; cbn [import_policy install_rpki_import_terms import_policies import_policies_v6];
      rewrite lookup_fmap_Some; intros (p0 & <- & Hp0); (apply nlri_terms_add; [|done]);
      [exact (dk_policy d Hd FamV4 ip p0 Hp0)|exact (dk_policy d Hd FamV6 ip p0 Hp0)].
  - intros [] ip; cbn; by rewrite lookup_fmap, fmap_is_Some.
  - exact (dk_export d Hd).
  - split; [done|]. intros Hs f. by destruct f; [apply (Hs FamV4)|apply (Hs FamV6)].
Qed.
Lemma kernel_table_ok o4 o6 d : daemon_ok d -> daemon_ok (set_oracles o4 o6 d).
Proof.
  intros [Hf Hp Hk He]. split; [|exact Hp| |exact He].
  - intros []; [destruct (Hf FamV4)|destruct (Hf FamV6)]; by split.
  - intros [] ip H; [exact (Hk FamV4 ip H)|exact (Hk FamV6 ip H)].
Qed.

(** What a step promises: it succeeds, keeps the state good, and with the loop
    told of the kernel's table keeps the best routes right. *)
Lemma on_state_safe l r : safely id (el_daemon l) r -> Forall event_ok (el_queue l) ->
  daemon_ok (el_daemon l) -> exists l' out, (d ← r; Ok (set_daemon l d, [] : Output)) = Ok (l', out)
    /\ loop_ok l' /\ (synced_rib (el_daemon l) -> synced_rib (el_daemon l')).
Proof.
  intros Hr Hq Hd. destruct (Hr Hd) as (d1 & -> & H1 & S1). by exists (set_daemon l d1), [].
Qed.
Lemma daemon_op_safe l op : loop_ok l -> daemon_op_ok op -> exists l' out, daemon_op l op = Ok (l', out)
  /\ loop_ok l' /\ forall s : Prop, (s -> synced_rib (el_daemon l)) -> kernel_seen s op -> synced_rib (el_daemon l').
Proof.
  intros Hl Hop.
  assert (Hstate : forall r, safely id (el_daemon l) r ->
    exists l' out, (d ← r; Ok (set_daemon l d, [] : Output)) = Ok (l', out)
    /\ loop_ok l' /\ forall s : Prop, (s -> synced_rib (el_daemon l)) -> s -> synced_rib (el_daemon l')).
  { intros r Hr. destruct (on_state_safe l r Hr (proj2 Hl) (proj1 Hl)) as (l' & out & E & H1 & S1).
    exists l', out. split_and!; [done|done|auto]. }
  destruct op as [a|ip e|o4 o6|rtr|now|sc now peer tx|ip|f rs now|f ns now|ip a now|ip a];
    cbn [daemon_op kernel_seen].
  - destruct (loop_step_safe l a Hl) as [H1 H2]. destruct (H1 (proj1 Hl)) as ([l' out] & E & Hd & S).
    exists l', out. destruct (H2 l' out E) as [pre Eq]. split_and!; [done| |].
    + split; [exact Hd|]. destruct Hl as [_ Hq]. rewrite Eq in Hq. by apply Forall_app in Hq as [_ Hq].
    + intros s Hs Hk. cbn [fst] in *. destruct a; try (by apply S, Hs).
      by eapply fib_arm_synced; [apply Hl|].
  - eexists _, _. split; [reflexivity|]. split; [|intros s Hs Hk; by apply Hs]. destruct Hl as [Hd Hq].
    split; [done|]. apply Forall_app_2; [done|]. by repeat constructor.
  - eexists _, _. split; [reflexivity|]. split; [|done]. split; [|apply Hl]. by apply kernel_table_ok, Hl.
  - eexists _, _. split; [reflexivity|]. destruct (install_rpki_advances rtr (el_daemon l) (proj1 Hl)) as [H1 S1].
    split; [split; [done|apply Hl]|]. auto.
  - apply Hstate, safely_reevaluate_all.
  - eexists _, _. split; [reflexivity|]. unfold add_peer_command.
    destruct (adj_ribs_in _ !! _); [by split; [|intros s Hs Hk; apply Hs]|]. cbn [fst el_daemon el_queue].
    destruct (add_peer_safe peer tx (el_daemon l) (proj1 Hl)) as [H1 S1]. split; [split; [done|apply Hl]|auto].
  - unfold remove_peer_command. destruct (adj_ribs_in _ !! _) eqn:E.
    + assert (H : forall q stops, Forall event_ok q ->
        loop_ok (mkEventLoop (mark_removal ip (el_daemon l)) q stops)
        /\ forall s : Prop, (s -> synced_rib (el_daemon l)) -> s ->
             synced_rib (mark_removal ip (el_daemon l))).
      { intros q stops Hq. destruct (advances_core (el_daemon l) (mark_removal ip (el_daemon l)) eq_refl (proj1 Hl)) as [H1 S1].
        split; [by split|auto]. }
      destruct (bool_decide _); eexists _, _; (split; [reflexivity|]); apply H; [apply Hl|].
      apply Forall_app_2; [apply Hl|]. by repeat constructor.
    + eexists _, _. split; [reflexivity|]. split; [done|]. intros s Hs Hk. by apply Hs.
  - apply Hstate. by apply safely_originate.
  - apply Hstate. by apply safely_withdraw_originated.
  - apply Hstate, safely_set_import_default.
  - apply Hstate, safely_set_export_default.
Qed.
Lemma daemon_run_safe ops : forall l (s : Prop), loop_ok l -> (s -> synced_rib (el_daemon l)) ->
  Forall daemon_op_ok ops ->
  exists l' out, daemon_run l ops = Ok (l', out) /\ loop_ok l'
    /\ (foldl kernel_seen s ops -> synced_rib (el_daemon l')).
Proof.
  induction ops as [|op ops IH]; intros l s Hl Hs Hops; cbn [daemon_run]; [by exists l, []|].
  apply Forall_cons in Hops as [Hop Hops].
  destruct (daemon_op_safe l op Hl Hop) as (l1 & out1 & E1 & H1 & S1). rewrite E1. cbn [mbind outcome_bind].
  destruct (IH l1 (kernel_seen s op) H1) as (l2 & out2 & E2 & H2 & S2); [by apply S1|done|].
  rewrite E2. by exists l2, (out1 ++ out2).
Qed.

(** ** Start-up *)
Lemma collect_Some {A} (g : PeerConfig -> A) peers ip a : collect g peers !! ip = Some a ->
  exists p, pc_address p = ip /\ g p = a.
Proof.
  unfold collect. induction peers as [|p peers IH] using rev_ind; [cbn [foldl]; by rewrite lookup_empty|].
  rewrite foldl_app. cbn [foldl]. intros [[<- <-]|H]%lookup_insert_cases; [by exists p|auto].
Qed.
Lemma collect_is_Some {A B} (g : PeerConfig -> A) (h : PeerConfig -> B) peers ip :
  is_Some (collect g peers !! ip) -> is_Some (collect h peers !! ip).
Proof.
  unfold collect. induction peers as [|p peers IH] using rev_ind;
    [cbn [foldl]; rewrite lookup_empty; by intros [? ?]|].
  rewrite !foldl_app. cbn [foldl]. intros [<-|H]%insert_Some; [eexists; apply lookup_insert_eq|by apply insert_is_Some, IH].
Qed.
Lemma fam_new_ok f las cid rr limit peers : fam_ok (fam_new f las cid rr limit peers).
Proof.
  split.
  - apply loc_rib_new_ok.
  - intros ip t H. apply collect_Some in H as (p & _ & <-). apply ari_new_ok.
  - intros ip s. cbn. by rewrite lookup_empty.
Qed.
Lemma daemon_new_ok las id ip6 cl cid peers tx caps :
  daemon_ok (daemon_new las id ip6 cl cid peers tx caps)
  /\ synced_rib (daemon_new las id ip6 cl cid peers tx caps).
Proof.
  split; [|intros []; apply loc_rib_new_up_to_date]. split.
  - intros []; apply fam_new_ok.
  - intros [] ip pol H; apply collect_Some in H as (p & _ & <-); apply nlri_terms_import.
  - intros f ip H. split; destruct f; eapply collect_is_Some; exact H.
  - intros ip H. eapply collect_is_Some; exact H.
Qed.
Lemma connect_kernel_ok o4 o6 w t cfg d : daemon_ok d -> daemon_ok (connect_kernel o4 o6 w t cfg d).
Proof.
  intros Hd. eapply daemon_ok_core; [|exact (kernel_table_ok o4 o6 d Hd)].
  unfold connect_kernel. by destruct w.
Qed.
End Loop.
