(* ===== verification/DaemonTheorems.v ===== *)
(** What the daemon guarantees as a whole: its tasks, whatever their order, never
    panic and keep its invariant. *)
From Stdlib Require Import ZArith Lia Bool.
From stdpp Require Import base tactics numbers decidable gmap list.
From S2P Require Import Prelude Addr Types AsPath Wire Header Notification Open Update Fsm Session RouteMap Roa Policy Route DaemonPolicy BestPath LocRib RibTheorems AdjRib Outbound HandleUpdate ImportTheorems Deferral Capabilities DaemonState Propagate Graceful PeerLifecycle RouteUpdate EventLoop DaemonFacts DaemonInvariant.
Open Scope Z_scope.

Section Runs.
Context `{P : IpPrefixOps} {M : RouteMapOps} {HO : HashOrder}.

(** The daemon as [main] starts it. *)
Definition started (cfg : DaemonConfig) (startup now daemon_start : Instant) (sender : IpAddr -> Sender)
    (o4 o6 : NextHopOracle) (fib_writer : bool) : EventLoop :=
  let l := fst (build_daemon cfg startup now sender) in
  set_daemon l (connect_kernel o4 o6 fib_writer daemon_start cfg (el_daemon l)).

Context {L : IpPrefixLaws} {ML : RouteMapLaws} {HL : HashOrderLaw}.

Lemma connect_kernel_synced o4 o6 w t cfg las id ip6 cl cid peers tx caps :
  synced_rib (connect_kernel o4 o6 w t cfg (daemon_new las id ip6 cl cid peers tx caps)).
Proof. intros f. destruct w, f; apply loc_rib_new_up_to_date. Qed.

Lemma started_ok cfg startup now t sender o4 o6 w :
  loop_ok (started cfg startup now t sender o4 o6 w)
  /\ synced_rib (el_daemon (started cfg startup now t sender o4 o6 w)).
Proof.
  split; [split|].
  - apply connect_kernel_ok, daemon_new_ok.
  - constructor.
  - apply connect_kernel_synced.
Qed.

(** C1: from start-up, whatever the configuration, and in whatever order the tasks
    of the daemon take turns (session events with any decoded UPDATE, the arms of
    the event loop, changes of the kernel's table, RPKI installation, peers added
    and removed, originations, policy changes), no step panics, every table keeps
    its invariant, and as soon as the loop has seen the last change of the kernel's
    table the best route of every prefix is one the decision process selects. The
    condition [daemon_op_ok] is that UPDATEs are as the decoder makes them and that
    originated and withdrawn prefixes have no host bits; the management interface
    does not see to the latter, and with host bits the best route of a prefix may be
    lost ([RibTheorems.loc_rib_host_bits]). *)
Theorem daemon_never_panics cfg startup now t sender o4 o6 w ops : Forall daemon_op_ok ops ->
  exists l out, daemon_run (started cfg startup now t sender o4 o6 w) ops = Ok (l, out)
    /\ daemon_ok (el_daemon l)
    /\ (foldl kernel_seen True ops -> synced_rib (el_daemon l)).
Proof.
  intros Hops. destruct (started_ok cfg startup now t sender o4 o6 w) as [Hl Hs].
  destruct (daemon_run_safe ops _ True Hl (fun _ => Hs) Hops) as (l & out & E & [Hd _] & S).
  by exists l, out.
Qed.

(** A peer that is removed while its session is not yet past the OPENs is
    never removed.  The command relies on the session to report that it has ended,
    which a session in these states does not do when it is stopped, so the peer
    keeps its tables and its mark, and cannot be added again. *)
Theorem remove_idle_peer_stuck fsm l ip peer sc now tx :
  fsm_state fsm ∈ [Idle; Connect; Active; OpenSent] -> ip ∈ el_stops l ->
  is_Some (adj_ribs_in (ds_v4 (el_daemon l)) !! ip) -> pc_address peer = ip ->
  (forall n, SessionTerminated ∉ snd (process fsm ManualStop)
     /\ SessionTerminated ∉ snd (process fsm (NotificationToSend n)))
  /\ let '(l', out) := remove_peer_command ip l in
     el_queue l' = el_queue l /\ ip ∈ pending_removal (ds_peers (el_daemon l'))
     /\ adj_ribs_in (ds_v4 (el_daemon l')) = adj_ribs_in (ds_v4 (el_daemon l))
     /\ add_peer_command sc now peer tx l' = (l', None).
Proof.
  intros Hs Hi [t Ht] Hp. split.
  - intros n. unfold process. destruct (fsm_state fsm) eqn:E; try (exfalso; set_solver);
      split; cbn; set_solver.
  - unfold remove_peer_command. rewrite Ht, bool_decide_true by done. cbn [el_queue el_daemon].
    split; [done|]. split; [cbn; set_solver|]. split; [done|].
    unfold add_peer_command. cbn [el_daemon]. rewrite Hp.
    change (adj_ribs_in (ds_v4 (mark_removal ip (el_daemon l)))) with (adj_ribs_in (ds_v4 (el_daemon l))).
    by rewrite Ht.
Qed.
End Runs.

(** ** A daemon with one external peer *)
Section Applied.
#[local] Existing Instances ModelPrefix.ops ModelPrefix.laws ModelRouteMap.ops ModelRouteMap.laws.
#[local] Existing Instances ModelHashOrder.order ModelHashOrder.order_law.

Definition one_ip : IpAddr := IpV4 3232235777.
Definition one_peer : PeerConfig :=
  mkPeerConfig one_ip 65010 (Some DefAccept) (Some DefAccept) (Some DefAccept) false false false None None
    None None None None 179 None None.
Definition one_cfg : DaemonConfig :=
  mkDaemonConfig 65001 1 None None None 90 120 false 0 [one_peer].
Definition one_info : SessionInfo :=
  mkSessionInfo 65010 7 90 [CapFourByteAsn 65010; CapGracefulRestart 0 120 [mkGrFamily IPV4_UNICAST false]]
    External (Some (IpV4 3232235778)).
Definition one_clocks : Clocks := fun _ => mkClock (fun _ _ => 0) 0 (fun _ => 0).

(** The state after a history. *)
Definition scenario (cfg : DaemonConfig) (ops : list DaemonOp) : DaemonState :=
  let l := started cfg 0 0 0 (fun _ => mkSender 8 []) AlwaysReachable AlwaysReachable true in
  match daemon_run l ops with Ok (l, _) => el_daemon l | _ => el_daemon l end.
#[global] Strategy 1000 [scenario].
Lemma scenario_ok cfg ops : Forall daemon_op_ok ops -> daemon_ok (scenario cfg ops).
Proof.
  intros Hops. unfold scenario. set (l0 := started _ _ _ _ _ _ _ _).
  assert (Hl : loop_ok l0) by apply started_ok.
  destruct (daemon_run_safe ops l0 False Hl (False_ind _) Hops) as (l & out & -> & [Hd _] & _). exact Hd.
Qed.
Lemma scenario_synced cfg ops : Forall daemon_op_ok ops -> foldl kernel_seen True ops -> synced_rib (scenario cfg ops).
Proof.
  intros Hops Hk. unfold scenario. set (l0 := started _ _ _ _ _ _ _ _).
  destruct (started_ok cfg 0 0 0 (fun _ => mkSender 8 []) AlwaysReachable AlwaysReachable true) as [Hl Hs].
  destruct (daemon_run_safe ops l0 True Hl (fun _ => Hs) Hops) as (l & out & -> & _ & S). by apply S.
Qed.
Definition from_peer (ip : IpAddr) (e : SessionEvent) : list DaemonOp :=
  [OpEvent ip e; OpLoop (ArmEvent one_clocks)].
Lemma from_peer_ok ip e ops : event_ok (ip, e) -> Forall daemon_op_ok ops -> Forall daemon_op_ok (from_peer ip e ++ ops).
Proof. intros He H. by repeat constructor. Qed.

Lemma daemon_never_panics_witness : exists l out,
  daemon_run (started one_cfg 0 0 0 (fun _ => mkSender 8 []) AlwaysReachable AlwaysReachable true)
    [OpEvent one_ip (SeEstablished one_info); OpEvent one_ip (SeRouteUpdate (imp_msg imp_attrs));
     OpLoop (ArmEvent one_clocks); OpKernelTable AlwaysReachable AlwaysReachable;
     OpLoop (ArmFibChanged (mkClock (fun _ _ => 0) 0 (fun _ => 0))); OpRemovePeer one_ip] = Ok (l, out)
  /\ synced_rib (el_daemon l).
Proof.
  destruct (daemon_never_panics one_cfg 0 0 0 (fun _ => mkSender 8 []) AlwaysReachable AlwaysReachable true
    [OpEvent one_ip (SeEstablished one_info); OpEvent one_ip (SeRouteUpdate (imp_msg imp_attrs));
     OpLoop (ArmEvent one_clocks); OpKernelTable AlwaysReachable AlwaysReachable;
     OpLoop (ArmFibChanged (mkClock (fun _ _ => 0) 0 (fun _ => 0))); OpRemovePeer one_ip])
    as (l & out & E & _ & S).
  - repeat (apply Forall_cons_2; [first [exact I|exact imp_full_ok]|]). apply Forall_nil_2.
  - exists l, out. exact (conj E (S I)).
Defined.

Lemma remove_idle_peer_stuck_witness :
  SessionTerminated ∉ snd (process (fsm_new sample_cfg) ManualStop)
  /\ el_queue (fst (remove_peer_command one_ip
       (started one_cfg 0 0 0 (fun _ => mkSender 8 []) AlwaysReachable AlwaysReachable true))) = [].
Proof.
  destruct (remove_idle_peer_stuck (fsm_new sample_cfg)
    (started one_cfg 0 0 0 (fun _ => mkSender 8 []) AlwaysReachable AlwaysReachable true) one_ip one_peer
    (spawn_config one_cfg 0) 0 (mkSender 8 [])) as [H1 H2].
  - apply elem_of_cons. left. reflexivity.
  - apply elem_of_list_to_set. apply elem_of_cons. left. reflexivity.
  - apply (bool_decide_unpack (is_Some _)). vm_compute. exact I.
  - reflexivity.
  - split; [exact (proj1 (H1 max_prefix_notification))|].
    destruct (remove_peer_command one_ip _) as [l' out]. exact (proj1 H2).
Defined.
End Applied.
