(* ===== verification/PeerTheorems.v ===== *)
(** What happens to a peer's routes when its session ends: retention and pruning
    under graceful restart, the flush of a clean end, removal. *)
From Stdlib Require Import ZArith Lia Bool.
From stdpp Require Import base tactics numbers decidable gmap list.
From S2P Require Import Prelude Addr Types AsPath Wire Header Notification Open Update Fsm Session RouteMap Roa Policy Route DaemonPolicy BestPath LocRib RibTheorems AdjRib Outbound HandleUpdate ImportTheorems Deferral Capabilities DaemonState Propagate Graceful PeerLifecycle RouteUpdate EventLoop DaemonFacts DaemonInvariant DaemonTheorems.
Open Scope Z_scope.

Section Tables.
Context `{P : IpPrefixOps} {M : RouteMapOps} {HO : HashOrder}.

(** ** The RIB of one family as the state of a run *)
Lemma upd_rib_rib {f} (lr lr' : LocRib f) d :
  upd_fam (fam_set_rib lr') (upd_fam (fam_set_rib lr) d) = upd_fam (fam_set_rib lr') d.
Proof. by destruct f. Qed.
Lemma upd_rib_self f d : upd_fam (fam_set_rib (loc_rib (ds_fam d f))) d = d.
Proof. destruct d as [l [] [] s p g sd o b]. by destruct f. Qed.
Lemma rib_of_upd {f} (lr : LocRib f) d :
  loc_rib (ds_fam (upd_fam (fam_set_rib lr) d) f) = lr
  /\ oracle (ds_fam (upd_fam (fam_set_rib lr) d) f) = oracle (ds_fam d f).
Proof. by destruct f. Qed.

Definition put_rib {f} (d : DaemonState) (x : LocRib f * list (BestPathChange f))
    : DaemonState * list (BestPathChange f) := (upd_fam (fam_set_rib x.1) d, x.2).
Lemma rib_insert_all_run {f} peer (rs : list (Route f)) : forall d,
  rib_insert_all peer rs d
  = (x ← rib_run (loc_rib (ds_fam d f)) (map (fun r => RInsert peer r (oracle (ds_fam d f))) rs);
     Ok (put_rib d x)).
Proof.
  induction rs as [|r rs IH]; intros d; cbn [rib_insert_all map rib_run mbind outcome_bind].
  { unfold put_rib. cbn [fst snd]. by rewrite upd_rib_self. }
  unfold rib_insert. cbn [rib_step].
  destruct (loc_rib_insert _ peer r _) as [[lr c]| | |]; cbn [one mbind outcome_bind]; [|done..].
  rewrite IH. destruct (rib_of_upd lr d) as [-> ->].
  destruct (rib_run lr _) as [[lr' cs]| | |]; cbn [mbind outcome_bind]; [|done..].
  unfold put_rib. cbn [fst snd app]. by rewrite upd_rib_rib.
Qed.
Lemma rib_withdraw_all_run {f} peer (ns : list (Nlri f)) : forall d,
  rib_withdraw_all peer ns d
  = (x ← rib_run (loc_rib (ds_fam d f)) (map (fun n => RWithdraw peer n (oracle (ds_fam d f))) ns);
     Ok (put_rib d x)).
Proof.
  induction ns as [|n ns IH]; intros d; cbn [rib_withdraw_all map rib_run mbind outcome_bind].
  { unfold put_rib. cbn [fst snd]. by rewrite upd_rib_self. }
  unfold rib_withdraw. cbn [rib_step].
  destruct (loc_rib_withdraw _ peer n _) as [[lr c]| | |]; cbn [one mbind outcome_bind]; [|done..].
  rewrite IH. destruct (rib_of_upd lr d) as [-> ->].
  destruct (rib_run lr _) as [[lr' cs]| | |]; cbn [mbind outcome_bind]; [|done..].
  unfold put_rib. cbn [fst snd app]. by rewrite upd_rib_rib.
Qed.

(** The candidates after inserting or withdrawing a list for one peer. *)
Lemma inserts_spec {f} peer o (rs : list (Route f)) : forall m n q,
  foldl spec_step m (map (fun r => RInsert peer r o) rs) !! (n, q)
  = if decide (q = peer) then
      match List.find (fun r => bool_decide (nlri r = n)) (rev rs) with
      | Some r => Some r | None => m !! (n, q) end
    else m !! (n, q).
Proof.
  induction rs as [|r rs IH] using rev_ind; intros m n q; [by destruct (decide _)|].
  rewrite map_app, foldl_app. cbn [map foldl spec_step]. rewrite rev_app_distr. cbn [rev app List.find].
  rewrite lookup_insert. destruct (decide ((nlri r, peer) = (n, q))) as [[= <- <-]|Hne].
  - rewrite decide_True by done. by rewrite bool_decide_true.
  - rewrite IH. destruct (decide (q = peer)) as [->|]; [|done]. rewrite bool_decide_false; [done|congruence].
Qed.
Lemma withdraws_spec {f} peer o (ns : list (Nlri f)) : forall m n q,
  foldl spec_step m (map (fun k => RWithdraw peer k o) ns) !! (n, q)
  = if decide (q = peer /\ n ∈ ns) then None else m !! (n, q).
Proof.
  induction ns as [|k ns IH] using rev_ind; intros m n q.
  { cbn [map foldl]. rewrite decide_False; [done|]. by intros [_ ?%not_elem_of_nil]. }
  rewrite map_app, foldl_app. cbn [map foldl spec_step]. rewrite lookup_delete.
  destruct (decide ((k, peer) = (n, q))) as [[= <- <-]|Hne].
  - rewrite decide_True; [done|]. split; [done|]. rewrite elem_of_app, list_elem_of_singleton. by right.
  - rewrite IH. apply decide_ext. rewrite elem_of_app, list_elem_of_singleton. split; [tauto|].
    intros [-> [?| ->]]; [done|]. by destruct Hne.
Qed.

(** ** The tables a peer's routes are in *)

(** The candidates of a family, and the Adj-RIB-In of a peer. *)
Definition cands f (d : DaemonState) : gmap (Nlri f * PeerId) (Route f) := candidates (loc_rib (ds_fam d f)).
Definition held f (d : DaemonState) (ip : IpAddr) : gmap (Nlri f) (Route f) :=
  match adj_ribs_in (ds_fam d f) !! ip with Some t => ari_routes t | None => ∅ end.
(** Two states with the same tables. *)
Definition same_tables (d d' : DaemonState) : Prop :=
  forall f, cands f d' = cands f d /\ adj_ribs_in (ds_fam d' f) = adj_ribs_in (ds_fam d f).
#[global] Instance same_tables_preorder : PreOrder same_tables.
Proof.
  split; [by intros d f|]. intros d1 d2 d3 H1 H2 f. destruct (H1 f) as [E1 E2], (H2 f) as [-> ->]. done.
Qed.
Lemma core_tables d d' : core d' = core d -> same_tables d d'.
Proof.
  intros E f. pose proof (core_fam f d d' E) as Ef. unfold cands. split.
  - exact (f_equal (fun x => candidates (loc_rib x)) Ef).
  - exact (f_equal adj_ribs_in Ef).
Qed.
Lemma strip_tables d d' : strip d' = strip d -> same_tables d d'.
Proof. intros E. by apply core_tables, strip_core. Qed.
Lemma tables_held d d' f ip : same_tables d d' -> held f d' ip = held f d ip.
Proof. intros H. unfold held. by rewrite (proj2 (H f)). Qed.

Lemma find_held {f} (m : gmap (Nlri f) (Route f)) (g : Route f -> Route f) n :
  ari_ok m -> (forall r, nlri (g r) = nlri r) -> forall l, l ≡ₚ map_to_list m ->
  List.find (fun r => bool_decide (nlri r = n)) ((fun x : Nlri f * Route f => g x.2) <$> l)
  = g <$> m !! n.
Proof.
  intros Hm Hg l Hl. destruct (List.find _ _) as [r|] eqn:E.
  - apply List.find_some in E as [Hin%list_elem_of_In E]. apply bool_decide_eq_true in E.
    apply list_elem_of_fmap in Hin as ([n' r'] & -> & Hin). rewrite Hl in Hin.
    apply elem_of_map_to_list in Hin. destruct (Hm n' r' Hin) as [En _]. cbn [snd] in *.
    rewrite Hg, En in E. subst n'. by rewrite Hin.
  - destruct (m !! n) as [r|] eqn:Er; [|done]. exfalso.
    assert (Hin : g r ∈ ((fun x : Nlri f * Route f => g x.2) <$> l)).
    { apply list_elem_of_fmap. exists (n, r). split; [done|]. rewrite Hl. by apply elem_of_map_to_list. }
    apply list_elem_of_In in Hin. eapply List.find_none in E; [|exact Hin].
    apply bool_decide_eq_false in E. apply E. rewrite Hg. by destruct (Hm n r Er).
Qed.

(** Nothing but the tables of one family is changed. *)
Record only_family (f : Family) (d d' : DaemonState) : Prop := {
  of_other : forall f', f' <> f -> cands f' d' = cands f' d
    /\ adj_ribs_in (ds_fam d' f') = adj_ribs_in (ds_fam d f');
  of_gr : ds_gr d' = ds_gr d;
  of_peers : ds_peers d' = ds_peers d;
  of_stale : forall f', stale_nlri (ds_fam d' f') = stale_nlri (ds_fam d f');
  of_max : forall f', peer_max_prefixes (ds_fam d' f') = peer_max_prefixes (ds_fam d f');
  of_sess : ds_sess d' = ds_sess d;
}.
#[global] Instance only_family_preorder f : PreOrder (only_family f).
Proof.
  split; [by intros d; split|]. intros d1 d2 d3 [A1 A2 A3 A4 A5 A6] [B1 B2 B3 B4 B5 B6]. split; try congruence.
  intros f' Hf. destruct (A1 f' Hf) as [E1 E2], (B1 f' Hf) as [-> ->]. done.
Qed.
Lemma strip_max f d d' : strip d' = strip d -> peer_max_prefixes (ds_fam d' f) = peer_max_prefixes (ds_fam d f).
Proof.
  intros E. destruct f; [exact (f_equal (fun d => peer_max_prefixes (ds_v4 d)) E)|].
  exact (f_equal (fun d => peer_max_prefixes (ds_v6 d)) E).
Qed.
Lemma strip_only f d d' : strip d' = strip d -> only_family f d d'.
Proof.
  intros E. pose proof (strip_tables _ _ E) as H. split.
  - intros f' _. apply H.
  - exact (f_equal ds_gr E).
  - exact (f_equal ds_peers E).
  - intros f'. exact (f_equal stale_nlri (core_fam f' _ _ (strip_core _ _ E))).
  - intros f'. exact (strip_max f' _ _ E).
  - exact (f_equal ds_sess E).
Qed.
Lemma set_rib_only {f} (lr : LocRib f) d : only_family f d (upd_fam (fam_set_rib lr) d).
Proof. split; try (by destruct f); intros []; by destruct f. Qed.
Lemma set_in_only {f} (m : gmap IpAddr (AdjRibIn f)) d :
  only_family f d (upd_fam (fun x : Fam f => fam_set_in m x) d).
Proof. split; try (by destruct f); intros []; by destruct f. Qed.

Lemma held_set_in {f} (t : AdjRibIn f) ip d q :
  held f (upd_fam (fun x : Fam f => fam_set_in (<[ip := t]> (adj_ribs_in x)) x) d) q
  = if decide (q = ip) then ari_routes t else held f d q.
Proof.
  unfold held. rewrite ds_fam_upd. cbn [adj_ribs_in fam_set_in].
  destruct (decide (q = ip)) as [->|Hne]; [by rewrite lookup_insert_eq|by rewrite lookup_insert_ne].
Qed.
Lemma held_set_rib {f} (lr : LocRib f) d q : held f (upd_fam (fam_set_rib lr) d) q = held f d q.
Proof. by destruct f. Qed.
Lemma cands_set_rib {f} (lr : LocRib f) d : cands f (upd_fam (fam_set_rib lr) d) = candidates lr.
Proof. by destruct f. Qed.

(** ** Retention *)
Section Laws.
Context {L : IpPrefixLaws} {ML : RouteMapLaws} {HL : HashOrderLaw}.

Lemma rib_insert_all_spec {f} ip (rs : list (Route f)) d : daemon_ok d ->
  Forall (fun r => canonical (nlri r)) rs ->
  exists (lr : LocRib f) cs, rib_insert_all ip rs d = Ok (upd_fam (fam_set_rib lr) d, cs)
    /\ forall n q, candidates lr !! (n, q)
        = if decide (q = ip) then
            match List.find (fun r => bool_decide (nlri r = n)) (rev rs) with
            | Some r => Some r | None => cands f d !! (n, q) end
          else cands f d !! (n, q).
Proof.
  intros Hd Hrs. set (ops := map (fun r => RInsert ip r (oracle (ds_fam d f))) rs).
  assert (Hops : Forall op_ok ops) by (apply Forall_map; exact Hrs).
  destruct (rib_run_spec ops _ (fo_rib _ (dk_fam d Hd f)) Hops) as (lr & cs & E & _ & Hc & _).
  exists lr, cs. rewrite rib_insert_all_run. fold ops. rewrite E. split; [done|]. intros n q.
  rewrite (Hc (cands f d)) by done. apply inserts_spec.
Qed.

(** The routes of the peer become candidates as they were received, marked. *)
Lemma mark_stale_spec f ip d : daemon_ok d -> exists d', mark_stale f ip d = Ok d'
  /\ daemon_ok d' /\ only_family f d d'
  /\ (forall q, held f d' q = if decide (q = ip) then (fun r => set_stale r true) <$> held f d ip else held f d q)
  /\ (forall n q, cands f d' !! (n, q)
       = match (if decide (q = ip) then held f d ip !! n else None) with
         | Some r => Some (set_stale r true) | None => cands f d !! (n, q) end).
Proof.
  intros Hd. destruct (safely_mark_stale f ip d Hd) as (d' & E & Hd' & _). exists d'.
  split; [exact E|]. split; [exact Hd'|]. clear Hd'. revert E. unfold mark_stale, id.
  destruct (adj_ribs_in (ds_fam d f) !! ip) as [t|] eqn:Et.
  2:{ intros [= <-]. assert (Eh : held f d ip = ∅) by (unfold held; by rewrite Et). split; [done|].
      split; [intros q|intros n q; by destruct (decide _); rewrite ?Eh, ?lookup_empty].
      destruct (decide _) as [->|]; [by rewrite Eh, fmap_empty|done]. }
  assert (Eh : held f d ip = ari_routes t) by (unfold held; by rewrite Et).
  assert (Ht : ari_ok (ari_routes t)) by (by eapply fo_in; [apply dk_fam|]).
  destruct (mark_all_stale_ok t Ht) as [_ Hs]. unfold mark_all_stale in *. cbn [fst snd] in Hs.
  set (t' := mkAdjRibIn _ _). set (rs := _ <$> _) in *. set (d1 := upd_fam _ d).
  assert (Hd1 : daemon_ok d1).
  { apply (upd_fam_ok _ d Hd); [|intros ip'; apply insert_is_Some].
    apply fam_set_in_ok; [apply dk_fam, Hd|]. exact (proj1 (mark_all_stale_ok t Ht)). }
  assert (Hfind : forall n, List.find (fun r => bool_decide (nlri r = n)) (rev rs)
                  = (fun r => set_stale r true) <$> ari_routes t !! n).
  { intros n. unfold rs. rewrite <- map_rev. apply (find_held _ (fun r => set_stale r true)); [done|done|].
    rewrite <- Permutation_rev. apply (hash_order_perm _ _). }
  assert (Hin : forall q, held f d1 q
      = if decide (q = ip) then (fun r => set_stale r true) <$> held f d ip else held f d q)
    by (intros q; unfold d1; rewrite held_set_in; destruct (decide _); [by rewrite Eh|done]).
  assert (O1 : only_family f d d1) by (apply set_in_only).
  assert (C1 : cands f d1 = cands f d) by (unfold d1, cands; by rewrite ds_fam_upd).
  destruct (rib_insert_all_spec ip rs d1 Hd1 Hs) as (lr & cs & E & Hc). rewrite Eh in *.
  destruct rs as [|r rs'] eqn:Ers.
  - intros [= <-]. split; [done|]. split; [exact Hin|]. intros n q. rewrite C1.
    destruct (decide (q = ip)); [|done]. specialize (Hfind n). cbn [rev app List.find] in Hfind.
    destruct (ari_routes t !! n); [done|done].
  - rewrite E. cbn [mbind outcome_bind].
    set (d2 := upd_fam (fam_set_rib lr) d1). match goal with |- Ok ?x = _ -> _ => set (d3 := x) end.
    intros [= <-]. assert (Es : strip d3 = strip d2) by (unfold d3; by autorewrite with strip).
    pose proof (strip_tables _ _ Es) as H3. split; [|split].
    + etransitivity; [exact O1|]. etransitivity; [apply (set_rib_only lr)|by apply strip_only].
    + intros q. rewrite (tables_held _ _ f q H3). unfold d2. rewrite held_set_rib. apply Hin.
    + intros n q. rewrite (proj1 (H3 f)). unfold d2. rewrite cands_set_rib, Hc, Hfind, C1.
      repeat destruct (decide _); by destruct (ari_routes t !! n).
Qed.

(** ** The end of a peer's routes *)
Lemma clear_in_tables f ip d :
  adj_ribs_in (ds_fam (clear_in f ip d) f) = alter ari_clear ip (adj_ribs_in (ds_fam d f)).
Proof.
  apply map_eq. intros q. rewrite lookup_alter. unfold clear_in.
  destruct (adj_ribs_in (ds_fam d f) !! ip) as [t|] eqn:Et.
  - rewrite ds_fam_upd. cbn [adj_ribs_in fam_set_in].
    destruct (decide (ip = q)) as [<-|Hne]; [by rewrite lookup_insert_eq|by rewrite lookup_insert_ne].
  - destruct (decide (ip = q)) as [<-|Hne]; [by rewrite ?Et|done].
Qed.
Lemma clear_in_spec f ip d : only_family f d (clear_in f ip d) /\ cands f (clear_in f ip d) = cands f d
  /\ forall q, held f (clear_in f ip d) q = if decide (q = ip) then ∅ else held f d q.
Proof.
  unfold clear_in. destruct (adj_ribs_in (ds_fam d f) !! ip) as [t|] eqn:Et.
  - split; [apply set_in_only|]. split; [unfold cands; by rewrite ds_fam_upd|].
    intros q. rewrite held_set_in. by destruct (decide _).
  - split; [done|]. split; [done|]. intros q. destruct (decide _) as [->|]; [|done].
    unfold held. by rewrite Et.
Qed.
Lemma rib_withdraw_peer_spec f ip d : daemon_ok d -> exists (lr : LocRib f) cs,
  rib_withdraw_peer f ip d = Ok (upd_fam (fam_set_rib lr) d, cs)
  /\ daemon_ok (upd_fam (fam_set_rib lr) d)
  /\ forall n q, candidates lr !! (n, q) = if decide (q = ip) then None else cands f d !! (n, q).
Proof.
  intros Hd. destruct (withdraw_peer_spec (loc_rib (ds_fam d f)) ip (oracle (ds_fam d f))
    (fo_rib _ (dk_fam d Hd f))) as (lr & cs & E & Hok & Hc & Hu & _).
  exists lr, cs. unfold rib_withdraw_peer. rewrite E. split; [done|]. split; [|exact Hc].
  by apply (set_rib_ok lr d Hd).
Qed.

(** The peer is in no table, and nothing else is changed. *)
Definition forgotten (ip : IpAddr) (d d' : DaemonState) : Prop := forall f,
  (forall n q, cands f d' !! (n, q) = if decide (q = ip) then None else cands f d !! (n, q))
  /\ adj_ribs_in (ds_fam d' f) = alter ari_clear ip (adj_ribs_in (ds_fam d f)).
Lemma withdrawn_forgotten ip d (k : DaemonState -> list (BestPathChange FamV4) ->
    list (BestPathChange FamV6) -> DaemonState) : daemon_ok d ->
  (forall d cs cs6, strip (k d cs cs6) = strip d) ->
  exists d', ('(d, cs) ← rib_withdraw_peer FamV4 ip (clear_in FamV6 ip (clear_in FamV4 ip d));
              '(d, cs6) ← rib_withdraw_peer FamV6 ip d; Ok (k d cs cs6)) = Ok d'
    /\ forgotten ip d d'.
Proof.
  intros Hd Hk. set (d1 := clear_in FamV4 ip d). set (d2 := clear_in FamV6 ip d1).
  assert (Hd2 : daemon_ok d2).
  { destruct (safely_clear_in id FamV4 ip d (Ok d2)) as (d3 & E3 & H3 & _); [|done|by injection E3 as ->].
    fold d1. apply (safely_clear_in id FamV6 ip d1). by apply safely_ret. }
  destruct (clear_in_spec FamV4 ip d) as (O1 & C1 & H1). fold d1 in O1, C1, H1.
  destruct (clear_in_spec FamV6 ip d1) as (O2 & C2 & H2). fold d2 in O2, C2, H2.
  destruct (rib_withdraw_peer_spec FamV4 ip d2 Hd2) as (lr4 & cs4 & E4 & Hd4 & R4).
  set (d4 := upd_fam (fam_set_rib lr4) d2) in *.
  destruct (rib_withdraw_peer_spec FamV6 ip d4 Hd4) as (lr6 & cs6 & E6 & Hd6 & R6).
  set (d6 := upd_fam (fam_set_rib lr6) d4) in *.
  rewrite E4. cbn [mbind outcome_bind]. rewrite E6. cbn [mbind outcome_bind].
  eexists. split; [reflexivity|]. pose proof (strip_tables _ _ (Hk d6 cs4 cs6)) as Hs.
  intros f. destruct (Hs f) as [-> ->]. clear Hs.
  destruct (of_other _ _ _ O1 FamV6 ltac:(done)) as [A1 B1], (of_other _ _ _ O2 FamV4 ltac:(done)) as [A2 B2].
  destruct f.
  - change (cands FamV4 d6) with (candidates lr4).
    change (adj_ribs_in (ds_fam d6 FamV4)) with (adj_ribs_in (ds_fam d2 FamV4)).
    split; [intros n q; by rewrite R4, A2, C1|]. rewrite B2. apply clear_in_tables.
  - change (cands FamV6 d6) with (candidates lr6).
    change (adj_ribs_in (ds_fam d6 FamV6)) with (adj_ribs_in (ds_fam d2 FamV6)).
    change (cands FamV6 d4) with (cands FamV6 d2) in R6.
    split; [intros n q; by rewrite R6, C2, A1|]. rewrite <- B1. apply clear_in_tables.
Qed.

Lemma forgotten_tables ip d1 d2 d' : same_tables d1 d2 -> forgotten ip d2 d' -> forgotten ip d1 d'.
Proof.
  intros H H' f. destruct (H' f) as [H1 H2], (H f) as [Ec Ei]. split; [|by rewrite H2, Ei].
  intros n q. by rewrite H1, Ec.
Qed.
Lemma blackhole_tables ip d : same_tables d
  (withdraw_peer_blackhole_kernel_routes FamV6 ip (withdraw_peer_blackhole_kernel_routes FamV4 ip d)).
Proof. apply strip_tables. by autorewrite with strip. Qed.
Lemma core_leave_session ip d : core (leave_session ip d) = core d.
Proof. done. Qed.

Ltac finish_forgets ip d1 :=
  cbv zeta;
  match goal with |- exists d', ?r = Ok d' /\ _ =>
    cut (exists d', r = Ok d' /\ forgotten ip d1 d'); [let E := fresh "E" in intros (d' & E & Hf); exists d'; split; [exact E|]
      |eapply withdrawn_forgotten; [assumption|]] end.
Lemma terminate_clean_forgets ip d : daemon_ok d ->
  exists d', terminate_clean ip d = Ok d' /\ forgotten ip d d'.
Proof.
  intros Hd. unfold terminate_clean. pose proof (blackhole_tables ip d) as Hb.
  set (d1 := withdraw_peer_blackhole_kernel_routes FamV6 ip _) in *.
  assert (Hd1 : daemon_ok d1).
  { eapply daemon_ok_core; [|exact Hd]. apply strip_core. unfold d1. by autorewrite with strip. }
  finish_forgets ip d1; [by eapply forgotten_tables|].
  intros d' cs cs6. by autorewrite with strip.
Qed.
Lemma gr_deadline_forgets ip d : daemon_ok d ->
  exists d', on_gr_deadline_expired ip d = Ok d' /\ forgotten ip d d'.
Proof.
  intros Hd. unfold on_gr_deadline_expired. set (d0 := remove_stale FamV6 ip (remove_stale FamV4 ip d)).
  pose proof (blackhole_tables ip d0) as Hb.
  set (d1 := withdraw_peer_blackhole_kernel_routes FamV6 ip _) in *.
  assert (Hd0 : daemon_ok d0).
  { destruct (safely_remove_stale id FamV4 ip d (Ok d0)) as (d3 & E3 & H3 & _); [|done|by injection E3 as ->].
    apply (safely_remove_stale id FamV6 ip). by apply safely_ret. }
  assert (Hd1 : daemon_ok d1).
  { eapply daemon_ok_core; [|exact Hd0]. apply strip_core. unfold d1. by autorewrite with strip. }
  finish_forgets ip d1.
  - eapply forgotten_tables; [|exact Hf]. transitivity d0; [|exact Hb]. intros []; done.
  - intros d' cs cs6. by autorewrite with strip.
Qed.

(** ** The whole of a termination under graceful restart *)
Definition afi_of (f : Family) : AfiSafi := match f with FamV4 => IPV4_UNICAST | FamV6 => IPV6_UNICAST end.
(** The peer's last OPEN covered the family. *)
Definition covered (d : DaemonState) (ip : IpAddr) (f : Family) : bool :=
  has_family (afi_of f) (gr_peer_families (ds_gr d) !! ip).

Lemma flush_uncovered_spec f ip d : only_family f d (flush_uncovered f ip d)
  /\ cands f (flush_uncovered f ip d) = cands f d
  /\ forall q, held f (flush_uncovered f ip d) q = if decide (q = ip) then ∅ else held f d q.
Proof.
  unfold flush_uncovered. pose proof (strip_blackhole f ip d) as Hs.
  destruct (clear_in_spec f ip (withdraw_peer_blackhole_kernel_routes f ip d)) as (O & C & H).
  pose proof (strip_tables _ _ Hs) as Ht. split; [|split].
  - etransitivity; [by apply strip_only|exact O].
  - by rewrite C, (proj1 (Ht f)).
  - intros q. by rewrite H, (tables_held _ _ f q Ht).
Qed.

(** What becomes of one family: kept and marked, or forgotten but for the
    candidates. *)
Definition marked_or_flushed (f : Family) (ip : IpAddr) (kept : bool) (d d' : DaemonState) : Prop :=
  (forall q, held f d' q = if decide (q = ip) then
      (if kept then (fun r => set_stale r true) <$> held f d ip else ∅) else held f d q)
  /\ forall n q, cands f d' !! (n, q)
      = match (if decide (q = ip) then if kept then held f d ip !! n else None else None) with
        | Some r => Some (set_stale r true) | None => cands f d !! (n, q) end.

Lemma only_family_cands f d d' f' : only_family f d d' -> f' <> f ->
  cands f' d' = cands f' d /\ forall q, held f' d' q = held f' d q.
Proof. intros O Hf. destruct (of_other _ _ _ O f' Hf) as [E1 E2]. split; [done|]. intros q. unfold held. by rewrite E2. Qed.

(** One family after the other. *)
Lemma flushes_spec ip d kept4 kept6 : daemon_ok d ->
  let d1 := if (kept4 : bool) then d else flush_uncovered FamV4 ip d in
  let d2 := if (kept6 : bool) then d1 else flush_uncovered FamV6 ip d1 in
  daemon_ok d2 /\ ds_gr d2 = ds_gr d /\ ds_sess d2 = ds_sess d
  /\ forall f, cands f d2 = cands f d
     /\ forall q, held f d2 q = if decide (q = ip) then
          if (match f with FamV4 => kept4 | FamV6 => kept6 end) then held f d ip else ∅ else held f d q.
Proof.
  intros Hd d1 d2.
  assert (H1 : daemon_ok d1 /\ only_family FamV4 d d1 /\ cands FamV4 d1 = cands FamV4 d
    /\ forall q, held FamV4 d1 q = if decide (q = ip) then if kept4 then held FamV4 d ip else ∅ else held FamV4 d q).
  { unfold d1. destruct kept4.
    - split_and!; [done|done|done|]. intros q. by destruct (decide (q = ip)) as [->|].
    - destruct (flush_uncovered_spec FamV4 ip d) as (O & C & H).
      split_and!; [by apply flush_uncovered_advances|done|done|done]. }
  destruct H1 as (Hd1 & O1 & C1 & Hh1).
  assert (H2 : daemon_ok d2 /\ only_family FamV6 d1 d2 /\ cands FamV6 d2 = cands FamV6 d1
    /\ forall q, held FamV6 d2 q = if decide (q = ip) then if kept6 then held FamV6 d1 ip else ∅ else held FamV6 d1 q).
  { unfold d2. destruct kept6.
    - split_and!; [done|done|done|]. intros q. by destruct (decide (q = ip)) as [->|].
    - destruct (flush_uncovered_spec FamV6 ip d1) as (O & C & H).
      split_and!; [by apply flush_uncovered_advances|done|done|done]. }
  destruct H2 as (Hd2 & O2 & C2 & Hh2).
  destruct (only_family_cands _ _ _ FamV6 O1 ltac:(done)) as [A6 B6].
  destruct (only_family_cands _ _ _ FamV4 O2 ltac:(done)) as [A4 B4].
  split; [done|]. split; [by rewrite (of_gr _ _ _ O2), (of_gr _ _ _ O1)|].
  split; [by rewrite (of_sess _ _ _ O2), (of_sess _ _ _ O1)|].
  intros []; [split; [by rewrite A4, C1|intros q; by rewrite B4, Hh1]|].
  split; [by rewrite C2, A6|]. intros q. by rewrite Hh2, !B6.
Qed.

Lemma marks_spec ip d kept4 kept6 : daemon_ok d ->
  exists d', mark_stale_and_repropagate ip kept4 kept6 d = Ok d' /\ ds_gr d' = ds_gr d /\ ds_sess d' = ds_sess d
  /\ forall f, let kept : bool := match f with FamV4 => kept4 | FamV6 => kept6 end in
     (forall q, held f d' q = if decide (q = ip) then
        (if kept then (fun r => set_stale r true) <$> held f d ip else held f d ip) else held f d q)
     /\ forall n q, cands f d' !! (n, q)
        = match (if decide (q = ip) then if kept then held f d ip !! n else None else None) with
          | Some r => Some (set_stale r true) | None => cands f d !! (n, q) end.
Proof.
  intros Hd. unfold mark_stale_and_repropagate.
  assert (Hnop : forall f d, daemon_ok d -> (forall q, held f d q
      = if decide (q = ip) then held f d ip else held f d q)
    /\ forall n q, cands f d !! (n, q) = match (if decide (q = ip) then None else None) with
         | Some r => Some (set_stale r true) | None => cands f d !! (n, q) end).
  { intros f d0 _. split; [intros q|intros n q]; by destruct (decide (q = ip)) as [->|]. }
  assert (Hmark : forall f (kept : bool) d, daemon_ok d -> exists d',
    (if kept then mark_stale f ip d else Ok d) = Ok d' /\ daemon_ok d' /\ only_family f d d'
    /\ (forall q, held f d' q = if decide (q = ip) then
        (if kept then (fun r => set_stale r true) <$> held f d ip else held f d ip) else held f d q)
    /\ forall n q, cands f d' !! (n, q)
        = match (if decide (q = ip) then if kept then held f d ip !! n else None else None) with
          | Some r => Some (set_stale r true) | None => cands f d !! (n, q) end).
  { intros f kept d0 H0. destruct kept; [exact (mark_stale_spec f ip d0 H0)|].
    exists d0. destruct (Hnop f d0 H0). by split_and!. }
  destruct (Hmark FamV4 kept4 d Hd) as (d1 & E1 & Hd1 & O1 & Hh1 & Hc1).
  destruct (Hmark FamV6 kept6 d1 Hd1) as (d2 & E2 & Hd2 & O2 & Hh2 & Hc2).
  rewrite E1. cbn [mbind outcome_bind]. exists d2. split; [exact E2|].
  destruct (only_family_cands _ _ _ FamV6 O1 ltac:(done)) as [A6 B6].
  destruct (only_family_cands _ _ _ FamV4 O2 ltac:(done)) as [A4 B4].
  split; [by rewrite (of_gr _ _ _ O2), (of_gr _ _ _ O1)|].
  split; [by rewrite (of_sess _ _ _ O2), (of_sess _ _ _ O1)|].
  intros []; cbv zeta iota.
  - split; [intros q; by rewrite B4, Hh1|intros n q; by rewrite A4, Hc1].
  - split; [intros q; by rewrite Hh2, !B6|intros n q; by rewrite Hc2, B6, A6].
Qed.

Lemma terminate_gr_spec ip secs now d : daemon_ok d ->
  exists d', terminate_gr ip secs now d = Ok d'
    /\ gr_deadlines (ds_gr d') = <[ip := now + from_secs secs]> (gr_deadlines (ds_gr d))
    /\ ds_sess d' = ds_sess d
    /\ forall f, marked_or_flushed f ip (covered d ip f) d d'.
Proof.
  intros Hd. unfold terminate_gr. set (k4 := has_family IPV4_UNICAST _). set (k6 := has_family IPV6_UNICAST _).
  destruct (flushes_spec ip d k4 k6 Hd) as (Hd2 & Eg & Ese & Hf).
  set (d2 := if k6 then _ else _) in *. set (d3 := set_deadlines _ d2).
  assert (Hd3 : daemon_ok d3) by (by apply (daemon_ok_core d2)).
  destruct (marks_spec ip d3 k4 k6 Hd3) as (d' & E & Eg' & Es' & Hm). exists d'. split; [exact E|].
  split; [rewrite Eg'; unfold d3; cbn; by rewrite Eg|]. split; [rewrite Es'; exact Ese|].
  assert (Et : same_tables d2 d3) by (by apply core_tables).
  intros f. destruct (Hf f) as [C H], (Hm f) as [H' C']. clear Hf Hm.
  assert (Ek : covered d ip f = match f with FamV4 => k4 | FamV6 => k6 end) by (by destruct f).
  unfold marked_or_flushed. rewrite Ek. set (k := match f with FamV4 => k4 | FamV6 => k6 end) in *.
  split.
  - intros q. rewrite H', !(tables_held _ _ f _ Et), !H. rewrite (decide_True (P := ip = ip)) by done.
    repeat destruct (decide _); by destruct k.
  - intros n q. rewrite C', (tables_held _ _ f _ Et), (proj1 (Et f)), H, C.
    rewrite (decide_True (P := ip = ip)) by done. repeat destruct (decide _); by destruct k.
Qed.

(** ** End-of-RIB *)
Lemma rib_withdraw_all_spec {f} ip (ns : list (Nlri f)) d : daemon_ok d -> Forall canonical ns ->
  exists (lr : LocRib f) cs, rib_withdraw_all ip ns d = Ok (upd_fam (fam_set_rib lr) d, cs)
    /\ forall n q, candidates lr !! (n, q) = if decide (q = ip /\ n ∈ ns) then None else cands f d !! (n, q).
Proof.
  intros Hd Hns. set (ops := map (fun n => RWithdraw ip n (oracle (ds_fam d f))) ns).
  assert (Hops : Forall op_ok ops) by (apply Forall_map; exact Hns).
  destruct (rib_run_spec ops _ (fo_rib _ (dk_fam d Hd f)) Hops) as (lr & cs & E & _ & Hc & _).
  exists lr, cs. rewrite rib_withdraw_all_run. fold ops. rewrite E. split; [done|]. intros n q.
  rewrite (Hc (cands f d)) by done. apply withdraws_spec.
Qed.
Lemma ari_withdraws_lookup {f} (l : list (Nlri f)) : forall (t : AdjRibIn f) n,
  ari_routes (foldl (fun t n => fst (ari_withdraw t n)) t l) !! n
  = if decide (n ∈ l) then None else ari_routes t !! n.
Proof.
  induction l as [|k l IH]; intros t n; cbn [foldl].
  { rewrite decide_False; [done|apply not_elem_of_nil]. }
  rewrite IH. cbn [ari_withdraw fst ari_routes]. rewrite lookup_delete.
  destruct (decide (n ∈ l)) as [Hl|Hl]; [by rewrite decide_True by (by right)|].
  destruct (decide (k = n)) as [->|Hne]; [by rewrite decide_True by left|].
  rewrite decide_False; [done|]. intros [?|?]%elem_of_cons; congruence.
Qed.

(** The peer's routes for the prefixes are in no table. *)
Definition pruned (f : Family) (ip : IpAddr) (s : gset (Nlri f)) (d d' : DaemonState) : Prop :=
  (forall n q, cands f d' !! (n, q) = if decide (q = ip /\ n ∈ s) then None else cands f d !! (n, q))
  /\ forall q n, held f d' q !! n = if decide (q = ip /\ n ∈ s) then None else held f d q !! n.

Lemma pruned_in_spec {f} ip (l : list (Nlri f)) d : only_family f d (pruned_in ip l d)
  /\ cands f (pruned_in ip l d) = cands f d
  /\ forall q n, held f (pruned_in ip l d) q !! n = if decide (q = ip /\ n ∈ l) then None else held f d q !! n.
Proof.
  unfold pruned_in. destruct (adj_ribs_in (ds_fam d f) !! ip) as [t|] eqn:Et.
  - set (cs := map _ _). pose proof (strip_fib_calls cs d) as Hs. pose proof (strip_tables _ _ Hs) as Ht.
    split; [|split].
    + etransitivity; [by apply strip_only|apply set_in_only].
    + transitivity (cands f (fib_calls cs d)); [by destruct f|apply Ht].
    + intros q n. rewrite held_set_in. destruct (decide (q = ip)) as [->|Hne].
      * rewrite ari_withdraws_lookup. unfold held. rewrite Et.
        apply decide_ext. tauto.
      * rewrite (tables_held _ _ f q Ht). by rewrite decide_False by tauto.
  - split; [done|]. split; [done|]. intros q n. destruct (decide _) as [[-> _]|]; [|done].
    unfold held. by rewrite Et, lookup_empty.
Qed.
Lemma prune_spec {f} ip (s : gset (Nlri f)) d : daemon_ok d -> (forall n, n ∈ s -> canonical n) ->
  exists d', prune_stale_nlri ip s d = Ok d' /\ pruned f ip s d d' /\ only_family f d d'.
Proof.
  intros Hd Hs. unfold prune_stale_nlri. set (l := hash_order (elements s)).
  fold (pruned_in ip l d). set (d1 := pruned_in ip l d).
  assert (Hl : forall n, n ∈ l <-> n ∈ s).
  { intros n. unfold l. rewrite (hash_order_perm _ (elements s)). apply elem_of_elements. }
  assert (Hlc : Forall canonical l) by (apply Forall_forall; intros n Hn; by apply Hs, Hl).
  assert (Hd1 : daemon_ok d1).
  { destruct (safely_pruned_in id ip l d (Ok d1)) as (d3 & E3 & H3 & _); [|done|by injection E3 as ->].
    by apply safely_ret. }
  destruct (pruned_in_spec ip l d) as (O1 & C1 & H1). fold d1 in O1, C1, H1.
  destruct (rib_withdraw_all_spec ip l d1 Hd1 Hlc) as (lr & cs & E & Hc). rewrite E.
  cbn [mbind outcome_bind]. eexists. split; [reflexivity|]. set (d2 := upd_fam (fam_set_rib lr) d1).
  match goal with |- context [emit_events ?a ?b] => set (d3 := emit_events a b) end.
  assert (Es : strip d3 = strip d2) by (unfold d3; by autorewrite with strip).
  pose proof (strip_tables _ _ Es) as Ht. split; [split|].
  - intros n q. rewrite (proj1 (Ht f)). unfold d2. rewrite cands_set_rib, Hc, C1.
    apply decide_ext. by rewrite Hl.
  - intros q n. rewrite (tables_held _ _ f q Ht). unfold d2. rewrite held_set_rib, H1.
    apply decide_ext. by rewrite Hl.
  - etransitivity; [exact O1|]. etransitivity; [apply (set_rib_only lr)|by apply strip_only].
Qed.

Lemma strip_recompute d : exists sd, strip (recompute_selection_deferral d) = strip (set_deferral sd d).
Proof.
  unfold recompute_selection_deferral. destruct (sd_recompute _ _ _) as [sd released]. exists sd.
  by rewrite strip_catch_up.
Qed.
Lemma end_of_rib_spec f ip d s : daemon_ok d -> stale_nlri (ds_fam d f) !! ip = Some s ->
  exists d', end_of_rib f ip d = Ok d' /\ pruned f ip s d d'
    /\ (forall f', f' <> f -> cands f' d' = cands f' d /\ adj_ribs_in (ds_fam d' f') = adj_ribs_in (ds_fam d f'))
    /\ stale_nlri (ds_fam d' f) = delete ip (stale_nlri (ds_fam d f))
    /\ forall f', peer_max_prefixes (ds_fam d' f') = peer_max_prefixes (ds_fam d f').
Proof.
  intros Hd Es. unfold end_of_rib. set (d1 := upd_fam _ d).
  assert (Es1 : stale_nlri (ds_fam d1 f) = stale_nlri (ds_fam d f)) by (unfold d1; by rewrite ds_fam_upd).
  rewrite Es1, Es. set (d2 := remove_stale f ip d1).
  assert (Hd1 : daemon_ok d1) by (apply (daemon_ok_core d); [by destruct f|done]).
  assert (Hd2 : daemon_ok d2).
  { destruct (safely_remove_stale id f ip d1 (Ok d2)) as (d3 & E3 & H3 & _); [|done|by injection E3 as ->].
    by apply safely_ret. }
  assert (Hs : forall n, n ∈ s -> canonical n) by (exact (fo_stale _ (dk_fam d Hd f) ip s Es)).
  assert (Ht : same_tables d d2).
  { intros f'. unfold d2, d1. by destruct f, f'. }
  assert (Hst : stale_nlri (ds_fam d2 f) = delete ip (stale_nlri (ds_fam d f))).
  { unfold d2, remove_stale. rewrite ds_fam_upd. cbn [stale_nlri fam_set_stale]. by rewrite Es1. }
  assert (Hp : exists d3, (if bool_decide (s = ∅) then Ok d2 else prune_stale_nlri ip s d2) = Ok d3
    /\ pruned f ip s d2 d3 /\ only_family f d2 d3).
  { case_bool_decide as Hs0; [|by apply prune_spec]. exists d2. split; [done|]. split; [|done]. subst s.
    split; [intros n q|intros q n]; (rewrite decide_False; [done|set_solver]). }
  destruct Hp as (d3 & E3 & [Hc Hh] & O3). rewrite E3. cbn [mbind outcome_bind].
  eexists. split; [reflexivity|].
  destruct (strip_recompute d3) as [sd Er]. set (d4 := recompute_selection_deferral d3) in *.
  assert (Ht4 : same_tables d3 d4).
  { pose proof (strip_tables _ _ Er) as H. intros f'. destruct (H f') as [-> ->]. by destruct f'. }
  split; [split|split; [|split]].
  - intros n q. rewrite (proj1 (Ht4 f)), Hc. by rewrite (proj1 (Ht f)).
  - intros q n. rewrite (tables_held _ _ f q Ht4), Hh. by rewrite (tables_held _ _ f q Ht).
  - intros f' Hf. destruct (of_other _ _ _ O3 f' Hf) as [E1 E2], (Ht4 f') as [-> ->], (Ht f') as [<- <-]. done.
  - pose proof (f_equal stale_nlri (core_fam f _ _ (strip_core _ _ Er))) as En. cbn [fam_core stale_nlri] in En.
    rewrite En. transitivity (stale_nlri (ds_fam d3 f)); [by destruct f|].
    by rewrite (of_stale _ _ _ O3 f), Hst.
  - intros f'. rewrite (strip_max f' _ _ Er). transitivity (peer_max_prefixes (ds_fam d3 f')); [by destruct f'|].
    rewrite (of_max _ _ _ O3 f'). by destruct f, f'.
Qed.
(** What the peer announces is no longer stale. *)
Lemma refresh_stale_lookup {f} ip (l : list (Nlri f)) d :
  stale_nlri (ds_fam (refresh_stale ip l d) f) !! ip
  = (fun s => s ∖ list_to_set l) <$> stale_nlri (ds_fam d f) !! ip.
Proof.
  unfold refresh_stale. destruct (stale_nlri (ds_fam d f) !! ip) as [s|] eqn:E; [|by rewrite E].
  rewrite ds_fam_upd. cbn [stale_nlri fam_set_stale]. by rewrite lookup_insert_eq.
Qed.
Lemma refresh_stale_other {f} f' ip (l : list (Nlri f)) d : f' <> f ->
  ds_fam (refresh_stale ip l d) f' = ds_fam d f'.
Proof. intros Hf. unfold refresh_stale. destruct (stale_nlri _ !! ip); [|done]. by destruct f, f'. Qed.
Lemma import_stale ip clock msg d d' note pol pol6 t :
  import_policies (policies (ds_peers d)) !! ip = Some pol ->
  import_policies_v6 (policies (ds_peers d)) !! ip = Some pol6 ->
  adj_ribs_in (ds_v4 d) !! ip = Some t -> import_update ip clock msg d = Ok (d', note) ->
  stale_nlri (ds_v4 d') !! ip
    = (fun s => s ∖ list_to_set (Update.announced msg)) <$> stale_nlri (ds_v4 d) !! ip
  /\ stale_nlri (ds_v6 d') !! ip
    = (fun s => s ∖ list_to_set (mp_reach_v6 (attributes msg))) <$> stale_nlri (ds_v6 d) !! ip.
Proof.
  intros Ep Ep6 Et. unfold import_update. rewrite Ep, Ep6, Et.
  set (d1 := refresh_stale ip (Update.announced msg) d).
  set (d2 := refresh_stale ip (mp_reach_v6 (attributes msg)) d1).
  destruct (handle_update _ msg t _ _ _) as [[[s4 s6] n]| | |]; [|done..]. cbn [mbind outcome_bind].
  set (d3 := upd_fam _ (upd_fam _ d2)). intros [= E].
  assert (Ed : d' = fst (after_update ip clock msg s4 s6 n d3)) by (by rewrite E).
  pose proof (core_after_update ip clock msg s4 s6 n d3) as Ec. rewrite <- Ed in Ec.
  pose proof (f_equal (fun c => stale_nlri c.1.1) Ec) as E4.
  pose proof (f_equal (fun c => stale_nlri c.1.2) Ec) as E6.
  cbn [core fst snd fam_core stale_nlri] in E4, E6. rewrite E4, E6. split.
  - change (stale_nlri (ds_v4 d3)) with (stale_nlri (ds_fam d2 FamV4)).
    unfold d2. rewrite refresh_stale_other by done. apply (refresh_stale_lookup (f:=FamV4)).
  - change (stale_nlri (ds_v6 d3)) with (stale_nlri (ds_fam d2 FamV6)).
    unfold d2. rewrite refresh_stale_lookup. unfold d1. by rewrite refresh_stale_other.
Qed.

(** What a session that comes back finds: the held prefixes are the stale ones. *)
Definition view (f : Family) (d : DaemonState) :=
  (cands f d, adj_ribs_in (ds_fam d f), stale_nlri (ds_fam d f)).
Lemma core_view f d d' : core d' = core d -> view f d' = view f d.
Proof.
  intros E. unfold view. destruct (core_tables _ _ E f) as [-> ->].
  pose proof (f_equal stale_nlri (core_fam f _ _ E)) as En. cbn [fam_core stale_nlri] in En. by rewrite En.
Qed.
Lemma snapshot_view f f' ip d : f' <> f -> view f' (snapshot_stale f ip d) = view f' d.
Proof. intros Hf. unfold snapshot_stale. destruct (bool_decide _); [done|]. by destruct f, f'. Qed.
Lemma snapshot_spec f ip d : view f (snapshot_stale f ip d)
  = (cands f d, adj_ribs_in (ds_fam d f),
     if decide (held f d ip = ∅) then stale_nlri (ds_fam d f)
     else <[ip := dom (held f d ip)]> (stale_nlri (ds_fam d f))).
Proof.
  unfold snapshot_stale.
  assert (E : match adj_ribs_in (ds_fam d f) !! ip with Some t => dom (ari_routes t) | None => ∅ end
              = (dom (held f d ip) : gset (Nlri f))).
  { unfold held. destruct (adj_ribs_in _ !! ip); [done|by rewrite dom_empty_L]. }
  rewrite E. case_bool_decide as Hb.
  - apply dom_empty_inv_L in Hb. rewrite decide_True by done. done.
  - rewrite decide_False; [by destruct f|]. intros H. apply Hb. by rewrite H, dom_empty_L.
Qed.
Lemma established_view f ip info now d : is_Some (gr_deadlines (ds_gr d) !! ip) -> covered d ip f = true ->
  view f (on_established ip info now d) = view f (snapshot_stale f ip d).
Proof.
  intros [t Ht] Hc. unfold on_established. rewrite Ht. cbn [andb].
  set (d1 := set_deadlines _ d). assert (V1 : forall f, view f d1 = view f d) by done.
  change (gr_peer_families (ds_gr d1)) with (gr_peer_families (ds_gr d)).
  set (gr4 := has_family IPV4_UNICAST _). set (gr6 := has_family IPV6_UNICAST _).
  set (d2 := if gr4 then _ else d1). set (d3 := if gr6 then _ else d2).
  assert (V3 : view f d3 = view f (snapshot_stale f ip d)).
  { destruct f.
    - change (gr4 = true) in Hc. transitivity (view FamV4 d2).
      + unfold d3. destruct gr6; [by apply snapshot_view|done].
      + unfold d2. rewrite Hc. rewrite !snapshot_spec. done.
    - change (gr6 = true) in Hc. unfold d3. rewrite Hc, !snapshot_spec.
      assert (V2 : view FamV6 d2 = view FamV6 d)
        by (unfold d2; destruct gr4; [by rewrite snapshot_view|done]).
      injection V2 as E1 E2 E3. unfold held. cbn [ds_fam]. by rewrite E1, E2, E3. }
  rewrite <- V3. set (d4 := reset_aro FamV4 ip _ _).
  assert (E4 : core d4 = core d3).
  { unfold d4. rewrite (strip_core _ _ (strip_reset_aro _ _ _ _)).
    unfold enter_session. by destruct (si_local_addr info). }
  rewrite <- (core_view f _ _ E4). set (d5 := if gr6 then d4 else _).
  assert (V5 : view f d5 = view f d4).
  { unfold d5. destruct gr6 eqn:E6; [done|]. destruct f; [done|]. change (gr6 = true) in Hc. congruence. }
  rewrite <- V5. set (d6 := set_aro _ _ d5).
  assert (E6 : core d6 = core d5) by (by apply strip_core, strip_set_aro).
  rewrite <- (core_view f _ _ E6).
  destruct (export_policies _ !! ip); [|reflexivity]. destruct (adj_ribs_out _ !! ip); [|reflexivity].
  destruct (update_senders _ !! ip); [|reflexivity]. apply core_view.
  rewrite core_recompute_deferral, core_set_gr_capability.
  destruct (v6_deferred _), (v4_deferred _); rewrite ?core_dump; done.
Qed.

(** ** Removal *)
(** No table has an entry for the peer. *)
Definition gone (ip : IpAddr) (d : DaemonState) : Prop :=
  (forall f, adj_ribs_in (ds_fam d f) !! ip = None /\ stale_nlri (ds_fam d f) !! ip = None
     /\ import_policy (policies (ds_peers d)) f !! ip = None /\ export_policy (policies (ds_peers d)) f !! ip = None)
  /\ peer_types (ds_sess d) !! ip = None /\ gr_deadlines (ds_gr d) !! ip = None
  /\ peer_remote_as (ds_peers d) !! ip = None.
Lemma strip_gone ip d d' : strip d' = strip d -> gone ip d -> gone ip d'.
Proof.
  intros E. pose proof (f_equal ds_peers E) as Ep. pose proof (f_equal ds_sess E) as Es.
  pose proof (f_equal ds_gr E) as Eg. cbn in Ep, Es, Eg. unfold gone. rewrite Ep, Es, Eg.
  intros [H1 H2]. split; [|done]. intros f. rewrite (proj2 (strip_tables _ _ E f)).
  pose proof (core_fam f _ _ (strip_core _ _ E)) as Ef. pose proof (f_equal stale_nlri Ef) as En.
  cbn in En. rewrite En. apply H1.
Qed.
Lemma remove_peer_spec ip d : is_Some (adj_ribs_in (ds_v4 d) !! ip) ->
  (forall f, cands f (fst (remove_peer ip d)) = cands f d
     /\ adj_ribs_in (ds_fam (fst (remove_peer ip d)) f) = delete ip (adj_ribs_in (ds_fam d f)))
  /\ gone ip (fst (remove_peer ip d)).
Proof.
  intros [t Ht]. unfold remove_peer. rewrite Ht. cbn [fst]. set (d1 := set_obs _ _).
  destruct (strip_recompute d1) as [sd E]. split.
  - intros f. destruct (strip_tables _ _ E f) as [-> ->]. by destruct f.
  - apply (strip_gone ip _ _ E). split; [|by split_and!; apply lookup_delete_eq].
    intros []; split_and!; apply lookup_delete_eq.
Qed.

(** ** Claims *)

Lemma on_terminated_gr ip reason now d : daemon_ok d -> enter_gr ip reason d = true ->
  exists d', on_terminated ip reason now d = Ok d'
    /\ gr_deadlines (ds_gr d')
       = <[ip := now + from_secs (gr_restart_time ip d)]> (gr_deadlines (ds_gr d))
    /\ ds_sess d' = remove_session ip (ds_sess d)
    /\ forall f, marked_or_flushed f ip (covered d ip f) d d'.
Proof.
  intros Hd He. unfold on_terminated. rewrite He.
  destruct (terminate_gr_spec ip (gr_restart_time ip d) now (leave_session ip d)) as (d' & E & Eg & Ese & Hf);
    [exact (daemon_ok_core d (leave_session ip d) eq_refl Hd)|].
  exists d'. split_and!; [exact E|exact Eg|exact Ese|]. intros f. specialize (Hf f). destruct f; exact Hf.
Qed.
(** C14: when a session ends uncleanly and the peer's OPEN allows it (or with a
    notification both sides accept for graceful restart), the deadline its restart
    time sets is recorded, and its routes of a covered family stay, all marked stale,
    in its Adj-RIB-In and among the candidates, also those its import policy had
    rejected; of a family not covered its Adj-RIB-In is emptied while its candidates
    stay as they are; the routes of other peers are not touched.  What follows may end
    this before the deadline ([gr_window_cut_short]). *)
Theorem gr_retains ip reason now d : daemon_ok d -> enter_gr ip reason d = true ->
  exists d', on_terminated ip reason now d = Ok d'
    /\ gr_deadlines (ds_gr d')
       = <[ip := now + from_secs (gr_restart_time ip d)]> (gr_deadlines (ds_gr d))
    /\ forall f, marked_or_flushed f ip (covered d ip f) d d'.
Proof.
  intros Hd He. destruct (on_terminated_gr ip reason now d Hd He) as (d' & E & Eg & _ & Hf). by exists d'.
Qed.

(** C16: after a clean end of its session (one that does not enter graceful restart),
    after its restart deadline, and after a removal whose session end is clean once
    the removal mark is dropped, a peer has no candidate and an empty Adj-RIB-In in
    either family, whatever the state before, and the routes of other peers are not
    touched; so removed, a peer has no table left at all.  A peer removed while it
    qualifies for graceful restart is not covered ([removed_gr_peer_stays]). *)
Theorem peer_end_forgets ip reason now stops d : daemon_ok d ->
  (exists d', on_gr_deadline_expired ip d = Ok d' /\ forgotten ip d d')
  /\ (enter_gr ip reason d = false -> exists d', on_terminated ip reason now d = Ok d' /\ forgotten ip d d')
  /\ (ip ∈ pending_removal (ds_peers d) -> enter_gr ip reason (unmark_removal ip d) = false ->
      is_Some (adj_ribs_in (ds_v4 d) !! ip) ->
      exists d', terminated ip reason now stops d = Ok (d', stops ∖ {[ip]}, true) /\ gone ip d'
        /\ forall f, adj_ribs_in (ds_fam d' f) = delete ip (adj_ribs_in (ds_fam d f))
           /\ forall n q, cands f d' !! (n, q) = if decide (q = ip) then None else cands f d !! (n, q)).
Proof.
  intros Hd.
  assert (Hclean : forall d, daemon_ok d -> enter_gr ip reason d = false ->
    exists d', on_terminated ip reason now d = Ok d' /\ forgotten ip d d').
  { intros d0 H0 He. unfold on_terminated. rewrite He.
    destruct (terminate_clean_forgets ip (leave_session ip d0)) as (d' & E & Hf);
      [exact (daemon_ok_core d0 (leave_session ip d0) eq_refl H0)|].
    exists d'. split; [exact E|]. eapply forgotten_tables; [|exact Hf]. by apply core_tables. }
  split; [by apply gr_deadline_forgets|]. split; [by apply Hclean|]. intros Hp He Hi.
  unfold terminated. rewrite bool_decide_true by done.
  destruct (Hclean (unmark_removal ip d)) as (d1 & E & Hf); [exact (daemon_ok_core d (unmark_removal ip d) eq_refl Hd)|done|].
  rewrite E. cbn [mbind outcome_bind]. eexists. split; [reflexivity|].
  assert (Hi1 : is_Some (adj_ribs_in (ds_v4 d1) !! ip)).
  { destruct (Hf FamV4) as [_ Ha]. change (adj_ribs_in (ds_v4 d1)) with (adj_ribs_in (ds_fam d1 FamV4)).
    rewrite Ha. by apply alter_is_Some. }
  destruct (remove_peer_spec ip d1 Hi1) as [Hr Hg]. split; [exact Hg|].
  intros f. destruct (Hr f) as [-> ->], (Hf f) as [Fc ->]. split; [|destruct f; exact Fc].
  apply map_eq. intros q. rewrite !lookup_delete, lookup_alter.
  destruct (decide _); [done|by destruct f].
Qed.

(** C15: a peer that comes back within its restart window resynchronises so: the
    prefixes it held in a covered family become the stale set; every UPDATE takes from
    the IPv4 set what it announces in its NLRI field, not what it announces in
    MP_REACH_NLRI ([gr_mp_reach_stays_stale]), and from the IPv6 set what it announces in
    MP_REACH_NLRI; and the End-of-RIB marker removes from the candidates and the
    Adj-RIB-In the peer's routes for what is left, and nothing else. *)
Theorem gr_resync ip d : daemon_ok d ->
  (forall info now f, is_Some (gr_deadlines (ds_gr d) !! ip) -> covered d ip f = true -> held f d ip <> ∅ ->
     let d' := on_established ip info now d in
     stale_nlri (ds_fam d' f) !! ip = Some (dom (held f d ip))
     /\ cands f d' = cands f d /\ held f d' ip = held f d ip)
  /\ (forall clock msg msg', known d FamV4 ip -> known d FamV6 ip -> msg_ok msg ->
     is_eor_v4 msg = false -> is_eor_v6 msg = false -> rr_inbound ip d msg = Some msg' ->
     exists d' note, on_route_update ip clock msg d = Ok (d', note)
     /\ stale_nlri (ds_v4 d') !! ip
       = (fun s => s ∖ list_to_set (Update.announced msg')) <$> stale_nlri (ds_v4 d) !! ip
     /\ stale_nlri (ds_v6 d') !! ip
       = (fun s => s ∖ list_to_set (mp_reach_v6 (attributes msg'))) <$> stale_nlri (ds_v6 d) !! ip)
  /\ (forall f s, stale_nlri (ds_fam d f) !! ip = Some s ->
     exists d', end_of_rib f ip d = Ok d' /\ pruned f ip s d d'
     /\ (forall f', f' <> f -> cands f' d' = cands f' d /\ adj_ribs_in (ds_fam d' f') = adj_ribs_in (ds_fam d f'))
     /\ stale_nlri (ds_fam d' f) = delete ip (stale_nlri (ds_fam d f))).
Proof.
  intros Hd. split; [|split].
  - intros info now f Hg Hc Hh d'. pose proof (established_view f ip info now d Hg Hc) as V.
    rewrite snapshot_spec, decide_False in V by done. fold d' in V. injection V as Ec Ei Es.
    split; [rewrite Es; apply lookup_insert_eq|]. split; [exact Ec|]. unfold held. by rewrite Ei.
  - intros clock msg msg' [[pol Hp] [t Ht]] [[pol6 Hp6] _] Hm H4 H6 Hr.
    unfold on_route_update. rewrite H4, H6, Hr.
    destruct (safely_import_update ip clock msg' d (rr_inbound_ok _ _ _ _ Hr Hm) Hd) as ([d' note] & E & _).
    exists d', note. split; [exact E|]. by eapply import_stale.
  - intros f s Hs. destruct (end_of_rib_spec f ip d s Hd Hs) as (d' & E & H1 & H2 & H3 & _). by exists d'.
Qed.

(** An IPv4 prefix that a returning peer announces again in MP_REACH_NLRI stays in the
    stale set, although the UPDATE is imported, so the End-of-RIB marker withdraws it. *)
Theorem gr_mp_reach_stays_stale ip clock msg msg' d s n : daemon_ok d -> known d FamV4 ip -> known d FamV6 ip ->
  msg_ok msg -> is_eor_v4 msg = false -> is_eor_v6 msg = false -> rr_inbound ip d msg = Some msg' ->
  Update.announced msg' = [] -> stale_nlri (ds_v4 d) !! ip = Some s -> n ∈ s ->
  exists d1 note d2, on_route_update ip clock msg d = Ok (d1, note) /\ end_of_rib FamV4 ip d1 = Ok d2
    /\ held FamV4 d2 ip !! n = None /\ cands FamV4 d2 !! (n, ip) = None.
Proof.
  intros Hd [[pol Hp] [t Ht]] [[pol6 Hp6] _] Hm H4 H6 Hr Ha Hs Hn.
  unfold on_route_update. rewrite H4, H6, Hr.
  destruct (safely_import_update ip clock msg' d (rr_inbound_ok _ _ _ _ Hr Hm) Hd) as ([d1 note] & E & Hd1 & _).
  destruct (import_stale ip clock msg' d d1 note pol pol6 t Hp Hp6 Ht E) as [E4 _].
  rewrite Hs, Ha in E4. cbn [fmap option_fmap option_map list_to_set] in E4. rewrite difference_empty_L in E4.
  destruct (end_of_rib_spec FamV4 ip d1 s Hd1 E4) as (d2 & E2 & [Hc Hh] & _). exists d1, note, d2.
  split; [exact E|]. split; [exact E2|]. rewrite Hc, Hh, !decide_True by (split; [reflexivity|exact Hn]). by split.
Qed.

(** A family the restart does not cover is flushed from the Adj-RIB-In only: the peer's
    candidates stay in the Loc-RIB, unmarked, and no End-of-RIB marker prunes them. *)
Theorem gr_uncovered_stay f ip reason now d n r : daemon_ok d -> enter_gr ip reason d = true ->
  covered d ip f = false -> cands f d !! (n, ip) = Some r ->
  exists d', on_terminated ip reason now d = Ok d' /\ held f d' ip = ∅ /\ cands f d' !! (n, ip) = Some r.
Proof.
  intros Hd He Hc Hr. destruct (on_terminated_gr ip reason now d Hd He) as (d' & E & _ & _ & Hf).
  exists d'. split; [exact E|]. destruct (Hf f) as [Hh Hcd]. rewrite Hc in Hh, Hcd. rewrite Hcd, Hh, !decide_True by done. by split.
Qed.

(** Retention bypasses the import policy.  A route that the policy of the
    peer rejects, and so is no candidate, becomes one when the session ends under
    graceful restart. *)
Theorem gr_stale_ignores_policy f ip reason now d n r pol : daemon_ok d ->
  enter_gr ip reason d = true -> covered d ip f = true ->
  import_policy (policies (ds_peers d)) f !! ip = Some pol -> snd (evaluate pol r) = DReject ->
  held f d ip !! n = Some r -> cands f d !! (n, ip) = None ->
  exists d', on_terminated ip reason now d = Ok d' /\ cands f d' !! (n, ip) = Some (set_stale r true).
Proof.
  intros Hd He Hc _ _ Hh _. destruct (on_terminated_gr ip reason now d Hd He) as (d' & E & _ & _ & Hf).
  exists d'. split; [exact E|]. destruct (Hf f) as [_ ->]. by rewrite decide_True, Hc, Hh by done.
Qed.

(** A peer whose removal is pending is not exempt from graceful restart,
    because the mark is dropped before it is looked at: when its session ends
    uncleanly its routes are marked stale, and the removal that follows drops the
    peer from every table, deadline included, but leaves the routes as candidates
    that nothing withdraws. *)
Theorem removed_gr_peer_stays ip reason now stops d n r : daemon_ok d ->
  ip ∈ pending_removal (ds_peers d) -> enter_gr ip reason d = false ->
  enter_gr ip reason (unmark_removal ip d) = true -> covered d ip FamV4 = true ->
  held FamV4 d ip !! n = Some r ->
  exists d', terminated ip reason now stops d = Ok (d', stops ∖ {[ip]}, true) /\ gone ip d'
    /\ cands FamV4 d' !! (n, ip) = Some (set_stale r true).
Proof.
  intros Hd Hp _ He Hc Hh. unfold terminated. rewrite bool_decide_true by done.
  destruct (on_terminated_gr ip reason now (unmark_removal ip d)) as (d1 & E & _ & _ & Hf);
    [exact (daemon_ok_core d (unmark_removal ip d) eq_refl Hd)|done|].
  rewrite E. cbn [mbind outcome_bind]. eexists. split; [reflexivity|].
  destruct (Hf FamV4) as [Hh1 Hc1]. change (covered (unmark_removal ip d) ip FamV4) with (covered d ip FamV4) in *.
  change (held FamV4 (unmark_removal ip d)) with (held FamV4 d) in *.
  specialize (Hh1 ip). specialize (Hc1 n ip). rewrite decide_True, Hc in Hh1 by done.
  rewrite decide_True, Hc, Hh in Hc1 by done.
  assert (Hi : is_Some (adj_ribs_in (ds_v4 d1) !! ip)).
  { destruct (adj_ribs_in (ds_v4 d1) !! ip) eqn:Ei; [done|]. exfalso.
    unfold held at 1 in Hh1. cbn [ds_fam] in Hh1. rewrite Ei in Hh1.
    apply (f_equal (lookup n)) in Hh1. rewrite lookup_fmap, Hh, lookup_empty in Hh1. done. }
  destruct (remove_peer_spec ip d1 Hi) as [Hr Hg]. split; [exact Hg|]. by rewrite (proj1 (Hr FamV4)).
Qed.

(** The restart window of a peer is cut short by a failed attempt to come back.
    A session that fails after the OPENs (in OpenConfirm) is also reported as
    terminated; the restart time was dropped with the first session, so whatever
    the reason the retained routes are flushed at once, before their deadline. *)
Theorem gr_window_cut_short fsm ip reason now reason' now' d : daemon_ok d -> enter_gr ip reason d = true ->
  fsm_state fsm = OpenConfirm ->
  SessionTerminated ∈ snd (process fsm TcpFailed)
  /\ exists d1 d2, on_terminated ip reason now d = Ok d1
     /\ gr_deadlines (ds_gr d1) !! ip = Some (now + from_secs (gr_restart_time ip d))
     /\ on_terminated ip reason' now' d1 = Ok d2 /\ forgotten ip d1 d2.
Proof.
  intros Hd He Hs. split.
  { unfold process. rewrite Hs. cbn. set_solver. }
  destruct (on_terminated_gr ip reason now d Hd He) as (d1 & E & Eg & Ese & _).
  assert (Hd1 : daemon_ok d1).
  { destruct (safely_terminated ip reason now d Hd) as (d' & E' & H' & _). rewrite E in E'. by injection E' as ->. }
  assert (He1 : enter_gr ip reason' d1 = false).
  { unfold enter_gr, gr_restart_time. rewrite Ese. cbn [remove_session gr_capable_peers].
    rewrite lookup_delete_eq. cbn [default from_option id]. by rewrite andb_false_r. }
  destruct (terminate_clean_forgets ip (leave_session ip d1)) as (d2 & E2 & Hf);
    [exact (daemon_ok_core d1 (leave_session ip d1) eq_refl Hd1)|].
  exists d1, d2. split; [exact E|]. split; [rewrite Eg; apply lookup_insert_eq|].
  split; [|eapply forgotten_tables; [|exact Hf]; by apply core_tables].
  unfold on_terminated. by rewrite He1.
Qed.

(** *** What the clean end of a session tells the others *)
Lemma repropagate_v6 ip (l : list (Nlri FamV4)) : forall d, ds_v6 (repropagate ip l d) = ds_v6 d.
Proof.
  intros d. unfold repropagate. generalize (List.filter (fun q => negb (bool_decide (q = ip))) (established d)).
  intros qs. revert d. induction qs as [|q qs IH]; intros d; [done|]. cbn [foldl]. rewrite IH.
  unfold repropagate_peer. destruct (capable FamV4 d q); [|done]. destruct (export_policy _ FamV4 !! q); [|done].
  destruct (adj_ribs_out _ !! q) as [aro|]; [|done]. destruct (update_senders _ !! q) as [tx|]; [|done].
  destruct (decide_all _ aro l) as [aro' xs]. unfold flush_to. destruct (flush _ _ _ _ _) as [tx' ok].
  by destruct ok.
Qed.
Lemma fib_calls_v6 cs : forall d, ds_v6 (fib_calls cs d) = ds_v6 d.
Proof. induction cs as [|c cs IH]; intros d; [done|]. exact (IH (fib_call c d)). Qed.
Lemma emit_route_events_v6 l : forall d, ds_v6 (emit_route_events l d) = ds_v6 d.
Proof. unfold emit_route_events. induction l as [|n l IH]; intros d; [done|]. cbn [foldl]. by rewrite IH. Qed.
(** What the peer [q] has been or is about to be told in IPv6. *)
Definition told_v6 (q : IpAddr) (d : DaemonState) :=
  (adj_ribs_out (ds_v6 d) !! q, pending_decisions (ds_v6 d) !! q).
Lemma terminate_clean_told ip q d d' : q <> ip -> terminate_clean ip d = Ok d' -> told_v6 q d' = told_v6 q d.
Proof.
  intros Hq. unfold terminate_clean, rib_withdraw_peer.
  set (d1 := withdraw_peer_blackhole_kernel_routes FamV6 ip _). set (d2 := clear_in FamV6 ip _).
  assert (E2 : told_v6 q d2 = told_v6 q d).
  { assert (Eb : forall f d, ds_v6 (withdraw_peer_blackhole_kernel_routes f ip d) = ds_v6 d).
    { intros f d0. unfold withdraw_peer_blackhole_kernel_routes.
      destruct (adj_ribs_in _ !! ip); [apply fib_calls_v6|done]. }
    assert (Ec : forall f d, told_v6 q (clear_in f ip d) = told_v6 q d)
      by (intros f d0; unfold clear_in; destruct (adj_ribs_in _ !! ip); by destruct f).
    unfold d2. rewrite !Ec. unfold told_v6, d1. by rewrite !Eb. }
  rewrite <- E2. generalize d2. clear -Hq. intros d.
  destruct (withdraw_peer (loc_rib (ds_fam d FamV4)) ip _) as [[lr4 cs4]| | |]; [|done..].
  cbn [mbind outcome_bind]. destruct (withdraw_peer (f:=FamV6) _ ip _) as [[lr6 cs6]| | |]; [|done..].
  cbn [mbind outcome_bind]. intros [= <-]. unfold told_v6. rewrite emit_route_events_v6, repropagate_v6.
  assert (Er : forall f pt d, told_v6 q (reset_aro f ip pt d) = told_v6 q d).
  { intros f pt d0. unfold reset_aro. destruct (adj_ribs_out _ !! ip); [|done]. unfold told_v6.
    destruct f; cbn; [done|]. by rewrite lookup_insert_ne. }
  match goal with |- context [reset_aro FamV6 ip ?pt ?x] => transitivity (told_v6 q (reset_aro FamV6 ip pt x)) end;
    [done|]. rewrite !Er. unfold fib_apply, told_v6. by rewrite !fib_calls_v6.
Qed.

(** The other peers are never told of the IPv6 routes that a cleanly ended
    session takes with it: a peer that was sent such a route keeps it in its
    Adj-RIB-Out, and nothing is queued for it, although no best route is left. *)
Theorem v6_termination_not_propagated ip reason now d n q aro r : daemon_ok d ->
  enter_gr ip reason d = false -> q <> ip ->
  (forall p, is_Some (cands FamV6 d !! (n, p)) -> p = ip) ->
  adj_ribs_out (ds_v6 d) !! q = Some aro -> aro_get aro n = Some r -> pending_decisions (ds_v6 d) !! q = None ->
  exists d', on_terminated ip reason now d = Ok d' /\ best (loc_rib (ds_v6 d')) n = None
    /\ adj_ribs_out (ds_v6 d') !! q = Some aro /\ pending_decisions (ds_v6 d') !! q = None.
Proof.
  intros Hd He Hq Hn Ha _ Hp. unfold on_terminated. rewrite He.
  destruct (terminate_clean_forgets ip (leave_session ip d)) as (d' & E & Hf);
    [exact (daemon_ok_core d (leave_session ip d) eq_refl Hd)|].
  exists d'. split; [exact E|].
  pose proof (terminate_clean_told ip q _ _ Hq E) as [= Et Ep]. split.
  - unfold best. destruct (best_peer _ n) as [p|]; [|done].
    change (cands FamV6 d' !! (n, p) = None). destruct (Hf FamV6) as [Hc _]. rewrite Hc.
    destruct (decide _) as [|Hne]; [done|].
    change (cands FamV6 d !! (n, p) = None). apply eq_None_not_Some. intros H. by apply Hne, Hn.
  - rewrite Et, Ep. cbn. split; [exact Ha|]. by rewrite lookup_delete_ne.
Qed.
End Laws.
End Tables.

(** ** Histories that meet the hypotheses *)
Section Applied.
#[local] Existing Instances ModelPrefix.ops ModelPrefix.laws ModelRouteMap.ops ModelRouteMap.laws.
#[local] Existing Instances ModelHashOrder.order ModelHashOrder.order_law.

(** A peer that speaks graceful restart announces 10/8; its import default. *)
Definition gr_cfg (a : DefaultAction) : DaemonConfig :=
  mkDaemonConfig 65001 1 None None None 90 120 false 0
    [mkPeerConfig one_ip 65010 (Some a) (Some a) (Some DefAccept) false false false None None
       None None None None 179 None None].
Definition gr_ops : list DaemonOp :=
  from_peer one_ip (SeEstablished one_info)
  ++ from_peer one_ip (SeRouteUpdate (imp_msg imp_attrs)) ++ [].
Lemma gr_ops_ok : Forall daemon_op_ok gr_ops.
Proof.
  apply from_peer_ok; [exact I|]. apply from_peer_ok; [exact imp_full_ok|]. apply Forall_nil_2.
Qed.
Definition gr_daemon (a : DefaultAction) : DaemonState := scenario (gr_cfg a) gr_ops.
Lemma gr_daemon_ok a : daemon_ok (gr_daemon a).
Proof. exact (scenario_ok (gr_cfg a) gr_ops gr_ops_ok). Qed.
Lemma gr_daemon_enters a : enter_gr one_ip TrUnclean (gr_daemon a) = true.
Proof. destruct a; vm_compute; reflexivity. Qed.
Lemma gr_daemon_covered a : covered (gr_daemon a) one_ip FamV4 = true.
Proof. destruct a; vm_compute; reflexivity. Qed.
Lemma gr_daemon_held a : is_Some (held FamV4 (gr_daemon a) one_ip !! imp10).
Proof. destruct a; apply (bool_decide_unpack (is_Some _)); vm_compute; exact I. Qed.
Lemma gr_daemon_policy : exists pol,
  import_policy (policies (ds_peers (gr_daemon DefReject))) FamV4 !! one_ip = Some pol
  /\ forall r, snd (evaluate pol r) = DReject.
Proof. exists (policy_new DefReject). split; [reflexivity|]. intros r. reflexivity. Qed.
Lemma gr_daemon_rejected : cands FamV4 (gr_daemon DefReject) !! (imp10, one_ip) = None.
Proof. apply (bool_decide_unpack (_ = _)). vm_compute. exact I. Qed.

Lemma gr_retains_witness : exists d', on_terminated one_ip TrUnclean 0 (gr_daemon DefAccept) = Ok d'
  /\ is_Some (cands FamV4 d' !! (imp10, one_ip)).
Proof.
  destruct (gr_retains one_ip TrUnclean 0 (gr_daemon DefAccept) (gr_daemon_ok _) (gr_daemon_enters _))
    as (d' & E & _ & H).
  exists d'. split; [exact E|]. destruct (H FamV4) as [_ ->]. rewrite gr_daemon_covered, decide_True by reflexivity.
  destruct (gr_daemon_held DefAccept) as [r ->]. eexists. reflexivity.
Defined.
Lemma gr_window_cut_short_witness : exists d1 d2, on_terminated one_ip TrUnclean 0 (gr_daemon DefAccept) = Ok d1
  /\ on_terminated one_ip TrUnclean 5 d1 = Ok d2 /\ cands FamV4 d2 !! (imp10, one_ip) = None.
Proof.
  destruct (gr_window_cut_short (mkFsm OpenConfirm sample_cfg None 0) one_ip TrUnclean 0 TrUnclean 5
    (gr_daemon DefAccept) (gr_daemon_ok _) (gr_daemon_enters _) eq_refl) as (_ & d1 & d2 & E1 & _ & E2 & Hf).
  exists d1, d2. split; [exact E1|]. split; [exact E2|]. exact (proj1 (Hf FamV4) imp10 one_ip).
Defined.
Lemma gr_stale_ignores_policy_witness : exists d', on_terminated one_ip TrUnclean 0 (gr_daemon DefReject) = Ok d'
  /\ is_Some (cands FamV4 d' !! (imp10, one_ip)).
Proof.
  destruct (gr_daemon_held DefReject) as [r Hr]. destruct gr_daemon_policy as (pol & Hp & Hj).
  destruct (gr_stale_ignores_policy FamV4 one_ip TrUnclean 0 (gr_daemon DefReject) imp10 r pol (gr_daemon_ok _)
    (gr_daemon_enters _) (gr_daemon_covered _) Hp (Hj r) Hr gr_daemon_rejected) as (d' & E & H).
  exists d'. split; [exact E|]. eexists. exact H.
Defined.

Lemma gr_ops_more more : Forall daemon_op_ok more -> Forall daemon_op_ok (gr_ops ++ more).
Proof. intros H. apply Forall_app_2; [exact gr_ops_ok|exact H]. Qed.
(** The peer is about to be removed. *)
Definition gr_removing : DaemonState := scenario (gr_cfg DefAccept) (gr_ops ++ [OpRemovePeer one_ip]).
Lemma gr_removing_ok : daemon_ok gr_removing.
Proof. apply scenario_ok, gr_ops_more. apply Forall_cons_2; [exact I|apply Forall_nil_2]. Qed.
Lemma gr_removing_pending : one_ip ∈ pending_removal (ds_peers gr_removing).
Proof. apply (bool_decide_unpack (one_ip ∈ pending_removal (ds_peers gr_removing))). vm_compute. exact I. Qed.

Lemma gr_removing_held : is_Some (held FamV4 gr_removing one_ip !! imp10).
Proof. apply (bool_decide_unpack (is_Some _)). vm_compute. exact I. Qed.
Lemma gr_removing_table : is_Some (adj_ribs_in (ds_v4 gr_removing) !! one_ip).
Proof. apply (bool_decide_unpack (is_Some _)). vm_compute. exact I. Qed.
Lemma gr_removing_clean : enter_gr one_ip TrOperatorStop (unmark_removal one_ip gr_removing) = false.
Proof. vm_compute. reflexivity. Qed.
Lemma gr_removing_guarded : enter_gr one_ip TrUnclean gr_removing = false.
Proof. vm_compute. reflexivity. Qed.
Lemma gr_removing_enters : enter_gr one_ip TrUnclean (unmark_removal one_ip gr_removing) = true.
Proof. vm_compute. reflexivity. Qed.
Lemma gr_removing_covered : covered gr_removing one_ip FamV4 = true.
Proof. vm_compute. reflexivity. Qed.

Lemma peer_end_forgets_witness :
  exists d', terminated one_ip TrOperatorStop 0 ∅ gr_removing = Ok (d', ∅ ∖ {[one_ip]}, true)
  /\ cands FamV4 d' !! (imp10, one_ip) = None.
Proof.
  destruct (peer_end_forgets one_ip TrOperatorStop 0 ∅ gr_removing gr_removing_ok) as (_ & _ & H).
  destruct (H gr_removing_pending gr_removing_clean gr_removing_table)
    as (d' & E & _ & Hf).
  exists d'. split; [exact E|]. exact (proj2 (Hf FamV4) imp10 one_ip).
Defined.
Lemma removed_gr_peer_stays_witness :
  exists d', terminated one_ip TrUnclean 0 ∅ gr_removing = Ok (d', ∅ ∖ {[one_ip]}, true)
  /\ gone one_ip d' /\ is_Some (cands FamV4 d' !! (imp10, one_ip)).
Proof.
  destruct gr_removing_held as [r Hr].
  destruct (removed_gr_peer_stays one_ip TrUnclean 0 ∅ gr_removing imp10 r gr_removing_ok gr_removing_pending
    gr_removing_guarded gr_removing_enters gr_removing_covered Hr) as (d' & E & Hg & Hc).
  exists d'. split; [exact E|]. split; [exact Hg|]. eexists. exact Hc.
Defined.

(** The session is lost and comes back. *)
Definition gr_back : DaemonState := scenario (gr_cfg DefAccept)
  (gr_ops ++ from_peer one_ip (SeTerminated TrUnclean) ++ from_peer one_ip (SeEstablished one_info)).
Lemma gr_back_ok : daemon_ok gr_back.
Proof. apply scenario_ok, gr_ops_more. repeat (apply Forall_cons_2; [exact I|]). apply Forall_nil_2. Qed.
Lemma gr_back_stale : stale_nlri (ds_fam gr_back FamV4) !! one_ip = Some {[imp10]}.
Proof. apply (bool_decide_unpack (_ = _)). vm_compute. exact I. Qed.
Lemma gr_back_candidate : is_Some (cands FamV4 gr_back !! (imp10, one_ip)).
Proof. apply (bool_decide_unpack (is_Some _)). vm_compute. exact I. Qed.
Lemma gr_resync_witness : exists d', end_of_rib FamV4 one_ip gr_back = Ok d'
  /\ is_Some (cands FamV4 gr_back !! (imp10, one_ip)) /\ cands FamV4 d' !! (imp10, one_ip) = None.
Proof.
  destruct (gr_resync one_ip gr_back gr_back_ok) as (_ & _ & H).
  destruct (H FamV4 {[imp10]} gr_back_stale) as (d' & E & [Hc _] & _).
  exists d'. split; [exact E|]. split; [exact gr_back_candidate|]. rewrite Hc. rewrite decide_True; [reflexivity|].
  split; [reflexivity|]. apply elem_of_singleton. reflexivity.
Defined.

Definition gr_mp_msg : UpdateMessage :=
  mkUpdate [] [PaOrigin Igp; PaAsPath (Path.from_sequence [65010]);
    PaMpReachNlri (mkMpReach IPV4_UNICAST (NhV4 3232235777) [PfxV4 imp10])] [].
Lemma gr_mp_msg_ok : msg_ok gr_mp_msg.
Proof.
  split; [apply Forall_nil_2|]. split; [apply Forall_nil_2|].
  refine (Forall_cons_2 mp_ok (PaOrigin Igp) _ I (Forall_cons_2 mp_ok (PaAsPath _) _ I
    (Forall_cons_2 mp_ok (PaMpReachNlri _) _ _ (Forall_nil_2 _)))).
  left. split; [reflexivity|]. exists [imp10]. split; [reflexivity|].
  exact (Forall_cons_2 canonical imp10 _ imp10_canonical (Forall_nil_2 _)).
Qed.
Lemma gr_back_known f : known gr_back f one_ip.
Proof. apply (bool_decide_unpack (known gr_back f one_ip)). destruct f; vm_compute; exact I. Qed.
Lemma gr_mp_msg_in : rr_inbound one_ip gr_back gr_mp_msg = Some gr_mp_msg.
Proof. unfold rr_inbound. assert (E : is_rr gr_back = false) by (vm_compute; reflexivity). by rewrite E. Qed.
Definition gr_mp_after : option bool :=
  match on_route_update one_ip (one_clocks 0%nat) gr_mp_msg gr_back with
  | Ok (d, _) => stale <$> cands FamV4 d !! (imp10, one_ip)
  | _ => None
  end.
Lemma gr_mp_reach_stays_stale_witness : gr_mp_after = Some false
  /\ exists d1 note d2, on_route_update one_ip (one_clocks 0%nat) gr_mp_msg gr_back = Ok (d1, note)
  /\ end_of_rib FamV4 one_ip d1 = Ok d2 /\ cands FamV4 d2 !! (imp10, one_ip) = None.
Proof.
  split; [vm_compute; reflexivity|].
  destruct (gr_mp_reach_stays_stale one_ip (one_clocks 0%nat) gr_mp_msg gr_mp_msg gr_back {[imp10]} imp10 gr_back_ok
    (gr_back_known FamV4) (gr_back_known FamV6) gr_mp_msg_ok eq_refl eq_refl) as (d1 & note & d2 & E1 & E2 & _ & E3).
  - exact gr_mp_msg_in.
  - reflexivity.
  - exact gr_back_stale.
  - apply elem_of_singleton. reflexivity.
  - exists d1, note, d2. split; [exact E1|]. split; [exact E2|exact E3].
Defined.

(** The peer's capability covers IPv6 only. *)
Definition v6_only_info : SessionInfo :=
  mkSessionInfo 65010 7 90 [CapFourByteAsn 65010; CapGracefulRestart 0 120 [mkGrFamily IPV6_UNICAST false]]
    External (Some (IpV4 3232235778)).
Definition uncovered_ops : list DaemonOp :=
  from_peer one_ip (SeEstablished v6_only_info) ++ from_peer one_ip (SeRouteUpdate (imp_msg imp_attrs)) ++ [].
Definition uncovered_daemon : DaemonState := scenario (gr_cfg DefAccept) uncovered_ops.
Lemma uncovered_daemon_ok : daemon_ok uncovered_daemon.
Proof. apply scenario_ok. apply from_peer_ok; [exact I|]. apply from_peer_ok; [exact imp_full_ok|]. apply Forall_nil_2. Qed.
Lemma uncovered_enters : enter_gr one_ip TrUnclean uncovered_daemon = true /\ covered uncovered_daemon one_ip FamV4 = false.
Proof. split; vm_compute; reflexivity. Qed.
Lemma uncovered_candidate : is_Some (cands FamV4 uncovered_daemon !! (imp10, one_ip)).
Proof. apply (bool_decide_unpack (is_Some _)). vm_compute. exact I. Qed.
Lemma gr_uncovered_stay_witness : exists d', on_terminated one_ip TrUnclean 0 uncovered_daemon = Ok d'
  /\ held FamV4 d' one_ip = ∅ /\ is_Some (cands FamV4 d' !! (imp10, one_ip)).
Proof.
  destruct uncovered_candidate as [r Hr]. destruct uncovered_enters as [He Hc].
  destruct (gr_uncovered_stay FamV4 one_ip TrUnclean 0 uncovered_daemon imp10 r uncovered_daemon_ok He Hc Hr)
    as (d' & E & Hh & H). exists d'. split; [exact E|]. split; [exact Hh|]. eexists. exact H.
Defined.

(** An IPv6 route between two external peers. *)
Definition two_ip : IpAddr := IpV4 3232235778.
Definition v6_cfg : DaemonConfig :=
  mkDaemonConfig 65001 1 (Some 42540766411282592856903984951653826561) None None 90 120 false 0
    (map (fun x => mkPeerConfig x.1 x.2 (Some DefAccept) (Some DefAccept) (Some DefAccept) false false false
       None None None None None None 179 None None) [(one_ip, 65010); (two_ip, 65020)]).
Definition v6_info (asn : Z) : SessionInfo :=
  mkSessionInfo asn 7 90 [CapFourByteAsn asn; CapMultiProtocol IPV6_UNICAST] External (Some (IpV4 3232235779)).
Definition v6_nlri : Nlri FamV6 := ModelPrefix.nlri FamV6 42540766411282592856903984951653826560 32 eq_refl.
Definition v6_msg : UpdateMessage :=
  mkUpdate [] [PaOrigin Igp; PaAsPath (Path.from_sequence [65010]);
    PaMpReachNlri (mkMpReach IPV6_UNICAST (NhV6 42540766411282592856903984951653826562) [PfxV6 v6_nlri])] [].
Definition v6_daemon : DaemonState := scenario v6_cfg
  (from_peer one_ip (SeEstablished (v6_info 65010)) ++ from_peer two_ip (SeEstablished (v6_info 65020))
   ++ from_peer one_ip (SeRouteUpdate v6_msg) ++ []).
Lemma v6_msg_ok : msg_ok v6_msg.
Proof.
  split; [apply Forall_nil_2|]. split; [apply Forall_nil_2|].
  refine (Forall_cons_2 mp_ok (PaOrigin Igp) _ I (Forall_cons_2 mp_ok (PaAsPath _) _ I
    (Forall_cons_2 mp_ok (PaMpReachNlri _) _ _ (Forall_nil_2 _)))).
  right. left. split; [reflexivity|]. exists [v6_nlri]. split; [reflexivity|].
  refine (Forall_cons_2 canonical v6_nlri _ _ (Forall_nil_2 _)). exact (ModelPrefix.nlri_canonical FamV6 42540766411282592856903984951653826560 32 eq_refl eq_refl).
Qed.
Lemma v6_daemon_ok : daemon_ok v6_daemon.
Proof.
  apply scenario_ok. apply from_peer_ok; [exact I|]. apply from_peer_ok; [exact I|].
  apply from_peer_ok; [exact v6_msg_ok|]. apply Forall_nil_2.
Qed.
Lemma v6_only_one p : is_Some (cands FamV6 v6_daemon !! (v6_nlri, p)) -> p = one_ip.
Proof.
  assert (H : map_Forall (fun k _ => k.2 = one_ip) (cands FamV6 v6_daemon))
    by (apply (bool_decide_unpack (map_Forall _ _)); vm_compute; exact I).
  intros [r Hr]. exact (H (v6_nlri, p) r Hr).
Qed.
Lemma v6_advertised : is_Some (adj_ribs_out (ds_v6 v6_daemon) !! two_ip ≫= fun a => aro_get a v6_nlri).
Proof. apply (bool_decide_unpack (is_Some _)). vm_compute. exact I. Qed.
Lemma v6_clean : enter_gr one_ip TrOperatorStop v6_daemon = false.
Proof. vm_compute. reflexivity. Qed.
Lemma v6_nothing_queued : pending_decisions (ds_v6 v6_daemon) !! two_ip = None.
Proof.
  apply (eq_None_not_Some (pending_decisions (ds_v6 v6_daemon) !! two_ip)).
  apply (bool_decide_unpack (~ is_Some _)). vm_compute. exact I.
Qed.
Lemma v6_termination_not_propagated_witness : exists d' aro,
  on_terminated one_ip TrOperatorStop 0 v6_daemon = Ok d' /\ best (loc_rib (ds_v6 d')) v6_nlri = None
  /\ adj_ribs_out (ds_v6 d') !! two_ip = Some aro /\ aro_get aro v6_nlri <> None.
Proof.
  destruct v6_advertised as [r Hr].
  destruct (adj_ribs_out (ds_v6 v6_daemon) !! two_ip) as [aro|] eqn:Ea; [|discriminate Hr].
  change (aro_get aro v6_nlri = Some r) in Hr.
  destruct (v6_termination_not_propagated one_ip TrOperatorStop 0 v6_daemon v6_nlri two_ip aro r v6_daemon_ok
    v6_clean (fun H => False_ind _ ltac:(discriminate H)) v6_only_one Ea Hr v6_nothing_queued)
    as (d' & E & Hb & Ha & _).
  exists d', aro. split; [exact E|]. split; [exact Hb|]. split; [exact Ha|]. rewrite Hr. discriminate.
Defined.
End Applied.
