(* ===== verification/PropagationTheorems.v ===== *)
(** What propagation does to the established peers: each is treated once, on its
    own tables, and is brought to what it should be told. *)
From Stdlib Require Import ZArith Lia Bool.
From stdpp Require Import base tactics numbers decidable gmap list.
From S2P Require Import Prelude Addr Types AsPath Wire Header Notification Open Update Fsm Session RouteMap Roa Policy Route DaemonPolicy BestPath LocRib RibTheorems AdjRib Outbound OutboundTheorems HandleUpdate ImportTheorems Deferral Capabilities DaemonState Propagate Graceful PeerLifecycle RouteUpdate EventLoop DaemonFacts DaemonInvariant DaemonTheorems PeerTheorems.
Open Scope Z_scope.

Section Propagation.
Context `{P : IpPrefixOps} {M : RouteMapOps} {HO : HashOrder}.

(** What the peer should be told about a prefix now. *)
Definition wanted {f} (d : DaemonState) (ip : IpAddr) : Policy (Route f) -> AdjRibOut f -> Nlri f -> option (Route f) :=
  let pt := peer_type_of d ip in
  let nhs := bool_decide (ip ∈ next_hop_self_peers (ds_peers d)) in
  match f with
  | FamV4 => fun pol aro n =>
      advertised aro (fun r => prepare_outbound r pt (local_as (ds_local d)) (public_as d) (local_next_hop d ip) nhs)
        true n (loc_rib (ds_v4 d)) pol pt
  | FamV6 => fun pol aro n =>
      advertised aro (fun r => prepare_outbound_v6 r pt (local_as (ds_local d)) (public_as d)
          (local_ipv6 (ds_local d)) nhs)
        (negb (bool_decide (pt = External)) || match local_ipv6 (ds_local d) with Some _ => true | None => false end)
        n (loc_rib (ds_v6 d)) pol pt
  end.

Lemma prepare_nlri r pt las pub nh nhs : nlri (prepare_outbound r pt las pub nh nhs) = nlri r.
Proof. by destruct pt, nhs. Qed.
Lemma prepare_v6_nlri r pt las pub nh nhs : nlri (prepare_outbound_v6 r pt las pub nh nhs) = nlri r.
Proof. by destruct pt, nhs, nh. Qed.
Lemma best_nlri {f} (lr : LocRib f) n r : rib_ok lr -> best lr n = Some r -> nlri r = n.
Proof.
  intros Hok. unfold best. destruct (best_peer lr n) as [p|]; [|done]. cbn. apply (ok_nlri lr Hok).
Qed.

(** The decision is the difference to the table, which then holds what is
    wanted. *)
Lemma prefix_decision_spec {f} d ip (pol : Policy (Route f)) aro n : rib_ok (loc_rib (ds_fam d f)) -> keeps_nlri pol ->
  prefix_decision d ip (peer_type_of d ip) (local_next_hop d ip) false pol aro n
  = (aro_set_routes aro (update_to aro n (wanted d ip pol aro n) (aro_routes aro)),
     difference n (aro_routes aro !! n) (wanted d ip pol aro n)).
Proof.
  intros Hok Hk. destruct f; cbn [ds_fam] in Hok; apply propagate_spec; intros b Hb;
    rewrite Hk, ?prepare_nlri, ?prepare_v6_nlri; by apply (best_nlri _ _ _ Hok).
Qed.
(** [wanted] looks at the peer of the table, not at its routes. *)
Lemma wanted_routes {f} d ip (pol : Policy (Route f)) aro m n : wanted d ip pol (aro_set_routes aro m) n = wanted d ip pol aro n.
Proof. by destruct f. Qed.

(** One prefix of the table of a peer. *)
Definition told {f} (d : DaemonState) (ip : IpAddr) (pol : Policy (Route f)) (aro : AdjRibOut f)
    (m : gmap (Nlri f) (Route f)) (n : Nlri f) : gmap (Nlri f) (Route f) :=
  if rr_blocked d ip (peer_type_of d ip) n then m else update_to aro n (wanted d ip pol aro n) m.

Lemma told_routes {f} d ip (pol : Policy (Route f)) aro m :
  told d ip pol (aro_set_routes aro m) = told d ip pol aro.
Proof. by destruct f. Qed.
Lemma wanted_nlri {f} d ip (pol : Policy (Route f)) aro n r : rib_ok (loc_rib (ds_fam d f)) -> keeps_nlri pol ->
  wanted d ip pol aro n = Some r -> nlri r = n.
Proof.
  intros Hok Hk. destruct f; cbn [ds_fam] in Hok; apply advertised_nlri; intros b Hb;
    rewrite Hk, ?prepare_nlri, ?prepare_v6_nlri; by apply (best_nlri _ _ _ Hok).
Qed.
Lemma decide_all_spec {f} d ip (pol : Policy (Route f)) (l : list (Nlri f)) :
  rib_ok (loc_rib (ds_fam d f)) -> keeps_nlri pol -> forall aro,
  exists xs, decide_all (guarded_decision d ip (peer_type_of d ip) (local_next_hop d ip) false pol) aro l
      = (aro_set_routes aro (foldl (told d ip pol aro) (aro_routes aro) l), xs)
    /\ forall peer, in_sync aro peer ->
       in_sync (aro_set_routes aro (foldl (told d ip pol aro) (aro_routes aro) l)) (foldl peer_apply peer xs).
Proof.
  intros Hok Hk. induction l as [|n l IH]; intros aro; cbn [decide_all foldl].
  { exists []. split; [by destruct aro|]. by intros peer Hs. }
  unfold guarded_decision at 1, told at 2 4. destruct (rr_blocked d ip _ n).
  - destruct (IH aro) as (xs & -> & Hx). by exists (PdNoChange :: xs).
  - rewrite prefix_decision_spec by done. set (m := update_to _ _ _ _).
    destruct (IH (aro_set_routes aro m)) as (xs & -> & Hx). rewrite told_routes in *.
    eexists (_ :: xs). split; [reflexivity|]. intros peer Hs. cbn [foldl]. apply Hx.
    apply sync_step; [|exact Hs]. intros r. by apply wanted_nlri.
Qed.

(** The table after propagation of a list, prefix by prefix. *)
Lemma told_lookup {f} d ip (pol : Policy (Route f)) aro (l : list (Nlri f)) n : forall m,
  foldl (told d ip pol aro) m l !! n
  = if decide (n ∈ l) then
      if rr_blocked d ip (peer_type_of d ip) n then m !! n else stored aro <$> wanted d ip pol aro n
    else m !! n.
Proof.
  assert (E1 : forall k m, told d ip pol aro m k !! n
    = if decide (n = k) then
        if rr_blocked d ip (peer_type_of d ip) n then m !! n else stored aro <$> wanted d ip pol aro n
      else m !! n).
  { intros k m. unfold told. destruct (decide (n = k)) as [->|Hne].
    - destruct (rr_blocked _ _ _ _); [done|]. unfold update_to.
      destruct (wanted d ip pol aro k); [apply lookup_insert_eq|apply lookup_delete_eq].
    - destruct (rr_blocked _ _ _ _); [done|]. unfold update_to.
      destruct (wanted d ip pol aro k); [by apply lookup_insert_ne|by apply lookup_delete_ne]. }
  induction l as [|k l IH]; intros m; cbn [foldl].
  { rewrite decide_False; [done|apply not_elem_of_nil]. }
  rewrite IH, E1. destruct (decide (n = k)) as [->|Hne].
  - rewrite (decide_True (P := k ∈ k :: l)) by left. destruct (decide (k ∈ l)), (rr_blocked _ _ _ _); done.
  - assert (E : n ∈ k :: l <-> n ∈ l) by (rewrite elem_of_cons; tauto).
    by rewrite (decide_ext _ _ _ _ E).
Qed.

(** ** The loop over the peers *)
Definition out_of f (d : DaemonState) (q : IpAddr) := adj_ribs_out (ds_fam d f) !! q.
Definition queue_of f (d : DaemonState) (q : IpAddr) := pending_decisions (ds_fam d f) !! q.

(** A decision reads nothing that propagation writes. *)
Lemma guarded_decision_strip {f} d d' ip b : strip d' = strip d ->
  guarded_decision (f:=f) d' ip (peer_type_of d' ip) (local_next_hop d' ip) b
  = guarded_decision d ip (peer_type_of d ip) (local_next_hop d ip) b.
Proof.
  intros E.
  assert (H : forall d, guarded_decision (f:=f) (strip d) ip (peer_type_of (strip d) ip) (local_next_hop (strip d) ip) b
    = guarded_decision d ip (peer_type_of d ip) (local_next_hop d ip) b) by (intros d0; by destruct f).
  by rewrite <- (H d'), E, H.
Qed.
Lemma policies_strip d d' : strip d' = strip d -> policies (ds_peers d') = policies (ds_peers d).
Proof. intros E. exact (f_equal (fun d => policies (ds_peers d)) E). Qed.
Lemma established_strip d d' : strip d' = strip d -> established d' = established d.
Proof. intros E. exact (f_equal established E). Qed.
Lemma deferred_strip f d d' : strip d' = strip d -> deferred f d' = deferred f d.
Proof. intros E. exact (f_equal (deferred f) E). Qed.

Definition same_at f (q : IpAddr) (d d' : DaemonState) : Prop :=
  out_of f d' q = out_of f d q /\ queue_of f d' q = queue_of f d q /\ mrai_table d' q = mrai_table d q.
#[global] Instance same_at_preorder f q : PreOrder (same_at f q).
Proof. split; [by intros d|]. intros d1 d2 d3 (?&?&?) (?&?&?). split_and!; congruence. Qed.
Lemma same_set_aro {f} q ip (aro : AdjRibOut f) d : q <> ip -> same_at f q d (set_aro ip aro d).
Proof.
  intros Hq. unfold same_at, out_of, queue_of, set_aro. rewrite ds_fam_upd. split; [|by destruct f].
  by apply lookup_insert_ne.
Qed.
Lemma same_extend {f} q ip (xs : list (PrefixDecision f)) d : q <> ip -> same_at f q d (extend_pending ip xs d).
Proof.
  intros Hq. unfold same_at, out_of, queue_of, extend_pending. rewrite ds_fam_upd. split; [done|].
  split; [by apply lookup_insert_ne|by destruct f].
Qed.
Lemma same_mrai {f} q now ip (xs : list (PrefixDecision f)) d : q <> ip ->
  same_at f q d (fst (apply_mrai now ip xs d)).
Proof.
  intros Hq. destruct f; [|done]. unfold apply_mrai. destruct (bool_decide _); [|done].
  destruct (mrai_filter _ _ _) as [[ls pend] ?]. split; [done|]. split; [done|].
  unfold mrai_table. cbn [fst set_out ds_out out_set_mrai mrai_last_sent mrai_pending].
  by rewrite !lookup_insert_ne by done.
Qed.
Lemma propagate_peer_other {f} now (l : list (Nlri f)) d ip q : q <> ip ->
  same_at f q d (propagate_peer now l d ip).
Proof.
  intros Hq. unfold propagate_peer. destruct (export_policy _ f !! ip); [|done].
  destruct (adj_ribs_out _ !! ip) as [aro|]; [|done]. destruct (decide_all _ aro l) as [aro' xs].
  pose proof (same_mrai q (now ip) ip xs (set_aro ip aro' d) Hq) as H.
  destruct (apply_mrai _ _ _ _) as [d' xs']. cbn [fst] in H.
  etransitivity; [by apply (same_set_aro q ip aro')|]. etransitivity; [exact H|]. by apply same_extend.
Qed.
(** The peers MRAI holds back. *)
Definition paced (f : Family) (d : DaemonState) (ip : IpAddr) : bool :=
  match f with FamV4 => bool_decide (peer_type_of d ip = External) | FamV6 => false end.
(** The timers of the peer, and what is let through. *)
Definition pace (f : Family) : bool -> Instant -> MraiTable -> list (PrefixDecision f) -> MraiTable * list (PrefixDecision f) :=
  match f with
  | FamV4 => fun paced now t xs => if paced then mrai_filter now t xs else (t, xs)
  | FamV6 => fun _ _ t xs => (t, xs)
  end.
Lemma apply_mrai_spec {f} now ip (xs : list (PrefixDecision f)) d :
  let '(t, ys) := pace f (paced f d ip) now (mrai_table d ip) xs in
  snd (apply_mrai now ip xs d) = ys /\ mrai_table (fst (apply_mrai now ip xs d)) ip = t
  /\ ds_fam (fst (apply_mrai now ip xs d)) f = ds_fam d f.
Proof.
  destruct f; [|done]. unfold pace, paced, apply_mrai. destruct (bool_decide _); [|done].
  destruct (mrai_filter _ _ _) as [[ls pend] ys]. split; [done|]. split; [|done].
  unfold mrai_table. cbn [fst set_out ds_out out_set_mrai mrai_last_sent mrai_pending].
  by rewrite !lookup_insert_eq.
Qed.
Lemma propagate_peer_self {f} now (l : list (Nlri f)) d0 d ip pol aro aro' xs : strip d = strip d0 ->
  export_policy (policies (ds_peers d0)) f !! ip = Some pol -> out_of f d ip = Some aro ->
  decide_all (guarded_decision d0 ip (peer_type_of d0 ip) (local_next_hop d0 ip) (deferred f d0) pol) aro l = (aro', xs) ->
  let '(t, ys) := pace f (paced f d0 ip) (now ip) (mrai_table d ip) xs in
  out_of f (propagate_peer now l d ip) ip = Some aro'
  /\ queue_of f (propagate_peer now l d ip) ip = Some (default [] (queue_of f d ip) ++ ys)
  /\ mrai_table (propagate_peer now l d ip) ip = t.
Proof.
  intros E Hp Ha Hx. unfold propagate_peer.
  rewrite (policies_strip _ _ E), Hp, (deferred_strip f _ _ E). unfold out_of in Ha. rewrite Ha.
  rewrite (guarded_decision_strip _ _ ip _ E), Hx. set (d1 := set_aro ip aro' d).
  assert (Ep : paced f d1 ip = paced f d0 ip).
  { transitivity (paced f d ip); [by destruct f|exact (f_equal (fun d => paced f d ip) E)]. }
  assert (Et : mrai_table d1 ip = mrai_table d ip) by (by destruct f).
  pose proof (apply_mrai_spec (now ip) ip xs d1) as H. rewrite Ep, Et in H.
  destruct (pace f _ _ _ xs) as [t ys]. destruct (apply_mrai (now ip) ip xs d1) as [d2 xs'].
  cbn [fst snd] in H. destruct H as (-> & Ht & Ef).
  unfold out_of, queue_of, extend_pending. rewrite ds_fam_upd. cbn [adj_ribs_out pending_decisions fam_set_pending].
  rewrite Ef. unfold d1, set_aro. rewrite ds_fam_upd. cbn [adj_ribs_out pending_decisions fam_set_out].
  rewrite !lookup_insert_eq. split; [done|]. split; [done|]. rewrite <- Ht. by destruct f.
Qed.

Lemma foldl_peers {f} now (l : list (Nlri f)) q qs : NoDup qs -> forall d,
  (q ∉ qs -> same_at f q d (foldl (propagate_peer now l) d qs))
  /\ (q ∈ qs -> exists d1, strip d1 = strip d /\ same_at f q d d1
      /\ same_at f q (propagate_peer now l d1 q) (foldl (propagate_peer now l) d qs)).
Proof.
  induction 1 as [|ip qs Hip Hnd IH]; intros d; cbn [foldl].
  { split; [done|]. by intros ?%not_elem_of_nil. }
  destruct (IH (propagate_peer now l d ip)) as [H1 H2]. split.
  - intros [Hq Hn]%not_elem_of_cons. etransitivity; [by apply propagate_peer_other|by apply H1].
  - intros [->|Hq]%elem_of_cons; [by exists d; split_and!; [| |apply H1]|].
    destruct (H2 Hq) as (d1 & E & Hs & Hd). exists d1. split_and!; [|etransitivity; [|exact Hs]|exact Hd].
    + by rewrite E, strip_propagate_peer.
    + apply propagate_peer_other. by intros ->.
Qed.

(** In a deferred family nothing is decided. *)
Lemma decide_all_deferred {f} d ip nh (pol : Policy (Route f)) (l : list (Nlri f)) aro :
  decide_all (guarded_decision d ip (peer_type_of d ip) nh true pol) aro l = (aro, map (fun _ => PdNoChange) l).
Proof.
  assert (H : forall n, guarded_decision d ip (peer_type_of d ip) nh true pol aro n = (aro, PdNoChange)).
  { intros n. unfold guarded_decision. destruct (rr_blocked _ _ _ n); [done|]. by destruct f. }
  induction l as [|n l IH]; [done|]. cbn [decide_all map]. by rewrite H, IH.
Qed.
Lemma apply_nothing {f} (t : gmap (Nlri f) (Route f)) (l : list (Nlri f)) :
  foldl peer_apply t (map (fun _ => PdNoChange) l) = t.
Proof. by induction l. Qed.

Context {HL : HashOrderLaw}.
Lemma elem_of_established d q : q ∈ established d <-> is_Some (peer_types (ds_sess d) !! q).
Proof.
  unfold established. rewrite (hash_order_perm _ (map_to_list _)). rewrite list_elem_of_fmap. split.
  - intros ([q' pt] & -> & H%elem_of_map_to_list). by exists pt.
  - intros [pt H]. exists (q, pt). split; [done|]. by apply elem_of_map_to_list.
Qed.
Lemma propagated_peers f d : NoDup (List.filter (capable f d) (established d))
  /\ forall q, q ∈ List.filter (capable f d) (established d)
     <-> is_Some (peer_types (ds_sess d) !! q) /\ capable f d q = true.
Proof.
  split.
  - apply NoDup_ListNoDup, List.NoDup_filter, NoDup_ListNoDup. unfold established.
    rewrite (hash_order_perm _ (map_to_list _)). apply NoDup_fst_map_to_list.
  - intros q. rewrite !list_elem_of_In, List.filter_In, <- list_elem_of_In, elem_of_established. done.
Qed.
Lemma sync_all_same f q d : same_at f q d (sync_all f d).
Proof.
  unfold sync_all. generalize ((hash_order (map_to_list (adj_ribs_out (ds_fam d f)))).*1). intros ips.
  revert d. induction ips as [|ip ips IH]; intros d; [done|]. cbn [foldl]. etransitivity; [|apply IH]. by destruct f.
Qed.

(** An established peer is treated once. *)
Lemma propagate_self {f} now (l : list (Nlri f)) d q : is_Some (peer_types (ds_sess d) !! q) -> capable f d q = true ->
  exists d1, strip d1 = strip d /\ same_at f q d d1
    /\ same_at f q (propagate_peer now l d1 q) (propagate_to_all_peers now l d).
Proof.
  intros H1 H2. destruct (propagated_peers f d) as [Hnd Hin].
  destruct (foldl_peers now l q _ Hnd d) as [_ H]. destruct H as (d1 & E & Hs & Hd); [by apply Hin|].
  exists d1. split; [done|]. split; [done|]. etransitivity; [exact Hd|apply sync_all_same].
Qed.

(** An update that MRAI holds back is never sent.  The Adj-RIB-Out took the
    route when it was held back, so when the timer finds the prefix ready the
    decision for it is that nothing has changed: the pending mark is dropped and
    nothing is queued. *)
Theorem mrai_update_lost now later d q n pol aro r : daemon_ok d ->
  is_Some (peer_types (ds_sess d) !! q) -> deferred FamV4 d = false ->
  export_policy (policies (ds_peers d)) FamV4 !! q = Some pol -> keeps_nlri pol -> out_of FamV4 d q = Some aro ->
  mrai_pending (ds_out d) !! q = Some {[n]} -> mrai_ready now d q n = true ->
  rr_blocked d q (peer_type_of d q) n = false ->
  wanted d q pol aro n = Some r -> stored aro r = r -> aro_get aro n = Some r ->
  let d' := flush_mrai_peer now later d q in
  snd (mrai_table d' q) = ∅ /\ out_of FamV4 d' q = Some aro
  /\ queue_of FamV4 d' q = Some (default [] (queue_of FamV4 d q) ++ [PdNoChange]).
Proof.
  intros Hd Hest Hdef Hp Hk Ha Hpend Hready Hb Hw Hst Hg d'. subst d'. unfold flush_mrai_peer. rewrite Hpend.
  rewrite elements_singleton. assert (El : hash_order [n] = [n]) by (apply Permutation_singleton_r, hash_order_perm).
  rewrite El. cbn [List.filter]. rewrite Hready. cbn [negb list_to_set].
  set (d1 := set_mrai_pending q ∅ d).
  destruct (propagate_self (later q) [n] d1 q Hest eq_refl) as (d2 & E2 & (Ho & Hq & Hm) & (Ho' & Hq' & Hm')).
  rewrite Ho', Hq', Hm'. change (out_of FamV4 d1 q) with (out_of FamV4 d q) in Ho.
  change (queue_of FamV4 d1 q) with (queue_of FamV4 d q) in Hq. rewrite <- Ho in Ha.
  assert (Ex : decide_all (guarded_decision d1 q (peer_type_of d1 q) (local_next_hop d1 q) (deferred FamV4 d1) pol)
    aro [n] = (aro, [PdNoChange])).
  { change (deferred FamV4 d1) with (deferred FamV4 d). rewrite Hdef. cbn [decide_all]. unfold guarded_decision.
    change (rr_blocked d1 q (peer_type_of d1 q) n) with (rr_blocked d q (peer_type_of d q) n). rewrite Hb.
    change (prefix_decision d1) with (prefix_decision (f:=FamV4) d).
    change (peer_type_of d1 q) with (peer_type_of d q). change (local_next_hop d1 q) with (local_next_hop d q).
    rewrite prefix_decision_spec by (done || apply (fo_rib _ (dk_fam d Hd FamV4))). rewrite Hw.
    unfold aro_get in Hg. rewrite Hg. cbn [difference]. rewrite decide_True by done.
    cbn [update_to]. rewrite Hst, insert_id by done. by destruct aro. }
  pose proof (propagate_peer_self (later q) [n] d1 d2 q pol aro aro [PdNoChange] E2 Hp Ha Ex) as H.
  assert (Et : mrai_table d1 q = (default ∅ (mrai_last_sent (ds_out d) !! q), ∅)).
  { unfold mrai_table, d1. cbn [set_mrai_pending set_out ds_out mrai_last_sent mrai_pending].
    by rewrite lookup_insert_eq. }
  rewrite Hm, Et in H. rewrite <- Hq.
  assert (Epace : forall b, pace FamV4 b (later q q) (default ∅ (mrai_last_sent (ds_out d) !! q), ∅) [PdNoChange]
    = ((default ∅ (mrai_last_sent (ds_out d) !! q), ∅), [PdNoChange])) by (by intros []).
  rewrite Epace in H. destruct H as (H1 & H2 & ->). split_and!; [done|exact H1|exact H2].
Qed.

End Propagation.

(** ** The MRAI timers of one peer *)
Section Mrai.
Context `{P : IpPrefixOps}.

(** A decision: when it was filtered, as it was, and as it was let through. *)
Definition Paced : Type := Instant * PrefixDecision FamV4 * PrefixDecision FamV4.
Fixpoint mrai_run (t : MraiTable) (calls : list (Instant * list (PrefixDecision FamV4)))
    : MraiTable * list Paced :=
  match calls with
  | [] => (t, [])
  | (now, xs) :: calls =>
      let '(t, ys) := mrai_filter now t xs in
      let '(t, log) := mrai_run t calls in (t, zip (map (pair now) xs) ys ++ log)
  end.
(** When the prefix was last announced, and not withdrawn since. *)
Definition last_announced (n : Nlri FamV4) (log : list Paced) : option Instant :=
  foldl (fun o e => match e.2 with
    | PdAnnounce r => if decide (nlri r = n) then Some e.1.1 else o
    | PdWithdraw k => if decide (k = n) then None else o
    | PdNoChange => o end) None log.
(** Whether the last decision on the prefix was held back. *)
Definition held_back (n : Nlri FamV4) (log : list Paced) : bool :=
  foldl (fun o e => match e.1.2 with
    | PdAnnounce r => if decide (nlri r = n) then match e.2 with PdAnnounce _ => false | _ => true end else o
    | PdWithdraw k => if decide (k = n) then false else o
    | PdNoChange => o end) false log.

Record mrai_ok (t : MraiTable) (log : list Paced) : Prop := {
  mo_sent : forall n, fst t !! n = last_announced n log;
  mo_pending : forall n, n ∈ snd t <-> held_back n log = true;
}.
(** One decision. *)
Definition paced_ok (log : list Paced) (e : Paced) : Prop :=
  match e.1.2, e.2 with
  | PdAnnounce r, PdAnnounce r' => r' = r /\ forall t, last_announced (nlri r) log = Some t -> MRAI <= e.1.1 - t
  | PdAnnounce r, PdNoChange => exists t, last_announced (nlri r) log = Some t /\ e.1.1 - t < MRAI
  | x, y => y = x
  end.
Lemma mrai_decision_ok t log now x t' y : mrai_ok t log -> mrai_decision now t x = (t', y) ->
  mrai_ok t' (log ++ [(now, x, y)]) /\ paced_ok log (now, x, y).
Proof.
  intros [Hs Hp]. destruct t as [sent pend]. cbn [fst snd] in Hs, Hp. unfold mrai_decision.
  assert (Hl : forall n e, last_announced n (log ++ [e]) = match e.2 with
    | PdAnnounce r => if decide (nlri r = n) then Some e.1.1 else last_announced n log
    | PdWithdraw k => if decide (k = n) then None else last_announced n log
    | PdNoChange => last_announced n log end) by (intros n e; unfold last_announced; by rewrite foldl_app).
  assert (Hh : forall n e, held_back n (log ++ [e]) = match e.1.2 with
    | PdAnnounce r => if decide (nlri r = n) then match e.2 with PdAnnounce _ => false | _ => true end else held_back n log
    | PdWithdraw k => if decide (k = n) then false else held_back n log
    | PdNoChange => held_back n log end) by (intros n e; unfold held_back; by rewrite foldl_app).
  destruct x as [r|k|].
  - destruct (Z.leb_spec MRAI (match sent !! nlri r with Some t => Z.max 0 (now - t) | None => MRAI end)) as [He|He];
      intros [= <- <-].
    + split; [split; intros n; cbn [fst snd]|].
      * rewrite lookup_insert, Hl. cbn. destruct (decide _); [done|apply Hs].
      * rewrite Hh. cbn. rewrite elem_of_difference, elem_of_singleton.
        destruct (decide (nlri r = n)); [naive_solver|]. rewrite <- Hp. naive_solver.
      * cbn. split; [done|]. intros t Ht. rewrite Hs, Ht in He. unfold MRAI, from_secs in *. lia.
    + split; [split; intros n; cbn [fst snd]|].
      * rewrite Hl. apply Hs.
      * rewrite Hh. cbn. rewrite elem_of_union, elem_of_singleton.
        destruct (decide (nlri r = n)); [naive_solver|]. rewrite <- Hp. naive_solver.
      * cbn. rewrite Hs in He. destruct (last_announced (nlri r) log) as [t|]; [|lia].
        exists t. split; [done|]. lia.
  - intros [= <- <-]. split; [split; intros n; cbn [fst snd]|done].
    + rewrite lookup_delete, Hl. cbn. destruct (decide _); [done|apply Hs].
    + rewrite Hh. cbn. rewrite elem_of_difference, elem_of_singleton.
      destruct (decide (k = n)); [naive_solver|]. rewrite <- Hp. naive_solver.
  - intros [= <- <-]. split; [|done]. split; intros n; [rewrite Hl; apply Hs|rewrite Hh; apply Hp].
Qed.
Lemma mrai_filter_ok now xs : forall t log t' ys, mrai_ok t log -> mrai_filter now t xs = (t', ys) ->
  length ys = length xs
  /\ let new := zip (map (pair now) xs) ys in mrai_ok t' (log ++ new)
     /\ forall pre e post, new = pre ++ e :: post -> paced_ok (log ++ pre) e.
Proof.
  induction xs as [|x xs IH]; intros t log t' ys Ht; cbn [mrai_filter].
  { intros [= <- <-]. split; [done|]. cbn. rewrite app_nil_r. split; [done|]. by intros [|? ?] e post. }
  destruct (mrai_decision now t x) as [t1 y] eqn:E. destruct (mrai_filter now t1 xs) as [t2 ys2] eqn:E2.
  intros [= <- <-]. destruct (mrai_decision_ok _ _ _ _ _ _ Ht E) as [H1 Hp].
  destruct (IH _ _ _ _ H1 E2) as [Hl [H2 Hr]]. split; [cbn; by rewrite Hl|].
  cbn [map zip]. split; [by rewrite <- app_assoc in H2|].
  intros [|e0 pre] e post [= <- Hn]; [by rewrite app_nil_r|].
  specialize (Hr pre e post Hn). by rewrite <- app_assoc in Hr.
Qed.
Lemma mrai_run_ok calls : forall t log t' new, mrai_ok t log -> mrai_run t calls = (t', new) ->
  mrai_ok t' (log ++ new) /\ forall pre e post, new = pre ++ e :: post -> paced_ok (log ++ pre) e.
Proof.
  induction calls as [|[now xs] calls IH]; intros t log t' new Ht; cbn [mrai_run].
  { intros [= <- <-]. rewrite app_nil_r. split; [done|]. by intros [|? ?] e post. }
  destruct (mrai_filter now t xs) as [t1 ys] eqn:E. destruct (mrai_run t1 calls) as [t2 log2] eqn:E2.
  intros [= <- <-]. destruct (mrai_filter_ok _ _ _ _ _ _ Ht E) as [_ [H1 Hp]].
  destruct (IH _ _ _ _ H1 E2) as [H2 Hr]. rewrite <- app_assoc in H2. split; [done|].
  intros pre e post Hn. set (new := zip (map (pair now) xs) ys) in *.
  apply app_eq_app in Hn as (k & [[En Hk]|[-> Hk]]).
  - destruct k as [|e' k].
    + rewrite app_nil_r in En. specialize (Hr [] e post (eq_sym Hk)). by rewrite app_nil_r, En in Hr.
    + injection Hk as <- _. by eapply Hp.
  - specialize (Hr k e post Hk). by rewrite <- app_assoc in Hr.
Qed.

End Mrai.

(** ** Coalescing *)
Section Coalescing.
Context `{P : IpPrefixOps}.

(** A withdrawal that is queued behind an announcement of the same prefix is
    lost.  A flush sends all withdrawals first, so the peer is left with a route
    that the decisions, taken in order, remove. *)
Theorem coalesced_withdrawal_lost (r : Route FamV4) max_len pt four k sent table :
  let queue := [PdAnnounce r; PdWithdraw (nlri r)] in
  flush_updates queue max_len (mkSender (S (S k)) sent) pt four
    = (mkSender k (sent ++ [mkUpdate [nlri r] [] []; mkUpdate [] (route_to_attributes r pt four) [nlri r]]), true)
  /\ foldl peer_apply table queue !! nlri r = None.
Proof.
  split; [|apply lookup_delete_eq]. unfold flush_updates. cbn [foldl collect_decision add_to_group app].
  cbn [send_batches app try_send tx_free tx_sent send_groups]. by rewrite <- app_assoc.
Qed.
End Coalescing.

(** ** Histories that meet the hypotheses *)
Section Applied.
#[local] Existing Instances ModelPrefix.ops ModelPrefix.laws ModelRouteMap.ops ModelRouteMap.laws.
#[local] Existing Instances ModelHashOrder.order ModelHashOrder.order_law.

(** Two external peers; the first announces 10/8. *)
Definition pair_daemon (more : list DaemonOp) : DaemonState := scenario v6_cfg
  (from_peer one_ip (SeEstablished one_info) ++ from_peer two_ip (SeEstablished (v6_info 65020))
   ++ OpEvent one_ip (SeRouteUpdate (imp_msg imp_attrs)) :: more).
Lemma pair_daemon_ok more : Forall daemon_op_ok more -> daemon_ok (pair_daemon more).
Proof.
  intros H. apply scenario_ok. apply from_peer_ok; [exact I|]. apply from_peer_ok; [exact I|].
  apply Forall_cons_2; [exact imp_full_ok|exact H].
Qed.

(** A second path for the prefix, one second later. *)
Definition later_attrs : list PathAttribute :=
  [PaOrigin Igp; PaAsPath (Path.from_sequence [65010; 65011]); PaNextHop 3232235777].
Lemma later_msg_ok : msg_ok (imp_msg later_attrs).
Proof.
  split; [apply Forall_nil_2|]. split; [exact (Forall_cons_2 canonical imp10 _ imp10_canonical (Forall_nil_2 _))|].
  exact (Forall_cons_2 mp_ok (PaOrigin Igp) _ I (Forall_cons_2 mp_ok (PaAsPath _) _ I
    (Forall_cons_2 mp_ok (PaNextHop _) _ I (Forall_nil_2 _)))).
Qed.
Definition clocks_at (t : Instant) : Clocks := fun _ => mkClock (fun _ _ => 0) t (fun _ => t).
Definition held_daemon : DaemonState := pair_daemon
  [OpLoop (ArmEvent one_clocks); OpEvent one_ip (SeRouteUpdate (imp_msg later_attrs));
   OpLoop (ArmEvent (clocks_at (from_secs 1)))].
Lemma held_daemon_ok : daemon_ok held_daemon.
Proof.
  apply (pair_daemon_ok [OpLoop (ArmEvent one_clocks); OpEvent one_ip (SeRouteUpdate (imp_msg later_attrs));
    OpLoop (ArmEvent (clocks_at (from_secs 1)))]).
  apply Forall_cons_2; [exact I|]. apply Forall_cons_2; [exact later_msg_ok|].
  apply Forall_cons_2; [exact I|apply Forall_nil_2].
Qed.
Lemma held_policy : export_policy (policies (ds_peers held_daemon)) FamV4 !! two_ip = Some (policy_new DefAccept).
Proof. reflexivity. Qed.
Lemma new_keeps : keeps_nlri (f:=FamV4) (policy_new DefAccept).
Proof. intros r. reflexivity. Qed.
Lemma held_established : is_Some (peer_types (ds_sess held_daemon) !! two_ip).
Proof. apply (bool_decide_unpack (is_Some _)). vm_compute. exact I. Qed.
Lemma held_not_deferred : deferred FamV4 held_daemon = false.
Proof. vm_compute. reflexivity. Qed.
Lemma held_unblocked : rr_blocked held_daemon two_ip (peer_type_of held_daemon two_ip) imp10 = false.
Proof. vm_compute. reflexivity. Qed.
Lemma held_pending : mrai_pending (ds_out held_daemon) !! two_ip = Some {[imp10]}.
Proof. apply (bool_decide_unpack (_ = _)). vm_compute. exact I. Qed.
Lemma held_ready : mrai_ready (from_secs 31) held_daemon two_ip imp10 = true.
Proof. vm_compute. reflexivity. Qed.
(** The Adj-RIB-Out has the second route already. *)
Definition in_step (o : option (AdjRibOut FamV4)) : bool :=
  match o with
  | Some aro => match wanted held_daemon two_ip (policy_new DefAccept) aro imp10, aro_get aro imp10 with
      | Some r, Some r' => bool_decide (r = r') && bool_decide (stored aro r = r)
      | _, _ => false end
  | None => false
  end.
Lemma held_in_step : in_step (out_of FamV4 held_daemon two_ip) = true.
Proof. vm_compute. reflexivity. Qed.
Lemma in_step_spec o : in_step o = true -> exists aro r, o = Some aro
  /\ wanted held_daemon two_ip (policy_new DefAccept) aro imp10 = Some r /\ stored aro r = r
  /\ aro_get aro imp10 = Some r.
Proof.
  destruct o as [aro|]; [|done]. unfold in_step.
  destruct (wanted held_daemon two_ip (policy_new DefAccept) aro imp10) as [r|] eqn:Ew; [|done].
  destruct (aro_get aro imp10) as [r'|] eqn:Eg; [|done].
  intros [H1%bool_decide_eq_true H2%bool_decide_eq_true]%andb_true_iff. subst r'.
  exists aro, r. split; [reflexivity|]. exact (conj Ew (conj H2 Eg)).
Qed.

Lemma mrai_update_lost_witness : exists r aro,
  wanted held_daemon two_ip (policy_new DefAccept) aro imp10 = Some r
  /\ queue_of FamV4 (flush_mrai_peer (from_secs 31) (fun _ _ => from_secs 31) held_daemon two_ip) two_ip
     = Some (default [] (queue_of FamV4 held_daemon two_ip) ++ [PdNoChange]).
Proof.
  destruct (in_step_spec _ held_in_step) as (aro & r & Ho & Hw & Hs & Hg).
  destruct (mrai_update_lost (from_secs 31) (fun _ _ => from_secs 31) held_daemon two_ip imp10 (policy_new DefAccept)
    aro r held_daemon_ok held_established held_not_deferred held_policy new_keeps Ho held_pending held_ready
    held_unblocked Hw Hs Hg) as (_ & _ & H).
  exists r, aro. split; [exact Hw|exact H].
Defined.

(** An announcement and its withdrawal in one turn of the loop: the peer is told
    of the route last, although its Adj-RIB-Out is empty. *)
Definition coalesced_daemon : DaemonState := pair_daemon
  [OpEvent one_ip (SeRouteUpdate (mkUpdate [imp10] [] [])); OpLoop (ArmEvent one_clocks)].
Example coalesced_history :
  (match update_senders (ds_out coalesced_daemon) !! two_ip with
   | Some tx => match rev (tx_sent tx) with
       | m :: _ => bool_decide (Update.announced m = [imp10]) | [] => false end
   | None => false end
   && match out_of FamV4 coalesced_daemon two_ip with
      | Some aro => bool_decide (aro_get aro imp10 = None) | None => false end) = true.
Proof. vm_compute. reflexivity. Qed.
End Applied.
