(* ===== verification/IdleHold.v ===== *)
(** The hold of a peer that exceeded its prefix limits: the restart deadline that is
    recorded for it stays, and no session of it is taken up, whatever the tasks of the
    daemon do until the deadline. *)
From Stdlib Require Import ZArith Lia Bool.
From stdpp Require Import base tactics numbers decidable gmap list.
From S2P Require Import Prelude Addr Types AsPath Wire Header Notification Open Update Fsm Session RouteMap Roa Policy Route DaemonPolicy BestPath LocRib RibTheorems AdjRib Outbound HandleUpdate ImportTheorems Deferral Capabilities DaemonState Propagate Graceful PeerLifecycle RouteUpdate EventLoop DaemonFacts DaemonInvariant.
Open Scope Z_scope.

Section Views.
Context `{P : IpPrefixOps} {M : RouteMapOps} {HO : HashOrder}.

(** ** What most operations leave alone *)
Definition hold_view (d : DaemonState) : gmap IpAddr Z * gmap IpAddr Instant * gset IpAddr * gmap IpAddr Instant :=
  (peer_max_prefixes_restart (ds_peers d), max_prefix_idle (ds_peers d), pending_removal (ds_peers d),
   established_at (ds_sess d)).
Definition stays_view {A} (π : A -> DaemonState) (d : DaemonState) (r : Outcome False A) : Prop :=
  forall a, r = Ok a -> hold_view (π a) = hold_view d.

Lemma kept_strip d d' : strip d' = strip d -> hold_view d' = hold_view d.
Proof. intros E. exact (f_equal hold_view E). Qed.
Lemma kept_upd_fam {f} (g : Fam f -> Fam f) d : hold_view (upd_fam g d) = hold_view d.
Proof. by destruct f. Qed.
Lemma stays_ok {A} (π : A -> DaemonState) d a : hold_view (π a) = hold_view d -> stays_view π d (Ok a).
Proof. by intros E a' [= <-]. Qed.
Lemma stays_bind {A B} (π : A -> DaemonState) (ρ : B -> DaemonState) d r k :
  stays_view π d r -> (forall a, stays_view ρ (π a) (k a)) -> stays_view ρ d (a ← r; k a).
Proof.
  intros Hr Hk b E. destruct r as [a| | |]; [|done..]. cbn [mbind outcome_bind] in E.
  by rewrite (Hk a b E), (Hr a eq_refl).
Qed.
Lemma stays_eq {A} (π : A -> DaemonState) d d' r : hold_view d' = hold_view d -> stays_view π d' r -> stays_view π d r.
Proof. intros E H a Ha. by rewrite (H a Ha), E. Qed.
Lemma stays_upd {f A} (π : A -> DaemonState) (g : Fam f -> Fam f) d r :
  stays_view π (upd_fam g d) r -> stays_view π d r.
Proof. apply stays_eq, kept_upd_fam. Qed.
Lemma stays_rib {f A} (r : Outcome False (LocRib f * A)) d :
  stays_view (fst (B:=A)) d ('(lr, c) ← r; Ok (upd_fam (fam_set_rib lr) d, c)).
Proof.
  intros [d' c] E. destruct r as [[lr c']| | |]; [|done..]. injection E as <- _. apply kept_upd_fam.
Qed.
Lemma stays_insert_all {f} ip (rs : list (Route f)) : forall d, stays_view fst d (rib_insert_all ip rs d).
Proof.
  induction rs as [|r rs IH]; intros d; cbn [rib_insert_all]; [by apply stays_ok|].
  eapply (stays_bind fst); [apply stays_rib|]. intros [d1 c]. cbn [fst].
  eapply (stays_bind fst); [apply IH|]. intros [d2 cs]. by apply stays_ok.
Qed.
Lemma stays_withdraw_all {f} ip (ns : list (Nlri f)) : forall d, stays_view fst d (rib_withdraw_all ip ns d).
Proof.
  induction ns as [|n ns IH]; intros d; cbn [rib_withdraw_all]; [by apply stays_ok|].
  eapply (stays_bind fst); [apply stays_rib|]. intros [d1 c]. cbn [fst].
  eapply (stays_bind fst); [apply IH|]. intros [d2 cs]. by apply stays_ok.
Qed.

Lemma kept_fib_calls cs d : hold_view (fib_calls cs d) = hold_view d.
Proof. apply kept_strip, strip_fib_calls. Qed.
Lemma kept_repropagate {f} ip (l : list (Nlri f)) d : hold_view (repropagate ip l d) = hold_view d.
Proof. apply kept_strip, strip_repropagate. Qed.
Lemma kept_propagate {f} now (l : list (Nlri f)) d : hold_view (propagate_to_all_peers now l d) = hold_view d.
Proof. apply kept_strip, strip_propagate. Qed.
Lemma kept_emit {f} (l : list (Nlri f)) d : hold_view (emit_events l d) = hold_view d.
Proof. apply kept_strip, strip_emit_events. Qed.
Lemma kept_emit_route l d : hold_view (emit_route_events l d) = hold_view d.
Proof. apply kept_strip, strip_emit_route_events. Qed.
Lemma kept_blackhole f ip d : hold_view (withdraw_peer_blackhole_kernel_routes f ip d) = hold_view d.
Proof. apply kept_strip, strip_blackhole. Qed.
Lemma kept_reset_aro f ip pt d : hold_view (reset_aro f ip pt d) = hold_view d.
Proof. apply kept_strip, strip_reset_aro. Qed.
Lemma kept_flush_pending d : hold_view (flush_pending d) = hold_view d.
Proof. apply kept_strip, strip_flush_pending. Qed.
Lemma kept_dump f ip d : hold_view (fst (dump_family f ip d)) = hold_view d.
Proof. apply kept_strip, strip_dump_family. Qed.
Lemma kept_clear_in f ip d : hold_view (clear_in f ip d) = hold_view d.
Proof. unfold clear_in. destruct (adj_ribs_in _ !! ip); [apply kept_upd_fam|done]. Qed.
Lemma kept_remove_stale f ip d : hold_view (remove_stale f ip d) = hold_view d.
Proof. apply kept_upd_fam. Qed.
Lemma kept_recompute d : hold_view (recompute_selection_deferral d) = hold_view d.
Proof.
  unfold recompute_selection_deferral. destruct (sd_recompute _ _ _) as [sd released].
  exact (f_equal hold_view (strip_catch_up released (set_deferral sd d))).
Qed.
Lemma kept_refresh_stale {f} ip (l : list (Nlri f)) d : hold_view (refresh_stale ip l d) = hold_view d.
Proof. unfold refresh_stale. destruct (stale_nlri _ !! ip); [apply kept_upd_fam|done]. Qed.
Lemma kept_snapshot_stale f ip d : hold_view (snapshot_stale f ip d) = hold_view d.
Proof. unfold snapshot_stale. destruct (bool_decide _); [done|apply kept_upd_fam]. Qed.
Lemma kept_flush_and_take d : hold_view (fst (flush_and_take d)) = hold_view d.
Proof. exact (kept_flush_pending d). Qed.
End Views.
#[export] Hint Rewrite @kept_upd_fam @kept_fib_calls @kept_repropagate @kept_propagate @kept_emit
  @kept_emit_route @kept_blackhole @kept_reset_aro @kept_flush_pending @kept_dump @kept_clear_in
  @kept_remove_stale @kept_recompute @kept_refresh_stale @kept_snapshot_stale : hold_view.

(** A result whose state is made by such operations. *)
Ltac keep := apply stays_ok; unfold id, fib_apply; by autorewrite with hold_view.

Section Held.
Context `{P : IpPrefixOps} {M : RouteMapOps} {HO : HashOrder}.

(** ** Operations that change none of it *)
Lemma stays_withdraw_peer f ip d : stays_view fst d (rib_withdraw_peer f ip d).
Proof. apply stays_rib. Qed.
Lemma stays_mark_stale f ip d : stays_view id d (mark_stale f ip d).
Proof.
  unfold mark_stale. destruct (adj_ribs_in _ !! ip) as [t|]; [|by apply stays_ok].
  destruct (mark_all_stale t) as [t' stale]. destruct stale as [|r rs]; [keep|].
  eapply (stays_upd (f:=f)). eapply (stays_bind fst); [apply stays_insert_all|].
  intros [d1 cs]. keep.
Qed.
Lemma stays_prune {f} ip (s : gset (Nlri f)) d : stays_view id d (prune_stale_nlri ip s d).
Proof.
  unfold prune_stale_nlri. set (d1 := match adj_ribs_in _ !! ip with Some _ => _ | None => _ end).
  assert (E1 : hold_view d1 = hold_view d).
  { unfold d1. destruct (adj_ribs_in _ !! ip); [|done]. by autorewrite with hold_view. }
  eapply stays_eq; [exact E1|]. eapply (stays_bind fst); [apply stays_withdraw_all|].
  intros [d2 cs]. keep.
Qed.
Lemma stays_end_of_rib f ip d : stays_view id d (end_of_rib f ip d).
Proof.
  unfold end_of_rib. eapply (stays_upd (f:=f)).
  eapply (stays_bind id); [|intros d1; keep].
  destruct (stale_nlri _ !! ip) as [s|]; [|by apply stays_ok].
  destruct (bool_decide _); [keep|].
  eapply stays_eq; [apply kept_remove_stale|apply stays_prune].
Qed.
(** Both ends of a session drop the peer's routes from the RIBs. *)
Ltac drop_peer := match goal with |- stays_view _ ?d (mbind _ (rib_withdraw_peer _ _ ?x)) =>
    apply (stays_eq _ d x); [by autorewrite with hold_view|] end;
  eapply (stays_bind fst); [apply stays_withdraw_peer|]; intros [d1 cs];
  eapply (stays_bind fst); [apply stays_withdraw_peer|]; intros [d2 cs6]; keep.
Lemma stays_gr_deadline ip d : stays_view id d (on_gr_deadline_expired ip d).
Proof. unfold on_gr_deadline_expired. drop_peer. Qed.
Lemma stays_terminate_clean ip d : stays_view id d (terminate_clean ip d).
Proof. unfold terminate_clean. drop_peer. Qed.
Lemma stays_terminate_gr ip rt now d : stays_view id d (terminate_gr ip rt now d).
Proof.
  unfold terminate_gr, mark_stale_and_repropagate, flush_uncovered. set (d1 := set_deadlines _ _).
  apply (stays_eq id d d1).
  { unfold d1. change (hold_view (set_deadlines ?a ?b)) with (hold_view b). repeat case_match; by autorewrite with hold_view. }
  eapply (stays_bind id); [case_match; [apply stays_mark_stale|by apply stays_ok]|].
  intros d2. case_match; [apply stays_mark_stale|by apply stays_ok].
Qed.
Lemma stays_fib_change now d : stays_view id d (on_fib_change now d).
Proof.
  unfold on_fib_change. eapply (stays_bind fst); [apply stays_rib|]. intros [d1 cs].
  eapply (stays_bind fst); [apply stays_rib|]. intros [d2 cs6]. apply stays_ok.
  unfold id, fib_apply. repeat case_match; by autorewrite with hold_view.
Qed.
Lemma stays_expire_all ips : forall d, stays_view id d (expire_all ips d).
Proof.
  induction ips as [|ip ips IH]; intros d; cbn [expire_all]; [by apply stays_ok|].
  eapply (stays_bind id); [apply stays_gr_deadline|]. intros d1. apply IH.
Qed.
Lemma stays_reevaluate_peer ip now d : stays_view id d (reevaluate_import_for_peer ip now d).
Proof.
  assert (H : forall f d, stays_view id d (reevaluate_family (f:=f) ip now d)).
  { clear d. intros f d. unfold reevaluate_family.
    destruct (adj_ribs_in _ !! ip) as [t|]; [|done].
    destruct (import_policy (policies (ds_peers d)) f !! ip) as [pol|]; [|done].
    intros d' E. destruct (reapply_import_policy _ _ _ _ _) as [[lr cs]| | |]; [|done..].
    injection E as <-. unfold id, fib_apply. by autorewrite with hold_view. }
  eapply (stays_bind id); [apply H|]. intros d1. apply H.
Qed.
Lemma stays_reevaluate ips now : forall d, stays_view id d (reevaluate_peers ips now d).
Proof.
  induction ips as [|ip ips IH]; intros d; cbn [reevaluate_peers]; [by apply stays_ok|].
  eapply (stays_bind id); [apply stays_reevaluate_peer|]. intros d1. apply IH.
Qed.
Lemma stays_originate {f} (rs : list (Route f)) now d : stays_view id d (originate_routes rs now d).
Proof.
  unfold originate_routes. eapply (stays_bind id); [|intros d1; keep].
  revert d. induction rs as [|r rs IH]; intros d; cbn [originate_each]; [by apply stays_ok|].
  eapply (stays_bind id); [|intros d1; apply IH]. unfold originate_one.
  match goal with |- stays_view _ _ (mbind _ (rib_insert _ _ ?x)) => apply (stays_eq id d x) end.
  { change (hold_view (send_event ?e ?b)) with (hold_view b). apply kept_upd_fam. }
  eapply (stays_bind fst); [apply stays_rib|]. intros [d1 c]. destruct f; apply stays_ok; [done|].
  unfold id, fib_apply. by autorewrite with hold_view.
Qed.
Lemma stays_withdraw_originated {f} (ns : list (Nlri f)) now d : stays_view id d (withdraw_originated_routes ns now d).
Proof.
  unfold withdraw_originated_routes.
  eapply (stays_bind id); [|intros d1; keep].
  revert d. induction ns as [|n ns IH]; intros d; cbn [withdraw_originated_each]; [by apply stays_ok|].
  eapply (stays_bind id); [|intros d1; apply IH]. unfold withdraw_originated_one.
  eapply (stays_upd (f:=f)). eapply (stays_bind fst); [apply stays_rib|]. intros [d1 c].
  apply stays_ok. unfold id, fib_apply. change (hold_view (send_event ?e ?b)) with (hold_view b). by autorewrite with hold_view.
Qed.
Lemma stays_import_default ip a now d : stays_view id d (set_import_default ip a now d).
Proof.
  unfold set_import_default. destruct (import_policies (policies (ds_peers d)) !! ip), (import_policies_v6 (policies (ds_peers d)) !! ip); try done; try by apply stays_ok.
  apply (stays_eq id d (set_policies (tables_set_import_default (policies (ds_peers d)) ip a) d)); [done|].
  eapply (stays_bind id); [apply stays_reevaluate_peer|]. intros d1. keep.
Qed.
Lemma stays_export_default ip a d : stays_view id d (set_export_default ip a d).
Proof.
  unfold set_export_default. destruct (export_policies (policies (ds_peers d)) !! ip), (export_policies_v6 (policies (ds_peers d)) !! ip); try done; try by apply stays_ok.
  set (d1 := set_policies _ d). assert (E1 : hold_view d1 = hold_view d) by done.
  destruct (peer_types _ !! ip) as [pt|]; apply stays_ok; [|done]. unfold id. rewrite <- E1. apply kept_strip.
  rewrite strip_sync_advertised. destruct (capable _ _ _); by rewrite !strip_reexport.
Qed.
End Held.

(** * The hold of one peer *)
Section Run.
Context `{P : IpPrefixOps} {M : RouteMapOps} {HO : HashOrder}.
(** The peer, its restart time, when it exceeded a limit, and its session then. *)
Context (ip : IpAddr) (secs : Z) (since : Instant) (session : option Instant).

Record on_hold (d : DaemonState) : Prop := {
  hd_restart : peer_max_prefixes_restart (ds_peers d) !! ip = Some secs;
  hd_idle : exists t : Instant, max_prefix_idle (ds_peers d) !! ip = Some t /\ since + from_secs secs <= t;
  hd_stays : ip ∉ pending_removal (ds_peers d);
  hd_session : established_at (ds_sess d) !! ip = session \/ established_at (ds_sess d) !! ip = None;
}.
Definition stays_on_hold {A} (π : A -> DaemonState) (d : DaemonState) (r : Outcome False A) : Prop :=
  on_hold d -> forall a, r = Ok a -> on_hold (π a).

Lemma onhold_view d d' : hold_view d' = hold_view d -> on_hold d -> on_hold d'.
Proof. unfold hold_view. intros [= E1 E2 E3 E4] [H1 H2 H3 H4]. by split; rewrite ?E1, ?E2, ?E3, ?E4. Qed.
Lemma onhold_strip d d' : strip d' = strip d -> on_hold d -> on_hold d'.
Proof. intros E. by apply onhold_view, kept_strip. Qed.
Lemma onhold_kept {A} (π : A -> DaemonState) d r : stays_view π d r -> stays_on_hold π d r.
Proof. intros Hv Hd a E. exact (onhold_view _ _ (Hv a E) Hd). Qed.
Lemma onhold_ok {A} (π : A -> DaemonState) d a : (on_hold d -> on_hold (π a)) -> stays_on_hold π d (Ok a).
Proof. intros H Hd a' [= <-]. auto. Qed.
Lemma onhold_bind {A B} (π : A -> DaemonState) (ρ : B -> DaemonState) d r k :
  stays_on_hold π d r -> (forall a, stays_on_hold ρ (π a) (k a)) -> stays_on_hold ρ d (a ← r; k a).
Proof.
  intros Hr Hk Hd b E. destruct r as [a| | |]; [|done..]. exact (Hk a (Hr Hd a eq_refl) b E).
Qed.
Lemma onhold_from {A} (π : A -> DaemonState) d d' r : (on_hold d -> on_hold d') -> stays_on_hold π d' r -> stays_on_hold π d r.
Proof. intros H Hr Hd. exact (Hr (H Hd)). Qed.

Lemma idle_held_true d : on_hold d -> idle_held ip d = true.
Proof. intros [_ (t & E & _) _ _]. unfold idle_held. by rewrite E. Qed.

(** ** Sessions *)
Lemma onhold_established ip' info now d : ip' <> ip -> on_hold d -> on_hold (on_established ip' info now d).
Proof.
  intros Hne. unfold on_established. set (d1 := upd_fam (fun x : Fam FamV6 => _) _).
  set (d2 := if _ && _ then reset_aro _ _ _ _ else d1). intros Hd.
  assert (H2 : on_hold d2).
  { assert (He : forall d0, hold_view d0 = hold_view d -> on_hold (enter_session ip' info now d0)).
    { intros d0 E. destruct (onhold_view _ _ E Hd) as [H1 H2 H3 H4]. split; [exact H1|exact H2|exact H3|].
      cbn [enter_session set_sess ds_sess established_at]. by rewrite lookup_insert_ne. }
    assert (Hr : forall b d0, hold_view d0 = hold_view d -> on_hold (reset_aro FamV4 ip' b (enter_session ip' info now d0)))
      by (intros b d0 E; eapply onhold_view; [apply kept_reset_aro|by apply He]).
    unfold d2, d1. destruct (_ && _); [|eapply onhold_view; [apply kept_upd_fam|]]; apply Hr;
      repeat case_match; unfold remove_eor; by autorewrite with hold_view. }
  set (d3 := set_aro _ _ d2). apply (onhold_strip d2 d3 (strip_set_aro _ _ _)) in H2.
  destruct (export_policies _ !! ip') as [pol|]; [|done]. destruct (adj_ribs_out _ !! ip'); [|done].
  destruct (update_senders _ !! ip'); [|done]. eapply onhold_view; [apply kept_recompute|].
  unfold set_gr_capability_of. destruct (extract_gr_capability _) as [[[[adv time] fams] nb] rb].
  apply (onhold_view d3); [|exact H2]. destruct time; change (hold_view (set_gr ?a ?b)) with (hold_view b);
    change (hold_view (set_sess (mkSessions _ (established_at (ds_sess ?b)) _ _ _ _ _ _ _ _ _ _ _) ?b)) with (hold_view b);
    repeat case_match; by autorewrite with hold_view.
Qed.
Lemma onhold_leave ip' d : on_hold d -> on_hold (leave_session ip' d).
Proof.
  intros [H1 H2 H3 H4]. split; [exact H1|exact H2|exact H3|].
  change (established_at (ds_sess (leave_session ip' d))) with (delete ip' (established_at (ds_sess d))).
  destruct (decide (ip' = ip)) as [->|Hne]; [right; apply lookup_delete_eq|by rewrite lookup_delete_ne].
Qed.
Lemma onhold_on_terminated ip' reason now d : stays_on_hold id d (on_terminated ip' reason now d).
Proof.
  unfold on_terminated. eapply onhold_from; [apply (onhold_leave ip')|]. apply onhold_kept.
  destruct (enter_gr _ _ _); [apply stays_terminate_gr|apply stays_terminate_clean].
Qed.
Lemma onhold_remove_peer ip' d : ip' <> ip -> on_hold d -> on_hold (fst (remove_peer ip' d)).
Proof.
  intros Hne [H1 H2 H3 H4]. unfold remove_peer. destruct (adj_ribs_in (ds_v4 d) !! ip'); [|by split].
  cbn [fst]. eapply onhold_view; [apply kept_recompute|].
  split; cbn [set_obs set_sess set_out set_gr set_peers ds_peers ds_sess peer_max_prefixes_restart max_prefix_idle
    pending_removal established_at remove_session]; [by rewrite lookup_delete_ne| |exact H3|by rewrite lookup_delete_ne].
  destruct H2 as (t & E & Ht). exists t. by rewrite lookup_delete_ne.
Qed.
(** A peer of which nobody has asked the removal stays when its session ends. *)
Lemma onhold_terminated ip' reason now stops d : stays_on_hold (fun x => x.1.1) d (terminated ip' reason now stops d).
Proof.
  intros Hd. unfold terminated. assert (Hu : on_hold (unmark_removal ip' d)).
  { destruct Hd as [H1 H2 H3 H4]. split; [exact H1|exact H2|cbn [unmark_removal set_peers ds_peers pending_removal]; set_solver|exact H4]. }
  revert Hu. change (stays_on_hold (fun x : DaemonState * gset IpAddr * bool => x.1.1) (unmark_removal ip' d)
    (d0 ← on_terminated ip' reason now (unmark_removal ip' d);
     if bool_decide (ip' ∈ pending_removal (ds_peers d)) then Ok (fst (remove_peer ip' d0), stops ∖ {[ip']}, true)
     else Ok (d0, stops, false))).
  eapply (onhold_bind id); [apply onhold_on_terminated|]. intros d0. case_bool_decide as Hp; apply onhold_ok; [|done].
  cbn [fst]. apply onhold_remove_peer. intros ->. by destruct Hd as [_ _ H3 _].
Qed.

(** ** UPDATEs *)
Lemma onhold_hold_idle ip' now d : since <= now -> on_hold d -> on_hold (hold_idle ip' now d).
Proof.
  intros Hn [H1 H2 H3 H4]. unfold hold_idle. destruct (peer_max_prefixes_restart _ !! ip') as [s|] eqn:Es; [|by split].
  split; cbn [set_peers ds_peers ds_sess peer_max_prefixes_restart max_prefix_idle pending_removal]; try done.
  destruct (decide (ip' = ip)) as [->|Hne].
  - assert (s = secs) as -> by congruence. exists (now + from_secs secs). rewrite lookup_insert_eq. split; [done|lia].
  - by rewrite lookup_insert_ne.
Qed.
Lemma onhold_after_update ip' clock msg s4 s6 note d : since <= ck_now clock -> on_hold d ->
  on_hold (fst (after_update ip' clock msg s4 s6 note d)).
Proof.
  intros Hn Hd. unfold after_update. destruct (_ || _); [by apply onhold_hold_idle|]. cbn [fst].
  apply (onhold_strip d); [|exact Hd]. unfold fib_update.
  destruct (nonempty (affected_v6 msg)); by autorewrite with strip.
Qed.
Lemma onhold_route_update ip' clock msg d : since <= ck_now clock -> stays_on_hold fst d (on_route_update ip' clock msg d).
Proof.
  intros Hn. unfold on_route_update.
  assert (Heor : forall f, stays_on_hold (fst (B:=option NotificationMessage)) d (d ← end_of_rib f ip' d; Ok (d, None)))
    by (intros f; eapply (onhold_bind id); [apply onhold_kept, stays_end_of_rib|intros d1; by apply onhold_ok]).
  destruct (is_eor_v4 msg); [apply Heor|]. destruct (is_eor_v6 msg); [apply Heor|].
  destruct (rr_inbound ip' d msg) as [msg'|]; [|by apply onhold_ok]. unfold import_update.
  destruct (import_policies (policies (ds_peers d)) !! ip') as [pol|]; [|by apply onhold_ok].
  destruct (import_policies_v6 (policies (ds_peers d)) !! ip') as [pol6|]; [|by apply onhold_ok].
  destruct (adj_ribs_in (ds_v4 d) !! ip') as [t4|]; [|by apply onhold_ok].
  set (d1 := refresh_stale ip' (mp_reach_v6 (attributes msg')) (refresh_stale ip' (Update.announced msg') d)).
  assert (E1 : hold_view d1 = hold_view d) by (unfold d1; by autorewrite with hold_view).
  intros Hd a E. destruct (handle_update _ _ _ _ _ _) as [[[s4 s6] note]| | |]; [|done..]. injection E as <-.
  apply onhold_after_update; [done|]. eapply onhold_view; [|exact Hd]. rewrite <- E1. by autorewrite with hold_view.
Qed.

(** ** The event loop *)
Definition onhold_clocks (ck : Clocks) : Prop := forall n, since <= ck_now (ck n).
Lemma onhold_drain ck q : onhold_clocks ck -> forall i idle stops d,
  stays_on_hold (fun x => x.1.1.1.1) d (drain ck i q idle stops d).
Proof.
  intros Hck. induction q as [|[ip' [info|reason|msg]] q IH]; intros i idle stops d; cbn [drain].
  - by apply onhold_ok.
  - destruct (idle_held ip' d) eqn:Ei; [apply IH|]. intros Hd. revert Hd.
    apply (onhold_from _ d (on_established ip' info (ck_now (ck i)) d)); [|apply IH].
    intros Hd. apply onhold_established; [|done]. intros ->. by rewrite (idle_held_true d Hd) in Ei.
  - eapply onhold_bind; [apply onhold_terminated|]. intros [[d1 stops1] b]. apply IH.
  - eapply onhold_bind; [by apply onhold_route_update|]. intros [d1 [err|]]; cbn [fst]; [by apply onhold_ok|]. apply IH.
Qed.
Definition stays_loop (d : DaemonState) (r : Outcome False (EventLoop * Output)) : Prop :=
  stays_on_hold (fun x => el_daemon x.1) d r.
Lemma onhold_flushed d q stops (out : list IpAddr -> Output) : stays_loop d (Ok (
  let '(d, stalled) := flush_and_take d in (mkEventLoop d q stops, out stalled))).
Proof.
  apply onhold_ok. pose proof (kept_flush_and_take d) as E. destruct (flush_and_take d) as [d' stalled].
  by apply onhold_view.
Qed.
Lemma onhold_finish ck q stops d : onhold_clocks ck -> stays_loop d (finish ck q stops d).
Proof.
  intros Hck. unfold finish. eapply onhold_bind; [by apply onhold_drain|].
  intros [[[[d1 stops1] idle] [[ip' err]|]] q']; cbn [fst].
  - apply onhold_flushed.
  - apply (onhold_flushed d1 q' stops1 (fun stalled => stop_all stops1 stalled ++ stop_all stops1 idle)).
Qed.
Lemma onhold_event_arm ck l : onhold_clocks ck -> stays_loop (el_daemon l) (event_arm ck l).
Proof.
  intros Hck. unfold event_arm. destruct (el_queue l) as [|[ip' [info|reason|msg]] q].
  - by apply onhold_ok.
  - destruct (idle_held ip' (el_daemon l)) eqn:Ei; [by apply onhold_ok|]. intros Hd. revert Hd.
    eapply onhold_from; [|by apply onhold_finish]. intros Hd. apply onhold_established; [|done].
    intros ->. by rewrite (idle_held_true _ Hd) in Ei.
  - eapply onhold_bind; [apply onhold_terminated|]. intros [[d1 stops1] b]. by apply onhold_ok.
  - eapply onhold_bind; [by apply onhold_route_update|]. intros [d1 [err|]]; cbn [fst].
    + apply onhold_flushed.
    + by apply onhold_finish.
Qed.

(** ** Every task of the daemon *)

(** The peer is not removed, the clocks do not run backwards, and the arm of the
    expired deadlines runs only before the deadline. *)
Definition holding (op : DaemonOp) : Prop :=
  match op with
  | OpLoop (ArmEvent ck) => onhold_clocks ck
  | OpLoop (ArmIdleExpired now) => now < since + from_secs secs
  | OpAddPeer _ _ peer _ => pc_address peer <> ip
  | OpRemovePeer ip' => ip' <> ip
  | _ => True
  end.
Lemma onhold_expire_idle now d : now < since + from_secs secs -> on_hold d -> on_hold (expire_idle now d).
Proof.
  intros Hn [H1 (t & E & Ht) H3 H4]. split; [exact H1| |exact H3|exact H4]. exists t. split; [|done].
  cbn [expire_idle set_peers ds_peers max_prefix_idle]. apply map_lookup_filter_Some. split; [done|]. cbn. lia.
Qed.
Lemma onhold_loop_step l a : holding (OpLoop a) -> stays_loop (el_daemon l) (loop_step l a).
Proof.
  intros Ha. destruct a as [ck|ck|now| |now|now later]; cbn [loop_step holding] in *.
  - by apply onhold_event_arm.
  - eapply (onhold_bind id); [apply onhold_kept, stays_fib_change|]. intros d1. apply onhold_flushed.
  - destruct (drain_expired now (ds_gr (el_daemon l))) as [g expired].
    eapply (onhold_bind id); [|intros d1; destruct expired; apply onhold_ok; [done|by apply onhold_view]].
    eapply onhold_from; [|apply onhold_kept, stays_expire_all]. by apply onhold_view.
  - eapply onhold_from; [|apply onhold_flushed]. apply onhold_view. unfold force_release_selection_deferral.
    destruct (force_release _) as [sd released].
    exact (f_equal hold_view (strip_catch_up released (set_deferral sd (el_daemon l)))).
  - apply onhold_ok. by apply onhold_expire_idle.
  - set (d1 := flush_pending (el_daemon l)). assert (H1 : on_hold (el_daemon l) -> on_hold d1)
      by apply onhold_view, kept_flush_pending.
    destruct (has_mrai_pending d1); [|by apply onhold_ok]. eapply onhold_from; [exact H1|].
    eapply onhold_from; [apply onhold_strip, (strip_flush_mrai now later d1)|]. apply onhold_flushed.
Qed.
Lemma onhold_add_peer sc now peer tx l : pc_address peer <> ip -> on_hold (el_daemon l) ->
  on_hold (el_daemon (fst (add_peer_command sc now peer tx l))).
Proof.
  intros Hne [H1 H2 H3 H4]. unfold add_peer_command. destruct (adj_ribs_in _ !! _) eqn:Ea; [by split|].
  cbn [fst el_daemon]. unfold add_peer. rewrite Ea. cbn [fst]. split; [|exact H2|exact H3|exact H4].
  cbn [set_out set_peers ds_peers peer_max_prefixes_restart]. unfold insert_some.
  destruct (positive _); [by rewrite lookup_insert_ne|exact H1].
Qed.
Lemma onhold_remove_command ip' l : ip' <> ip -> on_hold (el_daemon l) ->
  on_hold (el_daemon (fst (remove_peer_command ip' l))).
Proof.
  intros Hne [H1 H2 H3 H4]. unfold remove_peer_command. destruct (adj_ribs_in _ !! ip'); [|by split].
  destruct (bool_decide _); cbn [fst el_daemon]; (split; [exact H1|exact H2| |exact H4]);
    cbn [mark_removal set_peers ds_peers pending_removal]; set_solver.
Qed.
Lemma onhold_op l op : holding op -> stays_loop (el_daemon l) (daemon_op l op).
Proof.
  intros Ho. assert (Hs : forall r, stays_view id (el_daemon l) r ->
    stays_loop (el_daemon l) (d ← r; Ok (set_daemon l d, []))).
  { intros r Hv. eapply (onhold_bind id); [by apply onhold_kept|]. intros d1. by apply onhold_ok. }
  destruct op; cbn [daemon_op holding] in *.
  - by apply onhold_loop_step.
  - by apply onhold_ok.
  - by apply onhold_ok, onhold_view.
  - by apply onhold_ok, onhold_view.
  - apply Hs. unfold reevaluate_all_import_policies. eapply (stays_bind id); [apply stays_reevaluate|].
    intros d1. keep.
  - by apply onhold_ok, onhold_add_peer.
  - intros Hd a E. injection E as <-. by apply onhold_remove_command.
  - apply Hs, stays_originate.
  - apply Hs, stays_withdraw_originated.
  - apply Hs, stays_import_default.
  - apply Hs, stays_export_default.
Qed.
Lemma onhold_run ops : Forall holding ops -> forall l, stays_loop (el_daemon l) (daemon_run l ops).
Proof.
  induction 1 as [|op ops Ho _ IH]; intros l; cbn [daemon_run]; [by apply onhold_ok|].
  eapply onhold_bind; [by apply onhold_op|]. intros [l1 out1]. cbn [fst].
  eapply onhold_bind; [apply IH|]. intros [l2 out2]. by apply onhold_ok.
Qed.
(** A session it establishes in the meantime is stopped, and nothing else happens. *)
Lemma onhold_refused l ck info q : on_hold (el_daemon l) -> el_queue l = (ip, SeEstablished info) :: q ->
  event_arm ck l = Ok (mkEventLoop (el_daemon l) q (el_stops l), command (el_stops l) ip ScStop).
Proof. intros Hd E. unfold event_arm. by rewrite E, idle_held_true. Qed.
End Run.
