(* ===== verification/RouteTheorems.v ===== *)
(** What a received UPDATE does to the whole daemon: the tables of its peer, the
    prefix limits, the forwarding table. *)
From Stdlib Require Import ZArith Lia Bool.
From stdpp Require Import base tactics numbers decidable gmap list.
From S2P Require Import Prelude Addr Types AsPath Wire Header Notification Open Update Fsm Session RouteMap Roa Policy Route DaemonPolicy BestPath LocRib RibTheorems AdjRib Outbound OutboundTheorems HandleUpdate ImportTheorems Deferral Capabilities DaemonState Propagate Graceful PeerLifecycle RouteUpdate EventLoop DaemonFacts DaemonInvariant DaemonTheorems PeerTheorems IdleHold.
Open Scope Z_scope.

Section UpdateImport.
Context `{P : IpPrefixOps} {M : RouteMapOps} {HO : HashOrder}.
Context {L : IpPrefixLaws} {ML : RouteMapLaws} {HL : HashOrderLaw}.

(** Everything of the state an import reads, besides the tables. *)
Lemma refresh_stale_ctx {f} ip (l : list (Nlri f)) pol pol6 ck ip' d :
  update_ctx ip' pol pol6 ck (refresh_stale ip l d) = update_ctx ip' pol pol6 ck d.
Proof. unfold refresh_stale. destruct (stale_nlri _ !! ip); [|done]. by destruct f. Qed.
(** Both families after an import. *)
Record imported (ip : IpAddr) (s4 : Side FamV4) (s6 : Side FamV6) (d d' : DaemonState) : Prop := {
  im_rib4 : loc_rib (ds_v4 d') = s_rib s4;
  im_rib6 : loc_rib (ds_v6 d') = s_rib s6;
  im_in4 : adj_ribs_in (ds_v4 d') = <[ip := s_in s4]> (adj_ribs_in (ds_v4 d));
  im_in6 : adj_ribs_in (ds_v6 d') = <[ip := s_in s6]> (adj_ribs_in (ds_v6 d));
  im_max : forall f, peer_max_prefixes (ds_fam d' f) = peer_max_prefixes (ds_fam d f);
}.
Lemma imported_same ip s4 s6 d d1 d2 : imported ip s4 s6 d d1 ->
  (forall f, loc_rib (ds_fam d2 f) = loc_rib (ds_fam d1 f) /\ adj_ribs_in (ds_fam d2 f) = adj_ribs_in (ds_fam d1 f)
     /\ peer_max_prefixes (ds_fam d2 f) = peer_max_prefixes (ds_fam d1 f)) -> imported ip s4 s6 d d2.
Proof.
  intros [H1 H2 H3 H4 H5] H. destruct (H FamV4) as (A1 & A2 & A3), (H FamV6) as (B1 & B2 & B3).
  cbn [ds_fam] in *. split; [congruence..|]. intros f. rewrite <- H5. apply H.
Qed.
Lemma strip_imported ip s4 s6 d d1 d2 : strip d2 = strip d1 -> imported ip s4 s6 d d1 -> imported ip s4 s6 d d2.
Proof.
  intros E Hi. apply (imported_same _ _ _ _ d1); [done|]. intros f.
  pose proof (core_fam f _ _ (strip_core _ _ E)) as Ef. split; [exact (f_equal loc_rib Ef)|].
  split; [exact (f_equal adj_ribs_in Ef)|by apply strip_max].
Qed.

Lemma import_update_spec ip clock msg d pol pol6 t4 t6 : daemon_ok d -> msg_ok msg ->
  import_policies (policies (ds_peers d)) !! ip = Some pol ->
  import_policies_v6 (policies (ds_peers d)) !! ip = Some pol6 ->
  adj_ribs_in (ds_v4 d) !! ip = Some t4 -> adj_ribs_in (ds_v6 d) !! ip = Some t6 ->
  let cx := update_ctx ip pol pol6 (ck_route clock) d in
  exists s4 s6 d2, import_update ip clock msg d = Ok (after_update ip clock msg s4 s6 (plan_notification cx msg) d2)
    /\ side_refines ip pol (oracle (ds_v4 d)) t4 (loc_rib (ds_v4 d)) (plan_v4 cx msg) s4
    /\ side_refines ip pol6 (oracle (ds_v6 d)) t6 (loc_rib (ds_v6 d)) (plan_v6 cx msg) s6
    /\ imported ip s4 s6 d d2 /\ ds_peers d2 = ds_peers d /\ ds_obs d2 = ds_obs d.
Proof.
  intros Hd Hmsg Ep Ep6 Et Et6 cx. unfold import_update. rewrite Ep, Ep6, Et, Et6. cbn [default from_option id].
  set (d1 := refresh_stale ip (mp_reach_v6 _) _).
  assert (Ecx : update_ctx ip pol pol6 (ck_route clock) d1 = cx) by (unfold d1; by rewrite !refresh_stale_ctx).
  rewrite Ecx.
  assert (Hlr : forall f, loc_rib (ds_fam d1 f) = loc_rib (ds_fam d f) /\ oracle (ds_fam d1 f) = oracle (ds_fam d f)
    /\ adj_ribs_in (ds_fam d1 f) = adj_ribs_in (ds_fam d f) /\ peer_max_prefixes (ds_fam d1 f) = peer_max_prefixes (ds_fam d f)).
  { intros f. unfold d1, refresh_stale. destruct (stale_nlri (ds_fam d FamV4) !! ip);
      destruct (stale_nlri (ds_fam _ FamV6) !! ip); by destruct f. }
  assert (Hpo : ds_peers d1 = ds_peers d /\ ds_obs d1 = ds_obs d).
  { unfold d1, refresh_stale. destruct (stale_nlri (ds_fam d FamV4) !! ip);
      by destruct (stale_nlri (ds_fam _ FamV6) !! ip). }
  destruct (Hlr FamV4) as (L4 & _ & I4 & _), (Hlr FamV6) as (L6 & _ & I6 & _). cbn [ds_fam] in *.
  rewrite L4, L6.
  assert (Hk : keeps_nlri pol) by (by eapply nlri_terms_keep, (dk_policy d Hd FamV4)).
  assert (Hk6 : keeps_nlri pol6) by (by eapply nlri_terms_keep, (dk_policy d Hd FamV6)).
  destruct (handle_update_spec cx msg t4 (loc_rib (ds_v4 d)) t6 (loc_rib (ds_v6 d)) Hmsg
      (fo_rib _ (dk_fam d Hd FamV4)) (fo_rib _ (dk_fam d Hd FamV6)) Hk Hk6) as (s4 & s6 & E & R4 & R6).
  rewrite E. cbn [mbind outcome_bind]. exists s4, s6. eexists. split; [reflexivity|]. split; [exact R4|].
  split; [exact R6|]. split; [|exact Hpo]. split.
  - done.
  - done.
  - cbn. by rewrite I4.
  - cbn. by rewrite I6, Et6.
  - intros f. transitivity (peer_max_prefixes (ds_fam d1 f)); [by destruct f|apply Hlr].
Qed.

(** *** The calls to the FIB manager *)
Definition fib_of (d : DaemonState) : option (list FibCall) := fib_manager (ds_obs d).
Lemma fib_of_calls cs : forall d, fib_of (fib_calls cs d) = (fun log => log ++ cs) <$> fib_of d.
Proof.
  induction cs as [|c cs IH]; intros d.
  - cbn. unfold fib_of. destruct (fib_manager (ds_obs d)); cbn; [by rewrite app_nil_r|done].
  - change (fib_calls (c :: cs) d) with (fib_calls cs (fib_call c d)). rewrite IH. unfold fib_of, fib_call.
    cbn [set_obs ds_obs fib_manager]. destruct (fib_manager (ds_obs d)); cbn; [by rewrite <- app_assoc|done].
Qed.
Lemma foldl_fib {A} (g : DaemonState -> A -> DaemonState) : (forall d a, fib_of (g d a) = fib_of d) ->
  forall l d, fib_of (foldl g d l) = fib_of d.
Proof. intros H l. induction l as [|a l IH]; intros d; [done|]. cbn [foldl]. by rewrite IH. Qed.
Lemma fib_of_emit l d : fib_of (emit_route_events l d) = fib_of d.
Proof. by apply foldl_fib. Qed.
Lemma fib_of_propagate {f} now (l : list (Nlri f)) d : fib_of (propagate_to_all_peers now l d) = fib_of d.
Proof.
  unfold propagate_to_all_peers, sync_all. rewrite foldl_fib by done. apply foldl_fib. intros d0 ip.
  unfold propagate_peer. destruct (export_policy _ f !! ip); [|done].
  destruct (adj_ribs_out _ !! ip) as [aro|]; [|done]. destruct (decide_all _ aro l) as [aro' xs].
  assert (H : fib_of (fst (apply_mrai (now ip) ip xs (set_aro ip aro' d0))) = fib_of d0).
  { destruct f; [|done]. unfold apply_mrai. destruct (bool_decide _); [|done].
    by destruct (mrai_filter _ _ _) as [[] ?]. }
  destruct (apply_mrai _ _ _ _) as [d1 ys]. cbn [fst] in H. rewrite <- H. by destruct f.
Qed.

(** What an import asks of the FIB manager. *)
Definition update_calls (s4 : Side FamV4) (s6 : Side FamV6) (d : DaemonState) : list FibCall :=
  map (FibApply FamV4) (s_changes s4) ++ map (FibApply FamV6) (s_changes s6)
  ++ map (FibBlackhole FamV4) (s_bh_announced s4) ++ map (FibBlackhole FamV6) (s_bh_announced s6)
  ++ concat (map (reinstall d) (s_bh_withdrawn s4)) ++ concat (map (reinstall d) (s_bh_withdrawn s6)).
Definition over_limits (d : DaemonState) (ip : IpAddr) : bool :=
  exceeds (peer_max_prefixes (ds_v4 d) !! ip) (size (held FamV4 d ip))
  || exceeds (peer_max_prefixes (ds_v6 d) !! ip) (size (held FamV6 d ip)).
Lemma imported_held ip s4 s6 d d' : imported ip s4 s6 d d' ->
  held FamV4 d' ip = ari_routes (s_in s4) /\ held FamV6 d' ip = ari_routes (s_in s6).
Proof. intros [_ _ H3 H4 _]. unfold held. cbn [ds_fam]. by rewrite H3, H4, !lookup_insert_eq. Qed.
Lemma over_limits_same d d' ip : (forall f, peer_max_prefixes (ds_fam d' f) = peer_max_prefixes (ds_fam d f)) ->
  (forall f, held f d' ip = held f d ip) -> over_limits d' ip = over_limits d ip.
Proof.
  intros Hm Hh. unfold over_limits. rewrite !Hh.
  change (ds_v4 d') with (ds_fam d' FamV4). change (ds_v6 d') with (ds_fam d' FamV6). by rewrite !Hm.
Qed.
Lemma imported_same_limits ip s4 s6 d d1 d2 : imported ip s4 s6 d d1 -> imported ip s4 s6 d d2 ->
  over_limits d2 ip = over_limits d1 ip.
Proof.
  intros H1 H2. apply over_limits_same; [intros f; by rewrite (im_max _ _ _ _ _ H1), (im_max _ _ _ _ _ H2)|].
  destruct (imported_held _ _ _ _ _ H1) as [A4 A6], (imported_held _ _ _ _ _ H2) as [B4 B6].
  intros []; congruence.
Qed.

Lemma after_update_spec ip clock msg s4 s6 note d d2 : imported ip s4 s6 d d2 ->
  exists d' note', after_update ip clock msg s4 s6 note d2 = (d', note') /\ imported ip s4 s6 d d'
  /\ (if over_limits d' ip
      then note' = Some max_prefix_notification /\ fib_of d' = fib_of d2
           /\ max_prefix_idle (ds_peers d')
             = match peer_max_prefixes_restart (ds_peers d2) !! ip with
               | Some secs => <[ip := ck_now clock + from_secs secs]> (max_prefix_idle (ds_peers d2))
               | None => max_prefix_idle (ds_peers d2) end
           /\ peer_max_prefixes_restart (ds_peers d') = peer_max_prefixes_restart (ds_peers d2)
      else note' = note /\ fib_of d' = (fun log => log ++ update_calls s4 s6 d2) <$> fib_of d2).
Proof.
  intros Hi. unfold after_update. destruct (imported_held _ _ _ _ _ Hi) as [H4 H6].
  assert (Eo : exceeds (peer_max_prefixes (ds_v4 d2) !! ip) (ari_len (s_in s4))
     || exceeds (peer_max_prefixes (ds_v6 d2) !! ip) (ari_len (s_in s6)) = over_limits d2 ip)
    by (unfold over_limits, ari_len; by rewrite H4, H6).
  rewrite Eo. destruct (over_limits d2 ip) eqn:Ed.
  - eexists _, _. split; [reflexivity|]. assert (Hi' : imported ip s4 s6 d (hold_idle ip (ck_now clock) d2)).
    { apply (imported_same _ _ _ _ d2); [done|]. intros f. unfold hold_idle.
      by destruct (peer_max_prefixes_restart _ !! ip), f. }
    split; [exact Hi'|]. rewrite (imported_same_limits _ _ _ _ _ _ Hi Hi'), Ed. split; [done|].
    unfold hold_idle. by destruct (peer_max_prefixes_restart _ !! ip) eqn:Es; cbn; rewrite ?Es.
  - eexists _, _. split; [reflexivity|]. set (d3 := sync_received ip (fib_update s4 s6 d2)).
    set (d4 := propagate_to_all_peers _ (affected_v4 msg) d3).
    set (d5 := if nonempty (affected_v6 msg) then _ else d4). set (d6 := emit_route_events _ d5).
    assert (Es : strip d6 = strip d2).
    { unfold d6, d5, d4, d3, fib_update. destruct (nonempty (affected_v6 msg)); by autorewrite with strip. }
    assert (Hi' : imported ip s4 s6 d d6) by (by eapply strip_imported).
    split; [exact Hi'|]. rewrite (imported_same_limits _ _ _ _ _ _ Hi Hi'), Ed. split; [done|].
    unfold d6. rewrite fib_of_emit. assert (E5 : fib_of d5 = fib_of d4)
      by (unfold d5; destruct (nonempty _); [apply fib_of_propagate|done]).
    rewrite E5. unfold d4. rewrite fib_of_propagate. exact (fib_of_calls (update_calls s4 s6 d2) d2).
Qed.

(** ** Claims *)
Lemma route_update_spec ip clock msg msg' d pol pol6 t4 t6 : daemon_ok d -> msg_ok msg ->
  is_eor_v4 msg = false -> is_eor_v6 msg = false -> rr_inbound ip d msg = Some msg' ->
  import_policies (policies (ds_peers d)) !! ip = Some pol ->
  import_policies_v6 (policies (ds_peers d)) !! ip = Some pol6 ->
  adj_ribs_in (ds_v4 d) !! ip = Some t4 -> adj_ribs_in (ds_v6 d) !! ip = Some t6 ->
  let cx := update_ctx ip pol pol6 (ck_route clock) d in
  exists s4 s6 d' note calls, on_route_update ip clock msg d = Ok (d', note)
    /\ side_refines ip pol (oracle (ds_v4 d)) t4 (loc_rib (ds_v4 d)) (plan_v4 cx msg') s4
    /\ side_refines ip pol6 (oracle (ds_v6 d)) t6 (loc_rib (ds_v6 d)) (plan_v6 cx msg') s6
    /\ imported ip s4 s6 d d'
    /\ (if over_limits d' ip
        then note = Some max_prefix_notification /\ fib_of d' = fib_of d
             /\ forall secs, peer_max_prefixes_restart (ds_peers d) !! ip = Some secs ->
                max_prefix_idle (ds_peers d') !! ip = Some (ck_now clock + from_secs secs)
                /\ peer_max_prefixes_restart (ds_peers d') !! ip = Some secs
        else note = plan_notification cx msg' /\ fib_of d' = (fun log => log ++ calls) <$> fib_of d)
    /\ exists rest, calls = map (FibApply FamV4) (s_changes s4) ++ map (FibApply FamV6) (s_changes s6)
         ++ map (FibBlackhole FamV4) (s_bh_announced s4) ++ map (FibBlackhole FamV6) (s_bh_announced s6) ++ rest.
Proof.
  intros Hd Hm H4 H6 Hr Hp Hp6 Ht Ht6 cx. unfold on_route_update. rewrite H4, H6, Hr.
  destruct (import_update_spec ip clock msg' d pol pol6 t4 t6 Hd (rr_inbound_ok _ _ _ _ Hr Hm) Hp Hp6 Ht Ht6)
    as (s4 & s6 & d2 & E & R4 & R6 & Hi & Ep & Eo).
  fold cx in E, R4, R6. rewrite E.
  destruct (after_update_spec ip clock msg' s4 s6 (plan_notification cx msg') d d2 Hi)
    as (d' & note & E' & Hi' & Ha). rewrite E'.
  exists s4, s6, d', note, (update_calls s4 s6 d2). split; [done|]. split; [done|]. split; [done|].
  split; [done|]. rewrite <- Ep. unfold fib_of in *. rewrite Eo in Ha. split.
  - destruct (over_limits d' ip); [|exact Ha]. destruct Ha as (H1 & H2 & H3 & H5). split_and!; [done|done|].
    intros secs Hs. rewrite H3, H5, Hs. split; [apply lookup_insert_eq|done].
  - eexists. unfold update_calls. reflexivity.
Qed.


Lemma plan_never_max cx msg : plan_notification cx msg <> Some max_prefix_notification.
Proof.
  unfold plan_notification. repeat case_match; done.
Qed.
Lemma exceeds_mono o (n m : nat) : (n <= m)%nat -> exceeds o m = false -> exceeds o n = false.
Proof. destruct o as [lim|]; cbn; [|done]. rewrite !Z.ltb_ge. lia. Qed.
(** An End-of-RIB marker only removes routes. *)
Lemma end_of_rib_limits f ip d : daemon_ok d -> over_limits d ip = false ->
  exists d', end_of_rib f ip d = Ok d' /\ over_limits d' ip = false.
Proof.
  intros Hd Ho. assert (Hsub : forall d', (forall f', peer_max_prefixes (ds_fam d' f') = peer_max_prefixes (ds_fam d f')) ->
    (forall f', (size (held f' d' ip) <= size (held f' d ip))%nat) -> over_limits d' ip = false).
  { intros d' Hm Hs. unfold over_limits in *. apply orb_false_iff in Ho as [H4 H6].
    change (ds_v4 d') with (ds_fam d' FamV4). change (ds_v6 d') with (ds_fam d' FamV6). rewrite !Hm.
    apply orb_false_iff. split; [exact (exceeds_mono _ _ _ (Hs FamV4) H4)|exact (exceeds_mono _ _ _ (Hs FamV6) H6)]. }
  destruct (stale_nlri (ds_fam d f) !! ip) as [s|] eqn:Es.
  - destruct (end_of_rib_spec f ip d s Hd Es) as (d' & E & [_ Hh] & Hoth & _ & Hm). exists d'. split; [done|].
    apply Hsub; [done|]. intros f'. destruct (decide (f' = f)) as [->|Hf].
    + apply map_subseteq_size, map_subseteq_spec. intros n r. rewrite Hh. destruct (decide _); [done|by intros].
    + destruct (Hoth f' Hf) as [_ E2]. unfold held. by rewrite E2.
  - unfold end_of_rib. rewrite ds_fam_upd. cbn [stale_nlri fam_set_eor]. rewrite Es. cbn [mbind outcome_bind].
    eexists. split; [reflexivity|]. set (d1 := upd_fam _ d). destruct (strip_recompute d1) as [sd Er].
    apply Hsub; intros f'.
    + rewrite (strip_max f' _ _ Er). by destruct f, f'.
    + rewrite (tables_held _ _ f' ip (strip_tables _ _ Er)). by destruct f, f'.
Qed.

(** What the daemon does with a peer whose restart deadline has been recorded. *)
Definition held_until (ip : IpAddr) (secs : Z) (since : Instant) (d : DaemonState) : Prop :=
  max_prefix_idle (ds_peers d) !! ip = Some (since + from_secs secs)
  /\ (ip ∉ pending_removal (ds_peers d) -> forall l ops l' out, el_daemon l = d ->
        Forall (holding ip secs since) ops -> daemon_run l ops = Ok (l', out) ->
        (established_at (ds_sess (el_daemon l')) !! ip = established_at (ds_sess d) !! ip
         \/ established_at (ds_sess (el_daemon l')) !! ip = None)
        /\ forall ck info q, el_queue l' = (ip, SeEstablished info) :: q ->
           event_arm ck l' = Ok (mkEventLoop (el_daemon l') q (el_stops l'), command (el_stops l') ip ScStop))
  /\ forall now, since + from_secs secs <= now -> max_prefix_idle (ds_peers (expire_idle now d)) !! ip = None.
Lemma held_until_holds ip secs since d : max_prefix_idle (ds_peers d) !! ip = Some (since + from_secs secs) ->
  peer_max_prefixes_restart (ds_peers d) !! ip = Some secs -> held_until ip secs since d.
Proof.
  intros Hi Hr. split; [exact Hi|]. split.
  - intros Hp l ops l' out <- Ho E.
    assert (Hh : on_hold ip secs since (established_at (ds_sess (el_daemon l)) !! ip) (el_daemon l))
      by (split; [done|by eexists|done|by left]).
    pose proof (onhold_run _ _ _ _ ops Ho l Hh (l', out) E) as H. split; [apply H|].
    intros ck info q Eq. by eapply onhold_refused.
  - intros now Hn. cbn [expire_idle set_peers ds_peers max_prefix_idle]. apply map_lookup_filter_None_2.
    right. intros t E. assert (t = since + from_secs secs) as -> by (apply (inj Some); etransitivity; [symmetry; exact E|exact Hi]). cbn. lia.
Qed.


(** A route reflector resets an internal session that withdraws IPv4 routes.
    The attributes the reflector adds to the UPDATE before it is checked make a
    message that only withdraws look like one that lacks its ORIGIN. *)
Theorem rr_withdrawal_resets ip clock d n ns : daemon_ok d ->
  is_Some (import_policies (policies (ds_peers d)) !! ip) ->
  is_rr d = true -> peer_type_of d ip = Internal -> Forall canonical (n :: ns) ->
  (forall f, peer_max_prefixes (ds_fam d f) !! ip = None) ->
  exists d', on_route_update ip clock (mkUpdate (n :: ns) [] []) d
    = Ok (d', Some (mkNotification (NeUpdateMessage MissingWellKnownAttribute) [1])).
Proof.
  intros Hd [pol Ep] Hr Ht Hn Hmax. set (msg := mkUpdate (n :: ns) [] []).
  assert (Hm : msg_ok msg) by (split; [exact Hn|split; constructor]).
  assert (Er : exists msg', rr_inbound ip d msg = Some msg'
    /\ msg' = rr_inject (default (local_bgp_id (ds_local d)) (peer_bgp_ids (ds_sess d) !! ip)) (cluster_id (ds_local d)) msg).
  { eexists. split; [|reflexivity]. unfold rr_inbound. rewrite Hr, Ht. done. }
  destruct Er as (msg' & Er & Emsg).
  destruct (dk_known d Hd FamV4 ip ltac:(by exists pol)) as [_ [t4 Ht4]].
  destruct (dk_known d Hd FamV6 ip ltac:(by exists pol)) as [[pol6 Ep6] [t6 Ht6]].
  destruct (route_update_spec ip clock msg msg' d pol pol6 t4 t6 Hd Hm eq_refl eq_refl Er Ep Ep6 Ht4 Ht6)
    as (s4 & s6 & d' & note & calls & E & _ & _ & Hi & Hl & _).
  exists d'. rewrite E. assert (Ho : over_limits d' ip = false).
  { unfold over_limits. pose proof (im_max _ _ _ _ _ Hi FamV4) as M4. pose proof (im_max _ _ _ _ _ Hi FamV6) as M6.
    cbn [ds_fam] in M4, M6. rewrite M4, M6. change (ds_v4 d) with (ds_fam d FamV4).
    change (ds_v6 d) with (ds_fam d FamV6). by rewrite !Hmax. }
  rewrite Ho in Hl. destruct Hl as [-> _]. by rewrite Emsg.
Qed.
End UpdateImport.

(** ** Histories that meet the hypotheses *)
Section Applied.
#[local] Existing Instances ModelPrefix.ops ModelPrefix.laws ModelRouteMap.ops ModelRouteMap.laws.
#[local] Existing Instances ModelHashOrder.order ModelHashOrder.order_law.

(** A route reflector client and a peer with a limit of no prefixes. *)
Definition rt_cfg (p : PeerConfig) : DaemonConfig := mkDaemonConfig 65001 1 None None None 90 120 false 0 [p].
Definition rr_client : PeerConfig :=
  mkPeerConfig one_ip 65001 (Some DefAccept) (Some DefAccept) (Some DefAccept) true false false None None
    None None None None 179 None None.
Definition limited_peer : PeerConfig :=
  mkPeerConfig one_ip 65010 (Some DefAccept) (Some DefAccept) (Some DefAccept) false false false None None
    None (Some 0) None (Some 60) 179 None None.
Definition rt_info (asn : Z) (pt : PeerType) : SessionInfo :=
  mkSessionInfo asn 7 90 [CapFourByteAsn asn] pt (Some (IpV4 3232235778)).
Definition rt_daemon (p : PeerConfig) (pt : PeerType) : DaemonState :=
  scenario (rt_cfg p) (from_peer one_ip (SeEstablished (rt_info (pc_remote_as p) pt)) ++ []).
Lemma rt_daemon_ok p pt : daemon_ok (rt_daemon p pt).
Proof.
  exact (scenario_ok (rt_cfg p) _ (from_peer_ok one_ip (SeEstablished (rt_info (pc_remote_as p) pt)) []
    I (Forall_nil_2 _))).
Qed.

Lemma rt_policies : import_policies (policies (ds_peers (rt_daemon one_peer External))) !! one_ip = Some (policy_new DefAccept)
  /\ import_policies_v6 (policies (ds_peers (rt_daemon one_peer External))) !! one_ip = Some (policy_new DefAccept).
Proof. split; reflexivity. Qed.
Lemma rt_tables : is_Some (adj_ribs_in (ds_v4 (rt_daemon one_peer External)) !! one_ip)
  /\ is_Some (adj_ribs_in (ds_v6 (rt_daemon one_peer External)) !! one_ip).
Proof. split; apply (bool_decide_unpack (is_Some _)); vm_compute; exact I. Qed.
Lemma rt_inbound : rr_inbound one_ip (rt_daemon one_peer External) (imp_msg imp_attrs) = Some (imp_msg imp_attrs).
Proof.
  assert (H : is_rr (rt_daemon one_peer External) = false) by (vm_compute; reflexivity).
  unfold rr_inbound. rewrite H. reflexivity.
Qed.

Lemma limited_within : over_limits (rt_daemon limited_peer External) one_ip = false.
Proof. vm_compute. reflexivity. Qed.
Definition notified (r : Outcome False (DaemonState * option NotificationMessage)) : option NotificationMessage :=
  match r with Ok (_, note) => note | _ => None end.
Lemma limited_notified : notified (on_route_update one_ip (one_clocks 0%nat) (imp_msg imp_attrs)
  (rt_daemon limited_peer External)) = Some max_prefix_notification.
Proof. vm_compute. reflexivity. Qed.
Lemma limited_stays : forall d', on_route_update one_ip (one_clocks 0%nat) (imp_msg imp_attrs)
  (rt_daemon limited_peer External) = Ok (d', Some max_prefix_notification) -> one_ip ∉ pending_removal (ds_peers d').
Proof.
  assert (H : match on_route_update one_ip (one_clocks 0%nat) (imp_msg imp_attrs) (rt_daemon limited_peer External) with
    | Ok (d', _) => bool_decide (one_ip ∉ pending_removal (ds_peers d')) = true | _ => True end)
    by (vm_compute; reflexivity).
  intros d' E. rewrite E in H. by apply bool_decide_eq_true in H.
Qed.
Lemma limited_restart : peer_max_prefixes_restart (ds_peers (rt_daemon limited_peer External)) !! one_ip = Some 60.
Proof. apply (bool_decide_unpack (_ = _)). vm_compute. exact I. Qed.

Lemma rr_withdrawal_resets_witness : exists d',
  on_route_update one_ip (one_clocks 0%nat) (mkUpdate [imp10] [] []) (rt_daemon rr_client Internal)
    = Ok (d', Some (mkNotification (NeUpdateMessage MissingWellKnownAttribute) [1])).
Proof.
  assert (H1 : is_Some (import_policies (policies (ds_peers (rt_daemon rr_client Internal))) !! one_ip))
    by (apply (bool_decide_unpack (is_Some _)); vm_compute; exact I).
  assert (H2 : is_rr (rt_daemon rr_client Internal) = true) by (vm_compute; reflexivity).
  assert (H3 : peer_type_of (rt_daemon rr_client Internal) one_ip = Internal) by (vm_compute; reflexivity).
  assert (H4 : forall f, peer_max_prefixes (ds_fam (rt_daemon rr_client Internal) f) !! one_ip = None)
    by (intros []; apply (bool_decide_unpack (_ = _)); vm_compute; exact I).
  exact (rr_withdrawal_resets one_ip (one_clocks 0%nat) (rt_daemon rr_client Internal) imp10 [] (rt_daemon_ok _ _)
    H1 H2 H3 (Forall_cons_2 canonical imp10 _ imp10_canonical (Forall_nil_2 _)) H4).
Defined.
End Applied.
