(* ===== verification/KernelFib.v ===== *)
(** The kernel's routing table as the daemon sees it
    ([pathvector-sys/src/fib/mod.rs], [pathvector-sys/src/fib/linux.rs], and
    [DaemonOracle] of [pathvectord/src/fib.rs]).

    [FibSnapshot] is the in-memory copy that netlink messages keep current, and
    the next-hop oracle of the decision process.  The message type comes from the
    third-party crate [netlink_packet_route]: [RouteMessageOps] are the fields the
    code reads, [ModelRouteMessage] a concrete instance.  The functions the source
    has once per address family are written once, over the family. *)
From Stdlib Require Import ZArith Lia Bool.
From stdpp Require Import base tactics numbers decidable gmap list.
From S2P Require Import Prelude Addr Types RouteMap Route BestPath.
Open Scope Z_scope.

(** ** The snapshot *)

(** [FibEntry4] and [FibEntry6] *)
Record FibEntry := mkFibEntry {
  fe_network : Z;
  fe_prefix_len : Z;
  fe_metric : Z;
}.
#[export] Instance FibEntry_eq_dec : EqDecision FibEntry.
Proof. solve_decision. Defined.

(** [addr.octets()[i]] *)
Definition octet_v6 (addr i : Z) : Z := Z.land (Z.shiftr addr (8 * (15 - i))) 0xff.
Definition is_link_local_v6 (addr : Z) : bool :=
  (octet_v6 addr 0 =? 0xfe) && (Z.land (octet_v6 addr 1) 0xc0 =? 0x80).

Record FibSnapshot := mkSnapshot {
  fs_v4 : list FibEntry;
  fs_v6 : list FibEntry;
}.
Definition snapshot_new : FibSnapshot := mkSnapshot [] [].
Definition entries (s : FibSnapshot) (f : Family) : list FibEntry :=
  match f with FamV4 => fs_v4 s | FamV6 => fs_v6 s end.
Definition set_entries (s : FibSnapshot) (f : Family) (l : list FibEntry) : FibSnapshot :=
  match f with FamV4 => mkSnapshot l (fs_v6 s) | FamV6 => mkSnapshot (fs_v4 s) l end.

(** The filter of [lpm_v4] and [lpm_v6]. *)
Definition covers (f : Family) (addr : Z) (e : FibEntry) : bool :=
  if fe_prefix_len e =? 0 then true
  else
    let shift := Z.max 0 (width f - fe_prefix_len e) in
    Z.shiftr (fe_network e) shift =? Z.shiftr addr shift.
(** [Iterator::max_by_key]: the last of the greatest elements. *)
Definition max_by_key {A} (key : A -> Z) (l : list A) : option A :=
  foldl (fun acc x =>
    match acc with
    | Some best => if key best <=? key x then Some x else Some best
    | None => Some x
    end) None l.
(** [lpm_v4], [lpm_v6] *)
Definition lpm (f : Family) (s : FibSnapshot) (addr : Z) : option FibEntry :=
  max_by_key fe_prefix_len (List.filter (covers f addr) (entries s f)).

Definition is_v4_reachable (s : FibSnapshot) (addr : Z) : bool :=
  match lpm FamV4 s addr with Some _ => true | None => false end.
Definition igp_metric_v4 (s : FibSnapshot) (addr : Z) : option Z := fe_metric <$> lpm FamV4 s addr.
Definition is_v6_reachable (s : FibSnapshot) (addr : Z) : bool :=
  if is_link_local_v6 addr then true
  else match lpm FamV6 s addr with Some _ => true | None => false end.
Definition igp_metric_v6 (s : FibSnapshot) (addr : Z) : option Z := fe_metric <$> lpm FamV6 s addr.

(** ** [DaemonOracle] *)
Definition oracle_is_reachable (s : FibSnapshot) (next_hop : NextHop) : bool :=
  match next_hop with
  | NhV4 addr => is_v4_reachable s addr
  | NhV6 addr => is_v6_reachable s addr
  | NhV6WithLinkLocal global link_local =>
      if negb (global =? 0) && is_v6_reachable s global then true
      else is_v6_reachable s link_local
  end.
Definition oracle_igp_metric (s : FibSnapshot) (next_hop : NextHop) : option Z :=
  match next_hop with
  | NhV4 addr => igp_metric_v4 s addr
  | NhV6 addr => igp_metric_v6 s addr
  | NhV6WithLinkLocal global link_local =>
      if negb (global =? 0) && bool_decide (is_Some (igp_metric_v6 s global))
      then igp_metric_v6 s global
      else igp_metric_v6 s link_local
  end.
Definition DaemonOracle (s : FibSnapshot) : NextHopOracle :=
  mkOracle (oracle_is_reachable s) (oracle_igp_metric s).

(** ** Netlink messages *)

(** [AddressFamily::Inet] and [Inet6] are [Some], any other is [None].  The last
    five operations read one attribute if it is of that kind. *)
Class RouteMessageOps := {
  RouteMessage : Type;
  RouteAttribute : Type;
  header_is_unicast : RouteMessage -> bool;
  header_is_bgp : RouteMessage -> bool;
  header_table : RouteMessage -> Z;
  header_family : RouteMessage -> option Family;
  header_prefix_len : RouteMessage -> Z;
  message_attributes : RouteMessage -> list RouteAttribute;
  attribute_table : RouteAttribute -> option Z;
  attribute_destination : Family -> RouteAttribute -> option Z;
  attribute_priority : RouteAttribute -> option Z;
}.

Section Netlink.
Context `{RM : RouteMessageOps}.

Definition is_bgp_route (msg : RouteMessage) : bool := header_is_bgp msg.
Definition route_table (msg : RouteMessage) : Z :=
  default (header_table msg) (find_map attribute_table (message_attributes msg)).
Definition in_table (msg : RouteMessage) (table : Z) : bool :=
  (table =? 0) || (route_table msg =? table).
Definition metric_of (msg : RouteMessage) : Z :=
  default 0 (find_map attribute_priority (message_attributes msg)).
(** The destination attribute, or [UNSPECIFIED]. *)
Definition destination (f : Family) (msg : RouteMessage) : Z :=
  default 0 (find_map (attribute_destination f) (message_attributes msg)).

(** [parse_v4], [parse_v6] *)
Definition parse (f : Family) (msg : RouteMessage) (table : Z) : option FibEntry :=
  if negb (header_is_unicast msg) then None
  else if negb (in_table msg table) then None
  else if is_bgp_route msg then None
  else Some (mkFibEntry (destination f msg) (header_prefix_len msg) (metric_of msg)).

Definition same_prefix (network prefix_len : Z) (e : FibEntry) : bool :=
  (fe_network e =? network) && (fe_prefix_len e =? prefix_len).
(** The first entry of the prefix is overwritten, or the entry is pushed; the
    flag says whether anything changed. *)
Fixpoint upsert (entry : FibEntry) (l : list FibEntry) : list FibEntry * bool :=
  match l with
  | [] => ([entry], true)
  | slot :: l =>
      if same_prefix (fe_network entry) (fe_prefix_len entry) slot
      then if bool_decide (slot = entry) then (slot :: l, false) else (entry :: l, true)
      else let '(l, changed) := upsert entry l in (slot :: l, changed)
  end.
Definition apply_new (snap : FibSnapshot) (msg : RouteMessage) (table : Z) : FibSnapshot * bool :=
  match header_family msg with
  | Some f =>
      match parse f msg table with
      | Some entry =>
          let '(l, changed) := upsert entry (entries snap f) in (set_entries snap f l, changed)
      | None => (snap, false)
      end
  | None => (snap, false)
  end.
Definition apply_del (snap : FibSnapshot) (msg : RouteMessage) (table : Z) : FibSnapshot * bool :=
  if negb (in_table msg table) || is_bgp_route msg then (snap, false)
  else match header_family msg with
  | Some f =>
      let before := entries snap f in
      let l := List.filter (fun e => negb (same_prefix (destination f msg) (header_prefix_len msg) e))
                 before in
      (set_entries snap f l, (length l <? length before)%nat)
  | None => (snap, false)
  end.

(** ** [KernelFib]: the initial dump, then the events

    [kf_notified] counts the [change_tx.send] calls. *)
Inductive NetlinkEvent :=
| NewRoute (msg : RouteMessage)
| DelRoute (msg : RouteMessage)
| OtherPayload.
Record KernelFib := mkKernelFib {
  kf_snapshot : FibSnapshot;
  kf_notified : nat;
}.
Definition kernel_fib_load (table : Z) (dump_v4 dump_v6 : list RouteMessage) : KernelFib :=
  mkKernelFib (mkSnapshot (omap (fun msg => parse FamV4 msg table) dump_v4)
                          (omap (fun msg => parse FamV6 msg table) dump_v6)) 1.
Definition kernel_fib_event (table : Z) (k : KernelFib) (e : NetlinkEvent) : KernelFib :=
  let notify (r : FibSnapshot * bool) :=
    mkKernelFib (fst r) (kf_notified k + if snd r then 1 else 0) in
  match e with
  | NewRoute msg => notify (apply_new (kf_snapshot k) msg table)
  | DelRoute msg => notify (apply_del (kf_snapshot k) msg table)
  | OtherPayload => k
  end.
Definition kernel_fib_run (table : Z) (dump_v4 dump_v6 : list RouteMessage)
    (events : list NetlinkEvent) : KernelFib :=
  foldl (kernel_fib_event table) (kernel_fib_load table dump_v4 dump_v6) events.

(** [dump_stale_bgp_v4], [dump_stale_bgp_v6] *)
Definition dump_stale_bgp (f : Family) (table : Z) (dump : list RouteMessage) : list (Z * Z) :=
  omap (fun msg =>
    if negb (is_bgp_route msg) || negb (in_table msg table) then None
    else Some (destination f msg, header_prefix_len msg)) dump.
End Netlink.

(** ** Concrete messages, for witnesses *)
Module ModelRouteMessage.
Inductive attribute :=
| Table (t : Z)
| Destination (f : Family) (a : Z)
| Priority (m : Z)
| Gateway (a : Z).
Record message := mkMessage {
  unicast : bool;
  bgp : bool;
  table : Z;
  family : option Family;
  prefix_len : Z;
  attributes : list attribute;
}.
#[export] Instance ops : RouteMessageOps := {|
  RouteMessage := message;
  RouteAttribute := attribute;
  header_is_unicast := unicast;
  header_is_bgp := bgp;
  header_table := table;
  header_family := family;
  header_prefix_len := prefix_len;
  message_attributes := attributes;
  attribute_table a := match a with Table t => Some t | _ => None end;
  attribute_destination f a := match a with
    | Destination f' x => if decide (f = f') then Some x else None | _ => None end;
  attribute_priority a := match a with Priority m => Some m | _ => None end;
|}.
(** An IPv4 route of the main table through a gateway. *)
Definition route_v4 (network len metric : Z) : message :=
  mkMessage true false 254 (Some FamV4) len
    [Destination FamV4 network; Gateway 3232235777; Priority metric].
End ModelRouteMessage.
