(* ===== verification/KernelFibTheorems.v ===== *)
(** The snapshot of the kernel's table: longest-prefix lookup, tracking of the
    kernel through netlink messages, and the decision process on top of it. *)
From Stdlib Require Import ZArith Lia Bool.
From stdpp Require Import base tactics numbers decidable gmap list.
From S2P Require Import Prelude Addr Types AsPath RouteMap Route BestPath LocRib KernelFib.
Open Scope Z_scope.

#[export] Instance Family_countable : Countable Family :=
  inj_countable' (fun f => match f with FamV4 => false | FamV6 => true end)
    (fun b => if b : bool then FamV6 else FamV4) ltac:(by intros []).
#[export] Instance FibEntry_countable : Countable FibEntry :=
  inj_countable' (fun e => (fe_network e, fe_prefix_len e, fe_metric e))
    (fun '(n, l, m) => mkFibEntry n l m) ltac:(by intros []).

(** ** Longest-prefix match *)
Definition entry_ok (f : Family) (e : FibEntry) : Prop :=
  addr_ok f (fe_network e) /\ 0 <= fe_prefix_len e <= width f.
(** The entry's network contains the address. *)
Definition contains (f : Family) (e : FibEntry) (addr : Z) : Prop :=
  mask_addr f addr (fe_prefix_len e) = mask_addr f (fe_network e) (fe_prefix_len e).

Lemma width_pos f : 0 < width f.
Proof. by destruct f. Qed.

Lemma covers_spec f addr e : addr_ok f addr -> entry_ok f e ->
  covers f addr e = true <-> contains f e addr.
Proof.
  intros Ha [Hn Hl]. unfold covers, contains, mask_addr, addr_ok in *. pose proof (width_pos f).
  destruct (Z.eqb_spec (fe_prefix_len e) 0) as [->|Hne].
  - rewrite Z.sub_0_r, !Z.div_small by lia. done.
  - rewrite Z.max_r by lia. rewrite Z.eqb_eq, !Z.shiftr_div_pow2 by lia.
    assert (0 < 2 ^ (width f - fe_prefix_len e)) by (apply Z.pow_pos_nonneg; lia). nia.
Qed.

Lemma max_by_key_spec {A} (key : A -> Z) (l : list A) :
  match max_by_key key l with
  | Some x => x ∈ l /\ forall y, y ∈ l -> key y <= key x
  | None => l = []
  end.
Proof.
  unfold max_by_key. induction l as [|x l IH] using rev_ind; [done|].
  rewrite foldl_app. cbn [foldl]. destruct (foldl _ None l) as [b|].
  - destruct IH as [Hin Hmax]. destruct (Z.leb_spec (key b) (key x)).
    + split; [set_solver|]. intros y [Hy|Hy%list_elem_of_singleton]%elem_of_app; [|by subst].
      specialize (Hmax y Hy). lia.
    + split; [set_solver|]. intros y [Hy|Hy%list_elem_of_singleton]%elem_of_app; [auto|subst; lia].
  - subst l. split; [set_solver|]. intros y Hy%list_elem_of_singleton. by subst.
Qed.

(** What a lookup in the set of entries [K] should answer. *)
Definition lookup_exact (f : Family) (K : FibEntry -> Prop) (addr : Z) (o : option FibEntry) : Prop :=
  match o with
  | Some e => K e /\ contains f e addr
      /\ forall e', K e' -> contains f e' addr -> fe_prefix_len e' <= fe_prefix_len e
  | None => forall e, K e -> ~ contains f e addr
  end.

Lemma lpm_exact f s addr : addr_ok f addr -> (forall e, e ∈ entries s f -> entry_ok f e) ->
  lookup_exact f (fun e => e ∈ entries s f) addr (lpm f s addr).
Proof.
  intros Ha Hok. unfold lpm, lookup_exact.
  assert (Hin : forall e, e ∈ List.filter (covers f addr) (entries s f)
    <-> e ∈ entries s f /\ contains f e addr).
  { intros e. rewrite list_elem_of_In, filter_In, <- list_elem_of_In.
    split; intros [H1 H2]; split; try done; by apply (covers_spec f addr e Ha (Hok e H1)). }
  pose proof (max_by_key_spec fe_prefix_len (List.filter (covers f addr) (entries s f))) as Hm.
  destruct (max_by_key _ _) as [e|].
  - destruct Hm as [[H1 H2]%Hin Hmax]. split_and!; [done..|]. intros e' H1' H2'. apply Hmax, Hin. done.
  - intros e H1 H2. assert (H : e ∈ List.filter (covers f addr) (entries s f)) by by apply Hin.
    rewrite Hm in H. by apply not_elem_of_nil in H.
Qed.

(** ** Tracking the kernel

    The kernel's table, as far as it concerns the daemon, is the set of its
    unicast routes of other protocols, read from the messages as rtnetlink
    documents them and not as the code parses them. *)
Section Tracking.
Context `{RM : RouteMessageOps} (table : Z).

Definition KernelTable : Type := gset (Family * FibEntry).
(** The value of the first attribute of a kind. *)
Definition first_attribute {A} (get : RouteAttribute -> option A) (msg : RouteMessage) : option A :=
  head (omap get (message_attributes msg)).
(** The routing table a message is about: its table attribute, or else its header's. *)
Definition message_table (msg : RouteMessage) : Z :=
  default (header_table msg) (first_attribute attribute_table msg).
(** The messages that concern the daemon: not its own kind of route, and in the
    tracked table, where 0 tracks them all. *)
Definition concerns (msg : RouteMessage) : Prop :=
  header_is_bgp msg = false /\ (table = 0 \/ message_table msg = table).
#[export] Instance concerns_dec msg : Decision (concerns msg) := ltac:(unfold concerns; apply _).
(** The network a message is about; without a destination attribute, the default. *)
Definition message_network (f : Family) (msg : RouteMessage) : Z :=
  default 0 (first_attribute (attribute_destination f) msg).
Definition igp_entry (f : Family) (msg : RouteMessage) : option FibEntry :=
  if decide (header_is_unicast msg = true /\ concerns msg) then
    Some {| fe_network := message_network f msg; fe_prefix_len := header_prefix_len msg;
            fe_metric := default 0 (first_attribute attribute_priority msg) |}
  else None.
(** The route a message is about, if the daemon should know of it. *)
Definition igp_route (msg : RouteMessage) : option (Family * FibEntry) :=
  f ← header_family msg; e ← igp_entry f msg; Some (f, e).
(** The kernel adds the route it announces and removes the one it withdraws. *)
Definition kernel_step (K : KernelTable) (ev : NetlinkEvent) : KernelTable :=
  match ev with
  | NewRoute msg => match igp_route msg with Some r => {[r]} ∪ K | None => K end
  | DelRoute msg => match igp_route msg with Some r => K ∖ {[r]} | None => K end
  | OtherPayload => K
  end.
Definition kernel_table (dump_v4 dump_v6 : list RouteMessage) : KernelTable :=
  list_to_set ((fun e => (FamV4, e)) <$> omap (igp_entry FamV4) dump_v4)
  ∪ list_to_set ((fun e => (FamV6, e)) <$> omap (igp_entry FamV6) dump_v6).

(** One route per prefix, all within the address width. *)
Definition single_path (K : KernelTable) : Prop :=
  forall f e, (f, e) ∈ K -> entry_ok f e
    /\ forall e', (f, e') ∈ K -> fe_network e' = fe_network e -> fe_prefix_len e' = fe_prefix_len e -> e' = e.
(** A route that is withdrawn is the one the kernel has for the prefix. *)
Definition withdraws_own (K : KernelTable) (ev : NetlinkEvent) : Prop :=
  match ev with
  | DelRoute msg => forall f e, header_family msg = Some f -> concerns msg -> (f, e) ∈ K ->
      fe_network e = message_network f msg -> fe_prefix_len e = header_prefix_len msg ->
      igp_entry f msg = Some e
  | _ => True
  end.
Fixpoint kernel_ok (K : KernelTable) (events : list NetlinkEvent) : Prop :=
  single_path K /\
  match events with
  | [] => True
  | ev :: events => withdraws_own K ev /\ kernel_ok (kernel_step K ev) events
  end.
Definition changes (K : KernelTable) (ev : NetlinkEvent) : nat :=
  if decide (kernel_step K ev = K) then 0 else 1.
Fixpoint change_count (K : KernelTable) (events : list NetlinkEvent) : nat :=
  match events with
  | [] => 0
  | ev :: events => changes K ev + change_count (kernel_step K ev) events
  end.
Definition tracks (s : FibSnapshot) (K : KernelTable) : Prop :=
  forall f e, e ∈ entries s f <-> (f, e) ∈ K.

Lemma entries_set s f f' l : entries (set_entries s f l) f'
  = if decide (f = f') then l else entries s f'.
Proof. by destruct s, f, f'. Qed.

Lemma same_prefix_iff n l e : same_prefix n l e = true <-> fe_network e = n /\ fe_prefix_len e = l.
Proof. unfold same_prefix. rewrite andb_true_iff, !Z.eqb_eq. done. Qed.

(** Where the prefix has no other entry, an upsert adds the entry. *)
Lemma upsert_spec e l :
  (forall e', e' ∈ l -> same_prefix (fe_network e) (fe_prefix_len e) e' = true -> e' = e) ->
  (forall x, x ∈ fst (upsert e l) <-> x = e \/ x ∈ l)
  /\ (snd (upsert e l) = true <-> e ∉ l).
Proof.
  induction l as [|s l IH]; intros Hone; cbn [upsert fst snd].
  { split; [intros x; rewrite list_elem_of_singleton; set_solver|set_solver]. }
  destruct (same_prefix _ _ s) eqn:Es.
  - rewrite (Hone s ltac:(left) Es). rewrite bool_decide_eq_true_2 by done. cbn [fst snd].
    split; [set_solver|]. split; [done|set_solver].
  - destruct IH as [IH1 IH2]; [intros e' He'; apply Hone; by right|].
    destruct (upsert e l) as [l' c]. cbn [fst snd] in *. split.
    + intros x. rewrite !elem_of_cons, IH1. tauto.
    + rewrite IH2, not_elem_of_cons. split; [|tauto]. intros H. split; [|done]. intros ->.
      assert (same_prefix (fe_network s) (fe_prefix_len s) s = true) by by apply same_prefix_iff.
      congruence.
Qed.

Lemma filter_shorter {A} (p : A -> bool) l :
  (length (List.filter p l) <? length l)%nat = true <-> exists x, x ∈ l /\ p x = false.
Proof.
  rewrite Nat.ltb_lt. induction l as [|x l IH]; cbn [List.filter length].
  - split; [lia|]. intros (x & Hx & _). by apply not_elem_of_nil in Hx.
  - destruct (p x) eqn:E; cbn [length].
    + rewrite <- Nat.succ_lt_mono, IH. split.
      * intros (y & Hy & Hp). exists y. split; [by right|done].
      * intros (y & [->|Hy]%elem_of_cons & Hp); [congruence|]. by exists y.
    + split; [|intros _; pose proof (filter_length_le p l); lia]. intros _. exists x. split; [left|done].
Qed.

(** One message keeps the snapshot in step, and a change is reported exactly if
    the table changes. *)
Definition event_flag (s : FibSnapshot) (ev : NetlinkEvent) : FibSnapshot * bool :=
  match ev with
  | NewRoute msg => apply_new s msg table
  | DelRoute msg => apply_del s msg table
  | OtherPayload => (s, false)
  end.

(** The code reads a message as rtnetlink documents it. *)
Lemma find_map_first {A B} (g : A -> option B) l : find_map g l = head (omap g l).
Proof. induction l as [|x l IH]; [done|]. cbn. by destruct (g x). Qed.
Lemma destination_spec f msg : destination f msg = message_network f msg.
Proof. unfold destination. by rewrite find_map_first. Qed.
Lemma concerns_spec msg : negb (in_table msg table) || is_bgp_route msg = false <-> concerns msg.
Proof.
  unfold concerns, in_table, route_table, is_bgp_route, message_table, first_attribute. rewrite find_map_first.
  rewrite orb_false_iff, negb_false_iff, orb_true_iff, !Z.eqb_eq. tauto.
Qed.
Lemma parse_spec f msg : parse f msg table = igp_entry f msg.
Proof.
  unfold parse, igp_entry. pose proof (concerns_spec msg) as Hc. destruct (header_is_unicast msg); cbn [negb].
  2:{ by rewrite decide_False by (by intros [? _]). }
  destruct (decide (true = true /\ concerns msg)) as [[_ H]|H].
  - apply Hc in H. apply orb_false_iff in H as [-> ->]. rewrite destination_spec.
    unfold metric_of. by rewrite find_map_first.
  - destruct (negb (in_table msg table)); [done|]. destruct (is_bgp_route msg); [done|].
    exfalso. apply H. split; [done|by apply Hc].
Qed.
Lemma igp_entry_some f msg e : igp_entry f msg = Some e ->
  concerns msg /\ fe_network e = message_network f msg /\ fe_prefix_len e = header_prefix_len msg.
Proof. unfold igp_entry. destruct (decide _) as [[_ H]|]; [|done]. by intros [= <-]. Qed.
Lemma igp_route_some msg f e : igp_route msg = Some (f, e)
  <-> header_family msg = Some f /\ igp_entry f msg = Some e.
Proof.
  unfold igp_route. destruct (header_family msg) as [f'|]; cbn; [|naive_solver].
  destruct (igp_entry f' msg) eqn:E; cbn; naive_solver.
Qed.
Lemma tracks_new s K msg : tracks s K -> single_path (kernel_step K (NewRoute msg)) ->
  tracks (fst (apply_new s msg table)) (kernel_step K (NewRoute msg))
  /\ (snd (apply_new s msg table) = true <-> kernel_step K (NewRoute msg) <> K).
Proof.
  intros Ht Hone. unfold apply_new. cbn [kernel_step] in *.
  destruct (igp_route msg) as [[f e]|] eqn:Ei.
  - apply igp_route_some in Ei as [-> Hp]. rewrite parse_spec, Hp.
    destruct (upsert_spec e (entries s f)) as [U1 U2].
    { intros e' He' Hs%same_prefix_iff. apply (Hone f e ltac:(set_solver)); [|apply Hs..]. apply Ht in He'. set_solver. }
    destruct (upsert e (entries s f)) as [l c]. cbn [fst snd] in *. split.
    + intros f' x. rewrite entries_set. destruct (decide (f = f')) as [<-|Hne].
      * rewrite U1, (Ht f x). set_solver.
      * rewrite (Ht f' x). set_solver.
    + rewrite U2, (Ht f e). set_solver.
  - assert (E : match header_family msg with Some f => match parse f msg table with
        | Some entry => let '(l, changed) := upsert entry (entries s f) in (set_entries s f l, changed)
        | None => (s, false) end | None => (s, false) end = (s, false)).
    { unfold igp_route in Ei. destruct (header_family msg) as [f|]; [|done]. rewrite parse_spec. cbn [mbind option_bind] in Ei.
      destruct (igp_entry f msg); [discriminate Ei|done]. }
    rewrite E. split; [done|]. done.
Qed.

Lemma tracks_del s K msg : tracks s K -> withdraws_own K (DelRoute msg) ->
  tracks (fst (apply_del s msg table)) (kernel_step K (DelRoute msg))
  /\ (snd (apply_del s msg table) = true <-> kernel_step K (DelRoute msg) <> K).
Proof.
  intros Ht Hown. unfold apply_del. cbn [kernel_step withdraws_own] in *.
  destruct (negb (in_table msg table) || is_bgp_route msg) eqn:Eg.
  { assert (igp_route msg = None) as ->; [|done].
    destruct (igp_route msg) as [[f e]|] eqn:Ei; [|done]. exfalso.
    apply igp_route_some in Ei as [_ (H1%concerns_spec & _)%igp_entry_some]. congruence. }
  apply concerns_spec in Eg.
  destruct (header_family msg) as [f|] eqn:Ef; cbn [fst snd].
  2:{ assert (igp_route msg = None) as -> by by unfold igp_route; rewrite Ef. done. }
  set (sp := same_prefix (destination f msg) (header_prefix_len msg)).
  (* what goes is exactly the route of the message *)
  assert (Hgone : forall e, (f, e) ∈ K -> sp e = true <-> igp_route msg = Some (f, e)).
  { intros e He. split.
    - intros [H1 H2]%same_prefix_iff. rewrite destination_spec in H1. apply igp_route_some. split; [done|]. by apply Hown.
    - intros [_ (_ & H1 & H2)%igp_entry_some]%igp_route_some. apply same_prefix_iff. by rewrite destination_spec. }
  assert (Hstep : forall f' e, (f', e) ∈ match igp_route msg with Some r => K ∖ {[r]} | None => K end
    <-> (f', e) ∈ K /\ igp_route msg <> Some (f', e)).
  { intros f' e. destruct (igp_route msg) as [r|]; set_solver. }
  split.
  - intros f' e. rewrite Hstep, entries_set. destruct (decide (f = f')) as [<-|Hne].
    + rewrite list_elem_of_In, filter_In, <- list_elem_of_In, negb_true_iff, (Ht f e).
      split; intros [H1 H2]; split; try done.
      * intros H3. apply Hgone in H3; [congruence|done].
      * destruct (sp e) eqn:E; [|done]. by apply Hgone in E.
    + rewrite (Ht f' e). split; [|tauto]. intros H. split; [done|].
      intros [E _]%igp_route_some. congruence.
  - rewrite filter_shorter. split.
    + intros (e & He%Ht & Hs%negb_false_iff) E. apply Hgone in Hs; [|done].
      rewrite <- E in He. by apply Hstep in He as [_ ?].
    + intros Hne. destruct (igp_route msg) as [[f' e]|] eqn:Ei; [|done].
      pose proof (proj1 (igp_route_some _ _ _) Ei) as [Ef' _]. assert (f' = f) as -> by congruence.
      assert (He : (f, e) ∈ K) by (destruct (decide ((f, e) ∈ K)); [done|]; exfalso; apply Hne; set_solver).
      exists e. split; [by apply Ht|]. apply negb_false_iff. by apply Hgone.
Qed.

Lemma kernel_event_flag k ev : kernel_fib_event table k ev
  = mkKernelFib (fst (event_flag (kf_snapshot k) ev))
      (kf_notified k + if snd (event_flag (kf_snapshot k) ev) then 1 else 0).
Proof. destruct ev, k; cbn; [done|done|by rewrite Nat.add_0_r]. Qed.

Lemma tracks_event s K ev : tracks s K -> single_path (kernel_step K ev) -> withdraws_own K ev ->
  tracks (fst (event_flag s ev)) (kernel_step K ev)
  /\ (if snd (event_flag s ev) then 1 else 0)%nat = changes K ev.
Proof.
  intros Ht Hone Hown. unfold changes.
  assert (H : tracks (fst (event_flag s ev)) (kernel_step K ev)
    /\ (snd (event_flag s ev) = true <-> kernel_step K ev <> K)).
  { destruct ev; [by apply tracks_new|by apply tracks_del|done]. }
  destruct H as [H1 H2]. split; [done|].
  destruct (decide (kernel_step K ev = K)), (snd (event_flag s ev)); naive_solver.
Qed.

Lemma tracks_run events : forall k K, tracks (kf_snapshot k) K -> kernel_ok K events ->
  let k' := foldl (kernel_fib_event table) k events in
  tracks (kf_snapshot k') (foldl kernel_step K events)
  /\ single_path (foldl kernel_step K events)
  /\ kf_notified k' = (kf_notified k + change_count K events)%nat.
Proof.
  induction events as [|ev events IH]; intros k K Ht Hok; cbn [foldl change_count kernel_ok] in *.
  { split_and!; [done|apply Hok|lia]. }
  destruct Hok as (_ & Hown & Hok).
  assert (Hone : single_path (kernel_step K ev)) by (by destruct events; apply Hok).
  destruct (tracks_event (kf_snapshot k) K ev Ht Hone Hown) as [Ht' Hc].
  rewrite kernel_event_flag. destruct (IH (mkKernelFib (fst (event_flag (kf_snapshot k) ev))
    (kf_notified k + if snd (event_flag (kf_snapshot k) ev) then 1 else 0)) _ Ht' Hok) as (H1 & H2 & H3).
  split_and!; [done..|]. rewrite H3. cbn [kf_notified]. lia.
Qed.

Lemma tracks_load dump_v4 dump_v6 :
  tracks (kf_snapshot (kernel_fib_load table dump_v4 dump_v6)) (kernel_table dump_v4 dump_v6).
Proof.
  assert (H : forall f (dump : list RouteMessage), omap (fun m => parse f m table) dump = omap (igp_entry f) dump).
  { intros f dump. induction dump as [|m dump IH]; [done|]. cbn. by rewrite parse_spec, IH. }
  intros [] e; unfold kernel_table; cbn; rewrite H; set_solver.
Qed.
End Tracking.

(** The conditions on a history, as a check. *)
Section Checks.
Context `{RM : RouteMessageOps} (table : Z).
Definition single_pathb (K : KernelTable) : bool :=
  forallb (fun '(f, e) =>
    bool_decide (0 <= fe_network e < 2 ^ width f /\ 0 <= fe_prefix_len e <= width f)
    && forallb (fun '(f', e') => negb (bool_decide (f' = f)
         && same_prefix (fe_network e) (fe_prefix_len e) e') || bool_decide (e' = e)) (elements K))
    (elements K).
Definition withdraws_ownb (K : KernelTable) (ev : NetlinkEvent) : bool :=
  match ev with
  | DelRoute msg => forallb (fun '(f, e) => bool_decide (igp_entry table f msg = Some e)
      || negb (bool_decide (header_family msg = Some f)
               && same_prefix (message_network f msg) (header_prefix_len msg) e)) (elements K)
  | _ => true
  end.
Fixpoint kernel_okb (K : KernelTable) (events : list NetlinkEvent) : bool :=
  single_pathb K &&
  match events with
  | [] => true
  | ev :: events => withdraws_ownb K ev && kernel_okb (kernel_step table K ev) events
  end.

Lemma forallb_elements (p : Family * FibEntry -> bool) (K : KernelTable) r :
  forallb p (elements K) = true -> r ∈ K -> p r = true.
Proof.
  rewrite forallb_forall. intros H Hr. apply H, list_elem_of_In. by apply elem_of_elements.
Qed.
Lemma kernel_okb_ok events : forall K, kernel_okb K events = true -> kernel_ok table K events.
Proof.
  assert (Hs : forall K, single_pathb K = true -> single_path K).
  { intros K H f e He. pose proof (forallb_elements _ K (f, e) H He) as Hp. cbn beta iota in Hp.
    apply andb_true_iff in Hp as [Hok%bool_decide_eq_true Hone]. split; [exact Hok|].
    intros e' He' H1 H2. assert (Hsp : same_prefix (fe_network e) (fe_prefix_len e) e' = true) by by apply same_prefix_iff.
    pose proof (forallb_elements _ K (f, e') Hone He') as Hp. cbn beta iota in Hp.
    rewrite bool_decide_eq_true_2 in Hp by done. rewrite Hsp in Hp. by apply bool_decide_eq_true in Hp. }
  assert (Hw : forall K ev, withdraws_ownb K ev = true -> withdraws_own table K ev).
  { intros K [|msg|] H; try done. intros f e Ef _ He H1 H2.
    assert (Hsp : same_prefix (message_network f msg) (header_prefix_len msg) e = true) by by apply same_prefix_iff.
    pose proof (forallb_elements _ K (f, e) H He) as Hp. cbn beta iota in Hp.
    rewrite Ef, Hsp, (bool_decide_eq_true_2 (Some f = Some f)) in Hp by done.
    apply orb_true_iff in Hp as [Hp|Hp]; [by apply bool_decide_eq_true in Hp|done]. }
  induction events as [|ev events IH]; intros K; cbn [kernel_okb kernel_ok];
    rewrite andb_true_iff; intros [H1 H2]; split; auto.
  apply andb_true_iff in H2 as [H2 H3]. auto.
Qed.
End Checks.

(** ** The decision process on the kernel's table *)

(** A next hop whose reachability and metric both come from the table. *)
Definition routed (nh : NextHop) : bool :=
  match nh with
  | NhV4 _ => true
  | NhV6 addr => negb (is_link_local_v6 addr)
  | NhV6WithLinkLocal _ _ => false
  end.
Lemma routed_metric s nh : routed nh = true -> oracle_is_reachable s nh = true ->
  is_Some (oracle_igp_metric s nh).
Proof.
  destruct nh as [a|a|]; cbn [oracle_is_reachable oracle_igp_metric routed]; [| |done].
  - unfold is_v4_reachable, igp_metric_v4.
    destruct (lpm FamV4 s a); [by eauto|done].
  - unfold is_v6_reachable, igp_metric_v6. intros ->%negb_true_iff.
    destruct (lpm FamV6 s a); [by eauto|done].
Qed.

Lemma filter_twice {A} (p : A -> bool) l : List.filter p (List.filter p l) = List.filter p l.
Proof.
  induction l as [|x l IH]; [done|]. cbn. destruct (p x) eqn:E; [|done]. cbn. by rewrite E, IH.
Qed.

Section Claims.
Context `{RM : RouteMessageOps} `{P : IpPrefixOps}.

(** C32: the snapshot follows the kernel.  After the initial dump and any messages
    that add and remove routes, provided that throughout the kernel has one route
    per prefix, with a network and a length of the address width, and that a route
    it withdraws is the one it has for the prefix ([kernel_ok]; see
    [kernel_multipath_lost] for what happens otherwise), the snapshot holds exactly
    the unicast routes of other protocols in the tracked table, with the destination,
    the length and the metric the messages carry; a lookup answers with the longest
    one that contains the address, and fails only if none does; and the daemon is
    woken exactly once for the dump and once for every message that changed the
    table. *)
Theorem kernel_lookup_exact table dump_v4 dump_v6 events f addr : addr_ok f addr ->
  kernel_ok table (kernel_table table dump_v4 dump_v6) events ->
  let k := kernel_fib_run table dump_v4 dump_v6 events in
  let K := foldl (kernel_step table) (kernel_table table dump_v4 dump_v6) events in
  tracks (kf_snapshot k) K
  /\ lookup_exact f (fun e => (f, e) ∈ K) addr (lpm f (kf_snapshot k) addr)
  /\ kf_notified k = (1 + change_count table (kernel_table table dump_v4 dump_v6) events)%nat.
Proof.
  intros Ha Hok k K.
  destruct (tracks_run table events (kernel_fib_load table dump_v4 dump_v6) _
    (tracks_load table dump_v4 dump_v6) Hok) as (Ht & Hone & Hn).
  split_and!; [exact Ht| |exact Hn].
  pose proof (lpm_exact f (kf_snapshot k) addr Ha) as Hl.
  assert (Hiff : forall e, e ∈ entries (kf_snapshot k) f <-> (f, e) ∈ K) by (intros e; apply Ht).
  assert (Hok' : forall e, e ∈ entries (kf_snapshot k) f -> entry_ok f e)
    by (intros e He; apply (Hone f e), Ht, He).
  specialize (Hl Hok'). unfold lookup_exact in *. destruct (lpm f _ addr) as [e|].
  - destruct Hl as (H1 & H2 & H3). rewrite <- Hiff. split_and!; try done.
    intros e' He'. apply H3. by apply Hiff.
  - intros e He. apply Hl. by apply Hiff.
Qed.

(** On the kernel's table the decision process is well defined: among routes
    with IPv4 or global IPv6 next hops, whose identifiers are known alike, a
    reachable next hop always has a metric, so whatever the order of the
    candidates' groups the selection is exactly the RFC 4271 winner. *)
Theorem kernel_decision_exact {f} (group_order : list (list (Candidate (f:=f))) -> _)
    (candidates : list Candidate) s : (forall l, group_order l ≡ₚ l) -> NoDup candidates.*1 ->
  (forall x, x ∈ candidates -> exists nh, next_hop (snd x) = Some nh /\ routed nh = true) ->
  (forall x y, x ∈ candidates -> y ∈ candidates ->
     peer_bgp_id (snd x) = None <-> peer_bgp_id (snd y) = None) ->
  forall x, select_best_with_oracle group_order candidates (DaemonOracle s) = Some x
    <-> rfc4271_winner (DaemonOracle s) candidates x.
Proof.
  intros Hp Hnd Hnh Hid x. set (o := DaemonOracle s).
  assert (Hc : comparable o (List.filter (reachable o) candidates)).
  { assert (Hm : forall c, c ∈ List.filter (reachable o) candidates -> is_Some (metric o (snd c))).
    { intros c [Hc Hr]%list_elem_of_In%filter_In. apply list_elem_of_In in Hc.
      destruct (Hnh c Hc) as (nh & E & Hro). unfold reachable in Hr. unfold metric.
      rewrite E in *. by apply routed_metric. }
    intros a b Ha Hb _. split.
    - destruct (Hm a Ha) as [? ->], (Hm b Hb) as [? ->]. done.
    - apply list_elem_of_In, filter_In in Ha as [Ha%list_elem_of_In _], Hb as [Hb%list_elem_of_In _].
      by apply Hid. }
  pose proof (select_winner group_order o _ Hp (NoDup_fst_filter _ _ Hnd) Hc x) as Hw.
  rewrite <- prefer_winner_rfc4271 in *. unfold prefer_winner, select_best_with_oracle in *. by rewrite filter_twice in Hw.
Qed.

(** The kernel may have several routes for a prefix, told apart by their metric;
    the snapshot keeps one entry per prefix.  When the route it kept goes, the
    prefix is unreachable for the daemon although the kernel still has the other. *)
Theorem kernel_multipath_lost table m1 m2 d n l k1 k2 :
  igp_route table m1 = Some (FamV4, mkFibEntry n l k1) ->
  igp_route table m2 = Some (FamV4, mkFibEntry n l k2) ->
  igp_route table d = Some (FamV4, mkFibEntry n l k2) -> k1 <> k2 ->
  let events := [NewRoute m1; NewRoute m2; DelRoute d] in
  foldl (kernel_step table) ∅ events = {[(FamV4, mkFibEntry n l k1)]}
  /\ forall addr, lpm FamV4 (kf_snapshot (kernel_fib_run table [] [] events)) addr = None.
Proof.
  intros E1 E2 E3 Hne events. split.
  - cbn. rewrite E1, E2, E3. apply set_eq. set_solver.
  - intros addr. unfold lpm. enough (entries (kf_snapshot (kernel_fib_run table [] [] events)) FamV4 = [])
      as -> by done.
    apply igp_route_some in E1 as [F1 P1], E2 as [F2 P2], E3 as [F3 P3].
    apply igp_entry_some in P3 as (C3%concerns_spec & N3 & L3). cbn in N3, L3. rewrite <- destination_spec in N3.
    unfold kernel_fib_run, events. cbn. unfold apply_new, apply_del. rewrite <- parse_spec in P1, P2.
    rewrite F1, F2, F3, P1, P2, C3.
    cbn. unfold same_prefix. cbn. rewrite !Z.eqb_refl. cbn.
    rewrite bool_decide_eq_false_2 by congruence. cbn. by rewrite <- N3, <- L3, !Z.eqb_refl.
Qed.
End Claims.

(** ** Witnesses *)
Section Witnesses.
#[local] Existing Instances ModelRouteMessage.ops ModelPrefix.ops.
Import ModelRouteMessage.

(** A default route, then 10.0.0.0/8, then the default route goes. *)
Definition sample_dump : list message := [route_v4 0 0 100].
Definition sample_events : list NetlinkEvent :=
  [NewRoute (route_v4 167772160 8 20); DelRoute (route_v4 0 0 100)].

Lemma kernel_lookup_exact_witness :
  kernel_okb 254 (kernel_table 254 sample_dump []) sample_events = true
  /\ lookup_exact FamV4
       (fun e => (FamV4, e) ∈ foldl (kernel_step 254) (kernel_table 254 sample_dump []) sample_events)
       167772161 (Some (mkFibEntry 167772160 8 20)).
Proof.
  assert (Hok : kernel_okb 254 (kernel_table 254 sample_dump []) sample_events = true)
    by (vm_compute; reflexivity).
  split; [exact Hok|].
  exact (proj1 (proj2 (kernel_lookup_exact 254 sample_dump [] sample_events FamV4 167772161
    ltac:(split; vm_compute; congruence) (kernel_okb_ok 254 sample_events _ Hok)))).
Defined.

Definition routed_route {f} (n : Nlri f) (nh : Z) : Route f :=
  set_peer_type (b_next_hop (builder_new 0 n Igp (Path.from_sequence [65010])) (NhV4 nh)) Internal.
Definition sample_snapshot : FibSnapshot := mkSnapshot [mkFibEntry 0 0 7] [].

Definition sample_nlri : Nlri FamV4 := ModelPrefix.nlri FamV4 167772160 8 eq_refl.
Lemma kernel_decision_exact_witness : let n := sample_nlri in
  rfc4271_winner (DaemonOracle sample_snapshot)
    [(IpV4 1, routed_route (f:=FamV4) n 5); (IpV4 2, routed_route n 6)] (IpV4 1, routed_route n 5).
Proof.
  set (n := sample_nlri). cbv zeta.
  apply (kernel_decision_exact id [(IpV4 1, routed_route n 5); (IpV4 2, routed_route n 6)]
    sample_snapshot); [done| | | |reflexivity].
  - apply NoDup_ListNoDup; repeat constructor; simpl; naive_solver.
  - intros x Hx. exists (match next_hop (snd x) with Some nh => nh | None => NhV4 0 end).
    rewrite !elem_of_cons in Hx. destruct Hx as [->|[->|Hx]]; [done|done|by apply not_elem_of_nil in Hx].
  - intros x y Hx Hy. rewrite !list_elem_of_In in *. simpl in Hx, Hy. naive_solver.
Defined.

Lemma kernel_multipath_lost_witness : exists addr,
  lpm FamV4 (kf_snapshot (kernel_fib_run 254 [] []
    [NewRoute (route_v4 0 0 100); NewRoute (route_v4 0 0 600); DelRoute (route_v4 0 0 600)])) addr = None.
Proof.
  exists 1. exact (proj2 (kernel_multipath_lost 254 (route_v4 0 0 100) (route_v4 0 0 600)
    (route_v4 0 0 600) 0 0 100 600 eq_refl eq_refl eq_refl ltac:(done)) 1).
Defined.
End Witnesses.

(** A link-local next hop is always reachable but has no metric, so with such a
    next hop the comparison is not transitive and the order of the candidates
    decides. *)
Definition link_local_route `{P : IpPrefixOps} (n : Nlri FamV6) (global : Z) : Route FamV6 :=
  set_peer_type (b_next_hop (builder_new 0 n Igp (Path.from_sequence [65010]))
    (NhV6WithLinkLocal global 338288524927261089654018896841347694593)) Internal.
Definition two_metrics : FibSnapshot := mkSnapshot [] [mkFibEntry 1 128 5; mkFibEntry 3 128 10].
Theorem link_local_order_dependent `{P : IpPrefixOps} (n : Nlri FamV6) :
  let a : Candidate := (IpV4 3, link_local_route n 1) in
  let b : Candidate := (IpV4 2, link_local_route n 2) in
  let c : Candidate := (IpV4 1, link_local_route n 3) in
  let o := DaemonOracle two_metrics in
  is_link_local_v6 338288524927261089654018896841347694593 = true
  /\ select_best_with_oracle id [a; b; c] o = Some c
  /\ select_best_with_oracle id [b; c; a] o = Some a.
Proof. done. Qed.
