(* ===== verification/FibManager.v ===== *)
(** The writer of the kernel's table ([FibManager] of [pathvectord/src/fib.rs],
    [FibWriter] of [pathvector-sys/src/fib/linux.rs]).

    The event loop's calls overwrite one pending entry per prefix; a background
    task drains both maps and issues the writes.  The calls are [FibCall]s, as the
    daemon model logs them.  The writer's own steps are made explicit, so that the
    calls of the event loop can fall between any two of them; a call (insert, then
    [notify_one]) is one step.  The kernel is not part of the repository:
    [KernelRoutesOps] is a table that takes the writes, and [KernelRoutesLaws] what
    the source relies on (a route can be replaced, and the deletion of a route of
    another type or of an absent one does nothing).  Failed writes are only logged
    by the source; the laws are those of successful ones. *)
From Stdlib Require Import ZArith Lia Bool.
From stdpp Require Import base tactics numbers decidable gmap list.
From S2P Require Import Prelude Addr Types RouteMap Route BestPath LocRib HandleUpdate Deferral DaemonState.
Open Scope Z_scope.

(** [PendingV4] and [PendingV6] *)
Inductive Pending :=
| Install (gateway : Z)
| Blackhole
| Withdraw
| WithdrawBlackhole.

(** What the kernel does with the packets of a prefix, and a write to its table
    ([trait FibWrite]). *)
Inductive Forwarding := Via (gateway : Z) | Null.
#[export] Instance Forwarding_eq_dec : EqDecision Forwarding.
Proof. solve_decision. Defined.
Record FibWrite := mkFibWrite {
  fw_family : Family;
  fw_dst : Z;
  fw_prefix_len : Z;
  fw_op : Pending;
}.
(** The effect of a write on the entry of its prefix. *)
Definition write_effect (op : Pending) (entry : option Forwarding) : option Forwarding :=
  match op with
  | Install gateway => Some (Via gateway)
  | Blackhole => Some Null
  | Withdraw => match entry with Some (Via _) => None | _ => entry end
  | WithdrawBlackhole => match entry with Some Null => None | _ => entry end
  end.
Class KernelRoutesOps := {
  KernelRoutes : Type;
  kernel_get : KernelRoutes -> Family -> Z -> Z -> option Forwarding;
  kernel_write : KernelRoutes -> FibWrite -> KernelRoutes;
}.
Class KernelRoutesLaws `{KR : KernelRoutesOps} : Prop := {
  kernel_get_write : forall k w f dst len,
    kernel_get (kernel_write k w) f dst len
    = if decide ((fw_family w, fw_dst w, fw_prefix_len w) = (f, dst, len))
      then write_effect (fw_op w) (kernel_get k f dst len) else kernel_get k f dst len;
}.

Section FibManager.
Context `{P : IpPrefixOps} {M : RouteMapOps} {HO : HashOrder} {KR : KernelRoutesOps}.

(** [apply_v4]: the next hop must be an IPv4 address; [apply_v6]: an IPv6 one. *)
Definition gateway_of {f} (route : Route f) : option Z :=
  let next_hop := next_hop route in
  match f, next_hop with
  | FamV4, Some (NhV4 gateway) => Some gateway
  | FamV6, Some (NhV6 gw) => Some gw
  | FamV6, Some (NhV6WithLinkLocal global _) => Some global
  | _, _ => None
  end.
(** The pending entry a call records, with its prefix. *)
Definition pending_of {f} (change : BestPathChange f) : option (Nlri f * Pending) :=
  match change with
  | Announced n route => (fun gateway => (n, Install gateway)) <$> gateway_of route
  | Withdrawn n => Some (n, Withdraw)
  | Unchanged => None
  end.

(** Where the writer task is: waiting on [notify], about to take one of the maps,
    or writing. *)
Inductive WriterPhase :=
| Waiting
| TakeV4
| TakeV6 (v4_batch : list (Nlri FamV4 * Pending))
| Writing (writes : list FibWrite).
Record FibManager := mkFibManager {
  fm_pending_v4 : gmap (Nlri FamV4) Pending;
  fm_pending_v6 : gmap (Nlri FamV6) Pending;
  fm_notify : bool;
  fm_phase : WriterPhase;
  fm_kernel : KernelRoutes;
}.
Definition fib_manager_new (kernel : KernelRoutes) : FibManager := mkFibManager ∅ ∅ false Waiting kernel.

(** [self.pending.lock().insert(nlri, op); self.notify.notify_one()] *)
Definition record_pending {f} (n : Nlri f) (op : Pending) (m : FibManager) : FibManager :=
  match f as f0 return Nlri f0 -> FibManager with
  | FamV4 => fun n => mkFibManager (<[n := op]> (fm_pending_v4 m)) (fm_pending_v6 m) true
                        (fm_phase m) (fm_kernel m)
  | FamV6 => fun n => mkFibManager (fm_pending_v4 m) (<[n := op]> (fm_pending_v6 m)) true
                        (fm_phase m) (fm_kernel m)
  end n.
(** [apply_v4]/[apply_v6], [apply_blackhole_*], [withdraw_blackhole_*] *)
Definition apply_call (c : FibCall) (m : FibManager) : FibManager :=
  match c with
  | FibApply f change =>
      match pending_of change with Some (n, op) => record_pending n op m | None => m end
  | FibBlackhole f n => record_pending n Blackhole m
  | FibWithdrawBlackhole f n => record_pending n WithdrawBlackhole m
  end.

(** [process_batch]: one write per entry, in the iteration order of the map. *)
Definition write_of {f} (x : Nlri f * Pending) : FibWrite :=
  mkFibWrite f (nlri_ip (fst x)) (prefix_len (fst x)) (snd x).
Definition process_batch (v4_batch : list (Nlri FamV4 * Pending)) (v6_batch : list (Nlri FamV6 * Pending))
    : list FibWrite := map write_of v4_batch ++ map write_of v6_batch.

(** One step of the loop of [spawn_writer]. *)
Definition writer_step (m : FibManager) : FibManager :=
  let '(mkFibManager p4 p6 notified phase kernel) := m in
  match phase with
  | Waiting => if notified then mkFibManager p4 p6 false TakeV4 kernel else m
  | TakeV4 => mkFibManager ∅ p6 notified (TakeV6 (hash_order (map_to_list p4))) kernel
  | TakeV6 v4_batch =>
      mkFibManager p4 ∅ notified (Writing (process_batch v4_batch (hash_order (map_to_list p6)))) kernel
  | Writing [] => mkFibManager p4 p6 notified Waiting kernel
  | Writing (w :: writes) => mkFibManager p4 p6 notified (Writing writes) (kernel_write kernel w)
  end.

(** [withdraw_stale_bgp_routes] ([daemon/fib.rs]), run once before the first call. *)
Definition withdraw_stale_bgp_routes (stale_v4 stale_v6 : list (Z * Z)) (kernel : KernelRoutes)
    : KernelRoutes :=
  let withdraw f kernel '(dst, len) := kernel_write kernel (mkFibWrite f dst len Withdraw) in
  foldl (withdraw FamV6) (foldl (withdraw FamV4) kernel stale_v4) stale_v6.

(** A schedule: calls of the event loop and steps of the writer. *)
Inductive FibEvent := FibEvCall (c : FibCall) | FibEvWriter.
Definition fib_event (m : FibManager) (e : FibEvent) : FibManager :=
  match e with FibEvCall c => apply_call c m | FibEvWriter => writer_step m end.
Definition fib_run (m : FibManager) (schedule : list FibEvent) : FibManager := foldl fib_event m schedule.
Definition calls_of (schedule : list FibEvent) : list FibCall :=
  omap (fun e => match e with FibEvCall c => Some c | FibEvWriter => None end) schedule.
End FibManager.

(** ** A kernel table, for witnesses *)
Module ModelKernel.
#[export] Instance ops : KernelRoutesOps := {|
  KernelRoutes := Family -> Z -> Z -> option Forwarding;
  kernel_get k := k;
  kernel_write k w := fun f dst len =>
    if decide ((fw_family w, fw_dst w, fw_prefix_len w) = (f, dst, len))
    then write_effect (fw_op w) (k f dst len) else k f dst len;
|}.
#[export] Instance laws : KernelRoutesLaws.
Proof. by split. Qed.
Definition empty : KernelRoutes := fun _ _ _ => None.
End ModelKernel.
