(* ===== verification/FibManagerTheorems.v ===== *)
(** The kernel's table follows the calls of the event loop, and the best routes. *)
From Stdlib Require Import ZArith Lia Bool.
From stdpp Require Import base tactics numbers decidable gmap list.
From S2P Require Import Prelude Addr Types AsPath RouteMap Policy Route BestPath LocRib RibTheorems HandleUpdate Deferral DaemonState FibManager.
Open Scope Z_scope.

Section FibManagerFacts.
Context `{P : IpPrefixOps} {M : RouteMapOps} {HO : HashOrder} {KR : KernelRoutesOps}.

Definition Key : Type := Family * Z * Z.
Definition key {f} (n : Nlri f) : Key := (f, nlri_ip n, prefix_len n).
Definition fw_key (w : FibWrite) : Key := (fw_family w, fw_dst w, fw_prefix_len w).
Definition get (k : KernelRoutes) (x : Key) : option Forwarding :=
  let '(f, dst, len) := x in kernel_get k f dst len.

(** The write a call asks for; the table that makes every write at once. *)
Definition call_write (c : FibCall) : option FibWrite :=
  match c with
  | FibApply f change => write_of <$> pending_of change
  | FibBlackhole f n => Some (write_of (n, Blackhole))
  | FibWithdrawBlackhole f n => Some (write_of (n, WithdrawBlackhole))
  end.
Definition direct (kernel : KernelRoutes) (calls : list FibCall) : KernelRoutes :=
  foldl kernel_write kernel (omap call_write calls).

(** The operations on one prefix, in order. *)
Definition ops_on (x : Key) (ws : list FibWrite) : list Pending :=
  omap (fun w => if decide (fw_key w = x) then Some (fw_op w) else None) ws.
Definition apply_ops (e : option Forwarding) (ops : list Pending) : option Forwarding :=
  foldl (fun e op => write_effect op e) e ops.

(** Unicast and null routes: [true] for null routes. *)
Definition kind (op : Pending) : bool :=
  match op with Install _ | Withdraw => false | Blackhole | WithdrawBlackhole => true end.
Definition kind_ok (b : bool) (e : option Forwarding) : Prop :=
  match e with Some (Via _) => b = false | Some Null => b = true | None => True end.
(** A prefix is only ever the subject of calls of one kind. *)
Definition one_kind (b : bool) (x : Key) (calls : list FibCall) : Prop :=
  Forall (fun op => kind op = b) (ops_on x (omap call_write calls)).

(** Nothing is pending and the writer waits. *)
Definition settled (m : FibManager) : Prop :=
  fm_pending_v4 m = ∅ /\ fm_pending_v6 m = ∅ /\ fm_notify m = false /\ fm_phase m = Waiting.

Context {L : IpPrefixLaws} {HL : HashOrderLaw} {KL : KernelRoutesLaws}.

Lemma key_inj {f} (n n' : Nlri f) : key n = key n' -> n = n'.
Proof.
  unfold key, nlri_ip, prefix_len. destruct n as [p], n' as [q]; cbn. intros [= H1 H2].
  f_equal. by apply prefix_ext.
Qed.

Lemma get_write k w x : get (kernel_write k w) x
  = if decide (fw_key w = x) then write_effect (fw_op w) (get k x) else get k x.
Proof. destruct x as [[f d] l]. cbn. apply kernel_get_write. Qed.
Lemma get_writes ws : forall k x,
  get (foldl kernel_write k ws) x = apply_ops (get k x) (ops_on x ws).
Proof.
  induction ws as [|w ws IH]; intros k x; [done|]. cbn [foldl]. rewrite IH, get_write.
  unfold ops_on. cbn [omap list_omap]. by destruct (decide (fw_key w = x)).
Qed.
Lemma ops_on_app x ws ws' : ops_on x (ws ++ ws') = ops_on x ws ++ ops_on x ws'.
Proof. apply omap_app. Qed.

(** Within one kind the last operation alone decides. *)
Lemma effect_kind b op e : kind op = b -> kind_ok b e -> kind_ok b (write_effect op e).
Proof. by destruct op, e as [[]|], b. Qed.
Lemma apply_ops_kind b ops : forall e, Forall (fun op => kind op = b) ops -> kind_ok b e ->
  kind_ok b (apply_ops e ops).
Proof.
  induction ops as [|op ops IH]; intros e Hk He; [done|].
  apply Forall_cons in Hk as [H1 H2]. cbn. apply IH; [done|]. by apply effect_kind.
Qed.
Lemma effect_last b op e e' : kind op = b -> kind_ok b e -> kind_ok b e' ->
  write_effect op e = write_effect op e'.
Proof. destruct op, e as [[]|], e' as [[]|], b; cbn; congruence. Qed.

(** ** What is queued for a prefix *)
Definition pending_at {f} (n : Nlri f) (m : FibManager) : option Pending :=
  match f as f0 return Nlri f0 -> option Pending with
  | FamV4 => fun n => fm_pending_v4 m !! n
  | FamV6 => fun n => fm_pending_v6 m !! n
  end n.
Definition phase_writes (m : FibManager) : list FibWrite :=
  match fm_phase m with
  | Waiting | TakeV4 => []
  | TakeV6 b4 => map write_of b4
  | Writing ws => ws
  end.
Definition queued {f} (n : Nlri f) (m : FibManager) : list Pending :=
  ops_on (key n) (phase_writes m) ++ option_list (pending_at n m).

Lemma ops_on_other {f f'} (n : Nlri f) (l : list (Nlri f' * Pending)) : f <> f' ->
  ops_on (key n) (map write_of l) = [].
Proof.
  intros Hne. unfold ops_on. induction l as [|x l IH]; [done|]. cbn.
  rewrite decide_False; [apply IH|]. unfold fw_key, key. cbn. congruence.
Qed.
Lemma ops_on_batch {f} (n : Nlri f) (p : gmap (Nlri f) Pending) :
  ops_on (key n) (map write_of (hash_order (map_to_list p))) = option_list (p !! n).
Proof.
  assert (Hp : ops_on (key n) (map write_of (hash_order (map_to_list p)))
    ≡ₚ ops_on (key n) (map write_of (map_to_list p))).
  { unfold ops_on. apply omap_Permutation, Permutation_map, hash_order_perm. }
  assert (E : ops_on (key n) (map write_of (map_to_list p)) = option_list (p !! n)).
  { pose proof (NoDup_fst_map_to_list p) as Hnd.
    assert (Hl : forall op, p !! n = Some op <-> (n, op) ∈ map_to_list p)
      by (intros op; symmetry; apply elem_of_map_to_list).
    revert Hnd Hl. generalize (p !! n) as o. generalize (map_to_list p) as l.
    induction l as [|[n' op'] l IH]; intros o Hnd Hl; cbn [map ops_on omap list_omap].
    - destruct o as [op|]; [|done]. destruct (not_elem_of_nil (n, op)). by apply Hl.
    - apply NoDup_cons in Hnd as [Hn' Hnd]. unfold ops_on in *. cbn [omap list_omap].
      destruct (decide (fw_key (write_of (n', op')) = key n)) as [E|Hne].
      + change (key n' = key n) in E. apply key_inj in E as ->. replace o with (Some op') by (symmetry; apply Hl; left).
        cbn. f_equal. rewrite (IH None); [done|done|]. intros op. split; [done|].
        intros Hin. destruct Hn'. apply list_elem_of_fmap. by exists (n, op).
      + apply IH; [done|]. intros op. rewrite Hl, elem_of_cons. split; [|by right].
        intros [[= -> ->]|H]; [by destruct Hne|done]. }
  rewrite E in Hp. destruct (p !! n) as [op|]; cbn in *.
  - by apply Permutation_singleton_r in Hp.
  - by apply Permutation_nil_r in Hp.
Qed.

(** ** The run *)

(** The prefix's entry will be right once what is queued is written. *)
Definition on_course {f} (b : bool) (n : Nlri f) (m : FibManager) (k : KernelRoutes) : Prop :=
  Forall (fun op => kind op = b) (queued n m) /\ kind_ok b (get (fm_kernel m) (key n))
  /\ apply_ops (get (fm_kernel m) (key n)) (queued n m) = get k (key n).

Lemma record_kernel {f} (n : Nlri f) op m :
  fm_kernel (record_pending n op m) = fm_kernel m
  /\ phase_writes (record_pending n op m) = phase_writes m.
Proof. by destruct f. Qed.
Lemma record_queued {f f'} (n : Nlri f) (n' : Nlri f') op m :
  queued n (record_pending n' op m)
  = ops_on (key n) (phase_writes m)
    ++ option_list (if decide (key n' = key n) then Some op else pending_at n m).
Proof.
  unfold queued. rewrite (proj2 (record_kernel n' op m)). do 2 f_equal.
  destruct (decide (key n' = key n)) as [E|Hne].
  - assert (f' = f) as -> by (unfold key in E; congruence). apply key_inj in E as ->.
    destruct f; apply lookup_insert_eq.
  - destruct f, f'; try done; apply lookup_insert_ne; intros ->; by apply Hne.
Qed.

Lemma on_course_record {f f'} b (n : Nlri f) (n' : Nlri f') op m k :
  on_course b n m k -> (key n' = key n -> kind op = b) ->
  on_course b n (record_pending n' op m) (kernel_write k (write_of (n', op))).
Proof.
  intros (Hk & He & Hq) Hop.
  unfold on_course. rewrite record_queued, (proj1 (record_kernel n' op m)), get_write. unfold queued in Hk, Hq.
  apply Forall_app in Hk as [Hk1 Hk2].
  change (fw_key (write_of (n', op))) with (key n'). cbn [fw_op write_of snd].
  destruct (decide (key n' = key n)) as [E|Hne].
  2:{ split_and!; [by apply Forall_app|done|done]. }
  specialize (Hop E). split_and!.
  - apply Forall_app. split; [done|]. by repeat constructor.
  - done.
  - unfold apply_ops. rewrite foldl_app. cbn [option_list foldl].
    apply (effect_last b); [done|by apply apply_ops_kind|]. rewrite <- Hq.
    apply apply_ops_kind; [by apply Forall_app|done].
Qed.

(** A step of the writer moves what is queued, or performs the first write. *)
Lemma writer_queued {f} (n : Nlri f) m :
  queued n (writer_step m) = queued n m /\ fm_kernel (writer_step m) = fm_kernel m
  \/ exists w, queued n m = ops_on (key n) [w] ++ queued n (writer_step m)
       /\ fm_kernel (writer_step m) = kernel_write (fm_kernel m) w.
Proof.
  destruct m as [p4 p6 nt ph kr]. unfold queued, writer_step. destruct ph as [| |b4|[|w ws]].
  - left. by destruct nt.
  - left. split; [|done]. cbn [phase_writes fm_phase].
    destruct f; cbn [pending_at fm_pending_v4 fm_pending_v6].
    + by rewrite ops_on_batch, lookup_empty, app_nil_r.
    + by rewrite (ops_on_other n (hash_order (map_to_list p4))).
  - left. split; [|done]. unfold process_batch. cbn [phase_writes fm_phase]. rewrite ops_on_app.
    destruct f; cbn [pending_at fm_pending_v4 fm_pending_v6].
    + by rewrite (ops_on_other n (hash_order (map_to_list p6))), app_nil_r.
    + by rewrite ops_on_batch, lookup_empty, app_nil_r, (ops_on_other n b4).
  - left. done.
  - right. exists w. split; [|done]. cbn [phase_writes fm_phase].
    rewrite (ops_on_app _ [w] ws), <- app_assoc. by destruct f.
Qed.

Lemma on_course_writer {f} b (n : Nlri f) m k : on_course b n m k -> on_course b n (writer_step m) k.
Proof.
  unfold on_course. intros (Hk & He & Hq).
  destruct (writer_queued n m) as [[-> ->]|(w & E & ->)]; [done|]. rewrite E in Hk, Hq. revert Hk Hq.
  rewrite get_write. unfold ops_on. cbn [omap list_omap].
  destruct (decide (fw_key w = key n)); cbn [app]; [|done].
  intros [H1 H2]%Forall_cons Hq. split_and!; [done|by apply effect_kind|done].
Qed.

(** What the prefix's entry will be once everything queued is written. *)
Definition outcome {f} (n : Nlri f) (m : FibManager) : option Forwarding :=
  apply_ops (get (fm_kernel m) (key n)) (queued n m).
Lemma outcome_writer {f} (n : Nlri f) k : forall m, outcome n (fib_run m (replicate k FibEvWriter)) = outcome n m.
Proof.
  induction k as [|k IH]; intros m; [done|]. cbn [replicate fib_run foldl fib_event].
  etransitivity; [apply IH|]. unfold outcome.
  destruct (writer_queued n m) as [[-> ->]|(w & E & ->)]; [done|]. rewrite E, get_write.
  unfold ops_on. cbn [omap list_omap]. by destruct (decide (fw_key w = key n)).
Qed.

Lemma one_kind_cons b x c calls : one_kind b x (c :: calls) ->
  (forall w, call_write c = Some w -> fw_key w = x -> kind (fw_op w) = b) /\ one_kind b x calls.
Proof.
  unfold one_kind, ops_on. cbn [omap list_omap]. destruct (call_write c) as [w|] eqn:E; [|by split].
  cbn [omap list_omap]. destruct (decide (fw_key w = x)).
  - intros [H1 H2]%Forall_cons. split; [|done]. by intros w' [= <-].
  - intros H. split; [|done]. by intros w' [= <-].
Qed.

Lemma on_course_run {f} b (n : Nlri f) schedule : forall m k, on_course b n m k ->
  one_kind b (key n) (calls_of schedule) ->
  on_course b n (fib_run m schedule) (direct k (calls_of schedule)).
Proof.
  induction schedule as [|[c|] schedule IH]; intros m k Hc Hk; [done| |].
  - change (calls_of (FibEvCall c :: schedule)) with (c :: calls_of schedule) in *.
    apply one_kind_cons in Hk as [Hc1 Hk]. unfold direct. cbn [omap list_omap fib_run foldl fib_event].
    assert (H : on_course b n (apply_call c m)
      (match call_write c with Some w => kernel_write k w | None => k end)).
    { destruct c as [f' ch|f' n'|f' n']; cbn [call_write apply_call] in *.
      - destruct (pending_of ch) as [[n' op]|]; [|done]. apply on_course_record; [done|].
        intros E. by apply (Hc1 (write_of (n', op))).
      - apply on_course_record; [done|]. intros E. by apply (Hc1 (write_of (n', Blackhole))).
      - apply on_course_record; [done|]. intros E. by apply (Hc1 (write_of (n', WithdrawBlackhole))). }
    destruct (call_write c) as [w|]; by apply IH.
  - apply IH; [by apply on_course_writer|done].
Qed.

(** ** The writer settles *)

(** No wake-up is lost: what is pending will be taken. *)
Definition awake (m : FibManager) : Prop :=
  (fm_pending_v4 m = ∅ \/ fm_notify m = true \/ fm_phase m = TakeV4)
  /\ (fm_pending_v6 m = ∅ \/ fm_notify m = true \/ fm_phase m = TakeV4 \/ exists b, fm_phase m = TakeV6 b).

Lemma awake_event m e : awake m -> awake (fib_event m e).
Proof.
  intros [H4 H6]. destruct e as [c|].
  - assert (Hr : forall f (n : Nlri f) op, awake (record_pending n op m))
      by (intros [] n op; split; cbn; auto).
    destruct c as [f ch| |]; cbn [fib_event apply_call]; [|apply Hr..].
    destruct (pending_of ch) as [[n op]|]; [apply Hr|done].
  - destruct m as [p4 p6 nt ph kr]. unfold awake in *. cbn [fib_event writer_step].
    destruct ph as [| |b|[|w ws]]; [destruct nt| | | |]; cbn in *; naive_solver.
Qed.
Lemma awake_run schedule : forall m, awake m -> awake (fib_run m schedule).
Proof.
  induction schedule as [|e schedule IH]; intros m Hm; [done|]. by apply IH, awake_event.
Qed.

Definition reaches (m m' : FibManager) : Prop :=
  exists k, fib_run m (replicate k FibEvWriter) = m'.
Lemma reaches_step m m' : reaches (writer_step m) m' -> reaches m m'.
Proof. intros [k <-]. by exists (S k). Qed.
Lemma reaches_trans m m' m'' : reaches m m' -> reaches m' m'' -> reaches m m''.
Proof.
  intros [k <-] [k' <-]. exists (k + k')%nat. unfold fib_run. by rewrite replicate_add, foldl_app.
Qed.
Lemma reaches_written p4 p6 nt ws : forall kr,
  reaches (mkFibManager p4 p6 nt (Writing ws) kr) (mkFibManager p4 p6 nt Waiting (foldl kernel_write kr ws)).
Proof.
  induction ws as [|w ws IH]; intros kr; apply reaches_step; [by exists 0%nat|apply IH].
Qed.
Lemma reaches_waiting m : exists kr, reaches m
  (mkFibManager (match fm_phase m with TakeV4 => ∅ | _ => fm_pending_v4 m end)
     (match fm_phase m with TakeV4 | TakeV6 _ => ∅ | _ => fm_pending_v6 m end)
     (fm_notify m) Waiting kr).
Proof.
  destruct m as [p4 p6 nt [| |b|ws] kr]; cbn [fm_phase fm_pending_v4 fm_pending_v6 fm_notify].
  - exists kr. by exists 0%nat.
  - eexists. do 2 apply reaches_step. apply reaches_written.
  - eexists. apply reaches_step. apply reaches_written.
  - eexists. apply reaches_written.
Qed.

Lemma awake_settles m : awake m -> exists k, settled (fib_run m (replicate k FibEvWriter)).
Proof.
  intros Hm. enough (H : exists m', reaches m m' /\ settled m') by (destruct H as (m' & [k <-] & H); eauto).
  destruct (reaches_waiting m) as [kr Hw]. set (m1 := mkFibManager _ _ _ Waiting kr) in Hw.
  assert (H1 : awake m1) by (destruct Hw as [k <-]; by apply awake_run).
  destruct H1 as [H4 H6]. cbn [fm_pending_v4 fm_pending_v6 fm_notify fm_phase m1] in H4, H6.
  destruct (fm_notify m) eqn:En.
  - destruct (reaches_waiting (writer_step m1)) as [kr2 Hw2]. eexists.
    split; [eapply reaches_trans; [exact Hw|]; apply reaches_step; exact Hw2|]. done.
  - exists m1. split; [done|]. split_and!; [| |done|done]; cbn; naive_solver.
Qed.

Lemma settled_outcome {f} (n : Nlri f) m : settled m -> outcome n m = get (fm_kernel m) (key n).
Proof.
  intros (E4 & E6 & _ & Ep). unfold outcome, queued, phase_writes. rewrite Ep.
  destruct f; cbn [pending_at]; by rewrite ?E4, ?E6, lookup_empty.
Qed.

Lemma calls_of_app s s' : calls_of (s ++ s') = calls_of s ++ calls_of s'.
Proof. apply omap_app. Qed.
Lemma calls_of_writer k : calls_of (replicate k FibEvWriter) = [].
Proof. by induction k. Qed.

(** The whole run, from an idle writer. *)
Lemma fib_settles kernel schedule : exists k,
  let m := fib_run (fib_manager_new kernel) (schedule ++ replicate k FibEvWriter) in
  settled m /\ forall f (n : Nlri f) b, one_kind b (key n) (calls_of schedule) ->
    kind_ok b (get kernel (key n)) ->
    get (fm_kernel m) (key n) = get (direct kernel (calls_of schedule)) (key n).
Proof.
  set (m0 := fib_manager_new kernel).
  assert (H0 : awake m0) by (split; by left).
  destruct (awake_settles _ (awake_run schedule m0 H0)) as [k Hk]. exists k.
  unfold fib_run in *. rewrite foldl_app. split; [done|]. intros f n b Hk1 Hk2.
  rewrite <- settled_outcome by done.
  pose proof (on_course_run b n (schedule ++ replicate k FibEvWriter) m0 kernel) as Hr.
  rewrite calls_of_app, calls_of_writer, app_nil_r in Hr. unfold fib_run in Hr.
  rewrite foldl_app in Hr. apply Hr; [|done].
  unfold on_course, queued. by destruct f.
Qed.

(** The kernel's unicast entry is the gateway of the best route reported last. *)
Lemma direct_changes {f} (n : Nlri f) kernel (cs : list (BestPathChange f)) :
  get kernel (key n) = None -> (forall r, Announced n r ∈ cs -> is_Some (gateway_of r)) ->
  get (direct kernel (map (FibApply f) cs)) (key n)
  = Via <$> (foldl apply_change ∅ cs !! n ≫= gateway_of).
Proof.
  intros Hk. unfold direct. induction cs as [|c cs IH] using rev_ind; intros Hg; [exact Hk|].
  specialize (IH (fun r Hr => Hg r ltac:(set_solver))).
  rewrite map_app, omap_app, !foldl_app. cbn [map foldl omap list_omap call_write].
  destruct c as [n' r|n'|]; cbn [pending_of fmap option_fmap option_map apply_change]; [| |exact IH].
  - destruct (decide (n' = n)) as [->|Hne].
    + destruct (Hg r ltac:(set_solver)) as [g Eg]. rewrite lookup_insert_eq, Eg.
      cbn [option_map foldl mbind option_bind fmap option_fmap].
      rewrite get_write, decide_True by done. cbn. by rewrite Eg.
    + rewrite lookup_insert_ne by done. destruct (gateway_of r); cbn [fmap option_fmap option_map foldl]; [|exact IH].
      rewrite get_write, decide_False; [exact IH|]. intros E. by apply Hne, key_inj.
  - cbn [option_map foldl]. rewrite get_write. cbn [fw_op write_of snd].
    destruct (decide (n' = n)) as [->|Hne].
    + rewrite decide_True, lookup_delete_eq by done. rewrite IH.
      by destruct (foldl apply_change ∅ cs !! n ≫= gateway_of).
    + rewrite lookup_delete_ne by done. rewrite decide_False; [exact IH|].
      intros E. by apply Hne, key_inj.
Qed.
Lemma one_kind_changes {f} x (cs : list (BestPathChange f)) : one_kind false x (map (FibApply f) cs).
Proof.
  unfold one_kind, ops_on. induction cs as [|c cs IH]; [constructor|]. cbn [map omap list_omap].
  destruct c as [n r|n|]; cbn [call_write pending_of fmap option_fmap option_map]; [| |exact IH].
  - destruct (gateway_of r); [|exact IH].
    cbn [fmap option_fmap option_map omap list_omap]. by case_decide; [constructor|].
  - cbn [omap list_omap]. by case_decide; [constructor|].
Qed.
End FibManagerFacts.

(** ** Theorems *)
Section Claims.
Context `{P : IpPrefixOps} {M : RouteMapOps} {HO : HashOrder} {KR : KernelRoutesOps}.
Context {L : IpPrefixLaws} {ML : RouteMapLaws} {HL : HashOrderLaw} {KL : KernelRoutesLaws}.


(** C31: the kernel forwards along the best routes. When the changes that a history
    of the RIB reports, in which the inserted routes have reachable next hops
    ([op_reachable]; [RibTheorems.loc_rib_unreported_loss] is what happens
    otherwise) and canonical prefixes, are passed to the FIB manager, the writer
    running in between as it may and the kernel accepting every write, then once it
    rests the kernel's entry of a prefix that had no entry before and whose reported
    routes have a usable gateway is the gateway of the best route, and there is none
    if there is no best route. *)
Theorem kernel_follows_best_routes {f} (ops : list (RibOp f)) kernel :
  Forall op_ok ops -> Forall op_reachable ops ->
  exists lr cs, rib_run loc_rib_new ops = Ok (lr, cs) /\
    forall schedule, calls_of schedule = map (FibApply f) cs -> exists k,
      let m := fib_run (fib_manager_new kernel) (schedule ++ replicate k FibEvWriter) in
      settled m /\ forall n, canonical n -> get kernel (key n) = None ->
        (forall r, Announced n r ∈ cs -> is_Some (gateway_of r)) ->
        get (fm_kernel m) (key n) = Via <$> (best lr n ≫= gateway_of).
Proof.
  intros Hops Hr. destruct (rib_run_spec ops loc_rib_new loc_rib_new_ok Hops)
    as (lr & cs & E & _ & _ & _ & Hm).
  exists lr, cs. split; [done|]. intros schedule Hc.
  destruct (fib_settles kernel schedule) as (k & Hs & Hk). exists k. split; [exact Hs|].
  intros n Hn Hnone Hg. cbv zeta in Hk. rewrite (Hk f n false), Hc.
  - rewrite direct_changes by done. do 2 f_equal. apply Hm; [done| |done].
    intros n' _. by rewrite loc_rib_new_best, lookup_empty.
  - rewrite Hc. apply one_kind_changes.
  - by rewrite Hnone.
Qed.

(** The two kinds share the pending slot of a prefix.  When a null route is
    withdrawn, and a route for the prefix comes and goes before the writer runs,
    only the last call is left, and the null route stays in the kernel. *)
Theorem fib_null_route_survives {f} (n : Nlri f) r g kernel :
  get kernel (key n) = Some Null -> gateway_of r = Some g ->
  let calls := [FibWithdrawBlackhole f n; FibApply f (Announced n r); FibApply f (Withdrawn n)] in
  get (direct kernel calls) (key n) = None
  /\ exists k, let m := fib_run (fib_manager_new kernel)
                        (map FibEvCall calls ++ replicate k FibEvWriter) in
       settled m /\ get (fm_kernel m) (key n) = Some Null.
Proof.
  intros Hk Hg calls. split.
  - unfold direct, calls. cbn [omap list_omap call_write pending_of]. rewrite Hg. cbn -[get key].
    rewrite !get_write, !decide_True by done. done.
  - destruct (fib_settles kernel (map FibEvCall calls)) as (k & Hs & _). exists k.
    split; [exact Hs|]. rewrite <- settled_outcome by exact Hs. cbv zeta.
    unfold fib_run. rewrite foldl_app. etransitivity; [apply outcome_writer|].
    cbn [calls map foldl fib_event apply_call pending_of]. rewrite Hg. cbn [fmap option_fmap option_map].
    unfold outcome. rewrite record_queued, decide_True by done.
    rewrite !(proj1 (record_kernel _ _ _)), !(proj2 (record_kernel _ _ _)). cbn -[get key]. by rewrite Hk.
Qed.

(** The routes a previous run left are all deleted as unicast routes, so its null
    routes stay. *)
Theorem stale_null_routes_stay stale_v4 stale_v6 kernel x :
  get kernel x = Some Null -> get (withdraw_stale_bgp_routes stale_v4 stale_v6 kernel) x = Some Null.
Proof.
  unfold withdraw_stale_bgp_routes. intros Hk.
  assert (H : forall f stale k, get k x = Some Null ->
    get (foldl (fun k '(dst, len) => kernel_write k (mkFibWrite f dst len Withdraw)) k stale) x = Some Null).
  { intros f stale. induction stale as [|[dst len] stale IH]; intros k E; [done|]. apply IH.
    rewrite get_write, E. by case_decide. }
  by do 2 apply H.
Qed.
End Claims.

(** ** Witnesses *)
Lemma calls_of_calls `{P : IpPrefixOps} (cs : list FibCall) : calls_of (map FibEvCall cs) = cs.
Proof. induction cs as [|c cs IH]; [done|]. exact (f_equal (cons c) IH). Qed.

Section Witnesses.
#[local] Existing Instances ModelPrefix.ops ModelPrefix.laws ModelRouteMap.ops ModelRouteMap.laws.
#[local] Existing Instances ModelHashOrder.order ModelHashOrder.order_law ModelKernel.ops ModelKernel.laws.

(** A null route comes, the writer wakes, and the null route goes again. *)
Definition sample_schedule : list FibEvent :=
  [FibEvCall (FibBlackhole FamV4 net10); FibEvWriter; FibEvWriter;
   FibEvCall (FibWithdrawBlackhole FamV4 net10)].

(** One route is announced. *)
Definition sample_ops : list (RibOp FamV4) := [RInsert (IpV4 1) route10 one_reachable].
Definition all_usable (o : Outcome False (LocRib FamV4 * list (BestPathChange FamV4))) : bool :=
  match o with
  | Ok (_, cs) => forallb (fun c => match c with
      | Announced _ r => match gateway_of r with Some _ => true | None => false end | _ => true end) cs
  | _ => false
  end.
Lemma sample_usable : all_usable (rib_run loc_rib_new sample_ops) = true.
Proof. vm_compute. reflexivity. Qed.
Lemma usable_gateway lr cs n r : rib_run loc_rib_new sample_ops = Ok (lr, cs) ->
  Announced n r ∈ cs -> is_Some (gateway_of r).
Proof.
  intros E Hin. pose proof sample_usable as H. rewrite E in H. cbn [all_usable] in H.
  rewrite forallb_forall in H. specialize (H (Announced n r) (proj1 (list_elem_of_In _ _) Hin)).
  cbn beta iota in H. by destruct (gateway_of r).
Qed.
Lemma kernel_follows_best_routes_witness : exists lr k schedule,
  let m := fib_run (fib_manager_new ModelKernel.empty) (schedule ++ replicate k FibEvWriter) in
  settled m /\ get (fm_kernel m) (key net10) = Via <$> (best lr net10 ≫= gateway_of).
Proof.
  destruct (kernel_follows_best_routes sample_ops ModelKernel.empty) as (lr & cs & E & H).
  - exact (Forall_cons_2 op_ok (RInsert (IpV4 1) route10 one_reachable) _ net10_canonical (Forall_nil_2 _)).
  - exact (Forall_cons_2 op_reachable (RInsert (IpV4 1) route10 one_reachable) _ eq_refl (Forall_nil_2 _)).
  - destruct (H (map FibEvCall (map (FibApply FamV4) cs)) (calls_of_calls _)) as (k & Hs & Hk).
    exists lr, k, (map FibEvCall (map (FibApply FamV4) cs)). split; [exact Hs|].
    exact (Hk net10 net10_canonical eq_refl (fun r => usable_gateway lr cs net10 r E)).
Defined.

Lemma fib_null_route_survives_witness : exists k m,
  m = fib_run (fib_manager_new (kernel_write ModelKernel.empty (write_of (net10, Blackhole))))
        (map FibEvCall [FibWithdrawBlackhole FamV4 net10; FibApply FamV4 (Announced net10 route10);
                        FibApply FamV4 (Withdrawn net10)] ++ replicate k FibEvWriter)
  /\ get (fm_kernel m) (key net10) = Some Null.
Proof.
  destruct (fib_null_route_survives net10 route10 1
    (kernel_write ModelKernel.empty (write_of (net10, Blackhole))) eq_refl eq_refl) as (_ & k & _ & H).
  eexists k, _. split; [reflexivity|exact H].
Defined.
End Witnesses.
