(* ===== verification/SessionTheorems.v ===== *)
(** The session task: what it reports and keeps running, and how it resolves
    connection collisions. *)
From Stdlib Require Import ZArith Lia Bool.
From stdpp Require Import base tactics numbers decidable list.
From S2P Require Import Prelude Addr Types AsPath Wire Header Notification Open Update Message Fsm Deferral Session.
Open Scope Z_scope.

Section SessionFacts.
Context `{P : IpPrefixOps}.

(** ** The view of a session

    Whether the daemon believes the session up ([None] if it was told of two
    sessions at once), the timers that run, and whether there is a connection. *)
Definition report_step (up : option bool) (e : SessionEvent) : option bool :=
  match up, e with
  | Some b, SeEstablished _ => if b then None else Some true
  | Some _, SeTerminated _ => Some false
  | _, _ => up
  end.
Definition reported (es : list SessionEvent) : option bool := foldl report_step (Some false) es.
Definition is_some {A} (o : option A) : bool := match o with Some _ => true | None => false end.

Record View := mkView {
  v_up : option bool;
  v_hold : bool;
  v_keepalive : bool;
  v_retry : bool;
  v_connected : bool;
}.
Definition view (s : Session) : View :=
  mkView (reported (events (ss_outbox s))) (is_some (hold_deadline (ss_timers s)))
    (is_some (keepalive_deadline (ss_timers s))) (is_some (retry_deadline (ss_timers s)))
    (is_some (transport (ss_link s))).
(** The effect of an action whose writes succeed. *)
Definition output_step (v : View) (o : FsmOutput) : View :=
  let '(mkView up h k r c) := v in
  match o with
  | CloseTcpConnection => mkView up h k r false
  | StartHoldTimer _ => mkView up true k r c
  | StopHoldTimer => mkView up false k r c
  | StartKeepaliveTimer _ => mkView up h true r c
  | StopKeepaliveTimer => mkView up h false r c
  | StartConnectRetryTimer _ => mkView up h k true c
  | StopConnectRetryTimer => mkView up h k false c
  | SessionEstablished i => mkView (report_step up (SeEstablished i)) h k r c
  | SessionTerminated => mkView (report_step up (SeTerminated TrUnclean)) h k r c
  | InitiateTcpConnect | SendMessage _ | RouteUpdate _ => v
  end.

(** ** What the machine's state calls for *)
Definition retrying (f : Fsm) : bool := match fsm_state f with Connect | Active => true | _ => false end.
Definition connected (f : Fsm) : bool :=
  match fsm_state f with OpenSent | OpenConfirm | Established => true | _ => false end.
Record base_ok (f : Fsm) (v : View) : Prop := {
  vo_up : v_up v = Some (is_established f);
  vo_hold : v_hold v = is_some (fst (timers_of f));
  vo_keepalive : v_keepalive v = is_some (snd (timers_of f));
  vo_connected : connected f = true -> v_connected v = true;
}.
Definition view_ok (f : Fsm) (v : View) : Prop :=
  base_ok f v /\ (retrying f = true -> v_retry v = true).

(** What holds when an input reaches the machine: a timer that expired is no
    longer running, and a connection may just have come up or failed. *)
Record input_ok (f : Fsm) (i : FsmInput) (v : View) : Prop := {
  io_up : v_up v = Some (is_established f);
  io_hold : match i with InHoldTimerExpired => v_hold v = false | _ => v_hold v = is_some (fst (timers_of f)) end;
  io_keepalive : match i with KeepaliveTimerExpired => v_keepalive v = false
                 | _ => v_keepalive v = is_some (snd (timers_of f)) end;
  io_retry : match i with ConnectRetryTimerExpired | TcpConnected => True
             | _ => retrying f = true -> v_retry v = true end;
  io_link : match i with TcpFailed => True | TcpConnected => v_connected v = true
            | _ => connected f = true -> v_connected v = true end;
}.

(** Every state and input of the machine. *)
Ltac machine_cases f i :=
  unfold process;
  destruct f as [st cfg open neg]; cbn [fsm_state fsm_config fsm_peer_open fsm_negotiated_hold_time] in *;
  destruct st; destruct i as [| | | | | | | |m|nt|nt]; try destruct m.

Lemma machine_step f i v : input_ok f i v ->
  base_ok (fst (process f i)) (foldl output_step v (snd (process f i)))
  /\ (i <> CollisionDetected -> retrying (fst (process f i)) = true ->
      v_retry (foldl output_step v (snd (process f i))) = true).
Proof.
  intros [Hu Hh Hk Hr Hl]. destruct v as [up h k r c]. cbn [v_up v_hold v_keepalive v_retry v_connected] in *.
  subst up. revert Hh Hk Hr Hl.
  machine_cases f i; cbn -[validate_open build_session_info Z.ltb Z.div]; try destruct (0 <? neg) eqn:En;
    cbn -[validate_open build_session_info Z.ltb Z.div]; intros; subst.
  all: try (split; [split|]; done).
  all: try (destruct (validate_open _ _) as [hold|[e data]]; cbn -[Z.ltb Z.div];
            unfold push_timer_actions; try destruct (0 <? hold) eqn:Eh).
  all: try destruct (build_session_info _); try destruct (match open with _ => _ end && _).
  all: unfold reset_hold_if_active; cbn -[Z.ltb Z.div]; rewrite ?En; cbn -[Z.ltb Z.div].
  all: split; [split; unfold timers_of; cbn -[Z.ltb Z.div]; rewrite ?En, ?Eh; by auto|first [done|by auto]].
Qed.

(** ** Executing actions when every write succeeds *)
Section Writes.
Context (write_ok : nat -> bool) (Hw : forall n, write_ok n = true).

(** An accepted connection is wrapped, none is injected. *)
Definition production (s : Session) : Prop :=
  connect_factory (ss_link s) = true /\ pending_transport (ss_link s) = None
  /\ pending_input (ss_link s) = None.
(** What executing actions leaves alone. *)
Definition same_frame (s s' : Session) : Prop :=
  ss_config s' = ss_config s /\ ss_staging s' = ss_staging s /\ ss_reason s' = ss_reason s.

Lemma reported_snoc es e : reported (es ++ [e]) = report_step (reported es) e.
Proof. unfold reported. by rewrite foldl_app. Qed.

Lemma write_succeeds t m s : exists o, write write_ok t m s = (set_outbox o s, true)
  /\ events o = events (ss_outbox s) /\ sent o = sent (ss_outbox s) ++ [(tr_id t, m)].
Proof. unfold write. rewrite Hw. eexists. by split. Qed.

(** One action. *)
Definition one_output (now : Instant) (o : FsmOutput) (s : Session) : Session * bool :=
  execute write_ok now [o] s.
Lemma execute_cons now o os s : execute write_ok now (o :: os) s
  = let '(s', ok) := one_output now o s in if ok then execute write_ok now os s' else (s', false).
Proof.
  unfold one_output. destruct o; try done. cbn [execute].
  destruct (send_primary write_ok m s) as [s' []]; done.
Qed.

Lemma one_output_view now o s : production s ->
  exists s', one_output now o s = (s', true) /\ view s' = output_step (view s) o
    /\ ss_fsm s' = ss_fsm s /\ production s' /\ same_frame s s'.
Proof.
  destruct s as [cfg f [h k r] [t ti la ct cf pt pin] st [es se wr] re]. intros (E1 & E2 & E3).
  cbn in E1, E2, E3. subst cf pt pin. unfold one_output, view.
  destruct o; cbn -[reported report_step]; try (eexists; split_and!; done).
  - unfold send_primary. cbn. destruct t as [t|]; [|eexists; split_and!; done].
    unfold write. cbn. rewrite Hw. eexists; split_and!; done.
  - eexists; split_and!; try done. cbn -[reported report_step]. rewrite reported_snoc. by destruct t.
  - eexists; split_and!; try done. cbn -[reported report_step]. rewrite reported_snoc. by destruct (reported es) as [[]|].
  - eexists; split_and!; try done. cbn -[reported report_step]. rewrite reported_snoc. by destruct (reported es) as [[]|].
Qed.

Lemma execute_view now outs : forall s, production s ->
  exists s', execute write_ok now outs s = (s', true) /\ view s' = foldl output_step (view s) outs
    /\ ss_fsm s' = ss_fsm s /\ production s' /\ same_frame s s'.
Proof.
  induction outs as [|o outs IH]; intros s Hp; [by exists s|].
  destruct (one_output_view now o s Hp) as (s1 & E1 & V1 & F1 & P1 & Q1).
  destruct (IH s1 P1) as (s2 & E2 & V2 & F2 & P2 & Q2). exists s2.
  rewrite execute_cons, E1, E2, V2, V1, F2, F1. split_and!; try done.
  destruct Q1 as (? & ? & ?), Q2 as (? & ? & ?). split_and!; congruence.
Qed.

(** One input. *)
Lemma process_execute_ok now i s : production s -> input_ok (ss_fsm s) i (view s) ->
  exists s', process_execute write_ok now i s = (s', true)
    /\ ss_fsm s' = fst (process (ss_fsm s) i) /\ base_ok (ss_fsm s') (view s')
    /\ (i <> CollisionDetected -> view_ok (ss_fsm s') (view s'))
    /\ production s' /\ same_frame s s'.
Proof.
  intros Hp Hi. destruct (machine_step _ _ _ Hi) as [Hb Hr].
  unfold process_execute. destruct (process (ss_fsm s) i) as [f outs] eqn:E. cbn [fst snd] in *.
  destruct (execute_view now outs (set_fsm f s) Hp) as (s' & E' & V & F & P' & Q).
  exists s'. assert (Ev : view (set_fsm f s) = view s) by done. rewrite Ev in V.
  assert (Ef : ss_fsm s' = f) by (rewrite F; done). rewrite E', Ef, V.
  split_and!; try done. intros Hne. split; [done|by apply Hr].
Qed.

(** ** The invariant of the task *)

(** A candidate has a deadline exactly until its OPEN is known. *)
Definition staging_ok (g : Staging) : Prop :=
  match staged g with
  | Some c => match cc_open c with None => is_Some (staged_deadline g) | Some _ => staged_deadline g = None end
  | None => staged_deadline g = None
  end.
Record session_ok (s : Session) : Prop := {
  so_view : view_ok (ss_fsm s) (view s);
  so_production : production s;
  so_staging : staging_ok (ss_staging s);
}.

Lemma view_attach t i a s : view (attach (Some t) i a s)
  = let v := view s in mkView (v_up v) (v_hold v) (v_keepalive v) (v_retry v) true.
Proof. done. Qed.

(** The machine after it gave way to a candidate. *)
Lemma close_existing_ok now s open purpose : session_ok s ->
  resolve_candidate (ss_fsm s) (sn_local_bgp_id (ss_config s)) purpose open = Adopt ->
  let s' := close_existing write_ok now s in
  base_ok (ss_fsm s') (view s') /\ connected (ss_fsm s') = false /\ production s'
  /\ ss_staging s' = ss_staging s.
Proof.
  intros [Hv Hp Hs] Ha. unfold close_existing.
  assert (Hgo : forall s0, ss_fsm s0 = ss_fsm s -> view s0 = view s -> production s0 ->
    ss_staging s0 = ss_staging s ->
    connected (fst (process (ss_fsm s) CollisionDetected)) = false ->
    let s' := fst (process_execute write_ok now CollisionDetected s0) in
    base_ok (ss_fsm s') (view s') /\ connected (ss_fsm s') = false /\ production s'
    /\ ss_staging s' = ss_staging s).
  { intros s0 Ef Ev Hp0 Es Hcn. destruct (process_execute_ok now CollisionDetected s0 Hp0)
      as (s' & E & F & B & _ & P' & Q).
    - rewrite Ef, Ev. destruct Hv as [[] ?]. by split.
    - rewrite E. cbn [fst]. destruct Q as (_ & Q & _). split_and!; try done; [|congruence].
      by rewrite F, Ef. }
  unfold resolve_candidate in Ha. unfold process in Hgo.
  destruct (fsm_state (ss_fsm s)) eqn:Est; cbv zeta.
  1-3: split_and!; [apply Hv|by unfold connected; rewrite Est|done|done].
  - by destruct purpose.
  - by apply Hgo.
  - by apply Hgo.
Qed.

Lemma adopt_candidate_ok now c open s : session_ok s -> staged_deadline (ss_staging s) = None ->
  staged (ss_staging s) = None ->
  resolve_candidate (ss_fsm s) (sn_local_bgp_id (ss_config s)) (cc_purpose c) open = Adopt ->
  session_ok (adopt_candidate write_ok now c open s).
Proof.
  intros Hok Hd Hn Ha. destruct (close_existing_ok now s open _ Hok Ha) as (Hb & Hc & Hp & Hs).
  unfold adopt_candidate. set (s1 := close_existing write_ok now s) in *.
  set (s2 := attach _ _ _ s1).
  destruct (process_execute_ok now TcpConnected s2 Hp) as (s3 & E3 & F3 & _ & V3 & P3 & Q3).
  { change (ss_fsm s2) with (ss_fsm s1). unfold s2. rewrite view_attach. destruct Hb. by split. }
  rewrite E3. cbn [fst]. specialize (V3 ltac:(done)).
  destruct (process_execute_ok now (MessageReceived (BmOpen open)) s3 P3) as (s4 & E4 & F4 & _ & V4 & P4 & Q4).
  { destruct V3 as [[] ?]. by split. }
  rewrite E4. cbn [fst]. split; [by apply V4|done|].
  destruct Q3 as (_ & Q3 & _), Q4 as (_ & Q4 & _). rewrite Q4, Q3.
  change (ss_staging s2) with (ss_staging s1). unfold staging_ok. by rewrite Hs, Hn.
Qed.

Lemma try_resolve_ok now s : session_ok s -> session_ok (try_resolve_pending_candidate write_ok now s).
Proof.
  intros Hok. unfold try_resolve_pending_candidate. pose proof (so_staging s Hok) as Hst.
  unfold staging_ok in Hst. destruct (staged (ss_staging s)) as [c|] eqn:Ec; [|done].
  destruct (cc_open c) as [open|]; [|done].
  assert (Htake : session_ok (take_candidate s)) by (split; [apply Hok|apply Hok|exact Hst]).
  destruct (resolve_candidate _ _ _ _) eqn:Er; [done| |exact Htake].
  apply adopt_candidate_ok; [exact Htake|exact Hst|done|exact Er].
Qed.

(** What an input finds when the task takes it from an arm. *)
Lemma handle_input_ok now i s : production s -> staging_ok (ss_staging s) -> input_ok (ss_fsm s) i (view s) ->
  i <> CollisionDetected -> session_ok (handle_input write_ok now i s).
Proof.
  intros Hp Hs Hi Hne. unfold handle_input.
  set (s1 := if is_established (ss_fsm s) then set_reason (reason_of i) s else s).
  assert (H1 : ss_fsm s1 = ss_fsm s /\ view s1 = view s /\ production s1 /\ ss_staging s1 = ss_staging s)
    by (unfold s1; by destruct (is_established _)).
  destruct H1 as (F1 & V1 & P1 & S1).
  set (s2 := match staged (ss_staging s1) with Some _ => _ | None => _ end).
  assert (H2 : ss_fsm s2 = ss_fsm s /\ view s2 = view s /\ production s2 /\ staging_ok (ss_staging s2)).
  { unfold s2. rewrite S1. destruct (staged (ss_staging s)) as [c|] eqn:Ec.
    - destruct (is_deliberate_stop i); [done|]. by rewrite S1.
    - by rewrite S1. }
  destruct H2 as (F2 & V2 & P2 & S2).
  destruct (process_execute_ok now i s2 P2) as (s3 & E3 & _ & _ & V3 & P3 & Q3); [by rewrite F2, V2|].
  rewrite E3. apply try_resolve_ok. destruct Q3 as (_ & Q3 & _).
  split; [by apply V3|done|by rewrite Q3].
Qed.

(** What an arm leaves: an input the machine can take, or a session in order. *)
Definition arm_ok (r : Session * option FsmInput) : Prop :=
  match snd r with
  | Some i => production (fst r) /\ staging_ok (ss_staging (fst r))
      /\ input_ok (ss_fsm (fst r)) i (view (fst r)) /\ i <> CollisionDetected
  | None => session_ok (fst r)
  end.

(** A step that changes neither the view, but perhaps the connection, nor the
    machine's state. *)
Lemma arm_input_ok s s' i : session_ok s -> ss_fsm s' = ss_fsm s -> production s' ->
  ss_staging s' = ss_staging s -> v_up (view s') = v_up (view s) -> v_retry (view s') = v_retry (view s) \/ i = ConnectRetryTimerExpired ->
  (v_hold (view s') = v_hold (view s) /\ i <> InHoldTimerExpired \/ i = InHoldTimerExpired /\ v_hold (view s') = false) ->
  (v_keepalive (view s') = v_keepalive (view s) /\ i <> KeepaliveTimerExpired
   \/ i = KeepaliveTimerExpired /\ v_keepalive (view s') = false) ->
  (match i with TcpFailed => True | TcpConnected => v_connected (view s') = true
   | _ => v_connected (view s') = v_connected (view s) end) ->
  i <> CollisionDetected -> arm_ok (s', Some i).
Proof.
  intros [[[Hu Hh Hk Hl] Hr] Hp Hs] Ef Hp' Es Eu Er Eh Ek El Hne. unfold arm_ok. cbn [fst snd].
  rewrite Es, Ef. split_and!; [done..| |done].
  split; [congruence| | | |]; destruct i; try done; try (destruct Eh as [[Eh _]|[? ?]]; [congruence|done]);
    try (destruct Ek as [[Ek _]|[? ?]]; [congruence|done]);
    try (destruct Er as [Er|?]; [by rewrite Er|done]); try (by rewrite El);
    destruct Eh as [[? ?]|[? ?]], Ek as [[? ?]|[? ?]]; done.
Qed.

(** Reporting an UPDATE changes nothing the invariant speaks of. *)
Lemma send_update_ok u s : session_ok s -> session_ok (send_event (SeRouteUpdate u) s).
Proof.
  intros [[[Hu Hh Hk Hl] Hr] Hp Hs]. split; [|done|done]. split; [split|exact Hr]; try done.
  cbn [view v_up send_event set_outbox ss_outbox events]. rewrite reported_snoc.
  cbn [view v_up] in Hu. rewrite Hu. by destruct (is_established _).
Qed.

Lemma send_primary_ok m s : session_ok s ->
  exists s', send_primary write_ok m s = (s', true) /\ session_ok s'.
Proof.
  intros Hok. unfold send_primary. destruct (transport (ss_link s)) as [t|] eqn:Et; [|by exists s].
  destruct (write_succeeds t m s) as (o & E & Ee & _). rewrite E. eexists. split; [done|].
  destruct Hok as [[[Hu Hh Hk Hl] Hr] Hp Hs]. split; [|done|done].
  split; [split|exact Hr]; try done. cbn [view v_up set_outbox ss_outbox]. by rewrite Ee.
Qed.

Lemma stage_ok now stream purpose s : session_ok s -> staged (ss_staging s) = None ->
  session_ok (stage_collision_candidate now stream purpose s).
Proof.
  intros [Hv Hp Hs] _. unfold stage_collision_candidate.
  destruct (connection_identity stream Inbound); [|done]. destruct (connect_factory _); [|done].
  split; [exact Hv|exact Hp|]. by eexists.
Qed.

Lemma primary_message_ok m s : session_ok s -> arm_ok (handle_primary_message write_ok m s).
Proof.
  intros Hok. destruct m as [[m|e]|].
  - assert (Hm : arm_ok (s, Some (MessageReceived m))) by (apply (arm_input_ok s); auto; apply Hok).
    destruct m as [o|u|n| |r|m]; try exact Hm. cbn [handle_primary_message].
    unfold handle_malformed_update. destruct (mu_session_reset m).
    { apply (arm_input_ok s); auto; apply Hok. }
    destruct (mu_treat_as_withdraw m && _). { apply (arm_input_ok s); auto; apply Hok. }
    by apply send_update_ok.
  - cbn [handle_primary_message]. set (s1 := match header_error_notification e with Some _ => _ | None => s end).
    assert (H1 : exists o, s1 = set_outbox o s /\ events o = events (ss_outbox s)).
    { unfold s1. destruct (header_error_notification e) as [n|], (transport (ss_link s)) as [t|] eqn:Et;
        try (exists (ss_outbox s); by destruct s).
      destruct (write_succeeds t (BmNotification n) s) as (o & -> & Ee & _). by exists o. }
    destruct H1 as (o & -> & Ee). apply (arm_input_ok s); auto; try apply Hok.
    cbn [view v_up drop_connection set_outbox set_link ss_outbox]. by rewrite Ee.
  - apply (arm_input_ok s); auto; apply Hok.
Qed.

Lemma candidate_message_ok now m s : session_ok s ->
  session_ok (handle_collision_candidate_message write_ok now m s).
Proof.
  intros Hok. unfold handle_collision_candidate_message. destruct (staged (ss_staging s)) as [c|]; [|done].
  set (s1 := set_staging (mkStaging None None) s).
  assert (H1 : session_ok s1) by (split; [apply Hok|apply Hok|done]).
  destruct m as [[[open| | | | |]|]|]; try exact H1. cbv zeta.
  destruct (validate_open _ _) as [h|[e data]].
  - destruct (bool_decide _ && _); [exact H1|]. apply try_resolve_ok.
    split; [apply Hok|apply Hok|done].
  - destruct (write_succeeds (cc_transport c) (BmNotification (mkNotification e data)) s1) as (o & -> & Ee & _).
    destruct H1 as [[[Hu Hh Hk Hl] Hr] Hp Hs]. split; [|done|done].
    split; [split|exact Hr]; try done. cbn [fst view v_up set_outbox ss_outbox]. by rewrite Ee.
Qed.

Lemma incoming_ok now stream s : session_ok s -> arm_ok (handle_incoming_connection now stream s).
Proof.
  intros Hok. unfold handle_incoming_connection.
  destruct (staged (ss_staging s)) eqn:Est; [exact Hok|].
  assert (Hf : connect_factory (ss_link s) = true) by apply Hok.
  destruct (fsm_state (ss_fsm s)).
  1-3: rewrite Hf; apply (arm_input_ok s); auto; apply Hok.
  1-2: by apply stage_ok.
  destruct (peer_has_graceful_restart (ss_fsm s)); [by apply stage_ok|exact Hok].
Qed.

Lemma command_ok now c s : session_ok s -> arm_ok (command_step write_ok now c s).
Proof.
  intros Hok. destruct c as [[| |n|stream|rr|caps]|]; cbn [command_step].
  1-3, 7: apply (arm_input_ok s); auto; apply Hok.
  - by apply incoming_ok.
  - unfold write_or_fail. by destruct (send_primary_ok (BmRouteRefresh rr) s Hok) as (s' & -> & ?).
  - destruct (is_established (ss_fsm s)) eqn:E; [exact Hok|].
    destruct Hok as [[[Hu Hh Hk Hl] Hr] Hp Hs]. split; [|done|done]. by split; [split|].
Qed.

Lemma arm_step_ok now a s : session_ok s -> arm_ok (arm_step write_ok now a s).
Proof.
  intros Hok. destruct a as [c|[stream|]|m|m| | | | |u]; cbn [arm_step].
  - by apply command_ok.
  - apply (arm_input_ok s); auto; apply Hok.
  - apply (arm_input_ok s); auto; apply Hok.
  - by apply primary_message_ok.
  - by apply candidate_message_ok.
  - split; [apply Hok|apply Hok|done].
  - apply (arm_input_ok s); auto; apply Hok.
  - apply (arm_input_ok s); auto; apply Hok.
  - apply (arm_input_ok s); auto; apply Hok.
  - unfold write_or_fail. by destruct (send_primary_ok (BmUpdate u) s Hok) as (s' & -> & ?).
Qed.

Lemma session_step_ok s r : session_ok s -> session_ok (session_step write_ok s r).
Proof.
  intros Hok. unfold session_step. destruct (so_production s Hok) as (_ & _ & ->).
  destruct (select s r) as [a|]; [|done].
  pose proof (arm_step_ok (rd_now r) a s Hok) as Ha. destruct (arm_step _ _ a s) as [s' [i|]]; [|exact Ha].
  destruct Ha as (H1 & H2 & H3 & H4). by apply handle_input_ok.
Qed.
Lemma session_new_ok config : session_ok (session_new config None).
Proof. by repeat split. Qed.
Lemma session_run_ok config rs : session_ok (session_run write_ok (session_new config None) rs).
Proof.
  unfold session_run. generalize (session_new_ok config). generalize (session_new config None) as s.
  induction rs as [|r rs IH]; intros s Hs; [done|]. by apply IH, session_step_ok.
Qed.

(** ** Collision resolution *)

(** The session [s] with connection [t] has staged a colliding candidate [c] from
    the same peer, whose OPEN is about to be read and is acceptable. *)
Record colliding (s : Session) (t : Transport) (c : CollisionCandidate) (open : OpenMessage) : Prop := {
  co_state : fsm_state (ss_fsm s) = OpenConfirm;
  co_peer : peer_bgp_id (ss_fsm s) = Some (bgp_id open);
  co_transport : transport (ss_link s) = Some t;
  co_pair : exists e, transport_identity (ss_link s) = Some e
    /\ is_reversed_pair_with e (cc_identity c) = true;
  co_staged : staged (ss_staging s) = Some c;
  co_purpose : cc_purpose c = Collision;
  co_open : exists h, validate_open (ss_fsm s) open = inl h;
}.

Lemma validate_config f f' o : fsm_config f' = fsm_config f -> validate_open f' o = validate_open f o.
Proof. unfold validate_open. by intros ->. Qed.

(** The candidate loses: it is dropped and nothing else changes. *)
Lemma collision_lost now s t c open : colliding s t c open ->
  sn_local_bgp_id (ss_config s) <? bgp_id open = false ->
  handle_collision_candidate_message write_ok now (Some (inl (BmOpen open))) s
  = set_staging (mkStaging None None) s.
Proof.
  intros [Hs Hp Ht (e & Ee & Hr) Hc Hpu (h & Ho)] Hlt. unfold handle_collision_candidate_message.
  rewrite Hc. cbv zeta. cbn [ss_fsm set_staging ss_link]. rewrite Ho, Ee, Hr. cbn [negb].
  rewrite andb_false_r. unfold try_resolve_pending_candidate.
  cbn [set_staging ss_staging staged cc_open ss_fsm ss_config cc_purpose].
  unfold resolve_candidate. by rewrite Hs, Hpu, Hp, Z.eqb_refl, Hlt.
Qed.

(** The three inputs of an adoption, on a session with a connection. *)
Definition wrote (s s' : Session) (l : list (nat * BgpMessage)) : Prop :=
  sent (ss_outbox s') = sent (ss_outbox s) ++ l /\ events (ss_outbox s') = events (ss_outbox s)
  /\ ss_staging s' = ss_staging s /\ ss_config s' = ss_config s.
Lemma input_collision now s t : fsm_state (ss_fsm s) = OpenConfirm -> transport (ss_link s) = Some t ->
  let s' := fst (process_execute write_ok now CollisionDetected s) in
  ss_fsm s' = clear_session (ss_fsm s) Active
  /\ wrote s s' [(tr_id t, BmNotification (mkNotification (Cease ConnectionCollisionResolution) []))].
Proof.
  destruct s as [cfg [fs fc po neg] tm [t0 ti la ct cf pt pin] st [es se wr] re]. cbn. intros -> ->.
  unfold process_execute, process, write, wrote. cbn. unfold write. cbn. by rewrite Hw.
Qed.
Lemma input_connected now s t : fsm_state (ss_fsm s) = Active -> transport (ss_link s) = Some t ->
  let s' := fst (process_execute write_ok now TcpConnected s) in
  ss_fsm s' = set_state (ss_fsm s) OpenSent /\ ss_link s' = ss_link s
  /\ wrote s s' [(tr_id t, BmOpen (make_open (ss_fsm s)))].
Proof.
  destruct s as [cfg [fs fc po neg] tm [t0 ti la ct cf pt pin] st [es se wr] re]. cbn. intros -> ->.
  unfold process_execute, process, wrote. cbn. unfold write. cbn. by rewrite Hw.
Qed.
Lemma input_open now s t open h : fsm_state (ss_fsm s) = OpenSent -> transport (ss_link s) = Some t ->
  validate_open (ss_fsm s) open = inl h ->
  let s' := fst (process_execute write_ok now (MessageReceived (BmOpen open)) s) in
  ss_fsm s' = mkFsm OpenConfirm (fsm_config (ss_fsm s)) (Some open) h /\ ss_link s' = ss_link s
  /\ wrote s s' [(tr_id t, BmKeepalive)].
Proof.
  destruct s as [cfg [fs fc po neg] tm [t0 ti la ct cf pt pin] st [es se wr] re]. cbn -[validate_open].
  intros -> -> Ho. unfold process_execute, process, wrote. cbn -[validate_open]. rewrite Ho.
  unfold push_timer_actions. destruct (0 <? h); cbn; unfold write; cbn; by rewrite Hw.
Qed.

(** The candidate wins: the old connection gets a CEASE, and the new one carries
    the session, in OpenConfirm. *)
Lemma collision_won now s t c open : colliding s t c open ->
  sn_local_bgp_id (ss_config s) <? bgp_id open = true ->
  let s' := handle_collision_candidate_message write_ok now (Some (inl (BmOpen open))) s in
  let id := tr_id (cc_transport c) in
  fsm_state (ss_fsm s') = OpenConfirm /\ fsm_peer_open (ss_fsm s') = Some open
  /\ transport (ss_link s') = Some (cc_transport c)
  /\ transport_identity (ss_link s') = Some (cc_identity c)
  /\ staged (ss_staging s') = None
  /\ sent (ss_outbox s') = sent (ss_outbox s)
      ++ [(tr_id t, BmNotification (mkNotification (Cease ConnectionCollisionResolution) []));
          (id, BmOpen (make_open (ss_fsm s))); (id, BmKeepalive)]
  /\ events (ss_outbox s') = events (ss_outbox s).
Proof.
  intros [Hs Hp Ht (e & Ee & Hr) Hc Hpu (h & Ho)] Hlt s' id. subst s' id.
  unfold handle_collision_candidate_message. rewrite Hc. cbv zeta. cbn [ss_fsm set_staging ss_link].
  rewrite Ho, Ee, Hr. cbn [negb]. rewrite andb_false_r. unfold try_resolve_pending_candidate.
  cbn [set_staging ss_staging staged cc_open ss_fsm ss_config cc_purpose].
  assert (Hv : resolve_candidate (ss_fsm s) (sn_local_bgp_id (ss_config s)) (cc_purpose c) open = Adopt).
  { unfold resolve_candidate. by rewrite Hs, Hpu, Hp, Z.eqb_refl, Hlt. }
  rewrite Hv. unfold adopt_candidate, close_existing.
  set (s0 := take_candidate _). assert (Es : fsm_state (ss_fsm s0) = OpenConfirm) by done. rewrite Es.
  destruct (input_collision now s0 t Es Ht) as (F1 & W1 & V1 & G1 & _).
  set (s1 := fst (process_execute write_ok now CollisionDetected s0)) in *.
  set (s2 := attach _ _ _ s1).
  destruct (input_connected now s2 (cc_transport c)) as (F3 & L3 & W3 & V3 & G3 & _); [by change (fsm_state (ss_fsm s1) = Active); rewrite F1|done|].
  set (s3 := fst (process_execute write_ok now TcpConnected s2)) in *.
  destruct (input_open now s3 (cc_transport c) open h) as (F4 & L4 & W4 & V4 & G4 & _);
    [by rewrite F3|by rewrite L3| |].
  { rewrite <- Ho. apply validate_config. rewrite F3. change (ss_fsm s2) with (ss_fsm s1). by rewrite F1. }
  rewrite F4, L4, L3, W4, W3, V4, V3, G4, G3. change (ss_fsm s2) with (ss_fsm s1).
  change (ss_outbox s2) with (ss_outbox s1). change (ss_staging s2) with (ss_staging s1).
  rewrite W1, V1, G1, F1, <- !app_assoc. by split_and!.
Qed.
End Writes.
End SessionFacts.

(** ** Theorems *)
Section Claims.
Context `{P : IpPrefixOps}.



(** A session that ends with a NOTIFICATION it cannot write is never reported
    as ended.  The failed write cuts the rest of the actions, and the machine is
    already in Idle when it is told of the failure, so neither is the daemon told
    nor a retry scheduled: the task is left idle with nothing to wait for. *)
Theorem unwritten_notification_unreported write_ok now s t i :
  fsm_state (ss_fsm s) = Established -> transport (ss_link s) = Some t ->
  staged (ss_staging s) = None -> write_ok (writes (ss_outbox s)) = false ->
  match i with InHoldTimerExpired | ManualStop => True
  | NotificationToSend _ | ProtocolErrorNotificationToSend _ => True | _ => False end ->
  let s' := handle_input write_ok now i s in
  fsm_state (ss_fsm s') = Idle /\ events (ss_outbox s') = events (ss_outbox s)
  /\ transport (ss_link s') = None /\ connect_task (ss_link s') = false
  /\ retry_deadline (ss_timers s') = retry_deadline (ss_timers s).
Proof.
  destruct s as [cfg [fs fc po neg] tm [t0 ti la ct cf pt pin] [sg sd] [es se wr] re]. cbn.
  intros -> -> -> Hf Hi. unfold handle_input. cbn [ss_fsm].
  assert (E : is_established (mkFsm Established fc po neg) = true) by done. rewrite E. clear E.
  unfold process_execute, process. cbn.
  destruct i; try done; cbn; unfold write; cbn; rewrite Hf; cbn; split_and!; done.
Qed.

(** A connect that is still running when an inbound connection was accepted
    takes the session over when it ends.  If it succeeds, the established session
    goes on with the new connection, on which nothing was negotiated, and its own
    is dropped; if it fails, the session is torn down. *)
Theorem late_connect_disrupts write_ok s now stream :
  fsm_state (ss_fsm s) = Established -> connect_task (ss_link s) = true ->
  staged (ss_staging s) = None -> pending_input (ss_link s) = None ->
  let finished r := mkReady now None (Some r) None None None in
  (let s' := session_step write_ok s (finished (Some stream)) in
   ss_fsm s' = ss_fsm s /\ transport (ss_link s') = Some (from_stream stream)
   /\ ss_outbox s' = ss_outbox s)
  /\ (let s' := session_step write_ok s (finished None) in
   fsm_state (ss_fsm s') = Idle /\ transport (ss_link s') = None
   /\ events (ss_outbox s') = events (ss_outbox s) ++ [SeTerminated TrUnclean]).
Proof.
  destruct s as [cfg [fs fc po neg] tm [t0 ti la ct cf pt pin] [sg sd] [es se wr] re]. cbn.
  by intros -> -> -> ->.
Qed.

(** An inbound connection that is accepted while the machine is Idle is never
    answered: it becomes the session's connection, but the machine ignores it and
    no OPEN is sent. *)
Theorem idle_accept_unanswered write_ok s now stream :
  fsm_state (ss_fsm s) = Idle -> production s -> staged (ss_staging s) = None ->
  let s' := session_step write_ok s
              (mkReady now (Some (Some (ScIncomingConnection stream))) None None None None) in
  transport (ss_link s') = Some (from_stream stream) /\ ss_fsm s' = ss_fsm s
  /\ ss_outbox s' = ss_outbox s /\ ss_timers s' = ss_timers s.
Proof.
  destruct s as [cfg [fs fc po neg] tm [t0 ti la ct cf pt pin] [sg sd] [es se wr] re]. unfold production.
  cbn. by intros -> (-> & -> & ->) ->.
Qed.

(** A malformed UPDATE bypasses the machine.  It is reported to the daemon in
    whatever state the session is, also before the peer has sent an OPEN, and
    leaves the machine as it was. *)
Theorem malformed_update_bypasses write_ok s now t m :
  transport (ss_link s) = Some t -> pending_input (ss_link s) = None -> mu_session_reset m = false ->
  (mu_treat_as_withdraw m = true -> is_nlri_less_with_attributes (mu_update m) (mu_errors m) = false) ->
  let u := if mu_treat_as_withdraw m then make_treat_as_withdraw (mu_update m) else mu_update m in
  session_step write_ok s (mkReady now None None (Some (Some (inl (BmMalformedUpdate m)))) None None)
  = send_event (SeRouteUpdate u) s.
Proof.
  destruct s as [cfg f tm [t0 ti la ct cf pt pin] [sg sd] [es se wr] re].
  cbn [ss_link transport pending_input]. intros -> -> Hr Hn. unfold session_step, select. cbn.
  unfold handle_malformed_update. rewrite Hr.
  destruct (mu_treat_as_withdraw m); cbn [andb]; [|done]. by rewrite Hn.
Qed.
End Claims.

(** ** Witnesses *)
Section Witnesses.
#[local] Existing Instances ModelPrefix.ops ModelPrefix.laws.

Definition quiet : Ready := mkReady 0 None None None None None.
Definition on_command (c : SessionCommand) : Ready := mkReady 0 (Some (Some c)) None None None None.
Definition on_connected (r : option Stream) : Ready := mkReady 0 None (Some r) None None None.
Definition on_message (m : BgpMessage) : Ready := mkReady 0 None None (Some (Some (inl m))) None None.
Definition all_ok (n : nat) : bool := true.

(** Two speakers, their addresses, and the connections each dials. *)
Definition config_a : SessionConfig :=
  mkSessionConfig 65001 167772161 90 120 [CapFourByteAsn 65001] [] (Some 65002) false 65001 (IpV4 3221225986, 179) None.
Definition config_b : SessionConfig :=
  mkSessionConfig 65002 167772162 90 120 [CapFourByteAsn 65002] [] (Some 65001) false 65002 (IpV4 3221225985, 179) None.
Definition addr_a : option IpAddr := Some (IpV4 3221225985).
Definition addr_b : option IpAddr := Some (IpV4 3221225986).
Definition open_a : OpenMessage := make_open (fsm_new (fsm_config_of config_a)).
Definition open_b : OpenMessage := make_open (fsm_new (fsm_config_of config_b)).

(** Each dials (connections 1 and 2), reads the other's OPEN, and is then given
    the connection of the other. *)
Definition session_a : Session := session_run all_ok (session_new config_a None)
  [on_command ScStart; on_connected (Some (mkStream 1 addr_a addr_b)); on_message (BmOpen open_b);
   on_command (ScIncomingConnection (mkStream 2 addr_a addr_b))].
Definition session_b : Session := session_run all_ok (session_new config_b None)
  [on_command ScStart; on_connected (Some (mkStream 2 addr_b addr_a)); on_message (BmOpen open_a);
   on_command (ScIncomingConnection (mkStream 1 addr_b addr_a))].


Definition candidate_of (s : Session) (t : Transport) (local : Z) (peer : Z) : CollisionCandidate :=
  mkCandidate t (mkIdentity (IpV4 local) (IpV4 peer) Inbound) None Collision.
Definition plain (id : nat) : Transport := mkTransport id codec_new.

(** The third write, of the NOTIFICATION, fails. *)
Definition third_fails (n : nat) : bool := (n <? 2)%nat.
Definition established_a : Session := session_run third_fails (session_new config_a None)
  [on_command ScStart; on_connected (Some (mkStream 1 addr_a addr_b)); on_message (BmOpen open_b);
   on_message BmKeepalive].
Lemma unwritten_notification_unreported_witness :
  reported (events (ss_outbox established_a)) = Some true
  /\ fsm_state (ss_fsm (handle_input third_fails 0 InHoldTimerExpired established_a)) = Idle
  /\ events (ss_outbox (handle_input third_fails 0 InHoldTimerExpired established_a))
     = events (ss_outbox established_a).
Proof.
  destruct (unwritten_notification_unreported third_fails 0 established_a (plain 1) InHoldTimerExpired)
    as (H1 & H2 & _); [reflexivity..|exact I|].
  split; [reflexivity|exact (conj H1 H2)].
Defined.

(** The connect of A is still running when B's connection is accepted. *)
Definition accepted_a : Session := session_run all_ok (session_new config_a None)
  [on_command ScStart; on_command (ScIncomingConnection (mkStream 2 addr_a addr_b));
   on_message (BmOpen open_b); on_message BmKeepalive].
Lemma late_connect_disrupts_witness :
  let s := session_step all_ok accepted_a (on_connected (Some (mkStream 1 addr_a addr_b))) in
  is_established (ss_fsm s) = true /\ tr_id <$> transport (ss_link s) = Some 1%nat.
Proof.
  destruct (late_connect_disrupts all_ok accepted_a 0 (mkStream 1 addr_a addr_b)) as [(H1 & H2 & _) _];
    [reflexivity..|].
  split; [exact (f_equal is_established H1)|exact (f_equal (fun o => tr_id <$> o) H2)].
Defined.

Lemma idle_accept_unanswered_witness :
  ss_outbox (session_step all_ok (session_new config_a None)
    (on_command (ScIncomingConnection (mkStream 2 addr_a addr_b)))) = mkOutbox [] [] 0.
Proof.
  exact (proj1 (proj2 (proj2 (idle_accept_unanswered all_ok (session_new config_a None) 0
    (mkStream 2 addr_a addr_b) eq_refl (conj eq_refl (conj eq_refl eq_refl)) eq_refl)))).
Defined.

(** An UPDATE with a bad attribute, before any OPEN. *)
Definition unopened : Session := session_run all_ok (session_new config_a None)
  [on_command ScStart; on_connected (Some (mkStream 1 addr_a addr_b))].
Definition bad_update : MalformedUpdate :=
  mkMalformed (mkUpdate [] [] []) [mkAttributeDecodeError 7 AttributeDiscard Strings.String.EmptyString] false false.
Lemma malformed_update_bypasses_witness :
  fsm_peer_open (ss_fsm unopened) = None
  /\ length (events (ss_outbox (session_step all_ok unopened (on_message (BmMalformedUpdate bad_update))))) = 1%nat.
Proof.
  split; [reflexivity|].
  exact (f_equal (fun s => length (events (ss_outbox s)))
    (malformed_update_bypasses all_ok unopened 0 (plain 1) bad_update eq_refl eq_refl eq_refl ltac:(done))).
Defined.
End Witnesses.
