(* ===== verification/Grpc.v ===== *)
(** The management API of the daemon ([pathvectord/src/grpc.rs]).

    One definition per conversion and per RPC handler.  A handler reads the daemon
    state, or changes it and answers; [Err] is the status it returns instead, and
    then the state is unchanged.  What a handler sends to the command processor
    or a session is part of its answer.  Tonic and the broadcast channels are left out; the clocks of route origination are arguments. *)
From Stdlib Require Import ZArith Lia Bool String.
From stdpp Require Import base tactics numbers decidable sorting gmap list.
From S2P Require Import Prelude Addr AddrText Types Proto AsPath Wire Notification Open Message Fsm RouteMap Rtr Roa RtrClient Policy Route DaemonPolicy BestPath LocRib AdjRib Outbound Deferral Session DaemonState RouteUpdate EventLoop.
Open Scope Z_scope.

(** ** Conversions *)

Definition proto_origin (o : Origin) : Z :=
  match o with Igp => Num.ORIGIN_IGP | Egp => Num.ORIGIN_EGP | Incomplete => Num.ORIGIN_INCOMPLETE end.
Definition proto_peer_type (pt : PeerType) : Z :=
  match pt with
  | External => Num.PEER_TYPE_EXTERNAL
  | Internal => Num.PEER_TYPE_INTERNAL
  | Types.Local => Num.PEER_TYPE_UNSPECIFIED
  | ConfedMember => Num.PEER_TYPE_CONFED_MEMBER
  end.
Definition proto_as_segment (seg : AsPathSegment) : ProtoAsSegment :=
  match seg with
  | Sequence asns => mkProtoAsSegment Num.AS_SEQUENCE asns
  | Set_ asns => mkProtoAsSegment Num.AS_SET asns
  | ConfedSequence asns => mkProtoAsSegment Num.AS_CONFED_SEQUENCE asns
  | ConfedSet asns => mkProtoAsSegment Num.AS_CONFED_SET asns
  end.
Definition next_hop_text (nh : option NextHop) : Text :=
  match nh with
  | Some (NhV4 ip) => addr_to_string (IpV4 ip)
  | Some (NhV6 ip) => addr_to_string (IpV6 ip)
  | Some (NhV6WithLinkLocal global _) => addr_to_string (IpV6 global)
  | None => []
  end.
Definition role_to_str (role : Role) : Text :=
  match role with
  | Provider => text "provider"
  | RouteServer => text "rs"
  | RsClient => text "rs_client"
  | Customer => text "customer"
  | Peer => text "peer"
  end.
(** [u32::try_from(n).unwrap_or(u32::MAX)] *)
Definition u32_saturating (n : nat) : Z := Z.min (Z.of_nat n) (2 ^ 32 - 1).

Section Grpc.
Context `{P : IpPrefixOps} {M : RouteMapOps} {HO : HashOrder} {NT : NlriText}.

(** [route_to_proto] for IPv4, [route_v6_to_proto] for IPv6 *)
Definition peer_text (f : Family) (peer : PeerId) (pt : PeerType) : Text :=
  match f with
  | FamV4 => if bool_decide (pt = Types.Local) then text "local" else addr_to_string peer
  | FamV6 => addr_to_string peer
  end.
Definition route_to_proto {f} (peer : PeerId) (n : Nlri f) (route : Route f) : ProtoRoute :=
  let rare := rare_or_default route in
  mkProtoRoute (nlri_to_string n) (peer_text f peer (peer_type route)) (proto_peer_type (peer_type route))
    (next_hop_text (next_hop route)) (map proto_as_segment (as_path route)) (proto_origin (origin route))
    (local_pref route) (med route) (communities rare) (large_communities rare) (extended_communities rare)
    (atomic_aggregate rare)
    ((fun agg => mkProtoAggregator (agg_asn agg) (addr_to_string (IpV4 (agg_ip agg)))) <$> aggregator rare).

(** ** [PeerService] *)

Definition build_peer_state (now : Instant) (d : DaemonState) (addr : IpAddr) : option ProtoPeerState :=
  remote_as ← peer_remote_as (ds_peers d) !! addr;
  let s := ds_sess d in
  let '(session_state, pt, hold_time, uptime_seconds) :=
    match peer_types s !! addr with
    | Some pt =>
        (Num.SESSION_ESTABLISHED, proto_peer_type pt, default 0 (hold_times s !! addr),
         match established_at s !! addr with
         | Some t => Z.max 0 (now - t) / from_secs 1 | None => 0 end)
    | None => (Num.SESSION_IDLE, Num.PEER_TYPE_UNSPECIFIED, 0, 0)
    end in
  let count (m : gmap IpAddr nat) := match m !! addr with Some n => u32_saturating n | None => 0 end in
  let lr := loc_rib (ds_v4 d) in
  let accepted := List.filter (fun x => bool_decide (best_peer lr x.1 = Some addr)) (best_routes lr) in
  let role (o : option Role) := match o with Some r => role_to_str r | None => [] end in
  Some (mkProtoPeerState (addr_to_string addr) remote_as (local_as (ds_local d)) session_state pt hold_time
    uptime_seconds (count (prefixes_received (ds_obs d))) (u32_saturating (length accepted))
    (count (prefixes_advertised (ds_obs d)))
    (bool_decide (addr ∈ eor_received (ds_v4 d))) (bool_decide (addr ∈ eor_received (ds_v6 d)))
    (default 0 (gr_capable_peers s !! addr)) (role (peer_roles (ds_peers d) !! addr))
    (role (negotiated_roles s !! addr))).
Definition all_peers (now : Instant) (d : DaemonState) : list ProtoPeerState :=
  sort_by_text pp_address
    (omap (build_peer_state now d) (hash_order (map_to_list (peer_remote_as (ds_peers d)))).*1).
Definition list_peers (now : Instant) (d : DaemonState) : list ProtoPeerState := all_peers now d.
Definition get_peer (now : Instant) (address : Text) (d : DaemonState) : Outcome Status ProtoPeerState :=
  addr ← ok_or (addr_parse address) InvalidArgument;
  ok_or (build_peer_state now d addr) NotFoundStatus.

(** [WatchPeers]: the current states, then what the broadcast channel delivers: a
    signal without a peer stands for the states at that time. *)
Inductive PeerItem :=
| PiChanged (now : Instant) (d : DaemonState)
| PiEvent (e : ProtoPeerEvent)
| PiLagged.
Fixpoint forward_peers (items : list PeerItem) : list (ProtoPeerEvent + Status) :=
  match items with
  | [] => []
  | PiChanged now d :: items =>
      map (fun p => inl (mkProtoPeerEvent Num.EVENT_CHANGED (Some p))) (all_peers now d) ++ forward_peers items
  | PiEvent e :: items => inl e :: forward_peers items
  | PiLagged :: _ => [inr DataLoss]
  end.
Definition watch_peers (now : Instant) (d : DaemonState) (items : list PeerItem)
    : list (ProtoPeerEvent + Status) :=
  map (fun p => inl (mkProtoPeerEvent Num.EVENT_CURRENT (Some p))) (all_peers now d)
  ++ [inl (mkProtoPeerEvent Num.EVENT_END_INITIAL None)] ++ forward_peers items.

Definition proto_policy_to_config (action : Z) : option DefaultAction :=
  if action =? Num.ACTION_ACCEPT then Some DefAccept
  else if action =? Num.ACTION_REJECT then Some DefReject else None.
(** RFC 7607 *)
Definition validate_remote_as (remote_as : Z) : Outcome Status unit :=
  if (remote_as =? 0) || (remote_as =? 23456) then Err InvalidArgument else Ok tt.
(** [AddPeer]: the peer of the command that is sent. *)
Definition add_peer_rpc (channel_open : bool) (req : AddPeerRequest) (d : DaemonState)
    : Outcome Status PeerConfig :=
  addr ← ok_or (addr_parse (aq_address req)) InvalidArgument;
  _ ← validate_remote_as (aq_remote_as req);
  port ← (if aq_port req =? 0 then Ok 179
          else if aq_port req <? 65536 then Ok (aq_port req) else Err InvalidArgument);
  let md5_password := match aq_md5_password req with [] => None | p => Some p end in
  let peer := mkPeerConfig addr (aq_remote_as req) (proto_policy_to_config (aq_import_default req)) None
    (proto_policy_to_config (aq_export_default req)) false false false None None None None None None
    port md5_password None in
  if bool_decide (addr ∈ pending_removal (ds_peers d)) then Err FailedPrecondition
  else if channel_open then Ok peer else Err InternalStatus.
Definition remove_peer_rpc (channel_open : bool) (address : Text) (d : DaemonState) : Outcome Status IpAddr :=
  addr ← ok_or (addr_parse address) InvalidArgument;
  match peer_remote_as (ds_peers d) !! addr with
  | None => Err NotFoundStatus
  | Some _ => if channel_open then Ok addr else Err InternalStatus
  end.
(** [SoftReset]: what is sent to the session. *)
Definition soft_reset (channel_open : bool) (address afi_safi : Text) (stops : gset IpAddr) (d : DaemonState)
    : Outcome Status (IpAddr * SessionCommand) :=
  addr ← ok_or (addr_parse address) InvalidArgument;
  afi ← (if bool_decide (afi_safi = []) || bool_decide (afi_safi = text "ipv4") then Ok IPV4_UNICAST
         else if bool_decide (afi_safi = text "ipv6") then Ok IPV6_UNICAST else Err InvalidArgument);
  match peer_remote_as (ds_peers d) !! addr with
  | None => Err NotFoundStatus
  | Some _ =>
      match peer_types (ds_sess d) !! addr with
      | None => Err FailedPrecondition
      | Some _ =>
          if negb (bool_decide (addr ∈ route_refresh_peers (ds_sess d))) then Err FailedPrecondition
          else if negb (bool_decide (addr ∈ stops)) then Err FailedPrecondition
          else if channel_open then Ok (addr, ScRouteRefresh (mkRouteRefresh afi Refresh))
          else Err InternalStatus
      end
  end.

(** ** [RibService] *)

Definition parse_nlri f (s : Text) : Outcome Status (Nlri f) := ok_or (nlri_parse f s) InvalidArgument.
Definition best_in {f} (lr : LocRib f) (n : Nlri f) : option ProtoRoute :=
  (fun route => route_to_proto (default (IpV4 0) (best_peer lr n)) n route) <$> best lr n.
(** [GetBestRoute]: [None] is [found = false]. *)
Definition get_best_route (prefix : Text) (d : DaemonState) : Outcome Status (option ProtoRoute) :=
  match nlri_parse FamV4 prefix with
  | Some n => Ok (best_in (loc_rib (ds_v4 d)) n)
  | None =>
      match nlri_parse FamV6 prefix with
      | Some n => Ok (best_in (loc_rib (ds_v6 d)) n)
      | None => Err InvalidArgument
      end
  end.
Definition filtered_routes {f} (peer_filter : option PeerId) (lr : LocRib f) : list ProtoRoute :=
  omap (fun '(n, route) =>
    peer ← best_peer lr n;
    if match peer_filter with None => true | Some p => bool_decide (p = peer) end
    then Some (route_to_proto peer n route) else None) (best_routes lr).
Definition all_routes (peer_filter : option PeerId) (d : DaemonState) : list ProtoRoute :=
  filtered_routes peer_filter (loc_rib (ds_v4 d)) ++ filtered_routes peer_filter (loc_rib (ds_v6 d)).
Definition parse_filter (s : Text) : Outcome Status (option PeerId) :=
  match s with [] => Ok None | _ => a ← ok_or (addr_parse s) InvalidArgument; Ok (Some a) end.
(** The page after the cursor. *)
Fixpoint position {A} (p : A -> bool) (l : list A) : option nat :=
  match l with
  | [] => None
  | x :: l => if p x then Some 0%nat else S <$> position p l
  end.
Definition page_of (page_size : nat) (page_token : Text) (all : list ProtoRoute) : ListRoutesResponse :=
  let start := match page_token with
               | [] => 0%nat
               | _ => match position (fun r => bool_decide (pr_prefix r = page_token)) all with
                      | Some i => S i | None => 0%nat end
               end in
  let page := firstn page_size (skipn start all) in
  mkRoutesResponse page
    (if (start + page_size <? length all)%nat
     then match List.last (map Some page) None with Some r => pr_prefix r | None => [] end else []).
Definition list_routes (req : ListRoutesRequest) (d : DaemonState) : Outcome Status ListRoutesResponse :=
  peer_filter ← parse_filter (lq_peer_address req);
  let all := all_routes peer_filter d in
  if lq_page_size req =? 0 then Ok (mkRoutesResponse all [])
  else Ok (page_of (Z.to_nat (lq_page_size req)) (lq_page_token req) (sort_by_text pr_prefix all)).
Definition list_candidates (prefix : Text) (d : DaemonState) : Outcome Status (list ProtoRoute) :=
  n ← parse_nlri FamV4 prefix;
  Ok (match candidates_of (loc_rib (ds_v4 d)) n with
      | Some l => map (fun '(peer, route) => route_to_proto peer n route) (hash_order l)
      | None => [] end).
(** [WatchRoutes]: the best routes of the state [d], then what the broadcast channel
    delivers from the subscription on. *)
Definition event_to_proto (e : RouteEvent) : ProtoRouteEvent :=
  match e with
  | EvAnnounced f p n r => mkProtoRouteEvent Num.EVENT_ANNOUNCED (Some (route_to_proto p n r)) None
  | EvWithdrawn f n => mkProtoRouteEvent Num.EVENT_WITHDRAWN None (Some (nlri_to_string n))
  end.
Definition watch_filter (s : Text) : Outcome Status (option PeerId) :=
  if bool_decide (s = text "local") then Ok (Some LOCAL_ORIGIN_PEER) else parse_filter s.
Inductive RouteItem := RiEvent (e : RouteEvent) | RiLagged.
Fixpoint forward_routes (items : list RouteItem) : list (ProtoRouteEvent + Status) :=
  match items with
  | [] => []
  | RiEvent e :: items => inl (event_to_proto e) :: forward_routes items
  | RiLagged :: _ => [inr DataLoss]
  end.
Definition watch_routes (peer_address : Text) (d : DaemonState) (live : list RouteItem)
    : Outcome Status (list (ProtoRouteEvent + Status)) :=
  peer_filter ← watch_filter peer_address;
  Ok (map (fun r => inl (mkProtoRouteEvent Num.EVENT_CURRENT (Some r) None)) (all_routes peer_filter d)
      ++ [inl (mkProtoRouteEvent Num.EVENT_END_INITIAL None None)] ++ forward_routes live).

(** ** [PolicyService] *)

(** A daemon operation inside a handler: it has no error of its own. *)
Definition run {A} (o : Outcome False A) : Outcome Status A :=
  match o with Ok a => Ok a | Err e => match e with end | Panic => Panic | OutOfFuel => OutOfFuel end.
Definition parse_policy_action (action : Z) : Outcome Status DefaultAction :=
  ok_or (proto_policy_to_config action) InvalidArgument.
Definition set_import_default_rpc (peer_address : Text) (action : Z) (now : IpAddr -> Instant)
    (d : DaemonState) : Outcome Status DaemonState :=
  ip ← ok_or (addr_parse peer_address) InvalidArgument;
  action ← parse_policy_action action;
  match import_policies (policies (ds_peers d)) !! ip with
  | None => Err NotFoundStatus
  | Some _ => run (set_import_default ip action now d)
  end.
Definition set_export_default_rpc (peer_address : Text) (action : Z) (d : DaemonState)
    : Outcome Status DaemonState :=
  ip ← ok_or (addr_parse peer_address) InvalidArgument;
  action ← parse_policy_action action;
  match export_policies (policies (ds_peers d)) !! ip with
  | None => Err NotFoundStatus
  | Some _ => run (set_export_default ip action d)
  end.

(** ** [OriginationService] *)

Definition parse_origin (n : Z) : Origin :=
  if n =? Num.ORIGIN_IGP then Igp else if n =? Num.ORIGIN_EGP then Egp else Incomplete.
Definition parse_extended (l : list (list Z)) : Outcome Status (list (list Z)) :=
  if forallb (fun b => (length b =? 8)%nat) l then Ok l else Err InvalidArgument.
(** The part of the builder both families share. *)
Definition build_originated {f} (req : OriginateRouteRequest) (builder : Route f) : Route f :=
  let builder := foldl b_community builder (oq_communities req) in
  let builder := foldl b_large_community builder (oq_large_communities req) in
  let builder := foldl b_extended_community builder (oq_extended_communities req) in
  let builder := match oq_local_pref req with Some lp => b_local_pref builder lp | None => builder end in
  match oq_med req with Some med => b_med builder med | None => builder end.
(** [parse_originate_request] and [parse_originate_request_v6] *)
Definition parse_originate_request (secs : Z) (req : OriginateRouteRequest)
    : Outcome Status (Route FamV4) :=
  n ← ok_or (nlri_parse FamV4 (oq_prefix req)) InvalidArgument;
  next_hop_ip ← ok_or (v4_parse (oq_next_hop req)) InvalidArgument;
  _ ← (if next_hop_ip =? 0 then Err InvalidArgument else Ok tt);
  _ ← parse_extended (oq_extended_communities req);
  Ok (build_originated req
        (set_peer_type (b_next_hop (builder_new secs n (parse_origin (oq_origin req)) []) (NhV4 next_hop_ip))
           Types.Local)).
Definition parse_originate_request_v6 (secs : Z) (req : OriginateRouteRequest)
    : Outcome Status (Route FamV6) :=
  n ← ok_or (nlri_parse FamV6 (oq_prefix req)) InvalidArgument;
  _ ← parse_extended (oq_extended_communities req);
  Ok (build_originated req
        (set_peer_type (builder_new secs n (parse_origin (oq_origin req)) []) Types.Local)).
Definition is_ipv6_prefix (prefix : Text) : bool := bool_decide (COLON ∈ prefix).

(** The clocks of the two propagations. *)
Definition RpcClock : Type := Family -> IpAddr -> Instant.
Definition originate_route_rpc (secs : Z) (ck : RpcClock) (req : OriginateRouteRequest) (d : DaemonState)
    : Outcome Status DaemonState :=
  if is_ipv6_prefix (oq_prefix req) then
    route ← parse_originate_request_v6 secs req; run (originate_routes [route] (ck FamV6) d)
  else
    route ← parse_originate_request secs req; run (originate_routes [route] (ck FamV4) d).
(** The loop that sorts a batch by family; it stops at the first bad request. *)
Fixpoint parse_batch (secs : Z) (reqs : list OriginateRouteRequest)
    : Outcome Status (list (Route FamV4) * list (Route FamV6)) :=
  match reqs with
  | [] => Ok ([], [])
  | req :: reqs =>
      if is_ipv6_prefix (oq_prefix req) then
        route ← parse_originate_request_v6 secs req;
        '(v4, v6) ← parse_batch secs reqs; Ok (v4, route :: v6)
      else
        route ← parse_originate_request secs req;
        '(v4, v6) ← parse_batch secs reqs; Ok (route :: v4, v6)
  end.
Definition nonempty_then {A S} (l : list A) (g : list A -> S -> Outcome False S) (d : S) : Outcome False S :=
  match l with [] => Ok d | _ => g l d end.
Definition originate_routes_rpc (secs : Z) (ck : RpcClock) (reqs : list OriginateRouteRequest)
    (d : DaemonState) : Outcome Status (DaemonState * Z) :=
  '(v4, v6) ← parse_batch secs reqs;
  d ← run (nonempty_then v4 (fun l => originate_routes l (ck FamV4)) d);
  d ← run (nonempty_then v6 (fun l => originate_routes l (ck FamV6)) d);
  Ok (d, u32_saturating (length reqs)).
Definition withdraw_originated_route_rpc (ck : RpcClock) (prefix : Text) (d : DaemonState)
    : Outcome Status DaemonState :=
  if is_ipv6_prefix prefix then
    n ← parse_nlri FamV6 prefix; run (withdraw_originated_routes [n] (ck FamV6) d)
  else
    n ← parse_nlri FamV4 prefix; run (withdraw_originated_routes [n] (ck FamV4) d).
Fixpoint parse_prefixes (prefixes : list Text) : Outcome Status (list (Nlri FamV4) * list (Nlri FamV6)) :=
  match prefixes with
  | [] => Ok ([], [])
  | p :: prefixes =>
      if is_ipv6_prefix p then
        n ← parse_nlri FamV6 p; '(v4, v6) ← parse_prefixes prefixes; Ok (v4, n :: v6)
      else
        n ← parse_nlri FamV4 p; '(v4, v6) ← parse_prefixes prefixes; Ok (n :: v4, v6)
  end.
Definition withdraw_originated_routes_rpc (ck : RpcClock) (prefixes : list Text) (d : DaemonState)
    : Outcome Status (DaemonState * Z) :=
  '(v4, v6) ← parse_prefixes prefixes;
  d ← run (nonempty_then v4 (fun l => withdraw_originated_routes l (ck FamV4)) d);
  d ← run (nonempty_then v6 (fun l => withdraw_originated_routes l (ck FamV6)) d);
  Ok (d, u32_saturating (length prefixes)).
Definition list_originated_routes (d : DaemonState) : list ProtoRoute :=
  omap (fun n => route_to_proto LOCAL_ORIGIN_PEER n <$> best (loc_rib (ds_v4 d)) n)
    (hash_order (elements (originated_routes (ds_v4 d)))).

(** ** [RpkiService] *)

Definition roa_validity_to_proto (v : RoaValidity) : Z :=
  match v with Valid => Num.ROA_VALID | Invalid => Num.ROA_INVALID | NotFound => Num.ROA_NOT_FOUND end.
(** [GetRpkiStatus]; the text of an error and the Unix time of a clock reading are
    arguments. *)
Definition rtr_version_text (v : option RtrVersion) : Text :=
  match v with Some V0 => text "0" | Some V1 => text "1" | None => [] end.
Definition get_rpki_status (error_text : RtrError + list Z -> Text) (unix_secs : Instant -> option Z)
    (rpki : option RtrStatus) : RpkiStatusResponse :=
  match rpki with
  | None => mkRpkiStatus false false [] None 0 None []
  | Some status =>
      mkRpkiStatus true (connected status) (rtr_version_text (version status)) (status_serial status)
        (Z.of_nat (RtrClient.roa_count status)) (last_update status ≫= unix_secs)
        (match last_error status with Some e => error_text e | None => [] end)
  end.
Definition validate_roa (rpki : option RoaTable) (prefix : Text) (origin_as : Z) : Outcome Status Z :=
  match rpki with
  | None => Err FailedPrecondition
  | Some t =>
      match nlri_parse FamV4 prefix with
      | Some n => Ok (roa_validity_to_proto (validate_v4 t (nlri_ip n) (prefix_len n) origin_as))
      | None =>
          match nlri_parse FamV6 prefix with
          | Some n => Ok (roa_validity_to_proto (validate_v6 t (nlri_ip n) (prefix_len n) origin_as))
          | None => Err InvalidArgument
          end
      end
  end.
End Grpc.
