(* ===== verification/ApiClient.v ===== *)
(** The client of the management API ([pathvector-client/src/convert.rs],
    [client_trait.rs], [types.rs]).

    The enumerations of the client have the variants of the daemon's and are
    modelled by the same types.  An RPC is a function of the request; the daemon
    may change between the calls of a loop, so the loop takes the function of
    each call. *)
From Stdlib Require Import ZArith Lia Bool String.
From stdpp Require Import base tactics numbers decidable list.
From S2P Require Import Prelude Addr AddrText Types Proto AsPath Roa.
Open Scope Z_scope.

Inductive ConvertError :=
| InvalidAddress (s : Text)
| UnknownEnumValue (value : Z)
| BadExtendedCommunityLen (len : nat).
Inductive ClientError := CeRpc (s : Status) | CeConvert (e : ConvertError).
#[export] Instance ConvertError_eq_dec : EqDecision ConvertError.
Proof. solve_decision. Defined.

(** ** Types ([types.rs]) *)

Record ClientRoute := mkClientRoute {
  cr_prefix : Text;
  cr_peer_address : option IpAddr;
  cr_peer_type : PeerType;
  cr_next_hop : option IpAddr;
  cr_as_path : list AsPathSegment;
  cr_origin : Origin;
  cr_local_pref : option Z;
  cr_med : option Z;
  cr_communities : list Z;
  cr_large_communities : list LargeCommunity;
  cr_extended_communities : list (list Z);
  cr_atomic_aggregate : bool;
  cr_aggregator : option (Z * IpAddr);
}.
Inductive ClientSessionState := CsIdle | CsEstablished.
Record ClientPeerState := mkClientPeerState {
  cp_address : IpAddr;
  cp_remote_as : Z;
  cp_local_as : Z;
  cp_session_state : ClientSessionState;
  cp_peer_type : option PeerType;
  cp_hold_time : Z;
  cp_uptime_seconds : Z;
  cp_prefixes_received : Z;
  cp_prefixes_accepted : Z;
  cp_prefixes_advertised : Z;
  cp_eor_ipv4_received : bool;
  cp_eor_ipv6_received : bool;
  cp_peer_gr_restart_time : Z;
  cp_configured_role : option Text;
  cp_negotiated_role : option Text;
}.
Record OriginateRouteParams := mkOriginateParams {
  op_prefix : Text;
  op_next_hop : Text;
  op_origin : Origin;
  op_communities : list Z;
  op_large_communities : list LargeCommunity;
  op_extended_communities : list (list Z);
  op_local_pref : option Z;
  op_med : option Z;
}.
Record AddPeerParams := mkAddPeerParams {
  ap_address : IpAddr;
  ap_remote_as : Z;
  ap_port : option Z;
  ap_import_default : option bool;
  ap_export_default : option bool;
  ap_md5_password : option Text;
}.

Record ClientRpkiStatus := mkClientRpkiStatus {
  ck_enabled : bool;
  ck_connected : bool;
  ck_rtr_version : Text;
  ck_serial : option Z;
  ck_roa_count : Z;
  ck_last_update_unix : option Z;
  ck_last_error : option Text;
}.

(** ** Conversions ([convert.rs]) *)

Definition parse_addr (s : Text) : Outcome ConvertError IpAddr := ok_or (addr_parse s) (InvalidAddress s).
Definition parse_addr_opt (s : Text) : Outcome ConvertError (option IpAddr) :=
  match s with [] => Ok None | _ => a ← parse_addr s; Ok (Some a) end.
Definition parse_route_peer (s : Text) : Outcome ConvertError (option IpAddr) :=
  if bool_decide (s = text "local") then Ok None else a ← parse_addr s; Ok (Some a).
Definition session_state_try_from (v : Z) : Outcome ConvertError ClientSessionState :=
  if (v =? 0) || (v =? 1) then Ok CsIdle else if v =? 2 then Ok CsEstablished else Err (UnknownEnumValue v).
Definition peer_type_from_i32 (v : Z) : option PeerType :=
  if v =? 1 then Some External else if v =? 2 then Some Internal
  else if v =? 3 then Some ConfedMember else None.
Definition peer_type_try_from (v : Z) : Outcome ConvertError PeerType :=
  if v =? 0 then Ok Local else ok_or (peer_type_from_i32 v) (UnknownEnumValue v).
Definition origin_try_from (v : Z) : Outcome ConvertError Origin :=
  if v =? 0 then Ok Igp else if v =? 1 then Ok Egp
  else if v =? 2 then Ok Incomplete else Err (UnknownEnumValue v).
Definition as_segment_try_from (p : ProtoAsSegment) : Outcome ConvertError AsPathSegment :=
  let asns := as_asns p in
  if as_type p =? 1 then Ok (Sequence asns) else if as_type p =? 2 then Ok (Set_ asns)
  else if as_type p =? 3 then Ok (ConfedSequence asns) else if as_type p =? 4 then Ok (ConfedSet asns)
  else Err (UnknownEnumValue (as_type p)).
Definition ext_community_from_bytes (b : list Z) : Outcome ConvertError (list Z) :=
  if (length b =? 8)%nat then Ok b else Err (BadExtendedCommunityLen (length b)).
Definition aggregator_try_from (p : ProtoAggregator) : Outcome ConvertError (Z * IpAddr) :=
  a ← parse_addr (pg_address p); Ok (pg_asn p, a).
(** [.map(f).collect::<Result<Vec<_>, _>>()] *)
Fixpoint collect {E A B} (f : A -> Outcome E B) (l : list A) : Outcome E (list B) :=
  match l with
  | [] => Ok []
  | x :: l => y ← f x; ys ← collect f l; Ok (y :: ys)
  end.
(** [.map(f).transpose()] *)
Definition transpose {E A B} (f : A -> Outcome E B) (o : option A) : Outcome E (option B) :=
  match o with Some x => y ← f x; Ok (Some y) | None => Ok None end.

Definition route_try_from (p : ProtoRoute) : Outcome ConvertError ClientRoute :=
  as_path ← collect as_segment_try_from (pr_as_path p);
  extended_communities ← collect ext_community_from_bytes (pr_extended_communities p);
  aggregator ← transpose aggregator_try_from (pr_aggregator p);
  peer_address ← parse_route_peer (pr_peer_address p);
  peer_type ← peer_type_try_from (pr_peer_type p);
  next_hop ← parse_addr_opt (pr_next_hop p);
  origin ← origin_try_from (pr_origin p);
  Ok (mkClientRoute (pr_prefix p) peer_address peer_type next_hop as_path origin (pr_local_pref p) (pr_med p)
        (pr_communities p) (pr_large_communities p) extended_communities (pr_atomic_aggregate p) aggregator).
Definition non_empty (s : Text) : option Text := match s with [] => None | _ => Some s end.
Definition peer_state_try_from (p : ProtoPeerState) : Outcome ConvertError ClientPeerState :=
  address ← parse_addr (pp_address p);
  session_state ← session_state_try_from (pp_session_state p);
  Ok (mkClientPeerState address (pp_remote_as p) (pp_local_as p) session_state
        (peer_type_from_i32 (pp_peer_type p)) (pp_hold_time p) (pp_uptime_seconds p)
        (pp_prefixes_received p) (pp_prefixes_accepted p) (pp_prefixes_advertised p)
        (pp_eor_ipv4_received p) (pp_eor_ipv6_received p) (pp_peer_gr_restart_time p)
        (non_empty (pp_configured_role p)) (non_empty (pp_negotiated_role p))).
Definition originate_request (p : OriginateRouteParams) : OriginateRouteRequest :=
  mkOriginate (op_prefix p) (op_next_hop p)
    (match op_origin p with Igp => 0 | Egp => 1 | Incomplete => 2 end)
    (op_communities p) (op_large_communities p) (op_extended_communities p) (op_local_pref p) (op_med p).
Definition rpki_status_from (p : RpkiStatusResponse) : ClientRpkiStatus :=
  mkClientRpkiStatus (rs_enabled p) (rs_connected p) (rs_rtr_version p) (rs_serial p) (rs_roa_count p)
    (rs_last_update_unix p) (non_empty (rs_last_error p)).
Inductive RouteEventType := ReCurrent | ReEndInitial | ReAnnounced | ReWithdrawn.
Definition route_event_type_try_from (v : Z) : Outcome ConvertError RouteEventType :=
  if v =? 1 then Ok ReCurrent else if v =? 2 then Ok ReEndInitial
  else if v =? 3 then Ok ReAnnounced else if v =? 4 then Ok ReWithdrawn else Err (UnknownEnumValue v).
Record ClientRouteEvent := mkClientRouteEvent {
  ce_type : RouteEventType;
  ce_route : option ClientRoute;
  ce_withdrawn_prefix : option Text;
}.
Definition route_event_try_from (p : ProtoRouteEvent) : Outcome ConvertError ClientRouteEvent :=
  event_type ← route_event_type_try_from (pe_type p);
  route ← transpose route_try_from (pe_route p);
  Ok (mkClientRouteEvent event_type route (pe_withdrawn_prefix p)).
Inductive PeerEventType := PeCurrent | PeEndInitial | PeChanged | PeRemoved.
Definition peer_event_type_try_from (v : Z) : Outcome ConvertError PeerEventType :=
  if v =? 1 then Ok PeCurrent else if v =? 2 then Ok PeEndInitial
  else if v =? 3 then Ok PeChanged else if v =? 4 then Ok PeRemoved else Err (UnknownEnumValue v).
Definition peer_event_try_from (p : ProtoPeerEvent)
    : Outcome ConvertError (PeerEventType * option ClientPeerState) :=
  event_type ← peer_event_type_try_from (ppe_type p);
  peer ← transpose peer_state_try_from (ppe_peer p);
  Ok (event_type, peer).
Definition roa_validity_try_from (v : Z) : Outcome ConvertError RoaValidity :=
  if v =? 1 then Ok Valid else if v =? 2 then Ok Invalid
  else if (v =? 0) || (v =? 3) then Ok NotFound else Err (UnknownEnumValue v).

(** ** RPCs ([client_trait.rs]) *)

Definition lift_rpc {A} (o : Outcome Status A) : Outcome ClientError A :=
  match o with Ok a => Ok a | Err s => Err (CeRpc s) | Panic => Panic | OutOfFuel => OutOfFuel end.
Definition lift_convert {A} (o : Outcome ConvertError A) : Outcome ClientError A :=
  match o with Ok a => Ok a | Err e => Err (CeConvert e) | Panic => Panic | OutOfFuel => OutOfFuel end.
Definition convert_routes (l : list ProtoRoute) : Outcome ClientError (list ClientRoute) :=
  lift_convert (collect route_try_from l).
Definition filter_text (peer : option IpAddr) : Text :=
  match peer with Some a => addr_to_string a | None => [] end.
Definition Server (A B : Type) : Type := A -> Outcome Status B.

Definition client_get_peer (server : Server Text ProtoPeerState) (address : IpAddr)
    : Outcome ClientError ClientPeerState :=
  resp ← lift_rpc (server (addr_to_string address)); lift_convert (peer_state_try_from resp).
Definition client_list_peers (server : Server unit (list ProtoPeerState)) : Outcome ClientError (list ClientPeerState) :=
  resp ← lift_rpc (server tt); lift_convert (collect peer_state_try_from resp).
Definition client_list_candidates (server : Server Text (list ProtoRoute)) (prefix : Text)
    : Outcome ClientError (list ClientRoute) :=
  resp ← lift_rpc (server prefix); convert_routes resp.
Definition client_list_originated_routes (server : Server unit (list ProtoRoute))
    : Outcome ClientError (list ClientRoute) :=
  resp ← lift_rpc (server tt); convert_routes resp.
Definition client_list_routes (server : Server ListRoutesRequest ListRoutesResponse) (peer : option IpAddr)
    : Outcome ClientError (list ClientRoute) :=
  resp ← lift_rpc (server (mkListRoutes (filter_text peer) 0 [])); convert_routes (ls_routes resp).
Definition PAGE_SIZE : Z := 5000.
(** The loop of [list_all_routes]: [i] pages have been read. *)
Fixpoint list_all_loop (fuel : nat) (server : nat -> Server ListRoutesRequest ListRoutesResponse)
    (peer_address : Text) (i : nat) (all : list ClientRoute) (page_token : Text)
    : Outcome ClientError (list ClientRoute) :=
  match fuel with
  | O => OutOfFuel
  | S fuel =>
      resp ← lift_rpc (server i (mkListRoutes peer_address PAGE_SIZE page_token));
      page ← convert_routes (ls_routes resp);
      match ls_next_page_token resp with
      | [] => Ok (all ++ page)
      | token => list_all_loop fuel server peer_address (S i) (all ++ page) token
      end
  end.
Definition list_all_routes (fuel : nat) (server : nat -> Server ListRoutesRequest ListRoutesResponse)
    (peer : option IpAddr) : Outcome ClientError (list ClientRoute) :=
  list_all_loop fuel server (filter_text peer) 0 [] [].
(** [found] without a route cannot be told apart from a server error; the model of
    the server has no such answer. *)
Definition client_get_best_route (server : Server Text (option ProtoRoute)) (prefix : Text)
    : Outcome ClientError (option ClientRoute) :=
  resp ← lift_rpc (server prefix); lift_convert (transpose route_try_from resp).
Definition policy_action (accept : option bool) : Z :=
  match accept with None => Num.ACTION_UNSPECIFIED
  | Some accept => if accept then Num.ACTION_ACCEPT else Num.ACTION_REJECT end.
Definition client_set_default (server : Text -> Z -> Outcome Status unit) (peer : Text) (accept : bool)
    : Outcome ClientError unit :=
  lift_rpc (server peer (if accept then Num.ACTION_ACCEPT else Num.ACTION_REJECT)).
Definition client_originate_route (server : Server OriginateRouteRequest unit) (params : OriginateRouteParams)
    : Outcome ClientError unit := lift_rpc (server (originate_request params)).
Definition client_originate_routes (server : Server (list OriginateRouteRequest) Z)
    (routes : list OriginateRouteParams) : Outcome ClientError Z := lift_rpc (server (map originate_request routes)).
Definition client_remove_peer (server : Server Text unit) (address : IpAddr) : Outcome ClientError unit :=
  lift_rpc (server (addr_to_string address)).
Definition client_soft_reset (server : Text -> Text -> Outcome Status unit) (address : IpAddr) (afi_safi : Text)
    : Outcome ClientError unit := lift_rpc (server (addr_to_string address) afi_safi).
(** The items of a stream, each converted. *)
Definition client_watch_routes (stream : list (Outcome Status ProtoRouteEvent))
    : list (Outcome ClientError ClientRouteEvent) :=
  map (fun msg => event ← lift_rpc msg; lift_convert (route_event_try_from event)) stream.
Definition client_watch_peers (stream : list (Outcome Status ProtoPeerEvent))
    : list (Outcome ClientError (PeerEventType * option ClientPeerState)) :=
  map (fun msg => event ← lift_rpc msg; lift_convert (peer_event_try_from event)) stream.
Definition client_get_rpki_status (server : Server unit RpkiStatusResponse) : Outcome ClientError ClientRpkiStatus :=
  resp ← lift_rpc (server tt); Ok (rpki_status_from resp).
Definition add_peer_request (params : AddPeerParams) : AddPeerRequest :=
  mkAddPeer (addr_to_string (ap_address params)) (ap_remote_as params) (default 0 (ap_port params))
    (policy_action (ap_import_default params)) (policy_action (ap_export_default params))
    (default [] (ap_md5_password params)).
Definition client_validate_roa (server : Text -> Z -> Outcome Status Z) (prefix : Text) (origin_as : Z)
    : Outcome ClientError RoaValidity :=
  state ← lift_rpc (server prefix origin_as); lift_convert (roa_validity_try_from state).
