(* ===== verification/GrpcTheorems.v ===== *)
(** What a client of the management API sees and does: a route arrives as the
    daemon holds it, paging lists every best route once, and origination requests
    do to the tables what they say, or nothing. *)
From Stdlib Require Import ZArith Lia Bool String.
From stdpp Require Import base tactics numbers decidable sorting sets gmap list.
From S2P Require Import Prelude Addr AddrText Types Proto AsPath Wire Header Notification Open Update Message Fsm RouteMap Roa Policy Route DaemonPolicy BestPath LocRib RibTheorems AdjRib Outbound HandleUpdate ImportTheorems Deferral Session DaemonState Propagate PeerLifecycle RouteUpdate Graceful EventLoop DaemonFacts DaemonInvariant DaemonTheorems PeerTheorems Grpc ApiClient.
Open Scope Z_scope.

(** ** Conversions *)

Lemma collect_map {E A B C} (f : B -> Outcome E C) (g : A -> B) (h : A -> C) (l : list A) :
  (forall x, x ∈ l -> f (g x) = Ok (h x)) -> ApiClient.collect f (map g l) = Ok (map h l).
Proof.
  induction l as [|x l IH]; intros H; [done|]. cbn. rewrite H by by left. cbn [mbind outcome_bind].
  rewrite IH; [done|]. intros y Hy. apply H. by right.
Qed.
Lemma collect_app {E A B} (f : A -> Outcome E B) l k :
  ApiClient.collect f (l ++ k)
  = (x ← ApiClient.collect f l; y ← ApiClient.collect f k; Ok (x ++ y)).
Proof.
  induction l as [|a l IH]; cbn.
  - by destruct (ApiClient.collect f k).
  - destruct (f a); cbn [mbind outcome_bind]; [|done..]. rewrite IH.
    destruct (ApiClient.collect f l); cbn [mbind outcome_bind]; [|done..].
    by destruct (ApiClient.collect f k).
Qed.
Lemma as_segments_back p : ApiClient.collect as_segment_try_from (map proto_as_segment p) = Ok p.
Proof. rewrite <- (map_id p) at 2. apply collect_map. by intros []. Qed.
Lemma origin_back o : origin_try_from (proto_origin o) = Ok o.
Proof. by destruct o. Qed.
Lemma peer_type_back pt : peer_type_try_from (proto_peer_type pt) = Ok pt.
Proof. by destruct pt. Qed.

Section Grpc.
Context `{P : IpPrefixOps} {M : RouteMapOps} {HO : HashOrder} {NT : NlriText}.

(** What the readers return are addresses. *)
Lemma read_digits_bound radix max md s : forall r c v n rest, 0 <= r <= max -> 0 <= radix ->
  read_digits radix max md r c s = Some (v, n, rest) -> 0 <= v <= max.
Proof.
  induction s as [|x s IH]; intros r c v n rest Hr Hx; cbn; [by intros [= <- _ _]|].
  destruct (to_digit radix x) as [d|] eqn:Ed; [|by intros [= <- _ _]].
  destruct (Z.ltb_spec max (r * radix + d)); [done|]. case_match; [done|].
  apply IH; [|done]. split; [|lia]. unfold to_digit in Ed.
  match type of Ed with (if ?b then _ else _) = _ => destruct b; [|done] end. injection Ed as <-.
  apply Z.add_nonneg_nonneg; [apply Z.mul_nonneg_nonneg; lia|]. repeat case_match; zbool; lia.
Qed.
Lemma read_octet_bound i s v rest : read_octet i s = Some (v, rest) -> is_u8 v.
Proof.
  assert (H : forall s, read_number 10 255 3 false s = Some (v, rest) -> is_u8 v).
  { intros t. unfold read_number. destruct (read_digits 10 255 3 0 0 t) as [[[x c] r]|] eqn:E; [|done].
    cbn [mbind option_bind]. repeat (case_match; [done|]). intros [= <- _].
    apply read_digits_bound in E; unfold is_u8; lia. }
  unfold read_octet. destruct i; cbn [read_separator]; [apply H|].
  destruct (read_given_char DOT s) as [[[] t]|]; [|done]. cbn [mbind option_bind]. apply H.
Qed.
Lemma v4_parse_ok s a : v4_parse s = Some a -> ip_ok (IpV4 a).
Proof.
  unfold v4_parse, parse_with, read_ipv4_addr. case_match; [done|].
  destruct (read_octet 0 s) as [[b0 s0]|] eqn:E0; [|done]. cbn [mbind option_bind].
  destruct (read_octet 1 s0) as [[b1 s1]|] eqn:E1; [|done]. cbn [mbind option_bind].
  destruct (read_octet 2 s1) as [[b2 s2]|] eqn:E2; [|done]. cbn [mbind option_bind].
  destruct (read_octet 3 s2) as [[b3 s3]|] eqn:E3; [|done]. cbn [mbind option_bind].
  destruct s3; [|done]. intros [= <-]. apply read_octet_bound in E0, E1, E2, E3.
  apply (from_be_bound [b0; b1; b2; b3]). rewrite !Forall_cons. by split_and!.
Qed.

(** The next hop a client is shown: the global address of the two. *)
Definition shown_next_hop (nh : option NextHop) : option IpAddr :=
  match nh with
  | Some (NhV4 a) => Some (IpV4 a)
  | Some (NhV6 a) | Some (NhV6WithLinkLocal a _) => Some (IpV6 a)
  | None => None
  end.
Lemma next_hop_back nh : (forall a, shown_next_hop nh = Some a -> ip_ok a) ->
  parse_addr_opt (next_hop_text nh) = Ok (shown_next_hop nh).
Proof.
  assert (H : forall a, ip_ok a -> parse_addr_opt (addr_to_string a) = Ok (Some a)).
  { intros a Ha. unfold parse_addr_opt, parse_addr.
    destruct (addr_to_string a) eqn:E; [by apply addr_to_string_not_empty in E|].
    rewrite <- E, addr_parse_string by done. done. }
  intros Hnh. destruct nh as [[a|a|a b]|]; cbn [next_hop_text shown_next_hop]; [..|done]; by apply H, Hnh.
Qed.
(** Who a client is told a route came from: nobody for an IPv4 route of this
    daemon. *)
Definition shown_peer (f : Family) (peer : PeerId) (pt : PeerType) : option IpAddr :=
  match f with FamV4 => if bool_decide (pt = Types.Local) then None else Some peer | FamV6 => Some peer end.
Lemma peer_back f peer pt : ip_ok peer -> parse_route_peer (peer_text f peer pt) = Ok (shown_peer f peer pt).
Proof.
  intros Hp. assert (H : parse_route_peer (addr_to_string peer) = Ok (Some peer)).
  { unfold parse_route_peer, parse_addr. rewrite bool_decide_eq_false_2 by by apply addr_to_string_not_local.
    by rewrite addr_parse_string. }
  destruct f; cbn [peer_text shown_peer]; [|done]. by case_bool_decide.
Qed.

Record showable {f} (peer : PeerId) (r : Route f) : Prop := {
  sh_peer : ip_ok peer;
  sh_next_hop : forall a, shown_next_hop (next_hop r) = Some a -> ip_ok a;
  sh_extended : Forall (fun b => length b = 8%nat) (extended_communities (rare_or_default r));
  sh_aggregator : forall a, aggregator (rare_or_default r) = Some a -> ip_ok (IpV4 (agg_ip a));
}.
(** The route as the client should see it. *)
Definition shown_route {f} (peer : PeerId) (n : Nlri f) (r : Route f) : ClientRoute :=
  let rare := rare_or_default r in
  mkClientRoute (nlri_to_string n) (shown_peer f peer (peer_type r)) (peer_type r)
    (shown_next_hop (next_hop r)) (as_path r) (origin r) (local_pref r) (med r) (communities rare)
    (large_communities rare) (extended_communities rare) (atomic_aggregate rare)
    ((fun a => (agg_asn a, IpV4 (agg_ip a))) <$> aggregator rare).

Lemma route_back {f} peer (n : Nlri f) r : showable peer r ->
  route_try_from (route_to_proto peer n r) = Ok (shown_route peer n r).
Proof.
  intros [Hp Hn He Ha]. unfold route_try_from, route_to_proto.
  cbn [pr_as_path pr_extended_communities pr_aggregator pr_peer_address pr_peer_type pr_next_hop pr_origin].
  rewrite as_segments_back. cbn [mbind outcome_bind].
  assert (Ee : ApiClient.collect ext_community_from_bytes (extended_communities (rare_or_default r))
    = Ok (extended_communities (rare_or_default r))).
  { rewrite <- (map_id (extended_communities _)). apply collect_map. intros b Hb. rewrite Forall_forall in He.
    unfold ext_community_from_bytes. by rewrite (proj2 (Nat.eqb_eq _ _) (He b Hb)). }
  rewrite Ee. cbn [mbind outcome_bind].
  assert (Eg : forall a, ip_ok (IpV4 (agg_ip a)) ->
    aggregator_try_from (mkProtoAggregator (agg_asn a) (addr_to_string (IpV4 (agg_ip a))))
    = Ok (agg_asn a, IpV4 (agg_ip a))).
  { intros a H. unfold aggregator_try_from, parse_addr. cbn [pg_address pg_asn].
    by rewrite addr_parse_string. }
  rewrite peer_back, peer_type_back, next_hop_back, origin_back by done.
  unfold shown_route. destruct (aggregator (rare_or_default r)) as [a|] eqn:E; cbn [fmap option_fmap option_map transpose].
  - rewrite Eg by by apply Ha. done.
  - done.
Qed.

(** ** Paging *)

Lemma position_nodup (l : list ProtoRoute) i r : NoDup (map pr_prefix l) -> l !! i = Some r ->
  position (fun x => bool_decide (pr_prefix x = pr_prefix r)) l = Some i.
Proof.
  revert i. induction l as [|x l IH]; intros i Hn Hi; [done|]. cbn in Hn. apply NoDup_cons in Hn as [Hx Hn].
  cbn [position]. destruct i as [|i]; cbn in Hi.
  - injection Hi as ->. by rewrite bool_decide_eq_true_2.
  - rewrite bool_decide_eq_false_2.
    2:{ intros E. apply Hx. rewrite E. apply list_elem_of_fmap. exists r. split; [done|].
        by eapply list_elem_of_lookup_2. }
    by rewrite (IH i).
Qed.
Lemma last_Some {A} (l : list A) d : List.last (map Some l) d = match last l with Some x => Some x | None => d end.
Proof. induction l as [|x [|y l] IH]; [done..|exact IH]. Qed.

(** The page after the first [s] routes, and its cursor. *)
Lemma page_of_spec (size : nat) (l : list ProtoRoute) s token : (0 < size)%nat -> NoDup (map pr_prefix l) ->
  (s = 0%nat /\ token = [] \/ exists r, l !! pred s = Some r /\ s <> 0%nat /\ token = pr_prefix r /\ token <> []) ->
  exists token', page_of size token l = mkRoutesResponse (take size (drop s l)) token'
    /\ (if (s + size <? length l)%nat
        then exists r, l !! pred (s + size) = Some r /\ token' = pr_prefix r else token' = []).
Proof.
  intros Hs Hn Ht. unfold page_of.
  assert (Est : match token with [] => 0%nat
    | _ => match position (fun r => bool_decide (pr_prefix r = token)) l with Some i => S i | None => 0%nat end end = s).
  { destruct Ht as [[-> ->]|(r & Hr & H0 & -> & Hne)]; [done|].
    destruct (pr_prefix r) eqn:E; [done|]. rewrite <- E, (position_nodup l (pred s) r) by done. lia. }
  rewrite Est. eexists. split; [done|]. destruct (Nat.ltb_spec (s + size) (length l)) as [Hl|Hl]; [|done].
  rewrite last_Some, last_lookup, length_take, length_drop.
  replace (pred (size `min` (length l - s))) with (pred size) by lia.
  rewrite lookup_take_lt, lookup_drop by lia. replace (s + pred size)%nat with (pred (s + size)) by lia.
  destruct (lookup_lt_is_Some_2 l (pred (s + size))) as [r Hr]; [lia|]. exists r. by rewrite Hr.
Qed.

Section Constant.
Variables (d : DaemonState) (filter_addr : Text) (l : list ProtoRoute) (peer_filter : option PeerId).
Hypothesis Hfilter : parse_filter filter_addr = Ok peer_filter.
Hypothesis Hl : l = sort_by_text pr_prefix (all_routes peer_filter d).
Hypothesis Hn : NoDup (map pr_prefix l).
Hypothesis Hne : forall r, r ∈ l -> pr_prefix r <> [].

Lemma list_page token : list_routes (mkListRoutes filter_addr PAGE_SIZE token) d
  = Ok (page_of (Z.to_nat PAGE_SIZE) token l).
Proof. unfold list_routes. cbn [lq_peer_address lq_page_size lq_page_token]. by rewrite Hfilter, Hl. Qed.

Lemma list_all_loop_spec fuel : forall s i acc token,
  (s = 0%nat /\ token = [] \/ exists r, l !! pred s = Some r /\ s <> 0%nat /\ token = pr_prefix r /\ token <> []) ->
  (length l - s < fuel)%nat ->
  list_all_loop fuel (fun _ req => list_routes req d) filter_addr i acc token
  = (x ← convert_routes (drop s l); Ok (acc ++ x)).
Proof.
  induction fuel as [|fuel IH]; intros s i acc token Ht Hf; [lia|]. cbn [list_all_loop].
  rewrite list_page. destruct (page_of_spec (Z.to_nat PAGE_SIZE) l s token ltac:(unfold PAGE_SIZE; lia) Hn Ht) as (token' & -> & Hnext).
  cbn [lift_rpc mbind outcome_bind ls_routes ls_next_page_token].
  set (size := Z.to_nat PAGE_SIZE) in *.
  assert (Esplit : convert_routes (drop s l)
    = (x ← convert_routes (take size (drop s l)); y ← convert_routes (drop (s + size) l); Ok (x ++ y))).
  { unfold convert_routes. rewrite <- (take_drop size (drop s l)) at 1. rewrite collect_app, drop_drop.
    destruct (ApiClient.collect route_try_from (take size (drop s l))); cbn [mbind outcome_bind lift_convert]; [|done..].
    by destruct (ApiClient.collect route_try_from (drop (s + size) l)). }
  rewrite Esplit. destruct (convert_routes (take size (drop s l))) as [page| | |]; cbn [mbind outcome_bind]; [|done..].
  assert (Hsize : (0 < size)%nat) by (unfold size, PAGE_SIZE; lia). clearbody size.
  destruct (Nat.ltb_spec (s + size) (length l)) as [Hlt|Hge].
  - destruct Hnext as (r & Hr & ->).
    assert (Hrne : pr_prefix r <> []) by (apply Hne; by eapply list_elem_of_lookup_2).
    destruct (pr_prefix r) as [|c t] eqn:E; [done|]. rewrite (IH (s + size)%nat) by
      first [lia|right; exists r; split_and!; [done|lia|done|done]].
    destruct (convert_routes (drop (s + size) l)); cbn [mbind outcome_bind]; [|done..]. by rewrite app_assoc.
  - rewrite Hnext. rewrite drop_ge by lia. cbn. by rewrite app_nil_r.
Qed.
End Constant.
End Grpc.

(** ** Origination *)
Section Originate.
Context `{P : IpPrefixOps} {M : RouteMapOps} {HO : HashOrder} {NT : NlriText}.

(** What is left alone: the received tables and the configuration. *)
Record originates {f} (ins : Nlri f -> option (option (Route f))) (d d' : DaemonState) : Prop := {
  og_in : forall f', adj_ribs_in (ds_fam d' f') = adj_ribs_in (ds_fam d f');
  og_peers : ds_peers d' = ds_peers d;
  og_local : ds_local d' = ds_local d;
  og_sess : ds_sess d' = ds_sess d;
  og_oracle : forall f', oracle (ds_fam d' f') = oracle (ds_fam d f');
  og_other : forall f', f' <> f -> cands f' d' = cands f' d
    /\ originated_routes (ds_fam d' f') = originated_routes (ds_fam d f');
  og_cands : forall n q, cands f d' !! (n, q)
    = if decide (q = LOCAL_ORIGIN_PEER) then match ins n with Some o => o | None => cands f d !! (n, q) end
      else cands f d !! (n, q);
  og_set : forall n, n ∈ originated_routes (ds_fam d' f)
    <-> match ins n with Some (Some _) => True | Some None => False
        | None => n ∈ originated_routes (ds_fam d f) end;
}.
Lemma originates_strip {f} (ins : Nlri f -> option (option (Route f))) d d1 d' :
  strip d' = strip d1 -> originates ins d d1 -> originates ins d d'.
Proof.
  intros E [H1 H2 H3 H4 H0 H5 H6 H7].
  assert (T : forall f', adj_ribs_in (ds_fam d' f') = adj_ribs_in (ds_fam d1 f')
    /\ cands f' d' = cands f' d1 /\ originated_routes (ds_fam d' f') = originated_routes (ds_fam d1 f')
    /\ oracle (ds_fam d' f') = oracle (ds_fam d1 f')).
  { intros []; [apply (f_equal ds_v4) in E|apply (f_equal ds_v6) in E]; cbn in E;
      (split; [exact (f_equal adj_ribs_in E)|split; [exact (f_equal (fun x => candidates (loc_rib x)) E)|
        split; [exact (f_equal originated_routes E)|exact (f_equal oracle E)]]]). }
  split.
  - intros f'. by rewrite (proj1 (T f')).
  - pose proof (f_equal ds_peers E : ds_peers d' = ds_peers d1). congruence.
  - pose proof (f_equal ds_local E : ds_local d' = ds_local d1). congruence.
  - pose proof (f_equal ds_sess E : ds_sess d' = ds_sess d1). congruence.
  - intros f'. destruct (T f') as (_ & _ & _ & ->). apply H0.
  - intros f' Hf. destruct (T f') as (_ & -> & -> & _). by apply H5.
  - intros n q. destruct (T f) as (_ & -> & _). apply H6.
  - intros n. destruct (T f) as (_ & _ & -> & _). apply H7.
Qed.
Lemma originates_id {f} d : originates (f:=f) (fun _ => None) d d.
Proof. split; try done. intros n q. by destruct (decide _). Qed.
Lemma originates_trans {f} (i1 i2 : Nlri f -> option (option (Route f))) d1 d2 d3 :
  originates i1 d1 d2 -> originates i2 d2 d3 ->
  originates (fun n => match i2 n with Some o => Some o | None => i1 n end) d1 d3.
Proof.
  intros [A1 A2 A3 A4 A0 A5 A6 A7] [B1 B2 B3 B4 B0 B5 B6 B7]. split; try congruence.

  - intros f' Hf. destruct (B5 f' Hf) as [-> ->]. by apply A5.
  - intros n q. rewrite B6, A6. destruct (decide _); [|done]. by destruct (i2 n).
  - intros n. rewrite B7. destruct (i2 n) as [[]|]; [done..|]. apply A7.
Qed.
Lemma originates_ext {f} (i1 i2 : Nlri f -> option (option (Route f))) d d' :
  (forall n, i1 n = i2 n) -> originates i1 d d' -> originates i2 d d'.
Proof. intros H [? ? ? ? ? ? A6 A7]. split; try done; intros n; rewrite <- H; [apply A6|apply A7]. Qed.

(** The last of the routes for a prefix *)
Definition last_for {f} (rs : list (Route f)) (n : Nlri f) : option (Route f) :=
  List.find (fun r => bool_decide (nlri r = n)) (rev rs).
Lemma last_for_cons {f} (r : Route f) rs n : last_for (r :: rs) n
  = match last_for rs n with Some x => Some x | None => if bool_decide (nlri r = n) then Some r else None end.
Proof.
  unfold last_for. cbn [rev]. induction (rev rs) as [|x l IH]; cbn; [done|].
  by destruct (bool_decide (nlri x = n)).
Qed.

Section Laws.
Context {L : IpPrefixLaws} {ML : RouteMapLaws} {HL : HashOrderLaw}.

Lemma originate_one_spec {f} (r : Route f) d : daemon_ok d -> canonical (nlri r) ->
  exists d', originate_one r d = Ok d' /\ originates (fun n => if bool_decide (nlri r = n) then Some (Some r) else None) d d'.
Proof.
  intros Hd Hr. unfold originate_one. set (d1 := send_event _ _).
  assert (Hd1 : daemon_ok d1) by (eapply daemon_ok_core; [|exact Hd]; by destruct f).
  destruct (rib_insert_all_spec LOCAL_ORIGIN_PEER [r] d1 Hd1 ltac:(by constructor)) as (lr & cs & E & Hc).
  cbn [rib_insert_all] in E. destruct (rib_insert LOCAL_ORIGIN_PEER r d1) as [[d2 c]| | |]; try done.
  cbn [mbind outcome_bind] in E. injection E as -> _.
  assert (G : originates (fun n => if bool_decide (nlri r = n) then Some (Some r) else None) d
    (upd_fam (fam_set_rib lr) d1)).
  { split; try (by destruct f).
    - by destruct f; intros [].
    - by destruct f; intros [].
    - destruct f; intros []; done.
    - intros n q. rewrite cands_set_rib, Hc. cbn [rev app List.find].
      replace (cands f d1) with (cands f d) by by destruct f. destruct (decide _); [|done].
      by case_bool_decide.
    - intros n. transitivity (n ∈ {[nlri r]} ∪ originated_routes (ds_fam d f)); [by destruct f|].
      rewrite elem_of_union, elem_of_singleton. case_bool_decide; [naive_solver|]. naive_solver. }
  cbn [mbind outcome_bind].
  destruct f; (eexists; split; [reflexivity|]); [exact G|]. eapply originates_strip; [apply strip_fib_apply|exact G].
Qed.
Lemma originate_routes_spec {f} (rs : list (Route f)) now d : daemon_ok d ->
  Forall (fun r => canonical (nlri r)) rs ->
  exists d', originate_routes rs now d = Ok d' /\ daemon_ok d' /\ (synced_rib d -> synced_rib d')
    /\ originates (fun n => Some <$> last_for rs n) d d'.
Proof.
  intros Hd Hrs. destruct (safely_originate rs now d Hrs Hd) as (d' & E & Hd' & Hs).
  exists d'. split; [exact E|]. split; [exact Hd'|]. split; [exact Hs|]. revert E. unfold originate_routes.
  assert (H : exists d1, originate_each rs d = Ok d1 /\ originates (fun n => Some <$> last_for rs n) d d1).
  { clear Hd' Hs d'. revert d Hd. induction Hrs as [|r rs Hr Hrs IH]; intros d Hd; cbn [originate_each].
    { exists d. split; [done|]. apply originates_id. }
    destruct (originate_one_spec r d Hd Hr) as (d1 & E1 & G1). rewrite E1. cbn [mbind outcome_bind].
    destruct (safely_originate_each [r] ltac:(by constructor) d Hd) as (d1' & E1' & Hd1 & _).
    cbn [originate_each] in E1'. rewrite E1 in E1'. cbn in E1'. injection E1' as <-.
    destruct (IH d1 Hd1) as (d2 & E2 & G2). exists d2. split; [exact E2|].
    eapply originates_ext; [|exact (originates_trans _ _ _ _ _ G1 G2)]. intros n. cbn beta.
    rewrite last_for_cons. destruct (last_for rs n); [done|]. by case_bool_decide. }
  destruct H as (d1 & -> & G). cbn [mbind outcome_bind]. intros [= <-].
  eapply originates_strip; [|exact G]. by autorewrite with strip.
Qed.
Lemma withdraw_routes_spec {f} (ns : list (Nlri f)) now d : daemon_ok d -> Forall canonical ns ->
  exists d', withdraw_originated_routes ns now d = Ok d' /\ daemon_ok d' /\ (synced_rib d -> synced_rib d')
    /\ originates (fun n => if bool_decide (n ∈ ns) then Some None else None) d d'.
Proof.
  intros Hd Hns. destruct (safely_withdraw_originated ns now d Hns Hd) as (d' & E & Hd' & Hs).
  exists d'. split; [exact E|]. split; [exact Hd'|]. split; [exact Hs|]. revert E.
  unfold withdraw_originated_routes.
  assert (H : exists d1, withdraw_originated_each ns d = Ok d1
    /\ originates (fun n => if bool_decide (n ∈ ns) then Some None else None) d d1).
  { clear Hd' Hs d'. revert d Hd. induction Hns as [|m ns Hm Hns IH]; intros d Hd; cbn [withdraw_originated_each].
    { exists d. split; [done|]. eapply originates_ext; [|apply originates_id]. done. }
    destruct (safely_withdraw_each [m] ltac:(by constructor) d Hd) as (d1 & E1 & Hd1 & _).
    cbn [withdraw_originated_each] in E1.
    assert (G1 : originates (fun n => if bool_decide (n ∈ [m]) then Some None else None) d d1).
    { clear IH. revert E1. unfold withdraw_originated_one. set (d0 := upd_fam _ d).
      assert (Hd0 : daemon_ok d0) by (eapply daemon_ok_core; [|exact Hd]; by destruct f).
      pose proof (rib_withdraw_all_run LOCAL_ORIGIN_PEER [m] d0) as E.
      destruct (rib_run_spec (map (fun n => RWithdraw LOCAL_ORIGIN_PEER n (oracle (ds_fam d0 f))) [m]) _
        (fo_rib _ (dk_fam d0 Hd0 f)) ltac:(by repeat constructor)) as (lr & cs & E' & _ & Hc & _).
      rewrite E' in E. cbn [rib_withdraw_all mbind outcome_bind] in E.
      destruct (rib_withdraw LOCAL_ORIGIN_PEER m d0) as [[d2 c]| | |]; try done.
      cbn [mbind outcome_bind] in E |- *. unfold put_rib in E. cbn [fst snd] in E. injection E as -> _.
      intros [= <-]. eapply (originates_strip _ _ (upd_fam (fam_set_rib lr) d0)); [by autorewrite with strip|].
      split; try (by destruct f).
      - by destruct f; intros [].
      - by destruct f; intros [].
      - destruct f; intros []; done.
      - intros n q. rewrite cands_set_rib. rewrite (Hc (cands f d0)) by done. rewrite withdraws_spec.
        replace (cands f d0) with (cands f d) by by destruct f.
        repeat destruct (decide _); repeat case_bool_decide; rewrite ?list_elem_of_singleton in *; naive_solver.
      - intros n. transitivity (n ∈ originated_routes (ds_fam d f) ∖ {[m]}); [by destruct f|].
        rewrite elem_of_difference, elem_of_singleton.
        case_bool_decide; rewrite ?list_elem_of_singleton in *; naive_solver. }
    destruct (withdraw_originated_one m d) as [d1'| | |]; try done. cbn in E1 |- *. injection E1 as ->.
    destruct (IH d1 Hd1) as (d2 & E2 & G2). exists d2. split; [exact E2|].
    eapply originates_ext; [|exact (originates_trans _ _ _ _ _ G1 G2)]. intros n. cbn beta.
    assert (n ∈ m :: ns <-> n ∈ [m] \/ n ∈ ns) by (rewrite elem_of_cons, list_elem_of_singleton; done).
    repeat case_bool_decide; first [done|exfalso; tauto]. }
  destruct H as (d1 & -> & G). cbn [mbind outcome_bind]. intros [= <-].
  eapply originates_strip; [|exact G]. by autorewrite with strip.
Qed.
End Laws.
End Originate.

(** ** Requests *)
Section Requests.
Context `{P : IpPrefixOps} {M : RouteMapOps} {HO : HashOrder} {NT : NlriText}.

(** The request can be carried out: the prefix is one of the family, an IPv4
    route has a next hop, an extended community has eight bytes. *)
Record well_formed (f : Family) (n : Nlri f) (p : OriginateRouteParams) : Prop := {
  wf_prefix : nlri_parse f (op_prefix p) = Some n;
  wf_next_hop : f = FamV4 -> exists a, v4_parse (op_next_hop p) = Some a /\ a <> 0;
  wf_extended : Forall (fun b => length b = 8%nat) (op_extended_communities p);
}.
Definition acceptable (p : OriginateRouteParams) : Prop := exists f n, well_formed f n p.

(** The route that is asked for. *)
Definition rare_asked (p : OriginateRouteParams) : option RareAttrs :=
  match op_communities p, op_large_communities p, op_extended_communities p with
  | [], [], [] => None
  | c, l, e => Some (mkRare c l e [] false None None None [])
  end.
Definition route_asked {f} (secs : Z) (n : Nlri f) (p : OriginateRouteParams) : Route f :=
  mkRoute n (op_origin p) [] (match f with FamV4 => NhV4 <$> v4_parse (op_next_hop p) | FamV6 => None end)
    (op_local_pref p) (op_med p) Types.Local (now_unix_secs secs) None (rare_asked p) false.
Definition asked f (secs : Z) (ps : list OriginateRouteParams) : list (Route f) :=
  omap (fun p => (fun n => route_asked secs n p) <$> nlri_parse f (op_prefix p)) ps.
(** The last request for a prefix. *)
Definition last_request f (ps : list OriginateRouteParams) (n : Nlri f) : option OriginateRouteParams :=
  List.find (fun p => bool_decide (nlri_parse f (op_prefix p) = Some n)) (rev ps).

Lemma foldl_community {f} l : forall r : Route f, l <> [] ->
  foldl b_community r l = with_rare_mut r (fun x => rare_set_communities x (communities x ++ l)).
Proof.
  induction l as [|c l IH]; intros r H; [done|]. destruct l as [|c' l]; [done|].
  cbn [foldl] in IH |- *. rewrite IH by done. unfold b_community, with_rare_mut, rare_set_communities. cbn. by rewrite <- app_assoc.
Qed.
Lemma foldl_large {f} l : forall r : Route f, l <> [] ->
  foldl b_large_community r l = with_rare_mut r (fun x => rare_set_large_communities x (large_communities x ++ l)).
Proof.
  induction l as [|c l IH]; intros r H; [done|]. destruct l as [|c' l]; [done|].
  cbn [foldl] in IH |- *. rewrite IH by done. unfold b_large_community, with_rare_mut, rare_set_large_communities. cbn. by rewrite <- app_assoc.
Qed.
Lemma foldl_extended {f} l : forall r : Route f, l <> [] -> foldl b_extended_community r l
  = with_rare_mut r (fun x => rare_set_extended_communities x (extended_communities x ++ l)).
Proof.
  induction l as [|c l IH]; intros r H; [done|]. destruct l as [|c' l]; [done|].
  cbn [foldl] in IH |- *. rewrite IH by done. unfold b_extended_community, with_rare_mut, rare_set_extended_communities. cbn. by rewrite <- app_assoc.
Qed.
Lemma origin_of_request o : parse_origin (match o with Igp => 0 | Egp => 1 | Incomplete => 2 end) = o.
Proof. by destruct o. Qed.
Lemma build_asked {f} secs (n : Nlri f) p nh :
  nh = (match f with FamV4 => NhV4 <$> v4_parse (op_next_hop p) | FamV6 => None end) ->
  build_originated (originate_request p)
    (set_peer_type (set_next_hop (builder_new secs n (op_origin p) []) nh) Types.Local) = route_asked secs n p.
Proof.
  intros ->. unfold build_originated, route_asked, rare_asked. cbn [originate_request oq_communities
    oq_large_communities oq_extended_communities oq_local_pref oq_med].
  destruct (op_communities p) as [|c1 l1] eqn:E1, (op_large_communities p) as [|c2 l2] eqn:E2,
    (op_extended_communities p) as [|c3 l3] eqn:E3;
    rewrite ?foldl_community, ?foldl_large, ?foldl_extended by done;
    by destruct (op_local_pref p), (op_med p).
Qed.
Lemma extended_ok l : if bool_decide (Forall (fun b : list Z => length b = 8%nat) l)
  then parse_extended l = Ok l else parse_extended l = Err InvalidArgument.
Proof.
  unfold parse_extended. destruct (forallb _ l) eqn:E; case_bool_decide as H; try done; exfalso.
  - apply H, Forall_forall. intros b Hb%list_elem_of_In. rewrite forallb_forall in E.
    by apply Nat.eqb_eq, E.
  - rewrite <- not_true_iff_false in E. apply E, forallb_forall. intros b Hb%list_elem_of_In.
    rewrite Forall_forall in H. by apply Nat.eqb_eq, H.
Qed.

Section Laws.
Context {NL : NlriTextLaws}.

Definition parse_request f (secs : Z) (req : OriginateRouteRequest) : Outcome Status (Route f) :=
  match f with FamV4 => parse_originate_request secs req | FamV6 => parse_originate_request_v6 secs req end.
Lemma family_of f p (n : Nlri f) : nlri_parse f (op_prefix p) = Some n ->
  is_ipv6_prefix (op_prefix p) = bool_decide (f = FamV6).
Proof. intros H. unfold is_ipv6_prefix. apply bool_decide_ext. by eapply nlri_parse_colon. Qed.
(** One request, with the family the handler chooses. *)
Definition chosen (p : OriginateRouteParams) : Family := if is_ipv6_prefix (op_prefix p) then FamV6 else FamV4.
Lemma chosen_of f p (n : Nlri f) : nlri_parse f (op_prefix p) = Some n -> chosen p = f.
Proof. intros H. unfold chosen. rewrite (family_of f p n H). by destruct f. Qed.
Lemma parse_request_spec secs p :
  (exists n, well_formed (chosen p) n p
     /\ parse_request (chosen p) secs (originate_request p) = Ok (route_asked secs n p))
  \/ ~ acceptable p /\ parse_request (chosen p) secs (originate_request p) = Err InvalidArgument.
Proof.
  assert (Hc : forall f n, well_formed f n p -> chosen p = f) by (intros f n [H _ _]; by eapply chosen_of).
  assert (Hno : (forall n, ~ well_formed (chosen p) n p) -> ~ acceptable p)
    by (intros H (f & n & Hw); pose proof (Hc f n Hw); subst f; by apply (H n)).
  pose proof (extended_ok (op_extended_communities p)) as He. destruct (chosen p) eqn:Ef; cbn [parse_request].
  - unfold parse_originate_request. cbn [originate_request oq_prefix oq_next_hop oq_origin oq_extended_communities].
    destruct (nlri_parse FamV4 (op_prefix p)) as [n|] eqn:En; cbn [ok_or mbind outcome_bind].
    2:{ right. split; [|done]. apply Hno. intros n [H _ _]. congruence. }
    destruct (v4_parse (op_next_hop p)) as [a|] eqn:Ea; cbn [ok_or mbind outcome_bind].
    2:{ right. split; [|done]. apply Hno. intros m [_ H _]. destruct (H eq_refl) as (a & Hx & _). congruence. }
    destruct (Z.eqb_spec a 0) as [->|Ha]; cbn [mbind outcome_bind].
    { right. split; [|done]. apply Hno. intros m [_ H _]. destruct (H eq_refl) as (a & Hx & Hy). congruence. }
    case_bool_decide as Hx; rewrite He; cbn [mbind outcome_bind].
    + left. exists n. split; [split; eauto|]. f_equal. rewrite origin_of_request.
      apply (build_asked secs n p). by rewrite Ea.
    + right. split; [|done]. apply Hno. by intros m [_ _ H].
  - unfold parse_originate_request_v6. cbn [originate_request oq_prefix oq_next_hop oq_origin oq_extended_communities].
    destruct (nlri_parse FamV6 (op_prefix p)) as [n|] eqn:En; cbn [ok_or mbind outcome_bind].
    2:{ right. split; [|done]. apply Hno. intros n [H _ _]. congruence. }
    case_bool_decide as Hx; rewrite He; cbn [mbind outcome_bind].
    + left. exists n. split; [split; [done|done|done]|]. f_equal. rewrite origin_of_request.
      by apply (build_asked secs n p None).
    + right. split; [|done]. apply Hno. by intros m [_ _ H].
Qed.
Lemma asked_cons f secs p ps (n : Nlri (chosen p)) : nlri_parse (chosen p) (op_prefix p) = Some n ->
  asked f secs (p :: ps)
  = match decide (chosen p = f) with
    | left E => eq_rect _ Route (route_asked secs n p) f E :: asked f secs ps | right _ => asked f secs ps end.
Proof.
  intros Hn. unfold asked. cbn [omap list_omap]. destruct (decide (chosen p = f)) as [E|E].
  - destruct E. cbn [eq_rect]. by rewrite Hn.
  - destruct (nlri_parse f (op_prefix p)) as [m|] eqn:Em; [|done]. by apply chosen_of in Em.
Qed.
Lemma parse_batch_spec secs ps :
  Forall acceptable ps
    /\ parse_batch secs (map originate_request ps) = Ok (asked FamV4 secs ps, asked FamV6 secs ps)
  \/ ~ Forall acceptable ps /\ parse_batch secs (map originate_request ps) = Err InvalidArgument.
Proof.
  induction ps as [|p ps IH]; [by left|]. cbn [map parse_batch]. change (oq_prefix (originate_request p)) with (op_prefix p).
  assert (E : forall A (k4 : Route FamV4 -> Outcome Status A) (k6 : Route FamV6 -> Outcome Status A),
    (if is_ipv6_prefix (op_prefix p) then parse_originate_request_v6 secs (originate_request p) ≫= k6
     else parse_originate_request secs (originate_request p) ≫= k4)
    = (parse_request (chosen p) secs (originate_request p)
       ≫= match chosen p as f return Route f -> Outcome Status A with FamV4 => k4 | FamV6 => k6 end))
    by (intros A k4 k6; unfold chosen; by destruct (is_ipv6_prefix (op_prefix p))).
  rewrite E. clear E. destruct (parse_request_spec secs p) as [(n & Hw & ->)|[Hno ->]]; cbn [mbind outcome_bind].
  2:{ right. split; [|done]. by intros [? _]%Forall_cons. }
  rewrite !(asked_cons _ secs p ps n) by apply Hw.
  assert (Ha : acceptable p) by (exists (chosen p), n; exact Hw).
  destruct IH as [[H E]|[H E]]; rewrite E.
  - left. split; [by constructor|]. clear Ha Hw. destruct (chosen p);
      (rewrite decide_True_pi with (eq_refl _) + idtac); cbn; reflexivity.
  - right. split; [by intros [_ ?]%Forall_cons|]. by destruct (chosen p).
Qed.
Lemma asked_last f secs ps (n : Nlri f) :
  last_for (asked f secs ps) n = (fun p => route_asked secs n p) <$> last_request f ps n.
Proof.
  induction ps as [|p ps IH]; [done|]. unfold asked. cbn [omap list_omap].
  assert (E : last_request f (p :: ps) n = match last_request f ps n with Some x => Some x
    | None => if bool_decide (nlri_parse f (op_prefix p) = Some n) then Some p else None end).
  { unfold last_request. cbn [rev]. induction (rev ps) as [|x l IHl]; cbn; [done|].
    by destruct (bool_decide (nlri_parse f (op_prefix x) = Some n)). }
  rewrite E. destruct (nlri_parse f (op_prefix p)) as [m|] eqn:Em; cbn [fmap option_fmap option_map].
  - rewrite last_for_cons. fold (asked f secs ps). rewrite IH. destruct (last_request f ps n); [done|]. cbn.
    repeat case_bool_decide; naive_solver.
  - fold (asked f secs ps). rewrite IH. destruct (last_request f ps n); [done|]. by rewrite bool_decide_eq_false_2.
Qed.
Lemma asked_nlri f secs ps n : n ∈ map nlri (asked f secs ps) <-> exists p, p ∈ ps /\ nlri_parse f (op_prefix p) = Some n.
Proof.
  unfold asked. rewrite list_elem_of_fmap. setoid_rewrite list_elem_of_omap. split.
  - intros (r & -> & p & Hp & Hr). destruct (nlri_parse f (op_prefix p)) as [m|] eqn:E; [|done].
    injection Hr as <-. by exists p.
  - intros (p & Hp & E). eexists. split; [|exists p; rewrite E; by split]. done.
Qed.
End Laws.
End Requests.

(** ** What is promised *)
Section Claims.
Context `{P : IpPrefixOps} {M : RouteMapOps} {HO : HashOrder} {NT : NlriText}.
Context {L : IpPrefixLaws} {ML : RouteMapLaws} {HL : HashOrderLaw} {NL : NlriTextLaws}.

Definition is_best {f} (d : DaemonState) (n : Nlri f) (peer : PeerId) (r : Route f) : Prop :=
  canonical n /\ best_peer (loc_rib (ds_fam d f)) n = Some peer
  /\ candidates (loc_rib (ds_fam d f)) !! (n, peer) = Some r.
Definition passes (filter : option PeerId) (peer : PeerId) : Prop := filter = None \/ filter = Some peer.

Lemma filtered_elem f filter d x : x ∈ filtered_routes filter (loc_rib (ds_fam d f))
  <-> exists n peer (r : Route f), is_best d n peer r /\ passes filter peer /\ x = route_to_proto peer n r.
Proof.
  unfold filtered_routes, passes, is_best. rewrite list_elem_of_omap. split.
  - intros ([n r] & Hin & E). apply best_routes_elem in Hin as [Hc Hb]. unfold best in Hb.
    destruct (best_peer _ n) as [p|] eqn:Ep; [|done]. cbn [mbind option_bind] in E, Hb. exists n, p, r.
    destruct filter as [q|]; [case_bool_decide; [|done]|]; injection E as <-; split_and!; try done;
      [right; congruence|by left].
  - intros (n & p & r & (Hc & Ep & Er) & Hf & ->). exists (n, r). split.
    + apply best_routes_elem. split; [done|]. unfold best. by rewrite Ep.
    + rewrite Ep. cbn [mbind option_bind]. destruct Hf as [->|[= ->]]; [done|]. by rewrite bool_decide_eq_true_2.
Qed.
#[local] Instance nlri_to_string_inj f : Inj (=) (=) (nlri_to_string (f:=f)).
Proof. intros n m E%(f_equal (nlri_parse f)). rewrite !nlri_parse_to_string in E. congruence. Qed.
Lemma nlri_colon {f} (n : Nlri f) : COLON ∈ nlri_to_string n <-> f = FamV6.
Proof. eapply nlri_parse_colon, nlri_parse_to_string. Qed.
Lemma nlri_text_not_empty {f} (n : Nlri f) : nlri_to_string n <> [].
Proof. rewrite nlri_to_string_cidr. by intros [_ ?]%app_eq_nil. Qed.
Lemma filtered_prefixes f filter (lr : LocRib f) : exists k, k `sublist_of` (best_routes lr).*1
  /\ map pr_prefix (filtered_routes filter lr) = map nlri_to_string k.
Proof.
  unfold filtered_routes. induction (best_routes lr) as [|[n r] l (k & Hk & E)]; [by exists []|].
  cbn [omap list_omap]. destruct (best_peer lr n) as [p|]; cbn [mbind option_bind];
    [destruct (match filter with Some _ => _ | None => _ end)|]; cbn [map].
  - exists (n :: k). cbn. rewrite E. split; [by constructor|done].
  - exists k. split; [by constructor|done].
  - exists k. split; [by constructor|done].
Qed.
Lemma all_routes_nodup filter d : NoDup (map pr_prefix (all_routes filter d)).
Proof.
  unfold all_routes. rewrite map_app.
  destruct (filtered_prefixes FamV4 filter (loc_rib (ds_v4 d))) as (k4 & H4 & ->).
  destruct (filtered_prefixes FamV6 filter (loc_rib (ds_v6 d))) as (k6 & H6 & ->).
  apply NoDup_app. split_and!.
  - apply (NoDup_fmap_2 _ k4). eapply sublist_NoDup; [|exact H4]. apply best_routes_nodup.
  - intros x (n & -> & _)%list_elem_of_fmap (m & E & _)%list_elem_of_fmap.
    pose proof (proj2 (nlri_colon m) eq_refl) as Hm. rewrite <- E in Hm. by apply nlri_colon in Hm.
  - apply (NoDup_fmap_2 _ k6). eapply sublist_NoDup; [|exact H6]. apply best_routes_nodup.
Qed.
Lemma omap_length {A B} (g : A -> option B) l : (length (omap g l) <= length l)%nat.
Proof. induction l as [|x l IH]; [done|]. cbn. destruct (g x); cbn; lia. Qed.
Lemma all_routes_elem filter d x : x ∈ all_routes filter d <->
  exists f n peer (r : Route f), is_best d n peer r /\ passes filter peer /\ x = route_to_proto peer n r.
Proof.
  unfold all_routes. change (ds_v4 d) with (ds_fam d FamV4). change (ds_v6 d) with (ds_fam d FamV6).
  rewrite elem_of_app, !filtered_elem. split; [naive_solver|].
  intros ([] & n & p & r & H); [left|right]; by exists n, p, r.
Qed.
Lemma sorted_routes filter d : let l := sort_by_text pr_prefix (all_routes filter d) in
  l ≡ₚ all_routes filter d /\ StronglySorted (by_text pr_prefix) l /\ NoDup (map pr_prefix l)
  /\ forall x, x ∈ l -> pr_prefix x <> [].
Proof.
  intros l. assert (Hp : l ≡ₚ all_routes filter d) by apply merge_sort_Permutation. split; [exact Hp|].
  split; [apply StronglySorted_merge_sort; apply _|]. split.
  - rewrite (fmap_Permutation pr_prefix _ _ Hp). apply all_routes_nodup.
  - intros x. rewrite Hp, all_routes_elem. intros (f & n & p & r & _ & _ & ->). apply nlri_text_not_empty.
Qed.
(** The number of pages is at most the number of routes, and one. *)
Definition route_count (d : DaemonState) : nat :=
  (length (best_routes (loc_rib (ds_v4 d))) + length (best_routes (loc_rib (ds_v6 d))))%nat.
Lemma all_routes_length filter d : (length (all_routes filter d) <= route_count d)%nat.
Proof.
  unfold all_routes, filtered_routes, route_count. rewrite length_app. apply Nat.add_le_mono; apply omap_length.
Qed.
(** Every best route has a form a client can read. *)
Definition all_showable (d : DaemonState) : Prop :=
  forall f (n : Nlri f) peer r, is_best d n peer r -> showable peer r.

Lemma sorted_map {A B} (R : relation A) (S : relation B) (g : A -> B) l :
  (forall x y, x ∈ l -> y ∈ l -> R x y -> S (g x) (g y)) -> StronglySorted R l -> StronglySorted S (map g l).
Proof.
  intros H Hs. induction Hs as [|x l Hs IH Hx]; [constructor|]. cbn. constructor.
  - apply IH. intros y z Hy Hz. apply H; by right.
  - apply Forall_map. rewrite Forall_forall in Hx |- *. intros y Hy. apply H; [by left|by right|by apply Hx].
Qed.
Lemma convert_all (K : list ProtoRoute) : (forall x, x ∈ K -> exists f (n : Nlri f) peer r, showable peer r /\ x = route_to_proto peer n r) ->
  exists K', convert_routes K = Ok K' /\ map cr_prefix K' = map pr_prefix K
    /\ forall c, c ∈ K' <-> exists x, x ∈ K /\ route_try_from x = Ok c.
Proof.
  unfold convert_routes. induction K as [|x K IH]; intros H.
  { exists []. split_and!; [done|done|]. intros c. split; [by intros ?%not_elem_of_nil|].
    by intros (? & ?%not_elem_of_nil & _). }
  destruct (H x ltac:(left)) as (f & n & p & r & Hs & ->).
  destruct IH as (K' & E & Em & Hc); [intros y Hy; apply H; by right|].
  cbn [ApiClient.collect]. rewrite route_back by done. cbn [mbind outcome_bind].
  destruct (ApiClient.collect route_try_from K) as [K0| | |]; try done. cbn in E |- *. injection E as ->.
  eexists. split; [reflexivity|]. split; [cbn; by rewrite Em|]. intros c. rewrite elem_of_cons, Hc. split.
  - intros [->|(y & Hy & Ey)]; [eexists; split; [left|by apply route_back]|]. exists y. split; [by right|done].
  - intros (y & [->|Hy]%elem_of_cons & Ey); [left; rewrite route_back in Ey by done; congruence|right]. by exists y.
Qed.

(** C24: a client that pages through the table of a daemon that does not change
    meanwhile, every page being answered from the same state, gets every best route
    of both families that is from the peer it asked for, exactly once, in the order
    of the prefixes, each with the attributes the daemon holds; the paging ends. The
    best routes are [all_showable]: their addresses are addresses (a peer, a next
    hop and an AGGREGATOR of 32 or 128 bits) and their extended communities have
    eight bytes. If the table changes between two pages, the route of the cursor may
    be gone, and then the listing starts again and gives routes twice. *)
Theorem list_all_routes_exact d filter fuel :
  (forall a, filter = Some a -> ip_ok a) -> all_showable d -> (route_count d < fuel)%nat ->
  exists l, list_all_routes fuel (fun _ req => list_routes req d) filter = Ok l
    /\ StronglySorted (by_text cr_prefix) l /\ NoDup (map cr_prefix l)
    /\ forall c, c ∈ l <-> exists f (n : Nlri f) peer r,
         is_best d n peer r /\ passes filter peer /\ c = shown_route peer n r.
Proof.
  intros Hf Hs Hfuel. destruct (sorted_routes filter d) as (Hp & Hsort & Hn & Hne).
  set (l := sort_by_text pr_prefix (all_routes filter d)) in *.
  assert (Ef : parse_filter (filter_text filter) = Ok filter).
  { destruct filter as [a|]; [|done]. cbn [filter_text]. unfold parse_filter.
    destruct (addr_to_string a) eqn:E; [by apply addr_to_string_not_empty in E; [|apply Hf]|].
    rewrite <- E, addr_parse_string by by apply Hf. done. }
  assert (Hlen : (length l < fuel)%nat).
  { rewrite (Permutation_length Hp). eapply Nat.le_lt_trans; [apply all_routes_length|exact Hfuel]. }
  unfold list_all_routes. rewrite (list_all_loop_spec d _ l filter Ef eq_refl Hn Hne fuel 0 0 [] []) by first [by left|lia].
  rewrite drop_0. destruct (convert_all l) as (K & -> & Em & Hc).
  { intros x. rewrite Hp, all_routes_elem. intros (f & n & p & r & Hb & _ & ->). exists f, n, p, r. split; [by eapply Hs|done]. }
  cbn [mbind outcome_bind app]. exists K. split; [done|]. rewrite Em. split_and!; [|exact Hn|].
  - assert (Ht : StronglySorted text_le (map cr_prefix K))
      by (rewrite Em; eapply sorted_map; [|exact Hsort]; done).
    clear -Ht. induction K as [|c K IH]; [constructor|]. inversion Ht as [|? ? H1 H2]; subst. constructor; [by apply IH|].
    apply (Forall_map cr_prefix) in H2. exact H2.
  - intros c. rewrite Hc. split.
    + intros (x & Hx & E). rewrite Hp, all_routes_elem in Hx. destruct Hx as (f & n & p & r & Hb & Hpass & ->).
      rewrite route_back in E by by eapply Hs. injection E as <-. by exists f, n, p, r.
    + intros (f & n & p & r & Hb & Hpass & ->). exists (route_to_proto p n r). split; [|apply route_back; by eapply Hs].
      rewrite Hp, all_routes_elem. by exists f, n, p, r.
Qed.

(** What a batch of requests does: the daemon's own candidate for a prefix is the
    route of the last request for it; received routes, the configuration and the
    sessions are not touched. *)
Record originated (secs : Z) (ps : list OriginateRouteParams) (d d' : DaemonState) : Prop := {
  ob_cands : forall f n q, cands f d' !! (n, q)
    = if decide (q = LOCAL_ORIGIN_PEER)
      then match last_request f ps n with Some p => Some (route_asked secs n p) | None => cands f d !! (n, q) end
      else cands f d !! (n, q);
  ob_set : forall f n, n ∈ originated_routes (ds_fam d' f)
    <-> (exists p, p ∈ ps /\ nlri_parse f (op_prefix p) = Some n) \/ n ∈ originated_routes (ds_fam d f);
  ob_in : forall f, adj_ribs_in (ds_fam d' f) = adj_ribs_in (ds_fam d f);
  ob_peers : ds_peers d' = ds_peers d;
  ob_local : ds_local d' = ds_local d;
  ob_sess : ds_sess d' = ds_sess d;
}.
Lemma last_request_some f ps (n : Nlri f) : is_Some (last_request f ps n)
  <-> exists p, p ∈ ps /\ nlri_parse f (op_prefix p) = Some n.
Proof.
  unfold last_request. split.
  - intros [p H]. apply List.find_some in H as [H E]. apply bool_decide_eq_true in E.
    exists p. split; [|done]. by apply list_elem_of_In, in_rev.
  - intros (p & Hp & E). destruct (List.find _ (rev ps)) as [|] eqn:Ef; [done|]. exfalso.
    eapply List.find_none in Ef; [|by rewrite <- in_rev; apply list_elem_of_In].
    by apply bool_decide_eq_false in Ef.
Qed.
Lemma run_batch {f} (rs : list (Route f)) now d : daemon_ok d -> Forall (fun r => canonical (nlri r)) rs ->
  exists d', run (nonempty_then rs (fun l => originate_routes l now) d) = Ok d'
    /\ daemon_ok d' /\ (synced_rib d -> synced_rib d') /\ originates (fun n => Some <$> last_for rs n) d d'.
Proof.
  intros Hd Hrs. destruct rs as [|r rs0] eqn:E.
  - exists d. split_and!; [done|done|done|]. apply originates_id.
  - rewrite <- E in *. destruct (originate_routes_spec rs now d Hd Hrs) as (d' & Ed & H). exists d'. split; [|exact H].
    rewrite E in Ed |- *. cbn [nonempty_then]. by rewrite Ed.
Qed.
Lemma asked_canonical f secs ps : (forall p (n : Nlri f), p ∈ ps -> nlri_parse f (op_prefix p) = Some n -> canonical n) ->
  Forall (fun r => canonical (nlri r)) (asked f secs ps).
Proof.
  intros H. apply Forall_forall. intros r Hr. apply (list_elem_of_fmap_2 nlri) in Hr. apply asked_nlri in Hr as (p & Hp & E).
  by eapply H.
Qed.

(** C25: a batch of origination requests whose prefixes have no host bits is carried
    out as a whole or refused as a whole: if each of them is well formed, the
    daemon's own candidate for each prefix becomes exactly the route of the last
    request for it, the prefixes are recorded as originated, and the best routes are
    again the winners if they were before; received routes, configuration and sessions are left alone.
    Otherwise the answer is INVALID_ARGUMENT.  The daemon never panics.  Well formed
    is, beside the prefix and the length of the extended communities, an IPv4 next hop
    that is not 0.0.0.0 for an IPv4 prefix; the next hop of an IPv6 request is
    neither read nor part of the route, malformed or not ([v6_next_hop_ignored]). *)
Theorem originate_batch_exact secs ck ps d : daemon_ok d ->
  (forall p f (n : Nlri f), p ∈ ps -> nlri_parse f (op_prefix p) = Some n -> canonical n) ->
  Forall acceptable ps /\ (exists d', originate_routes_rpc secs ck (map originate_request ps) d
       = Ok (d', u32_saturating (length ps))
     /\ daemon_ok d' /\ (synced_rib d -> synced_rib d') /\ originated secs ps d d')
  \/ ~ Forall acceptable ps
     /\ originate_routes_rpc secs ck (map originate_request ps) d = Err InvalidArgument.
Proof.
  intros Hd Hc. unfold originate_routes_rpc. rewrite length_map.
  destruct (parse_batch_spec secs ps) as [[Ha ->]|[Ha ->]]; [left|by right]. split; [exact Ha|].
  cbn [mbind outcome_bind].
  destruct (run_batch (asked FamV4 secs ps) (ck FamV4) d Hd) as (d4 & -> & Hd4 & Hs4 & [A1 A2 A3 A4 A0 A5 A6 A7]);
    [apply asked_canonical; intros; by eapply Hc|]. cbn [mbind outcome_bind].
  destruct (run_batch (asked FamV6 secs ps) (ck FamV6) d4 Hd4) as (d6 & -> & Hd6 & Hs6 & [B1 B2 B3 B4 B0 B5 B6 B7]);
    [apply asked_canonical; intros; by eapply Hc|]. cbn [mbind outcome_bind].
  exists d6. split; [done|]. split; [done|]. split; [auto|].
  destruct (A5 FamV6 ltac:(done)) as [Ac Ao], (B5 FamV4 ltac:(done)) as [Bc Bo].
  split; [| |intros f; by rewrite B1|congruence..].
  - intros [] n q; [rewrite Bc, A6|rewrite B6, Ac]; rewrite asked_last; (destruct (decide _); [|done]);
      by destruct (last_request _ ps n).
  - intros [] n; rewrite <- last_request_some; [rewrite Bo, A7|rewrite B7, Ao]; rewrite asked_last;
      destruct (last_request _ ps n) as [p|]; cbn; try tauto; split; try tauto;
      try (intros [[? ?]|?]; done); intros _; left; by eexists.
Qed.

(** ** Reading back what was originated *)
Lemma originate_one_rpc secs ck f (n : Nlri f) p d : daemon_ok d -> well_formed f n p -> canonical n ->
  exists d', originate_route_rpc secs ck (originate_request p) d = Ok d' /\ daemon_ok d'
    /\ (synced_rib d -> synced_rib d')
    /\ originates (fun m => if bool_decide (n = m) then Some (Some (route_asked secs n p)) else None) d d'.
Proof.
  intros Hd Hw Hn. destruct (parse_request_spec secs p) as [(n' & Hw' & E)|[H _]]; [|by destruct H; exists f, n].
  assert (Ef : is_ipv6_prefix (op_prefix p) = bool_decide (f = FamV6)) by (eapply family_of, Hw).
  assert (Ec : chosen p = f) by (eapply chosen_of, Hw). revert n' Hw' E. rewrite Ec. intros n' Hw' E.
  assert (n' = n) as -> by (pose proof (wf_prefix _ _ _ Hw); pose proof (wf_prefix _ _ _ Hw'); congruence).
  destruct (originate_routes_spec [route_asked secs n p] (ck f) d Hd
    (Forall_cons_2 (fun r : Route f => canonical (nlri r)) (route_asked secs n p) [] Hn (Forall_nil_2 _))) as (d' & Ed & Hd' & Hs & Ho).
  exists d'. split; [|split; [exact Hd'|split; [exact Hs|]]].
  - unfold originate_route_rpc. change (oq_prefix (originate_request p)) with (op_prefix p). rewrite Ef.
    destruct f; cbn [parse_request] in E; [rewrite bool_decide_eq_false_2 by done|rewrite bool_decide_eq_true_2 by done];
      rewrite E; cbn [mbind outcome_bind]; by rewrite Ed.
  - eapply originates_ext; [|exact Ho]. intros m. unfold last_for. cbn [rev app List.find].
    change (nlri (route_asked secs n p)) with n. by destruct (bool_decide (n = m)).
Qed.
(** Whatever text an IPv6 request has for its next hop, the request is carried out and
    the route has none, although the service documents that a malformed one is refused. *)
Theorem v6_next_hop_ignored secs ck (n : Nlri FamV6) next_hop_text d : daemon_ok d -> canonical n ->
  exists d' r, originate_route_rpc secs ck
      (originate_request (mkOriginateParams (nlri_to_string n) next_hop_text Igp [] [] [] None None)) d = Ok d'
    /\ cands FamV6 d' !! (n, LOCAL_ORIGIN_PEER) = Some r /\ next_hop r = None.
Proof.
  intros Hd Hn. set (p := mkOriginateParams _ _ _ _ _ _ _ _).
  assert (Hw : well_formed FamV6 n p) by (split; [apply nlri_parse_to_string|done|by constructor]).
  destruct (originate_one_rpc secs ck FamV6 n p d Hd Hw Hn) as (d' & E & _ & _ & Ho).
  exists d', (route_asked secs n p). split; [exact E|]. split; [|done].
  rewrite (og_cands _ _ _ Ho). by rewrite decide_True, bool_decide_eq_true_2.
Qed.
Lemma only_candidate_best {f} (d : DaemonState) (n : Nlri f) p r : daemon_ok d -> synced_rib d -> canonical n ->
  cands f d !! (n, p) = Some r -> (forall q, q <> p -> cands f d !! (n, q) = None) ->
  best_peer (loc_rib (ds_fam d f)) n = if reachable (oracle (ds_fam d f)) (p, r) then Some p else None.
Proof.
  intros Hd Hs Hn Hp Hq. pose proof (Hs f n Hn) as Hu. unfold up_to_date in Hu.
  assert (Hl : forall q x, (q, x) ∈ cand_list (loc_rib (ds_fam d f)) n <-> q = p /\ x = r).
  { intros q x. rewrite cand_list_elem by apply (fo_rib _ (dk_fam d Hd f)).
    change (candidates (loc_rib (ds_fam d f))) with (cands f d). destruct (decide (q = p)) as [->|Hne].
    - rewrite Hp. naive_solver.
    - rewrite Hq by done. naive_solver. }
  destruct (best_peer _ n) as [q|]; cbn [selected] in Hu.
  - destruct Hu as (x & Hx & Hr & _). apply Hl in Hx as [-> ->]. by rewrite Hr.
  - rewrite (Hu (p, r)); [done|]. by apply Hl.
Qed.
Lemma rare_asked_default p : default RARE_DEFAULT (rare_asked p)
  = mkRare (op_communities p) (op_large_communities p) (op_extended_communities p) [] false None None None [].
Proof. unfold rare_asked. by destruct (op_communities p), (op_large_communities p), (op_extended_communities p). Qed.

(** The route a client that asked for [p] is shown. *)
Definition own_route (f : Family) (p : OriginateRouteParams) : ClientRoute :=
  mkClientRoute (op_prefix p) (match f with FamV4 => None | FamV6 => Some LOCAL_ORIGIN_PEER end) Types.Local
    (match f with FamV4 => IpV4 <$> v4_parse (op_next_hop p) | FamV6 => None end) [] (op_origin p)
    (op_local_pref p) (op_med p) (op_communities p) (op_large_communities p) (op_extended_communities p) false None.

Lemma asked_showable {f} secs (n : Nlri f) p : well_formed f n p -> showable LOCAL_ORIGIN_PEER (route_asked secs n p).
Proof.
  intros [_ _ He]. split.
  - done.
  - intros a. cbn [route_asked next_hop]. destruct f; [|done].
    destruct (v4_parse (op_next_hop p)) as [b|] eqn:E; [|done]. intros [= <-]. by eapply v4_parse_ok.
  - unfold rare_or_default. cbn [route_asked rare]. by rewrite rare_asked_default.
  - unfold rare_or_default. cbn [route_asked rare]. by rewrite rare_asked_default.
Qed.
Lemma shown_asked f secs (n : Nlri f) p : op_prefix p = nlri_to_string n ->
  shown_route LOCAL_ORIGIN_PEER n (route_asked secs n p) = own_route f p.
Proof.
  intros E. unfold shown_route, own_route, rare_or_default. cbn [route_asked rare]. rewrite rare_asked_default, E.
  destruct f; cbn; [by destruct (v4_parse _)|done].
Qed.
Lemma client_best f (n : Nlri f) p d : nlri_parse f (op_prefix p) = Some n ->
  client_get_best_route (fun prefix => get_best_route prefix d) (op_prefix p)
  = lift_convert (transpose route_try_from (best_in (loc_rib (ds_fam d f)) n)).
Proof.
  intros H. unfold client_get_best_route, get_best_route. destruct f.
  - by rewrite H.
  - destruct (nlri_parse FamV4 (op_prefix p)) as [m|] eqn:E; [|by rewrite H].
    pose proof (proj2 (nlri_parse_colon _ _ _ H) eq_refl) as Hc. by apply (nlri_parse_colon _ _ _ E) in Hc.
Qed.
Lemma best_in_spec {f} (lr : LocRib f) (n : Nlri f) o : best_peer lr n = o ->
  best_in lr n = (peer ← o; route_to_proto peer n <$> candidates lr !! (n, peer)).
Proof. intros <-. unfold best_in, best. by destruct (best_peer lr n). Qed.

Lemma read_back_spec secs ck ck' f (n : Nlri f) p d :
  daemon_ok d -> synced_rib d -> well_formed f n p -> canonical n -> op_prefix p = nlri_to_string n ->
  (forall q, q <> LOCAL_ORIGIN_PEER -> cands f d !! (n, q) = None) ->
  exists d', originate_route_rpc secs ck (originate_request p) d = Ok d'
    /\ client_get_best_route (fun prefix => get_best_route prefix d') (op_prefix p)
       = Ok (if reachable (oracle (ds_fam d f)) (LOCAL_ORIGIN_PEER, route_asked secs n p)
             then Some (own_route f p) else None)
    /\ exists d'', withdraw_originated_route_rpc ck' (op_prefix p) d' = Ok d''
    /\ client_get_best_route (fun prefix => get_best_route prefix d'') (op_prefix p) = Ok None.
Proof.
  intros Hd Hs Hw Hn Ep Hq.
  destruct (originate_one_rpc secs ck f n p d Hd Hw Hn) as (d' & E & Hd' & Hs' & Ho). exists d'. split; [exact E|].
  specialize (Hs' Hs).
  assert (Hc : cands f d' !! (n, LOCAL_ORIGIN_PEER) = Some (route_asked secs n p))
    by (rewrite (og_cands _ _ _ Ho), decide_True, bool_decide_eq_true_2 by done; done).
  assert (Hc' : forall q, q <> LOCAL_ORIGIN_PEER -> cands f d' !! (n, q) = None)
    by (intros q Hne; rewrite (og_cands _ _ _ Ho), decide_False by done; by apply Hq).
  pose proof (only_candidate_best d' n _ _ Hd' Hs' Hn Hc Hc') as Hb. rewrite (og_oracle _ _ _ Ho) in Hb.
  pose proof (wf_prefix _ _ _ Hw) as Hp. split.
  - rewrite (client_best f n p d' Hp). destruct (reachable _ _); rewrite (best_in_spec _ _ _ Hb); [|done].
    cbn [mbind option_bind]. change (candidates _ !! _) with (cands f d' !! (n, LOCAL_ORIGIN_PEER)). rewrite Hc. cbn [fmap option_fmap option_map transpose].
    rewrite route_back by (by apply asked_showable). cbn [mbind outcome_bind lift_convert]. by rewrite shown_asked.
  - destruct (withdraw_routes_spec [n] (ck' f) d' Hd' ltac:(by apply Forall_singleton))
      as (d'' & Ed & Hd'' & Hs'' & Hw'). exists d''. split.
    + unfold withdraw_originated_route_rpc, parse_nlri. rewrite (family_of f p n Hp).
      destruct f; [rewrite bool_decide_eq_false_2 by done|rewrite bool_decide_eq_true_2 by done];
        rewrite Hp; cbn [ok_or mbind outcome_bind]; by rewrite Ed.
    + rewrite (client_best f n p d'' Hp).
      assert (Hnone : forall q, cands f d'' !! (n, q) = None).
      { intros q. rewrite (og_cands _ _ _ Hw'). destruct (decide _); [|by apply Hc'].
        by rewrite bool_decide_eq_true_2 by by left. }
      unfold best_in, best. destruct (best_peer (loc_rib (ds_fam d'' f)) n) as [q|]; [|done]. cbn [mbind option_bind].
      change (candidates _ !! _) with (cands f d'' !! (n, q)). by rewrite Hnone.
Qed.
(** A client that originates a route for a prefix nobody else has a route for and
    then asks for the best route of this prefix gets exactly the route it asked
    for, or nothing if the next hop it named is not reachable; and after it has
    withdrawn it, nothing. *)
Theorem origination_read_back secs ck ck' f (n : Nlri f) p d :
  daemon_ok d -> synced_rib d -> well_formed f n p -> canonical n -> op_prefix p = nlri_to_string n ->
  (forall q, q <> LOCAL_ORIGIN_PEER -> cands f d !! (n, q) = None) ->
  exists d', originate_route_rpc secs ck (originate_request p) d = Ok d'
    /\ client_get_best_route (fun prefix => get_best_route prefix d') (op_prefix p)
       = Ok (if reachable (oracle (ds_fam d f)) (LOCAL_ORIGIN_PEER, route_asked secs n p)
             then Some (own_route f p) else None)
    /\ exists d'', withdraw_originated_route_rpc ck' (op_prefix p) d' = Ok d''
    /\ client_get_best_route (fun prefix => get_best_route prefix d'') (op_prefix p) = Ok None.
Proof. exact (read_back_spec secs ck ck' f n p d). Qed.

(** ** Peers *)

Definition default_of (accept : option bool) : option DefaultAction :=
  (fun a : bool => if a then DefAccept else DefReject) <$> accept.
Lemma policy_action_back accept : proto_policy_to_config (policy_action accept) = default_of accept.
Proof. by destruct accept as [[]|]. Qed.

Lemma idle_state now d addr asn : ip_ok addr -> peer_remote_as (ds_peers d) !! addr = Some asn ->
  peer_types (ds_sess d) !! addr = None ->
  exists st, client_get_peer (fun s => get_peer now s d) addr = Ok st /\ cp_address st = addr
    /\ cp_remote_as st = asn /\ cp_local_as st = local_as (ds_local d) /\ cp_session_state st = CsIdle
    /\ cp_peer_type st = None /\ cp_hold_time st = 0 /\ cp_uptime_seconds st = 0.
Proof.
  intros Ha Hr Ht. unfold client_get_peer, get_peer. cbv beta. rewrite addr_parse_string by done.
  cbn [ok_or mbind outcome_bind]. unfold build_peer_state. rewrite Hr. cbn [mbind option_bind]. rewrite Ht.
  cbn [ok_or lift_rpc mbind outcome_bind]. unfold peer_state_try_from, parse_addr. cbn [pp_address pp_session_state].
  rewrite addr_parse_string by done. by eexists.
Qed.
Lemma add_peer_entry cfg sender d : adj_ribs_in (ds_v4 d) !! pc_address cfg = None ->
  let d' := fst (add_peer cfg sender d) in
  peer_remote_as (ds_peers d') !! pc_address cfg = Some (pc_remote_as cfg)
  /\ ds_sess d' = ds_sess d /\ ds_local d' = ds_local d.
Proof.
  intros H. unfold add_peer. rewrite H. split; [apply lookup_insert_eq|done].
Qed.

(** What becomes of a client's request to add a peer.  AS 0 and AS_TRANS are
    refused (RFC 7607), a peer still being removed is refused; otherwise the
    daemon gets a peer with the address, AS, port (179 by default), defaults and
    password of the request.  If the peer was not known and its session is not
    up, the client then sees it, idle, under its address and AS. *)
Theorem add_peer_visible params sc now now' sender l :
  ip_ok (ap_address params) -> (forall p, ap_port params = Some p -> 0 <= p < 65536) ->
  let ip := ap_address params in
  let rpc := add_peer_rpc true (add_peer_request params) (el_daemon l) in
  if decide (ap_remote_as params = 0 \/ ap_remote_as params = 23456) then rpc = Err InvalidArgument
  else if decide (ip ∈ pending_removal (ds_peers (el_daemon l))) then rpc = Err FailedPrecondition
  else exists peer, rpc = Ok peer
    /\ pc_address peer = ip /\ pc_remote_as peer = ap_remote_as params
    /\ pc_port peer = (match ap_port params with None | Some 0 => 179 | Some p => p end)
    /\ pc_import_default peer = default_of (ap_import_default params)
    /\ pc_export_default peer = default_of (ap_export_default params)
    /\ pc_md5_password peer = (match ap_md5_password params with Some [] => None | p => p end)
    /\ (adj_ribs_in (ds_v4 (el_daemon l)) !! ip = None -> peer_types (ds_sess (el_daemon l)) !! ip = None ->
        exists st, client_get_peer (fun s => get_peer now' s (el_daemon (fst (add_peer_command sc now peer sender l)))) ip
          = Ok st /\ cp_address st = ip /\ cp_remote_as st = ap_remote_as params
          /\ cp_local_as st = local_as (ds_local (el_daemon l)) /\ cp_session_state st = CsIdle
          /\ cp_peer_type st = None /\ cp_hold_time st = 0 /\ cp_uptime_seconds st = 0).
Proof.
  intros Ha Hp ip rpc. unfold rpc, add_peer_rpc, add_peer_request.
  cbn [aq_address aq_remote_as aq_port aq_import_default aq_export_default aq_md5_password].
  rewrite addr_parse_string by done. cbn [ok_or mbind outcome_bind]. unfold validate_remote_as.
  destruct (decide (_ \/ _)) as [H|H].
  { replace ((_ =? 0) || (_ =? 23456)) with true by (symmetry; rewrite orb_true_iff, !Z.eqb_eq; exact H). done. }
  replace ((_ =? 0) || (_ =? 23456)) with false
    by (symmetry; apply not_true_is_false; rewrite orb_true_iff, !Z.eqb_eq; exact H).
  cbn [mbind outcome_bind]. fold ip.
  assert (Ep : (if default 0 (ap_port params) =? 0 then Ok 179
    else if default 0 (ap_port params) <? 65536 then Ok (default 0 (ap_port params)) else Err InvalidArgument)
    = Ok (E:=Status) (match ap_port params with None | Some 0 => 179 | Some p => p end)).
  { destruct (ap_port params) as [p|] eqn:E; [|done]. specialize (Hp p eq_refl). cbn [default]. unfold id.
    destruct (Z.eqb_spec p 0) as [->|H0]; [done|]. destruct (Z.ltb_spec p 65536); [|lia]. by destruct p. }
  rewrite Ep. cbn [mbind outcome_bind].
  destruct (decide (ip ∈ _)) as [Hr|Hr]; [by rewrite bool_decide_eq_true_2|rewrite bool_decide_eq_false_2 by done].
  eexists. split; [reflexivity|]. cbn [pc_address pc_remote_as pc_port pc_import_default pc_export_default pc_md5_password].
  split; [done|]. split; [done|]. split; [done|]. split; [apply policy_action_back|].
  split; [apply policy_action_back|]. split; [by destruct (ap_md5_password params) as [[]|]|].
  intros Hi Ht. unfold add_peer_command. cbn [pc_address]. rewrite Hi. cbn [fst el_daemon].
  match goal with |- context [fst (add_peer ?x ?y ?z)] => set (cfg := x); set (d := z) in * end.
  destruct (add_peer_entry cfg sender d Hi) as (E1 & E2 & E3). rewrite <- E2 in Ht. rewrite <- E3.
  exact (idle_state now' _ _ _ Ha E1 Ht).
Qed.

(** ** Answers that mislead *)

(** ListOriginatedRoutes, documented as all originated routes, answers the
    best route of each originated IPv4 prefix, under the daemon's own name
    whoever it is from, and no IPv6 route. *)
Theorem list_originated_exact d x :
  (x ∈ list_originated_routes d <-> exists n peer r, n ∈ originated_routes (ds_v4 d)
     /\ best_peer (loc_rib (ds_v4 d)) n = Some peer /\ candidates (loc_rib (ds_v4 d)) !! (n, peer) = Some r
     /\ x = route_to_proto LOCAL_ORIGIN_PEER n r)
  /\ (x ∈ list_originated_routes d -> COLON ∉ pr_prefix x).
Proof.
  assert (H : x ∈ list_originated_routes d <-> exists n peer r, n ∈ originated_routes (ds_v4 d)
     /\ best_peer (loc_rib (ds_v4 d)) n = Some peer /\ candidates (loc_rib (ds_v4 d)) !! (n, peer) = Some r
     /\ x = route_to_proto LOCAL_ORIGIN_PEER n r).
  { unfold list_originated_routes. rewrite list_elem_of_omap. split.
    - intros (n & Hn & E). rewrite (hash_order_perm _ _), elem_of_elements in Hn. unfold best in E.
      destruct (best_peer _ n) as [p|] eqn:Ep; [|done]. cbn [mbind option_bind] in E.
      destruct (candidates _ !! (n, p)) as [r|] eqn:Er; [|done]. injection E as <-. by exists n, p, r.
    - intros (n & p & r & Hn & Ep & Er & ->). exists n. rewrite (hash_order_perm _ _), elem_of_elements. split; [done|].
      unfold best. rewrite Ep. cbn [mbind option_bind]. by rewrite Er. }
  split; [exact H|]. rewrite H. intros (n & p & r & _ & _ & _ & ->) Hx.
  by apply (nlri_colon n) in Hx.
Qed.

(** The events reported so far. *)
Definition events_of (d : DaemonState) : list RouteEvent := route_events (ds_obs d).
Lemma foldl_events {A} (g : DaemonState -> A -> DaemonState) : (forall d a, events_of (g d a) = events_of d) ->
  forall l d, events_of (foldl g d l) = events_of d.
Proof. intros H l. induction l as [|a l IH]; intros d; [done|]. cbn [foldl]. by rewrite IH. Qed.
Lemma events_propagate {f} now (l : list (Nlri f)) d : events_of (propagate_to_all_peers now l d) = events_of d.
Proof.
  unfold propagate_to_all_peers, sync_all. rewrite foldl_events by done. apply foldl_events. intros d0 ip.
  unfold propagate_peer. destruct (export_policy _ f !! ip); [|done].
  destruct (adj_ribs_out _ !! ip) as [aro|]; [|done]. destruct (decide_all _ aro l) as [aro' xs].
  assert (H : events_of (fst (apply_mrai (now ip) ip xs (set_aro ip aro' d0))) = events_of d0).
  { destruct f; [|done]. unfold apply_mrai. destruct (bool_decide _); [|done].
    by destruct (mrai_filter _ _ _) as [[] ?]. }
  destruct (apply_mrai _ _ _ _) as [d1 ys]. cbn [fst] in H. rewrite <- H. by destruct f.
Qed.
Lemma events_flush_nonempty {f} (xs : list (PrefixDecision f)) ip d :
  events_of (fst (flush_nonempty xs ip d)) = events_of d.
Proof.
  unfold flush_nonempty, flush_to. destruct xs; [done|]. destruct (update_senders _ !! ip); [|done].
  by destruct (flush _ _ _ _ _).
Qed.
Lemma events_flush d : events_of (flush_pending d) = events_of d.
Proof.
  apply foldl_events. intros d0 ip. unfold flush_peer, take_pending.
  set (xs4 := default [] _). set (d1 := upd_fam _ d0). set (xs6 := default [] _). set (d2 := upd_fam _ d1).
  assert (E : events_of d2 = events_of d0) by done.
  assert (G : events_of (match update_senders (ds_out d2) !! ip with
      | Some _ => let '(d, ok) := flush_nonempty xs4 ip d2 in
          if ok then let '(d, ok) := flush_nonempty xs6 ip d in if ok then d else push_stalled ip d
          else push_stalled ip d
      | None => d2 end) = events_of d0).
  { destruct (update_senders _ !! ip); [|done]. pose proof (events_flush_nonempty xs4 ip d2) as H4.
    destruct (flush_nonempty xs4 ip d2) as [d3 ok]. cbn [fst] in H4. destruct ok; [|by rewrite <- E, <- H4].
    pose proof (events_flush_nonempty xs6 ip d3) as H6. destruct (flush_nonempty xs6 ip d3) as [d4 ok].
    cbn [fst] in H6. by destruct ok; rewrite <- E, <- H4, <- H6. }
  by destruct xs4, xs6.
Qed.
Lemma events_fib cs : forall d, events_of (fib_calls cs d) = events_of d.
Proof. by apply foldl_events. Qed.

(** WithdrawOriginatedRoute reports a prefix as withdrawn from the Loc-RIB to
    those who watch the routes, although another peer's route is now the best
    one: a client that follows the events takes the prefix for gone while the
    daemon answers a route for it. *)
Theorem withdrawal_event_misleads ck f (n : Nlri f) d q r :
  daemon_ok d -> synced_rib d -> canonical n -> q <> LOCAL_ORIGIN_PEER ->
  cands f d !! (n, q) = Some r -> reachable (oracle (ds_fam d f)) (q, r) = true ->
  exists d', withdraw_originated_route_rpc ck (nlri_to_string n) d = Ok d'
    /\ map event_to_proto (events_of d') = map event_to_proto (events_of d)
         ++ [mkProtoRouteEvent Num.EVENT_WITHDRAWN None (Some (nlri_to_string n))]
    /\ exists x, get_best_route (nlri_to_string n) d' = Ok (Some x).
Proof.
  intros Hd Hs Hn Hq Hc Hr.
  destruct (withdraw_routes_spec [n] (ck f) d Hd ltac:(by apply Forall_singleton)) as (d' & Ed & Hd' & Hs' & Ho).
  specialize (Hs' Hs). exists d'. split; [|split].
  - unfold withdraw_originated_route_rpc, parse_nlri, is_ipv6_prefix. rewrite (bool_decide_ext _ _ (nlri_colon n)).
    destruct f; [rewrite bool_decide_eq_false_2 by done|rewrite bool_decide_eq_true_2 by done];
      rewrite nlri_parse_to_string; cbn [ok_or mbind outcome_bind]; by rewrite Ed.
  - revert Ed. unfold withdraw_originated_routes. cbn [withdraw_originated_each]. unfold withdraw_originated_one, rib_withdraw.
    destruct (loc_rib_withdraw _ _ _ _) as [[lr c]| | |]; [|done..]. cbn [mbind outcome_bind]. intros [= <-].
    rewrite events_flush, events_propagate. unfold events_of at 1. cbn [send_event set_obs ds_obs route_events].
    rewrite map_app. f_equal. fold (events_of (fib_apply [c] (upd_fam (fam_set_rib lr)
      (upd_fam (fun x : Fam f => fam_set_originated (originated_routes x ∖ {[n]}) x) d)))).
    unfold fib_apply. rewrite events_fib. by destruct f.
  - assert (Hcq : cands f d' !! (n, q) = Some r) by (by rewrite (og_cands _ _ _ Ho), decide_False).
    pose proof (Hs' f n Hn) as Hu. unfold up_to_date in Hu.
    assert (Hin : (q, r) ∈ cand_list (loc_rib (ds_fam d' f)) n)
      by (rewrite cand_list_elem; [exact Hcq|apply (fo_rib _ (dk_fam d' Hd' f))]).
    rewrite (og_oracle _ _ _ Ho) in Hu.
    destruct (best_peer (loc_rib (ds_fam d' f)) n) as [p|] eqn:Ep; cbn [selected] in Hu.
    2:{ rewrite (Hu _ Hin) in Hr. done. }
    destruct Hu as (x & Hx & _). rewrite cand_list_elem in Hx by apply (fo_rib _ (dk_fam d' Hd' f)).
    exists (route_to_proto p n x). unfold get_best_route. destruct f.
    + rewrite nlri_parse_to_string. change (ds_v4 d') with (ds_fam d' FamV4). rewrite (best_in_spec _ _ _ Ep).
      cbn [mbind option_bind]. by rewrite Hx.
    + destruct (nlri_parse FamV4 (nlri_to_string n)) as [m|] eqn:E.
      { pose proof (proj2 (nlri_colon n) eq_refl) as Hcol. by apply (nlri_parse_colon _ _ _ E) in Hcol. }
      rewrite nlri_parse_to_string. change (ds_v6 d') with (ds_fam d' FamV6). rewrite (best_in_spec _ _ _ Ep).
      cbn [mbind option_bind]. by rewrite Hx.
Qed.
End Claims.

(** ** Histories that meet the hypotheses *)
Section Applied.
#[local] Existing Instances ModelPrefix.ops ModelPrefix.laws ModelRouteMap.ops ModelRouteMap.laws.
#[local] Existing Instances ModelHashOrder.order ModelHashOrder.order_law ModelText.text_ops ModelText.text_laws.

Definition addr_okb (a : IpAddr) : bool :=
  match a with IpV4 a => (0 <=? a) && (a <? 2 ^ 32) | IpV6 a => (0 <=? a) && (a <? 2 ^ 128) end.
Lemma addr_okb_ok a : addr_okb a = true -> ip_ok a.
Proof. destruct a; cbn; intros H; zbool; lia. Qed.
Definition showableb {f} (peer : PeerId) (r : Route f) : bool :=
  addr_okb peer && match shown_next_hop (next_hop r) with Some a => addr_okb a | None => true end
  && forallb (fun b => (length b =? 8)%nat) (extended_communities (rare_or_default r))
  && match aggregator (rare_or_default r) with Some a => addr_okb (IpV4 (agg_ip a)) | None => true end.
Lemma showableb_ok {f} peer (r : Route f) : showableb peer r = true -> showable peer r.
Proof.
  unfold showableb. rewrite !andb_true_iff. intros [[[H1 H2] H3] H4]. split.
  - by apply addr_okb_ok.
  - intros a E. rewrite E in H2. by apply addr_okb_ok.
  - apply Forall_forall. intros b Hb%list_elem_of_In. rewrite forallb_forall in H3. by apply Nat.eqb_eq, H3.
  - intros a E. rewrite E in H4. by apply addr_okb_ok.
Qed.
Lemma all_showable_compute d :
  (forall f, forallb (fun x : Nlri f * Route f => match best_peer (loc_rib (ds_fam d f)) x.1 with
     | Some p => showableb p x.2 | None => true end) (best_routes (loc_rib (ds_fam d f))) = true) -> all_showable d.
Proof.
  intros H f n p r (Hc & Hp & Hr). apply showableb_ok. specialize (H f). rewrite forallb_forall in H.
  assert (Hin : (n, r) ∈ best_routes (loc_rib (ds_fam d f)))
    by (apply best_routes_elem; split; [done|]; unfold best; by rewrite Hp).
  specialize (H (n, r) (proj1 (list_elem_of_In _ _) Hin)). cbn [fst snd] in H. by rewrite Hp in H.
Qed.
Lemma parse_text_canonical {f0} (n0 : Nlri f0) f (n : Nlri f) : canonical n0 ->
  nlri_parse f (nlri_to_string n0) = Some n -> canonical n.
Proof.
  intros Hc H. pose proof (nlri_parse_colon _ _ _ H) as H1. rewrite (nlri_colon n0) in H1.
  destruct f, f0; try (by destruct H1 as [H1 H2]; first [discriminate (H1 eq_refl)|discriminate (H2 eq_refl)]);
    rewrite nlri_parse_to_string in H; by injection H as <-.
Qed.

Lemma gr_daemon_synced a : synced_rib (gr_daemon a).
Proof. apply (scenario_synced (gr_cfg a) gr_ops gr_ops_ok). exact I. Qed.
Lemma gr_daemon_showable : all_showable (gr_daemon DefAccept).
Proof. apply all_showable_compute. intros []; vm_compute; reflexivity. Qed.
Lemma list_all_routes_exact_witness : exists l,
  list_all_routes 5 (fun _ req => list_routes req (gr_daemon DefAccept)) (Some one_ip) = Ok l
  /\ NoDup (map cr_prefix l) /\ exists c, c ∈ l /\ cr_prefix c = text "10.0.0.0/8".
Proof.
  destruct (list_all_routes_exact (gr_daemon DefAccept) (Some one_ip) 5) as (l & E & _ & Hn & Hl).
  - intros a [= <-]. by apply addr_okb_ok.
  - exact gr_daemon_showable.
  - apply Nat.ltb_lt. vm_compute. reflexivity.
  - exists l. split; [exact E|]. split; [exact Hn|].
    destruct (gr_daemon_held DefAccept) as [r0 _].
    assert (Hb : exists r, is_best (gr_daemon DefAccept) imp10 one_ip r).
    { destruct (candidates (loc_rib (ds_fam (gr_daemon DefAccept) FamV4)) !! (imp10, one_ip)) as [r|] eqn:Er.
      - exists r. split; [exact imp10_canonical|]. split; [vm_compute; reflexivity|exact Er].
      - apply (f_equal (fun o => match o with Some _ => true | None => false end)) in Er. vm_compute in Er. discriminate Er. }
    destruct Hb as [r Hb]. exists (shown_route one_ip imp10 r). split.
    + apply Hl. exists FamV4, imp10, one_ip, r. split; [exact Hb|]. split; [by right|reflexivity].
    + vm_compute. reflexivity.
Defined.

Definition own16 : Nlri FamV4 := ModelPrefix.nlri FamV4 168361984 16 eq_refl.
Lemma own16_canonical : canonical own16.
Proof. by apply ModelPrefix.nlri_canonical. Qed.
Definition own32 : Nlri FamV6 := ModelPrefix.nlri FamV6 42540766411282592856903984951653826560 32 eq_refl.
Lemma own32_canonical : canonical own32.
Proof. by apply ModelPrefix.nlri_canonical. Qed.
Definition own_params (prefix : Text) : OriginateRouteParams :=
  mkOriginateParams prefix (text "192.0.2.1") Egp [4259905636] [] [] (Some 120) None.
Lemma own16_well_formed : well_formed FamV4 own16 (own_params (nlri_to_string own16)).
Proof.
  split; [apply nlri_parse_to_string| |by constructor]. intros _. exists 3221225985. split; [vm_compute; reflexivity|done].
Qed.
Lemma own32_well_formed : well_formed FamV6 own32 (own_params (nlri_to_string own32)).
Proof. split; [apply nlri_parse_to_string|done|by constructor]. Qed.
Lemma originate_batch_exact_witness : exists d', originate_routes_rpc 0 (fun _ _ => 0)
    (map originate_request [own_params (nlri_to_string own16); own_params (nlri_to_string own32)]) (gr_daemon DefAccept)
    = Ok (d', 2)
  /\ own32 ∈ originated_routes (ds_v6 d').
Proof.
  destruct (originate_batch_exact 0 (fun _ _ => 0) [own_params (nlri_to_string own16); own_params (nlri_to_string own32)]
    (gr_daemon DefAccept) (gr_daemon_ok _)) as [[_ (d' & E & _ & _ & Ho)]|[H _]].
  - intros p f n Hp E. apply list_elem_of_In in Hp. destruct Hp as [<-|[<-|[]]]; cbn [own_params op_prefix] in E;
      (eapply parse_text_canonical; [|exact E]); [exact own16_canonical|exact own32_canonical].
  - exists d'. split; [exact E|]. apply (ob_set _ _ _ _ Ho FamV6). left. eexists. split; [right; left|].
    exact (wf_prefix _ _ _ own32_well_formed).
  - exfalso. apply H. apply Forall_cons_2; [|apply Forall_cons_2; [|apply Forall_nil_2]].
    + exists FamV4, own16. exact own16_well_formed.
    + exists FamV6, own32. exact own32_well_formed.
Defined.

Lemma no_candidate d (n : Nlri FamV4) q : daemon_ok d ->
  bool_decide (is_Some (peer_index (loc_rib (ds_fam d FamV4)) !! n)) = false -> cands FamV4 d !! (n, q) = None.
Proof.
  intros Hd H%bool_decide_eq_false. apply eq_None_not_Some. intros Hs. apply H.
  apply (ok_index _ (fo_rib _ (dk_fam d Hd FamV4))) in Hs as (ps & E & _). by rewrite E.
Qed.
Lemma v6_next_hop_ignored_witness : exists d' r,
  originate_route_rpc 0 (fun _ _ => 0)
    (originate_request (mkOriginateParams (nlri_to_string own32) (text "no address") Igp [] [] [] None None)) (gr_daemon DefAccept)
    = Ok d' /\ cands FamV6 d' !! (own32, LOCAL_ORIGIN_PEER) = Some r /\ next_hop r = None.
Proof.
  exact (v6_next_hop_ignored 0 (fun _ _ => 0) own32 (text "no address") (gr_daemon DefAccept) (gr_daemon_ok _) own32_canonical).
Defined.
Lemma origination_read_back_witness : exists d',
  originate_route_rpc 0 (fun _ _ => 0) (originate_request (own_params (nlri_to_string own16))) (gr_daemon DefAccept) = Ok d'
  /\ client_get_best_route (fun prefix => get_best_route prefix d') (nlri_to_string own16)
     = Ok (Some (own_route FamV4 (own_params (nlri_to_string own16)))).
Proof.
  destruct (origination_read_back 0 (fun _ _ => 0) (fun _ _ => 0) FamV4 own16 (own_params (nlri_to_string own16))
    (gr_daemon DefAccept) (gr_daemon_ok _) (gr_daemon_synced _) own16_well_formed own16_canonical eq_refl) as (d' & E & Er & _).
  - intros q _. apply no_candidate; [exact (gr_daemon_ok _)|]. vm_compute. reflexivity.
  - exists d'. split; [exact E|]. cbn [own_params op_prefix] in Er. rewrite Er.
    replace (reachable _ _) with true by (vm_compute; reflexivity). reflexivity.
Defined.

Definition gr_loop : EventLoop := mkEventLoop (gr_daemon DefAccept) [] {[one_ip]}.
Definition new_peer : AddPeerParams := mkAddPeerParams two_ip 65020 (Some 1790) (Some true) None None.
Lemma add_peer_visible_witness : exists peer,
  add_peer_rpc true (add_peer_request new_peer) (gr_daemon DefAccept) = Ok peer /\ pc_port peer = 1790
  /\ exists st, client_get_peer (fun s => get_peer 0 s (el_daemon (fst (add_peer_command
       (spawn_config (gr_cfg DefAccept) 0) 0 peer (mkSender 8 []) gr_loop)))) two_ip = Ok st
     /\ cp_remote_as st = 65020.
Proof.
  pose proof (add_peer_visible new_peer (spawn_config (gr_cfg DefAccept) 0) 0 0 (mkSender 8 []) gr_loop) as H.
  cbv zeta in H. rewrite !decide_False in H.
  - destruct H as (peer & E & _ & _ & Ep & _ & _ & _ & Hs); [by apply addr_okb_ok|intros p [= <-]; lia|].
    exists peer. split; [exact E|]. split; [exact Ep|]. clear E Ep.
    destruct Hs as (st & Es & _ & Ha & _); [vm_compute; reflexivity|vm_compute; reflexivity|].
    exists st. split; [exact Es|exact Ha].
  - apply (bool_decide_unpack (two_ip ∉ pending_removal (ds_peers (gr_daemon DefAccept)))). vm_compute. exact I.
  - cbn. intros [?|?]; lia.
Defined.

Definition gr_own : DaemonState := scenario (gr_cfg DefAccept)
  (gr_ops ++ [OpOriginate FamV4 [route_asked 0 imp10 (own_params (nlri_to_string imp10))] (fun _ => 0)]).
Lemma gr_own_ops : Forall daemon_op_ok
  (gr_ops ++ [OpOriginate FamV4 [route_asked 0 imp10 (own_params (nlri_to_string imp10))] (fun _ => 0)]).
Proof. apply gr_ops_more. apply Forall_cons_2; [|apply Forall_nil_2]. by apply Forall_cons_2; [exact imp10_canonical|apply Forall_nil_2]. Qed.
Lemma gr_own_ok : daemon_ok gr_own.
Proof. exact (scenario_ok _ _ gr_own_ops). Qed.
Lemma gr_own_synced : synced_rib gr_own.
Proof. apply (scenario_synced _ _ gr_own_ops). exact I. Qed.
Lemma gr_own_candidate : exists r, cands FamV4 gr_own !! (imp10, one_ip) = Some r
  /\ reachable (oracle (ds_fam gr_own FamV4)) (one_ip, r) = true.
Proof.
  destruct (cands FamV4 gr_own !! (imp10, one_ip)) as [r|] eqn:Er.
  - exists r. split; [done|]. apply (f_equal (fun o => match o with Some r => reachable (oracle (ds_fam gr_own FamV4)) (one_ip, r) | None => false end)) in Er.
    rewrite <- Er. vm_compute. reflexivity.
  - apply (f_equal (fun o => match o with Some _ => true | None => false end)) in Er. vm_compute in Er. discriminate Er.
Qed.
Lemma withdrawal_event_misleads_witness : exists d' x,
  withdraw_originated_route_rpc (fun _ _ => 0) (nlri_to_string imp10) gr_own = Ok d'
  /\ get_best_route (nlri_to_string imp10) d' = Ok (Some x).
Proof.
  destruct gr_own_candidate as (r & Er & Hr).
  destruct (withdrawal_event_misleads (fun _ _ => 0) FamV4 imp10 gr_own one_ip r gr_own_ok gr_own_synced imp10_canonical
    ltac:(discriminate) Er Hr) as (d' & E & _ & x & Ex). exists d', x. by split.
Defined.
Lemma list_originated_exact_witness : exists x, x ∈ list_originated_routes gr_own /\ pr_prefix x = text "10.0.0.0/8".
Proof.
  assert (H : exists p r, best_peer (loc_rib (ds_v4 gr_own)) imp10 = Some p
    /\ candidates (loc_rib (ds_v4 gr_own)) !! (imp10, p) = Some r).
  { destruct (best (loc_rib (ds_v4 gr_own)) imp10) as [r|] eqn:E.
    - unfold best in E. destruct (best_peer _ imp10) as [p|] eqn:Ep; [|discriminate E]. exists p, r. exact (conj eq_refl E).
    - apply (f_equal (fun o => match o with Some _ => true | None => false end)) in E. vm_compute in E. discriminate E. }
  destruct H as (p & r & Hp & Hr). exists (route_to_proto LOCAL_ORIGIN_PEER imp10 r). split.
  - apply (list_originated_exact gr_own). exists imp10, p, r. split; [|exact (conj Hp (conj Hr eq_refl))].
    apply (bool_decide_unpack (imp10 ∈ originated_routes (ds_v4 gr_own))). vm_compute. exact I.
  - vm_compute. reflexivity.
Defined.
End Applied.
