(* ===== verification/Mrt.v ===== *)
(** The MRT replayer ([pathvector-mrt/src/mrt.rs] and [speaker.rs]): the reader of
    [TABLE_DUMP_V2] dumps and the speaker that announces what it read.

    A stream is the bytes before its end, and whether the end is an error of the
    reader ([io::Error] other than [UnexpectedEof]).  What the speaker writes is
    the list of its writes; writing itself and the handshake's TCP connection are
    left out, reading in the handshake is a list of received messages. *)
From Stdlib Require Import ZArith Lia Bool.
From stdpp Require Import base tactics numbers decidable gmap list.
From S2P Require Import Prelude Addr Types AsPath Wire Header Notification Open Update UpdateFacts UpdateRoundtrip Message CodecTheorems Fsm LocRib.
Open Scope Z_scope.

(** ** The reader ([mrt.rs]) *)

Definition MRT_TYPE_TABLE_DUMP_V2 : Z := 13.
Definition SUBTYPE_RIB_IPV4_UNICAST : Z := 2.
Definition MRT_HEADER_LEN : nat := 12.
Record RibEntry := mkRibEntry { re_prefix : Z; re_prefix_len : Z; re_attrs : list Z }.

Inductive IoError := UnexpectedEof | OtherError.
#[export] Instance IoError_eq_dec : EqDecision IoError.
Proof. solve_decision. Defined.
Record Stream := mkStream { s_bytes : list Z; s_broken : bool }.
(** [read_exact] into a buffer of [n] bytes *)
Definition read_exact (n : nat) (s : Stream) : Outcome IoError (list Z * Stream) :=
  if (n <=? length (s_bytes s))%nat
  then Ok (firstn n (s_bytes s), mkStream (skipn n (s_bytes s)) (s_broken s))
  else Err (if s_broken s then OtherError else UnexpectedEof).

(** The [n] bytes at [pos] as a big-endian number. *)
Definition be_at (pos n : nat) (body : list Z) : Z := from_be (firstn n (skipn pos body)).
(** [addr_bytes[..prefix_bytes]] panics past four bytes. *)
Definition parse_rib_ipv4 (body : list Z) : Outcome IoError (option RibEntry) :=
  match body !! 4%nat with
  | None => Ok None
  | Some prefix_len =>
      let prefix_bytes := nlri_byte_count prefix_len in
      let pos := 5%nat in
      if (length body <? pos + prefix_bytes)%nat then Ok None
      else if (4 <? prefix_bytes)%nat then Panic
      else
        let prefix := from_be (firstn prefix_bytes (skipn pos body) ++ replicate (4 - prefix_bytes) 0) in
        let pos := (pos + prefix_bytes)%nat in
        if (length body <? pos + 2)%nat then Ok None
        else
          let entry_count := be_at pos 2 body in
          let pos := (pos + 2)%nat in
          if entry_count =? 0 then Ok None
          else if (length body <? pos + 8)%nat then Ok None
          else
            let pos := (pos + 6)%nat in
            let attr_len := Z.to_nat (be_at pos 2 body) in
            let pos := (pos + 2)%nat in
            if (length body <? pos + attr_len)%nat then Ok None
            else Ok (Some (mkRibEntry prefix prefix_len (firstn attr_len (skipn pos body))))
  end.
(** The loop of [parse]: a record is at least its header, so it ends after as many
    turns as there are bytes. *)
Fixpoint parse_loop (fuel : nat) (s : Stream) (entries : list RibEntry) : Outcome IoError (list RibEntry) :=
  match fuel with
  | O => OutOfFuel
  | S fuel =>
      match read_exact MRT_HEADER_LEN s with
      | Err UnexpectedEof => Ok entries
      | Err e => Err e
      | Ok (header, s) =>
          let mrt_type := be_at 4 2 header in
          let subtype := be_at 6 2 header in
          let body_len := Z.to_nat (be_at 8 4 header) in
          '(body, s) ← read_exact body_len s;
          if (mrt_type =? MRT_TYPE_TABLE_DUMP_V2) && (subtype =? SUBTYPE_RIB_IPV4_UNICAST) then
            entry ← parse_rib_ipv4 body;
            parse_loop fuel s (match entry with Some e => entries ++ [e] | None => entries end)
          else parse_loop fuel s entries
      | Panic => Panic
      | OutOfFuel => OutOfFuel
      end
  end.
Definition parse (s : Stream) : Outcome IoError (list RibEntry) :=
  parse_loop (S (length (s_bytes s))) s [].

(** ** The speaker ([speaker.rs]) *)

Definition MAX_MSG_LEN : nat := 4096.
Definition MSG_TYPE_UPDATE : Z := 2.
Definition KEEPALIVE_EVERY_N_UPDATES : Z := 50.
Record AnnounceResult := mkAnnounceResult {
  prefixes_sent : Z;
  updates_sent : Z;
  unique_attr_sets : nat;
}.
(** [addr.octets()[..byte_count]] panics past four bytes. *)
Fixpoint encode_nlris (prefixes : list (Z * Z)) : Outcome IoError (list Z) :=
  match prefixes with
  | [] => Ok []
  | (addr, plen) :: prefixes =>
      let byte_count := nlri_byte_count plen in
      if (4 <? byte_count)%nat then Panic
      else out ← encode_nlris prefixes; Ok (plen :: firstn byte_count (u32_be addr) ++ out)
  end.
Definition update_bytes (attrs : list Z) (prefixes : list (Z * Z)) : Outcome IoError (list Z) :=
  nlri_bytes ← encode_nlris prefixes;
  let body_len := (2 + 2 + length attrs + length nlri_bytes)%nat in
  let total_len := (HEADER_LEN + body_len)%nat in
  Ok (MARKER ++ u16_be (as_u16 (Z.of_nat total_len)) ++ [MSG_TYPE_UPDATE] ++ u16_be 0
      ++ u16_be (as_u16 (len attrs)) ++ attrs ++ nlri_bytes).
Definition keepalive_msg : list Z := encode_header MtKeepalive 0.

(** What a run has written and counted. *)
Record Run := mkRun { written : list (list Z); n_updates : Z; n_prefixes : Z }.
Definition send_update (attrs : list Z) (batch : list (Z * Z)) (r : Run) : Outcome IoError Run :=
  msg ← update_bytes attrs batch;
  Ok (mkRun (written r ++ [msg]) (n_updates r + 1) (n_prefixes r + Z.of_nat (length batch))).
Definition available_for_nlri (attrs : list Z) : nat := (MAX_MSG_LEN - HEADER_LEN - 4 - length attrs)%nat.
(** The loop over the prefixes of one attribute set, then the last batch. *)
Fixpoint announce_set (attrs : list Z) (prefixes : list (Z * Z)) (batch : list (Z * Z))
    (batch_nlri_bytes : nat) (r : Run) : Outcome IoError Run :=
  match prefixes with
  | [] => match batch with [] => Ok r | _ => send_update attrs batch r end
  | (prefix, plen) :: prefixes =>
      let nlri_size := (1 + nlri_byte_count plen)%nat in
      if negb (bool_decide (batch = [])) && (available_for_nlri attrs <? batch_nlri_bytes + nlri_size)%nat then
        r ← send_update attrs batch r;
        let r := if n_updates r mod KEEPALIVE_EVERY_N_UPDATES =? 0
                 then mkRun (written r ++ [keepalive_msg]) (n_updates r) (n_prefixes r) else r in
        announce_set attrs prefixes [(prefix, plen)] nlri_size r
      else announce_set attrs prefixes (batch ++ [(prefix, plen)]) (batch_nlri_bytes + nlri_size) r
  end.
Section Speaker.
Context `{HO : HashOrder}.
Definition group_by_attrs (entries : list RibEntry) : gmap (list Z) (list (Z * Z)) :=
  foldl (fun m e => <[re_attrs e := default [] (m !! re_attrs e) ++ [(re_prefix e, re_prefix_len e)]]> m)
    ∅ entries.
Fixpoint announce_sets (sets : list (list Z * list (Z * Z))) (r : Run) : Outcome IoError Run :=
  match sets with
  | [] => Ok r
  | (attrs, prefixes) :: sets => r ← announce_set attrs prefixes [] 0 r; announce_sets sets r
  end.
Definition announce (entries : list RibEntry) : Outcome IoError (list (list Z) * AnnounceResult) :=
  let by_attrs := group_by_attrs entries in
  r ← announce_sets (hash_order (map_to_list by_attrs)) (mkRun [] 0 0);
  Ok (written r, mkAnnounceResult (n_prefixes r) (n_updates r) (size by_attrs)).
End Speaker.

(** ** The handshake *)
Inductive HandshakeError := ExpectedOpen | GotNotification | ReadFailed.
(** Until the peer's KEEPALIVE. *)
Fixpoint await_keepalive `{P : IpPrefixOps} (received : list BgpMessage) : Outcome HandshakeError (list BgpMessage) :=
  match received with
  | [] => Err ReadFailed
  | BmKeepalive :: received => Ok received
  | BmNotification _ :: _ => Err GotNotification
  | _ :: received => await_keepalive received
  end.
(** What is written, in order, and how it ends; [received] is what the peer sends. *)
Definition handshake_open `{P : IpPrefixOps} (my_as router_id : Z) : BgpMessage :=
  BmOpen (mkOpen 4 (if 65535 <? my_as then AS_TRANS else my_as) 90 router_id
            [CapFourByteAsn my_as; CapMultiProtocol IPV4_UNICAST]).
Definition handshake `{P : IpPrefixOps} (my_as router_id : Z) (received : list BgpMessage)
    : list BgpMessage * Outcome HandshakeError (list BgpMessage) :=
  let open := handshake_open my_as router_id in
  match received with
  | [] => ([open], Err ReadFailed)
  | BmOpen _ :: received => ([open; BmKeepalive], await_keepalive received)
  | _ => ([open], Err ExpectedOpen)
  end.

(** ** Dumps *)
Section Dumps.
Context `{P : IpPrefixOps}.

(** What a dump holds (RFC 6396): the entries of a prefix, of which the first one's
    attributes matter, or a record the reader skips. *)
Inductive DumpItem :=
| DRib (ts seq : Z) (n : Nlri FamV4) (peer time : Z) (attrs : list PathAttribute) (others : list (list Z))
| DOther (ts mrt_type subtype : Z) (body : list Z).
Definition rib_body (seq : Z) (n : Nlri FamV4) (peer time : Z) (attrs : list Z) (others : list (list Z)) : list Z :=
  u32_be seq ++ encode_nlri n ++ u16_be (1 + Z.of_nat (length others))
  ++ (u16_be peer ++ u32_be time) ++ u16_be (len attrs) ++ attrs ++ concat others.
Definition record_wire (ts mrt_type subtype : Z) (body : list Z) : list Z :=
  u32_be ts ++ u16_be mrt_type ++ u16_be subtype ++ u32_be (len body) ++ body.
Definition item_body (i : DumpItem) : list Z :=
  match i with
  | DRib _ seq n peer time attrs others => rib_body seq n peer time (encode_path_attributes attrs) others
  | DOther _ _ _ body => body
  end.
Definition item_wire (i : DumpItem) : list Z :=
  match i with
  | DRib ts _ _ _ _ _ _ => record_wire ts MRT_TYPE_TABLE_DUMP_V2 SUBTYPE_RIB_IPV4_UNICAST (item_body i)
  | DOther ts t s body => record_wire ts t s body
  end.
Definition item_entry (i : DumpItem) : option RibEntry :=
  match i with
  | DRib _ _ n _ _ attrs _ => Some (mkRibEntry (nlri_ip n) (prefix_len n) (encode_path_attributes attrs))
  | DOther _ _ _ _ => None
  end.
Definition item_ok (i : DumpItem) : Prop :=
  len (item_body i) < 2 ^ 32 /\
  match i with
  | DRib _ _ n _ _ attrs others =>
      canonical n /\ len (encode_path_attributes attrs) <= 65535 /\ Z.of_nat (length others) < 65535
  | DOther _ t s _ => is_u16 t /\ is_u16 s
      /\ ~ (t = MRT_TYPE_TABLE_DUMP_V2 /\ s = SUBTYPE_RIB_IPV4_UNICAST)
  end.

Context {L : IpPrefixLaws}.

Lemma slice_app (a b c : list Z) i n : i = length a -> n = length b ->
  firstn n (skipn i (a ++ b ++ c)) = b.
Proof. intros -> ->. rewrite drop_app_length. apply take_app_length. Qed.
Lemma byte_count_v4 (n : Nlri FamV4) : (nlri_byte_count (prefix_len n) <= 4)%nat.
Proof. exact (byte_count_le FamV4 (prefix_len n) (prefix_mask_ok FamV4 (nlri_prefix n))). Qed.
Lemma nlri_bytes_back (n : Nlri FamV4) : canonical n ->
  from_be (firstn (nlri_byte_count (prefix_len n)) (be_bytes 4 (nlri_ip n))
    ++ replicate (4 - nlri_byte_count (prefix_len n)) 0) = nlri_ip n.
Proof.
  intros Hn. pose proof (prefix_mask_ok FamV4 (nlri_prefix n)) as Hm. fold (prefix_len n) in Hm.
  pose proof (prefix_ip_ok FamV4 (nlri_prefix n)) as Hip. fold (nlri_ip n) in Hip.
  pose proof (nlri_octets FamV4 (nlri_ip n) (prefix_len n)) as E. cbn [addr_bytes] in E.
  rewrite E by (try done; by apply canonical_ip). by apply (from_be_addr FamV4).
Qed.
Lemma parse_rib_body seq (n : Nlri FamV4) peer time attrs others : canonical n -> len attrs <= 65535 ->
  Z.of_nat (length others) < 65535 ->
  parse_rib_ipv4 (rib_body seq n peer time attrs others)
  = Ok (Some (mkRibEntry (nlri_ip n) (prefix_len n) attrs)).
Proof.
  intros Hn Ha Ho. unfold rib_body. set (pb := nlri_byte_count (prefix_len n)).
  pose proof (byte_count_v4 n) as Hpb. fold pb in Hpb.
  set (bs := firstn pb (be_bytes 4 (nlri_ip n))).
  assert (Hbs : length bs = pb) by (unfold bs; rewrite length_take, be_bytes_length; lia).
  change (encode_nlri n) with (prefix_len n :: bs). set (cnt := u16_be (1 + _)). set (mid := u16_be peer ++ _).
  set (al := u16_be (len attrs)). set (tl := attrs ++ concat others).
  assert (Hcnt : length cnt = 2%nat) by apply u16_be_length. assert (Hal : length al = 2%nat) by apply u16_be_length.
  assert (Hmid : length mid = 6%nat) by (unfold mid; by rewrite length_app, u16_be_length, u32_be_length).
  assert (Hseq : length (u32_be seq ++ [prefix_len n]) = 5%nat) by (rewrite length_app, u32_be_length; done).
  assert (Htl : (length attrs <= length tl)%nat) by (unfold tl; rewrite length_app; lia).
  set (body := u32_be seq ++ (prefix_len n :: bs) ++ cnt ++ mid ++ al ++ tl).
  assert (Eb : body = (u32_be seq ++ [prefix_len n]) ++ bs ++ cnt ++ mid ++ al ++ tl)
    by (unfold body; by rewrite <- app_assoc).
  assert (Elen : length body = (5 + pb + 2 + 6 + 2 + length tl)%nat)
    by (rewrite Eb, !length_app in *; lia).
  unfold parse_rib_ipv4. replace (body !! 4%nat) with (Some (prefix_len n))
    by (unfold body; rewrite lookup_app_r; rewrite u32_be_length; [done|lia]).
  cbv zeta. fold pb. rewrite Elen.
  destruct (Nat.ltb_spec (5 + pb + 2 + 6 + 2 + length tl) (5 + pb)); [lia|].
  destruct (Nat.ltb_spec 4 pb); [lia|].
  destruct (Nat.ltb_spec (5 + pb + 2 + 6 + 2 + length tl) (5 + pb + 2)); [lia|].
  assert (E1 : firstn pb (skipn 5 body) = bs) by (rewrite Eb; by apply slice_app).
  assert (E2 : be_at (5 + pb) 2 body = 1 + Z.of_nat (length others)).
  { unfold be_at. rewrite Eb, (app_assoc _ bs). rewrite slice_app; [|rewrite !length_app in *; lia|lia].
    apply u16_be_roundtrip. clear -Ho. blia. }
  assert (E3 : be_at (5 + pb + 2 + 6) 2 body = len attrs).
  { unfold be_at. rewrite Eb, (app_assoc _ bs), (app_assoc _ cnt), (app_assoc _ mid),
      slice_app by (rewrite ?length_app in *; lia).
    apply u16_be_roundtrip. unfold is_u16. blia. }
  assert (E4 : firstn (length attrs) (skipn (5 + pb + 2 + 6 + 2) body) = attrs).
  { rewrite Eb, (app_assoc _ bs), (app_assoc _ cnt), (app_assoc _ mid), (app_assoc _ al). unfold tl.
    apply slice_app; rewrite ?length_app in *; lia. }
  rewrite E2. destruct (Z.eqb_spec (1 + Z.of_nat (length others)) 0); [lia|].
  destruct (Nat.ltb_spec (5 + pb + 2 + 6 + 2 + length tl) (5 + pb + 2 + 8)); [lia|]. rewrite E3, len_to_nat.
  destruct (Nat.ltb_spec (5 + pb + 2 + 6 + 2 + length tl) (5 + pb + 2 + 6 + 2 + length attrs)); [lia|].
  rewrite E1, E4. unfold bs, pb. by rewrite nlri_bytes_back.
Qed.
Lemma read_exact_app a b broken : read_exact (length a) (mkStream (a ++ b) broken) = Ok (a, mkStream b broken).
Proof.
  unfold read_exact. cbn [s_bytes s_broken]. rewrite length_app.
  destruct (Nat.leb_spec (length a) (length a + length b)); [|lia].
  by rewrite take_app_length, drop_app_length.
Qed.
(** One turn of the loop on a record. *)
Lemma parse_record fuel ts t sub body tl broken acc : is_u16 t -> is_u16 sub -> len body < 2 ^ 32 ->
  parse_loop (S fuel) (mkStream (record_wire ts t sub body ++ tl) broken) acc
  = if (t =? MRT_TYPE_TABLE_DUMP_V2) && (sub =? SUBTYPE_RIB_IPV4_UNICAST)
    then entry ← parse_rib_ipv4 body;
         parse_loop fuel (mkStream tl broken) (match entry with Some e => acc ++ [e] | None => acc end)
    else parse_loop fuel (mkStream tl broken) acc.
Proof.
  intros Ht Hsub Hb. cbn [parse_loop]. unfold record_wire.
  set (header := u32_be ts ++ u16_be t ++ u16_be sub ++ u32_be (len body)).
  assert (Hh : length header = MRT_HEADER_LEN)
    by (unfold header; by rewrite !length_app, !u32_be_length, !u16_be_length).
  replace ((u32_be ts ++ u16_be t ++ u16_be sub ++ u32_be (len body) ++ body) ++ tl)
    with (header ++ (body ++ tl)) by (unfold header; by rewrite <- !app_assoc).
  rewrite <- Hh, read_exact_app.
  assert (E1 : be_at 4 2 header = t).
  { unfold be_at, header. rewrite slice_app by (rewrite ?u32_be_length, ?u16_be_length; done). by apply u16_be_roundtrip. }
  assert (E2 : be_at 6 2 header = sub).
  { unfold be_at, header. rewrite (app_assoc (u32_be ts)).
    rewrite slice_app by (rewrite ?length_app, ?u32_be_length, ?u16_be_length; done). by apply u16_be_roundtrip. }
  assert (E3 : be_at 8 4 header = len body).
  { unfold be_at, header. rewrite (app_assoc (u32_be ts)), (app_assoc (u32_be ts ++ _)).
    rewrite <- (app_nil_r (u32_be (len body))).
    rewrite slice_app by (rewrite ?length_app, ?u32_be_length, ?u16_be_length; done).
    apply u32_be_roundtrip. split; [unfold len; lia|exact Hb]. }
  rewrite E1, E2, E3, len_to_nat, read_exact_app. done.
Qed.
Lemma parse_loop_items items : forall fuel junk broken acc, Forall item_ok items ->
  (length junk < MRT_HEADER_LEN)%nat -> (length (concat (map item_wire items) ++ junk) < fuel)%nat ->
  parse_loop fuel (mkStream (concat (map item_wire items) ++ junk) broken) acc
  = if broken then Err OtherError else Ok (acc ++ omap item_entry items).
Proof.
  induction items as [|i items IH]; intros fuel junk broken acc Hi Hj Hf.
  - destruct fuel as [|fuel]; [lia|]. cbn [map concat app parse_loop omap list_omap]. rewrite app_nil_r.
    unfold read_exact. cbn [s_bytes s_broken].
    destruct (Nat.leb_spec MRT_HEADER_LEN (length junk)); [lia|]. by destruct broken.
  - apply Forall_cons in Hi as [Hi His]. destruct fuel as [|fuel]; [lia|].
    cbn [map concat] in *. rewrite <- app_assoc in *.
    assert (Hw : (0 < length (item_wire i))%nat).
    { destruct i; cbn [item_wire]; unfold record_wire; rewrite length_app, u32_be_length; lia. }
    assert (Hfuel : (length (concat (map item_wire items) ++ junk) < fuel)%nat)
      by (rewrite length_app in Hf; lia).
    destruct i as [ts seq n peer time attrs others|ts t sub body]; destruct Hi as [Hb Hi]; cbn [item_wire item_body] in *.
    + destruct Hi as (Hn & Ha & Ho). rewrite parse_record by done. cbn [Z.eqb MRT_TYPE_TABLE_DUMP_V2 andb].
      rewrite parse_rib_body by done. cbn [Z.eqb SUBTYPE_RIB_IPV4_UNICAST Pos.eqb mbind outcome_bind].
      rewrite IH by done. cbn [omap list_omap item_entry]. destruct broken; [done|]. by rewrite <- app_assoc.
    + destruct Hi as (Ht & Hs & Hne). rewrite parse_record by done.
      replace ((t =? _) && (sub =? _)) with false by (symmetry; apply not_true_is_false;
        rewrite andb_true_iff, !Z.eqb_eq; exact Hne).
      by rewrite IH.
Qed.
End Dumps.

(** Reading ends on every stream. *)
Lemma parse_rib_ends body : parse_rib_ipv4 body <> OutOfFuel.
Proof. unfold parse_rib_ipv4. repeat (case_match; [|done] || case_match || done). Qed.
Lemma read_exact_ok n s bs s' : read_exact n s = Ok (bs, s') -> (length (s_bytes s') + n = length (s_bytes s))%nat.
Proof.
  unfold read_exact. destruct (Nat.leb_spec n (length (s_bytes s))); [|done]. intros [= _ <-]. cbn. rewrite length_drop. lia.
Qed.
Lemma parse_loop_ends fuel : forall s acc, (length (s_bytes s) < fuel)%nat -> parse_loop fuel s acc <> OutOfFuel.
Proof.
  induction fuel as [|fuel IH]; intros s acc Hf; [lia|]. cbn [parse_loop].
  assert (Hr : forall n t, read_exact n t <> OutOfFuel) by (intros n t; unfold read_exact; by case_match).
  destruct (read_exact MRT_HEADER_LEN s) as [[header s1]|e| |] eqn:E; [|by destruct e|done|by apply Hr in E].
  apply read_exact_ok in E. unfold MRT_HEADER_LEN in E.
  destruct (read_exact _ s1) as [[body s2]|e| |] eqn:E2; cbn [mbind outcome_bind]; [|done|done|by apply Hr in E2].
  apply read_exact_ok in E2. destruct (_ && _); [|apply IH; lia].
  pose proof (parse_rib_ends body). destruct (parse_rib_ipv4 body) as [e| | |]; cbn [mbind outcome_bind]; [|done..].
  apply IH. lia.
Qed.
