(* ===== verification/MrtTheorems.v ===== *)
(** The MRT replayer's theorems: what a dump holds is what the peer receives, and
    the places where the replayer does not do what its comments say. *)
From Stdlib Require Import ZArith Lia Bool.
From stdpp Require Import base tactics numbers decidable fin_sets gmap list.
From S2P Require Import Prelude Addr Types AsPath Wire Header Notification Open Update UpdateFacts UpdateRoundtrip Message CodecTheorems Fsm LocRib Outbound OutboundTheorems Mrt.
Open Scope Z_scope.

(** ** One attribute set *)
Section Announce.
Context `{P : IpPrefixOps} {L : IpPrefixLaws}.

(** The address and length the replayer keeps of a prefix. *)
Definition pair_of (n : Nlri FamV4) : Z * Z := (nlri_ip n, prefix_len n).
(** The routes a list of messages announces. *)
Definition delivered (m : BgpMessage) : list (list PathAttribute * Nlri FamV4) :=
  match m with BmUpdate u => map (pair (attributes u)) (Update.announced u) | _ => [] end.
Definition is_update (m : BgpMessage) : bool := match m with BmUpdate _ => true | _ => false end.
(** What a replay sends: KEEPALIVE, and UPDATE messages that withdraw nothing. *)
Definition replayed (m : BgpMessage) : Prop :=
  match m with BmKeepalive => True | BmUpdate u => withdrawn u = [] | _ => False end.
(** Attributes of which a message holds at least one prefix. *)
Definition replayable (attrs : list PathAttribute) : Prop :=
  attrs_encodable true attrs /\ len (encode_path_attributes attrs) <= 4068.

Lemma encode_nlris_pairs (ns : list (Nlri FamV4)) : encode_nlris (map pair_of ns) = Ok (encode_nlri_list ns).
Proof.
  induction ns as [|n ns IH]; [done|]. cbn [map encode_nlris pair_of]. pose proof (byte_count_v4 n).
  destruct (Nat.ltb_spec 4 (nlri_byte_count (prefix_len n))); [lia|]. rewrite IH. done.
Qed.
Lemma update_bytes_wire attrs (ns : list (Nlri FamV4)) :
  update_bytes (encode_path_attributes attrs) (map pair_of ns) = Ok (wire (BmUpdate (mkUpdate [] attrs ns))).
Proof.
  unfold update_bytes. rewrite encode_nlris_pairs. cbn [mbind outcome_bind wire].
  unfold encode_framed, update_encode_body, encode_nlri_list_v4, encode_header.
  cbn [withdrawn attributes Update.announced]. change (@encode_nlri_list _ FamV4 []) with (@nil Z).
  rewrite <- !app_assoc. unfold HEADER_LEN. rewrite !length_app, !u16_be_length. cbn [length].
  repeat f_equal.
Qed.
Lemma keepalive_wire : keepalive_msg = wire BmKeepalive.
Proof. unfold keepalive_msg. cbn [wire]. unfold encode_framed. by rewrite app_nil_r. Qed.

Lemma available_spec attrs : Z.of_nat (available_for_nlri attrs) = Z.max 0 (4073 - len attrs).
Proof.
  unfold available_for_nlri. change (MAX_MSG_LEN - HEADER_LEN - 4)%nat with (Z.to_nat 4073). unfold len. lia.
Qed.
Definition batch_len (b : list (Nlri FamV4)) : nat := sum_list_with nlri_encoded_len b.
Lemma batch_sendable attrs b : replayable attrs -> Forall canonical b ->
  (batch_len b <= available_for_nlri (encode_path_attributes attrs))%nat ->
  sendable codec_new (BmUpdate (mkUpdate [] attrs b)).
Proof.
  intros [Ha Hl] Hb Hlen%Nat2Z.inj_le. rewrite available_spec in Hlen. unfold batch_len, len in *.
  pose proof (update_encode_length (mkUpdate [] attrs b)) as E. unfold update_encode in E.
  cbn [withdrawn attributes Update.announced sum_list_with] in E.
  unfold UPDATE_FIXED_OVERHEAD, encode_attributes, HEADER_LEN in E.
  split; cbn [msg_encodable wire max_msg_len codec_new]; unfold MAX_LEN, len; [|lia].
  split_and!; [constructor|exact Hb|exact Ha|]. unfold len, HEADER_LEN.
  rewrite encode_framed_length in E. unfold HEADER_LEN in E. lia.
Qed.

(** What a stretch of the run adds to what was written and counted. *)
Definition adds (r r' : Run) (routes : list (list PathAttribute * Nlri FamV4)) : Prop :=
  exists ms, written r' = written r ++ map wire ms /\ Forall (sendable codec_new) ms
    /\ Forall replayed ms /\ mjoin (map delivered ms) = routes
    /\ n_updates r' = n_updates r + len (filter is_update ms)
    /\ n_prefixes r' = n_prefixes r + len routes.
Lemma adds_nil r : adds r r [].
Proof. exists []. cbn. rewrite app_nil_r. split_and!; try done; unfold len; cbn; lia. Qed.
Lemma adds_trans r1 r2 r3 x y : adds r1 r2 x -> adds r2 r3 y -> adds r1 r3 (x ++ y).
Proof.
  intros (m1 & E1 & S1 & R1 & D1 & U1 & P1) (m2 & E2 & S2 & R2 & D2 & U2 & P2). exists (m1 ++ m2).
  rewrite map_app, map_app, filter_app, E2, E1, <- app_assoc, U2, U1, P2, P1. unfold len in *.
  rewrite !length_app. split_and!; [done|by apply Forall_app|by apply Forall_app| |lia|lia].
  by rewrite join_app, D1, D2.
Qed.
Lemma adds_update attrs b r : replayable attrs -> Forall canonical b ->
  (batch_len b <= available_for_nlri (encode_path_attributes attrs))%nat ->
  exists r', send_update (encode_path_attributes attrs) (map pair_of b) r = Ok r'
    /\ adds r r' (map (pair attrs) b).
Proof.
  intros Ha Hb Hl. unfold send_update. rewrite update_bytes_wire. cbn [mbind outcome_bind].
  eexists. split; [done|]. exists [BmUpdate (mkUpdate [] attrs b)]. cbn [written n_updates n_prefixes map].
  split_and!; [done|..].
  - apply Forall_cons_2; [by apply batch_sendable|constructor].
  - by apply Forall_cons_2.
  - unfold mjoin. cbn. by rewrite app_nil_r.
  - done.
  - unfold len. by rewrite !length_map.
Qed.
Lemma adds_keepalive r : adds r (mkRun (written r ++ [keepalive_msg]) (n_updates r) (n_prefixes r)) [].
Proof.
  exists [BmKeepalive]. cbn [written n_updates n_prefixes]. rewrite keepalive_wire. split_and!; try done.
  - apply Forall_cons_2; [|constructor]. split; [exact I|vm_compute; discriminate].
  - by apply Forall_cons_2.
  - change (len (filter is_update [BmKeepalive])) with 0. lia.
  - change (len (@nil (list PathAttribute * Nlri FamV4))) with 0. lia.
Qed.

Lemma announce_set_adds attrs ns : replayable attrs -> forall b r, Forall canonical (b ++ ns) ->
  (batch_len b <= available_for_nlri (encode_path_attributes attrs))%nat ->
  exists r', announce_set (encode_path_attributes attrs) (map pair_of ns) (map pair_of b) (batch_len b) r = Ok r'
    /\ adds r r' (map (pair attrs) (b ++ ns)).
Proof.
  intros Ha. induction ns as [|n ns IH]; intros b r Hc Hl; cbn [map announce_set pair_of].
  - rewrite app_nil_r in *. destruct b as [|n b]; [exists r; split; [done|apply adds_nil]|].
    cbn [map pair_of]. exact (adds_update attrs (n :: b) r Ha Hc Hl).
  - change (1 + nlri_byte_count (prefix_len n))%nat with (nlri_encoded_len n).
    assert (Hn : (nlri_encoded_len n <= available_for_nlri (encode_path_attributes attrs))%nat).
    { pose proof (byte_count_v4 n). destruct Ha as [_ Hal]. apply Nat2Z.inj_le. rewrite available_spec.
      unfold nlri_encoded_len. lia. }
    assert (Hone : batch_len [n] = nlri_encoded_len n) by (unfold batch_len; cbn; lia).
    destruct (_ && _) eqn:E.
    + apply Forall_app in Hc as [Hb Hns].
      destruct (adds_update attrs b r Ha Hb Hl) as (r1 & -> & H1). cbn [mbind outcome_bind].
      set (r2 := if _ =? _ then _ else _).
      assert (H2 : adds r1 r2 []) by (unfold r2; case_match; [apply adds_keepalive|apply adds_nil]).
      destruct (IH [n] r2) as (r' & E' & H3); [done|by rewrite Hone|]. rewrite Hone in E'. exists r'.
      split; [exact E'|]. rewrite map_app. apply (adds_trans _ r1); [done|]. exact (adds_trans _ _ _ [] _ H2 H3).
    + assert (Hb' : (batch_len b + nlri_encoded_len n = batch_len (b ++ [n]))%nat)
        by (unfold batch_len; rewrite sum_list_with_app; cbn; lia).
      assert (Eb : map pair_of b ++ [pair_of n] = map pair_of (b ++ [n])) by by rewrite map_app.
      unfold pair_of at 2 in Eb. rewrite Eb, Hb'. rewrite (cons_middle n b ns), app_assoc. rewrite cons_middle, app_assoc in Hc.
      apply IH; [done|]. apply andb_false_iff in E as [E|E].
      * apply negb_false_iff, bool_decide_eq_true in E. destruct b; [|done]. cbn [app]. by rewrite Hone.
      * apply Nat.ltb_ge in E. lia.
Qed.
End Announce.

(** ** Grouping by attributes *)
Definition group_pairs (s : list Z * list (Z * Z)) : list (list Z * (Z * Z)) := map (pair s.1) s.2.
Definition entry_pair (e : RibEntry) : list Z * (Z * Z) := (re_attrs e, (re_prefix e, re_prefix_len e)).
Lemma group_snoc entries e :
  group_by_attrs (entries ++ [e])
  = <[re_attrs e := default [] (group_by_attrs entries !! re_attrs e) ++ [(re_prefix e, re_prefix_len e)]]>
      (group_by_attrs entries).
Proof. unfold group_by_attrs. by rewrite foldl_app. Qed.
Lemma insert_pairs (m : gmap (list Z) (list (Z * Z))) k p :
  mjoin (map group_pairs (map_to_list (<[k := default [] (m !! k) ++ [p]]> m)))
  ≡ₚ mjoin (map group_pairs (map_to_list m)) ++ [(k, p)].
Proof.
  destruct (m !! k) as [l|] eqn:E; cbn [default from_option id].
  - rewrite <- (insert_delete_id m k l E) at 2. rewrite <- insert_delete_eq.
    rewrite !map_to_list_insert by apply lookup_delete_eq. cbn [map mjoin list_join].
    change (group_pairs (k, l ++ [p])) with (map (pair k) (l ++ [p])). rewrite map_app.
    change (group_pairs (k, l)) with (map (pair k) l). solve_Permutation.
  - rewrite map_to_list_insert by done. cbn [map app mjoin list_join].
    change (group_pairs (k, [p])) with [(k, p)]. solve_Permutation.
Qed.
Lemma group_content entries :
  mjoin (map group_pairs (map_to_list (group_by_attrs entries))) ≡ₚ map entry_pair entries.
Proof.
  induction entries as [|e entries IH] using rev_ind; [done|].
  rewrite group_snoc, insert_pairs, IH, map_app. done.
Qed.
Lemma group_dom entries : dom (group_by_attrs entries) = list_to_set (map re_attrs entries).
Proof.
  induction entries as [|e entries IH] using rev_ind; [done|].
  rewrite group_snoc, dom_insert_L, IH, map_app, list_to_set_app_L. cbn. set_solver.
Qed.

(** ** The routes of a dump *)
Section Routes.
Context `{P : IpPrefixOps} {L : IpPrefixLaws}.
Notation Route := (list PathAttribute * Nlri FamV4)%type.

Definition item_route (i : DumpItem) : option Route :=
  match i with DRib _ _ n _ _ attrs _ => Some (attrs, n) | DOther _ _ _ _ => None end.
Definition dump_routes (items : list DumpItem) : list Route := omap item_route items.
Definition route_ok (x : Route) : Prop := replayable x.1 /\ canonical x.2.
Definition route_bytes (x : Route) : list Z * (Z * Z) := (encode_path_attributes x.1, pair_of x.2).
Lemma item_entry_route i :
  item_entry i = (fun x : Route => mkRibEntry (nlri_ip x.2) (prefix_len x.2) (encode_path_attributes x.1)) <$> item_route i.
Proof. by destruct i. Qed.
Lemma entries_routes items : map entry_pair (omap item_entry items) = map route_bytes (dump_routes items).
Proof.
  induction items as [|i items IH]; [done|]. unfold dump_routes in *. cbn [omap list_omap].
  rewrite item_entry_route. destruct (item_route i) as [x|]; [|done]. cbn. by f_equal.
Qed.
Lemma route_bytes_inj x y : route_ok x -> route_ok y -> route_bytes x = route_bytes y -> x = y.
Proof.
  destruct x as [a n], y as [b m]. intros [[Ha _] Hn] [[Hb _] Hm] [= Eab Ei El].
  f_equal; cbn [fst snd] in *.
  - pose proof (DecodesAll_path_attributes true a Ha) as Da. pose proof (DecodesAll_path_attributes true b Hb) as Db.
    rewrite Eab in Da. exact (DecodesAll_fun _ _ _ _ Da Db).
  - pose proof (nlri_new_canonical FamV4 n Hn) as En. pose proof (nlri_new_canonical FamV4 m Hm) as Em.
    rewrite Ei, El in En. rewrite En in Em. by injection Em.
Qed.
Lemma map_permutation_inj {A B} (g : A -> B) (Q : A -> Prop) xs ys :
  (forall x y, Q x -> Q y -> g x = g y -> x = y) -> Forall Q xs -> Forall Q ys ->
  map g xs ≡ₚ map g ys -> xs ≡ₚ ys.
Proof.
  intros Hinj Hx Hy (zs & E & Hp)%Permutation_map_inv. rewrite Hp in Hy |- *. clear ys Hp.
  assert (xs = zs) as ->; [|done]. revert zs E Hy. induction Hx as [|x xs Hx _ IH]; intros [|z zs] E Hy; try done.
  apply Forall_cons in Hy as [Hz Hy]. injection E as E1 E2. f_equal; [by apply Hinj|by apply IH].
Qed.

Lemma pairs_exist (l : list (Z * Z)) : (forall p, p ∈ l -> exists n, canonical n /\ p = pair_of n) ->
  exists ns, Forall canonical ns /\ l = map pair_of ns.
Proof.
  induction l as [|p l IH]; intros H; [by exists []|].
  destruct (H p) as (n & Hn & ->); [left|]. destruct IH as (ns & Hns & ->); [intros q Hq; apply H; by right|].
  exists (n :: ns). split; [by constructor|done].
Qed.
Lemma sets_exist routes : Forall route_ok routes -> forall s,
  s ∈ map_to_list (group_by_attrs (map (fun x : Route => mkRibEntry (nlri_ip x.2) (prefix_len x.2) (encode_path_attributes x.1)) routes)) ->
  exists attrs ns, replayable attrs /\ Forall canonical ns /\ s = (encode_path_attributes attrs, map pair_of ns).
Proof.
  intros Hr [k l] Hs. set (entries := map _ routes) in Hs. rewrite Forall_forall in Hr.
  assert (Hk : k ∈ dom (group_by_attrs entries))
    by (apply elem_of_dom; exists l; by apply elem_of_map_to_list).
  rewrite group_dom in Hk. unfold entries in Hk. rewrite map_map in Hk.
  apply elem_of_list_to_set, list_elem_of_fmap in Hk as ([attrs n] & -> & Hin). destruct (Hr _ Hin) as [Ha _].
  exists attrs. destruct (pairs_exist l) as (ns & Hns & ->); [|by exists ns].
  intros p Hp. assert (Hin' : (encode_path_attributes attrs, p) ∈ mjoin (map group_pairs (map_to_list (group_by_attrs entries)))).
  { apply list_elem_of_join. exists (group_pairs (encode_path_attributes attrs, l)). split.
    - unfold group_pairs. apply list_elem_of_fmap. by exists p.
    - apply list_elem_of_fmap. by eexists. }
  rewrite group_content in Hin'. unfold entries in Hin'. rewrite map_map in Hin'.
  apply list_elem_of_fmap in Hin' as ([b m] & [= _ ->] & Hm). exists m. split; [apply (Hr _ Hm)|done].
Qed.
Lemma announce_sets_adds sets : forall r,
  (forall s, s ∈ sets -> exists attrs ns, replayable attrs /\ Forall canonical ns /\ s = (encode_path_attributes attrs, map pair_of ns)) ->
  exists r' routes, announce_sets sets r = Ok r' /\ adds r r' routes /\ Forall route_ok routes
    /\ map route_bytes routes = mjoin (map group_pairs sets).
Proof.
  induction sets as [|s sets IH]; intros r H; [exists r, []; split_and!; [done|apply adds_nil|constructor|done]|].
  destruct (H s) as (attrs & ns & Ha & Hns & ->); [left|]. cbn [announce_sets].
  destruct (announce_set_adds attrs ns Ha [] r) as (r1 & E1 & H1); [done|unfold batch_len; cbn; lia|].
  change (announce_set _ _ [] 0 r) with (announce_set (encode_path_attributes attrs) (map pair_of ns) (map pair_of []) (batch_len []) r).
  rewrite E1. cbn [mbind outcome_bind app] in *.
  destruct (IH r1) as (r' & routes & E2 & H2 & Hok & Hb); [intros s Hs; apply H; by right|].
  exists r', (map (pair attrs) ns ++ routes). split_and!; [done|by apply (adds_trans r r1)| |].
  - apply Forall_app. split; [|done]. apply Forall_map, (Forall_impl canonical); [done|]. intros n Hn. by split.
  - rewrite map_app, Hb. cbn [map mjoin list_join group_pairs fst snd]. f_equal. rewrite !map_map. done.
Qed.
End Routes.

(** ** Properties *)

(** C28: replaying a dump delivers it: of every record of the supported kind
    (RIB_IPV4_UNICAST) the first entry is read, the others of the record are not
    (other records, and a last header that is cut short, are skipped), and a peer
    that receives what the speaker writes, however the connection cuts it, decodes
    KEEPALIVE messages and UPDATE messages that withdraw nothing and that announce
    each prefix of these entries, as often as it is there, with exactly its path
    attributes; the counts the speaker returns are those of these messages. The
    attributes of the dump are those of a table this program could have written: the
    encoding of attributes that decode to themselves, of at most 4068 bytes, which
    leaves room for a prefix ([oversized_replay] otherwise). *)
Theorem replay_delivers `{P : IpPrefixOps} {L : IpPrefixLaws} `{HO : HashOrder} {HL : HashOrderLaw} items junk :
  Forall item_ok items -> Forall route_ok (dump_routes items) -> (length junk < MRT_HEADER_LEN)%nat ->
  exists entries writes res,
    parse (mkStream (concat (map item_wire items) ++ junk) false) = Ok entries
    /\ announce entries = Ok (writes, res)
    /\ exists ms, (forall chunks, concat chunks = concat writes -> receive codec_new chunks = (ms, []))
       /\ Forall replayed ms /\ mjoin (map delivered ms) ≡ₚ dump_routes items
       /\ prefixes_sent res = len (dump_routes items)
       /\ updates_sent res = len (filter is_update ms)
       /\ unique_attr_sets res
          = size (list_to_set (map (fun x => encode_path_attributes x.1) (dump_routes items)) : gset (list Z)).
Proof.
  intros Hi Hr Hj. exists (omap item_entry items). unfold parse. cbn [s_bytes].
  rewrite parse_loop_items by (done || lia). unfold announce.
  set (sets := hash_order _).
  assert (Eb : mjoin (map group_pairs sets) ≡ₚ map route_bytes (dump_routes items)).
  { unfold sets. rewrite (hash_order_perm _ _), group_content, entries_routes. done. }
  assert (Ee : omap item_entry items = map (fun x => mkRibEntry (nlri_ip x.2) (prefix_len x.2) (encode_path_attributes x.1)) (dump_routes items)).
  { clear. induction items as [|i items IH]; [done|]. unfold dump_routes in *. cbn [omap list_omap].
    rewrite item_entry_route. destruct (item_route i); [|done]. cbn. by f_equal. }
  destruct (announce_sets_adds sets (mkRun [] 0 0)) as (r' & routes & E & Ha & Hok & Hb).
  { intros s Hs. unfold sets in Hs. rewrite (hash_order_perm _ _), Ee in Hs. exact (sets_exist _ Hr s Hs). }
  rewrite <- Hb in Eb. apply (map_permutation_inj _ route_ok _ _ route_bytes_inj Hok Hr) in Eb.
  destruct Ha as (ms & Ew & Hs & Hrep & Hd & Hu & Hp). cbn [written n_updates n_prefixes app] in *.
  eexists _, _. split; [done|]. split; [rewrite E; done|]. exists ms. cbn [prefixes_sent updates_sent unique_attr_sets].
  split_and!; [|done|by rewrite Hd| |by rewrite Hu|].
  - intros chunks Hc. rewrite Ew in Hc. unfold receive.
    apply (receive_spec codec_new chunks ltac:(vm_compute; discriminate) [] ms []); [done|done|].
    destruct ms as [|m ms]; [done|]. pose proof (wire_long m). unfold HEADER_LEN in *. cbn [length]. lia.
  - rewrite Hp. unfold len. by rewrite Eb.
  - rewrite <- size_dom, group_dom, Ee, map_map. done.
Qed.

(** Two routes with the same attributes around a record of another kind, and a
    header that is cut short. *)
Definition sample_dump : list (DumpItem (P:=ModelPrefix.ops)) :=
  [DRib 1000 0 sample_nlri 0 990 (attributes sample_update) [];
   DOther 1000 16 4 [1; 2; 3];
   DRib 1001 1 (ModelPrefix.nlri FamV4 3232235776 24 eq_refl) 1 991 (attributes sample_update) [[9; 9]]].
Lemma sample_routes_ok : Forall (route_ok (P:=ModelPrefix.ops)) (dump_routes sample_dump).
Proof.
  assert (Ha : replayable (P:=ModelPrefix.ops) (attributes sample_update))
    by (split; [exact (proj1 (proj2 (proj2 sample_encodable)))|vm_compute; discriminate]).
  unfold dump_routes, sample_dump. cbn [omap list_omap item_route].
  repeat apply Forall_cons_2; [split; [exact Ha|]..|constructor].
  - exact (ModelPrefix.nlri_canonical FamV4 167772160 8 eq_refl eq_refl).
  - exact (ModelPrefix.nlri_canonical FamV4 3232235776 24 eq_refl eq_refl).
Qed.
Lemma sample_dump_ok : Forall (item_ok (P:=ModelPrefix.ops)) sample_dump.
Proof.
  assert (H : forall v, 0 <= v < 65536 -> is_u16 v) by done.
  repeat apply Forall_cons_2; [..|constructor]; (split; [vm_compute; reflexivity|]).
  - split_and!; [exact (ModelPrefix.nlri_canonical FamV4 167772160 8 eq_refl eq_refl)|vm_compute; discriminate|vm_compute; reflexivity].
  - split_and!; [apply H; lia|apply H; lia|]. intros [H1 _]. vm_compute in H1. discriminate.
  - split_and!; [exact (ModelPrefix.nlri_canonical FamV4 3232235776 24 eq_refl eq_refl)|vm_compute; discriminate|vm_compute; reflexivity].
Qed.
#[local] Existing Instances ModelPrefix.ops ModelPrefix.laws ModelHashOrder.order ModelHashOrder.order_law.
Lemma replay_delivers_witness :
  exists entries writes res,
    parse (mkStream (concat (map item_wire sample_dump) ++ [0; 0; 3]) false) = Ok entries
    /\ announce entries = Ok (writes, res)
    /\ exists ms, (forall chunks, concat chunks = concat writes -> receive codec_new chunks = (ms, []))
       /\ Forall replayed ms /\ mjoin (map delivered ms) ≡ₚ dump_routes sample_dump
       /\ prefixes_sent res = len (dump_routes sample_dump)
       /\ updates_sent res = len (filter is_update ms)
       /\ unique_attr_sets res
          = size (list_to_set (map (fun x => encode_path_attributes x.1) (dump_routes sample_dump)) : gset (list Z)).
Proof.
  apply (replay_delivers sample_dump [0; 0; 3]).
  - exact sample_dump_ok.
  - exact sample_routes_ok.
  - cbn. unfold MRT_HEADER_LEN. lia.
Defined.
(** Both routes of the sample go in one UPDATE. *)
Example sample_replay :
  match parse (mkStream (concat (map item_wire sample_dump) ++ [0; 0; 3]) false) with
  | Ok entries => match announce entries with
                  | Ok (writes, res) => (length writes, prefixes_sent res, updates_sent res, unique_attr_sets res)
                  | _ => (0%nat, 0, 0, 0%nat) end
  | _ => (0%nat, 0, 0, 0%nat)
  end = (1%nat, 2, 1, 1%nat).
Proof. vm_compute. reflexivity. Qed.

(** ** Where the replayer does not do what it says *)

(** A record whose prefix length is past 32 is not malformed: reading it panics. *)
Lemma rib_prefix_too_long body l : body !! 4%nat = Some l -> 32 < l ->
  (5 + nlri_byte_count l <= length body)%nat -> parse_rib_ipv4 body = Panic.
Proof.
  intros E Hl Hb. unfold parse_rib_ipv4. rewrite E. cbv zeta.
  destruct (Nat.ltb_spec (length body) (5 + nlri_byte_count l)); [lia|].
  destruct (Nat.ltb_spec 4 (nlri_byte_count l)) as [_|H']; [done|].
  unfold nlri_byte_count, div_ceil in H'. Z.to_euclidean_division_equations. lia.
Qed.
(** Attributes too long for a message are sent in one that is longer than the
    limit of BGP. *)
Lemma oversized_replay `{P : IpPrefixOps} {L : IpPrefixLaws} attrs (n : Nlri FamV4) r :
  4073 <= len attrs ->
  exists msg, announce_set attrs [pair_of n] [] 0 r = Ok (mkRun (written r ++ [msg]) (n_updates r + 1) (n_prefixes r + 1))
    /\ 4096 < len msg.
Proof.
  intros Hl. cbn [announce_set pair_of bool_decide]. rewrite (bool_decide_eq_true_2 _ eq_refl). cbn [negb andb app].
  unfold send_update, update_bytes. change [(nlri_ip n, prefix_len n)] with (map pair_of [n]).
  rewrite encode_nlris_pairs. cbn [mbind outcome_bind]. eexists. split; [reflexivity|].
  unfold len in *. rewrite !length_app, !u16_be_length.
  assert (length (encode_nlri_list [n]) = nlri_encoded_len n) as ->
    by (rewrite encode_nlri_list_length; cbn; lia).
  unfold nlri_encoded_len. change (length MARKER) with 16%nat. cbn [length]. lia.
Qed.
