(* ===== verification/PeerStore.v ===== *)
(** Peers added at run time and how they outlive the daemon ([config.rs]
    [DynamicPeerStore], the start of [main.rs], [run_bgp_listener] and the use
    [run_command_processor] makes of the store and of the senders for inbound
    connections, in [daemon/peer.rs]).

    The store is a file next to the configuration and the temporary file it is
    written through.  A write may stop at any point; [rename] is atomic. *)
From Stdlib Require Import ZArith Lia Bool.
From stdpp Require Import base tactics numbers decidable sets gmap list.
From S2P Require Import Prelude Addr Types AsPath Wire Header Notification Open Update Fsm Session RouteMap Roa Policy Route DaemonPolicy BestPath LocRib AdjRib Outbound HandleUpdate Deferral Capabilities DaemonState Propagate Graceful PeerLifecycle RouteUpdate EventLoop DaemonInvariant DaemonTheorems.
Open Scope Z_scope.

(** ** The store *)

(** [toml::to_string] and [toml::from_str] of a [SidecarFile]. *)
Class SidecarText := {
  sidecar_to_string : list PeerConfig -> option (list Z);
  sidecar_from_str : list Z -> option (list PeerConfig);
}.
(** Configurations have no field that TOML cannot hold, and are read back. *)
Class SidecarTextLaws `{SidecarText} : Prop := {
  sidecar_to_string_ok peers : is_Some (sidecar_to_string peers);
  sidecar_from_to peers text : sidecar_to_string peers = Some text -> sidecar_from_str text = Some peers;
}.

Record Disk := mkDisk { disk_sidecar : option (list Z); disk_tmp : option (list Z) }.
Inductive ReadResult := ReadText (text : list Z) | ReadNotFound | ReadError.
Definition read_to_string (readable : bool) (d : Disk) : ReadResult :=
  if readable then match disk_sidecar d with Some t => ReadText t | None => ReadNotFound end
  else ReadError.
(** How far a write gets: the temporary file is not created, has the first [n]
    bytes, is not renamed, or all is done. *)
Inductive WriteOutcome := WriteNotCreated | WriteShort (n : nat) | WriteNotRenamed | WriteDone.

Section Store.
Context `{ST : SidecarText}.

Definition load_sync (r : ReadResult) : list PeerConfig :=
  match r with
  | ReadText text => default [] (sidecar_from_str text)
  | ReadNotFound => []
  | ReadError => []
  end.
Definition write_sync (w : WriteOutcome) (peers : list PeerConfig) (d : Disk) : Disk :=
  match sidecar_to_string peers with
  | None => d
  | Some text =>
      match w with
      | WriteNotCreated => d
      | WriteShort n => mkDisk (disk_sidecar d) (Some (firstn n text))
      | WriteNotRenamed => mkDisk (disk_sidecar d) (Some text)
      | WriteDone => mkDisk (Some text) None
      end
  end.
Definition retain_others (ip : IpAddr) (peers : list PeerConfig) : list PeerConfig :=
  filter (fun p => pc_address p <> ip) peers.
Definition upsert (readable : bool) (w : WriteOutcome) (peer : PeerConfig) (d : Disk) : Disk :=
  let peers := load_sync (read_to_string readable d) in
  let peers := retain_others (pc_address peer) peers in
  write_sync w (peers ++ [peer]) d.
Definition store_remove (readable : bool) (w : WriteOutcome) (address : IpAddr) (d : Disk) : Disk :=
  let peers := load_sync (read_to_string readable d) in
  write_sync w (retain_others address peers) d.

(** ** Start-up ([main]) *)
Definition has_address (ip : IpAddr) (peers : list PeerConfig) : bool :=
  existsb (fun p => bool_decide (pc_address p = ip)) peers.
(** The peers of the configuration file take precedence. *)
Definition merge_peers (static dynamic : list PeerConfig) : list PeerConfig :=
  foldl (fun peers p => if has_address (pc_address p) peers then peers else peers ++ [p]) static dynamic.
Definition restart_peers (static : list PeerConfig) (d : Disk) : list PeerConfig :=
  merge_peers static (load_sync (read_to_string true d)).
End Store.

(** ** The tasks around the daemon *)
Section Tasks.
Context `{P : IpPrefixOps} {M : RouteMapOps} {HO : HashOrder} {ST : SidecarText}.

(** The daemon, the keys of [incoming_senders], and the disk. *)
Record Tasks := mkTasks { t_loop : EventLoop; t_incoming : gset IpAddr; t_disk : Disk }.
Definition with_peers (cfg : DaemonConfig) (peers : list PeerConfig) : DaemonConfig :=
  mkDaemonConfig (dc_local_as cfg) (dc_bgp_id cfg) (dc_local_ipv6 cfg) (dc_cluster_id cfg)
    (dc_confederation_id cfg) (dc_hold_time cfg) (dc_graceful_restart_time cfg) (dc_restarting cfg)
    (dc_selection_deferral_time cfg) peers.
Definition main_start (cfg : DaemonConfig) (startup now daemon_start : Instant) (sender : IpAddr -> Sender)
    (o4 o6 : NextHopOracle) (fib_writer : bool) (d : Disk) : Tasks :=
  let cfg := with_peers cfg (restart_peers (dc_peers cfg) d) in
  mkTasks (started cfg startup now daemon_start sender o4 o6 fib_writer)
    (list_to_set (map pc_address (dc_peers cfg))) d.

Definition known (l : EventLoop) (ip : IpAddr) : bool :=
  match adj_ribs_in (ds_v4 (el_daemon l)) !! ip with Some _ => true | None => false end.
(** A step of the daemon; commands also change the senders and the store. *)
Definition task_op (w : WriteOutcome) (t : Tasks) (op : DaemonOp) : Outcome False Tasks :=
  '(l, _) ← daemon_op (t_loop t) op;
  Ok (match op with
      | OpAddPeer _ _ peer _ =>
          if known (t_loop t) (pc_address peer) then mkTasks l (t_incoming t) (t_disk t)
          else mkTasks l ({[pc_address peer]} ∪ t_incoming t) (upsert true w peer (t_disk t))
      | OpRemovePeer ip =>
          if known (t_loop t) ip
          then mkTasks l (t_incoming t ∖ {[ip]}) (store_remove true w ip (t_disk t))
          else mkTasks l (t_incoming t) (t_disk t)
      | _ => mkTasks l (t_incoming t) (t_disk t)
      end).
Fixpoint task_run (t : Tasks) (ops : list DaemonOp) : Outcome False Tasks :=
  match ops with
  | [] => Ok t
  | op :: ops => t ← task_op WriteDone t op; task_run t ops
  end.
(** The listener gives a connection from [ip] to the session of this peer, or drops it. *)
Definition listener_accept (ip : IpAddr) (t : Tasks) : bool := bool_decide (ip ∈ t_incoming t).
End Tasks.

(** ** The store as a finite map *)
Section StoreFacts.
Context `{ST : SidecarText} {SL : SidecarTextLaws}.

Definition by_address (peers : list PeerConfig) : gmap IpAddr PeerConfig :=
  list_to_map (map (fun p => (pc_address p, p)) peers).
(** The configurations the store holds. *)
Definition stored (d : Disk) : list PeerConfig := load_sync (read_to_string true d).
Definition dynamic_peers (d : Disk) : gmap IpAddr PeerConfig := by_address (stored d).
(** Each address is there once. *)
Definition disk_ok (d : Disk) : Prop := NoDup (map pc_address (stored d)).
Definition find_peer (ip : IpAddr) (peers : list PeerConfig) : option PeerConfig :=
  List.find (fun p => bool_decide (pc_address p = ip)) peers.

Lemma write_done peers d : stored (write_sync WriteDone peers d) = peers.
Proof.
  destruct (sidecar_to_string_ok peers) as [text E]. unfold write_sync. rewrite E.
  unfold stored. cbn. by rewrite (sidecar_from_to _ _ E).
Qed.
(** What is stored changes when the new file is in place, not before. *)
Lemma write_atomic w peers d : stored (write_sync w peers d) = stored d \/ stored (write_sync w peers d) = peers.
Proof.
  destruct w; [left|left|left|right; apply write_done];
    unfold write_sync; by case_match.
Qed.
Lemma stored_upsert w peer d :
  stored (upsert true w peer d) = stored d
  \/ stored (upsert true w peer d) = retain_others (pc_address peer) (stored d) ++ [peer].
Proof. apply write_atomic. Qed.
Lemma stored_upsert_done peer d :
  stored (upsert true WriteDone peer d) = retain_others (pc_address peer) (stored d) ++ [peer].
Proof. apply write_done. Qed.
Lemma stored_remove_done ip d : stored (store_remove true WriteDone ip d) = retain_others ip (stored d).
Proof. apply write_done. Qed.

Lemma retain_lookup ip peers : NoDup (map pc_address peers) ->
  by_address (retain_others ip peers) = delete ip (by_address peers).
Proof.
  induction peers as [|p peers IH]; intros Hnd; [symmetry; apply delete_empty|].
  cbn [map] in Hnd. apply NoDup_cons in Hnd as [_ Hnd]. unfold retain_others, by_address in *. rewrite filter_cons.
  destruct (decide (pc_address p <> ip)) as [Hne|Heq%dec_stable]; cbn [map list_to_map foldr fst snd].
  - change (foldr _ ∅ ?l) with (list_to_map (M:=gmap IpAddr PeerConfig) l). rewrite IH by done. by rewrite delete_insert_ne.
  - change (foldr _ ∅ ?l) with (list_to_map (M:=gmap IpAddr PeerConfig) l). rewrite IH by done. subst ip.
    by rewrite delete_insert_eq.
Qed.
Lemma retain_nodup ip peers : NoDup (map pc_address peers) ->
  NoDup (map pc_address (retain_others ip peers)) /\ ip ∉ map pc_address (retain_others ip peers).
Proof.
  intros Hnd. split.
  - unfold retain_others. induction peers as [|p peers IH]; [constructor|]. cbn [map] in Hnd.
    apply NoDup_cons in Hnd as [Hp Hnd]. rewrite filter_cons. case_decide; [|by apply IH]. cbn [map].
    apply NoDup_cons_2; [|by apply IH]. intros (q & E & Hq)%list_elem_of_fmap. apply Hp, list_elem_of_fmap.
    exists q. split; [done|]. by apply list_elem_of_filter in Hq as [_ ?].
  - intros (p & -> & Hp)%list_elem_of_fmap. by apply list_elem_of_filter in Hp as [? _].
Qed.

(** What the commands do to the peers added at run time. *)
Inductive StoreOp := StUpsert (peer : PeerConfig) | StRemove (ip : IpAddr).
Definition store_op (m : gmap IpAddr PeerConfig) (op : StoreOp) : gmap IpAddr PeerConfig :=
  match op with StUpsert p => <[pc_address p := p]> m | StRemove ip => delete ip m end.
Lemma by_address_snoc peers p : pc_address p ∉ map pc_address peers ->
  by_address (peers ++ [p]) = <[pc_address p := p]> (by_address peers).
Proof.
  intros Hp. unfold by_address. rewrite map_app, list_to_map_app. cbn [map list_to_map foldr fst snd].
  rewrite <- insert_union_r; [by rewrite map_union_empty|].
  apply not_elem_of_list_to_map_1. by rewrite <- list_fmap_compose.
Qed.
Lemma upsert_done peer d : disk_ok d ->
  disk_ok (upsert true WriteDone peer d)
  /\ dynamic_peers (upsert true WriteDone peer d) = store_op (dynamic_peers d) (StUpsert peer).
Proof.
  intros Hd. unfold disk_ok, dynamic_peers. rewrite stored_upsert_done.
  destruct (retain_nodup (pc_address peer) _ Hd) as [Hnd Hni]. split.
  - rewrite map_app. apply NoDup_app. split_and!; [done| |apply NoDup_singleton].
    intros x Hx ->%list_elem_of_singleton. done.
  - rewrite by_address_snoc, retain_lookup by done. cbn [store_op]. apply insert_delete_eq.
Qed.
Lemma remove_done ip d : disk_ok d ->
  disk_ok (store_remove true WriteDone ip d)
  /\ dynamic_peers (store_remove true WriteDone ip d) = store_op (dynamic_peers d) (StRemove ip).
Proof.
  intros Hd. unfold disk_ok, dynamic_peers. rewrite stored_remove_done.
  split; [by apply retain_nodup|by apply retain_lookup].
Qed.

(** The peers of a start: the static ones, and those stored of other addresses. *)
Lemma find_app ip l1 l2 : find_peer ip (l1 ++ l2) = match find_peer ip l1 with Some p => Some p | None => find_peer ip l2 end.
Proof. unfold find_peer. induction l1 as [|p l1 IH]; [done|]. cbn. by case_bool_decide. Qed.
Lemma find_has ip l : has_address ip l = match find_peer ip l with Some _ => true | None => false end.
Proof. unfold has_address, find_peer. induction l as [|p l IH]; [done|]. cbn. by case_bool_decide. Qed.
Lemma merge_find ip dynamic : forall static, NoDup (map pc_address dynamic) ->
  find_peer ip (merge_peers static dynamic)
  = match find_peer ip static with Some p => Some p | None => by_address dynamic !! ip end.
Proof.
  unfold merge_peers. induction dynamic as [|p dynamic IH]; intros static Hnd.
  - cbn [foldl]. destruct (find_peer ip static); [done|]. symmetry. apply lookup_empty.
  - cbn [map] in Hnd. apply NoDup_cons in Hnd as [Hp Hnd]. cbn [foldl]. rewrite IH by done. rewrite find_has.
    unfold by_address. cbn [map list_to_map foldr fst snd].
    change (foldr _ ∅ ?l) with (list_to_map (M:=gmap IpAddr PeerConfig) l).
    destruct (decide (pc_address p = ip)) as [<-|Hne].
    + rewrite lookup_insert_eq. destruct (find_peer (pc_address p) static) eqn:E; [by rewrite E|].
      rewrite find_app, E. unfold find_peer. cbn. by rewrite bool_decide_eq_true_2.
    + rewrite lookup_insert_ne by done. destruct (find_peer (pc_address p) static) eqn:E; [done|].
      rewrite find_app. destruct (find_peer ip static); [done|]. unfold find_peer at 1. cbn.
      by rewrite bool_decide_eq_false_2.
Qed.
Lemma find_elem ip l : ip ∈ map pc_address l <-> is_Some (find_peer ip l).
Proof.
  unfold find_peer. induction l as [|p l IH].
  { split; [intros H; inversion H|intros [? [=]]]. }
  cbn [map List.find].
  rewrite elem_of_cons. case_bool_decide as E; [split; [by eexists|by left]|].
  rewrite <- IH. split; [by intros [->|?]|by right].
Qed.
End StoreFacts.

(** ** Runs *)
Section Runs.
Context `{P : IpPrefixOps} {M : RouteMapOps} {HO : HashOrder} {ST : SidecarText} {SL : SidecarTextLaws}.

(** What a command does to the store: nothing if the peer is configured already,
    or if it is not. *)
Definition accepted (l : EventLoop) (op : DaemonOp) : list StoreOp :=
  match op with
  | OpAddPeer _ _ peer _ => if known l (pc_address peer) then [] else [StUpsert peer]
  | OpRemovePeer ip => if known l ip then [StRemove ip] else []
  | _ => []
  end.
Fixpoint store_ops (l : EventLoop) (ops : list DaemonOp) : list StoreOp :=
  match ops with
  | [] => []
  | op :: ops =>
      accepted l op ++ match daemon_op l op with Ok (l, _) => store_ops l ops | _ => [] end
  end.
(** The store holds [m], and of the peers that are not [static] those of [m] may connect. *)
Definition tasks_hold (static : list PeerConfig) (t : Tasks) (m : gmap IpAddr PeerConfig) : Prop :=
  disk_ok (t_disk t) /\ dynamic_peers (t_disk t) = m
  /\ forall ip, find_peer ip static = None -> (ip ∈ t_incoming t <-> is_Some (m !! ip)).

Lemma task_op_loop w t op t' : task_op w t op = Ok t' -> exists out, daemon_op (t_loop t) op = Ok (t_loop t', out).
Proof.
  unfold task_op. destruct (daemon_op (t_loop t) op) as [[l out]| | |]; [|done..]. cbn [mbind outcome_bind].
  intros [= <-]. exists out. destruct op; try done; by case_match.
Qed.
Lemma task_op_hold static t op t' m : tasks_hold static t m -> task_op WriteDone t op = Ok t' ->
  tasks_hold static t' (foldl store_op m (accepted (t_loop t) op)).
Proof.
  intros (Hd & <- & Hi) E. unfold task_op in E. destruct (daemon_op (t_loop t) op) as [[l out]| | |]; [|done..].
  cbn [mbind outcome_bind] in E. injection E as <-.
  destruct op; cbn [accepted foldl]; try (by split); destruct (known _ _); try (by split); cbn [foldl].
  - destruct (upsert_done peer _ Hd) as [Hd' Em]. unfold tasks_hold. cbn [t_disk t_incoming].
    split_and!; [done|done|]. intros ip Hip. cbn [store_op].
    rewrite elem_of_union, elem_of_singleton, Hi, lookup_insert_is_Some' by done.
    split; (intros [?|?]; [by left|by right]).
  - destruct (remove_done ip _ Hd) as [Hd' Em]. unfold tasks_hold. cbn [t_disk t_incoming].
    split_and!; [done|done|]. intros ip' Hip. cbn [store_op].
    rewrite elem_of_difference, elem_of_singleton, Hi, lookup_delete_is_Some by done.
    split; intros [? ?]; by split.
Qed.
Lemma task_run_hold static ops : forall t t' m, tasks_hold static t m -> task_run t ops = Ok t' ->
  tasks_hold static t' (foldl store_op m (store_ops (t_loop t) ops)).
Proof.
  induction ops as [|op ops IH]; intros t t' m Ht E; cbn [task_run store_ops foldl] in *; [by injection E as <-|].
  destruct (task_op WriteDone t op) as [t1| | |] eqn:E1; [|done..]. cbn [mbind outcome_bind] in E.
  destruct (task_op_loop _ _ _ _ E1) as [out ->]. rewrite foldl_app.
  apply (IH t1); [|done]. by apply (task_op_hold static t).
Qed.
Lemma main_start_hold cfg startup now daemon_start sender o4 o6 w d : disk_ok d ->
  tasks_hold (dc_peers cfg) (main_start cfg startup now daemon_start sender o4 o6 w d) (dynamic_peers d).
Proof.
  intros Hd. split_and!; [done|done|]. intros ip Hip. unfold main_start. cbn [t_incoming with_peers dc_peers].
  rewrite elem_of_list_to_set, find_elem. unfold restart_peers. rewrite merge_find by done. by rewrite Hip.
Qed.
Lemma restart_find static d ip : disk_ok d ->
  find_peer ip (restart_peers static d)
  = match find_peer ip static with Some p => Some p | None => dynamic_peers d !! ip end.
Proof. intros Hd. unfold restart_peers. by apply merge_find. Qed.
(** A step whose write stops somewhere. *)
Lemma task_op_torn static w t op t' m : tasks_hold static t m -> task_op w t op = Ok t' ->
  disk_ok (t_disk t') /\
  (dynamic_peers (t_disk t') = m \/ dynamic_peers (t_disk t') = foldl store_op m (accepted (t_loop t) op)).
Proof.
  intros Ht E. pose proof Ht as (Hd & Em & _). unfold task_op in E.
  destruct (daemon_op (t_loop t) op) as [[l out]| | |] eqn:El; [|done..]. cbn [mbind outcome_bind] in E.
  assert (Hdone : exists t2, task_op WriteDone t op = Ok t2) by (unfold task_op; rewrite El; by eexists).
  destruct Hdone as [t2 E2]. destruct (task_op_hold static t op t2 m Ht E2) as (Hd2 & Em2 & _). rewrite <- Em2.
  assert (Hs : stored (t_disk t') = stored (t_disk t) \/ stored (t_disk t') = stored (t_disk t2)).
  { unfold task_op in E2. rewrite El in E2. cbn [mbind outcome_bind] in E2. injection E as <-. injection E2 as <-.
    destruct op; try (by left); destruct (known _ _); try (by left); cbn [t_disk].
    - rewrite stored_upsert_done. apply stored_upsert.
    - rewrite stored_remove_done. apply write_atomic. }
  unfold disk_ok, dynamic_peers in *. destruct Hs as [-> | ->]; rewrite ?Em; tauto.
Qed.
End Runs.

(** ** Properties *)


(** A model of the text: one number for the whole list. *)
Module ModelSidecar.
#[local] Instance action_countable : Countable DefaultAction :=
  inj_countable' (fun a => match a with DefAccept => true | DefReject => false end)
    (fun b => if b then DefAccept else DefReject) ltac:(by intros []).
#[local] Instance role_countable : Countable Role :=
  inj_countable' (fun r => match r with Provider => 0 | RouteServer => 1 | RsClient => 2 | Customer => 3 | Peer => 4 end)
    (fun n => if n =? 0 then Provider else if n =? 1 then RouteServer else if n =? 2 then RsClient
              else if n =? 3 then Customer else Peer) ltac:(by intros []).
Definition fields (p : PeerConfig) : list BinNums.positive :=
  [encode (pc_address p); encode (pc_remote_as p); encode (pc_import_default p); encode (pc_import_default_v6 p);
   encode (pc_export_default p); encode (pc_is_rr_client p); encode (pc_next_hop_self p);
   encode (pc_confederation_member p); encode (pc_role p); encode (pc_hold_time p); encode (pc_shutdown_message p);
   encode (pc_max_prefixes_v4 p); encode (pc_max_prefixes_v6 p); encode (pc_max_prefixes_restart p);
   encode (pc_port p); encode (pc_md5_password p); encode (pc_connect_retry_time p)].
Fixpoint read_peers (t : list Z) : option (list PeerConfig) :=
  match t with
  | Z.pos a :: Z.pos b :: Z.pos c :: Z.pos d :: Z.pos e :: Z.pos f :: Z.pos g :: Z.pos h :: Z.pos i :: Z.pos j
    :: Z.pos k :: Z.pos l :: Z.pos m :: Z.pos n :: Z.pos o :: Z.pos p :: Z.pos q :: t =>
      a ← decode a; b ← decode b; c ← decode c; d ← decode d; e ← decode e; f ← decode f; g ← decode g;
      h ← decode h; i ← decode i; j ← decode j; k ← decode k; l ← decode l; m ← decode m; n ← decode n;
      o ← decode o; p ← decode p; q ← decode q; peers ← read_peers t;
      Some (mkPeerConfig a b c d e f g h i j k l m n o p q :: peers)
  | [] => Some []
  | _ => None
  end.
#[export] Instance text : SidecarText := {
  sidecar_to_string peers := Some (concat (map (fun p => map Z.pos (fields p)) peers));
  sidecar_from_str := read_peers;
}.
#[export] Instance laws : SidecarTextLaws.
Proof.
  split; [by eexists|]. intros peers t [= <-]. cbn [sidecar_from_str text].
  induction peers as [|p peers IH]; [done|]. cbn [map fields concat app read_peers].
  rewrite !decode_encode. cbn [mbind option_bind]. rewrite IH. by destruct p.
Qed.
End ModelSidecar.

Section Applied.
#[local] Existing Instances ModelPrefix.ops ModelPrefix.laws ModelRouteMap.ops ModelRouteMap.laws.
#[local] Existing Instances ModelHashOrder.order ModelHashOrder.order_law ModelSidecar.text ModelSidecar.laws.

Definition added_peer (ip : IpAddr) : PeerConfig :=
  mkPeerConfig ip 65030 (Some DefReject) None None false true false (Some Customer) (Some 30)
    (Some [98; 121; 101]) (Some 1000) None None 1790 None None.
Definition add_op (ip : IpAddr) : DaemonOp :=
  OpAddPeer (spawn_config one_cfg 0) 0 (added_peer ip) (mkSender 8 []).
Definition third_ip : IpAddr := IpV4 3232235779.
Definition fourth_ip : IpAddr := IpV6 42540766411282592856903984951653826561.
(** The static peer is there once more in the store, under another configuration. *)
Definition sample_disk : Disk := upsert true WriteDone (added_peer one_ip) (mkDisk None None).
Definition sample_start : Tasks :=
  main_start one_cfg 0 0 0 (fun _ => mkSender 8 []) AlwaysReachable AlwaysReachable true sample_disk.
Definition sample_ops : list DaemonOp := [add_op third_ip; add_op fourth_ip; add_op third_ip; OpRemovePeer third_ip].

Lemma sample_run_ok :
  exists t t', task_run sample_start sample_ops = Ok t
  /\ task_op (WriteShort 0) t (OpRemovePeer fourth_ip) = Ok t'.
Proof.
  assert (H : match task_run sample_start sample_ops with
              | Ok t => match task_op (WriteShort 0) t (OpRemovePeer fourth_ip) with Ok _ => true | _ => false end
              | _ => false end = true) by (vm_compute; reflexivity).
  destruct (task_run _ _) as [t| | |]; [|discriminate..].
  destruct (task_op _ t _) as [t'| | |] eqn:E; [|discriminate..]. exists t, t'. by split.
Qed.
(** The static peer and the one that was not removed, although its removal began. *)
Example sample_restart :
  match task_run sample_start sample_ops with
  | Ok t => match task_op (WriteShort 3) t (OpRemovePeer fourth_ip) with
            | Ok t' => map pc_remote_as (restart_peers (dc_peers one_cfg) (t_disk t'))
            | _ => [] end
  | _ => [] end = [65010; 65030].
Proof. vm_compute. reflexivity. Qed.
End Applied.

(** ** Where the store does not do what it should *)

(** A store that cannot be read or parsed counts as empty, and the next command
    writes that: the peers it held are lost. *)
Lemma unreadable_store_lost `{ST : SidecarText} {SL : SidecarTextLaws} peer d :
  stored (upsert false WriteDone peer d) = [peer].
Proof. exact (write_done _ d). Qed.
Lemma unparsed_store_lost `{ST : SidecarText} {SL : SidecarTextLaws} peer text tmp :
  sidecar_from_str text = None -> stored (upsert true WriteDone peer (mkDisk (Some text) tmp)) = [peer].
Proof. intros E. unfold upsert. rewrite write_done. cbn. by rewrite E. Qed.
