(* ===== verification/Link.v ===== *)
(** Two speakers: what one daemon decides to announce over an IPv4 session with
    four-octet AS numbers is what the daemon at the other end imports.

    This composes the outbound pipeline ([pathvectord/src/outbound.rs]), the codec
    ([pathvector-session/src/message], [framing]) and the import
    ([handle_update] of [pathvectord/src/daemon/route.rs]). *)
From Stdlib Require Import ZArith Lia Bool.
From stdpp Require Import base tactics numbers decidable gmap list.
From S2P Require Import Prelude Addr Types AsPath Wire Header Notification Open Update UpdateFacts UpdateRoundtrip Message CodecTheorems RouteMap Policy Route BestPath LocRib RibTheorems AdjRib Outbound OutboundTheorems HandleUpdate ImportTheorems.
Open Scope Z_scope.

(** ** What the wire keeps of an attribute *)
Section WireForm.
Context `{P : IpPrefixOps} {L : IpPrefixLaws}.

(** An unknown attribute arrives with the flags it was written with. *)
Definition on_wire (a : PathAttribute) : PathAttribute :=
  match a with PaUnknown _ tc v => PaUnknown (wire_flags a) tc v | _ => a end.
Definition passes_on (u : UnknownAttribute) : PathAttribute := PaUnknown (Z.lor 0x80 0x40) (ua_type_code u) (ua_value u).

Lemma on_wire_passed u :
  on_wire (passes_on u) = PaUnknown (if 255 <? len (ua_value u) then 240 else 224) (ua_type_code u) (ua_value u).
Proof. done. Qed.
Lemma encode_on_wire u : encode_one_path_attr (on_wire (passes_on u)) = encode_one_path_attr (passes_on u).
Proof.
  rewrite on_wire_passed. unfold encode_one_path_attr. cbn [encode_attr_value passes_on].
  destruct (255 <? len (ua_value u)); reflexivity.
Qed.
Lemma type_code_on_wire a : type_code (on_wire a) = type_code a.
Proof. by destruct a. Qed.

Record unknown_wf (u : UnknownAttribute) : Prop := {
  uw_code : is_u8 (ua_type_code u);
  uw_unknown : ua_type_code u ∉ known_type_codes;
  uw_value : bytes (ua_value u);
}.
Lemma passed_ok u : unknown_wf u -> len (ua_value u) <= 65535 ->
  pa_ok (on_wire (passes_on u)) /\ attr_fits (on_wire (passes_on u)).
Proof.
  intros [Hc Hu Hv] Hl. rewrite on_wire_passed.
  unfold attr_fits. cbn [pa_ok]. change (attr_value (PaUnknown _ _ _)) with (ua_value u).
  destruct (255 <? len (ua_value u)) eqn:E; (split; [split_and!; try done|split; [done|split; done]]);
    unfold is_u8; lia.
Qed.
End WireForm.

(** ** The routes a session carries *)
Section Routes.
Context `{P : IpPrefixOps} {L : IpPrefixLaws}.

(** Every field is at its width, and the next hop an IPv4 address. *)
Record rare_wf (x : RareAttrs) : Prop := {
  ra_communities : Forall is_u32 (communities x);
  ra_large : Forall LargeCommunityOps.wf (large_communities x);
  ra_extended : Forall ExtendedCommunity.wf (extended_communities x);
  ra_aggregator : forall g, aggregator x = Some g -> is_u32 (agg_asn g) /\ is_u32 (agg_ip g);
  ra_originator : forall v, originator_id x = Some v -> is_u32 v;
  ra_cluster : Forall is_u32 (cluster_list x);
  ra_otc : forall v, otc x = Some v -> is_u32 v;
  ra_unknown : Forall unknown_wf (unknown x);
  ra_unknown_once : NoDup (map ua_type_code (unknown x));
}.
Record route_wf (r : Route FamV4) : Prop := {
  rw_nlri : canonical (nlri r);
  rw_path : Path.wf (as_path r);
  rw_next_hop : exists a, next_hop r = Some (NhV4 a) /\ is_u32 a;
  rw_local_pref : forall v, local_pref r = Some v -> is_u32 v;
  rw_med : forall v, med r = Some v -> is_u32 v;
  rw_rare : rare_wf (rare_or_default r);
}.
(** The attributes the codec knows, in the order they are written. *)
Definition known_attributes (r : Route FamV4) (pt : PeerType) : list PathAttribute :=
  let rare := rare_or_default r in
  [PaOrigin (origin r); PaAsPath (as_path r)] ++ opt_attr (is_v4_next_hop (next_hop r)) PaNextHop
  ++ opt_attr (local_pref r) PaLocalPref
  ++ (if bool_decide (pt = External) then [] else opt_attr (med r) PaMed)
  ++ list_attr (communities rare) PaCommunities
  ++ list_attr (large_communities rare) PaLargeCommunities
  ++ list_attr (extended_communities rare) PaExtendedCommunities
  ++ (if atomic_aggregate rare then [PaAtomicAggregate] else [])
  ++ opt_attr (aggregator rare) PaAggregator
  ++ (if match pt with External | ConfedMember => true | _ => false end then []
      else opt_attr (originator_id rare) PaOriginatorId ++ list_attr (cluster_list rare) PaClusterList)
  ++ opt_attr (otc rare) PaOnlyToCustomer.
Lemma attributes_split r pt :
  route_to_attributes r pt true = known_attributes r pt ++ map passes_on (unknown (rare_or_default r)).
Proof.
  unfold route_to_attributes, wire_as_paths, common_attributes, known_attributes, unknown_attrs_to_path_attributes.
  cbn [opt_attr]. rewrite app_nil_r, <- !app_assoc. done.
Qed.
Definition known_ok (a : PathAttribute) : Prop :=
  pa_ok a /\ is_u8 (type_code a) /\ match a with PaUnknown _ _ _ => False | _ => True end.
Lemma known_attributes_ok r pt : route_wf r -> Forall known_ok (known_attributes r pt).
Proof.
  intros H. destruct (rw_next_hop r H) as (nh & En & Hnh). unfold known_attributes. rewrite En. cbn [is_v4_next_hop].
  assert (Hk : forall a, pa_ok a -> existsb (Z.eqb (type_code a)) known_type_codes = true -> match a with PaUnknown _ _ _ => False | _ => True end ->
    known_ok a).
  { intros a Ha Ht Hu. split_and!; [done| |done].
    apply existsb_exists in Ht as (t & Hin%list_elem_of_In & ->%Z.eqb_eq). revert t Hin. apply Forall_forall.
    unfold known_type_codes. repeat (apply Forall_cons_2; [done|]). constructor. }
  pose proof (rw_local_pref r H). pose proof (rw_med r H). pose proof (ra_aggregator _ (rw_rare r H)).
  pose proof (ra_originator _ (rw_rare r H)). pose proof (ra_otc _ (rw_rare r H)).
  repeat (apply Forall_app_2 || apply Forall_cons_2 || apply Forall_nil_2 || case_match
    || (apply Forall_opt_attr; intros ? ?) || apply Forall_list_attr);
    (apply Hk; [|reflexivity|done]); cbn [pa_ok]; simplify_eq;
    first [done|by eauto|apply (rw_path r H)|apply (ra_communities _ (rw_rare r H))|apply (ra_large _ (rw_rare r H))|apply (ra_extended _ (rw_rare r H))|apply (ra_cluster _ (rw_rare r H))].
Qed.

Lemma opt_codes {A} (o : option A) mk t : (forall a, type_code (mk a) = t) ->
  map type_code (opt_attr o mk) `sublist_of` [t].
Proof. intros H. destruct o as [a|]; cbn; [rewrite H; done|by repeat constructor]. Qed.
Lemma list_codes {A} (l : list A) mk t : type_code (mk l) = t -> map type_code (list_attr l mk) `sublist_of` [t].
Proof. intros <-. destruct l; cbn; [by repeat constructor|done]. Qed.
Lemma known_codes r pt :
  map type_code (known_attributes r pt) `sublist_of` [1; 2; 3; 5; 4; 8; 32; 16; 6; 7; 9; 10; 35].
Proof.
  unfold known_attributes. rewrite !map_app.
  change [1; 2; 3; 5; 4; 8; 32; 16; 6; 7; 9; 10; 35]
    with ([1; 2] ++ [3] ++ [5] ++ [4] ++ [8] ++ [32] ++ [16] ++ [6] ++ [7] ++ ([9] ++ [10]) ++ [35]).
  repeat apply sublist_app; try (by apply opt_codes); try (by apply list_codes); [done|..]; case_match;
    rewrite ?map_app; try (apply sublist_nil_l); try (by apply opt_codes); try done.
  apply sublist_app; [by apply opt_codes|by apply list_codes].
Qed.
(** The attributes of a route as they arrive. *)
Definition arriving (r : Route FamV4) (pt : PeerType) : list PathAttribute := map on_wire (route_to_attributes r pt true).
Lemma arriving_split r pt : route_wf r ->
  arriving r pt = known_attributes r pt ++ map (fun u => on_wire (passes_on u)) (unknown (rare_or_default r)).
Proof.
  intros H. unfold arriving. rewrite attributes_split, map_app, map_map. f_equal.
  rewrite <- (map_id (known_attributes r pt)) at 2. apply map_ext_in. intros a Ha%list_elem_of_In.
  pose proof (known_attributes_ok r pt H) as Hk. rewrite Forall_forall in Hk. destruct (Hk a Ha) as (_ & _ & Hu).
  by destruct a.
Qed.
Lemma arriving_bytes r pt : route_wf r ->
  encode_path_attributes (arriving r pt) = encode_path_attributes (route_to_attributes r pt true).
Proof.
  intros H. rewrite arriving_split by done. rewrite attributes_split. unfold encode_path_attributes.
  rewrite !map_app, !concat_app, !map_map. f_equal. f_equal. apply map_ext. intros u. apply encode_on_wire.
Qed.
Lemma value_within attrs a : a ∈ attrs -> len (attr_value a) <= len (encode_path_attributes attrs).
Proof.
  unfold encode_path_attributes, len. induction attrs as [|b attrs IH]; [intros H; inversion H|].
  intros [->|Ha]%elem_of_cons; cbn [map concat]; rewrite length_app.
  - rewrite encode_one_eq, !length_app. lia.
  - specialize (IH Ha). lia.
Qed.
Lemma arriving_encodable r pt : route_wf r -> len (encode_path_attributes (route_to_attributes r pt true)) <= 65535 ->
  attrs_encodable true (arriving r pt).
Proof.
  intros H Hl. rewrite <- arriving_bytes in Hl by done.
  assert (Hv : forall a, a ∈ arriving r pt -> len (attr_value a) <= 65535)
    by (intros a Ha; pose proof (value_within _ _ Ha); lia).
  rewrite arriving_split in * by done. split.
  - apply Forall_forall. intros a Ha. specialize (Hv a Ha). apply elem_of_app in Ha as [Ha|Ha].
    + pose proof (known_attributes_ok r pt H) as Hk. rewrite Forall_forall in Hk. destruct (Hk a Ha) as (H1 & H2 & Hu).
      split_and!; [done|done|by destruct a|]. split; [done|]. by destruct a.
    + apply list_elem_of_fmap in Ha as (u & -> & Hu). rewrite on_wire_passed in Hv.
      pose proof (ra_unknown _ (rw_rare r H)) as Hw. rewrite Forall_forall in Hw. specialize (Hw u Hu).
      destruct (passed_ok u Hw Hv) as [H1 H2]. split_and!; [done|apply Hw|by rewrite on_wire_passed|done].
  - rewrite map_app, map_map. change (fun x => type_code (on_wire (passes_on x))) with ua_type_code.
    apply NoDup_app. split_and!; [|intros t Ht|apply (rw_rare r H)].
    + eapply sublist_NoDup; [|apply known_codes]. apply (bool_decide_unpack _). vm_compute. exact I.
    + intros (u & -> & Hu)%list_elem_of_fmap. pose proof (ra_unknown _ (rw_rare r H)) as Hw. rewrite Forall_forall in Hw.
      apply (uw_unknown _ (Hw u Hu)). pose proof (elem_of_sublist _ _ _ Ht (known_codes r pt)) as Hin. clear Ht.
      revert Hin. generalize (ua_type_code u). apply Forall_forall.
      repeat (apply Forall_cons_2; [apply (bool_decide_unpack _); vm_compute; exact I|]). constructor.
Qed.

(** What the receiver reads: the route reflection attributes and the MED of some
    peers are not sent, and LOCAL_PREF counts from internal peers. *)
Definition arrived_rare (r : Route FamV4) (pt : PeerType) : RareAttrs :=
  let rare := rare_or_default r in
  match pt with
  | External | ConfedMember => rare_set_cluster_list (rare_set_originator_id rare None) []
  | _ => rare
  end.
Definition arrived_med (r : Route FamV4) (pt : PeerType) : option Z :=
  if bool_decide (pt = External) then None else med r.
Definition arrived_pref (r : Route FamV4) (pt : PeerType) : option Z :=
  match pt with Internal | ConfedMember => local_pref r | _ => None end.

Lemma parse_unknowns pt l : forall p, foldl (parse_attr pt) p (map (fun u => on_wire (passes_on u)) l)
  = let '(mkParsed ho ha o path nh lp m rare a4 w4 a6 w6) := p in
    mkParsed ho ha o path nh lp m (rare_set_unknown rare (unknown rare ++ l)) a4 w4 a6 w6.
Proof.
  induction l as [|u l IH]; intros p; cbn [map foldl].
  - destruct p as [? ? ? ? ? ? ? [] ? ? ? ?]. cbn. by rewrite app_nil_r.
  - rewrite IH, on_wire_passed. destruct p as [? ? ? ? ? ? ? [] ? ? ? ?]. cbn [parse_attr].
    replace (has_flag _ 128 && has_flag _ 64) with true by (by destruct (255 <? _)).
    unfold rare_set_unknown. cbn. rewrite <- app_assoc. by destruct u.
Qed.
(** The state of the pass once the mandatory attributes are read, with the fields
    that are still to come. *)
Definition reading (r : Route FamV4) lp m c lc ec cl aa ag oid ot : Parsed :=
  mkParsed true true (origin r) (as_path r) (next_hop r) lp m (mkRare c lc ec cl aa ag oid ot []) [] [] [] [].
Lemma parse_scalars r pt pt' lp m c lc ec cl (aa : bool) ag oid ot :
  foldl (parse_attr pt') (reading r None None [] [] [] [] false None None None)
    (opt_attr lp PaLocalPref ++ opt_attr m PaMed ++ list_attr c PaCommunities
     ++ list_attr lc PaLargeCommunities ++ list_attr ec PaExtendedCommunities
     ++ (if aa then [PaAtomicAggregate] else []) ++ opt_attr ag PaAggregator
     ++ (if match pt with External | ConfedMember => true | _ => false end then []
         else opt_attr oid PaOriginatorId ++ list_attr cl PaClusterList)
     ++ opt_attr ot PaOnlyToCustomer)
  = reading r (match pt' with Internal | ConfedMember => lp | _ => None end) m c lc ec
      (match pt with External | ConfedMember => [] | _ => cl end) aa ag
      (match pt with External | ConfedMember => None | _ => oid end) ot.
Proof.
  rewrite !foldl_app.
  assert (E1 : foldl (parse_attr pt') (reading r None None [] [] [] [] false None None None) (opt_attr lp PaLocalPref)
    = reading r (match pt' with Internal | ConfedMember => lp | _ => None end) None [] [] [] [] false None None None)
    by (by destruct lp, pt').
  rewrite E1. clear E1. generalize (match pt' with Internal | ConfedMember => lp | _ => None end). intros lp'.
  assert (E2 : foldl (parse_attr pt') (reading r lp' None [] [] [] [] false None None None) (opt_attr m PaMed)
    = reading r lp' m [] [] [] [] false None None None) by (by destruct m). rewrite E2. clear E2.
  assert (E3 : foldl (parse_attr pt') (reading r lp' m [] [] [] [] false None None None) (list_attr c PaCommunities)
    = reading r lp' m c [] [] [] false None None None) by (by destruct c). rewrite E3. clear E3.
  assert (E4 : foldl (parse_attr pt') (reading r lp' m c [] [] [] false None None None) (list_attr lc PaLargeCommunities)
    = reading r lp' m c lc [] [] false None None None) by (by destruct lc). rewrite E4. clear E4.
  assert (E5 : foldl (parse_attr pt') (reading r lp' m c lc [] [] false None None None) (list_attr ec PaExtendedCommunities)
    = reading r lp' m c lc ec [] false None None None) by (by destruct ec). rewrite E5. clear E5.
  assert (E6 : foldl (parse_attr pt') (reading r lp' m c lc ec [] false None None None) (if aa then [PaAtomicAggregate] else [])
    = reading r lp' m c lc ec [] aa None None None) by (by destruct aa). rewrite E6. clear E6.
  assert (E7 : foldl (parse_attr pt') (reading r lp' m c lc ec [] aa None None None) (opt_attr ag PaAggregator)
    = reading r lp' m c lc ec [] aa ag None None) by (by destruct ag). rewrite E7. clear E7.
  assert (E8 : foldl (parse_attr pt') (reading r lp' m c lc ec [] aa ag None None)
      (opt_attr oid PaOriginatorId ++ list_attr cl PaClusterList) = reading r lp' m c lc ec cl aa ag oid None)
    by (by destruct oid, cl).
  destruct pt; cbn [foldl]; rewrite ?E8; by destruct ot.
Qed.
Lemma parse_arriving r pt pt' : route_wf r ->
  parse_attributes pt' (arriving r pt)
  = mkParsed true true (origin r) (as_path r) (next_hop r) (arrived_pref r pt') (arrived_med r pt)
      (arrived_rare r pt) [] [] [] [].
Proof.
  intros H. destruct (rw_next_hop r H) as (nh & En & _). rewrite arriving_split by done. unfold parse_attributes.
  rewrite foldl_app, parse_unknowns. unfold known_attributes. rewrite En. cbn [is_v4_next_hop opt_attr app foldl].
  rewrite <- En. set (p0 := parse_attr _ _ (PaNextHop nh)).
  assert (E0 : p0 = reading r None None [] [] [] [] false None None None) by (unfold reading; by rewrite En).
  rewrite E0. clear p0 E0.
  replace (if bool_decide (pt = External) then [] else opt_attr (med r) PaMed)
    with (opt_attr (arrived_med r pt) PaMed) by (unfold arrived_med; by case_bool_decide).
  rewrite parse_scalars. unfold reading, arrived_pref, arrived_rare. destruct (rare_or_default r), pt; reflexivity.
Qed.
End Routes.

(** ** The route the receiver builds *)
Section Built.
Context `{P : IpPrefixOps} {f : Family}.

(** A route with its rare attributes allocated, which no reader can tell apart. *)
Definition full (r : Route f) : Route f := with_rare r (Some (rare_or_default r)).
Lemma full_mut (r : Route f) g : full (with_rare_mut r g) = with_rare_mut r g.
Proof. done. Qed.
Lemma mut_full (r r' : Route f) g : full r = full r' -> with_rare_mut r g = with_rare_mut r' g.
Proof. destruct r, r'. unfold full, with_rare_mut, with_rare, rare_or_default. cbn. intros [= -> -> -> -> -> -> -> -> -> E ->]. by rewrite E. Qed.
Lemma mut_mut (r : Route f) g h : with_rare_mut (with_rare_mut r g) h = with_rare_mut r (fun x => h (g x)).
Proof. done. Qed.
Lemma mut_after (r r' : Route f) g h : full r = with_rare_mut r' h ->
  with_rare_mut r g = with_rare_mut r' (fun x => g (h x)).
Proof. intros E. by rewrite (mut_full r (with_rare_mut r' h)). Qed.
(** A push loop of the builder. *)
Lemma full_pushes {A} (push : Route f -> A -> Route f) (add : RareAttrs -> list A -> RareAttrs) l :
  (forall r a, push r a = with_rare_mut r (fun x => add x [a])) ->
  (forall x l1 l2, add (add x l1) l2 = add x (l1 ++ l2)) -> (forall x, add x [] = x) ->
  forall r, full (foldl push r l) = with_rare_mut r (fun x => add x l).
Proof.
  intros Hp Ha Hn. induction l as [|a l IH]; intros r; cbn [foldl].
  - unfold full, with_rare_mut. by rewrite Hn.
  - rewrite IH, Hp, mut_mut. unfold with_rare_mut. by rewrite Ha.
Qed.
Ltac pushes := [> done|intros [] ? ?; cbn; by rewrite <- app_assoc|intros []; cbn; by rewrite app_nil_r].
Lemma full_communities l (r : Route f) : full (foldl b_community r l)
  = with_rare_mut r (fun x => rare_set_communities x (communities x ++ l)).
Proof.
  apply (full_pushes b_community (fun x l => rare_set_communities x (communities x ++ l)));
    unfold rare_set_communities; pushes.
Qed.
Lemma full_large l (r : Route f) : full (foldl b_large_community r l)
  = with_rare_mut r (fun x => rare_set_large_communities x (large_communities x ++ l)).
Proof.
  apply (full_pushes b_large_community (fun x l => rare_set_large_communities x (large_communities x ++ l)));
    unfold rare_set_large_communities; pushes.
Qed.
Lemma full_extended l (r : Route f) : full (foldl b_extended_community r l)
  = with_rare_mut r (fun x => rare_set_extended_communities x (extended_communities x ++ l)).
Proof.
  apply (full_pushes b_extended_community (fun x l => rare_set_extended_communities x (extended_communities x ++ l)));
    unfold rare_set_extended_communities; pushes.
Qed.
Lemma full_unknown l (r : Route f) : full (foldl b_unknown_attribute r l)
  = with_rare_mut r (fun x => rare_set_unknown x (unknown x ++ l)).
Proof.
  apply (full_pushes b_unknown_attribute (fun x l => rare_set_unknown x (unknown x ++ l)));
    unfold rare_set_unknown; pushes.
Qed.
Lemma full_if (b : bool) (r : Route f) g : full (if b then with_rare_mut r g else r)
  = with_rare_mut r (fun x => if b then g x else x).
Proof. by destruct b. Qed.

Lemma build_full now pt id p (n : Nlri f) nh :
  full (build_route now pt id p n nh)
  = mkRoute n (pu_origin p) (pu_as_path p) nh (pu_local_pref p) (pu_med p) pt (now_unix_secs now) id
      (Some (rare_set_cluster_list (rare_set_originator_id (pu_rare p) None) [])) false.
Proof.
  destruct p as [ho ha o path nh' lp m [c lc ec cl aa ag oid ot un] a4 w4 a6 w6]. unfold build_route.
  cbn [pu_rare pu_origin pu_as_path pu_local_pref pu_med communities large_communities extended_communities
    atomic_aggregate aggregator otc unknown].
  set (b0 := match m with Some _ => _ | None => _ end).
  assert (E0 : b0 = mkRoute n o path nh lp m pt (now_unix_secs now) id None false)
    by (unfold b0; by destruct id, nh, lp, m).
  rewrite E0. clear b0 E0. set (b0 := mkRoute _ _ _ _ _ _ _ _ _ _ _).
  set (b1 := foldl b_community b0 c). set (b2 := foldl b_large_community b1 lc).
  set (b3 := foldl b_extended_community b2 ec). set (b4 := if aa then _ else _).
  set (b5 := match ag with Some _ => _ | None => _ end). set (b6 := match ot with Some _ => _ | None => _ end).
  assert (E1 : full b1 = with_rare_mut b0 (fun x => rare_set_communities x (communities x ++ c)))
    by apply full_communities.
  assert (E2 : full b2 = with_rare_mut b1 (fun x => rare_set_large_communities x (large_communities x ++ lc)))
    by apply full_large.
  assert (E3 : full b3 = with_rare_mut b2 (fun x => rare_set_extended_communities x (extended_communities x ++ ec)))
    by apply full_extended.
  assert (E4 : full b4 = with_rare_mut b3 (fun x => if aa then rare_set_atomic_aggregate x true else x))
    by apply full_if.
  assert (E5 : full b5 = with_rare_mut b4 (fun x => match ag with Some a => rare_set_aggregator x (Some a) | None => x end))
    by (unfold b5; by destruct ag).
  assert (E6 : full b6 = with_rare_mut b5 (fun x => match ot with Some a => rare_set_otc x (Some a) | None => x end))
    by (unfold b6; by destruct ot).
  change (full (build ?b)) with (set_stale (full b) false). rewrite full_unknown.
  rewrite (mut_after _ _ _ _ E6), (mut_after _ _ _ _ E5), (mut_after _ _ _ _ E4), (mut_after _ _ _ _ E3),
    (mut_after _ _ _ _ E2), (mut_after _ _ _ _ E1).
  unfold with_rare_mut, b0. cbn. by destruct aa, ag, ot.
Qed.
Lemma restored_full now pt id p (n : Nlri f) nh :
  full (restore_rr p (build_route now pt id p n nh))
  = mkRoute n (pu_origin p) (pu_as_path p) nh (pu_local_pref p) (pu_med p) pt (now_unix_secs now) id
      (Some (pu_rare p)) false.
Proof.
  pose proof (build_full now pt id p n nh) as E. unfold restore_rr.
  set (b := build_route _ _ _ _ _ _) in *.
  assert (Em : forall g, with_rare_mut b g = set_stale (mkRoute n (pu_origin p) (pu_as_path p) nh (pu_local_pref p) (pu_med p) pt
      (now_unix_secs now) id (Some (g (rare_set_cluster_list (rare_set_originator_id (pu_rare p) None) []))) false) false).
  { intros g. rewrite (mut_full b (full b) g eq_refl), E. done. }
  destruct (pu_rare p) as [c lc ec cl aa ag oid ot un]. cbn [originator_id cluster_list] in *.
  destruct oid, cl; rewrite ?E, ?full_mut, ?Em; done.
Qed.
End Built.

(** ** Messages *)
Section Messages.
Context `{P : IpPrefixOps} {L : IpPrefixLaws}.
Context (pt : PeerType) (ds : list (PrefixDecision FamV4)).

(** The attributes that arrive are a function of the bytes. *)
Lemma arriving_inj r r' : route_wf r -> route_wf r' ->
  len (encode_path_attributes (route_to_attributes r pt true)) <= 65535 ->
  encode_path_attributes (route_to_attributes r pt true) = encode_path_attributes (route_to_attributes r' pt true) ->
  arriving r pt = arriving r' pt.
Proof.
  intros H H' Hl E. pose proof (DecodesAll_path_attributes true _ (arriving_encodable r pt H Hl)) as D.
  rewrite E in Hl. pose proof (DecodesAll_path_attributes true _ (arriving_encodable r' pt H' Hl)) as D'.
  rewrite arriving_bytes in D, D' by done. rewrite E in D.
  exact (DecodesAll_fun _ _ _ _ D D').
Qed.

(** What a sent message is when it arrives. *)
Definition announces_as (m m' : UpdateMessage) : Prop :=
  withdrawn m = [] /\ exists r, PdAnnounce r ∈ ds
    /\ encode_path_attributes (attributes m) = encode_path_attributes (route_to_attributes r pt true)
    /\ m' = mkUpdate [] (arriving r pt) (Update.announced m)
    /\ Update.announced m <> []
    /\ forall n, n ∈ Update.announced m -> exists r', PdAnnounce r' ∈ ds /\ nlri r' = n /\ arriving r' pt = arriving r pt.
Definition withdraws_as (m m' : UpdateMessage) : Prop :=
  m' = m /\ withdrawn m <> [] /\ attributes m = [] /\ Update.announced m = []
  /\ forall n, n ∈ withdrawn m -> PdWithdraw n ∈ ds.
Definition decision_ok (d : PrefixDecision FamV4) : Prop :=
  match d with PdAnnounce r => route_wf r | PdWithdraw n => canonical n | PdNoChange => True end.

Context (Hds : Forall decision_ok ds) (max_len : nat) (Hmax : Z.of_nat max_len <= MAX_LEN)
  (Hfit : Forall (decision_fits pt true max_len) ds).

Lemma decided_route r : PdAnnounce r ∈ ds ->
  route_wf r /\ len (encode_path_attributes (route_to_attributes r pt true)) <= 65535.
Proof.
  intros Hr. rewrite Forall_forall in Hds. rewrite Forall_forall in Hfit. split; [exact (Hds _ Hr)|].
  specialize (Hfit _ Hr). cbn [decision_fits] in Hfit. unfold encode_attributes, MAX_LEN, len in *. lia.
Qed.
Lemma announcement_of k n : (k, n) ∈ announcements pt true ds ->
  exists r, PdAnnounce r ∈ ds /\ k = encode_path_attributes (route_to_attributes r pt true) /\ nlri r = n.
Proof.
  unfold announcements. intros (d & Hd & E)%list_elem_of_omap. destruct d as [r| |]; [|done..].
  injection E as <- <-. by exists r.
Qed.
Lemma arrives_announce m : withdrawn m = [] -> Update.announced m <> [] ->
  (forall x, x ∈ announces m -> x ∈ announcements pt true ds) -> exists m', announces_as m m'.
Proof.
  intros Hw Hne Hin. unfold announces in Hin.
  destruct (Update.announced m) as [|n0 ns] eqn:E; [done|].
  destruct (announcement_of (encode_path_attributes (attributes m)) n0) as (r & Hr & Eb & _).
  { apply Hin. apply list_elem_of_fmap. exists n0. split; [done|left]. }
  eexists. split; [done|]. exists r. split_and!; [done|done|reflexivity|by rewrite E|].
  rewrite E. intros n Hn. destruct (announcement_of (encode_path_attributes (attributes m)) n) as (r' & Hr' & Eb' & En).
  { apply Hin. apply list_elem_of_fmap. by exists n. }
  exists r'. split_and!; [done|done|]. destruct (decided_route _ Hr), (decided_route _ Hr').
  apply arriving_inj; try done. by rewrite <- Eb', <- Eb.
Qed.
Lemma wire_as m m' : announces_as m m' \/ withdraws_as m m' -> wire (BmUpdate m) = wire (BmUpdate m').
Proof.
  intros [(Hw & r & Hr & Eb & -> & _)|[-> _]]; [|done]. destruct (decided_route _ Hr) as [Hwf _].
  cbn [wire]. f_equal. unfold update_encode_body. cbn [withdrawn attributes Update.announced].
  by rewrite Hw, Eb, arriving_bytes.
Qed.
Lemma canonical_as m m' : announces_as m m' \/ withdraws_as m m' ->
  Forall canonical (withdrawn m') /\ Forall canonical (Update.announced m').
Proof.
  rewrite Forall_forall in Hds. intros [(Hw & r & Hr & Eb & -> & _ & Hn)|(-> & _ & Ha & Hn & Hw)].
  - split; [constructor|]. cbn [Update.announced]. apply Forall_forall. intros n Hin.
    destruct (Hn n Hin) as (r' & Hr' & <- & _). apply (rw_nlri _ (Hds _ Hr')).
  - rewrite Hn. split; [|constructor]. apply Forall_forall. intros n Hin. exact (Hds _ (Hw n Hin)).
Qed.
Lemma attributes_as m m' : announces_as m m' \/ withdraws_as m m' -> attrs_encodable true (attributes m').
Proof.
  intros [(Hw & r & Hr & Eb & -> & _ & Hn)|(-> & _ & -> & _)]; [|by split; constructor].
  destruct (decided_route _ Hr). by apply arriving_encodable.
Qed.
Lemma sendable_as m m' : announces_as m m' \/ withdraws_as m m' -> (length (update_encode m) <= max_len)%nat ->
  sendable codec_new (BmUpdate m').
Proof.
  intros H Hl. destruct (canonical_as m m' H) as [H1 H2]. pose proof (attributes_as m m' H) as H3.
  assert (E : length (update_encode m) = length (update_encode m'))
    by (change (update_encode ?m) with (wire (BmUpdate m)); by rewrite (wire_as m m' H)).
  assert (Hw : len (wire (BmUpdate m')) <= MAX_LEN)
    by (unfold len; change (wire (BmUpdate m')) with (update_encode m'); rewrite <- E; lia).
  split; [|exact Hw]. split_and!; [done|done|done|]. cbn [wire] in Hw. unfold len in *.
  rewrite encode_framed_length in Hw. unfold MAX_LEN in Hw. lia.
Qed.
Lemma msg_ok_as m m' : announces_as m m' \/ withdraws_as m m' -> ImportTheorems.msg_ok m'.
Proof.
  intros H. apply update_msg_ok. destruct (canonical_as m m' H), (attributes_as m m' H) as [Ha Hn].
  split_and!; [done|done| |done]. eapply Forall_impl; [exact Ha|]. by intros a (? & _).
Qed.

(** A flush, message by message *)
Definition arrives_as (m m' : UpdateMessage) : Prop := announces_as m m' \/ withdraws_as m m'.
Lemma announcements_arrive ms : Forall (fun m => withdrawn m = [] /\ Update.announced m <> []) ms ->
  concat (map announces ms) ≡ₚ announcements pt true ds -> exists ms', Forall2 announces_as ms ms'.
Proof.
  intros Hms Ea. assert (Hin : forall m, m ∈ ms -> forall x, x ∈ announces m -> x ∈ announcements pt true ds).
  { intros m Hm x Hx. rewrite <- Ea. apply list_elem_of_In, in_concat. exists (announces m).
    split; [apply in_map|]; by apply list_elem_of_In. }
  clear Ea. induction Hms as [|m ms [Hw Hne] _ IH]; [by exists []|].
  destruct IH as [ms' IH]; [intros k Hk; apply Hin; by right|].
  destruct (arrives_announce m Hw Hne) as [m' Hm]; [apply Hin; left|]. exists (m' :: ms'). by constructor.
Qed.
Lemma withdrawals_arrive ws : Forall (fun m => withdrawn m <> [] /\ attributes m = [] /\ Update.announced m = []) ws ->
  concat (map withdrawn ws) = withdrawals ds -> Forall (fun m => withdraws_as m m) ws.
Proof.
  intros Hws Ew. apply Forall_forall. intros m Hm. rewrite Forall_forall in Hws.
  destruct (Hws m Hm) as (Hw & Ha & Hn). split_and!; try done. intros n Hin.
  assert (Hd : n ∈ withdrawals ds).
  { rewrite <- Ew. apply list_elem_of_In, in_concat. exists (withdrawn m).
    split; [apply in_map|]; by apply list_elem_of_In. }
  apply list_elem_of_omap in Hd as (d & Hd & Ed). destruct d; try done. by injection Ed as ->.
Qed.
Lemma flush_arrives ws ms ms' : Forall (fun m => withdraws_as m m) ws -> Forall2 announces_as ms ms' ->
  Forall2 arrives_as (ws ++ ms) (ws ++ ms').
Proof.
  intros Hws Hms. apply Forall2_app; [|eapply Forall2_impl; [exact Hms|by left]].
  apply Forall_Forall2_diag. eapply Forall_impl; [exact Hws|]. by right.
Qed.
Lemma flush_received l l' chunks : Forall2 arrives_as l l' -> Forall (fun m => (length (update_encode m) <= max_len)%nat) l ->
  concat chunks = concat (map (fun m => wire (BmUpdate m)) l) ->
  receive codec_new chunks = (map BmUpdate l', []) /\ Forall ImportTheorems.msg_ok l'.
Proof.
  intros Hall Hsz Hc. split.
  - unfold receive. apply (receive_spec codec_new chunks ltac:(vm_compute; discriminate) [] (map BmUpdate l') []).
    + apply Forall_map. clear Hc. induction Hall as [|m m' l l' H _ IH]; [constructor|].
      apply Forall_cons in Hsz as [Hm Hsz]. constructor; [by apply (sendable_as m m')|by apply IH].
    + cbn [app]. rewrite Hc, map_map. f_equal. clear Hsz Hc. induction Hall as [|m m' l l' H _ IH]; [done|].
      cbn [map]. rewrite IH. f_equal. by apply wire_as.
    + destruct l' as [|m l0]; [done|]. cbn [map]. pose proof (wire_long (BmUpdate m)).
      unfold HEADER_LEN in *. cbn [length]. lia.
  - clear Hsz Hc. induction Hall as [|m m' l l' H _ IH]; constructor; [by apply (msg_ok_as m)|done].
Qed.
End Messages.

(** ** The receiver *)
Section Receiver.
Context `{P : IpPrefixOps} {M : RouteMapOps} {HO : HashOrder}.

(** The tables of the receiver for its peer. *)
Record Tables := mkTables {
  tb_in : AdjRibIn FamV4; tb_rib : LocRib FamV4; tb_in_v6 : AdjRibIn FamV6; tb_rib_v6 : LocRib FamV6;
}.
(** The messages are handled in turn; a notification ends the session. *)
Fixpoint import_all (cx : UpdateCtx) (ms : list UpdateMessage) (t : Tables)
    : Outcome False (Tables * option NotificationMessage) :=
  match ms with
  | [] => Ok (t, None)
  | m :: ms =>
      '(s4, s6, note) ← handle_update cx m (tb_in t) (tb_rib t) (tb_in_v6 t) (tb_rib_v6 t);
      let t := mkTables (s_in s4) (s_rib s4) (s_in s6) (s_rib s6) in
      match note with Some _ => Ok (t, note) | None => import_all cx ms t end
  end.

Context {L : IpPrefixLaws} {ML : RouteMapLaws} {HL : HashOrderLaw}.
Context (cx : UpdateCtx) (Hk4 : keeps_nlri (cx_policy cx)) (Hk6 : keeps_nlri (cx_policy_v6 cx)).

(** What the receiver does not refuse: AS 0, its own AS, confederation segments
    out of place, an unusable next hop. *)
Record importable (r : Route FamV4) : Prop := {
  ip_zero : Path.contains (as_path r) 0 = false;
  ip_loop : Path.contains (as_path r) (cx_local_as cx) = false;
  ip_confed_loop : forall cid, cx_confederation_id cx = Some cid -> Path.contains (as_path r) cid = false;
  ip_confed : malformed_confed (cx_peer_type cx) (as_path r) = false;
  ip_next_hop : bad_v4_nh (next_hop r) (cx_local_v4_addr cx) = false;
}.
(** The route as the receiver builds it, for the prefix [n]. *)
Definition imported (r : Route FamV4) (pt : PeerType) (n : Nlri FamV4) : Route FamV4 :=
  let p := parse_attributes (cx_peer_type cx) (arriving r pt) in
  restore_rr p (build_route (cx_clock cx FamV4 n) (cx_peer_type cx) (cx_peer_bgp_id cx) p n (pu_next_hop p)).
(** The same, by its fields. *)
Definition received (r : Route FamV4) (pt : PeerType) : Route FamV4 :=
  mkRoute (nlri r) (origin r) (as_path r) (next_hop r) (arrived_pref r (cx_peer_type cx)) (arrived_med r pt)
    (cx_peer_type cx) (now_unix_secs (cx_clock cx FamV4 (nlri r))) (cx_peer_bgp_id cx)
    (Some (arrived_rare r pt)) false.
Lemma imported_full r pt : route_wf r -> full (imported r pt (nlri r)) = received r pt.
Proof. intros H. unfold imported. rewrite restored_full, parse_arriving by done. done. Qed.
Lemma imported_nlri r pt n : nlri (imported r pt n) = n.
Proof. unfold imported. by rewrite restore_rr_nlri, build_route_nlri. Qed.

Lemma plan_announce r pt ns : route_wf r -> importable r -> ns <> [] ->
  let m := mkUpdate [] (arriving r pt) ns in
  plan_v4 cx m = map SoImport (map (imported r pt) ns) /\ plan_notification cx m = None.
Proof.
  intros H [Hz Hl Hcl Hc Hn] Hne m. destruct (rw_next_hop r H) as (a & En & _).
  assert (Ea : attrs_of cx m = mkParsed true true (origin r) (as_path r) (next_hop r)
      (arrived_pref r (cx_peer_type cx)) (arrived_med r pt) (arrived_rare r pt) [] [] [] [])
    by (unfold attrs_of, m; cbn [attributes]; by apply parse_arriving).
  assert (Hr : has_reachable_nlri_on_wire m = true) by (unfold m; destruct ns; done).
  assert (Hlack : lacks_mandatory cx m = false).
  { unfold lacks_mandatory, missing_attr. rewrite Ea. cbn [has_origin has_as_path negb pu_next_hop].
    rewrite En. unfold m. cbn [Update.announced]. destruct ns; [done|]. apply andb_false_r. }
  assert (Hdrop : dropped cx m = false).
  { unfold dropped, has_as_zero, has_loop. rewrite Ea. cbn [pu_as_path]. rewrite Hz, Hl. cbn [orb].
    destruct (cx_confederation_id cx); [by apply Hcl|done]. }
  assert (Hmal : confed_malformed cx m = false)
    by (unfold confed_malformed; rewrite Ea; cbn [has_as_path pu_as_path andb]; by rewrite Hc).
  split; [|by unfold plan_notification; rewrite Hr].
  unfold plan_v4, routes_v4, kept_v4, kept_mp_v4. rewrite Hlack, Hdrop, Hmal. cbn [orb]. unfold imported.
  change (parse_attributes (cx_peer_type cx) (arriving r pt)) with (attrs_of cx m). rewrite Ea.
  cbn [mp_v4_announced mp_v4_withdrawn map app withdrawn pu_next_hop]. rewrite app_nil_r. unfold m.
  cbn [Update.announced withdrawn map app]. f_equal. clear -Hn. induction ns as [|n ns IH]; [done|].
  cbn [map omap list_omap fst snd]. rewrite Hn. f_equal. exact IH.
Qed.
Lemma plan_withdraw m : attributes m = [] -> Update.announced m = [] ->
  plan_v4 cx m = map SoWithdraw (withdrawn m) /\ plan_notification cx m = None.
Proof.
  destruct m as [w a n]. cbn [attributes Update.announced]. intros -> ->. unfold plan_v4, plan_notification,
    routes_v4, kept_v4, kept_mp_v4, lacks_mandatory, confed_malformed, attrs_of.
  cbn. split; [|done]. destruct (cx_confederation_id cx); cbn; by rewrite app_nil_r.
Qed.

(** The tables after a list of messages are those after their plans. *)
Lemma import_all_plans ms : Forall ImportTheorems.msg_ok ms -> Forall (fun m => plan_notification cx m = None) ms ->
  forall t, rib_ok (tb_rib t) -> rib_ok (tb_rib_v6 t) ->
  exists t', import_all cx ms t = Ok (t', None)
    /\ ari_routes (tb_in t') = foldl in_op (ari_routes (tb_in t)) (concat (map (plan_v4 cx) ms))
    /\ candidates (tb_rib t') = foldl spec_step (candidates (tb_rib t))
         (plan_rib (cx_peer cx) (cx_policy cx) (cx_oracle_v4 cx) (concat (map (plan_v4 cx) ms))).
Proof.
  intros Hm. induction Hm as [|m ms Hm _ IH]; intros Hn t H4 H6; [by exists t|].
  apply Forall_cons in Hn as [Hn Hns].
  destruct (handle_update_spec cx m (tb_in t) (tb_rib t) (tb_in_v6 t) (tb_rib_v6 t) Hm H4 H6 Hk4 Hk6)
    as (s4 & s6 & E & R4 & R6).
  destruct (IH Hns (mkTables (s_in s4) (s_rib s4) (s_in s6) (s_rib s6))) as (t' & E' & Ei & Ec);
    [apply R4|apply R6|].
  exists t'. cbn [import_all]. rewrite E. cbn [mbind outcome_bind]. rewrite Hn. split; [done|].
  cbn [tb_in tb_rib] in Ei, Ec. cbn [map concat]. rewrite foldl_app. split.
  - rewrite Ei. by rewrite (sr_in _ _ _ _ _ _ _ R4).
  - unfold plan_rib in *. rewrite map_app, concat_app, foldl_app, Ec. f_equal.
    apply map_eq. intros [n p]. apply (sr_candidates _ _ _ _ _ _ _ R4).
Qed.

(** A list of operations on distinct prefixes does each of them. *)
Definition op_prefix (op : SideOp FamV4) : Nlri FamV4 := match op with SoWithdraw n => n | SoImport r => nlri r end.
Definition op_entry (op : SideOp FamV4) : option (Route FamV4) := match op with SoWithdraw _ => None | SoImport r => Some r end.
Lemma in_op_lookup m op n : in_op m op !! n = if decide (op_prefix op = n) then op_entry op else m !! n.
Proof. destruct op; cbn [in_op op_prefix op_entry]; [rewrite lookup_delete|rewrite lookup_insert]; done. Qed.
Lemma in_ops_untouched ops n : forall m, n ∉ map op_prefix ops -> foldl in_op m ops !! n = m !! n.
Proof.
  induction ops as [|op ops IH]; intros m H; [done|]. cbn [map foldl] in *. apply not_elem_of_cons in H as [Hn H].
  rewrite IH by done. rewrite in_op_lookup, decide_False; congruence.
Qed.
Lemma in_ops_lookup ops op : NoDup (map op_prefix ops) -> op ∈ ops ->
  forall m, foldl in_op m ops !! op_prefix op = op_entry op.
Proof.
  induction ops as [|o ops IH]; intros Hnd Hin m; [inversion Hin|]. cbn [map foldl] in *.
  apply NoDup_cons in Hnd as [Hn Hnd]. apply elem_of_cons in Hin as [->|Hin]; [|by apply IH].
  rewrite in_ops_untouched by done. by rewrite in_op_lookup, decide_True.
Qed.
(** The candidate of the peer: imported and accepted, or none. *)
Definition op_candidate (op : SideOp FamV4) (old : option (Route FamV4)) : option (Route FamV4) :=
  match op with
  | SoWithdraw _ => None
  | SoImport raw =>
      if has_blackhole raw then None
      else match evaluate (cx_policy cx) raw with (r, DAccept) => Some r | _ => old end
  end.
Lemma candidate_step m op n :
  foldl spec_step m (rib_ops (cx_peer cx) (cx_policy cx) (cx_oracle_v4 cx) op) !! (n, cx_peer cx)
  = if decide (op_prefix op = n) then op_candidate op (m !! (n, cx_peer cx)) else m !! (n, cx_peer cx).
Proof.
  destruct op as [k|raw]; cbn [rib_ops op_prefix op_candidate].
  - cbn [foldl spec_step]. rewrite lookup_delete. destruct (decide (k = n)) as [->|Hne];
      [by rewrite decide_True|rewrite decide_False; congruence].
  - destruct (has_blackhole raw).
    + cbn [foldl spec_step]. rewrite lookup_delete. destruct (decide (nlri raw = n)) as [->|Hne];
        [by rewrite decide_True|rewrite decide_False; congruence].
    + pose proof (Hk4 raw) as Hk. destruct (evaluate (cx_policy cx) raw) as [r []]; cbn [fst foldl] in *;
        [|by case_decide..]. cbn [spec_step]. rewrite Hk, lookup_insert.
      destruct (decide (nlri raw = n)) as [->|Hne]; [by rewrite decide_True|rewrite decide_False; congruence].
Qed.
Lemma candidates_untouched ops n : n ∉ map op_prefix ops -> forall m,
  foldl spec_step m (plan_rib (cx_peer cx) (cx_policy cx) (cx_oracle_v4 cx) ops) !! (n, cx_peer cx) = m !! (n, cx_peer cx).
Proof.
  unfold plan_rib. induction ops as [|op ops IH]; intros H m; [done|]. cbn [map concat] in *.
  apply not_elem_of_cons in H as [Hn H]. rewrite foldl_app, IH by done. rewrite candidate_step, decide_False; congruence.
Qed.
Lemma candidates_lookup ops op : NoDup (map op_prefix ops) -> op ∈ ops -> forall m,
  foldl spec_step m (plan_rib (cx_peer cx) (cx_policy cx) (cx_oracle_v4 cx) ops) !! (op_prefix op, cx_peer cx)
  = op_candidate op (m !! (op_prefix op, cx_peer cx)).
Proof.
  induction ops as [|o ops IH]; intros Hnd Hin m; [inversion Hin|]. unfold plan_rib in *. cbn [map concat] in *.
  apply NoDup_cons in Hnd as [Hn Hnd]. rewrite foldl_app. apply elem_of_cons in Hin as [->|Hin].
  - pose proof (candidates_untouched ops (op_prefix o) Hn) as E. unfold plan_rib in E. rewrite E.
    by rewrite candidate_step, decide_True.
  - rewrite IH by done. f_equal. rewrite candidate_step. rewrite decide_False; [done|]. intros E. apply Hn.
    rewrite E. apply list_elem_of_fmap. by exists op.
Qed.
End Receiver.

(** ** Both ends *)
Section Ends.
Context `{P : IpPrefixOps} {M : RouteMapOps} {HO : HashOrder}.
Context {L : IpPrefixLaws} {ML : RouteMapLaws} {HL : HashOrderLaw}.

(** The prefixes a batch of decisions is about. *)
Definition decided (ds : list (PrefixDecision FamV4)) : list (Nlri FamV4) :=
  omap (fun d => match d with PdAnnounce r => Some (nlri r) | PdWithdraw n => Some n | PdNoChange => None end) ds.
Lemma decided_split pt ds : decided ds ≡ₚ withdrawals ds ++ (announcements pt true ds).*2.
Proof.
  induction ds as [|[r|n|] ds IH]; [done|..|done]; unfold decided, withdrawals, announcements in *;
    cbn [omap list_omap fmap list_fmap]; rewrite IH; solve_Permutation.
Qed.

Context (cx : UpdateCtx) (pt : PeerType) (ds : list (PrefixDecision FamV4)).
Context (Hds : Forall decision_ok ds) (Hnd : NoDup (decided ds)).
Context (Himp : forall r, PdAnnounce r ∈ ds -> importable cx r).

Lemma same_route r r' : PdAnnounce r ∈ ds -> PdAnnounce r' ∈ ds -> nlri r = nlri r' -> r = r'.
Proof.
  clear -Hnd. unfold decided in Hnd. induction ds as [|d l IH]; [intros H; inversion H|].
  assert (Hin : forall x, PdAnnounce x ∈ l -> nlri x ∈ decided l)
    by (intros x Hx; apply list_elem_of_omap; by exists (PdAnnounce x)).
  unfold decided in Hin.
  rewrite !elem_of_cons. cbn [omap list_omap] in Hnd. intros [<-|Hr] [E|Hr'] En.
  - by injection E.
  - apply NoDup_cons in Hnd as [Hn _]. exfalso. apply Hn. rewrite En. by apply Hin.
  - subst d. apply NoDup_cons in Hnd as [Hn _]. exfalso. apply Hn. rewrite <- En. by apply Hin.
  - apply IH; try done. destruct d; [apply NoDup_cons in Hnd; apply Hnd..|done].
Qed.
Lemma arrivals_plan_w ws : Forall (fun m => withdrawn m <> [] /\ attributes m = [] /\ Update.announced m = []) ws ->
  concat (map (plan_v4 cx) ws) = map SoWithdraw (concat (map withdrawn ws))
  /\ Forall (fun m => plan_notification cx m = None) ws.
Proof.
  induction 1 as [|m ws (_ & Ha & Hn) _ [IH1 IH2]]; [done|]. cbn [map concat].
  destruct (plan_withdraw cx m Ha Hn) as [E1 E2]. split; [by rewrite E1, IH1, map_app|by constructor].
Qed.
(** The imports of the messages that announce. *)
Lemma arrivals_plan_a ms ms' : Forall2 (announces_as pt ds) ms ms' ->
  Forall (fun m => plan_notification cx m = None) ms'
  /\ map op_prefix (concat (map (plan_v4 cx) ms')) = concat (map Update.announced ms)
  /\ forall n m, m ∈ ms -> n ∈ Update.announced m -> exists r, PdAnnounce r ∈ ds /\ nlri r = n
       /\ SoImport (imported cx r pt n) ∈ concat (map (plan_v4 cx) ms').
Proof.
  induction 1 as [|m m' ms ms' (Hw & r & Hr & Eb & -> & Hne & Hn) _ (IH1 & IH2 & IH3)].
  { split_and!; [constructor|done|]. intros n m H. inversion H. }
  destruct (plan_announce cx r pt (Update.announced m)) as [E1 E2]; [|by apply Himp|done|].
  { rewrite Forall_forall in Hds. exact (Hds _ Hr). }
  cbn [map concat]. split_and!; [by constructor| |].
  - rewrite E1, map_app, IH2, !map_map. f_equal. rewrite <- (map_id (Update.announced m)) at 2.
    apply map_ext. intros n. apply imported_nlri.
  - intros n k Hk Hin. apply elem_of_cons in Hk as [->|Hk].
    + destruct (Hn n Hin) as (r' & Hr' & <- & Ea). exists r'. split_and!; [done|done|].
      apply elem_of_app. left. rewrite E1. apply list_elem_of_fmap. exists (imported cx r pt (nlri r')).
      split; [unfold imported; by rewrite Ea|]. apply list_elem_of_fmap. by exists (nlri r').
    + destruct (IH3 n k Hk Hin) as (r' & Hr' & En & H). exists r'. split_and!; [done|done|].
      apply elem_of_app. by right.
Qed.

(** The operations of all the messages that arrive. *)
Lemma arrivals_plan ws ms ms' :
  Forall (fun m => withdrawn m <> [] /\ attributes m = [] /\ Update.announced m = []) ws ->
  Forall2 (announces_as pt ds) ms ms' -> concat (map withdrawn ws) = withdrawals ds ->
  concat (map announces ms) ≡ₚ announcements pt true ds ->
  let ops := concat (map (plan_v4 cx) (ws ++ ms')) in
  Forall (fun m => plan_notification cx m = None) (ws ++ ms') /\ NoDup (map op_prefix ops)
  /\ (forall n, n ∈ map op_prefix ops <-> n ∈ decided ds)
  /\ (forall n, PdWithdraw n ∈ ds -> SoWithdraw n ∈ ops)
  /\ (forall r, PdAnnounce r ∈ ds -> SoImport (imported cx r pt (nlri r)) ∈ ops).
Proof.
  intros Hws Hms Ew Ea ops. destruct (arrivals_plan_w ws Hws) as [Ep1 Hn1].
  destruct (arrivals_plan_a ms ms' Hms) as (Hn2 & Ep2 & Hi).
  assert (Ean : forall l, (concat (map announces l)).*2 = concat (map Update.announced l)).
  { induction l as [|m l IH]; [done|]. cbn [map concat]. rewrite fmap_app, IH. f_equal. unfold announces.
    change (fmap snd) with (map (@snd (list Z) (Nlri FamV4))). rewrite map_map. apply map_id. }
  assert (Ek : map op_prefix ops ≡ₚ decided ds).
  { unfold ops. rewrite map_app, concat_app, map_app, Ep1, Ep2, Ew, map_map. cbn [op_prefix]. rewrite map_id.
    by rewrite (decided_split pt), <- Ea, Ean. }
  split_and!; [by apply Forall_app| |..].
  - by rewrite Ek.
  - intros n. by rewrite Ek.
  - intros n Hn. unfold ops. rewrite map_app, concat_app, Ep1, Ew. apply elem_of_app. left.
    apply list_elem_of_fmap. exists n. split; [done|]. apply list_elem_of_omap. by exists (PdWithdraw n).
  - intros r Hr. assert (Hin : (encode_attributes (route_to_attributes r pt true), nlri r) ∈ concat (map announces ms))
      by (rewrite Ea; apply list_elem_of_omap; by exists (PdAnnounce r)).
    apply list_elem_of_In, in_concat in Hin as (l & (m & <- & Hm)%in_map_iff & Hl).
    apply list_elem_of_In, list_elem_of_fmap in Hl as (n & [= _ <-] & Hn). apply list_elem_of_In in Hm.
    destruct (Hi (nlri r) m Hm Hn) as (r' & Hr' & En & Hop). rewrite (same_route r' r Hr' Hr En) in Hop.
    unfold ops. rewrite map_app, concat_app. apply elem_of_app. by right.
Qed.
End Ends.

(** ** Properties *)

(** C4: over an IPv4 session with four-octet AS numbers, what one speaker decides is
    what the other one has: a batch of decisions, one for each prefix, is packed,
    encoded, cut into chunks anyhow, decoded and imported without an error at either
    end, and then the receiver's Adj-RIB-In holds for each announced prefix the
    route that was decided (its own idea of LOCAL_PREF, MED and the route reflection
    attributes apart) and none for each withdrawn one; its candidates are those its
    import policy accepts; all other prefixes are untouched. The routes are well
    formed, each fits a message, the receiver does not refuse them ([importable]: no
    loop, AS 0 or misplaced confederation segment, a usable next hop), and the
    sender's queue has room. Two decisions for one prefix in a batch and IPv6 are
    another matter ([coalesced_withdrawal_lost], [flush_v6_wrong_next_hop]). *)
Theorem two_speakers_agree `{P : IpPrefixOps} {M : RouteMapOps} {HO : HashOrder}
    {L : IpPrefixLaws} {ML : RouteMapLaws} {HL : HashOrderLaw}
    (cx : UpdateCtx) pt ds max_len tx t :
  Forall decision_ok ds -> NoDup (decided ds) -> (forall r, PdAnnounce r ∈ ds -> importable cx r) ->
  Z.of_nat max_len <= MAX_LEN -> Forall (decision_fits pt true max_len) ds -> (length ds <= tx_free tx)%nat ->
  keeps_nlri (cx_policy cx) -> keeps_nlri (cx_policy_v6 cx) -> rib_ok (tb_rib t) -> rib_ok (tb_rib_v6 t) ->
  exists tx' sent, flush_updates ds max_len tx pt true = (tx', true) /\ tx_sent tx' = tx_sent tx ++ sent
  /\ exists frames, Forall2 (fun m bs => message_encode (BmUpdate m) = Ok bs) sent frames
  /\ forall chunks, concat chunks = concat frames ->
     exists msgs t', receive codec_new chunks = (map BmUpdate msgs, []) /\ import_all cx msgs t = Ok (t', None)
     /\ (forall r, PdAnnounce r ∈ ds -> exists r', ari_routes (tb_in t') !! nlri r = Some r'
          /\ full r' = received cx r pt
          /\ candidates (tb_rib t') !! (nlri r, cx_peer cx)
             = op_candidate cx (SoImport r') (candidates (tb_rib t) !! (nlri r, cx_peer cx)))
     /\ (forall n, PdWithdraw n ∈ ds -> ari_routes (tb_in t') !! n = None
          /\ candidates (tb_rib t') !! (n, cx_peer cx) = None)
     /\ (forall n, n ∉ decided ds -> ari_routes (tb_in t') !! n = ari_routes (tb_in t) !! n
          /\ candidates (tb_rib t') !! (n, cx_peer cx) = candidates (tb_rib t) !! (n, cx_peer cx)).
Proof.
  intros Hds Hnd Himp Hmax Hfit Hroom Hk4 Hk6 H4 H6.
  destruct (flush_updates_complete ds max_len tx pt true) as (tx' & ok & ws & ms & E & Es & Hws & Hms & Hok & _ & Hr & Hsz).
  rewrite (Hr Hroom) in *. destruct (Hok eq_refl) as [Ew Ea]. specialize (Hsz Hfit).
  destruct (announcements_arrive pt ds Hds max_len Hmax Hfit ms Hms Ea) as [ms' Hms'].
  pose proof (flush_arrives pt ds ws ms ms' (withdrawals_arrive ds ws Hws Ew) Hms') as Hall.
  destruct (arrivals_plan cx pt ds Hds Hnd Himp ws ms ms' Hws Hms' Ew Ea) as (Hno & Hops & Hdec & Hwd & Han).
  exists tx', (ws ++ ms). split; [done|]. split; [done|]. exists (map (fun m => wire (BmUpdate m)) (ws ++ ms)).
  split; [clear; induction (ws ++ ms); by constructor|]. intros chunks Hc. exists (ws ++ ms').
  destruct (flush_received pt ds Hds max_len Hmax Hfit _ _ chunks Hall Hsz Hc) as [Hrx Hmsg].
  destruct (import_all_plans cx Hk4 Hk6 (ws ++ ms') Hmsg Hno t H4 H6) as (t' & Ei & Ein & Ecd).
  exists t'. split_and!; [done|done|..].
  - intros r Hin. exists (imported cx r pt (nlri r)).
    pose proof (in_ops_lookup _ _ Hops (Han r Hin) (ari_routes (tb_in t))) as E1.
    pose proof (candidates_lookup cx Hk4 _ _ Hops (Han r Hin) (candidates (tb_rib t))) as E2.
    cbn [op_prefix] in E1, E2. rewrite imported_nlri in E1, E2. rewrite Ein, Ecd, E1, E2. split_and!; [done| |done].
    apply imported_full. rewrite Forall_forall in Hds. exact (Hds _ Hin).
  - intros n Hin. pose proof (in_ops_lookup _ _ Hops (Hwd n Hin) (ari_routes (tb_in t))) as E1.
    pose proof (candidates_lookup cx Hk4 _ _ Hops (Hwd n Hin) (candidates (tb_rib t))) as E2.
    cbn [op_prefix] in E1, E2. by rewrite Ein, Ecd, E1, E2.
  - intros n Hn. rewrite Ein, Ecd, <- Hdec in *. split; [by apply in_ops_untouched|].
    by apply (candidates_untouched cx Hk4).
Qed.

(** Two announcements with the same attributes, one of them with an attribute the
    codec does not know, a withdrawal, and a prefix that stays. *)
Section Applied.
#[local] Existing Instances ModelPrefix.ops ModelPrefix.laws ModelRouteMap.ops ModelRouteMap.laws.
#[local] Existing Instances ModelHashOrder.order ModelHashOrder.order_law.

Definition link11 : Nlri FamV4 := ModelPrefix.nlri FamV4 184549376 8 eq_refl.
Definition link12 : Nlri FamV4 := ModelPrefix.nlri FamV4 201326592 8 eq_refl.
Definition link_route (n : Nlri FamV4) : Route FamV4 :=
  mkRoute n Egp [Sequence [65010; 65030]] (Some (NhV4 3232235777)) None (Some 50) Internal 12 None
    (Some (mkRare [4259840100] [] [] [] true None None (Some 65030) [mkUnknownAttribute 99 [1; 2]])) false.
Definition link_decisions : list (PrefixDecision FamV4) :=
  [PdAnnounce (link_route imp10); PdWithdraw link11; PdNoChange; PdAnnounce (link_route link12)].
Definition link_tables : Tables :=
  mkTables (ari_new (IpV4 3232235777)) loc_rib_new (ari_new (IpV4 3232235777)) loc_rib_new.

Lemma link_route_wf n : canonical n -> route_wf (link_route n).
Proof.
  intros Hn. assert (H : forall v, 0 <= v < 4294967296 -> is_u32 v) by done.
  assert (Hp : Path.seg_wf (Sequence [65010; 65030])).
  { split; [apply Nat.leb_le; reflexivity|]. repeat (apply Forall_cons_2; [apply H; lia|]). constructor. }
  assert (Hu : unknown_wf (mkUnknownAttribute 99 [1; 2])).
  { split; cbn; [unfold is_u8; lia|apply (bool_decide_unpack (99 ∉ known_type_codes)); vm_compute; exact I|].
    repeat (apply Forall_cons_2; [unfold is_u8; lia|]). constructor. }
  split; try done.
  - exact (Forall_cons_2 Path.seg_wf _ [] Hp (Forall_nil_2 _)).
  - exists 3232235777. split; [done|]. apply H. lia.
  - intros v [= <-]. apply H. lia.
  - split; try done.
    + apply Forall_cons_2; [apply H; lia|constructor].
    + intros v [= <-]. apply H. lia.
    + exact (Forall_cons_2 unknown_wf _ [] Hu (Forall_nil_2 _)).
    + apply NoDup_singleton.
Qed.
Lemma link_importable n : importable (imp_ctx DefAccept) (link_route n).
Proof. by split. Qed.
Lemma link_canonical : canonical link11 /\ canonical link12.
Proof.
  split; [exact (ModelPrefix.nlri_canonical FamV4 184549376 8 eq_refl eq_refl)|
    exact (ModelPrefix.nlri_canonical FamV4 201326592 8 eq_refl eq_refl)].
Qed.
Lemma link_decisions_ok : Forall decision_ok link_decisions.
Proof.
  destruct link_canonical as [H1 H2].
  exact (Forall_cons_2 decision_ok (PdAnnounce _) _ (link_route_wf imp10 imp10_canonical)
    (Forall_cons_2 decision_ok (PdWithdraw _) _ H1 (Forall_cons_2 decision_ok PdNoChange _ I
    (Forall_cons_2 decision_ok (PdAnnounce _) _ (link_route_wf link12 H2) (Forall_nil_2 _))))).
Qed.
Lemma link_importables r : PdAnnounce r ∈ link_decisions -> importable (imp_ctx DefAccept) r.
Proof.
  unfold link_decisions. rewrite !elem_of_cons. intros [[= ->]|[H|[H|[[= ->]|H]]]];
    [apply link_importable|discriminate H|discriminate H|apply link_importable|inversion H].
Qed.
Lemma link_distinct : NoDup (decided link_decisions).
Proof.
  apply (bool_decide_unpack (NoDup (decided link_decisions))). vm_compute. exact I.
Qed.
Lemma link_fits : Forall (decision_fits External true 4096) link_decisions.
Proof.
  repeat apply Forall_cons_2; [..|constructor]; cbn [decision_fits]; try exact I;
    apply Nat.leb_le; vm_compute; reflexivity.
Qed.
Lemma two_speakers_agree_witness :
  exists tx' sent, flush_updates link_decisions 4096 (mkSender 8 []) External true = (tx', true)
  /\ tx_sent tx' = [] ++ sent
  /\ exists frames, Forall2 (fun m bs => message_encode (BmUpdate m) = Ok bs) sent frames
  /\ exists msgs t', receive codec_new [concat frames] = (map BmUpdate msgs, [])
     /\ import_all (imp_ctx DefAccept) msgs link_tables = Ok (t', None)
     /\ exists r', ari_routes (tb_in t') !! imp10 = Some r'
        /\ full r' = received (imp_ctx DefAccept) (link_route imp10) External.
Proof.
  destruct (two_speakers_agree (imp_ctx DefAccept) External link_decisions 4096 (mkSender 8 []) link_tables
    link_decisions_ok link_distinct link_importables ltac:(vm_compute; discriminate) link_fits
    ltac:(apply Nat.leb_le; reflexivity) (fun _ => eq_refl) (fun _ => eq_refl) loc_rib_new_ok loc_rib_new_ok)
    as (tx' & sent & E & Es & frames & Hf & H).
  destruct (H [concat frames]) as (msgs & t' & Er & Ei & Ha & _); [apply app_nil_r|].
  destruct (Ha (link_route imp10)) as (r' & Hr & Hfull & _); [left|].
  exists tx', sent. split; [exact E|]. split; [exact Es|]. exists frames. split; [exact Hf|].
  exists msgs, t'. split; [exact Er|]. split; [exact Ei|]. exists r'. split; [exact Hr|exact Hfull].
Defined.
End Applied.
