(* ===== verification/Transit.v ===== *)
(** Routes in transit: whatever a peer sends, the routes the daemon makes of it
    can be encoded for the next peer and are decoded there.

    The invariant is [route_wf] of [Link]: the import keeps it of both tables
    ([handle_update] of [pathvectord/src/daemon/route.rs]), and so do the policies
    of the daemon and the preparation of an announcement. *)
From Stdlib Require Import ZArith Lia Bool.
From stdpp Require Import base tactics numbers decidable gmap list.
From S2P Require Import Prelude Addr Types AsPath Wire Header Notification Open Update UpdateFacts UpdateRoundtrip Message RouteMap Policy Route DaemonPolicy BestPath LocRib RibTheorems AdjRib Outbound OutboundTheorems HandleUpdate ImportTheorems Link.
Open Scope Z_scope.

(** ** What the attribute pass reads *)
Section Parsed.
Context `{P : IpPrefixOps} {L : IpPrefixLaws}.

Record parsed_wf (p : Parsed) : Prop := {
  pw_path : Path.wf (pu_as_path p);
  pw_next_hop : forall nh, pu_next_hop p = Some nh -> exists a, nh = NhV4 a /\ is_u32 a;
  pw_local_pref : forall v, pu_local_pref p = Some v -> is_u32 v;
  pw_med : forall v, pu_med p = Some v -> is_u32 v;
  pw_rare : rare_wf (pu_rare p);
  pw_mp : forall n nh, (n, nh) ∈ mp_v4_announced p -> exists a, nh = NhV4 a /\ is_u32 a;
}.
Lemma rare_default_wf : rare_wf RARE_DEFAULT.
Proof. split; try done; constructor. Qed.
Lemma parsed_new_wf : parsed_wf parsed_new.
Proof. split; try done; [constructor|exact rare_default_wf|intros n nh H; inversion H]. Qed.

(** An attribute keeps the rare attributes apart from its own. *)
Definition rare_of (r : RareAttrs) (a : PathAttribute) : RareAttrs :=
  match a with
  | PaCommunities cs => rare_set_communities r cs
  | PaLargeCommunities l => rare_set_large_communities r l
  | PaExtendedCommunities l => rare_set_extended_communities r l
  | PaAtomicAggregate => rare_set_atomic_aggregate r true
  | PaAggregator g => rare_set_aggregator r (Some g)
  | PaOriginatorId id => rare_set_originator_id r (Some id)
  | PaClusterList l => rare_set_cluster_list r l
  | PaOnlyToCustomer v => rare_set_otc r (Some v)
  | PaUnknown flags tc v =>
      if has_flag flags 0x80 && has_flag flags 0x40
      then rare_set_unknown r (unknown r ++ [mkUnknownAttribute tc v]) else r
  | _ => r
  end.
Lemma parse_attr_rare pt p a : pu_rare (parse_attr pt p a) = rare_of (pu_rare p) a.
Proof.
  destruct p as [ho ha o path nh lp m rare a4 w4 a6 w6]. destruct a; cbn [parse_attr rare_of pu_rare]; try done.
  - by destruct pt.
  - by case_decide; [|case_decide].
  - by case_decide; [|case_decide].
  - by case_match.
Qed.
Lemma rare_of_wf r a rest : rare_wf r -> pa_ok a -> NoDup (map ua_type_code (unknown r) ++ type_code a :: rest) ->
  rare_wf (rare_of r a) /\ NoDup (map ua_type_code (unknown (rare_of r a)) ++ rest).
Proof.
  intros Hr Ha Hnd.
  assert (Hnd' : NoDup (map ua_type_code (unknown r) ++ rest)).
  { rewrite <- Permutation_middle in Hnd. by apply NoDup_cons in Hnd as [_ ?]. }
  assert (Hkeep : forall r', unknown r' = unknown r -> rare_wf r' ->
    rare_wf r' /\ NoDup (map ua_type_code (unknown r') ++ rest)) by (intros r' ->; done).
  destruct Hr. destruct a; cbn [rare_of pa_ok type_code] in *; try (by apply Hkeep);
    try (apply Hkeep; [done|]; split; cbn; try done; intros ? [= <-]; done).
  destruct (_ && _); [|by apply Hkeep]. destruct Ha as (_ & Htc & Hk & _ & Hv). cbn [unknown rare_set_unknown].
  rewrite map_app. cbn [map ua_type_code]. rewrite <- app_assoc. split; [|done].
  split; cbn [communities large_communities extended_communities cluster_list aggregator originator_id otc unknown];
    try done.
  - apply Forall_app_2; [done|]. by apply Forall_cons_2.
  - cbn [rare_set_unknown unknown]. rewrite map_app. cbn [map ua_type_code]. rewrite cons_middle, app_assoc in Hnd.
    by apply NoDup_app in Hnd as [? _].
Qed.
Lemma parse_attr_wf pt p a : parsed_wf p -> pa_ok a -> rare_wf (pu_rare (parse_attr pt p a)) -> parsed_wf (parse_attr pt p a).
Proof.
  intros [H1 H2 H3 H4 _ H6] Ha Hr. destruct p as [ho ha o path nh lp m rare a4 w4 a6 w6].
  cbn [pu_as_path pu_next_hop pu_local_pref pu_med mp_v4_announced] in *.
  destruct a as [| | | |lp'| | | | | |mp|mp| | | | | |flags tc v]; cbn [parse_attr pa_ok] in *; try (by split);
    try (split; cbn [pu_as_path pu_next_hop pu_local_pref pu_med mp_v4_announced]; try done; intros ? [= <-]; eauto; done).
  - destruct pt; try (by split); split; cbn [pu_as_path pu_next_hop pu_local_pref pu_med mp_v4_announced]; try done;
      intros ? [= <-]; done.
  - destruct Ha as (_ & Hnh & _). destruct (decide (mpr_afi_safi mp = IPV4_UNICAST)) as [E|_];
      [|case_decide; by split].
    split; cbn [pu_as_path pu_next_hop pu_local_pref pu_med mp_v4_announced]; try done.
    intros n nh' [Hin|Hin]%elem_of_app; [by eapply H6|]. apply list_elem_of_fmap in Hin as (n' & [= -> ->] & _).
    rewrite E in Hnh. destruct Hnh as [Hw Hafi]. destruct (mpr_next_hop mp) as [v|v|g l]; [|discriminate Hafi..].
    by exists v.
  - case_decide; [by split|]. case_decide; by split.
  - destruct (_ && _); by split.
Qed.
Lemma parse_wf pt attrs : Forall pa_ok attrs -> NoDup (map type_code attrs) -> parsed_wf (parse_attributes pt attrs).
Proof.
  intros Ha Hnd. unfold parse_attributes.
  assert (Hu : NoDup (map ua_type_code (unknown (pu_rare parsed_new)) ++ map type_code attrs)) by exact Hnd.
  pose proof parsed_new_wf as Hp. revert Hu Hp. clear Hnd. generalize parsed_new.
  induction Ha as [|a attrs Ha _ IH]; intros p Hu Hp; [done|]. cbn [map foldl] in *.
  destruct (rare_of_wf _ _ _ (pw_rare p Hp) Ha Hu) as [Hr Hn]. rewrite <- (parse_attr_rare pt) in Hr, Hn.
  apply IH; [done|]. by apply parse_attr_wf.
Qed.
End Parsed.

(** ** The tables of a daemon *)
Section Tables.
Context `{P : IpPrefixOps} {M : RouteMapOps} {HO : HashOrder}.
Context {L : IpPrefixLaws} {ML : RouteMapLaws} {HL : HashOrderLaw}.

Lemma full_wf (r : Route FamV4) : route_wf (full r) -> route_wf r.
Proof. intros [H1 H2 H3 H4 H5 H6]. by split. Qed.
Lemma plan_import_wf cx msg raw : update_ok msg -> SoImport raw ∈ plan_v4 cx msg -> route_wf raw.
Proof.
  intros Hu Hin. pose proof Hu as (_ & Hc & Ha & Hnd).
  pose proof (parse_wf (cx_peer_type cx) (attributes msg) Ha Hnd) as Hp. fold (attrs_of cx msg) in Hp.
  destruct (update_msg_ok msg Hu) as (_ & _ & Hmp). destruct (parse_ok (cx_peer_type cx) _ Hmp) as (Hmc & _).
  fold (attrs_of cx msg) in Hmc.
  assert (Hw : forall l : list (Nlri FamV4), SoImport raw ∉ map SoWithdraw l)
    by (intros l (n & E & _)%list_elem_of_fmap; discriminate E).
  unfold plan_v4 in Hin. rewrite !elem_of_app in Hin.
  destruct Hin as [Hin|[Hin|[Hin|[Hin|Hin]]]]; [by apply Hw in Hin|..|by apply Hw in Hin|];
    [case_match; [by apply Hw in Hin|inversion Hin]..|].
  destruct (_ || _); [inversion Hin|]. apply list_elem_of_fmap in Hin as (raw' & [= <-] & Hin).
  unfold routes_v4 in Hin. apply list_elem_of_omap in Hin as ([n nh] & Hin & E). cbn [fst snd] in E.
  destruct (bad_v4_nh _ _); [discriminate E|]. injection E as <-.
  assert (Hn : canonical n /\ exists a, nh = Some (NhV4 a) /\ is_u32 a).
  { apply elem_of_app in Hin as [Hin|Hin].
    - apply list_elem_of_fmap in Hin as (n' & [= -> ->] & Hin). unfold kept_v4 in Hin.
      destruct (lacks_mandatory cx msg) eqn:El; [inversion Hin|]. split; [by eapply Forall_forall in Hc|].
      unfold lacks_mandatory, has_any_announces, missing_attr in El.
      destruct (Update.announced msg) as [|n0 ns]; [inversion Hin|]. cbn [nonempty orb andb] in El.
      destruct (has_origin _), (has_as_path _); try discriminate El. cbn [negb] in El.
      destruct (pu_next_hop (attrs_of cx msg)) as [x|] eqn:Ex; [|discriminate El].
      destruct (pw_next_hop _ Hp x Ex) as (a & -> & Hx). by exists a.
    - apply list_elem_of_fmap in Hin as ([n' x] & [= -> ->] & Hin). unfold kept_mp_v4 in Hin.
      destruct (_ || _); [inversion Hin|]. split.
      + rewrite Forall_forall in Hmc. apply Hmc. apply list_elem_of_fmap. by exists (n', x).
      + destruct (pw_mp _ Hp n' x Hin) as (a & -> & Hx). by exists a. }
  destruct Hn as (Hn & a & -> & Hx). apply full_wf. rewrite restored_full. destruct Hp.
  split; cbn [nlri as_path next_hop local_pref med]; try done. by exists a.
Qed.

(** Every route of both tables can be encoded. *)
Record tables_wf (t : Tables) : Prop := {
  tw_in : forall n r, ari_routes (tb_in t) !! n = Some r -> route_wf r;
  tw_candidates : forall k r, candidates (tb_rib t) !! k = Some r -> route_wf r;
  tw_rib : rib_ok (tb_rib t);
  tw_rib_v6 : rib_ok (tb_rib_v6 t);
}.
Definition keeps_wf (pol : Policy (Route FamV4)) : Prop := forall r, route_wf r -> route_wf (fst (evaluate pol r)).

Lemma in_ops_wf (ops : list (SideOp FamV4)) : (forall raw, SoImport raw ∈ ops -> route_wf raw) -> forall m,
  (forall n r, m !! n = Some r -> route_wf r) -> forall n r, foldl in_op m ops !! n = Some r -> route_wf r.
Proof.
  induction ops as [|op ops IH]; intros Ho m Hm n r; [apply Hm|]. cbn [foldl].
  apply IH; [intros raw H; apply Ho; by right|]. intros k x. rewrite in_op_lookup. case_decide; [|apply Hm].
  destruct op as [k'|raw]; cbn [op_entry]; [done|]. intros [= <-]. apply Ho. left.
Qed.
Lemma candidates_wf peer pol oracle (ops : list (SideOp FamV4)) : keeps_wf pol ->
  (forall raw, SoImport raw ∈ ops -> route_wf raw) -> forall m : gmap (Nlri FamV4 * PeerId) (Route FamV4),
  (forall k r, m !! k = Some r -> route_wf r) ->
  forall k r, foldl spec_step m (plan_rib peer pol oracle ops) !! k = Some r -> route_wf r.
Proof.
  intros Hk. unfold plan_rib. induction ops as [|op ops IH]; intros Ho m Hm k r; [apply Hm|].
  cbn [map concat]. rewrite foldl_app. apply IH; [intros raw H; apply Ho; by right|].
  assert (Hdel : forall k' k x, delete k' m !! k = Some x -> route_wf x)
    by (intros k' k2 x; rewrite lookup_delete; case_decide; [done|apply Hm]).
  destruct op as [n|raw]; cbn [rib_ops]; [apply Hdel|]. destruct (has_blackhole raw); [apply Hdel|].
  pose proof (Hk raw (Ho raw (list_elem_of_here _ _))) as Hw. destruct (evaluate pol raw) as [x []]; cbn [fst foldl] in *;
    [|exact Hm..]. cbn [spec_step]. intros k2 y. rewrite lookup_insert. case_decide; [by intros [= <-]|apply Hm].
Qed.
Lemma import_all_wf cx ms : keeps_nlri (cx_policy cx) -> keeps_nlri (cx_policy_v6 cx) -> keeps_wf (cx_policy cx) ->
  Forall update_ok ms -> forall t, tables_wf t -> exists t' note, import_all cx ms t = Ok (t', note) /\ tables_wf t'.
Proof.
  intros Hk4 Hk6 Hw. induction 1 as [|m ms Hm _ IH]; intros t Ht; [by exists t, None|].
  destruct (handle_update_spec cx m (tb_in t) (tb_rib t) (tb_in_v6 t) (tb_rib_v6 t) (update_msg_ok m Hm)
    (tw_rib t Ht) (tw_rib_v6 t Ht) Hk4 Hk6) as (s4 & s6 & E & R4 & R6).
  cbn [import_all]. rewrite E. cbn [mbind outcome_bind]. set (t1 := mkTables _ _ _ _).
  assert (Ht1 : tables_wf t1).
  { assert (Hp : forall raw, SoImport raw ∈ plan_v4 cx m -> route_wf raw) by (intros raw; by apply plan_import_wf).
    split; unfold t1; cbn [tb_in tb_rib tb_rib_v6].
    - rewrite (sr_in _ _ _ _ _ _ _ R4). apply in_ops_wf; [done|apply Ht].
    - intros [n p] r. rewrite (sr_candidates _ _ _ _ _ _ _ R4). apply candidates_wf; [done|done|apply Ht].
    - apply R4.
    - apply R6. }
  destruct (plan_notification cx m); [by exists t1; eexists|]. apply IH, Ht1.
Qed.
End Tables.

(** ** Policies and announcements *)
Section Transit.
Context `{P : IpPrefixOps} {M : RouteMapOps} {HO : HashOrder}.
Context {L : IpPrefixLaws} {ML : RouteMapLaws} {HL : HashOrderLaw}.

Lemma mark_wf attach role asn (r : Route FamV4) : is_u32 asn -> route_wf r ->
  route_wf (mark attach role asn r) /\ nlri (mark attach role asn r) = nlri r.
Proof.
  intros Ha H. unfold mark, SetOtc. destruct role as [role|]; [|done]. destruct (attach role); [|done].
  destruct (br_otc r); [done|]. cbn [fst]. destruct r as [n o path nh lp m pt rt id rare st].
  destruct H as [H1 H2 H3 H4 H5 [R1 R2 R3 R4 R5 R6 R7 R8 R9]].
  assert (Hr : rare_wf (rare_set_otc (default RARE_DEFAULT rare) (Some asn))).
  { unfold rare_or_default in *. cbn [Route.rare] in *. split; cbn; try done. by intros v [= <-]. }
  destruct rare as [x|]; (split; [split; cbn; done|done]).
Qed.
Lemma import_policy_wf las x pol : import_ok FamV4 las x pol -> is_u32 (pc_remote_as (ps_config x)) ->
  keeps_wf pol /\ keeps_nlri pol.
Proof.
  intros Ho Ha.
  assert (H : forall r, fst (evaluate pol r) = r
    \/ fst (evaluate pol r) = mark is_up_role (ps_role x) (pc_remote_as (ps_config x)) r).
  { intros r. rewrite (import_eval _ _ _ _ Ho). unfold import_verdict. destruct (is_leak _ _ _); [by left|].
    right. by destruct (existsb _ _). }
  assert (Hn : forall asn r, nlri (mark (f:=FamV4) is_up_role (ps_role x) asn r) = nlri r).
  { intros asn r. unfold mark, SetOtc. destruct (ps_role x) as [role|]; [|done]. destruct (is_up_role role); [|done].
    destruct (br_otc r); [done|]. by destruct r as [? ? ? ? ? ? ? ? ? [] ?]. }
  split; intros r.
  - intros Hr. destruct (H r) as [-> | ->]; [done|]. by apply mark_wf.
  - destruct (H r) as [-> | ->]; [done|apply Hn].
Qed.
Lemma export_policy_wf las y pol : export_ok FamV4 las y pol -> is_u32 las -> keeps_wf pol.
Proof.
  intros Ho Ha r Hr. rewrite (export_eval _ _ _ _ Ho). unfold export_verdict.
  destruct (ps_role y) as [role|]; [|done]. destruct (_ && _); [done|]. by apply mark_wf.
Qed.
Lemma prepare_outbound_wf r pt las pas nh nhs : route_wf r -> is_u32 las -> is_u32 pas -> is_u32 nh ->
  route_wf (prepare_outbound r pt las pas nh nhs).
Proof.
  intros [H1 H2 H3 H4 H5 H6] Hl Hp Hn.
  assert (Hw : forall path o lp, Path.wf path -> (exists a, o = Some (NhV4 a) /\ is_u32 a) ->
    (forall v, lp = Some v -> is_u32 v) -> route_wf (set_local_pref (set_next_hop (set_as_path r path) o) lp))
    by (intros; by split).
  assert (Hnh : exists a, Some (NhV4 nh) = Some (NhV4 a) /\ is_u32 a) by by exists nh.
  pose proof (prepend_confed_wf (as_path r) las Hl H2) as Hc.
  unfold prepare_outbound. destruct pt.
  - destruct nhs; [|by split]. exact (Hw (as_path r) _ (local_pref r) H2 Hnh H4).
  - exact (Hw _ _ None (prepend_wf _ pas Hp (strip_confed_wf _ H2)) Hnh ltac:(done)).
  - destruct nhs; [|by split]. exact (Hw (as_path r) _ (local_pref r) H2 Hnh H4).
  - destruct nhs; [exact (Hw _ _ (local_pref r) Hc Hnh H4)|exact (Hw _ (next_hop r) (local_pref r) Hc H3 H4)].
Qed.
Lemma best_wf t n r : tables_wf t -> best (tb_rib t) n = Some r -> route_wf r.
Proof.
  intros Ht. unfold best. destruct (best_peer _ n) as [p|]; [|done]. cbn [mbind option_bind]. apply Ht.
Qed.
End Transit.

(** ** Property *)

(** C5: whatever UPDATEs arrive, the daemon can pass on the IPv4 routes it makes of
    them to peers with four-octet AS numbers: handling any sequence of decoded
    messages under its import policy never panics and leaves routes whose fields
    have their widths, whose attributes are distinct and whose prefixes are
    canonical; and each best IPv4 route, prepared for a peer of any type that
    announced the capability for four-octet AS numbers and exported under its
    policy, is encoded without panic, and if it fits a message of 4096 bytes the
    peer decodes it, without any error, to this prefix and these attributes. Towards
    a peer without the capability AS_PATH and AGGREGATOR are written in a form it
    does not read ([two_octet_as_path_withdrawn]). *)
Theorem transit_encodable `{P : IpPrefixOps} {M : RouteMapOps} {HO : HashOrder}
    {L : IpPrefixLaws} {ML : RouteMapLaws} {HL : HashOrderLaw} cx ms t local_as x :
  Forall update_ok ms -> tables_wf t -> import_ok FamV4 local_as x (cx_policy cx) ->
  is_u32 (pc_remote_as (ps_config x)) -> keeps_nlri (cx_policy_v6 cx) ->
  exists t' note, import_all cx ms t = Ok (t', note) /\ tables_wf t'
  /\ forall n b pt public_as next_hop next_hop_self y export,
     best (tb_rib t') n = Some b -> export_ok FamV4 local_as y export ->
     is_u32 local_as -> is_u32 public_as -> is_u32 next_hop ->
     let r := fst (evaluate export (prepare_outbound b pt local_as public_as next_hop next_hop_self)) in
     route_wf r
     /\ exists frame, message_encode (BmUpdate (mkUpdate [] (route_to_attributes r pt true) [nlri r])) = Ok frame
        /\ (len frame <= MAX_LEN -> decode_with_limit_and_caps frame MAX_LEN true
              = Ok (BmUpdate (mkUpdate [] (arriving r pt) [nlri r]))).
Proof.
  intros Hms Ht Hi Ha Hk6. destruct (import_policy_wf _ _ _ Hi Ha) as [Hw Hk4].
  destruct (import_all_wf cx ms Hk4 Hk6 Hw Hms t Ht) as (t' & note & E & Ht'). exists t', note.
  split; [done|]. split; [done|]. intros n b pt pas nh nhs y export Hb He Hl Hp Hn r.
  assert (Hr : route_wf r).
  { apply (export_policy_wf _ _ _ He Hl), prepare_outbound_wf; try done. by eapply best_wf. }
  split; [done|]. exists (wire (BmUpdate (mkUpdate [] (arriving r pt) [nlri r]))). split.
  - change (message_encode ?m) with (Ok (E:=CodecError) (wire m)). cbn [wire]. unfold update_encode_body.
    cbn [withdrawn attributes Update.announced]. by rewrite arriving_bytes.
  - intros Hf. apply decode_wire; [|done|vm_compute; discriminate]. cbn [wire] in Hf. unfold len in Hf.
    rewrite encode_framed_length in Hf. unfold MAX_LEN in Hf.
    split_and!; [constructor|repeat constructor; apply Hr|apply arriving_encodable; [done|]|unfold len; lia].
    rewrite <- arriving_bytes by done. unfold update_encode_body, len in *. cbn [withdrawn attributes Update.announced] in Hf.
    rewrite !length_app in Hf. lia.
Qed.

(** ** Where the daemon does not do what it should *)

(** A route whose attributes leave no room for its prefix, such as one that
    just fitted when it arrived and has grown by the local AS, is sent in a message
    longer than the peer accepts. *)
Lemma oversized_announcement `{P : IpPrefixOps} {L : IpPrefixLaws} (r : Route FamV4) pt four max_len tx :
  (0 < tx_free tx)%nat ->
  (max_len < UPDATE_FIXED_OVERHEAD + length (encode_attributes (route_to_attributes r pt four)))%nat ->
  exists tx' m, flush_updates [PdAnnounce r] max_len tx pt four = (tx', true)
    /\ tx_sent tx' = tx_sent tx ++ [m] /\ (max_len < length (update_encode m))%nat.
Proof.
  intros Hf Hl. destruct tx as [[|n] sent]; [inversion Hf|]. unfold flush_updates.
  cbn [foldl collect_decision add_to_group send_batches send_groups try_send tx_free tx_sent].
  eexists _, _. split; [reflexivity|]. split; [reflexivity|]. rewrite update_encode_length. cbn [withdrawn attributes]. lia.
Qed.

Section Applied.
#[local] Existing Instances ModelPrefix.ops ModelPrefix.laws ModelRouteMap.ops ModelRouteMap.laws.
#[local] Existing Instances ModelHashOrder.order ModelHashOrder.order_law.

Definition transit_spec : PeerSpec :=
  mkPeerSpec (mkPeerConfig (IpV4 3232235777) 65010 (Some DefAccept) None None false false false None None
    None None None None 179 None None) None [].
Lemma link_tables_wf : tables_wf link_tables.
Proof.
  split; [intros n r H; cbn in H; by rewrite lookup_empty in H|intros k r H; cbn in H; by rewrite lookup_empty in H|..];
    apply loc_rib_new_ok.
Qed.
Lemma imp_msg_update_ok : update_ok (imp_msg imp_attrs).
Proof.
  split; [constructor|]. split; [exact (Forall_cons_2 canonical imp10 _ imp10_canonical (Forall_nil_2 _))|].
  split; [exact imp_attrs_ok|]. apply (bool_decide_unpack (NoDup (map type_code imp_attrs))). vm_compute. exact I.
Qed.
Lemma transit_encodable_witness : exists t' note,
  import_all (imp_ctx DefAccept) [imp_msg imp_attrs] link_tables = Ok (t', note) /\ tables_wf t'
  /\ forall b, best (tb_rib t') imp10 = Some b ->
     let r := fst (evaluate (policy_new DefAccept) (prepare_outbound b External 65001 65001 3232235778 false)) in
     exists frame, message_encode (BmUpdate (mkUpdate [] (route_to_attributes r External true) [nlri r])) = Ok frame
     /\ (len frame <= MAX_LEN -> decode_with_limit_and_caps frame MAX_LEN true
           = Ok (BmUpdate (mkUpdate [] (arriving r External) [nlri r]))).
Proof.
  assert (Hu : forall v, 0 <= v < 4294967296 -> is_u32 v) by done.
  destruct (transit_encodable (imp_ctx DefAccept) [imp_msg imp_attrs] link_tables 65001 transit_spec
    (Forall_cons_2 _ _ _ imp_msg_update_ok (Forall_nil_2 _)) link_tables_wf eq_refl
    ltac:(apply Hu; cbn; lia) (fun _ => eq_refl)) as (t' & note & E & Ht & H).
  exists t', note. split; [exact E|]. split; [exact Ht|]. intros b Hb.
  refine (proj2 (H imp10 b External 65001 3232235778 false transit_spec (policy_new DefAccept) Hb eq_refl _ _ _));
    apply Hu; lia.
Defined.
(** The route is passed on with the local AS in front. *)
Example transit_run :
  match import_all (imp_ctx DefAccept) [imp_msg imp_attrs] link_tables with
  | Ok (t', None) =>
      (fun b => as_path (prepare_outbound b External 65001 65001 3232235778 false)) <$> best (tb_rib t') imp10
  | _ => None
  end = Some [Sequence [65001; 65010]].
Proof. vm_compute. reflexivity. Qed.
End Applied.
