(* ===== verification/Netlink.v ===== *)
(** The daemon's routes in the kernel ([FibWriter] of
    [pathvector-sys/src/fib/linux.rs], and the clean-up at start-up:
    [KernelFib::stale_bgp_routes] and [withdraw_stale_bgp_routes]).

    [FibWriter] turns a write into a netlink request.  The requests are built with
    the third-party [RouteMessageBuilder] ([RouteBuilderOps]) and executed by the
    kernel ([RtnetlinkOps]), whose table is seen through [RouteView]: one route per
    table, prefix and metric.  Requests can fail; a failed one changes nothing.
    [FibWriter] is shown to do what the FIB manager expects of its writer
    ([KernelRoutesLaws] of [FibManager]), its own routes to be invisible to the
    next-hop oracle, and the clean-up to remove what a previous run left. *)
From Stdlib Require Import ZArith Lia Bool.
From stdpp Require Import base tactics numbers decidable gmap list.
From S2P Require Import Prelude Addr Types RouteMap Route BestPath KernelFib KernelFibTheorems FibManager.
Open Scope Z_scope.

(** ** Routes and requests *)

(** What the code and the kernel read of a route. *)
Record RouteView := mkView {
  rv_table : Z;
  rv_family : Family;
  rv_dst : Z;
  rv_len : Z;
  rv_metric : Z;
  rv_gateway : option Z;
  rv_bgp : bool;
  rv_blackhole : bool;
}.
#[export] Instance RouteView_eq_dec : EqDecision RouteView.
Proof. solve_decision. Defined.
Definition RouteKey : Type := Z * Family * Z * Z * Z.
Definition view_key (v : RouteView) : RouteKey :=
  (rv_table v, rv_family v, rv_dst v, rv_len v, rv_metric v).

(** The fields a builder has been given. *)
Record RouteFields := mkFields {
  rf_family : Family;
  rf_prefix : option (Z * Z);
  rf_gateway : option Z;
  rf_table : option Z;
  rf_priority : option Z;
  rf_bgp : bool;
}.
(** [builder_fields] is for the laws only; the code never reads a builder. *)
Class RouteBuilderOps `{RM : RouteMessageOps} := {
  RouteMessageBuilder : Type;
  builder_new : Family -> RouteMessageBuilder;
  builder_destination_prefix : Z -> Z -> RouteMessageBuilder -> RouteMessageBuilder;
  builder_gateway : Z -> RouteMessageBuilder -> RouteMessageBuilder;
  builder_table_id : Z -> RouteMessageBuilder -> RouteMessageBuilder;
  builder_priority : Z -> RouteMessageBuilder -> RouteMessageBuilder;
  builder_protocol_bgp : RouteMessageBuilder -> RouteMessageBuilder;
  builder_build : RouteMessageBuilder -> RouteMessage;
  set_kind_blackhole : RouteMessage -> RouteMessage;
  header_is_blackhole : RouteMessage -> bool;
  attribute_gateway : RouteAttribute -> option Z;
  builder_fields : RouteMessageBuilder -> RouteFields;
}.

(** [rtnetlink::Error] *)
Inductive RtError := NetlinkError (code : option Z) | OtherRtError.
Inductive RtResult := RtOk | RtErr (e : RtError).

(** [rt_add_replace] is [handle.route().add(msg).replace().execute()], [rt_del] is
    [handle.route().del(msg).execute()], [rt_dump] the answer to
    [handle.route().get(..).execute()] ([None] if it fails). *)
Class RtnetlinkOps `{RM : RouteMessageOps} := {
  KernelTables : Type;
  rt_lookup : KernelTables -> RouteKey -> option RouteView;
  rt_add_replace : RouteMessage -> KernelTables -> KernelTables * RtResult;
  rt_del : RouteMessage -> KernelTables -> KernelTables * RtResult;
  rt_dump : Family -> KernelTables -> option (list RouteMessage);
}.

Section Writer.
Context `{RM : RouteMessageOps} {RB : RouteBuilderOps} {NL : RtnetlinkOps}.

Definition view (f : Family) (msg : RouteMessage) : RouteView :=
  mkView (route_table msg) f (destination f msg) (header_prefix_len msg) (metric_of msg)
    (find_map attribute_gateway (message_attributes msg)) (is_bgp_route msg) (header_is_blackhole msg).

(** ** [FibWriter] *)
Record FibWriter := mkFibWriter {
  fwr_table : Z;
  fwr_metric : Z;
}.
(** The chains of [RouteMessageBuilder] calls of the write helpers. *)
Definition install_request (w : FibWriter) (f : Family) (dst prefix_len gateway : Z) : RouteMessage :=
  builder_build (builder_protocol_bgp (builder_priority (fwr_metric w)
    (builder_table_id (fwr_table w) (builder_gateway gateway
      (builder_destination_prefix dst prefix_len (builder_new f)))))).
Definition withdraw_request (w : FibWriter) (f : Family) (dst prefix_len : Z) : RouteMessage :=
  builder_build (builder_protocol_bgp (builder_priority (fwr_metric w)
    (builder_table_id (fwr_table w)
      (builder_destination_prefix dst prefix_len (builder_new f))))).
Definition blackhole_request (w : FibWriter) (f : Family) (dst prefix_len : Z) : RouteMessage :=
  set_kind_blackhole (withdraw_request w f dst prefix_len).

(** A deletion of an absent route ([ESRCH]) is a success. *)
Definition absent_is_ok (r : KernelTables * RtResult) : KernelTables * RtResult :=
  match r with
  | (k, RtErr (NetlinkError (Some code))) => if code =? -3 then (k, RtOk) else r
  | _ => r
  end.
Definition install_route (w : FibWriter) (f : Family) (dst prefix_len gateway : Z) (k : KernelTables) :=
  rt_add_replace (install_request w f dst prefix_len gateway) k.
Definition install_blackhole (w : FibWriter) (f : Family) (dst prefix_len : Z) (k : KernelTables) :=
  rt_add_replace (blackhole_request w f dst prefix_len) k.
Definition withdraw_route (w : FibWriter) (f : Family) (dst prefix_len : Z) (k : KernelTables) :=
  absent_is_ok (rt_del (withdraw_request w f dst prefix_len) k).
Definition withdraw_blackhole_route (w : FibWriter) (f : Family) (dst prefix_len : Z) (k : KernelTables) :=
  absent_is_ok (rt_del (blackhole_request w f dst prefix_len) k).

(** [impl FibWrite for FibWriter] *)
Definition fib_writer_write (w : FibWriter) (x : FibWrite) (k : KernelTables) : KernelTables * RtResult :=
  let f := fw_family x in let dst := fw_dst x in let len := fw_prefix_len x in
  match fw_op x with
  | Install gateway => install_route w f dst len gateway k
  | Blackhole => install_blackhole w f dst len k
  | Withdraw => withdraw_route w f dst len k
  | WithdrawBlackhole => withdraw_blackhole_route w f dst len k
  end.

(** ** Clean-up at start-up *)

(** [KernelFib::stale_bgp_routes] *)
Definition stale_bgp_routes (table : Z) (k : KernelTables) : option (list (Z * Z) * list (Z * Z)) :=
  v4 ← rt_dump FamV4 k;
  v6 ← rt_dump FamV6 k;
  Some (dump_stale_bgp FamV4 table v4, dump_stale_bgp FamV6 table v6).
(** One loop of [withdraw_stale_bgp_routes]; the second result lists the prefixes
    whose removal is logged as failed. *)
Fixpoint withdraw_stale (w : FibWriter) (f : Family) (stale : list (Z * Z)) (k : KernelTables)
    : KernelTables * list (Family * Z * Z) :=
  match stale with
  | [] => (k, [])
  | (dst, len) :: stale =>
      let '(k, r) := withdraw_route w f dst len k in
      let '(k, warned) := withdraw_stale w f stale k in
      (k, match r with RtOk => warned | RtErr _ => (f, dst, len) :: warned end)
  end.
(** The clean-up of [run_with]: the dump, then the two loops; [None] if the dump
    is logged as failed. *)
Definition clean_up (w : FibWriter) (k : KernelTables)
    : KernelTables * option (list (Family * Z * Z)) :=
  match stale_bgp_routes (fwr_table w) k with
  | Some (stale_v4, stale_v6) =>
      let '(k, warned_v4) := withdraw_stale w FamV4 stale_v4 k in
      let '(k, warned_v6) := withdraw_stale w FamV6 stale_v6 k in
      (k, Some (warned_v4 ++ warned_v6))
  | None => (k, None)
  end.
End Writer.

(** ** What is relied on *)

(** The builder: each setter fills its field, and [build] gives a message that
    reads back the fields.  Setters of attributes append, so the law of each is
    for a field that is still empty. *)
Class RouteBuilderLaws `{RB : RouteBuilderOps} : Prop := {
  fields_new f : builder_fields (builder_new f) = mkFields f None None None None false;
  fields_prefix d l b : rf_prefix (builder_fields b) = None ->
    builder_fields (builder_destination_prefix d l b)
    = let F := builder_fields b in
      mkFields (rf_family F) (Some (d, l)) (rf_gateway F) (rf_table F) (rf_priority F) (rf_bgp F);
  fields_gateway g b : rf_gateway (builder_fields b) = None ->
    builder_fields (builder_gateway g b)
    = let F := builder_fields b in
      mkFields (rf_family F) (rf_prefix F) (Some g) (rf_table F) (rf_priority F) (rf_bgp F);
  fields_table t b : rf_table (builder_fields b) = None ->
    builder_fields (builder_table_id t b)
    = let F := builder_fields b in
      mkFields (rf_family F) (rf_prefix F) (rf_gateway F) (Some t) (rf_priority F) (rf_bgp F);
  fields_priority p b : rf_priority (builder_fields b) = None ->
    builder_fields (builder_priority p b)
    = let F := builder_fields b in
      mkFields (rf_family F) (rf_prefix F) (rf_gateway F) (rf_table F) (Some p) (rf_bgp F);
  fields_bgp b : builder_fields (builder_protocol_bgp b)
    = let F := builder_fields b in
      mkFields (rf_family F) (rf_prefix F) (rf_gateway F) (rf_table F) (rf_priority F) true;
  build_view b d l t p : let F := builder_fields b in
    rf_prefix F = Some (d, l) -> rf_table F = Some t -> rf_priority F = Some p ->
    view (rf_family F) (builder_build b)
    = mkView t (rf_family F) d l p (rf_gateway F) (rf_bgp F) false;
  build_family b : header_family (builder_build b) = Some (rf_family (builder_fields b));
  blackhole_view f msg :
    view f (set_kind_blackhole msg)
    = let v := view f msg in
      mkView (rv_table v) f (rv_dst v) (rv_len v) (rv_metric v) (rv_gateway v) (rv_bgp v) true;
  blackhole_family msg : header_family (set_kind_blackhole msg) = header_family msg;
}.

(** A deletion without a gateway removes the route of the same protocol and type. *)
Definition del_matches (req v : RouteView) : bool :=
  Bool.eqb (rv_bgp v) (rv_bgp req) && Bool.eqb (rv_blackhole v) (rv_blackhole req).
(** The kernel: [NLM_F_REPLACE] overwrites the route of the same table, prefix and
    metric whatever its protocol or type; a deletion that matches nothing answers
    [ESRCH]; any error leaves the tables as they are.  A metric of zero means any
    or the default one to the kernel: the laws are for positive metrics. *)
Class RtnetlinkLaws `{RM : RouteMessageOps} {RB : RouteBuilderOps} {NL : RtnetlinkOps} : Prop := {
  add_replace_exact f msg k : header_family msg = Some f -> 0 < rv_metric (view f msg) ->
    match rt_add_replace msg k with
    | (k', RtOk) => forall x, rt_lookup k' x
        = if decide (view_key (view f msg) = x) then Some (view f msg) else rt_lookup k x
    | (k', RtErr _) => k' = k
    end;
  del_exact f msg k : header_family msg = Some f -> 0 < rv_metric (view f msg) ->
    rv_gateway (view f msg) = None ->
    match rt_del msg k with
    | (k', RtOk) => (exists v, rt_lookup k (view_key (view f msg)) = Some v
                               /\ del_matches (view f msg) v = true)
        /\ forall x, rt_lookup k' x
           = if decide (view_key (view f msg) = x) then None else rt_lookup k x
    | (k', RtErr e) => k' = k
        /\ (e = NetlinkError (Some (-3)) ->
            forall v, rt_lookup k (view_key (view f msg)) = Some v ->
                      del_matches (view f msg) v = false)
    end;
  lookup_key k x v : rt_lookup k x = Some v -> view_key v = x;
  dump_exact f k dump v : rt_dump f k = Some dump ->
    v ∈ map (view f) dump <-> rv_family v = f /\ rt_lookup k (view_key v) = Some v;
}.

(** ** The requests *)
Section Facts.
Context `{RM : RouteMessageOps} {RB : RouteBuilderOps} {NL : RtnetlinkOps}.
Context {BL : RouteBuilderLaws} {KL : RtnetlinkLaws}.
Implicit Types (w : FibWriter) (k : KernelTables) (f : Family).

Ltac builder_fields :=
  repeat first [rewrite fields_bgp | rewrite fields_priority | rewrite fields_table
               | rewrite fields_gateway | rewrite fields_prefix | rewrite fields_new];
  reflexivity.
Lemma install_request_view w f d l g :
  view f (install_request w f d l g) = mkView (fwr_table w) f d l (fwr_metric w) (Some g) true false
  /\ header_family (install_request w f d l g) = Some f.
Proof.
  unfold install_request.
  match goal with |- context [builder_build ?b] =>
    assert (E : builder_fields b
      = mkFields f (Some (d, l)) (Some g) (Some (fwr_table w)) (Some (fwr_metric w)) true)
      by builder_fields; pose proof (build_view b d l (fwr_table w) (fwr_metric w)) as V;
    pose proof (build_family b) as F end.
  rewrite E in V, F. split; [by apply V|done].
Qed.
Lemma withdraw_request_view w f d l :
  view f (withdraw_request w f d l) = mkView (fwr_table w) f d l (fwr_metric w) None true false
  /\ header_family (withdraw_request w f d l) = Some f.
Proof.
  unfold withdraw_request.
  match goal with |- context [builder_build ?b] =>
    assert (E : builder_fields b
      = mkFields f (Some (d, l)) None (Some (fwr_table w)) (Some (fwr_metric w)) true)
      by builder_fields; pose proof (build_view b d l (fwr_table w) (fwr_metric w)) as V;
    pose proof (build_family b) as F end.
  rewrite E in V, F. split; [by apply V|done].
Qed.
Lemma blackhole_request_view w f d l :
  view f (blackhole_request w f d l) = mkView (fwr_table w) f d l (fwr_metric w) None true true
  /\ header_family (blackhole_request w f d l) = Some f.
Proof.
  unfold blackhole_request. rewrite blackhole_view, blackhole_family.
  destruct (withdraw_request_view w f d l) as [-> ->]. done.
Qed.

(** ** The writer *)

(** What the kernel does with the packets of a prefix by the writer's own route. *)
Definition forwarding (v : RouteView) : option Forwarding :=
  if rv_bgp v then Some (if rv_blackhole v then Null else Via (default 0 (rv_gateway v))) else None.
Definition writer_get w k f (dst len : Z) : option Forwarding :=
  rt_lookup k (fwr_table w, f, dst, len, fwr_metric w) ≫= forwarding.
Definition own_key w (x : FibWrite) : RouteKey :=
  (fwr_table w, fw_family x, fw_dst x, fw_prefix_len x, fwr_metric w).
Definition write_exact w (x : FibWrite) k k' : Prop :=
  (forall f dst len, writer_get w k' f dst len
    = if decide ((fw_family x, fw_dst x, fw_prefix_len x) = (f, dst, len))
      then write_effect (fw_op x) (writer_get w k f dst len) else writer_get w k f dst len)
  /\ (forall y, y <> own_key w x -> rt_lookup k' y = rt_lookup k y).

Lemma write_exact_at w x k k' o :
  (forall y, y <> own_key w x -> rt_lookup k' y = rt_lookup k y) /\ rt_lookup k' (own_key w x) = o ->
  o ≫= forwarding = write_effect (fw_op x) (rt_lookup k (own_key w x) ≫= forwarding) ->
  write_exact w x k k'.
Proof.
  intros [Hother Ho] He. split; [|done]. intros f dst len. unfold writer_get. case_decide as E.
  - injection E as <- <- <-. fold (own_key w x). by rewrite Ho.
  - rewrite Hother; [done|]. unfold own_key. naive_solver.
Qed.

(** A deletion by the writer, in terms of the entry it is for. *)
Lemma del_by_writer w msg f dst len null k : 0 < fwr_metric w ->
  view f msg = mkView (fwr_table w) f dst len (fwr_metric w) None true null -> header_family msg = Some f ->
  let key := (fwr_table w, f, dst, len, fwr_metric w) in
  match absent_is_ok (rt_del msg k) with
  | (k', RtOk) => (forall y, y <> key -> rt_lookup k' y = rt_lookup k y)
      /\ rt_lookup k' key
         = (rt_lookup k key ≫= fun v =>
              if rv_bgp v && Bool.eqb (rv_blackhole v) null then None else Some v)
  | (k', RtErr _) => k' = k
  end.
Proof.
  intros Hm V F key. pose proof (del_exact f msg k F) as D. rewrite V in D. specialize (D Hm eq_refl).
  change (view_key _) with key in D.
  unfold del_matches in D. cbn [rv_bgp rv_blackhole] in D.
  destruct (rt_del msg k) as [k' [|e]].
  - destruct D as [(v & Hv & M) D]. cbn [absent_is_ok]. split.
    + intros y Hy. by rewrite D, decide_False by done.
    + rewrite D, decide_True, Hv by done. cbn. by destruct (rv_bgp v), (rv_blackhole v), null.
  - destruct D as [-> D]. destruct e as [[code|]|]; cbn [absent_is_ok]; try done.
    destruct (Z.eqb_spec code (-3)) as [->|]; [|done]. split; [done|].
    destruct (rt_lookup k key) as [v|] eqn:Hv; [|done].
    specialize (D eq_refl v eq_refl). cbn. by destruct (rv_bgp v), (rv_blackhole v), null.
Qed.
Lemma add_by_writer w msg f dst len gw null k : 0 < fwr_metric w ->
  view f msg = mkView (fwr_table w) f dst len (fwr_metric w) gw true null -> header_family msg = Some f ->
  let key := (fwr_table w, f, dst, len, fwr_metric w) in
  match rt_add_replace msg k with
  | (k', RtOk) => (forall y, y <> key -> rt_lookup k' y = rt_lookup k y)
      /\ rt_lookup k' key = Some (view f msg)
  | (k', RtErr _) => k' = k
  end.
Proof.
  intros Hm V F key. pose proof (add_replace_exact f msg k F) as D. rewrite V in *. specialize (D Hm).
  destruct (rt_add_replace msg k) as [k' [|e]]; [|done].
  change (view_key _) with key in D. split.
  - intros y Hy. by rewrite D, decide_False by done.
  - by rewrite D, decide_True by done.
Qed.

Lemma withdrawn_forwarding o null :
  (o ≫= fun v => if rv_bgp v && Bool.eqb (rv_blackhole v) null then None else Some v) ≫= forwarding
  = write_effect (if null then WithdrawBlackhole else Withdraw) (o ≫= forwarding).
Proof.
  destruct o as [[? ? ? ? ? ? bgp blackhole]|]; [|by destruct null].
  by destruct bgp, blackhole, null.
Qed.

(** A write that succeeds has the effect the FIB manager expects of it and touches
    nothing but the writer's own entry of the prefix; a write that fails changes
    nothing. *)
Theorem fib_writer_exact w x k : 0 < fwr_metric w ->
  match fib_writer_write w x k with
  | (k', RtOk) => write_exact w x k k'
  | (k', RtErr _) => k' = k
  end.
Proof.
  intros Hm. destruct x as [f dst len op]. unfold fib_writer_write. cbn [fw_family fw_dst fw_prefix_len fw_op].
  pose proof (withdraw_request_view w f dst len) as [VW FW].
  pose proof (blackhole_request_view w f dst len) as [VB FB].
  destruct op as [g| | |].
  - pose proof (install_request_view w f dst len g) as [V F].
    pose proof (add_by_writer w _ f dst len _ _ k Hm V F) as A. unfold install_route.
    destruct (rt_add_replace _ k) as [k' [|]]; [|done].
    eapply write_exact_at; [exact A|]. by rewrite V.
  - pose proof (add_by_writer w _ f dst len _ _ k Hm VB FB) as A. unfold install_blackhole.
    destruct (rt_add_replace _ k) as [k' [|]]; [|done].
    eapply write_exact_at; [exact A|]. by rewrite VB.
  - pose proof (del_by_writer w _ f dst len _ k Hm VW FW) as A. unfold withdraw_route.
    destruct (absent_is_ok _) as [k' [|]]; [|done].
    eapply write_exact_at; [exact A|]. apply (withdrawn_forwarding _ false).
  - pose proof (del_by_writer w _ f dst len _ k Hm VB FB) as A. unfold withdraw_blackhole_route.
    destruct (absent_is_ok _) as [k' [|]]; [|done].
    eapply write_exact_at; [exact A|]. apply (withdrawn_forwarding _ true).
Qed.

(** With a kernel that takes every write, [FibWriter] is a writer the FIB manager
    can be given. *)
Definition writer_kernel w : KernelRoutesOps := {|
  KernelRoutes := KernelTables;
  kernel_get := writer_get w;
  kernel_write k x := fst (fib_writer_write w x k);
|}.
Lemma writer_kernel_laws w : 0 < fwr_metric w ->
  (forall x k, snd (fib_writer_write w x k) = RtOk) -> @KernelRoutesLaws (writer_kernel w).
Proof.
  intros Hm Hok. split. intros k x f dst len. cbn [kernel_get kernel_write writer_kernel].
  pose proof (fib_writer_exact w x k Hm) as E. specialize (Hok x k).
  destruct (fib_writer_write w x k) as [k' r]. cbn [fst snd] in *. subst r. apply E.
Qed.

(** ** The clean-up *)

(** A unicast route of this daemon, installed with the metric it runs with now. *)
Definition stale_route w (v : RouteView) : bool :=
  (rv_table v =? fwr_table w) && (rv_metric v =? fwr_metric w) && rv_bgp v && negb (rv_blackhole v).
Definition view_prefix (v : RouteView) : Family * Z * Z := (rv_family v, rv_dst v, rv_len v).

(** From [k] to [k'] only stale routes of the prefixes [l] went, and those that
    stayed are in [warned]. *)
Definition cleaned w k (l : list (Family * Z * Z)) k' (warned : list (Family * Z * Z)) : Prop :=
  forall y, match rt_lookup k y with
  | None => rt_lookup k' y = None
  | Some v =>
      if stale_route w v && bool_decide (view_prefix v ∈ l)
      then rt_lookup k' y = None \/ rt_lookup k' y = Some v /\ view_prefix v ∈ warned
      else rt_lookup k' y = Some v
  end.

Lemma cleaned_nil w k : cleaned w k [] k [].
Proof.
  intros y. destruct (rt_lookup k y) as [v|] eqn:E; [|done].
  by rewrite bool_decide_eq_false_2, andb_false_r by set_solver.
Qed.
Lemma cleaned_app w k l1 k1 m1 l2 k2 m2 :
  cleaned w k l1 k1 m1 -> cleaned w k1 l2 k2 m2 -> cleaned w k (l1 ++ l2) k2 (m1 ++ m2).
Proof.
  intros H1 H2 y. specialize (H1 y). specialize (H2 y).
  destruct (rt_lookup k y) as [v|]; [|by rewrite H1 in H2].
  destruct (stale_route w v) eqn:S; cbn [andb] in *.
  - rewrite bool_decide_decide in *.
    destruct (decide (view_prefix v ∈ l1)) as [I1|I1]; [destruct H1 as [H1|[H1 Hw]]|];
      rewrite H1, ?S, ?bool_decide_decide in H2; cbn [andb] in H2.
    + rewrite decide_True by set_solver. by left.
    + rewrite decide_True by set_solver. case_decide; [|right; set_solver].
      destruct H2 as [H2|[H2 _]]; [by left|right; set_solver].
    + destruct (decide (view_prefix v ∈ l2)) as [I2|I2].
      * rewrite decide_True by set_solver. destruct H2 as [H2|[H2 Hw]]; [by left|right; set_solver].
      * by rewrite decide_False by set_solver.
  - by rewrite H1, S in H2.
Qed.
Lemma cleaned_route w f dst len k : 0 < fwr_metric w ->
  let '(k', r) := withdraw_route w f dst len k in
  cleaned w k [(f, dst, len)] k' match r with RtOk => [] | RtErr _ => [(f, dst, len)] end.
Proof.
  intros Hm. pose proof (withdraw_request_view w f dst len) as [V F]. unfold withdraw_route.
  pose proof (del_by_writer w _ f dst len _ k Hm V F) as D.
  set (key := (fwr_table w, f, dst, len, fwr_metric w)) in *.
  destruct (absent_is_ok _) as [k' [|e]]; intros y; [destruct D as [Ho Hk]|rewrite D];
    (destruct (rt_lookup k y) as [v|] eqn:E;
      [pose proof (lookup_key k y v E) as Ky|]).
  - unfold view_key, stale_route, view_prefix in *. destruct (decide (y = key)) as [->|Hy].
    + rewrite Hk, E. injection Ky as -> -> -> -> ->. rewrite !Z.eqb_refl, bool_decide_eq_true_2 by set_solver.
      cbn. destruct (rv_bgp v), (rv_blackhole v); cbn; auto.
    + rewrite Ho by done. rewrite E. destruct (_ && bool_decide _) eqn:B; [|done]. exfalso. apply Hy.
      rewrite !andb_true_iff, !Z.eqb_eq, bool_decide_eq_true, list_elem_of_singleton in B.
      subst key. destruct B as [[[[Bt Bm] _] _] Bp]. congruence.
  - destruct (decide (y = key)) as [->|Hy]; [by rewrite Hk, E|by rewrite Ho].
  - destruct (_ && bool_decide _) eqn:B; [|done]. right.
    rewrite !andb_true_iff, bool_decide_eq_true in B. tauto.
  - done.
Qed.
Lemma cleaned_list w f stale : 0 < fwr_metric w -> forall k,
  let '(k', warned) := withdraw_stale w f stale k in
  cleaned w k (map (fun x => (f, fst x, snd x)) stale) k' warned.
Proof.
  intros Hm. induction stale as [|[dst len] stale IH]; intros k; cbn [withdraw_stale map]; [apply cleaned_nil|].
  pose proof (cleaned_route w f dst len k Hm) as H1. destruct (withdraw_route w f dst len k) as [k1 r].
  specialize (IH k1). destruct (withdraw_stale w f stale k1) as [k2 warned].
  pose proof (cleaned_app _ _ _ _ _ _ _ _ H1 IH) as H. by destruct r.
Qed.

Lemma stale_listed f table k dump d l : rt_dump f k = Some dump ->
  (d, l) ∈ dump_stale_bgp f table dump <->
  exists v, rt_lookup k (view_key v) = Some v /\ view_prefix v = (f, d, l) /\ rv_bgp v = true
            /\ (table = 0 \/ rv_table v = table).
Proof.
  intros Hdump. unfold dump_stale_bgp, view_prefix. rewrite list_elem_of_omap. split.
  - intros (msg & Hin & Hmsg). destruct (is_bgp_route msg) eqn:B; cbn [negb orb] in Hmsg; [|done].
    destruct (in_table msg table) eqn:T; cbn [negb] in Hmsg; [|done]. injection Hmsg as <- <-.
    exists (view f msg). split; [|split; [done|split; [done|]]].
    + apply (dump_exact f k dump _ Hdump), (list_elem_of_fmap_2 (view f)). done.
    + unfold in_table in T. cbn. apply orb_true_iff in T. by rewrite !Z.eqb_eq in T.
  - intros (v & Hv & Hp & Hb & Ht). injection Hp as Hf <- <-.
    assert (Hin : v ∈ map (view f) dump) by by apply (dump_exact f k dump _ Hdump).
    apply (list_elem_of_fmap_1 (view f)) in Hin as (msg & -> & Hin). exists msg. split; [done|].
    cbn in Hb, Ht. assert (T : in_table msg table = true).
    { unfold in_table. rewrite orb_true_iff, !Z.eqb_eq. tauto. }
    by rewrite Hb, T.
Qed.

(** The prefixes both loops of the clean-up go through. *)
Definition listed (stale : list (Z * Z) * list (Z * Z)) : list (Family * Z * Z) :=
  map (fun x => (FamV4, x.1, x.2)) (fst stale) ++ map (fun x => (FamV6, x.1, x.2)) (snd stale).
Lemma listed_iff table k stale p : stale_bgp_routes table k = Some stale -> p ∈ listed stale
  <-> exists v, rt_lookup k (view_key v) = Some v /\ view_prefix v = p /\ rv_bgp v = true
                /\ (table = 0 \/ rv_table v = table).
Proof.
  destruct p as [[f d] l]. unfold stale_bgp_routes, listed.
  intros (v4 & D4 & (v6 & D6 & [= <-])%bind_Some)%bind_Some. cbn [fst snd].
  destruct f.
  - rewrite <- (stale_listed FamV4 table k v4 d l D4), elem_of_app, !list_elem_of_fmap. split.
    + intros [([? ?] & [= -> ->] & H)|(? & [=] & _)]; exact H.
    + intros H. left. by exists (d, l).
  - rewrite <- (stale_listed FamV6 table k v6 d l D6), elem_of_app, !list_elem_of_fmap. split.
    + intros [(? & [=] & _)|([? ?] & [= -> ->] & H)]; exact H.
    + intros H. right. by exists (d, l).
Qed.
Lemma cleaned_up w k : 0 < fwr_metric w ->
  match clean_up w k with
  | (k', Some warned) => exists stale, stale_bgp_routes (fwr_table w) k = Some stale
      /\ cleaned w k (listed stale) k' warned
  | (k', None) => k' = k
  end.
Proof.
  intros Hm. unfold clean_up. destruct (stale_bgp_routes _ k) as [[stale4 stale6]|]; [|done].
  pose proof (cleaned_list w FamV4 stale4 Hm k) as H4. destruct (withdraw_stale w FamV4 _ k) as [k4 m4].
  pose proof (cleaned_list w FamV6 stale6 Hm k4) as H6. destruct (withdraw_stale w FamV6 _ k4) as [k6 m6].
  exists (stale4, stale6). split; [done|]. exact (cleaned_app _ _ _ _ _ _ _ _ H4 H6).
Qed.

(** C30: At start-up the daemon removes exactly the unicast routes that an earlier
    run with the same table and metric left in the kernel; one that is still there
    has had its failed removal logged, and no other route is touched.  If the
    kernel cannot be asked, nothing changes. *)
Theorem clean_up_exact w k : 0 < fwr_metric w ->
  match clean_up w k with
  | (k', Some warned) => forall y,
      match rt_lookup k y with
      | None => rt_lookup k' y = None
      | Some v =>
          if stale_route w v
          then rt_lookup k' y = None \/ rt_lookup k' y = Some v /\ view_prefix v ∈ warned
          else rt_lookup k' y = Some v
      end
  | (k', None) => k' = k /\ stale_bgp_routes (fwr_table w) k = None
  end.
Proof.
  intros Hm. pose proof (cleaned_up w k Hm) as H. destruct (clean_up w k) as [k' [warned|]] eqn:Hc.
  - destruct H as (stale & Hs & H). intros y. specialize (H y).
    destruct (rt_lookup k y) as [v|] eqn:E; [|done]. destruct (stale_route w v) eqn:S; [|done].
    rewrite bool_decide_eq_true_2 in H; [done|]. apply (listed_iff _ _ _ _ Hs). exists v.
    rewrite (lookup_key k y v E). unfold stale_route in S. rewrite !andb_true_iff, !Z.eqb_eq in S. naive_solver.
  - split; [done|]. unfold clean_up in Hc. destruct (stale_bgp_routes _ k) as [[stale4 stale6]|]; [|done].
    by destruct (withdraw_stale _ _ _ k) as [k4 m4], (withdraw_stale _ _ _ k4) as [k6 m6].
Qed.

(** A route that a run with another metric left is listed as stale and stays. *)
Theorem stale_other_metric_stays w k v stale : 0 < fwr_metric w ->
  stale_bgp_routes (fwr_table w) k = Some stale ->
  rt_lookup k (view_key v) = Some v -> rv_bgp v = true -> rv_table v = fwr_table w ->
  rv_metric v <> fwr_metric w ->
  view_prefix v ∈ listed stale /\ rt_lookup (fst (clean_up w k)) (view_key v) = Some v.
Proof.
  intros Hm Hs Hv Hb Ht Hne. split.
  - apply (listed_iff _ _ _ _ Hs). exists v. naive_solver.
  - pose proof (cleaned_up w k Hm) as H. destruct (clean_up w k) as [k' [warned|]]; cbn [fst]; [|by rewrite H].
    destruct H as (stale' & _ & H). specialize (H (view_key v)). rewrite Hv in H. unfold stale_route in H.
    apply Z.eqb_neq in Hne. by rewrite Hne, andb_false_r in H.
Qed.

(** ** The daemon's own routes and the next-hop oracle *)

(** The messages the kernel sends about a write: they carry its protocol. *)
Definition write_request w (x : FibWrite) : RouteMessage :=
  let f := fw_family x in let dst := fw_dst x in let len := fw_prefix_len x in
  match fw_op x with
  | Install gateway => install_request w f dst len gateway
  | Withdraw => withdraw_request w f dst len
  | Blackhole | WithdrawBlackhole => blackhole_request w f dst len
  end.
Inductive echo w : NetlinkEvent -> Prop :=
| echo_new x msg : is_bgp_route msg = is_bgp_route (write_request w x) -> echo w (NewRoute msg)
| echo_del x msg : is_bgp_route msg = is_bgp_route (write_request w x) -> echo w (DelRoute msg).
Inductive with_echoes w : list NetlinkEvent -> list NetlinkEvent -> Prop :=
| echoes_nil : with_echoes w [] []
| echoes_other e others all : with_echoes w others all -> with_echoes w (e :: others) (e :: all)
| echoes_echo e others all : echo w e -> with_echoes w others all -> with_echoes w others (e :: all).

Lemma request_is_bgp w x : is_bgp_route (write_request w x) = true.
Proof.
  destruct x as [f dst len op]. unfold write_request. cbn [fw_family fw_dst fw_prefix_len fw_op].
  enough (H : rv_bgp (view f (write_request w (mkFibWrite f dst len op))) = true) by exact H.
  unfold write_request. cbn [fw_family fw_dst fw_prefix_len fw_op].
  destruct op as [g| | |]; by rewrite ?(proj1 (install_request_view w f dst len g)),
    ?(proj1 (withdraw_request_view w f dst len)), ?(proj1 (blackhole_request_view w f dst len)).
Qed.
Lemma echo_ignored w table e kf : echo w e -> kernel_fib_event table kf e = kf.
Proof.
  intros H. assert (N : forall s : FibSnapshot, mkKernelFib s (kf_notified kf + 0) = mkKernelFib s (kf_notified kf))
    by (intros s; by rewrite Nat.add_0_r).
  destruct H as [x msg H|x msg H]; rewrite request_is_bgp in H; unfold kernel_fib_event.
  - assert (E : apply_new (kf_snapshot kf) msg table = (kf_snapshot kf, false)).
    { unfold apply_new, parse. rewrite H. destruct (header_family msg); [|done].
      by destruct (header_is_unicast msg), (in_table msg table). }
    rewrite E. cbn [fst snd]. rewrite N. by destruct kf.
  - unfold apply_del. rewrite H, orb_true_r. cbn [fst snd]. rewrite N. by destruct kf.
Qed.

(** No feedback loop: however the messages about the daemon's own writes fall
    between the others, for any table the tracker follows, the snapshot and the
    number of notifications are those without them. *)
Theorem own_routes_invisible w table dump_v4 dump_v6 others all : with_echoes w others all ->
  kernel_fib_run table dump_v4 dump_v6 all = kernel_fib_run table dump_v4 dump_v6 others.
Proof.
  intros H. unfold kernel_fib_run. generalize (kernel_fib_load table dump_v4 dump_v6).
  induction H as [|e others all _ IH|e others all He _ IH]; intros kf; cbn [foldl]; [done|apply IH|].
  by rewrite (echo_ignored w).
Qed.
End Facts.

(** ** A builder and a kernel, for witnesses *)
Module ModelNetlink.
Import ModelRouteMessage.
Definition to_list {A} (mk : A -> attribute) (o : option A) : list attribute :=
  match o with Some x => [mk x] | None => [] end.
Definition build_message (F : RouteFields) : message :=
  mkMessage true (rf_bgp F) 254 (Some (rf_family F)) (default 0 (snd <$> rf_prefix F))
    (to_list (fun p => Destination (rf_family F) (fst p)) (rf_prefix F)
     ++ to_list Gateway (rf_gateway F) ++ to_list Table (rf_table F)
     ++ to_list Priority (rf_priority F)).
#[export] Instance builder : @RouteBuilderOps ops := {|
  RouteMessageBuilder := RouteFields;
  builder_new f := mkFields f None None None None false;
  builder_destination_prefix d l F :=
    mkFields (rf_family F) (Some (d, l)) (rf_gateway F) (rf_table F) (rf_priority F) (rf_bgp F);
  builder_gateway g F :=
    mkFields (rf_family F) (rf_prefix F) (Some g) (rf_table F) (rf_priority F) (rf_bgp F);
  builder_table_id t F :=
    mkFields (rf_family F) (rf_prefix F) (rf_gateway F) (Some t) (rf_priority F) (rf_bgp F);
  builder_priority p F :=
    mkFields (rf_family F) (rf_prefix F) (rf_gateway F) (rf_table F) (Some p) (rf_bgp F);
  builder_protocol_bgp F :=
    mkFields (rf_family F) (rf_prefix F) (rf_gateway F) (rf_table F) (rf_priority F) true;
  builder_build := build_message;
  set_kind_blackhole (m : @RouteMessage ops) :=
    mkMessage false (bgp m) (table m) (family m) (prefix_len m) (attributes m);
  header_is_blackhole (m : @RouteMessage ops) := negb (unicast m);
  attribute_gateway (a : @RouteAttribute ops) := match a with Gateway g => Some g | _ => None end;
  builder_fields F := F;
|}.
#[export] Instance builder_laws : RouteBuilderLaws.
Proof.
  split; try done.
  - intros [f p g t pr b] d l t' p'. cbn -[view]. intros [= ->] [= ->] [= ->].
    unfold view, route_table, destination, metric_of, is_bgp_route. cbn. rewrite decide_True by done.
    by destruct g.
Qed.

(** The kernel keeps routes under their own keys; it answers [ESRCH] to a deletion
    that matches nothing. *)
Definition message_of (v : RouteView) : message :=
  mkMessage (negb (rv_blackhole v)) (rv_bgp v) 254 (Some (rv_family v)) (rv_len v)
    (Destination (rv_family v) (rv_dst v) :: Table (rv_table v) :: Priority (rv_metric v)
     :: to_list Gateway (rv_gateway v)).
#[local] Notation tables := (gmap RouteKey RouteView).
Definition lookup_view (k : tables) (x : RouteKey) : option RouteView :=
  v ← k !! x; if decide (view_key v = x) then Some v else None.
Definition einval : RtResult := RtErr (NetlinkError (Some (-22))).
#[export] Instance kernel : @RtnetlinkOps ops := {|
  KernelTables := tables;
  rt_lookup := lookup_view;
  rt_add_replace (m : @RouteMessage ops) (k : tables) :=
    match family m with
    | Some f => let v := view f (m : @RouteMessage ops) in (<[view_key v := v]> k, RtOk)
    | None => (k, einval)
    end;
  rt_del (m : @RouteMessage ops) (k : tables) :=
    match family m with
    | Some f =>
        let v := view f (m : @RouteMessage ops) in
        match lookup_view k (view_key v) with
        | Some v' => if del_matches v v' then (delete (view_key v) k, RtOk)
                     else (k, RtErr (NetlinkError (Some (-3))))
        | None => (k, RtErr (NetlinkError (Some (-3))))
        end
    | None => (k, einval)
    end;
  rt_dump f (k : tables) :=
    Some (map message_of
      (List.filter (fun v => bool_decide (rv_family v = f /\ lookup_view k (view_key v) = Some v))
                   (map snd (map_to_list k))));
|}.

Lemma view_message v : view (rv_family v) (message_of v : @RouteMessage ops) = v.
Proof.
  destruct v as [t f d l m g b n]. unfold view, route_table, destination, metric_of, is_bgp_route. cbn.
  rewrite decide_True by done. rewrite negb_involutive. by destruct g.
Qed.
Lemma lookup_view_key k x v : lookup_view k x = Some v -> view_key v = x.
Proof. unfold lookup_view. intros (v' & _ & H)%bind_Some. case_decide; by simplify_eq. Qed.
Lemma lookup_view_insert (k : tables) v x : lookup_view (<[view_key v := v]> k) x
  = if decide (view_key v = x) then Some v else lookup_view k x.
Proof.
  unfold lookup_view. case_decide as E.
  - subst x. rewrite lookup_insert_eq. cbn. by rewrite decide_True.
  - by rewrite lookup_insert_ne.
Qed.
Lemma lookup_view_delete (k : tables) y x : lookup_view (delete y k) x
  = if decide (y = x) then None else lookup_view k x.
Proof.
  unfold lookup_view. case_decide as E.
  - subst x. by rewrite lookup_delete_eq.
  - by rewrite lookup_delete_ne.
Qed.
#[export] Instance kernel_laws : RtnetlinkLaws.
Proof.
  split.
  - intros f msg k F _. cbn [rt_add_replace kernel]. change (family msg = Some f) in F. rewrite F.
    intros x. apply lookup_view_insert.
  - intros f msg k F _ _. cbn [rt_del kernel]. change (family msg = Some f) in F. rewrite F.
    cbn [rt_lookup kernel]. destruct (lookup_view k _) as [v|] eqn:E; [|by split].
    destruct (del_matches _ v) eqn:M.
    + split; [by exists v|]. intros x. apply lookup_view_delete.
    + split; [done|]. intros _ v' [= <-]. exact M.
  - intros k x v. apply lookup_view_key.
  - intros f k dump v. cbn [rt_dump rt_lookup kernel]. intros [= <-]. rewrite map_map. rewrite list_elem_of_fmap. split.
    + intros (v' & -> & Hin). apply list_elem_of_In, filter_In in Hin as [_ H%bool_decide_eq_true].
      destruct H as [<- H]. rewrite view_message. done.
    + intros [<- H]. exists v. split; [by rewrite view_message|]. apply list_elem_of_In, filter_In.
      split; [|by apply bool_decide_eq_true]. apply list_elem_of_In, list_elem_of_fmap.
      exists (view_key v, v). split; [done|]. apply elem_of_map_to_list.
      unfold lookup_view in H. apply bind_Some in H as (v' & Hv & H). case_decide; by simplify_eq.
Qed.
End ModelNetlink.

Section Witnesses.
#[local] Existing Instances ModelRouteMessage.ops ModelNetlink.builder ModelNetlink.builder_laws.
#[local] Existing Instances ModelNetlink.kernel ModelNetlink.kernel_laws.

(** A run with metric 20 installs 10.0.0.0/8 and a null route; an IGP route for
    172.16.0.0/12 is there as well. *)
Definition sample_writer : FibWriter := mkFibWriter 254 20.
Definition sample_igp : RouteView := mkView 254 FamV4 2886729728 12 20 (Some 3232235777) false false.
Definition sample_kernel : KernelTables :=
  let write k x := fst (fib_writer_write sample_writer x k) in
  foldl write (<[view_key sample_igp := sample_igp]> ∅ : gmap RouteKey RouteView)
    [mkFibWrite FamV4 167772160 8 (Install 3232235777); mkFibWrite FamV4 3221225984 24 Blackhole;
     mkFibWrite FamV6 0 0 (Install 1)].

#[local] Ltac eval_entry H :=
  match type of H with
  | match ?l with _ => _ end =>
      let r := eval vm_compute in l in replace l with r in H by (vm_compute; reflexivity)
  end.
Lemma clean_up_exact_witness :
  let '(k', warned) := clean_up sample_writer sample_kernel in
  warned = Some [] /\ rt_lookup k' (254, FamV4, 167772160, 8, 20) = None
  /\ rt_lookup k' (254, FamV6, 0, 0, 20) = None
  /\ rt_lookup k' (254, FamV4, 2886729728, 12, 20) = Some sample_igp.
Proof.
  assert (W : snd (clean_up sample_writer sample_kernel) = Some []) by (vm_compute; reflexivity).
  pose proof (clean_up_exact sample_writer sample_kernel ltac:(done)) as H.
  destruct (clean_up sample_writer sample_kernel) as [k' warned]. cbn [snd] in W. subst warned.
  split; [done|].
  pose proof (H (254, FamV4, 167772160, 8, 20)) as H1. pose proof (H (254, FamV6, 0, 0, 20)) as H2.
  pose proof (H (254, FamV4, 2886729728, 12, 20)) as H3. clear H.
  eval_entry H1. eval_entry H2. eval_entry H3.
  split; [destruct H1 as [H1|[_ []%not_elem_of_nil]]; exact H1|].
  split; [destruct H2 as [H2|[_ []%not_elem_of_nil]]; exact H2|exact H3].
Defined.

(** After a restart with metric 30 the route of metric 20 is still there, and
    nothing is logged. *)
Lemma stale_other_metric_stays_witness :
  let w := mkFibWriter 254 30 in
  let v := mkView 254 FamV4 167772160 8 20 (Some 3232235777) true false in
  snd (clean_up w sample_kernel) = Some []
  /\ rt_lookup (fst (clean_up w sample_kernel)) (view_key v) = Some v.
Proof.
  intros w v. split; [vm_compute; reflexivity|].
  eapply (stale_other_metric_stays w sample_kernel v); [done|reflexivity|vm_compute; reflexivity|done..].
Defined.

(** The laws of the writer's kernel are met, so the FIB manager's theorems apply. *)
Lemma sample_write_ok x k : snd (fib_writer_write sample_writer x k) = RtOk.
Proof.
  destruct x as [f dst len [g| | |]]; try reflexivity; unfold fib_writer_write, withdraw_route,
    withdraw_blackhole_route; cbn [fw_op fw_family fw_dst fw_prefix_len].
  - cbn -[view]. destruct (ModelNetlink.lookup_view _ _) as [v|]; [|done]. by destruct (del_matches _ v).
  - cbn -[view]. destruct (ModelNetlink.lookup_view _ _) as [v|]; [|done]. by destruct (del_matches _ v).
Qed.
Lemma sample_writer_laws : @KernelRoutesLaws (writer_kernel sample_writer).
Proof. apply writer_kernel_laws; [done|apply sample_write_ok]. Qed.
End Witnesses.
