(* ===== verification/Metrics.v ===== *)
(** The daemon's metrics ([pathvectord/src/metrics.rs]) and where the event loop,
    the command processor, the origination of routes and the FIB writer report them
    ([daemon/mod.rs], [daemon/peer.rs], [daemon/origination.rs], [fib.rs]).

    The registry is the third-party crate [metrics]; what the daemon does is a
    sequence of [MetricCall]s, and the value of a gauge is the last one set plus
    what was added since ([gauge]).  Gauges are [f64]; every value here is a count
    far below 2^52 or a time, so [Z] stands for them.  The counters reported inside
    [handle_update] and [flush_updates] ([on_import_reject], [on_update_sent]) are
    modelled as functions, their call sites are not. *)
From Stdlib Require Import ZArith Lia Bool.
From stdpp Require Import base tactics numbers decidable gmap list.
From S2P Require Import Prelude Addr Types AsPath Wire Header Notification Open Update Fsm Session RouteMap Roa Policy Route DaemonPolicy BestPath LocRib RibTheorems AdjRib Outbound HandleUpdate ImportTheorems Deferral Capabilities DaemonState Propagate Graceful PeerLifecycle RouteUpdate EventLoop DaemonFacts DaemonInvariant DaemonTheorems PeerTheorems FibManager.
Open Scope Z_scope.

(** ** The series *)
Inductive ReasonLabel := LblUnclean | LblNotification | LblOperatorStop.
Inductive FibOp := OpInstall | OpBlackhole | OpWithdrawRoute | OpWithdrawBlackhole.
Inductive Gauge :=
| SessionUp (peer : IpAddr)
| SessionEstablishedTimestamp (peer : IpAddr)
| AdjRibInPrefixes (peer : IpAddr)
| AdjRibOutPrefixes (peer : IpAddr)
| LocRibPrefixes (afi : Family)
| OriginatedRoutes (afi : Family)
| FibRoutesInstalled (afi : Family).
Inductive Counter :=
| SessionsEstablishedTotal (peer : IpAddr)
| SessionsTerminatedTotal (peer : IpAddr) (reason : ReasonLabel)
| UpdatesReceivedTotal (peer : IpAddr)
| UpdatesSentTotal (peer : IpAddr)
| FibWriteFailuresTotal (afi : Family) (op : FibOp)
| ImportPolicyRejectedTotal (peer : IpAddr).
#[export] Instance ReasonLabel_eq_dec : EqDecision ReasonLabel.
Proof. solve_decision. Defined.
#[export] Instance FibOp_eq_dec : EqDecision FibOp.
Proof. solve_decision. Defined.
#[export] Instance Gauge_eq_dec : EqDecision Gauge.
Proof. solve_decision. Defined.
#[export] Instance Counter_eq_dec : EqDecision Counter.
Proof. solve_decision. Defined.

(** [gauge!(..).set(v)], [gauge!(..).increment(v)], [counter!(..).increment(n)] *)
Inductive MetricCall :=
| GaugeSet (g : Gauge) (v : Z)
| GaugeAdd (g : Gauge) (v : Z)
| CounterAdd (c : Counter) (n : Z).

(** ** [metrics.rs] *)
Definition register_peer (peer : IpAddr) : list MetricCall :=
  [GaugeSet (SessionUp peer) 0; GaugeSet (AdjRibInPrefixes peer) 0; GaugeSet (AdjRibOutPrefixes peer) 0].
Definition on_update_sent (peer : IpAddr) : list MetricCall := [CounterAdd (UpdatesSentTotal peer) 1].
(** [ts] is the system time in seconds. *)
Definition on_session_established (ts : Z) (peer : IpAddr) : list MetricCall :=
  [CounterAdd (SessionsEstablishedTotal peer) 1; GaugeSet (SessionUp peer) 1;
   GaugeSet (SessionEstablishedTimestamp peer) ts].
Definition reason_label (reason : TerminationReason) : ReasonLabel :=
  match reason with
  | TrUnclean => LblUnclean
  | TrNotification _ => LblNotification
  | TrOperatorStop => LblOperatorStop
  end.
Definition on_session_terminated (peer : IpAddr) (reason : TerminationReason) : list MetricCall :=
  [CounterAdd (SessionsTerminatedTotal peer (reason_label reason)) 1; GaugeSet (SessionUp peer) 0;
   GaugeSet (AdjRibInPrefixes peer) 0; GaugeSet (AdjRibOutPrefixes peer) 0].
Definition metric_route_update (peer : IpAddr) (adj_rib_in : nat) : list MetricCall :=
  [CounterAdd (UpdatesReceivedTotal peer) 1; GaugeSet (AdjRibInPrefixes peer) (Z.of_nat adj_rib_in)].
Definition update_originated_routes (originated_v4 originated_v6 : nat) : list MetricCall :=
  [GaugeSet (OriginatedRoutes FamV4) (Z.of_nat originated_v4);
   GaugeSet (OriginatedRoutes FamV6) (Z.of_nat originated_v6)].
Definition gauge_delta (op : FibOp) : Z :=
  match op with
  | OpInstall | OpBlackhole => 1
  | OpWithdrawRoute | OpWithdrawBlackhole => -1
  end.
Definition init_fib_routes_installed : list MetricCall :=
  [GaugeSet (FibRoutesInstalled FamV4) 0; GaugeSet (FibRoutesInstalled FamV6) 0].
Definition on_fib_write (afi : Family) (op : FibOp) (success : bool) : list MetricCall :=
  if success then [GaugeAdd (FibRoutesInstalled afi) (gauge_delta op)]
  else [CounterAdd (FibWriteFailuresTotal afi op) 1].
Definition on_import_reject (peer : IpAddr) (count : nat) : list MetricCall :=
  match count with O => [] | _ => [CounterAdd (ImportPolicyRejectedTotal peer) (Z.of_nat count)] end.

(** The value of a gauge after a sequence of calls; [None] if it was never set. *)
Definition gauge_step (g : Gauge) (v : option Z) (c : MetricCall) : option Z :=
  match c with
  | GaugeSet g' x => if decide (g = g') then Some x else v
  | GaugeAdd g' x => if decide (g = g') then Some (default 0 v + x) else v
  | CounterAdd _ _ => v
  end.
Definition gauge_from (g : Gauge) (v : option Z) (calls : list MetricCall) : option Z :=
  foldl (gauge_step g) v calls.
Definition gauge (g : Gauge) (calls : list MetricCall) : option Z := gauge_from g None calls.

(** ** Where they are called *)
Section Sites.
Context `{P : IpPrefixOps} {M : RouteMapOps} {HO : HashOrder}.

Definition update_rib_sizes (loc_rib_v4 loc_rib_v6 : nat) (prefixes_advertised : gmap IpAddr nat)
    : list MetricCall :=
  GaugeSet (LocRibPrefixes FamV4) (Z.of_nat loc_rib_v4) :: GaugeSet (LocRibPrefixes FamV6) (Z.of_nat loc_rib_v6)
  :: map (fun x : IpAddr * nat => GaugeSet (AdjRibOutPrefixes x.1) (Z.of_nat x.2))
       (hash_order (map_to_list prefixes_advertised)).
Definition rib_sizes (d : DaemonState) : list MetricCall :=
  update_rib_sizes (loc_rib_len (loc_rib (ds_v4 d))) (loc_rib_len (loc_rib (ds_v6 d)))
    (prefixes_advertised (ds_obs d)).
Definition originated_sizes (d : DaemonState) : list MetricCall :=
  update_originated_routes (size (originated_routes (ds_v4 d))) (size (originated_routes (ds_v6 d))).

(** [run_with], if the endpoint could be installed. *)
Definition install_metrics (peers : list PeerConfig) : list MetricCall :=
  concat (map (fun p => register_peer (pc_address p)) peers)
  ++ update_rib_sizes 0 0 ∅ ++ update_originated_routes 0 0 ++ init_fib_routes_installed.

(** The events drained after the first are not reported; the sizes are, unless a
    notification ends the iteration. *)
Definition finish_metrics (ck : Clocks) (q : list (IpAddr * SessionEvent)) (stops : gset IpAddr)
    (d : DaemonState) : list MetricCall :=
  match drain ck 1 q [] stops d with
  | Ok (d, _, _, None, _) => rib_sizes (flush_pending d)
  | _ => []
  end.
(** The event arm of [run_event_loop]. *)
Definition event_metrics (ts : Z) (ck : Clocks) (l : EventLoop) : list MetricCall :=
  let d := el_daemon l in let stops := el_stops l in
  match el_queue l with
  | [] => []
  | (ip, SeEstablished info) :: q =>
      if idle_held ip d then []
      else
        let d := on_established ip info (ck_now (ck 0%nat)) d in
        on_session_established ts ip ++ rib_sizes d ++ finish_metrics ck q stops d
  | (ip, SeTerminated reason) :: q => on_session_terminated ip reason
  | (ip, SeRouteUpdate msg) :: q =>
      match on_route_update ip (ck 0%nat) msg d with
      | Ok (d, err) =>
          metric_route_update ip (default 0%nat (prefixes_received (ds_obs d) !! ip))
          ++ match err with Some _ => [] | None => finish_metrics ck q stops d end
      | _ => []
      end
  end.
Definition loop_metrics (ts : Z) (l : EventLoop) (a : Arm) : list MetricCall :=
  match a with
  | ArmEvent ck => event_metrics ts ck l
  | ArmMraiTick now later =>
      let d := flush_pending (el_daemon l) in
      if has_mrai_pending d then rib_sizes (flush_pending (flush_mrai_pending now later d)) else []
  | ArmFibChanged _ | ArmGrDeadline _ | ArmDeferral | ArmIdleExpired _ => []
  end.
(** Every operation of the daemon: [AddPeer] registers the peer it adds, an
    origination reports its number. *)
Definition op_metrics (ts : Z) (l : EventLoop) (op : DaemonOp) : list MetricCall :=
  match op with
  | OpLoop a => loop_metrics ts l a
  | OpAddPeer _ _ peer _ =>
      match adj_ribs_in (ds_v4 (el_daemon l)) !! pc_address peer with
      | Some _ => []
      | None => register_peer (pc_address peer)
      end
  | OpOriginate _ _ _ | OpWithdraw _ _ _ =>
      match daemon_op l op with Ok (l', _) => originated_sizes (el_daemon l') | _ => [] end
  | _ => []
  end.
Fixpoint run_metrics (ts : nat -> Z) (l : EventLoop) (ops : list DaemonOp) : list MetricCall :=
  match ops with
  | [] => []
  | op :: ops =>
      op_metrics (ts 0%nat) l op
      ++ match daemon_op l op with
         | Ok (l', _) => run_metrics (fun n => ts (S n)) l' ops
         | _ => []
         end
  end.
End Sites.

(** [process_batch] of [fib.rs], with the outcome of each write. *)
Definition fib_op (op : Pending) : FibOp :=
  match op with
  | Install _ => OpInstall
  | Blackhole => OpBlackhole
  | Withdraw => OpWithdrawRoute
  | WithdrawBlackhole => OpWithdrawBlackhole
  end.
Definition batch_metrics (writes : list (FibWrite * bool)) : list MetricCall :=
  concat (map (fun x : FibWrite * bool => on_fib_write (fw_family x.1) (fib_op (fw_op x.1)) x.2) writes).

(** ** Sessions and originated routes along a run *)
Section Frames.
Context `{P : IpPrefixOps} {M : RouteMapOps} {HO : HashOrder}.

(** What the two exact gauges count. *)
Definition types (d : DaemonState) : gmap IpAddr PeerType := peer_types (ds_sess d).
Definition own (d : DaemonState) : gset (Nlri FamV4) * gset (Nlri FamV6) :=
  (originated_routes (ds_v4 d), originated_routes (ds_v6 d)).
Definition counted (d : DaemonState) := (types d, own d).

Lemma strip_counted d d' : strip d' = strip d -> counted d' = counted d.
Proof. intros H. exact (f_equal counted H). Qed.
(** An update of one family that leaves the originated routes alone. *)
Lemma upd_fam_counted {f} (g : Fam f -> Fam f) d :
  originated_routes (g (ds_fam d f)) = originated_routes (ds_fam d f) -> counted (upd_fam g d) = counted d.
Proof. unfold counted, own, types. destruct f; cbn; intros ->; done. Qed.

(** What a computation leaves of what is counted, if it ends. *)
Definition keeps {A B} (c : DaemonState -> B) (π : A -> DaemonState) (d : DaemonState) (r : Outcome False A) : Prop :=
  match r with Ok a => c (π a) = c d | _ => True end.
Lemma keeps_ok {A B} (c : DaemonState -> B) (π : A -> DaemonState) d a : c (π a) = c d -> keeps c π d (Ok a).
Proof. done. Qed.
Lemma keeps_bind {A A' B} (c : DaemonState -> B) (π : A -> DaemonState) (ρ : A' -> DaemonState) d r k :
  keeps c π d r -> (forall a, keeps c ρ (π a) (k a)) -> keeps c ρ d (a ← r; k a).
Proof.
  destruct r as [a| | |]; cbn; [|done..]. intros H Hk. specialize (Hk a).
  destruct (k a) as [b| | |]; cbn in *; [congruence|done..].
Qed.
Lemma keeps_from {A B} (c : DaemonState -> B) (π : A -> DaemonState) d d' r : c d' = c d ->
  keeps c π d' r -> keeps c π d r.
Proof. destruct r; cbn; congruence. Qed.
Lemma keeps_proj {A B C} (c : DaemonState -> B) (h : B -> C) (π : A -> DaemonState) d r :
  keeps c π d r -> keeps (fun d => h (c d)) π d r.
Proof. destruct r; cbn; congruence. Qed.

(** *** The mutations of the RIB *)
Lemma keeps_rib_insert {f} peer (r : Route f) d : keeps counted fst d (rib_insert peer r d).
Proof.
  unfold rib_insert. destruct (loc_rib_insert _ _ _ _) as [[lr c]| | |]; cbn; [|done..]. by apply upd_fam_counted.
Qed.
Lemma keeps_rib_withdraw {f} peer (n : Nlri f) d : keeps counted fst d (rib_withdraw peer n d).
Proof.
  unfold rib_withdraw. destruct (loc_rib_withdraw _ _ _ _) as [[lr c]| | |]; cbn; [|done..]. by apply upd_fam_counted.
Qed.
Lemma keeps_rib_withdraw_peer f peer d : keeps counted fst d (rib_withdraw_peer f peer d).
Proof.
  unfold rib_withdraw_peer. destruct (withdraw_peer _ _ _) as [[lr c]| | |]; cbn; [|done..]. by apply upd_fam_counted.
Qed.
Lemma keeps_recompute_all f d : keeps counted fst d (rib_recompute_all f d).
Proof.
  unfold rib_recompute_all. destruct (recompute_all _ _) as [[lr c]| | |]; cbn; [|done..]. by apply upd_fam_counted.
Qed.
Lemma keeps_insert_all {f} peer (rs : list (Route f)) : forall d, keeps counted fst d (rib_insert_all peer rs d).
Proof.
  induction rs as [|r rs IH]; intros d; [done|]. cbn [rib_insert_all].
  eapply keeps_bind; [apply keeps_rib_insert|]. intros [d1 c]. eapply keeps_bind; [apply IH|]. by intros [d2 cs].
Qed.
Lemma keeps_withdraw_all {f} peer (ns : list (Nlri f)) : forall d, keeps counted fst d (rib_withdraw_all peer ns d).
Proof.
  induction ns as [|n ns IH]; intros d; [done|]. cbn [rib_withdraw_all].
  eapply keeps_bind; [apply keeps_rib_withdraw|]. intros [d1 c]. eapply keeps_bind; [apply IH|]. by intros [d2 cs].
Qed.

(** *** Tables of one peer *)
Lemma counted_clear_in f ip d : counted (clear_in f ip d) = counted d.
Proof. unfold clear_in. destruct (adj_ribs_in _ !! ip); [by apply upd_fam_counted|done]. Qed.
Lemma counted_set_deferral sd d : counted (set_deferral sd d) = counted d.
Proof. done. Qed.
Lemma counted_recompute d : counted (recompute_selection_deferral d) = counted d.
Proof.
  destruct (strip_recompute d) as [sd E]. by rewrite (strip_counted _ _ E).
Qed.

(** Both at once: what [strip] leaves, by the [strip] rewriting. *)
Ltac by_strip := unfold id; apply strip_counted; autorewrite with strip; reflexivity.
(** One computation step inside [keeps]. *)
Ltac keep l := eapply keeps_bind; [apply l|].

Lemma keeps_prune {f} ip (s : gset (Nlri f)) d : keeps counted id d (prune_stale_nlri ip s d).
Proof.
  unfold prune_stale_nlri. set (l := hash_order (elements s)). cbv zeta.
  set (d1 := match adj_ribs_in (ds_fam d f) !! ip with Some _ => _ | None => d end).
  assert (E1 : counted d1 = counted d).
  { unfold d1. destruct (adj_ribs_in _ !! ip); [|done]. etransitivity; [by apply upd_fam_counted|]. by_strip. }
  apply (keeps_from _ _ _ d1); [done|]. keep @keeps_withdraw_all.
  intros [d2 cs]. apply keeps_ok. cbn [fst]. by_strip.
Qed.
Lemma keeps_end_of_rib f ip d : keeps counted id d (end_of_rib f ip d).
Proof.
  unfold end_of_rib. cbv zeta. set (d1 := upd_fam _ d).
  apply (keeps_from _ _ _ d1); [by apply upd_fam_counted|]. eapply (keeps_bind _ id).
  - destruct (stale_nlri _ !! ip) as [s|]; [|done]. set (d2 := remove_stale f ip d1).
    apply (keeps_from _ _ _ d2); [by apply upd_fam_counted|]. destruct (bool_decide _); [done|apply keeps_prune].
  - intros d2. apply keeps_ok, counted_recompute.
Qed.
Lemma keeps_mark_stale f ip d : keeps counted id d (mark_stale f ip d).
Proof.
  unfold mark_stale. destruct (adj_ribs_in _ !! ip) as [t|]; [|done].
  destruct (mark_all_stale t) as [t' stale]. cbv zeta. set (d1 := upd_fam _ d).
  apply (keeps_from _ _ _ d1); [by apply upd_fam_counted|]. destruct stale as [|r rs]; [done|].
  keep @keeps_insert_all. intros [d2 cs]. apply keeps_ok. cbn [fst]. by_strip.
Qed.
Lemma keeps_mark_both ip b4 b6 d : keeps counted id d (mark_stale_and_repropagate ip b4 b6 d).
Proof.
  unfold mark_stale_and_repropagate. eapply (keeps_bind _ id); [destruct b4; [apply keeps_mark_stale|done]|].
  intros d1. destruct b6; [apply keeps_mark_stale|done].
Qed.
(** The end of a session or of a restart window: both withdraw the peer from the
    RIBs of both families and go on with something [strip] leaves alone. *)
Lemma keeps_withdrawn ip d (k : DaemonState -> list (BestPathChange FamV4) ->
    list (BestPathChange FamV6) -> DaemonState) :
  (forall d cs cs6, counted (k d cs cs6) = counted d) ->
  keeps counted id d ('(d, cs) ← rib_withdraw_peer FamV4 ip d; '(d, cs6) ← rib_withdraw_peer FamV6 ip d;
                      Ok (k d cs cs6)).
Proof.
  intros Hk. keep keeps_rib_withdraw_peer. intros [d1 cs]. keep keeps_rib_withdraw_peer.
  intros [d2 cs6]. apply keeps_ok, Hk.
Qed.
Lemma keeps_deadline ip d : keeps counted id d (on_gr_deadline_expired ip d).
Proof.
  unfold on_gr_deadline_expired. cbv zeta.
  set (d1 := withdraw_peer_blackhole_kernel_routes FamV4 ip _).
  set (d2 := clear_in FamV6 ip _).
  apply (keeps_from _ _ _ d2).
  - unfold d2. rewrite !counted_clear_in.
    etransitivity; [apply strip_counted, strip_blackhole|]. unfold d1.
    etransitivity; [apply strip_counted, strip_blackhole|]. unfold remove_stale.
    etransitivity; by apply upd_fam_counted.
  - eapply (keeps_withdrawn ip d2 (fun d cs cs6 => _)). intros d3 cs cs6. by_strip.
Qed.
Lemma keeps_terminate_clean ip d : keeps counted id d (terminate_clean ip d).
Proof.
  unfold terminate_clean. cbv zeta. set (d2 := clear_in FamV6 ip _). apply (keeps_from _ _ _ d2).
  - unfold d2. rewrite !counted_clear_in. by_strip.
  - eapply (keeps_withdrawn ip d2 (fun d cs cs6 => _)). intros d3 cs cs6. by_strip.
Qed.
Lemma keeps_terminate_gr ip secs now d : keeps counted id d (terminate_gr ip secs now d).
Proof.
  unfold terminate_gr. cbv zeta. set (d2 := set_deadlines _ _). apply (keeps_from _ _ _ d2); [|apply keeps_mark_both].
  unfold d2. assert (E : forall f d, counted (flush_uncovered f ip d) = counted d).
  { intros f d0. unfold flush_uncovered. rewrite counted_clear_in. apply strip_counted, strip_blackhole. }
  change (counted (set_deadlines ?m ?x)) with (counted x).
  destruct (has_family _ _), (has_family _ _); by rewrite ?E.
Qed.

(** *** Route updates and policies *)
Lemma counted_refresh {f} ip (l : list (Nlri f)) d : counted (refresh_stale ip l d) = counted d.
Proof. unfold refresh_stale. destruct (stale_nlri _ !! ip); [by apply upd_fam_counted|done]. Qed.
Lemma counted_after_update ip ck msg s4 s6 note d : counted (fst (after_update ip ck msg s4 s6 note d)) = counted d.
Proof.
  unfold after_update. destruct (exceeds _ _ || exceeds _ _); cbn [fst].
  - unfold hold_idle. by destruct (peer_max_prefixes_restart _ !! ip).
  - unfold fib_update. destruct (nonempty _); by_strip.
Qed.
Lemma keeps_import ip ck msg d : keeps counted fst d (import_update ip ck msg d).
Proof.
  unfold import_update. destruct (import_policies _ !! ip) as [pol|]; [|done].
  destruct (import_policies_v6 _ !! ip) as [pol6|]; [|done]. destruct (adj_ribs_in _ !! ip) as [t4|]; [|done].
  cbv zeta. set (d1 := refresh_stale ip (mp_reach_v6 _) _).
  apply (keeps_from _ _ _ d1); [unfold d1; by rewrite !counted_refresh|].
  destruct (handle_update _ _ _ _ _ _) as [[[s4 s6] note]| | |]; cbn [mbind outcome_bind]; [|done..].
  apply keeps_ok. rewrite counted_after_update. etransitivity; by apply upd_fam_counted.
Qed.
Lemma keeps_route_update ip ck msg d : keeps counted fst d (on_route_update ip ck msg d).
Proof.
  unfold on_route_update. destruct (is_eor_v4 msg); [keep keeps_end_of_rib; done|].
  destruct (is_eor_v6 msg); [keep keeps_end_of_rib; done|].
  destruct (rr_inbound ip d msg); [apply keeps_import|done].
Qed.
Lemma keeps_reevaluate_family {f} ip now d : keeps counted id d (reevaluate_family (f:=f) ip now d).
Proof.
  unfold reevaluate_family. destruct (adj_ribs_in _ !! ip) as [t|]; [|done].
  destruct (import_policy _ f !! ip) as [pol|]; [|done].
  destruct (reapply_import_policy _ _ _ _ _) as [[lr cs]| | |]; cbn [mbind outcome_bind]; [|done..].
  apply keeps_ok. unfold id. etransitivity; [by_strip|]. by apply upd_fam_counted.
Qed.
Lemma keeps_reevaluate ip now d : keeps counted id d (reevaluate_import_for_peer ip now d).
Proof. unfold reevaluate_import_for_peer. keep @keeps_reevaluate_family. intros. apply keeps_reevaluate_family. Qed.
Lemma keeps_reevaluate_peers ips now : forall d, keeps counted id d (reevaluate_peers ips now d).
Proof.
  induction ips as [|ip ips IH]; intros d; [done|]. cbn [reevaluate_peers]. keep keeps_reevaluate. intros d1. apply IH.
Qed.
Lemma keeps_reevaluate_all now d : keeps counted id d (reevaluate_all_import_policies now d).
Proof.
  unfold reevaluate_all_import_policies. keep keeps_reevaluate_peers. intros d1. apply keeps_ok. by_strip.
Qed.
Lemma keeps_import_default ip a now d : keeps counted id d (set_import_default ip a now d).
Proof.
  unfold set_import_default. destruct (import_policies _ !! ip); [|done]. destruct (import_policies_v6 _ !! ip); [|done].
  set (d1 := set_policies _ d). apply (keeps_from _ _ _ d1); [done|]. keep keeps_reevaluate. intros d2.
  apply keeps_ok. by_strip.
Qed.
Lemma counted_reexport f ip pt d : counted (reexport_family f ip pt d) = counted d.
Proof. apply strip_counted, strip_reexport. Qed.
Lemma keeps_export_default ip a d : keeps counted id d (set_export_default ip a d).
Proof.
  unfold set_export_default. destruct (export_policies _ !! ip); [|done]. destruct (export_policies_v6 _ !! ip); [|done].
  cbv zeta. destruct (peer_types _ !! ip); [|done]. apply keeps_ok. unfold id.
  etransitivity; [by_strip|]. destruct (capable _ _ ip); by rewrite !counted_reexport.
Qed.

(** *** The other arms of the loop *)
Lemma keeps_fib_change now d : keeps counted id d (on_fib_change now d).
Proof.
  unfold on_fib_change. keep keeps_recompute_all. intros [d1 c4]. keep keeps_recompute_all. intros [d2 c6].
  cbv zeta. apply keeps_ok. cbn [fst]. destruct (nonempty _), (nonempty _); by_strip.
Qed.
Lemma keeps_expire_all ips : forall d, keeps counted id d (expire_all ips d).
Proof.
  induction ips as [|ip ips IH]; intros d; [done|]. cbn [expire_all]. keep keeps_deadline. intros d1. apply IH.
Qed.
Lemma counted_force_release d : counted (force_release_selection_deferral d) = counted d.
Proof.
  unfold force_release_selection_deferral. destruct (force_release _) as [sd released].
  etransitivity; [apply strip_counted, strip_catch_up|done].
Qed.
Lemma counted_flush_and_take d : counted (fst (flush_and_take d)) = counted d.
Proof. unfold flush_and_take. apply strip_counted. cbn. apply strip_flush_pending. Qed.

(** *** Sessions come and go *)
Lemma counted_snapshot f ip d : counted (snapshot_stale f ip d) = counted d.
Proof. unfold snapshot_stale. destruct (bool_decide _); [done|by apply upd_fam_counted]. Qed.
Lemma counted_remove_eor f ip d : counted (remove_eor f ip d) = counted d.
Proof. by apply upd_fam_counted. Qed.
Lemma counted_capabilities ip caps d : counted (set_capabilities_of ip caps d) = counted d.
Proof. done. Qed.
Lemma counted_gr_capability ip caps d : counted (set_gr_capability_of ip caps d) = counted d.
Proof.
  unfold set_gr_capability_of. destruct (extract_gr_capability caps) as [[[[adv time] fams] n] r].
  by destruct time.
Qed.
Lemma counted_dump f ip d : counted (fst (dump_family f ip d)) = counted d.
Proof. apply strip_counted, strip_dump_family. Qed.
Lemma counted_established ip info now d :
  counted (on_established ip info now d) = (<[ip := si_peer_type info]> (types d), own d).
Proof.
  unfold on_established. cbv zeta. set (d0 := set_deadlines _ d).
  set (b4 := _ && has_family IPV4_UNICAST _). set (b6 := _ && has_family IPV6_UNICAST _).
  set (d1 := remove_eor FamV6 ip (remove_eor FamV4 ip _)).
  assert (E1 : counted d1 = counted d).
  { unfold d1. rewrite !counted_remove_eor. destruct b4, b6; rewrite ?counted_snapshot; done. }
  set (d2 := enter_session ip info now d1).
  assert (E2 : counted d2 = (<[ip := si_peer_type info]> (types d), own d)).
  { clearbody d1. unfold counted, types, own in *. injection E1 as H1 H2 H3. unfold d2, enter_session. cbn.
    by rewrite H1, H2, H3. }
  set (d3 := if b6 then reset_aro FamV4 ip (si_peer_type info) d2 else _).
  assert (E3 : counted d3 = counted d2).
  { unfold d3. destruct b6; [|etransitivity; [by apply upd_fam_counted|]]; apply strip_counted, strip_reset_aro. }
  set (d4 := set_aro ip _ d3). assert (E4 : counted d4 = counted d3) by apply strip_counted, strip_set_aro.
  rewrite <- E2, <- E3, <- E4. clearbody d4. clear.
  destruct (export_policies _ !! ip); [|done]. destruct (adj_ribs_out _ !! ip); [|done].
  destruct (update_senders _ !! ip); [|done]. rewrite counted_recompute, counted_gr_capability.
  set (d5 := set_capabilities_of ip _ d4). transitivity (counted d5); [|done].
  destruct (v4_deferred _), (v6_deferred _); by rewrite ?counted_dump.
Qed.
Lemma counted_leave ip d : counted (leave_session ip d) = (delete ip (types d), own d).
Proof.
  unfold leave_session. cbv zeta. set (d1 := set_sess _ d). set (d2 := set_obs _ d1).
  set (d3 := remove_eor FamV6 ip (remove_eor FamV4 ip d2)).
  transitivity (counted d3); [by_strip|]. unfold d3. by rewrite !counted_remove_eor.
Qed.
Lemma terminated_counted ip reason now stops d d' stops' removed :
  terminated ip reason now stops d = Ok (d', stops', removed) -> counted d' = (delete ip (types d), own d).
Proof.
  unfold terminated. set (d1 := unmark_removal ip d).
  assert (K : keeps counted id (leave_session ip d1) (on_terminated ip reason now d1)).
  { unfold on_terminated. destruct (enter_gr _ _ _); [apply keeps_terminate_gr|apply keeps_terminate_clean]. }
  destruct (on_terminated ip reason now d1) as [d2| | |]; cbn [mbind outcome_bind]; [|done..].
  pose proof (eq_trans K (counted_leave ip d1)) as E. clear K.
  change (counted d2 = (delete ip (types d), own d)) in E.
  destruct (bool_decide _); intros [= <- _ _]; [|done].
  unfold remove_peer. destruct (adj_ribs_in _ !! ip); [|done]. cbn [fst]. rewrite counted_recompute.
  clear -E. unfold counted, types, own in *. injection E as H1 H2 H3. cbn. rewrite H1, H2, H3. by rewrite delete_delete_eq.
Qed.

(** Draining route updates only. *)
Definition is_update (x : IpAddr * SessionEvent) : bool :=
  match snd x with SeRouteUpdate _ => true | _ => false end.
Lemma drain_counted ck q : forall i idle stops d, forallb is_update q = true ->
  keeps counted (fun x => x.1.1.1.1) d (drain ck i q idle stops d).
Proof.
  induction q as [|[ip e] q IH]; intros i idle stops d Hq; [done|].
  apply andb_true_iff in Hq as [He Hq]. destruct e as [| |msg]; try done. cbn [drain].
  keep keeps_route_update. intros [d1 err]. destruct err; [done|]. by apply IH.
Qed.
End Frames.

(** ** Exact gauges *)
Section Exact.
Context `{P : IpPrefixOps} {M : RouteMapOps} {HO : HashOrder}.

Definition touches (g : Gauge) (c : MetricCall) : bool :=
  match c with GaugeSet g' _ | GaugeAdd g' _ => bool_decide (g = g') | CounterAdd _ _ => false end.
Lemma gauge_app g a b : gauge g (a ++ b) = gauge_from g (gauge g a) b.
Proof. unfold gauge, gauge_from. by rewrite foldl_app. Qed.
Lemma gauge_untouched g v calls : existsb (touches g) calls = false -> gauge_from g v calls = v.
Proof.
  revert v. induction calls as [|c calls IH]; intros v H; [done|]. cbn [existsb] in H.
  apply orb_false_iff in H as [Hc H]. unfold gauge_from in *. cbn [foldl]. rewrite IH by done.
  destruct c as [g' x|g' x|]; cbn in *; [| |done]; apply bool_decide_eq_false in Hc; by rewrite decide_False.
Qed.

Definition session_up (t : gmap IpAddr PeerType) (ip : IpAddr) : Z :=
  match t !! ip with Some _ => 1 | None => 0 end.
(** The gauges of the sessions and of the originated routes tell the state. *)
Record gauges_exact (c : gmap IpAddr PeerType * (gset (Nlri FamV4) * gset (Nlri FamV6)))
    (calls : list MetricCall) : Prop := {
  ge_up : forall ip, default 0 (gauge (SessionUp ip) calls) = session_up c.1 ip;
  ge_v4 : gauge (OriginatedRoutes FamV4) calls = Some (Z.of_nat (size c.2.1));
  ge_v6 : gauge (OriginatedRoutes FamV6) calls = Some (Z.of_nat (size c.2.2));
}.

(** Calls that touch none of them. *)
Definition other_call (c : MetricCall) : bool :=
  match c with
  | GaugeSet g _ | GaugeAdd g _ =>
      match g with SessionUp _ | OriginatedRoutes _ => false | _ => true end
  | CounterAdd _ _ => true
  end.
Lemma other_untouched g calls : forallb other_call calls = true ->
  match g with SessionUp _ | OriginatedRoutes _ => existsb (touches g) calls = false | _ => True end.
Proof.
  intros H. assert (G : match g with SessionUp _ | OriginatedRoutes _ => True | _ => False end ->
    existsb (touches g) calls = false); [|destruct g; auto].
  intros Hg. apply not_true_is_false. rewrite existsb_exists. intros (c & Hin & Hc).
  rewrite forallb_forall in H. specialize (H c Hin).
  destruct c as [g' x|g' x|]; cbn in *; [| |done]; apply bool_decide_eq_true in Hc; subst g'; by destruct g.
Qed.
Lemma exact_other c calls more : gauges_exact c calls -> forallb other_call more = true ->
  gauges_exact c (calls ++ more).
Proof.
  intros [H1 H2 H3] Hm. split; [intros ip|..]; rewrite gauge_app, gauge_untouched; try done;
    [exact (other_untouched (SessionUp ip) _ Hm)|exact (other_untouched (OriginatedRoutes FamV4) _ Hm)
    |exact (other_untouched (OriginatedRoutes FamV6) _ Hm)].
Qed.
Lemma other_rib_sizes d : forallb other_call (rib_sizes d) = true.
Proof.
  unfold rib_sizes, update_rib_sizes. cbn [forallb other_call andb]. rewrite forallb_forall.
  intros c Hc. by apply in_map_iff in Hc as ([ip n] & <- & _).
Qed.
Lemma other_finish ck q stops d : forallb other_call (finish_metrics ck q stops d) = true.
Proof.
  unfold finish_metrics. destruct (drain _ _ _ _ _ _) as [[[[[d' s] i] [e|]] q']| | |]; try done.
  apply other_rib_sizes.
Qed.

(** The gauge of one session set; the others stay. *)
Lemma gauge_up_set ip ip' v x more : existsb (touches (SessionUp ip')) more = false ->
  gauge_from (SessionUp ip') v (GaugeSet (SessionUp ip) x :: more)
  = if decide (ip' = ip) then Some x else v.
Proof.
  intros H. change (gauge_from (SessionUp ip')
    (if decide (SessionUp ip' = SessionUp ip) then Some x else v) more = if decide (ip' = ip) then Some x else v).
  rewrite gauge_untouched by done. destruct (decide (ip' = ip)) as [->|Hn]; [by rewrite decide_True|].
  rewrite decide_False; [done|]. by intros [= ?].
Qed.
Lemma exact_set_up t t' o calls ip x first more : gauges_exact (t, o) calls ->
  forallb other_call first = true -> forallb other_call more = true ->
  session_up t' ip = x -> (forall ip', ip' <> ip -> session_up t' ip' = session_up t ip') ->
  gauges_exact (t', o) (calls ++ first ++ GaugeSet (SessionUp ip) x :: more).
Proof.
  intros H Hf Hm Hx Ho. apply (exact_other _ _ first) in H as [H1 H2 H3]; [|done].
  rewrite app_assoc. split; cbn [fst snd] in *.
  - intros ip'. rewrite gauge_app, gauge_up_set by exact (other_untouched (SessionUp ip') _ Hm).
    destruct (decide (ip' = ip)) as [->|Hn]; [done|]. by rewrite H1, Ho.
  - rewrite gauge_app. rewrite gauge_untouched; [done|]. cbn.
    exact (other_untouched (OriginatedRoutes FamV4) _ Hm).
  - rewrite gauge_app. rewrite gauge_untouched; [done|]. cbn.
    exact (other_untouched (OriginatedRoutes FamV6) _ Hm).
Qed.
Lemma exact_originated t o o' calls : gauges_exact (t, o) calls ->
  gauges_exact (t, o') (calls ++ update_originated_routes (size o'.1) (size o'.2)).
Proof.
  intros [H1 H2 H3]. split; cbn [fst snd] in *; [intros ip|..]; rewrite gauge_app; [|done..].
  by rewrite gauge_untouched.
Qed.

(** ** Steps *)

(** Events are reported one by one, and a peer that is added has no session. *)
Definition reported (l : EventLoop) (op : DaemonOp) : Prop :=
  match op with
  | OpLoop (ArmEvent _) => forallb is_update (tail (el_queue l)) = true
  | OpAddPeer _ _ peer _ =>
      adj_ribs_in (ds_v4 (el_daemon l)) !! pc_address peer = None -> types (el_daemon l) !! pc_address peer = None
  | _ => True
  end.
Fixpoint all_reported (l : EventLoop) (ops : list DaemonOp) : Prop :=
  match ops with
  | [] => True
  | op :: ops => reported l op
      /\ match daemon_op l op with Ok (l', _) => all_reported l' ops | _ => True end
  end.

Lemma finish_counted ck q stops d l' out : forallb is_update q = true ->
  finish ck q stops d = Ok (l', out) -> counted (el_daemon l') = counted d.
Proof.
  intros Hq. unfold finish. pose proof (drain_counted ck q 1 [] stops d Hq) as K.
  destruct (drain _ _ _ _ _ _) as [[[[[d1 s] i] e] q']| | |]; cbn [mbind outcome_bind]; [|done..].
  cbn [keeps fst snd] in K. pose proof (counted_flush_and_take d1) as F.
  destruct e as [[ip e]|].
  - unfold notify. destruct (flush_and_take d1) as [d2 st]. intros [= <- _]. cbn in *. congruence.
  - destruct (flush_and_take d1) as [d2 st]. intros [= <- _]. cbn in *. congruence.
Qed.
Lemma event_exact ts ck l l' out calls : forallb is_update (tail (el_queue l)) = true ->
  event_arm ck l = Ok (l', out) -> gauges_exact (counted (el_daemon l)) calls ->
  gauges_exact (counted (el_daemon l')) (calls ++ event_metrics ts ck l).
Proof.
  intros Hq. unfold event_arm, event_metrics. destruct (el_queue l) as [|[ip [info|reason|msg]] q]; cbn [tail] in Hq.
  - intros [= <- _] H. by rewrite app_nil_r.
  - destruct (idle_held ip (el_daemon l)); [intros [= <- _] H; by rewrite app_nil_r|].
    intros E H. rewrite (finish_counted _ _ _ _ _ _ Hq E), counted_established.
    eapply (exact_set_up _ _ _ _ ip 1 [_] (_ :: rib_sizes _ ++ finish_metrics _ _ _ _)); [exact H|done| | |].
    + cbn [forallb other_call andb]. by rewrite forallb_app, other_rib_sizes, other_finish.
    + unfold session_up. by rewrite lookup_insert_eq.
    + intros ip' Hn. unfold session_up. by rewrite lookup_insert_ne.
  - destruct (terminated ip reason _ _ _) as [[[d1 s1] rm]| | |] eqn:E; cbn [mbind outcome_bind]; [|done..].
    intros [= <- _] H. cbn [el_daemon]. rewrite (terminated_counted _ _ _ _ _ _ _ _ E).
    eapply (exact_set_up _ _ _ _ ip 0 [_] [_; _]); [exact H|done|done| |].
    + unfold session_up. by rewrite lookup_delete_eq.
    + intros ip' Hn. unfold session_up. by rewrite lookup_delete_ne.
  - pose proof (keeps_route_update ip (ck 0%nat) msg (el_daemon l)) as K.
    destruct (on_route_update _ _ _ _) as [[d1 err]| | |]; cbn [mbind outcome_bind]; [|done..].
    cbn [keeps fst] in K. rewrite <- K. clear K. intros E H. rewrite app_assoc.
    pose proof (exact_other _ _ (metric_route_update ip
      (default 0%nat (prefixes_received (ds_obs d1) !! ip))) H eq_refl) as H'. destruct err as [err|].
    + rewrite app_nil_r. pose proof (counted_flush_and_take d1) as F. unfold notify in E.
      destruct (flush_and_take d1) as [d2 st]. injection E as <- _. cbn [fst el_daemon] in *. by rewrite F.
    + rewrite (finish_counted _ _ _ _ _ _ Hq E). apply exact_other; [exact H'|apply other_finish].
Qed.

Lemma keeps_originate_each {f} (rs : list (Route f)) : forall d,
  keeps types id d (originate_each rs d).
Proof.
  induction rs as [|r rs IH]; intros d; [done|]. cbn [originate_each]. eapply (keeps_bind types id); [|intros d1; apply IH].
  unfold originate_one. cbv zeta. set (d0 := send_event _ _).
  apply (keeps_from _ _ _ d0); [by destruct f|].
  eapply keeps_bind; [apply (keeps_proj counted fst), keeps_rib_insert|]. intros [d1 c]. destruct f; [done|].
  apply keeps_ok. exact (f_equal fst (strip_counted _ _ (strip_fib_apply [c] d1))).
Qed.
Lemma keeps_withdraw_each {f} (ns : list (Nlri f)) : forall d,
  keeps types id d (withdraw_originated_each ns d).
Proof.
  induction ns as [|n ns IH]; intros d; [done|]. cbn [withdraw_originated_each].
  eapply (keeps_bind types id); [|intros d1; apply IH].
  unfold withdraw_originated_one. cbv zeta. set (d0 := upd_fam _ d).
  apply (keeps_from _ _ _ d0); [by destruct f|].
  eapply keeps_bind; [apply (keeps_proj counted fst), keeps_rib_withdraw|]. intros [d1 c].
  apply keeps_ok. exact (f_equal fst (strip_counted _ _ (strip_fib_apply [c] d1))).
Qed.
(** An origination and the withdrawal of one: the sessions stay, and the number of
    originated routes is reported as it now is. *)
Lemma originated_exact (r : Outcome False DaemonState) (l l' : EventLoop) out calls :
  keeps types id (el_daemon l) r -> (d ← r; Ok (set_daemon l d, [] : Output)) = Ok (l', out) ->
  gauges_exact (counted (el_daemon l)) calls ->
  gauges_exact (counted (el_daemon l')) (calls ++ originated_sizes (el_daemon l')).
Proof.
  destruct r as [d| | |]; cbn [mbind outcome_bind]; [|done..]. intros K [= <- _] H. cbn [el_daemon set_daemon].
  unfold counted. replace (types d) with (types (el_daemon l)) by (symmetry; exact K).
  exact (exact_originated _ _ (own d) _ H).
Qed.
Lemma types_propagate {f} now (ns : list (Nlri f)) d : types (flush_pending (propagate_to_all_peers now ns d)) = types d.
Proof.
  assert (E : strip (flush_pending (propagate_to_all_peers now ns d)) = strip d) by by autorewrite with strip.
  exact (f_equal fst (strip_counted _ _ E)).
Qed.
Lemma state_exact (r : Outcome False DaemonState) (l l' : EventLoop) out calls :
  keeps counted id (el_daemon l) r -> (d ← r; Ok (set_daemon l d, [] : Output)) = Ok (l', out) ->
  gauges_exact (counted (el_daemon l)) calls -> gauges_exact (counted (el_daemon l')) (calls ++ []).
Proof.
  destruct r as [d| | |]; cbn [mbind outcome_bind]; [|done..]. intros K [= <- _] H. rewrite app_nil_r.
  cbn [el_daemon set_daemon]. cbn [keeps] in K. unfold id in K. by rewrite K.
Qed.
Lemma counted_mrai now later d : counted (flush_mrai_pending now later d) = counted d.
Proof. apply strip_counted, strip_flush_mrai. Qed.
Lemma loop_exact ts a l l' out calls : reported l (OpLoop a) -> loop_step l a = Ok (l', out) ->
  gauges_exact (counted (el_daemon l)) calls ->
  gauges_exact (counted (el_daemon l')) (calls ++ loop_metrics ts l a).
Proof.
  intros Hr E H. destruct a as [ck|ck|now| |now|now later]; cbn [loop_step loop_metrics] in *.
  - by eapply event_exact.
  - rewrite app_nil_r. pose proof (keeps_fib_change (ck_peer ck) (el_daemon l)) as K.
    destruct (on_fib_change _ _) as [d1| | |]; cbn [mbind outcome_bind] in E; [|done..].
    pose proof (counted_flush_and_take d1) as F. destruct (flush_and_take d1) as [d2 st].
    injection E as <- _. cbn in *. unfold id in K. by rewrite F, K.
  - rewrite app_nil_r. destruct (drain_expired now (ds_gr (el_daemon l))) as [g ips].
    pose proof (keeps_expire_all ips (set_gr g (el_daemon l))) as K.
    destruct (expire_all _ _) as [d1| | |]; cbn [mbind outcome_bind] in E; [|done..].
    cbn [keeps] in K. unfold id in K.
    assert (E' : counted (el_daemon l') = counted d1) by (destruct ips; injection E as <- _; done).
    by rewrite E', K.
  - rewrite app_nil_r. set (d1 := force_release_selection_deferral (el_daemon l)) in *.
    pose proof (counted_flush_and_take d1) as F. destruct (flush_and_take d1) as [d2 st].
    injection E as <- _. cbn [fst el_daemon] in *. rewrite F. unfold d1. by rewrite counted_force_release.
  - injection E as <- _. by rewrite app_nil_r.
  - set (d1 := flush_pending (el_daemon l)) in *.
    assert (E1 : counted d1 = counted (el_daemon l)) by apply strip_counted, strip_flush_pending.
    destruct (has_mrai_pending d1).
    + pose proof (counted_flush_and_take (flush_mrai_pending now later d1)) as F.
      destruct (flush_and_take _) as [d2 st]. injection E as <- _. cbn [fst el_daemon] in *.
      rewrite F, counted_mrai, E1. apply exact_other; [done|apply other_rib_sizes].
    + injection E as <- _. rewrite app_nil_r. cbn [el_daemon]. by rewrite E1.
Qed.
Lemma op_exact ts op l l' out calls : reported l op -> daemon_op l op = Ok (l', out) ->
  gauges_exact (counted (el_daemon l)) calls ->
  gauges_exact (counted (el_daemon l')) (calls ++ op_metrics ts l op).
Proof.
  intros Hr E H. destruct op as [a|ip e|o4 o6|rtr|now|sc now peer tx|ip|f rs now|f ns now|ip a now|ip a];
    cbn [daemon_op op_metrics] in *.
  - by eapply loop_exact.
  - injection E as <- _. by rewrite app_nil_r.
  - injection E as <- _. by rewrite app_nil_r.
  - injection E as <- _. by rewrite app_nil_r.
  - eapply state_exact; [|exact E|exact H]. apply keeps_reevaluate_all.
  - injection E as <- _. unfold add_peer_command. cbn [reported] in Hr.
    destruct (adj_ribs_in _ !! _) eqn:Ea; [by rewrite app_nil_r|]. cbn [fst el_daemon].
    replace (counted (fst (add_peer peer tx (el_daemon l)))) with (counted (el_daemon l)).
    2:{ unfold add_peer. by rewrite Ea. }
    eapply (exact_set_up _ _ _ _ (pc_address peer) 0 [] [_; _]); [exact H|done..| |done].
    unfold session_up. by rewrite Hr.
  - rewrite app_nil_r. assert (El : l' = fst (remove_peer_command ip l)) by (destruct (remove_peer_command ip l); by injection E). rewrite El. unfold remove_peer_command.
    destruct (adj_ribs_in _ !! _); [|done]. by destruct (bool_decide _).
  - rewrite E. eapply originated_exact; [|exact E|exact H]. unfold originate_routes.
    eapply (keeps_bind types id); [apply keeps_originate_each|]. intros d1. apply keeps_ok, types_propagate.
  - rewrite E. eapply originated_exact; [|exact E|exact H]. unfold withdraw_originated_routes.
    eapply (keeps_bind types id); [apply keeps_withdraw_each|]. intros d1. apply keeps_ok, types_propagate.
  - eapply state_exact; [|exact E|exact H]. apply keeps_import_default.
  - eapply state_exact; [|exact E|exact H]. apply keeps_export_default.
Qed.
Lemma run_exact ops : forall ts l l' out calls, all_reported l ops -> daemon_run l ops = Ok (l', out) ->
  gauges_exact (counted (el_daemon l)) calls ->
  gauges_exact (counted (el_daemon l')) (calls ++ run_metrics ts l ops).
Proof.
  induction ops as [|op ops IH]; intros ts l l' out calls Hr E H; cbn [daemon_run run_metrics all_reported] in *.
  - injection E as <- _. by rewrite app_nil_r.
  - destruct Hr as [Hr Hrs]. pose proof (op_exact (ts 0%nat) op l) as Hop.
    destruct (daemon_op l op) as [[l1 out1]| | |]; cbn [mbind outcome_bind] in E; [|done..].
    specialize (Hop l1 out1 calls Hr eq_refl H). rewrite app_assoc.
    pose proof (IH (fun n => ts (S n)) l1) as Hrun.
    destruct (daemon_run l1 ops) as [[l2 out2]| | |]; cbn [mbind outcome_bind] in E; [|done..].
    injection E as <- _. by eapply Hrun.
Qed.
End Exact.

(** ** Theorems *)
Section Claims.
Context `{P : IpPrefixOps} {M : RouteMapOps} {HO : HashOrder}.
Context {L : IpPrefixLaws} {ML : RouteMapLaws} {HL : HashOrderLaw}.

Lemma install_exact peers : gauges_exact (∅, (∅, ∅)) (install_metrics peers).
Proof.
  unfold install_metrics. set (r := concat _).
  assert (Hr : forall ip, default 0 (gauge (SessionUp ip) r) = 0).
  { intros ip. unfold r. induction peers as [|p peers IH] using rev_ind; [done|].
    rewrite map_app, concat_app, gauge_app. cbn [map concat]. rewrite app_nil_r. unfold register_peer.
    rewrite gauge_up_set by done. by destruct (decide _). }
  assert (Ho : forallb other_call (update_rib_sizes 0 0 ∅) = true).
  { unfold update_rib_sizes. cbn [forallb other_call andb]. rewrite forallb_forall.
    intros c Hc. by apply in_map_iff in Hc as ([ip n] & <- & _). }
  split; cbn [fst snd].
  - intros ip. rewrite gauge_app, gauge_untouched; [by rewrite Hr|]. rewrite !existsb_app.
    by rewrite (other_untouched (SessionUp ip) _ Ho).
  - by rewrite !app_assoc, gauge_app, gauge_untouched, gauge_app by done.
  - by rewrite !app_assoc, gauge_app, gauge_untouched, gauge_app by done.
Qed.

(** C38: However the daemon runs, after each step the session gauge of every peer is
    one exactly if its session is up, and the gauges of originated routes are their
    numbers, provided that no session event is drained behind another event. *)
Theorem metrics_exact cfg startup now t sender o4 o6 w ts ops :
  let l0 := started cfg startup now t sender o4 o6 w in
  Forall daemon_op_ok ops -> all_reported l0 ops ->
  exists l out, daemon_run l0 ops = Ok (l, out)
    /\ gauges_exact (counted (el_daemon l)) (install_metrics (dc_peers cfg) ++ run_metrics ts l0 ops).
Proof.
  intros l0 Hops Hr.
  destruct (started_ok cfg startup now t sender o4 o6 w) as [Hl _].
  destruct (daemon_run_safe ops l0 False Hl (False_ind _) Hops) as (l & out & E & _). exists l, out.
  split; [exact E|]. eapply run_exact; [exact Hr|exact E|].
  assert (E0 : counted (el_daemon l0) = (∅, (∅, ∅))) by (unfold l0, started, connect_kernel; by destruct w).
  rewrite E0. apply install_exact.
Qed.

(** Only the first event of an iteration is reported: whatever sessions come and go
    in the events drained behind it, no session gauge but its own is touched. *)
Lemma finish_no_session ck q stops d ip : existsb (touches (SessionUp ip)) (finish_metrics ck q stops d) = false.
Proof. exact (other_untouched (SessionUp ip) _ (other_finish ck q stops d)). Qed.
Lemma event_only_first ts ck l ip : head ((el_queue l).*1) <> Some ip ->
  existsb (touches (SessionUp ip)) (event_metrics ts ck l) = false.
Proof.
  unfold event_metrics. destruct (el_queue l) as [|[ip0 [info|reason|msg]] q]; cbn [fmap list_fmap head fst]; intros Hn; [done|..].
  - destruct (idle_held _ _); [done|]. rewrite !existsb_app, finish_no_session.
    rewrite (other_untouched (SessionUp ip) _ (other_rib_sizes _)). cbn.
    rewrite !orb_false_r. rewrite bool_decide_eq_false_2; [done|]. naive_solver.
  - cbn. rewrite bool_decide_eq_false_2; [done|]. naive_solver.
  - destruct (on_route_update _ _ _ _) as [[d1 err]| | |]; [|done..]. rewrite existsb_app.
    destruct err; [done|]. by rewrite finish_no_session.
Qed.
(** Two sessions that come up in the same burst: the gauge of the second one goes
    on saying that it is down. *)
Theorem coalesced_session_unreported ts ck l ip1 i1 ip2 i2 calls :
  el_queue l = [(ip1, SeEstablished i1); (ip2, SeEstablished i2)] -> ip1 <> ip2 ->
  idle_held ip1 (el_daemon l) = false ->
  idle_held ip2 (on_established ip1 i1 (ck_now (ck 0%nat)) (el_daemon l)) = false ->
  exists l' out, loop_step l (ArmEvent ck) = Ok (l', out)
    /\ types (el_daemon l') !! ip2 = Some (si_peer_type i2)
    /\ gauge (SessionUp ip2) (calls ++ loop_metrics ts l (ArmEvent ck)) = gauge (SessionUp ip2) calls.
Proof.
  intros Hq Hne H1 H2. cbn [loop_step]. unfold event_arm. rewrite Hq, H1. unfold finish. cbn [drain]. rewrite H2.
  cbn [mbind outcome_bind]. set (d2 := on_established ip2 i2 _ _). pose proof (counted_flush_and_take d2) as F.
  destruct (flush_and_take d2) as [d3 st]. cbn [fst] in F. eexists _, _. split; [reflexivity|]. split.
  - cbn [el_daemon]. pose proof (eq_trans F (counted_established ip2 i2 _ _)) as E.
    apply (f_equal fst) in E. cbn [counted fst] in E. rewrite E. apply lookup_insert_eq.
  - rewrite gauge_app, gauge_untouched; [done|]. cbn [loop_metrics]. apply event_only_first. rewrite Hq.
    cbn. by intros [= ?].
Qed.
(** The end of a session does not report the size of the Loc-RIB, whatever routes
    it takes away. *)
Theorem termination_keeps_rib_gauge ts ck l ip reason q f :
  el_queue l = (ip, SeTerminated reason) :: q ->
  existsb (touches (LocRibPrefixes f)) (event_metrics ts ck l) = false.
Proof. intros Hq. unfold event_metrics. rewrite Hq. by destruct f. Qed.
End Claims.

(** ** The kernel gauge *)
Section FibGauge.

(** The daemon's routes of one family in the kernel, and the same after a write
    with its outcome. *)
#[local] Notation InKernel := (gmap (Z * Z) Forwarding).
Definition kernel_after (f : Family) (m : InKernel) (x : FibWrite * bool) : InKernel :=
  if decide (fw_family x.1 = f) then
    if x.2 then partial_alter (write_effect (fw_op x.1)) (fw_dst x.1, fw_prefix_len x.1) m else m
  else m.
Definition kernel_run (f : Family) : InKernel -> list (FibWrite * bool) -> InKernel := foldl (kernel_after f).
(** By how much a successful write changes the gauge and the number of routes. *)
Definition reported_delta (f : Family) (x : FibWrite * bool) : Z :=
  if decide (fw_family x.1 = f) then if x.2 then gauge_delta (fib_op (fw_op x.1)) else 0 else 0.
Definition drift_of (f : Family) (m : InKernel) (x : FibWrite * bool) : Z :=
  reported_delta f x - (Z.of_nat (size (kernel_after f m x)) - Z.of_nat (size m)).
(** A route installed where there was one, or a deletion that removed nothing. *)
Definition redundant (f : Family) (m : InKernel) (x : FibWrite * bool) : Z :=
  if decide (fw_family x.1 = f) then
    if x.2 then
      match fw_op x.1, m !! (fw_dst x.1, fw_prefix_len x.1) with
      | (Install _ | Blackhole), Some _ => 1
      | Withdraw, Some (Via _) | WithdrawBlackhole, Some Null => 0
      | (Withdraw | WithdrawBlackhole), _ => -1
      | _, None => 0
      end
    else 0
  else 0.

(** The sum over the writes. *)
Fixpoint drift (f : Family) (m : InKernel) (writes : list (FibWrite * bool)) : Z :=
  match writes with
  | [] => 0
  | x :: writes => redundant f m x + drift f (kernel_after f m x) writes
  end.

Lemma drift_redundant f m x : drift_of f m x = redundant f m x.
Proof.
  unfold drift_of, reported_delta, kernel_after, redundant. case_decide; [|lia]. destruct x as [w [|]]; cbn [fst snd] in *; [|lia].
  set (key := (fw_dst w, fw_prefix_len w)).
  assert (S : forall o, write_effect (fw_op w) (m !! key) = o ->
    size (partial_alter (write_effect (fw_op w)) key m) = size (match o with Some y => <[key := y]> m | None => delete key m end)).
  { intros o Ho. f_equal. apply map_eq. intros i. destruct (decide (i = key)) as [->|Hi].
    - rewrite lookup_partial_alter_eq, Ho. destruct o; by rewrite ?lookup_insert_eq, ?lookup_delete_eq.
    - rewrite lookup_partial_alter_ne by done. destruct o; by rewrite ?lookup_insert_ne, ?lookup_delete_ne. }
  rewrite (S _ eq_refl). clear S.
  destruct (fw_op w) as [g| | |], (m !! key) as [[g'|]|] eqn:E; cbn [write_effect gauge_delta fib_op];
    rewrite ?map_size_insert, ?map_size_delete, E; unfold id; try lia;
    pose proof (map_size_ne_0_lookup_2 m key (mk_is_Some _ _ E)); lia.
Qed.

(** The gauge counts the daemon's routes in the kernel up to the redundant writes:
    every route that replaces one, as each change of a best route does, counts once
    more, and every deletion of an absent route once less. *)
Theorem fib_gauge_error f writes m v :
  gauge_from (FibRoutesInstalled f) (Some v) (batch_metrics writes)
  = Some (v + (Z.of_nat (size (kernel_run f m writes)) - Z.of_nat (size m)) + drift f m writes).
Proof.
  revert m v. induction writes as [|[w ok] writes IH]; intros m v.
  - cbn. f_equal. lia.
  - unfold batch_metrics. cbn [map concat]. unfold gauge_from. rewrite foldl_app.
    fold (batch_metrics writes). change (foldl (gauge_step ?g) ?v ?l) with (gauge_from g v l) at 1.
    assert (E : foldl (gauge_step (FibRoutesInstalled f)) (Some v) (on_fib_write (fw_family w) (fib_op (fw_op w)) ok)
      = Some (v + reported_delta f (w, ok))).
    { unfold on_fib_write, reported_delta. cbn [fst snd]. destruct ok; cbn [foldl gauge_step default].
      - case_decide as E1; case_decide as E2; try congruence; [done|f_equal; lia].
      - f_equal. case_decide; lia. }
    cbn [fst snd]. rewrite E, (IH (kernel_after f m (w, ok))). f_equal. cbn [drift kernel_run foldl].
    rewrite <- drift_redundant. unfold drift_of, kernel_run. lia.
Qed.
(** The best route of a prefix moves from one gateway to another: one route in the
    kernel, two in the gauge. *)
Theorem fib_gauge_drifts f dst len g1 g2 :
  let writes := [(mkFibWrite f dst len (Install g1), true); (mkFibWrite f dst len (Install g2), true)] in
  gauge (FibRoutesInstalled f) (init_fib_routes_installed ++ batch_metrics writes) = Some 2
  /\ size (kernel_run f ∅ writes) = 1%nat.
Proof.
  intros writes. assert (E : gauge (FibRoutesInstalled f) init_fib_routes_installed = Some 0) by by destruct f.
  assert (K : kernel_run f ∅ writes = {[ (dst, len) := Via g2 ]}).
  { unfold writes, kernel_run, kernel_after. cbn [foldl fst snd fw_family fw_dst fw_prefix_len fw_op].
    rewrite !decide_True by done. apply map_eq. intros i. destruct (decide (i = (dst, len))) as [->|Hi].
    - by rewrite lookup_partial_alter_eq, lookup_singleton_eq.
    - by rewrite !lookup_partial_alter_ne, lookup_singleton_ne, lookup_empty by done. }
  rewrite K, map_size_singleton. split; [|done].
  rewrite gauge_app, E, (fib_gauge_error f writes ∅ 0), K, map_size_singleton, map_size_empty. f_equal.
  unfold writes. cbn [drift]. unfold redundant, kernel_after. cbn [fst snd fw_family fw_dst fw_prefix_len fw_op].
  rewrite !decide_True by done. by rewrite lookup_partial_alter_eq, lookup_empty.
Qed.
End FibGauge.

(** ** Histories that meet the hypotheses *)
Section Applied.
#[local] Existing Instances ModelPrefix.ops ModelPrefix.laws ModelRouteMap.ops ModelRouteMap.laws.
#[local] Existing Instances ModelHashOrder.order ModelHashOrder.order_law.

(** A session comes up, a route arrives, the daemon originates it as well, and the
    session ends. *)
Definition metric_ops (more : list DaemonOp) : list DaemonOp :=
  from_peer one_ip (SeEstablished one_info) ++ from_peer one_ip (SeRouteUpdate (imp_msg imp_attrs)) ++ more.
Definition metric_origin : list DaemonOp := [OpOriginate FamV4 [imp_route] (fun _ => 0)].
Definition metric_start : EventLoop :=
  started one_cfg 0 0 0 (fun _ => mkSender 8 []) AlwaysReachable AlwaysReachable true.
Definition metric_calls (ops : list DaemonOp) : list MetricCall :=
  install_metrics (dc_peers one_cfg) ++ run_metrics (fun _ => 0) metric_start ops.

Lemma metrics_exact_witness : exists l out, daemon_run metric_start (metric_ops metric_origin) = Ok (l, out)
  /\ default 0 (gauge (SessionUp one_ip) (metric_calls (metric_ops metric_origin))) = session_up (types (el_daemon l)) one_ip
  /\ gauge (OriginatedRoutes FamV4) (metric_calls (metric_ops metric_origin))
     = Some (Z.of_nat (size (originated_routes (ds_v4 (el_daemon l))))).
Proof.
  destruct (metrics_exact one_cfg 0 0 0 (fun _ => mkSender 8 []) AlwaysReachable AlwaysReachable true (fun _ => 0)
    (metric_ops metric_origin)) as (l & out & E & [H1 H2 H3]).
  - unfold metric_ops. apply from_peer_ok; [exact I|]. apply from_peer_ok; [exact imp_full_ok|].
    apply Forall_singleton, Forall_singleton. exact imp10_canonical.
  - vm_compute. repeat split.
  - exists l, out. split; [exact E|]. split; [exact (H1 one_ip)|exact H2].
Defined.
(** The gauge after the run, computed; without an origination and with the end of
    the session the Loc-RIB is empty and its gauge says one. *)
Lemma metrics_sample :
  gauge (SessionUp one_ip) (metric_calls (metric_ops metric_origin)) = Some 1
  /\ gauge (OriginatedRoutes FamV4) (metric_calls (metric_ops metric_origin)) = Some 1.
Proof. split; vm_compute; reflexivity. Qed.
Lemma loc_rib_gauge_stale :
  gauge (LocRibPrefixes FamV4) (metric_calls (metric_ops (from_peer one_ip (SeTerminated TrOperatorStop)))) = Some 1
  /\ loc_rib_len (loc_rib (ds_v4 (scenario one_cfg (metric_ops (from_peer one_ip (SeTerminated TrOperatorStop)))))) = 0%nat.
Proof. split; vm_compute; reflexivity. Qed.

Definition metric_burst : EventLoop :=
  mkEventLoop (el_daemon metric_start)
    [(one_ip, SeEstablished one_info); (IpV4 3232235779, SeEstablished one_info)] (el_stops metric_start).
Lemma coalesced_session_unreported_witness : exists l' out,
  loop_step metric_burst (ArmEvent one_clocks) = Ok (l', out)
  /\ types (el_daemon l') !! IpV4 3232235779 = Some External
  /\ gauge (SessionUp (IpV4 3232235779))
       (register_peer (IpV4 3232235779) ++ loop_metrics 0 metric_burst (ArmEvent one_clocks)) = Some 0.
Proof.
  destruct (coalesced_session_unreported 0 one_clocks metric_burst one_ip one_info (IpV4 3232235779) one_info
    (register_peer (IpV4 3232235779))) as (l' & out & E & Ht & Hg); [reflexivity|done|reflexivity|reflexivity|].
  exists l', out. split; [exact E|]. split; [exact Ht|]. rewrite Hg. reflexivity.
Defined.
End Applied.
