(* ===== verification/Cli.v ===== *)
(** The command-line tool ([pathvector/src]): its commands ([cli.rs]), what it prints
    ([output.rs]), and their execution over any client of the daemon ([main.rs]).

    What the argument parser [clap] makes of the command line is the type [Cli]; the
    client is the interface [DaemonClient], the trait of [client_trait.rs]; what a
    command prints is its list of lines.  An error of the daemon is its status code. *)
From Stdlib Require Import ZArith Lia Bool String.
From stdpp Require Import base tactics numbers decidable list.
From S2P Require Import Prelude Addr AddrText Types AsPath Roa Proto ApiClient.
Open Scope Z_scope.

(** ** Texts *)

Definition dec_u32 (n : Z) : Text := digits 10 10 n [].
Definition dec_u64 (n : Z) : Text := digits 20 10 n [].
Definition dec_i64 (n : Z) : Text := if n <? 0 then text "-" ++ dec_u64 (- n) else dec_u64 n.
Definition DASH : Text := text "—".
Definition SPACE : Z := 32.
(** Characters of a UTF-8 text: its bytes that continue none. *)
Definition chars (s : Text) : nat := length (List.filter (fun b => negb ((128 <=? b) && (b <? 192))) s).
(** [{:<w}], [{:>w}] and [{:02}] *)
Definition left_pad (w : nat) (s : Text) : Text := s ++ replicate (w - chars s) SPACE.
Definition right_pad (w : nat) (s : Text) : Text := replicate (w - chars s) SPACE ++ s.
Definition two_digits (n : Z) : Text := let s := dec_u64 n in replicate (2 - length s) 48 ++ s.
(** [s.split_once(c)] *)
Fixpoint split_once (c : Z) (s : Text) : option (Text * Text) :=
  match s with
  | [] => None
  | x :: s => if x =? c then Some ([], s)
              else match split_once c s with Some (a, b) => Some (x :: a, b) | None => None end
  end.
(** [u32::from_str]: an optional sign, digits, no overflow on the way. *)
Fixpoint u32_digits (acc : Z) (s : Text) : option Z :=
  match s with
  | [] => Some acc
  | c :: s =>
      match to_digit 10 c with
      | Some d => let acc := acc * 10 + d in if acc <? 2 ^ 32 then u32_digits acc s else None
      | None => None
      end
  end.
Definition u32_parse (s : Text) : option Z :=
  match s with
  | [] => None
  | c :: rest => if c =? 43 then match rest with [] => None | _ => u32_digits 0 rest end
                 else u32_digits 0 s
  end.

(** ** Commands ([cli.rs]) *)

Inductive OriginArg := ArgIgp | ArgEgp | ArgIncomplete.
Inductive CliDecision := CliAccept | CliReject.
Definition as_bool (d : CliDecision) : bool := match d with CliAccept => true | CliReject => false end.
Inductive RpkiCommands := RpkiStatusCmd | RpkiValidate (prefix : Text) (origin_as : Z).
Inductive PeerCommands :=
| PeerList
| PeerGet (peer : Text)
| PeerAdd (address : Text) (remote_as : Z) (port : option Z) (import_default export_default : option CliDecision)
    (md5_password : option Text)
| PeerRemove (address : Text).
Inductive RouteCommands :=
| RouteList (peer : option Text)
| RouteBest (prefix : Text)
| RouteCandidates (prefix : Text)
| RouteOriginate (prefix next_hop : Text) (origin : OriginArg) (communities : list Text)
    (local_pref med : option Z)
| RouteWithdraw (prefix : Text)
| RouteListOriginated.
Inductive WatchCommands := WatchRoutes (peer : option Text) | WatchPeers.
Inductive PolicyCommands := SetImport (peer : Text) (decision : CliDecision) | SetExport (peer : Text) (decision : CliDecision).
Inductive Commands :=
| CmdPeer (command : PeerCommands)
| CmdRoute (command : RouteCommands)
| CmdPolicy (command : PolicyCommands)
| CmdWatch (command : WatchCommands)
| CmdRpki (command : RpkiCommands)
| CmdDashboard.
Record Cli := mkCli { cli_address : Text; cli_command : Commands }.

(** [error.rs] of the tool and [ConnectError] of the client; an I/O error of the
    terminal carries nothing the tool looks at. *)
Inductive ConnectError := InvalidEndpoint (uri : Text).
Inductive CliError := CliConnect (e : ConnectError) | CliClient (e : ClientError) | CliTerminal.
Definition invalid_argument : CliError := CliClient (CeRpc InvalidArgument).

(** ** Output ([output.rs]) *)

Definition format_uptime (secs : Z) : Text :=
  if secs =? 0 then DASH
  else two_digits (secs / 3600) ++ COLON :: two_digits (secs mod 3600 / 60)
         ++ COLON :: two_digits (secs mod 60).
Definition segment_asns (seg : AsPathSegment) : list Z :=
  match seg with Sequence l | Set_ l | ConfedSequence l | ConfedSet l => l end.
Definition format_segment (seg : AsPathSegment) : Text :=
  let asns := join SPACE (map dec_u32 (segment_asns seg)) in
  match seg with
  | Set_ _ | ConfedSet _ => text "{" ++ asns ++ text "}"
  | _ => asns
  end.
Definition format_as_path (segments : list AsPathSegment) : Text :=
  match segments with [] => DASH | _ => join SPACE (map format_segment segments) end.
Definition format_opt_u32 (v : option Z) : Text := match v with None => DASH | Some n => dec_u32 n end.
Definition fmt_peer_type (state : ClientPeerState) : Text :=
  match cp_peer_type state with
  | Some External => text "eBGP"
  | Some Internal => text "iBGP"
  | _ => DASH
  end.
Definition fmt_session_state (state : ClientPeerState) : Text :=
  match cp_session_state state with CsEstablished => text "Established" | CsIdle => text "Idle" end.
Definition format_origin (o : Origin) : Text :=
  match o with Igp => text "IGP" | Egp => text "EGP" | Incomplete => text "?" end.
Definition format_community (c : Z) : Text :=
  dec_u32 (Z.shiftr c 16) ++ COLON :: dec_u32 (Z.land c 0xFFFF).
Definition format_large (lc : LargeCommunity) : Text :=
  dec_u32 (global_administrator lc) ++ COLON :: dec_u32 (local_data_1 lc) ++ COLON :: dec_u32 (local_data_2 lc).
Definition format_next_hop (nh : option IpAddr) : Text :=
  match nh with None => DASH | Some ip => addr_to_string ip end.
Definition format_route_peer (p : option IpAddr) : Text :=
  match p with None => text "local" | Some a => addr_to_string a end.

Definition peer_line (address remote_as pt state uptime rcv acc adv : Text) : Text :=
  left_pad 16 address ++ text " " ++ right_pad 10 remote_as ++ text "  " ++ left_pad 4 pt ++ text "  "
  ++ left_pad 11 state ++ text "  " ++ right_pad 8 uptime ++ text "  " ++ right_pad 4 rcv ++ text " "
  ++ right_pad 4 acc ++ text " " ++ right_pad 4 adv.
Definition print_peer_table (peers : list ClientPeerState) : list Text :=
  match peers with
  | [] => [text "No peers configured."]
  | _ =>
      peer_line (text "ADDRESS") (text "REMOTE-AS") (text "TYPE") (text "STATE") (text "UPTIME")
        (text "RCV") (text "ACC") (text "ADV")
      :: map (fun p => peer_line (addr_to_string (cp_address p)) (dec_u32 (cp_remote_as p)) (fmt_peer_type p)
             (fmt_session_state p) (format_uptime (cp_uptime_seconds p)) (dec_u32 (cp_prefixes_received p))
             (dec_u32 (cp_prefixes_accepted p)) (dec_u32 (cp_prefixes_advertised p))) peers
  end.
Definition print_peer_detail (peer : ClientPeerState) : list Text :=
  [text "Address:    " ++ addr_to_string (cp_address peer);
   text "Local AS:   " ++ dec_u32 (cp_local_as peer);
   text "Remote AS:  " ++ dec_u32 (cp_remote_as peer);
   text "Type:       " ++ match cp_peer_type peer with
                          | Some External => text "eBGP (External)"
                          | Some Internal => text "iBGP (Internal)"
                          | _ => DASH end;
   text "State:      " ++ fmt_session_state peer;
   text "Uptime:     " ++ format_uptime (cp_uptime_seconds peer);
   text "Hold time:  " ++ dec_u32 (cp_hold_time peer) ++ text "s";
   text "Received:   " ++ dec_u32 (cp_prefixes_received peer) ++ text " prefix(es)";
   text "Accepted:   " ++ dec_u32 (cp_prefixes_accepted peer) ++ text " prefix(es)";
   text "Advertised: " ++ dec_u32 (cp_prefixes_advertised peer) ++ text " prefix(es)"]
  ++ match cp_configured_role peer with Some role => [text "Role:       " ++ role ++ text " (configured)"] | None => [] end
  ++ match cp_negotiated_role peer with Some role => [text "            " ++ role ++ text " (negotiated)"] | None => [] end.

Definition route_line (prefix peer next_hop as_path origin med : Text) : Text :=
  left_pad 20 prefix ++ text " " ++ left_pad 16 peer ++ text " " ++ left_pad 16 next_hop ++ text " "
  ++ left_pad 20 as_path ++ text " " ++ left_pad 6 origin ++ text "  " ++ med.
Definition print_route_table (routes : list ClientRoute) : list Text :=
  match routes with
  | [] => [text "No routes."]
  | _ =>
      route_line (text "PREFIX") (text "PEER") (text "NEXT-HOP") (text "AS-PATH") (text "ORIGIN") (text "MED")
      :: map (fun r => route_line (cr_prefix r) (format_route_peer (cr_peer_address r)) (format_next_hop (cr_next_hop r))
             (format_as_path (cr_as_path r)) (format_origin (cr_origin r)) (format_opt_u32 (cr_med r))) routes
  end.
Definition print_route_detail (route : ClientRoute) : list Text :=
  [text "Prefix:     " ++ cr_prefix route;
   text "Peer:       " ++ format_route_peer (cr_peer_address route) ++ text " ("
     ++ match cr_peer_type route with External => text "eBGP" | Internal => text "iBGP" | _ => DASH end ++ text ")";
   text "Next-hop:   " ++ format_next_hop (cr_next_hop route);
   text "AS-path:    " ++ format_as_path (cr_as_path route);
   text "Origin:     " ++ format_origin (cr_origin route);
   text "Local-pref: " ++ format_opt_u32 (cr_local_pref route);
   text "MED:        " ++ format_opt_u32 (cr_med route)]
  ++ match cr_communities route with
     | [] => [] | l => [text "Communities: " ++ join SPACE (map format_community l)] end
  ++ match cr_large_communities route with
     | [] => [] | l => [text "Large communities: " ++ join SPACE (map format_large l)] end
  ++ (if cr_atomic_aggregate route then [text "Atomic-aggregate: yes"] else [])
  ++ match cr_aggregator route with
     | Some (asn, address) => [text "Aggregator: AS" ++ dec_u32 asn ++ text " " ++ addr_to_string address]
     | None => [] end.

Definition print_route_event (event : ClientRouteEvent) : list Text :=
  match ce_type event with
  | ReEndInitial => [text "END_INITIAL"]
  | ReWithdrawn => [left_pad 12 (text "WITHDRAWN") ++ text " " ++ default (text "?") (ce_withdrawn_prefix event)]
  | t =>
      let label := match t with ReCurrent => text "CURRENT" | _ => text "ANNOUNCED" end in
      match ce_route event with
      | Some route => [left_pad 12 label ++ text " " ++ left_pad 22 (cr_prefix route) ++ text " via "
                       ++ format_route_peer (cr_peer_address route)]
      | None => [label]
      end
  end.
Definition print_peer_event (event : PeerEventType * option ClientPeerState) : list Text :=
  match fst event with
  | PeEndInitial => [text "END_INITIAL"]
  | t =>
      let label := match t with PeCurrent => text "CURRENT" | _ => text "CHANGED" end in
      match snd event with
      | Some peer => [left_pad 12 label ++ text " " ++ left_pad 22 (addr_to_string (cp_address peer)) ++ text " AS"
                      ++ left_pad 8 (dec_u32 (cp_remote_as peer)) ++ text " " ++ fmt_session_state peer]
      | None => [label]
      end
  end.
Definition print_rpki_status (status : ClientRpkiStatus) : list Text :=
  if negb (ck_enabled status) then [text "RPKI:       disabled ([daemon.rpki] not configured)"]
  else
    [text "RPKI:       enabled";
     text "Connected:  " ++ (if ck_connected status then text "yes" else text "no");
     text "RTR version: " ++ match ck_rtr_version status with [] => DASH | v => v end;
     text "Serial:     " ++ format_opt_u32 (ck_serial status);
     text "ROA count:  " ++ dec_u64 (ck_roa_count status);
     text "Last sync:  " ++ match ck_last_update_unix status with Some t => dec_i64 t | None => DASH end]
    ++ match ck_last_error status with Some err => [text "Last error: " ++ err] | None => [] end.
Definition print_roa_validity (prefix : Text) (origin_as : Z) (validity : RoaValidity) : list Text :=
  [prefix ++ text " origin AS" ++ dec_u32 origin_as ++ text ": "
   ++ match validity with Valid => text "VALID" | Invalid => text "INVALID" | NotFound => text "NOTFOUND" end].

(** ** Execution ([main.rs]) *)

Definition parse_community (s : Text) : Outcome CliError Z :=
  '(as_part, val_part) ← ok_or (split_once COLON s) invalid_argument;
  asn ← ok_or (u32_parse as_part) invalid_argument;
  val ← ok_or (u32_parse val_part) invalid_argument;
  if (0xFFFF <? asn) || (0xFFFF <? val) then Err invalid_argument
  else Ok (Z.lor (as_u32 (Z.shiftl asn 16)) val).

(** What the tool uses of the trait [DaemonClient]: each call may change what the
    client is connected to. *)
Definition Rpc (C A : Type) : Type := C -> C * Outcome ClientError A.
Class DaemonClient (C : Type) := {
  dc_list_peers : Rpc C (list ClientPeerState);
  dc_get_peer : IpAddr -> Rpc C ClientPeerState;
  dc_add_peer : AddPeerParams -> Rpc C unit;
  dc_remove_peer : IpAddr -> Rpc C unit;
  dc_list_routes : option IpAddr -> Rpc C (list ClientRoute);
  dc_get_best_route : Text -> Rpc C (option ClientRoute);
  dc_list_candidates : Text -> Rpc C (list ClientRoute);
  dc_originate_route : OriginateRouteParams -> Rpc C unit;
  dc_withdraw_originated_route : Text -> Rpc C unit;
  dc_list_originated_routes : Rpc C (list ClientRoute);
  dc_set_import_default : Text -> bool -> Rpc C unit;
  dc_set_export_default : Text -> bool -> Rpc C unit;
  dc_get_rpki_status : Rpc C ClientRpkiStatus;
  dc_validate_roa : Text -> Z -> Rpc C RoaValidity;
}.

Section Bodies.
Context {C : Type} `{DC : DaemonClient C}.

(** The body of a command: the client, and an error that ends it ([?]). *)
Definition Body (A : Type) : Type := C -> C * Outcome CliError A.
Definition ret {A} (a : A) : Body A := fun c => (c, Ok a).
Definition attempt {A} (o : Outcome CliError A) : Body A := fun c => (c, o).
Definition lift_client {A} (o : Outcome ClientError A) : Outcome CliError A :=
  match o with Ok a => Ok a | Err e => Err (CliClient e) | Panic => Panic | OutOfFuel => OutOfFuel end.
Definition call {A} (m : Rpc C A) : Body A := fun c => let '(c, o) := m c in (c, lift_client o).
#[export] Instance run_bind : MBind Body := fun A B k m c =>
  let '(c, o) := m c in
  match o with Ok a => k a c | Err e => (c, Err e) | Panic => (c, Panic) | OutOfFuel => (c, OutOfFuel) end.
Definition parse_ip (s : Text) : Body IpAddr := attempt (ok_or (addr_parse s) invalid_argument).
Fixpoint parse_communities (l : list Text) : Outcome CliError (list Z) :=
  match l with
  | [] => Ok []
  | s :: l => c ← parse_community s; cs ← parse_communities l; Ok (c :: cs)
  end.

Definition run_peer (command : PeerCommands) : Body (list Text) :=
  match command with
  | PeerList => peers ← call dc_list_peers; ret (print_peer_table peers)
  | PeerGet peer =>
      ip ← parse_ip peer; peer_state ← call (dc_get_peer ip); ret (print_peer_detail peer_state)
  | PeerAdd address remote_as port import_default export_default md5_password =>
      ip ← parse_ip address;
      _ ← call (dc_add_peer (mkAddPeerParams ip remote_as port (as_bool <$> import_default)
                               (as_bool <$> export_default) md5_password));
      ret [text "Peer " ++ addr_to_string ip ++ text " added."]
  | PeerRemove address =>
      ip ← parse_ip address; _ ← call (dc_remove_peer ip);
      ret [text "Peer " ++ addr_to_string ip ++ text " removed."]
  end.
Definition run_route (command : RouteCommands) : Body (list Text) :=
  match command with
  | RouteList peer =>
      peer_filter ← match peer with None => ret None | Some s => ip ← parse_ip s; ret (Some ip) end;
      routes ← call (dc_list_routes peer_filter); ret (print_route_table routes)
  | RouteBest prefix =>
      best ← call (dc_get_best_route prefix);
      ret match best with
           | Some route => print_route_detail route
           | None => [text "No route for " ++ prefix ++ text "."]
           end
  | RouteCandidates prefix =>
      routes ← call (dc_list_candidates prefix); ret (print_route_table routes)
  | RouteOriginate prefix next_hop origin communities local_pref med =>
      communities ← attempt (parse_communities communities);
      _ ← call (dc_originate_route (mkOriginateParams prefix next_hop
                  match origin with ArgIgp => Igp | ArgEgp => Egp | ArgIncomplete => Incomplete end
                  communities [] [] local_pref med));
      ret []
  | RouteWithdraw prefix => _ ← call (dc_withdraw_originated_route prefix); ret []
  | RouteListOriginated => routes ← call dc_list_originated_routes; ret (print_route_table routes)
  end.
Definition run_policy (command : PolicyCommands) : Body (list Text) :=
  match command with
  | SetImport peer decision => _ ← call (dc_set_import_default peer (as_bool decision)); ret []
  | SetExport peer decision => _ ← call (dc_set_export_default peer (as_bool decision)); ret []
  end.
Definition run_rpki (command : RpkiCommands) : Body (list Text) :=
  match command with
  | RpkiStatusCmd => status ← call dc_get_rpki_status; ret (print_rpki_status status)
  | RpkiValidate prefix origin_as =>
      validity ← call (dc_validate_roa prefix origin_as); ret (print_roa_validity prefix origin_as validity)
  end.
(** The client is connected only for a command that talks to the daemon; what is
    left of it is returned with the result. *)
Definition with_client (connect : Text -> Outcome CliError C) (addr : Text) (body : Body (list Text))
    : option C * Outcome CliError (list Text) :=
  match connect addr with
  | Ok client => let '(client, o) := body client in (Some client, o)
  | Err e => (None, Err e)
  | Panic => (None, Panic)
  | OutOfFuel => (None, OutOfFuel)
  end.
Definition run_with (args : Cli) (connect : Text -> Outcome CliError C)
    (run_dashboard_fn : Text -> Outcome CliError unit) : option C * Outcome CliError (list Text) :=
  match cli_command args with
  | CmdDashboard => (None, _ ← run_dashboard_fn (cli_address args); Ok [])
  | CmdPeer command => with_client connect (cli_address args) (run_peer command)
  | CmdRoute command => with_client connect (cli_address args) (run_route command)
  | CmdPolicy command => with_client connect (cli_address args) (run_policy command)
  | CmdRpki command => with_client connect (cli_address args) (run_rpki command)
  | CmdWatch _ => (None, Ok [])
  end.
End Bodies.

(** [run_watch]: the items of the stream, as far as the daemon sends them before it
    ends the stream or the user interrupts. *)
Fixpoint watch_loop {A} (print : A -> list Text) (items : list (Outcome ClientError A))
    : list Text * Outcome CliError unit :=
  match items with
  | [] => ([], Ok tt)
  | Ok event :: items => let '(lines, r) := watch_loop print items in (print event ++ lines, r)
  | Err e :: _ => ([], Err (CliClient e))
  | Panic :: _ => ([], Panic)
  | OutOfFuel :: _ => ([], OutOfFuel)
  end.
Definition run_watch (watch_routes : option Text -> Outcome ClientError (list (Outcome ClientError ClientRouteEvent)))
    (watch_peers : Outcome ClientError (list (Outcome ClientError (PeerEventType * option ClientPeerState))))
    (command : WatchCommands) : list Text * Outcome CliError unit :=
  match command with
  | WatchRoutes peer =>
      match lift_client (watch_routes peer) with
      | Ok items => watch_loop print_route_event items
      | Err e => ([], Err e) | Panic => ([], Panic) | OutOfFuel => ([], OutOfFuel)
      end
  | WatchPeers =>
      match lift_client watch_peers with
      | Ok items => watch_loop print_peer_event items
      | Err e => ([], Err e) | Panic => ([], Panic) | OutOfFuel => ([], OutOfFuel)
      end
  end.

(** ** Communities as text *)

Lemma u32_digits_ok ds : forall acc, 0 <= acc -> Forall (fun d => 0 <= d < 10) ds -> value 10 ds acc < 2 ^ 32 ->
  u32_digits acc (map hex_char ds) = Some (value 10 ds acc).
Proof.
  induction ds as [|d ds IH]; intros acc Ha Hd Hv; [done|]. apply Forall_cons in Hd as [Hd Hds].
  cbn [map u32_digits]. rewrite to_digit_hex by lia. cbn [value fold_left] in *. fold (value 10 ds (acc * 10 + d)) in *.
  pose proof (value_ge 10 ds (acc * 10 + d) ltac:(lia) ltac:(lia)
    ltac:(eapply Forall_impl; [exact Hds|]; cbn; lia)) as Hge.
  replace (acc * 10 + d <? 2 ^ 32) with true by lia. apply IH; [lia|done|done].
Qed.
Lemma hex_digit_char d : 0 <= d < 10 -> 48 <= hex_char d < 58.
Proof. intros H. unfold hex_char. destruct (Z.ltb_spec d 10); lia. Qed.
(** The text of a number is its digits. *)
Lemma dec_u32_digits n : is_u32 n -> exists ds, dec_u32 n = map hex_char ds /\ ds <> []
  /\ Forall (fun d => 0 <= d < 10) ds /\ value 10 ds 0 = n.
Proof.
  intros Hn. unfold is_u32 in Hn. unfold dec_u32. rewrite digits_dlist, app_nil_r. exists (dlist 10 10 n).
  destruct (dlist_ok 10 10 n ltac:(lia) ltac:(cbn; lia)) as (Hv & _ & Hd). split_and!; [done| |done|done].
  cbn [dlist]. destruct (n <? 10); [done|]. intros [_ ?]%app_eq_nil. done.
Qed.
Lemma u32_parse_dec n : is_u32 n -> u32_parse (dec_u32 n) = Some n.
Proof.
  intros Hn. destruct (dec_u32_digits n Hn) as (ds & -> & Hne & Hd & Hv). unfold is_u32 in Hn.
  destruct ds as [|d ds]; [done|]. pose proof Hd as [Hd0 _]%Forall_cons. pose proof (hex_digit_char d Hd0) as Hc.
  unfold u32_parse. cbn [map]. replace (hex_char d =? 43) with false by lia.
  change (hex_char d :: map hex_char ds) with (map hex_char (d :: ds)). rewrite u32_digits_ok by (done || lia).
  by rewrite Hv.
Qed.
Lemma dec_u32_no_colon n : is_u32 n -> COLON ∉ dec_u32 n.
Proof.
  intros Hn. destruct (dec_u32_digits n Hn) as (ds & -> & _ & Hd & _). intros (d & E & Hin)%list_elem_of_fmap.
  rewrite Forall_forall in Hd. pose proof (hex_digit_char d (Hd d Hin)). unfold COLON in E. lia.
Qed.
Lemma split_once_spec c s a b : split_once c s = Some (a, b) <-> s = a ++ c :: b /\ c ∉ a.
Proof.
  revert a. induction s as [|x s IH]; intros a; cbn [split_once].
  - split; [done|]. intros [E _]. by destruct a.
  - destruct (Z.eqb_spec x c) as [->|Hne].
    + split; [intros [= <- <-]; split; [done|apply not_elem_of_nil]|]. intros [E Hn].
      destruct a as [|y a]; [by injection E as ->|]. injection E as -> _. destruct Hn. left.
    + destruct (split_once c s) as [[a' b']|].
      * split.
        -- intros [= <- <-]. destruct (proj1 (IH a') eq_refl) as [-> Hn]. split; [done|].
           rewrite not_elem_of_cons. by split; [congruence|].
        -- intros [E Hn]. destruct a as [|y a]; [injection E as -> _; done|]. injection E as -> E.
           rewrite not_elem_of_cons in Hn. destruct (IH a) as [_ H].
           by injection (H (conj E (proj2 Hn))) as -> ->.
      * split; [done|]. intros [E Hn]. destruct a as [|y a]; [injection E as -> _; done|]. injection E as -> E.
        rewrite not_elem_of_cons in Hn. destruct (IH a) as [_ H]. by specialize (H (conj E (proj2 Hn))).
Qed.
Lemma pack_community a v : is_u16 a -> is_u16 v -> Z.lor (as_u32 (Z.shiftl a 16)) v = a * 65536 + v.
Proof.
  unfold is_u16. intros Ha Hv. rewrite <- (community_from_parts_add a v) by done. unfold Community.from_parts, as_u32.
  rewrite Z.mod_small; [done|]. rewrite Z.shiftl_mul_pow2 by lia. lia.
Qed.
(** Exactly the texts AS:value with both parts of 16 bits are communities, and what
    is printed of a community is read back as it. *)
Lemma parse_community_spec s c : parse_community s = Ok c <->
  exists ta tv a v, s = ta ++ COLON :: tv /\ COLON ∉ ta /\ u32_parse ta = Some a /\ u32_parse tv = Some v
    /\ a <= 0xFFFF /\ v <= 0xFFFF /\ c = Z.lor (as_u32 (Z.shiftl a 16)) v.
Proof.
  unfold parse_community. destruct (split_once COLON s) as [[ta tv]|] eqn:E; cbn [ok_or mbind outcome_bind].
  - apply split_once_spec in E as [-> Hn].
    assert (Hu : forall ta' tv', ta ++ COLON :: tv = ta' ++ COLON :: tv' -> COLON ∉ ta' -> ta' = ta /\ tv' = tv).
    { intros ta' tv' E' Hn'. pose proof (proj2 (split_once_spec COLON (ta ++ COLON :: tv) ta' tv') (conj E' Hn')) as H1.
      pose proof (proj2 (split_once_spec COLON (ta ++ COLON :: tv) ta tv) (conj eq_refl Hn)) as H2. rewrite H2 in H1. by injection H1. }
    destruct (u32_parse ta) as [a|] eqn:Ea; cbn [ok_or mbind outcome_bind].
    2:{ split; [done|]. intros (ta' & tv' & a & v & E' & Hn' & Ha & _). destruct (Hu _ _ E' Hn') as [-> _]. congruence. }
    destruct (u32_parse tv) as [v|] eqn:Ev; cbn [ok_or mbind outcome_bind].
    2:{ split; [done|]. intros (ta' & tv' & a' & v & E' & Hn' & _ & Hv & _). destruct (Hu _ _ E' Hn') as [_ ->]. congruence. }
    destruct (Z.ltb_spec 0xFFFF a), (Z.ltb_spec 0xFFFF v); cbn [orb]; split; try done;
      try (intros (ta' & tv' & a' & v' & E' & Hn' & Ha & Hv & ? & ? & _); destruct (Hu _ _ E' Hn') as [-> ->];
           rewrite Ea in Ha; rewrite Ev in Hv; injection Ha as ->; injection Hv as ->; lia).
    + intros [= <-]. by exists ta, tv, a, v.
    + intros (ta' & tv' & a' & v' & E' & Hn' & Ha & Hv & _ & _ & ->). destruct (Hu _ _ E' Hn') as [-> ->].
      rewrite Ea in Ha. rewrite Ev in Hv. by injection Ha as ->; injection Hv as ->.
  - split; [done|]. intros (ta & tv & a & v & E' & Hn & _).
    rewrite (proj2 (split_once_spec COLON s ta tv)) in E by done. done.
Qed.
Lemma format_community_back c : is_u32 c -> parse_community (format_community c) = Ok c.
Proof.
  unfold is_u32. intros Hc. apply parse_community_spec. unfold format_community.
  change (Z.land c 0xFFFF) with (Z.land c (Z.ones 16)). rewrite Z.land_ones, Z.shiftr_div_pow2 by lia. change (2 ^ 16) with 65536.
  assert (Hh : 0 <= c / 65536 <= 65535 /\ 0 <= c mod 65536 <= 65535 /\ c = c / 65536 * 65536 + c mod 65536)
    by (Z.to_euclidean_division_equations; lia).
  set (h := c / 65536) in *. set (l := c mod 65536) in *. clearbody h l. exists (dec_u32 h), (dec_u32 l), h, l.
  split_and!; [done|apply dec_u32_no_colon; blia|apply u32_parse_dec; blia|apply u32_parse_dec; blia|lia|lia|].
  rewrite pack_community by blia. lia.
Qed.
(** Samples of the output. *)
Example output_examples :
  format_uptime 3661 = text "01:01:01" /\ format_uptime 0 = DASH
  /\ format_as_path [Sequence [65001; 65002]; Set_ [1; 2]] = text "65001 65002 {1 2}"
  /\ format_community 4259840666 = text "65000:666"
  /\ parse_community (text "65000:+0666") = Ok 4259840666
  /\ parse_community (text "65536:0") = Err invalid_argument
  /\ parse_community (text "1:2:3") = Err invalid_argument
  /\ left_pad 4 DASH = DASH ++ [32; 32; 32].
Proof. by vm_compute. Qed.
