(* ===== verification/CliTheorems.v ===== *)
(** The command-line tool over the real client: what an operator originates is what
    the tool then shows. *)
From Stdlib Require Import ZArith Lia Bool String.
From stdpp Require Import base tactics numbers decidable gmap list.
From S2P Require Import Prelude Addr AddrText Types AsPath Wire Header Notification Open Update Fsm Session RouteMap Rtr Roa RtrClient Policy Route DaemonPolicy BestPath LocRib RibTheorems AdjRib Outbound HandleUpdate ImportTheorems Deferral Capabilities DaemonState Propagate Graceful PeerLifecycle RouteUpdate EventLoop DaemonFacts DaemonInvariant DaemonTheorems PeerTheorems Proto Grpc ApiClient GrpcTheorems Cli.
Open Scope Z_scope.

(** ** [PathvectorClient] as a [DaemonClient] *)
Section Served.
Context `{P : IpPrefixOps} {M : RouteMapOps} {HO : HashOrder} {NT : NlriText}.

(** What is behind the client: the daemon, and the commands its peer service has put
    into the channel of the command processor. *)
Inductive ServerCommand := SvAddPeer (peer : PeerConfig) | SvRemovePeer (ip : IpAddr).
Record Served := mkServed { sv_daemon : DaemonState; sv_commands : list ServerCommand }.
(** The clock readings and the RPKI state of the calls. *)
Record Surroundings := mkSurroundings {
  su_now : Instant;
  su_secs : Z;
  su_clock : RpcClock;
  su_ip_now : IpAddr -> Instant;
  su_rtr : option RtrStatus;
  su_roa : option RoaTable;
  su_error_text : RtrError + list Z -> Text;
  su_unix_secs : Instant -> option Z;
}.

(** A call that reads, one that changes the daemon, one that queues a command. *)
Definition reads {A} (q : DaemonState -> Outcome ClientError A) : Rpc Served A :=
  fun s => (s, q (sv_daemon s)).
Definition changes (step : DaemonState -> Outcome Status DaemonState) : Rpc Served unit := fun s =>
  match lift_rpc (step (sv_daemon s)) with
  | Ok d => (mkServed d (sv_commands s), Ok tt)
  | Err e => (s, Err e) | Panic => (s, Panic) | OutOfFuel => (s, OutOfFuel)
  end.
Definition queues (command : DaemonState -> Outcome Status ServerCommand) : Rpc Served unit := fun s =>
  match lift_rpc (command (sv_daemon s)) with
  | Ok c => (mkServed (sv_daemon s) (sv_commands s ++ [c]), Ok tt)
  | Err e => (s, Err e) | Panic => (s, Panic) | OutOfFuel => (s, OutOfFuel)
  end.
Definition pathvector_client (su : Surroundings) : DaemonClient Served := {|
  dc_list_peers := reads (fun d => client_list_peers (fun _ => Ok (list_peers (su_now su) d)));
  dc_get_peer ip := reads (fun d => client_get_peer (fun a => get_peer (su_now su) a d) ip);
  dc_add_peer params := queues (fun d => peer ← add_peer_rpc true (add_peer_request params) d; Ok (SvAddPeer peer));
  dc_remove_peer ip := queues (fun d => ip ← remove_peer_rpc true (addr_to_string ip) d; Ok (SvRemovePeer ip));
  dc_list_routes peer := reads (fun d => client_list_routes (fun req => list_routes req d) peer);
  dc_get_best_route prefix := reads (fun d => client_get_best_route (fun p => get_best_route p d) prefix);
  dc_list_candidates prefix := reads (fun d => client_list_candidates (fun p => list_candidates p d) prefix);
  dc_originate_route params := changes (originate_route_rpc (su_secs su) (su_clock su) (originate_request params));
  dc_withdraw_originated_route prefix := changes (withdraw_originated_route_rpc (su_clock su) prefix);
  dc_list_originated_routes := reads (fun d => client_list_originated_routes (fun _ => Ok (list_originated_routes d)));
  dc_set_import_default peer accept := changes (fun d => set_import_default_rpc peer
    (if accept then Num.ACTION_ACCEPT else Num.ACTION_REJECT) (su_ip_now su) d);
  dc_set_export_default peer accept := changes (set_export_default_rpc peer
    (if accept then Num.ACTION_ACCEPT else Num.ACTION_REJECT));
  dc_get_rpki_status := reads (fun _ => client_get_rpki_status (fun _ =>
    Ok (get_rpki_status (su_error_text su) (su_unix_secs su) (su_rtr su))));
  dc_validate_roa prefix asn := reads (fun _ => client_validate_roa (validate_roa (su_roa su)) prefix asn);
|}.

(** One run of the tool against the daemon; the endpoint is valid and the dashboard
    is not asked for. *)
Definition invoke (su : Surroundings) (command : Commands) (s : Served) : option Served * Outcome CliError (list Text) :=
  let _ := pathvector_client su in
  run_with (mkCli [] command) (fun _ => Ok s) (fun _ => Ok tt).

(** What the operator typed, as the daemon is asked for it. *)
Definition asked_params (prefix next_hop : Text) (origin : OriginArg) (communities : list Z) (local_pref med : option Z)
    : OriginateRouteParams :=
  mkOriginateParams prefix next_hop match origin with ArgIgp => Igp | ArgEgp => Egp | ArgIncomplete => Incomplete end
    communities [] [] local_pref med.

Lemma parse_communities_printed cs : Forall is_u32 cs -> parse_communities (map format_community cs) = Ok cs.
Proof.
  induction 1 as [|c cs Hc _ IH]; [done|]. cbn [map parse_communities].
  rewrite format_community_back by done. cbn [mbind outcome_bind]. by rewrite IH.
Qed.

Context {L : IpPrefixLaws} {ML : RouteMapLaws} {HL : HashOrderLaw} {NL : NlriTextLaws}.

Lemma best_shown su prefix s o :
  client_get_best_route (fun p => get_best_route p (sv_daemon s)) prefix = Ok o ->
  invoke su (CmdRoute (RouteBest prefix)) s
  = (Some s, Ok match o with Some route => print_route_detail route
                | None => [text "No route for " ++ prefix ++ text "."] end).
Proof.
  intros E. unfold invoke, run_with, with_client. cbn [cli_command cli_address run_route].
  unfold mbind, run_bind, call. cbn [dc_get_best_route pathvector_client]. unfold reads. by rewrite E.
Qed.
Lemma originate_invoked su prefix nh origin cs lp med s d' : Forall is_u32 cs ->
  originate_route_rpc (su_secs su) (su_clock su) (originate_request (asked_params prefix nh origin cs lp med)) (sv_daemon s)
  = Ok d' ->
  invoke su (CmdRoute (RouteOriginate prefix nh origin (map format_community cs) lp med)) s
  = (Some (mkServed d' (sv_commands s)), Ok []).
Proof.
  intros Hcs E. unfold invoke, run_with, with_client. cbn [cli_command cli_address run_route].
  rewrite (parse_communities_printed cs Hcs). unfold mbind, run_bind, attempt, call.
  cbn [dc_originate_route pathvector_client]. unfold changes. fold (asked_params prefix nh origin cs lp med).
  by rewrite E.
Qed.
Lemma withdraw_invoked su prefix s d' :
  withdraw_originated_route_rpc (su_clock su) prefix (sv_daemon s) = Ok d' ->
  invoke su (CmdRoute (RouteWithdraw prefix)) s = (Some (mkServed d' (sv_commands s)), Ok []).
Proof.
  intros E. unfold invoke, run_with, with_client. cbn [cli_command cli_address run_route].
  unfold mbind, run_bind, call. cbn [dc_withdraw_originated_route pathvector_client]. unfold changes. by rewrite E.
Qed.

(** *** What the operator types and should read, without the tool's own printing *)

(** [65000:100] *)
Definition typed_community (c : Z) : Text := dec_u32 (c / 65536) ++ text ":" ++ dec_u32 (c mod 65536).
Definition number_or_dash (o : option Z) : Text := match o with Some n => dec_u32 n | None => text "—" end.
(** For an IPv4 prefix, the typed next hop; an IPv6 route is originated without one and
    shown under the address 0.0.0.0. *)
Definition shown_lines (f : Family) (prefix next_hop : Text) (origin : OriginArg) (communities : list Z)
    (local_pref med : option Z) : list Text :=
  [text "Prefix:     " ++ prefix;
   match f with FamV4 => text "Peer:       local (—)" | FamV6 => text "Peer:       0.0.0.0 (—)" end;
   text "Next-hop:   " ++ match f, v4_parse next_hop with FamV4, Some a => show_v4 a | _, _ => text "—" end;
   text "AS-path:    —";
   text "Origin:     " ++ match origin with ArgIgp => text "IGP" | ArgEgp => text "EGP" | ArgIncomplete => text "?" end;
   text "Local-pref: " ++ number_or_dash local_pref;
   text "MED:        " ++ number_or_dash med]
  ++ match communities with [] => [] | _ => [text "Communities: " ++ join SPACE (map typed_community communities)] end.
Definition next_hop_reachable (f : Family) (d : DaemonState) (next_hop : Text) : bool :=
  match f, v4_parse next_hop with
  | FamV4, Some a => is_reachable (oracle (ds_v4 d)) (NhV4 a)
  | _, _ => true
  end.

Lemma typed_community_format c : typed_community c = format_community c.
Proof.
  unfold typed_community, format_community. rewrite Z.shiftr_div_pow2 by lia.
  change 0xFFFF with (Z.ones 16). by rewrite Z.land_ones by lia.
Qed.
Lemma typed_communities cs : map typed_community cs = map format_community cs.
Proof. apply map_ext. exact typed_community_format. Qed.
Lemma own_route_lines f prefix nh origin cs lp med :
  print_route_detail (own_route f (asked_params prefix nh origin cs lp med)) = shown_lines f prefix nh origin cs lp med.
Proof.
  unfold print_route_detail, shown_lines, own_route. cbn [cr_prefix cr_peer_address cr_peer_type cr_next_hop cr_as_path
    cr_origin cr_local_pref cr_med cr_communities cr_large_communities cr_atomic_aggregate cr_aggregator asked_params
    op_prefix op_next_hop op_origin op_communities op_large_communities op_local_pref op_med format_as_path].
  rewrite app_nil_r, typed_communities. destruct f, cs, origin; cbn [fmap option_fmap option_map];
    try destruct (v4_parse nh); reflexivity.
Qed.
Lemma asked_reachable secs f (n : Nlri f) d prefix nh origin cs lp med :
  reachable (oracle (ds_fam d f)) (LOCAL_ORIGIN_PEER, route_asked secs n (asked_params prefix nh origin cs lp med))
  = next_hop_reachable f d nh.
Proof. unfold reachable, next_hop_reachable. destruct f; cbn; [by destruct (v4_parse nh)|done]. Qed.

(** C26: From the command line to the routing table and back, where the daemon has seen
    the last change of the kernel's table: an operator who originates a route for a prefix without host bits, written in its canonical form,
    that nobody else has a route for and asks for the best route of this prefix reads
    exactly the lines of the route it typed, each community in the notation it was
    typed in, or that there is no route if the next hop is not reachable; after
    withdrawing it, that there is no route.  For an IPv4 prefix the peer is "local"
    and the next hop is the one typed; for an IPv6 prefix the next hop typed is
    dropped, none is shown, and the peer is shown as 0.0.0.0. *)
Theorem cli_origination_shown su su' su'' su3 f (n : Nlri f) prefix nh origin cs lp med s :
  daemon_ok (sv_daemon s) -> synced_rib (sv_daemon s) ->
  well_formed f n (asked_params prefix nh origin cs lp med) -> canonical n -> prefix = nlri_to_string n ->
  Forall is_u32 cs -> (forall q, q <> LOCAL_ORIGIN_PEER -> cands f (sv_daemon s) !! (n, q) = None) ->
  let no_route := [text "No route for " ++ prefix ++ text "."] in
  exists s' s'', invoke su (CmdRoute (RouteOriginate prefix nh origin (map typed_community cs) lp med)) s = (Some s', Ok [])
    /\ invoke su' (CmdRoute (RouteBest prefix)) s'
       = (Some s', Ok (if next_hop_reachable f (sv_daemon s) nh
                       then shown_lines f prefix nh origin cs lp med else no_route))
    /\ invoke su'' (CmdRoute (RouteWithdraw prefix)) s' = (Some s'', Ok [])
    /\ invoke su3 (CmdRoute (RouteBest prefix)) s'' = (Some s'', Ok no_route).
Proof.
  set (p := asked_params prefix nh origin cs lp med).
  intros Hd Hs Hw Hn Ep Hcs Hq no_route.
  destruct (read_back_spec (su_secs su) (su_clock su) (su_clock su'') f n p (sv_daemon s) Hd Hs Hw Hn Ep Hq)
    as (d' & E & Er & d'' & Ew & En).
  exists (mkServed d' (sv_commands s)), (mkServed d'' (sv_commands s)). rewrite typed_communities.
  split; [by apply originate_invoked|]. split; [|split].
  - rewrite (best_shown su' prefix (mkServed d' (sv_commands s)) _ Er). unfold p. rewrite asked_reachable, <- own_route_lines.
    by destruct (next_hop_reachable _ _ _).
  - exact (withdraw_invoked _ _ (mkServed d' (sv_commands s)) _ Ew).
  - exact (best_shown _ _ (mkServed d'' (sv_commands s)) _ En).
Qed.
End Served.

(** An address or a community that cannot be read ends the command before the daemon
    is called. *)
Theorem bad_input_not_sent {C} {DC : DaemonClient C} (c : C) connect dash address : connect [] = Ok c ->
  let run command := run_with (mkCli [] command) connect dash in
  (addr_parse address = None ->
     run (CmdPeer (PeerGet address)) = (Some c, Err invalid_argument)
     /\ run (CmdPeer (PeerRemove address)) = (Some c, Err invalid_argument)
     /\ run (CmdRoute (RouteList (Some address))) = (Some c, Err invalid_argument)
     /\ forall asn port i e md5, run (CmdPeer (PeerAdd address asn port i e md5)) = (Some c, Err invalid_argument))
  /\ forall prefix nh origin cs lp med, parse_communities cs = Err invalid_argument ->
     run (CmdRoute (RouteOriginate prefix nh origin cs lp med)) = (Some c, Err invalid_argument).
Proof.
  intros Hc run. unfold run, run_with, with_client. cbn [cli_address cli_command]. rewrite Hc.
  split.
  - intros Ha. unfold run_peer, run_route, parse_ip, mbind, run_bind, attempt. rewrite Ha. by cbn.
  - intros prefix nh origin cs lp med H. unfold run_route, mbind, run_bind, attempt. by rewrite H.
Qed.
Lemma parse_communities_refuses l : (exists cs, parse_communities l = Ok cs) \/ parse_communities l = Err invalid_argument.
Proof.
  induction l as [|s l IH]; [left; by exists []|]. cbn [parse_communities].
  assert (H : (exists c, parse_community s = Ok c) \/ parse_community s = Err invalid_argument).
  { unfold parse_community. destruct (split_once COLON s) as [[a b]|]; [|by right]. cbn [ok_or mbind outcome_bind].
    destruct (u32_parse a), (u32_parse b); cbn [ok_or mbind outcome_bind]; try by right.
    destruct (_ || _); [by right|left; by eexists]. }
  destruct H as [[c ->]| ->]; cbn [mbind outcome_bind]; [|by right].
  destruct IH as [[cs ->]| ->]; cbn [mbind outcome_bind]; [left; by eexists|by right].
Qed.

(** ** Histories that meet the hypotheses *)
Section Applied.
#[local] Existing Instances ModelPrefix.ops ModelPrefix.laws ModelRouteMap.ops ModelRouteMap.laws.
#[local] Existing Instances ModelHashOrder.order ModelHashOrder.order_law ModelText.text_ops ModelText.text_laws.

Definition cli_su : Surroundings :=
  mkSurroundings 0 0 (fun _ _ => 0) (fun _ => 0) None None (fun _ => []) (fun _ => None).
Definition cli_served : Served := mkServed (gr_daemon DefAccept) [].
(** [pathvector route originate 10.9.0.0/16 --next-hop 192.0.2.1 --origin egp
    --community 65000:100 --local-pref 120], and the route shown. *)
Definition cli_originate : Commands := CmdRoute (RouteOriginate (nlri_to_string own16) (text "192.0.2.1") ArgEgp
  (map typed_community [4259840100]) (Some 120) None).
Lemma cli_origination_shown_witness : exists s',
  invoke cli_su cli_originate cli_served = (Some s', Ok [])
  /\ invoke cli_su (CmdRoute (RouteBest (nlri_to_string own16))) s'
     = (Some s', Ok (map text ["Prefix:     10.9.0.0/16"; "Peer:       local (—)"; "Next-hop:   192.0.2.1";
         "AS-path:    —"; "Origin:     EGP"; "Local-pref: 120"; "MED:        —"; "Communities: 65000:100"]%string)).
Proof.
  destruct (cli_origination_shown cli_su cli_su cli_su cli_su FamV4 own16 (nlri_to_string own16) (text "192.0.2.1") ArgEgp
    [4259840100] (Some 120) None cli_served (gr_daemon_ok _) (gr_daemon_synced _)) as (s' & s'' & E & Eb & _).
  - split; [apply nlri_parse_to_string| |by constructor]. intros _. exists 3221225985.
    split; [vm_compute; reflexivity|done].
  - exact own16_canonical.
  - reflexivity.
  - repeat constructor; unfold is_u32; lia.
  - intros q _. apply no_candidate; [exact (gr_daemon_ok _)|]. vm_compute. reflexivity.
  - exists s'. split; [exact E|]. rewrite Eb. apply (f_equal (pair (Some s'))). vm_compute. reflexivity.
Defined.
Lemma bad_input_not_sent_witness :
  run_with (DC := pathvector_client cli_su) (mkCli [] (CmdPeer (PeerGet (text "10.0.0.256")))) (fun _ => Ok cli_served) (fun _ => Ok tt)
  = (Some cli_served, Err invalid_argument).
Proof.
  exact (proj1 (proj1 (bad_input_not_sent (DC := pathvector_client cli_su) cli_served (fun _ => Ok cli_served)
    (fun _ => Ok tt) (text "10.0.0.256") eq_refl) eq_refl)).
Defined.
End Applied.
