(* ===== verification/Dashboard.v ===== *)
(** The live dashboard of the command-line tool ([pathvector/src/dashboard.rs]): what it
    shows follows the streams of the management interface.

    The terminal and the drawing of the tables ([ratatui]) are left out; a row is the
    texts of its cells.  The last error is kept as the error, the source keeps its
    text.  [dashboard_follows] relates the rows to the routing table of the daemon
    along the steps of [RouteStep]. *)
From Stdlib Require Import ZArith Lia Bool String.
From stdpp Require Import base tactics numbers decidable sets gmap list.
From S2P Require Import Prelude Addr AddrText Types AsPath Wire Header Notification Open Update Fsm Session RouteMap Roa Policy Route DaemonPolicy BestPath LocRib RibTheorems AdjRib Outbound HandleUpdate ImportTheorems Deferral Capabilities DaemonState Propagate Graceful PeerLifecycle RouteUpdate EventLoop DaemonFacts DaemonInvariant DaemonTheorems PeerTheorems RouteTheorems Proto Grpc ApiClient GrpcTheorems Cli.
Open Scope Z_scope.

Record DashboardState := mkDashboard {
  db_peers : list ClientPeerState;
  db_routes : list ClientRoute;
  db_last_error : option ClientError;
}.
Definition dashboard_new : DashboardState := mkDashboard [] [] None.

(** [if let Some(slot) = l.iter_mut().find(..) { *slot = x } else { l.push(x) }] *)
Fixpoint upsert_by {A} (same : A -> bool) (x : A) (l : list A) : list A :=
  match l with
  | [] => [x]
  | y :: l => if same y then x :: l else y :: upsert_by same x l
  end.
Definition PeerEvent : Type := PeerEventType * option ClientPeerState.
Definition apply_peer_event (s : DashboardState) (event : Outcome ClientError PeerEvent) : DashboardState :=
  match event with
  | Err e => mkDashboard (db_peers s) (db_routes s) (Some e)
  | Ok ((PeCurrent | PeChanged), Some p) =>
      mkDashboard (upsert_by (fun x => bool_decide (cp_address x = cp_address p)) p (db_peers s)) (db_routes s) None
  | Ok (PeRemoved, Some p) =>
      mkDashboard (List.filter (fun x => negb (bool_decide (cp_address x = cp_address p))) (db_peers s)) (db_routes s) None
  | _ => s
  end.
Definition apply_route_event (s : DashboardState) (event : Outcome ClientError ClientRouteEvent) : DashboardState :=
  match event with
  | Err e => mkDashboard (db_peers s) (db_routes s) (Some e)
  | Ok ev =>
      match ce_type ev, ce_route ev, ce_withdrawn_prefix ev with
      | (ReCurrent | ReAnnounced), Some r, _ =>
          mkDashboard (db_peers s) (upsert_by (fun x => bool_decide (cr_prefix x = cr_prefix r)) r (db_routes s)) None
      | ReWithdrawn, _, Some prefix =>
          mkDashboard (db_peers s) (List.filter (fun r => negb (bool_decide (cr_prefix r = prefix))) (db_routes s)) None
      | _, _, _ => s
      end
  | _ => s
  end.

(** The loop of [run_dashboard]: what the arms of its [select!] deliver.  An arm whose
    stream has ended delivers nothing more. *)
Inductive DashboardItem :=
| DiKey (quit : bool)
| DiPeer (event : Outcome ClientError PeerEvent)
| DiRoute (event : Outcome ClientError ClientRouteEvent).
Fixpoint run_loop (s : DashboardState) (items : list DashboardItem) : DashboardState :=
  match items with
  | [] => s
  | DiKey true :: _ => s
  | DiKey false :: items => run_loop s items
  | DiPeer event :: items => run_loop (apply_peer_event s event) items
  | DiRoute event :: items => run_loop (apply_route_event s event) items
  end.

(** *** Rendering: the cells of a row, and the status line *)
Definition peer_cells (p : ClientPeerState) : list Text :=
  [addr_to_string (cp_address p); dec_u32 (cp_remote_as p); fmt_peer_type p; fmt_session_state p;
   format_uptime (cp_uptime_seconds p); dec_u32 (cp_prefixes_received p); dec_u32 (cp_prefixes_accepted p);
   dec_u32 (cp_prefixes_advertised p)].
Definition route_cells (r : ClientRoute) : list Text :=
  [cr_prefix r; format_route_peer (cr_peer_address r); format_next_hop (cr_next_hop r);
   format_as_path (cr_as_path r); format_origin (cr_origin r); format_opt_u32 (cr_med r)].
Definition build_status_bar_line (error_text : ClientError -> Text) (addr : Text) (error : option ClientError) : Text :=
  match error with
  | Some err => text " error: " ++ error_text err ++ text " | q: quit"
  | None => text " Daemon: " ++ addr ++ text " | ● Live | q: quit"
  end.

(** ** Rows *)

Definition row (t : Text) (l : list ClientRoute) : option ClientRoute :=
  List.find (fun r => bool_decide (cr_prefix r = t)) l.
Definition put (r : ClientRoute) (l : list ClientRoute) : list ClientRoute :=
  upsert_by (fun x => bool_decide (cr_prefix x = cr_prefix r)) r l.
Definition drop_row (t : Text) (l : list ClientRoute) : list ClientRoute :=
  List.filter (fun r => negb (bool_decide (cr_prefix r = t))) l.

Lemma row_cons t r l : row t (r :: l) = if decide (cr_prefix r = t) then Some r else row t l.
Proof. unfold row. cbn [List.find]. destruct (decide _); [by rewrite bool_decide_eq_true_2|by rewrite bool_decide_eq_false_2]. Qed.
Lemma row_put t r l : row t (put r l) = if decide (cr_prefix r = t) then Some r else row t l.
Proof.
  unfold put. induction l as [|x l IH]; cbn [upsert_by]; [apply row_cons|].
  case_bool_decide as E.
  - rewrite !row_cons. destruct (decide _) as [|Hne]; [done|]. by rewrite decide_False by congruence.
  - rewrite !row_cons, IH. repeat destruct (decide _); congruence.
Qed.
Lemma row_drop t t' l : row t (drop_row t' l) = if decide (t' = t) then None else row t l.
Proof.
  unfold drop_row. induction l as [|x l IH]; cbn [List.filter]; [by destruct (decide _)|].
  destruct (bool_decide (cr_prefix x = t')) eqn:E; cbn [negb]; zbool; rewrite ?row_cons, IH;
    repeat destruct (decide _); congruence.
Qed.
Lemma put_prefixes r l x : x ∈ map cr_prefix (put r l) -> x = cr_prefix r \/ x ∈ map cr_prefix l.
Proof.
  unfold put. induction l as [|y l IH]; cbn [upsert_by].
  - intros ?%list_elem_of_singleton. by left.
  - case_bool_decide as E; cbn [map]; rewrite !elem_of_cons; [tauto|]. intros [->|H%IH]; tauto.
Qed.
Lemma put_nodup r l : NoDup (map cr_prefix l) -> NoDup (map cr_prefix (put r l)).
Proof.
  unfold put. induction l as [|y l IH]; cbn [upsert_by]; intros Hn.
  - cbn. apply NoDup_singleton.
  - cbn [map] in Hn. apply NoDup_cons in Hn as [Hy Hn]. case_bool_decide as E; cbn [map]; apply NoDup_cons.
    + by rewrite <- E.
    + split; [|by apply IH]. intros H%put_prefixes. destruct H as [H|H]; congruence.
Qed.
Lemma drop_nodup t l : NoDup (map cr_prefix l) -> NoDup (map cr_prefix (drop_row t l)).
Proof.
  intros H. eapply sublist_NoDup; [exact H|]. unfold drop_row. induction l as [|x l IH]; [constructor|].
  cbn [List.filter map]. apply NoDup_cons in H as [_ H]. destruct (negb _); cbn [map]; constructor; by apply IH.
Qed.

(** ** From the daemon to the rows *)
Section Follows.
Context `{P : IpPrefixOps} {M : RouteMapOps} {HO : HashOrder} {NT : NlriText}.

(** What a client gets of the items the daemon sends. *)
Definition on_wire (x : ProtoRouteEvent + Status) : Outcome Status ProtoRouteEvent :=
  match x with inl e => Ok e | inr s => Err s end.
Definition received (items : list (ProtoRouteEvent + Status)) : list (Outcome ClientError ClientRouteEvent) :=
  client_watch_routes (map on_wire items).
Definition after_events (s : DashboardState) (es : list RouteEvent) : DashboardState :=
  foldl apply_route_event s (received (map inl (map event_to_proto es))).
(** [client.watch_routes(None)] at the state [d], with the events that follow. *)
Definition dashboard_of (d : DaemonState) (es : list RouteEvent) : Outcome Status DashboardState :=
  items ← watch_routes [] d (map RiEvent es);
  Ok (run_loop dashboard_new (map DiRoute (received items))).

(** The best route of a prefix, as a client is shown it. *)
Definition best_entry {f} (lr : LocRib f) (n : Nlri f) : option (PeerId * Route f) :=
  p ← best_peer lr n; r ← candidates lr !! (n, p); Some (p, r).
Definition shown_best {f} (d : DaemonState) (n : Nlri f) : option ClientRoute :=
  (fun x => shown_route x.1 n x.2) <$> best_entry (loc_rib (ds_fam d f)) n.
(** The rows of one family are its best routes. *)
Definition shows_family f (s : DashboardState) (d : DaemonState) : Prop :=
  forall n : Nlri f, canonical n -> row (nlri_to_string n) (db_routes s) = shown_best d n.
Definition tidy (s : DashboardState) : Prop := NoDup (map cr_prefix (db_routes s)).

Lemma best_of_entry {f} (lr : LocRib f) n : best lr n = snd <$> best_entry lr n.
Proof. unfold best, best_entry. destruct (best_peer lr n) as [p|]; [|done]. cbn. by destruct (candidates lr !! (n, p)). Qed.
Definition event_for (lr : LocRib FamV4) (n : Nlri FamV4) : RouteEvent :=
  match best_entry lr n with Some (p, r) => EvAnnounced FamV4 p n r | None => EvWithdrawn FamV4 n end.
Lemma events_emit l d : events_of (emit_route_events l d) = events_of d ++ map (event_for (loc_rib (ds_v4 d))) l.
Proof.
  unfold emit_route_events. revert d. induction l as [|n l IH]; intros d; cbn [foldl map]; [by rewrite app_nil_r|].
  rewrite IH. change (events_of (send_event ?e d)) with (events_of d ++ [e]). rewrite <- app_assoc. cbn [app]. do 2 f_equal.
  unfold event_for. rewrite best_of_entry. unfold best_entry. destruct (best_peer _ n) as [p|]; [|done]. cbn.
  by destruct (candidates _ !! (n, p)).
Qed.

Context {L : IpPrefixLaws} {ML : RouteMapLaws} {HL : HashOrderLaw} {NL : NlriTextLaws}.
#[local] Existing Instance nlri_to_string_inj.

Lemma after_app s es es' : after_events s (es ++ es') = after_events (after_events s es) es'.
Proof. unfold after_events, received, client_watch_routes. by rewrite !map_app, foldl_app. Qed.

(** *** One event *)
Lemma entry_best {f} d (n : Nlri f) p r : canonical n -> best_entry (loc_rib (ds_fam d f)) n = Some (p, r) -> is_best d n p r.
Proof.
  intros Hn. unfold best_entry. destruct (best_peer _ n) as [q|] eqn:Ep; [|done]. cbn.
  destruct (candidates _ !! (n, q)) as [x|] eqn:Ex; [|done]. by intros [= <- <-].
Qed.
Lemma event_shown d s n : canonical n -> all_showable d ->
  let s' := after_events s [event_for (loc_rib (ds_v4 d)) n] in
  (forall t, row t (db_routes s') = if decide (nlri_to_string n = t) then shown_best d n else row t (db_routes s))
  /\ (tidy s -> tidy s') /\ db_last_error s' = None.
Proof.
  intros Hn Hs. unfold event_for, shown_best. change (ds_v4 d) with (ds_fam d FamV4).
  destruct (best_entry (loc_rib (ds_fam d FamV4)) n) as [[p r]|] eqn:E.
  - pose proof (route_back p n r (Hs _ _ _ _ (entry_best d n p r Hn E))) as Er.
    unfold after_events, received, client_watch_routes. cbn [map on_wire event_to_proto foldl lift_rpc mbind outcome_bind].
    unfold route_event_try_from. cbn [pe_type pe_route pe_withdrawn_prefix].
    change (route_event_type_try_from Num.EVENT_ANNOUNCED) with (Ok (E:=ConvertError) ReAnnounced).
    cbn [mbind outcome_bind transpose]. rewrite Er. cbn [mbind outcome_bind lift_convert apply_route_event ce_type ce_route].
    cbn [db_routes db_last_error]. fold (put (shown_route p n r) (db_routes s)). split; [|split; [|done]].
    + intros t. rewrite row_put. done.
    + apply put_nodup.
  - cbn. split; [|split; [|done]].
    + intros t. exact (row_drop t (nlri_to_string n) (db_routes s)).
    + apply drop_nodup.
Qed.
(** *** The events for a list of prefixes *)
Lemma events_shown d (l : list (Nlri FamV4)) : Forall canonical l -> all_showable d -> forall s,
  let s' := after_events s (map (event_for (loc_rib (ds_v4 d))) l) in
  (forall t, t ∉ map nlri_to_string l -> row t (db_routes s') = row t (db_routes s))
  /\ (forall n, n ∈ l -> row (nlri_to_string n) (db_routes s') = shown_best d n)
  /\ (tidy s -> tidy s') /\ (db_last_error s = None -> db_last_error s' = None).
Proof.
  intros Hl Hs. induction Hl as [|x l Hx Hl IH]; intros s s'.
  - split_and!; [done| |done|done]. by intros n ?%not_elem_of_nil.
  - destruct (event_shown d s x Hx Hs) as (A1 & A2 & A3). unfold s'. cbn [map].
    change (?e :: ?es) with ([e] ++ es). rewrite after_app.
    set (s1 := after_events s [_]) in *. destruct (IH s1) as (B1 & B2 & B3 & B4). split_and!; [| |auto|auto].
    + intros t Ht. cbn in Ht. apply not_elem_of_cons in Ht as [H1 H2]. rewrite B1 by done. rewrite A1.
      by rewrite decide_False by congruence.
    + intros n Hn. destruct (decide (n ∈ l)) as [Hin|Hnin]; [by apply B2|].
      apply elem_of_cons in Hn as [->|Hn]; [|done]. rewrite B1.
      * by rewrite A1, decide_True.
      * intros (m & Em & Hm)%list_elem_of_fmap. apply (inj _) in Em as ->. done.
Qed.

(** *** The snapshot *)
Lemma rows_put t (l : list ClientRoute) : NoDup (map cr_prefix l) -> forall s,
  row t (foldl (fun l r => put r l) s l) = match row t l with Some r => Some r | None => row t s end.
Proof.
  induction l as [|r l IH]; intros Hn s; [done|]. cbn [map] in Hn. apply NoDup_cons in Hn as [Hr Hn].
  cbn [foldl]. rewrite IH, row_put, row_cons by done. destruct (decide (cr_prefix r = t)) as [E|]; [|done].
  destruct (row t l) as [x|] eqn:Ex; [|done]. unfold row in Ex. apply List.find_some in Ex as [Hx Ep].
  apply bool_decide_eq_true in Ep. destruct Hr. rewrite E, <- Ep. by apply list_elem_of_fmap_2, list_elem_of_In.
Qed.
Lemma row_unique t (l : list ClientRoute) r : NoDup (map cr_prefix l) -> r ∈ l -> cr_prefix r = t -> row t l = Some r.
Proof.
  intros Hn Hin <-. induction l as [|x l IH]; [by apply not_elem_of_nil in Hin|]. cbn [map] in Hn.
  apply NoDup_cons in Hn as [Hx Hn]. rewrite row_cons. apply elem_of_cons in Hin as [->|Hin]; [by rewrite decide_True|].
  rewrite decide_False; [by apply IH|]. intros E. apply Hx. rewrite E. by apply list_elem_of_fmap_2.
Qed.
Lemma row_none t (l : list ClientRoute) : (forall r, r ∈ l -> cr_prefix r <> t) -> row t l = None.
Proof.
  intros H. destruct (row t l) as [r|] eqn:E; [|done]. unfold row in E. apply List.find_some in E as [Hr Hp].
  apply bool_decide_eq_true in Hp. by destruct (H r ltac:(by apply list_elem_of_In)).
Qed.
Definition current (r : ProtoRoute) : ProtoRouteEvent + Status := inl (mkProtoRouteEvent Num.EVENT_CURRENT (Some r) None).
Lemma current_read x c : route_try_from x = Ok c ->
  (event ← lift_rpc (on_wire (current x)); lift_convert (route_event_try_from event))
  = Ok (mkClientRouteEvent ReCurrent (Some c) None).
Proof. intros E. cbn. unfold route_event_try_from. cbn. by rewrite E. Qed.
Lemma currents_put K : forall K' s, convert_routes K = Ok K' ->
  let s' := foldl apply_route_event s (received (map current K)) in
  db_routes s' = foldl (fun l r => put r l) (db_routes s) K' /\ (db_last_error s = None -> db_last_error s' = None).
Proof.
  unfold convert_routes. induction K as [|x K IH]; intros K' s E.
  { cbn in E. by injection E as <-. }
  cbn [ApiClient.collect] in E. destruct (route_try_from x) as [c| | |] eqn:Ex; cbn [mbind outcome_bind] in E; try done.
  destruct (ApiClient.collect route_try_from K) as [cs| | |]; cbn in E, IH; try done. injection E as <-.
  unfold received, client_watch_routes. cbn [map foldl]. rewrite (current_read x c Ex).
  cbn [apply_route_event ce_type ce_route]. fold (received (map current K)).
  match goal with |- context [foldl apply_route_event ?x (map _ (map _ (map _ K)))] => destruct (IH cs x eq_refl) as [I1 I2] end.
  split; [exact I1|]. intros _. by apply I2.
Qed.
Lemma loop_routes items : forall s, run_loop s (map DiRoute items) = foldl apply_route_event s items.
Proof. induction items as [|x items IH]; intros s; [done|]. cbn. by rewrite IH. Qed.
Lemma forward_events es : forward_routes (map RiEvent es) = map inl (map event_to_proto es).
Proof. induction es as [|e es IH]; [done|]. cbn. by rewrite IH. Qed.

Lemma snapshot_shown d : all_showable d -> exists s, dashboard_of d [] = Ok s
  /\ (forall es, dashboard_of d es = Ok (after_events s es))
  /\ tidy s /\ db_last_error s = None /\ forall f, shows_family f s d.
Proof.
  intros Hs. destruct (convert_all (all_routes None d)) as (K & E & Em & Hc).
  { intros x. rewrite all_routes_elem. intros (f & n & p & r & Hb & _ & ->). exists f, n, p, r. split; [by eapply Hs|done]. }
  set (s := foldl apply_route_event dashboard_new (received (map current (all_routes None d)))).
  destruct (currents_put _ K dashboard_new E) as [H1 H2]. fold s in H1, H2. specialize (H2 eq_refl).
  assert (Hn : NoDup (map cr_prefix K)) by (rewrite Em; apply all_routes_nodup).
  assert (Hes : forall es, dashboard_of d es = Ok (after_events s es)).
  { intros es. unfold dashboard_of, watch_routes. rewrite forward_events. cbn [watch_filter].
    change (watch_filter []) with (Ok (E:=Status) (None (A:=PeerId))). cbn [mbind outcome_bind]. f_equal. rewrite loop_routes.
    unfold received, client_watch_routes. rewrite !map_app, !foldl_app. done. }
  exists s. split; [by rewrite Hes|]. split; [done|]. split; [|split; [done|]].
  - unfold tidy. rewrite H1. cbn [db_routes dashboard_new]. clear -NL. revert K.
    assert (H : forall K l, NoDup (map cr_prefix l) -> NoDup (map cr_prefix (foldl (fun l r => put r l) l K))).
    { induction K as [|r K IH]; intros l Hl; [done|]. cbn. by apply IH, put_nodup. }
    intros K. apply H. constructor.
  - intros f n Hc'. rewrite H1, rows_put by done. cbn [row List.find db_routes dashboard_new].
    unfold shown_best. destruct (best_entry (loc_rib (ds_fam d f)) n) as [[p r]|] eqn:Eb; cbn [fmap option_fmap option_map].
    + pose proof (entry_best d n p r Hc' Eb) as Hb. rewrite (row_unique _ K (shown_route p n r)); [done|done| |done].
      apply Hc. exists (route_to_proto p n r). split; [|by apply route_back, (Hs f n p r)].
      apply all_routes_elem. exists f, n, p, r. split; [done|]. by split; [left|].
    + rewrite row_none; [done|]. intros c (x & Hx & Ex)%Hc Ep. apply all_routes_elem in Hx as (f' & m & p & r & Hb & _ & ->).
      rewrite route_back in Ex by by eapply Hs. injection Ex as <-. change (nlri_to_string m = nlri_to_string n) in Ep.
      assert (f' = f) as -> by (pose proof (nlri_colon m); pose proof (nlri_colon n) as Hm; rewrite <- Ep in Hm;
        destruct f', f; tauto || (exfalso; naive_solver)).
      apply (inj _) in Ep as ->. destruct Hb as (_ & Hp & Hr). unfold best_entry in Eb. rewrite Hp in Eb. cbn in Eb.
      by rewrite Hr in Eb.
Qed.
End Follows.
