(* ===== verification/DashboardTheorems.v ===== *)
(** The dashboard follows the daemon: along updates, ends of sessions, deadlines, changes
    of the kernel's table and of an import policy, its rows stay the best IPv4 routes. *)
From Stdlib Require Import ZArith Lia Bool String.
From stdpp Require Import base tactics numbers decidable sets gmap list.
From S2P Require Import Prelude Addr AddrText Types AsPath Wire Header Notification Open Update Fsm Session RouteMap Roa Policy Route DaemonPolicy BestPath LocRib RibTheorems AdjRib Outbound OutboundTheorems HandleUpdate ImportTheorems Deferral Capabilities DaemonState Propagate Graceful PeerLifecycle RouteUpdate EventLoop DaemonFacts DaemonInvariant DaemonTheorems PeerTheorems RouteTheorems Proto Grpc ApiClient GrpcTheorems Cli Dashboard.
Open Scope Z_scope.

Section Tells.
Context `{P : IpPrefixOps} {M : RouteMapOps} {HO : HashOrder} {NT : NlriText}.
Context {L : IpPrefixLaws} {ML : RouteMapLaws} {HL : HashOrderLaw} {NL : NlriTextLaws}.
#[local] Existing Instance nlri_to_string_inj.

(** A step reports the best routes of a list of prefixes, as they are after it, and
    no other prefix has another best route than before. *)
Definition tells (d d' : DaemonState) : Prop := exists l, Forall canonical l
  /\ events_of d' = events_of d ++ map (event_for (loc_rib (ds_v4 d'))) l
  /\ forall n, canonical n -> n ∉ l -> best_entry (loc_rib (ds_v4 d')) n = best_entry (loc_rib (ds_v4 d)) n.
(** What a client that subscribed at some earlier state shows. *)
Record up_to_date_with (s : DashboardState) (d : DaemonState) : Prop := {
  up_tidy : tidy s;
  up_error : db_last_error s = None;
  up_rows : shows_family FamV4 s d;
}.
Lemma tells_follow s d d' : tells d d' -> all_showable d' -> up_to_date_with s d ->
  exists es, events_of d' = events_of d ++ es /\ up_to_date_with (after_events s es) d'.
Proof.
  intros (l & Hl & Ee & Ho) Hs [H1 H2 H3]. eexists. split; [exact Ee|].
  destruct (events_shown d' l Hl Hs s) as (A1 & A2 & A3 & A4). split; [auto|auto|].
  intros n Hn. destruct (decide (n ∈ l)) as [Hin|Hnin]; [by apply A2|]. rewrite A1.
  - rewrite H3 by done. unfold shown_best. cbn [ds_fam]. by rewrite Ho.
  - intros (m & Em & Hm)%list_elem_of_fmap. by apply (inj _) in Em as ->.
Qed.
Lemma tells_refl d d' : events_of d' = events_of d -> loc_rib (ds_v4 d') = loc_rib (ds_v4 d) -> tells d d'.
Proof. intros E1 E2. exists []. split; [constructor|]. rewrite E2. by rewrite E1, app_nil_r. Qed.
(** What the reports are about: the IPv4 routing table, its oracle, and the reports so far. *)
Definition view (d : DaemonState) := (loc_rib (ds_v4 d), oracle (ds_v4 d), events_of d).
Lemma tells_view d1 d1' d2 d2' : view d1' = view d1 -> view d2' = view d2 -> tells d1 d2 -> tells d1' d2'.
Proof.
  intros E1 E2 (l & Hl & Ee & Ho). injection E1 as F1 _ G1. injection E2 as F2 _ G2. exists l. split; [done|].
  split; [by rewrite F2, G2, G1|]. intros n Hn Hin. by rewrite F2, F1, Ho.
Qed.
Lemma view_strip d d' : strip d' = strip d -> events_of d' = events_of d -> view d' = view d.
Proof.
  intros Hs E. pose proof (core_fam FamV4 _ _ (strip_core _ _ Hs)) as Ef. unfold view. rewrite E.
  pose proof (f_equal loc_rib Ef) as E1. pose proof (f_equal oracle Ef) as E2. cbn in E1, E2. by rewrite E1, E2.
Qed.

Lemma best_nlris_elem {f} d (n : Nlri f) : n ∈ best_nlris (f:=f) d <-> canonical n /\ is_Some (best_entry (loc_rib (ds_fam d f)) n).
Proof.
  unfold best_nlris. split.
  - intros ([m r] & -> & H)%list_elem_of_fmap. apply best_routes_elem in H as [Hc Hb]. split; [done|].
    rewrite best_of_entry in Hb. apply fmap_Some in Hb as (x & E & _). cbn [fst]. by exists x.
  - intros [Hc [[p r] E]]. apply list_elem_of_fmap. exists (n, r). split; [done|]. apply best_routes_elem.
    split; [done|]. by rewrite best_of_entry, E.
Qed.
Lemma entry_peer {f} (lr : LocRib f) n : rib_ok lr -> canonical n -> best_entry lr n = None -> best_peer lr n = None.
Proof.
  intros Hok Hn. unfold best_entry. destruct (best_peer lr n) as [p|] eqn:E; [|done]. cbn.
  destruct (ok_best lr Hok n p Hn E) as [r ->]. done.
Qed.
(** Where routes only go, a prefix without a best route gets none. *)
Lemma fade_entry {f} (d d' : DaemonState) (n : Nlri f) : daemon_ok d -> daemon_ok d' -> synced_rib d -> synced_rib d' ->
  oracle (ds_fam d' f) = oracle (ds_fam d f) ->
  (forall q r, cands f d' !! (n, q) = Some r -> cands f d !! (n, q) = Some r) -> canonical n ->
  best_entry (loc_rib (ds_fam d f)) n = None -> best_entry (loc_rib (ds_fam d' f)) n = None.
Proof.
  intros Hd Hd' Hs Hs' Eo Hsub Hn E. pose proof (fo_rib _ (dk_fam d Hd f)) as Hok. pose proof (fo_rib _ (dk_fam d' Hd' f)) as Hok'.
  pose proof (entry_peer _ n Hok Hn E) as Ep. pose proof (Hs f n Hn) as Hu. pose proof (Hs' f n Hn) as Hu'.
  unfold up_to_date in Hu, Hu'. rewrite Ep in Hu. cbn [selected] in Hu. unfold best_entry.
  destruct (best_peer (loc_rib (ds_fam d' f)) n) as [q|]; [|done]. exfalso. cbn [selected] in Hu'.
  destruct Hu' as (x & Hx & Hr & _). apply cand_list_elem in Hx; [|done]. rewrite Eo in Hr.
  rewrite (Hu (q, x)) in Hr; [done|]. apply cand_list_elem; [done|]. by apply Hsub.
Qed.

Lemma Ok_inj {E A} (a b : A) : Ok (E:=E) a = Ok b -> a = b.
Proof. by intros [= ->]. Qed.
(** *** What does not report *)
Lemma events_upd {f} (g : Fam f -> Fam f) d : events_of (upd_fam g d) = events_of d.
Proof. by destruct f. Qed.
Lemma events_fib_apply {f} (cs : list (BestPathChange f)) d : events_of (fib_apply cs d) = events_of d.
Proof. apply events_fib. Qed.
Lemma events_set_aro {f} ip (aro : AdjRibOut f) d : events_of (set_aro ip aro d) = events_of d.
Proof. apply events_upd. Qed.
Lemma events_reset_aro f ip pt d : events_of (reset_aro f ip pt d) = events_of d.
Proof. unfold reset_aro. destruct (adj_ribs_out _ !! ip); [apply events_set_aro|done]. Qed.
Lemma events_blackhole f ip d : events_of (withdraw_peer_blackhole_kernel_routes f ip d) = events_of d.
Proof. unfold withdraw_peer_blackhole_kernel_routes. destruct (adj_ribs_in _ !! ip); [apply events_fib|done]. Qed.
Lemma events_clear_in f ip d : events_of (clear_in f ip d) = events_of d.
Proof. unfold clear_in. destruct (adj_ribs_in _ !! ip); [apply events_upd|done]. Qed.
Lemma events_flush_to {f} (xs : list (PrefixDecision f)) ip tx d : events_of (fst (flush_to xs ip tx d)) = events_of d.
Proof. unfold flush_to. by destruct (flush _ _ _ _ _). Qed.
Lemma events_repropagate {f} ip (l : list (Nlri f)) d : events_of (repropagate ip l d) = events_of d.
Proof.
  apply foldl_events. intros d0 q. unfold repropagate_peer. destruct (capable f d0 q); [|done].
  destruct (export_policy _ f !! q); [|done]. destruct (adj_ribs_out _ !! q); [|done].
  destruct (update_senders _ !! q); [|done]. destruct (decide_all _ _ _) as [aro xs].
  match goal with |- context [flush_to ?a ?b ?c ?e] => pose proof (events_flush_to a b c e) as E end.
  destruct (flush_to _ _ _ _) as [d1 ok]. cbn [fst] in E. rewrite events_set_aro in E. rewrite <- E. by destruct ok.
Qed.
End Tells.
#[export] Hint Rewrite @events_fib @events_upd @events_fib_apply @events_set_aro @events_reset_aro @events_blackhole
  @events_clear_in @events_repropagate @events_propagate @events_flush : events.

(** *** What leaves the view alone *)
Section Views.
Context `{P : IpPrefixOps} {M : RouteMapOps} {HO : HashOrder}.

Ltac by_strip := apply view_strip; [by autorewrite with strip|by autorewrite with events].
Lemma view_fib_apply {f} (cs : list (BestPathChange f)) d : view (fib_apply cs d) = view d.
Proof. by_strip. Qed.
Lemma view_fib_calls cs d : view (fib_calls cs d) = view d.
Proof. by_strip. Qed.
Lemma view_sync_received ip d : view (sync_received ip d) = view d.
Proof. done. Qed.
Lemma view_reset_aro f ip pt d : view (reset_aro f ip pt d) = view d.
Proof. by_strip. Qed.
Lemma view_repropagate {f} ip (l : list (Nlri f)) d : view (repropagate ip l d) = view d.
Proof. by_strip. Qed.
Lemma view_propagate {f} now (l : list (Nlri f)) d : view (propagate_to_all_peers now l d) = view d.
Proof. by_strip. Qed.
Lemma view_flush d : view (flush_pending d) = view d.
Proof. by_strip. Qed.
Lemma view_blackhole f ip d : view (withdraw_peer_blackhole_kernel_routes f ip d) = view d.
Proof. by_strip. Qed.
Lemma view_clear_in f ip d : view (clear_in f ip d) = view d.
Proof. unfold clear_in. destruct (adj_ribs_in _ !! ip); [|done]. by destruct f. Qed.
Lemma view_remove_stale f ip d : view (remove_stale f ip d) = view d.
Proof. by destruct f. Qed.
Lemma view_leave_session ip d : view (leave_session ip d) = view d.
Proof. done. Qed.
Lemma view_fam6 (g : Fam FamV6 -> Fam FamV6) d : view (upd_fam g d) = view d.
Proof. done. Qed.
Lemma view_best_nlris d d' : view d' = view d -> best_nlris (f:=FamV4) d' = best_nlris (f:=FamV4) d.
Proof. intros [= E _ _]. unfold best_nlris. cbn [ds_fam]. by rewrite E. Qed.
Lemma view_emit l d : loc_rib (ds_v4 (emit_route_events l d)) = loc_rib (ds_v4 d)
  /\ oracle (ds_v4 (emit_route_events l d)) = oracle (ds_v4 d).
Proof.
  pose proof (core_fam FamV4 _ _ (strip_core _ _ (strip_emit_route_events l d))) as E.
  split; [exact (f_equal loc_rib E)|exact (f_equal oracle E)].
Qed.
End Views.
#[export] Hint Rewrite @view_fib_apply @view_fib_calls @view_sync_received @view_reset_aro @view_repropagate @view_propagate @view_flush @view_blackhole
  @view_clear_in @view_remove_stale @view_leave_session @view_fam6 : view.

(** ** The steps that end routes *)
Section Ends.
Context `{P : IpPrefixOps} {M : RouteMapOps} {HO : HashOrder} {NT : NlriText}.
Context {L : IpPrefixLaws} {ML : RouteMapLaws} {HL : HashOrderLaw} {NL : NlriTextLaws}.

(** Every prefix that had a best route is reported, after routes have gone. *)
Lemma emit_fades d dm d' : view d' = view (emit_route_events (best_nlris (f:=FamV4) d) dm) ->
  daemon_ok d -> synced_rib d -> daemon_ok d' -> synced_rib d' -> oracle (ds_v4 dm) = oracle (ds_v4 d) ->
  events_of dm = events_of d ->
  (forall n q r, cands FamV4 d' !! (n, q) = Some r -> cands FamV4 d !! (n, q) = Some r) -> tells d d'.
Proof.
  intros Ev Hd Hs Hd' Hs' Ho Ee Hc. destruct (view_emit (best_nlris (f:=FamV4) d) dm) as [Er Eo].
  injection Ev as Vr Vo Ve.
  exists (best_nlris (f:=FamV4) d). split; [|split].
  - apply Forall_forall. intros n Hn. by apply best_nlris_elem in Hn as [? _].
  - by rewrite Ve, events_emit, Vr, Er, Ee.
  - intros n Hn Hin. assert (E : best_entry (loc_rib (ds_v4 d)) n = None).
    { destruct (best_entry (loc_rib (ds_v4 d)) n) as [x|] eqn:E; [|done]. destruct Hin. apply best_nlris_elem.
      split; [done|]. cbn [ds_fam]. by exists x. }
    rewrite E. assert (Eo' : oracle (ds_v4 d') = oracle (ds_v4 d)) by congruence.
    exact (fade_entry (f:=FamV4) d d' n Hd Hd' Hs Hs' Eo' (Hc n) Hn E).
Qed.
Lemma forgotten_sub ip d d' n q r : forgotten ip d d' -> cands FamV4 d' !! (n, q) = Some r -> cands FamV4 d !! (n, q) = Some r.
Proof. intros H. rewrite (proj1 (H FamV4)). by destruct (decide _). Qed.

(** The shared end of a session and of a restart window. *)
Lemma withdrawn_tells ip (k : DaemonState -> list (BestPathChange FamV4) -> list (BestPathChange FamV6) -> DaemonState) d d1 d' :
  daemon_ok d -> synced_rib d -> view d1 = view d -> (forall d cs cs6, view (k d cs cs6) = view d) ->
  ('(d2, cs) ← rib_withdraw_peer FamV4 ip d1; '(d2, cs6) ← rib_withdraw_peer FamV6 ip d2;
   Ok (emit_route_events (best_nlris (f:=FamV4) d1) (k d2 cs cs6))) = Ok d' ->
  forgotten ip d d' -> daemon_ok d' -> synced_rib d' -> tells d d'.
Proof.
  intros Hd Hs Ev Hk E Hf Hd' Hs'. unfold rib_withdraw_peer in E.
  destruct (withdraw_peer _ _ _) as [[lr4 c4]| | |]; cbn [mbind outcome_bind] in E; [|done..].
  destruct (withdraw_peer _ _ _) as [[lr6 c6]| | |]; cbn [mbind outcome_bind] in E; [|done..].
  apply Ok_inj in E. subst d'. rewrite (view_best_nlris _ _ Ev) in *. set (d2 := upd_fam _ _) in *.
  assert (Ex : oracle (ds_v4 d2) = oracle (ds_v4 d) /\ events_of d2 = events_of d)
    by (injection Ev as _ Eo Ee; split; [exact Eo|exact Ee]). destruct Ex as [Eo Ee].
  pose proof (Hk d2 c4 c6) as Ek. injection Ek as _ Ko Ke. eapply emit_fades; [reflexivity|done|done|done|done| | |].
  - unfold view in Ko. rewrite Ko. exact Eo.
  - rewrite Ke. exact Ee.
  - intros n q r. by apply (forgotten_sub ip).
Qed.
Lemma down_tells ip reason now d d' : daemon_ok d -> synced_rib d -> enter_gr ip reason d = false ->
  on_terminated ip reason now d = Ok d' -> daemon_ok d' -> synced_rib d' -> tells d d'.
Proof.
  intros Hd Hs Hg E Hd' Hs'. unfold on_terminated in E. rewrite Hg in E.
  destruct (terminate_clean_forgets ip (leave_session ip d)) as (d2 & E2 & Hf);
    [eapply (daemon_ok_core d); [apply core_leave_session|done]|].
  rewrite E2 in E. apply Ok_inj in E as ->. set (dl := leave_session ip d) in *.
  assert (Hf0 : forgotten ip d d') by (intros []; [exact (Hf FamV4)|exact (Hf FamV6)]).
  set (d1 := clear_in FamV6 ip (clear_in FamV4 ip (withdraw_peer_blackhole_kernel_routes FamV6 ip
    (withdraw_peer_blackhole_kernel_routes FamV4 ip dl)))).
  eapply (withdrawn_tells ip (fun d cs cs6 => let d := fib_apply cs6 (fib_apply cs d) in
    repropagate ip (best_nlris (f:=FamV4) d1) (reset_aro FamV6 ip (default External (peer_config_types (ds_peers d) !! ip))
      (reset_aro FamV4 ip (default External (peer_config_types (ds_peers d) !! ip)) d))) d d1);
    [done|done| | |exact E2|exact Hf0|done|done].
  - unfold d1. by autorewrite with view.
  - intros d0 cs cs6. cbv zeta. by autorewrite with view.
Qed.
Lemma deadline_tells ip d d' : daemon_ok d -> synced_rib d -> on_gr_deadline_expired ip d = Ok d' ->
  daemon_ok d' -> synced_rib d' -> tells d d'.
Proof.
  intros Hd Hs E Hd' Hs'. destruct (gr_deadline_forgets ip d Hd) as (d2 & E2 & Hf).
  rewrite E2 in E. apply Ok_inj in E as ->.
  set (d1 := clear_in FamV6 ip (clear_in FamV4 ip (withdraw_peer_blackhole_kernel_routes FamV6 ip
    (withdraw_peer_blackhole_kernel_routes FamV4 ip (remove_stale FamV6 ip (remove_stale FamV4 ip d)))))).
  eapply (withdrawn_tells ip (fun d cs cs6 => let d := fib_apply cs6 (fib_apply cs d) in
    repropagate ip (best_nlris (f:=FamV6) d1) (repropagate ip (best_nlris (f:=FamV4) d1)
      (reset_aro FamV6 ip (default External (peer_config_types (ds_peers d) !! ip))
      (reset_aro FamV4 ip (default External (peer_config_types (ds_peers d) !! ip)) d)))) d d1);
    [done|done| | |exact E2|exact Hf|done|done].
  - unfold d1. by autorewrite with view.
  - intros d0 cs cs6. cbv zeta. by autorewrite with view.
Qed.
End Ends.

(** ** An update *)
Section Updates.
Context `{P : IpPrefixOps} {M : RouteMapOps} {HO : HashOrder} {NT : NlriText}.
Context {L : IpPrefixLaws} {ML : RouteMapLaws} {HL : HashOrderLaw} {NL : NlriTextLaws}.

Lemma spec_other {f} (n : Nlri f) p ops : Forall (fun op => ~ op_about n op) ops -> forall m,
  foldl spec_step m ops !! (n, p) = m !! (n, p).
Proof.
  induction 1 as [|op ops Ha _ IH]; intros m; [done|]. cbn [foldl]. rewrite IH.
  destruct op as [q r o|q k o|q o|o]; cbn in *; [| |tauto..].
  - apply lookup_insert_ne. congruence.
  - apply lookup_delete_ne. congruence.
Qed.
(** What a plan does not mention keeps its best route. *)
Lemma refines_other {f} peer (pol : Policy (Route f)) oracle t lr ops s n : keeps_nlri pol ->
  side_refines peer pol oracle t lr ops s -> canonical n -> n ∉ map side_nlri ops ->
  best_entry (s_rib s) n = best_entry lr n.
Proof.
  intros Hk R Hn Hin. unfold best_entry. rewrite (sr_other _ _ _ _ _ _ _ R n Hn Hin).
  destruct (best_peer lr n) as [p|]; [|done]. cbn.
  rewrite (sr_candidates _ _ _ _ _ _ _ R), spec_other; [done|]. by apply plan_other.
Qed.

(** The attribute pass collects the IPv4 prefixes of the MP attributes. *)
Definition attr_v4 (a : PathAttribute) : list (Nlri FamV4) := v4_prefixes (mp_prefixes IPV4_UNICAST [a]).
Definition collected (p : Parsed) : list (Nlri FamV4) := (mp_v4_announced p).*1 ++ mp_v4_withdrawn p.
Lemma v4_prefixes_app l l' : v4_prefixes (l ++ l') = v4_prefixes l ++ v4_prefixes l'.
Proof. apply omap_app. Qed.
Lemma mp_prefixes_cons a x l : mp_prefixes a (x :: l) = mp_prefixes a [x] ++ mp_prefixes a l.
Proof. unfold mp_prefixes. cbn [map concat]. by rewrite app_nil_r. Qed.
Lemma parse_attr_collects pt p a n : n ∈ collected (parse_attr pt p a) -> n ∈ collected p \/ n ∈ attr_v4 a.
Proof.
  destruct p as [ho ha o path nh lp m rare a4 w4 a6 w6]. unfold collected, attr_v4, mp_prefixes.
  destruct a as [| | | |lp'| | | | | |mp|mp| | | | | |flags tc v]; cbn [parse_attr map concat]; try by left.
  - destruct pt; by left.
  - rewrite app_nil_r. destruct (decide (mpr_afi_safi mp = IPV4_UNICAST)) as [E|E].
    + rewrite bool_decide_eq_true_2 by done. cbn [mp_v4_announced mp_v4_withdrawn].
      rewrite fmap_app, !elem_of_app, fmap_fst_pair. tauto.
    + destruct (decide (mpr_afi_safi mp = IPV6_UNICAST)); by left.
  - rewrite app_nil_r. destruct (decide (mpu_afi_safi mp = IPV4_UNICAST)) as [E|E].
    + rewrite bool_decide_eq_true_2 by done. cbn [mp_v4_announced mp_v4_withdrawn]. rewrite !elem_of_app. tauto.
    + destruct (decide (mpu_afi_safi mp = IPV6_UNICAST)); by left.
  - destruct (has_flag flags 0x80 && has_flag flags 0x40); by left.
Qed.
Lemma parse_collects pt attrs n : n ∈ collected (parse_attributes pt attrs) -> n ∈ v4_prefixes (mp_prefixes IPV4_UNICAST attrs).
Proof.
  assert (H : forall attrs p, n ∈ collected (foldl (parse_attr pt) p attrs) ->
    n ∈ collected p \/ n ∈ v4_prefixes (mp_prefixes IPV4_UNICAST attrs)).
  { clear. induction attrs as [|a attrs IH]; intros p; cbn [foldl]; [by left|]. intros [H|H]%IH.
    - apply parse_attr_collects in H as [H|H]; [by left|right]. rewrite mp_prefixes_cons, v4_prefixes_app, elem_of_app. by left.
    - right. rewrite mp_prefixes_cons, v4_prefixes_app, elem_of_app. by right. }
  intros Hn. apply H in Hn as [Hn|Hn]; [|done]. by apply not_elem_of_nil in Hn.
Qed.
Lemma withdraws_nlri {f} (l : list (Nlri f)) : map side_nlri (map SoWithdraw l) = l.
Proof. rewrite map_map. apply map_id. Qed.
Lemma plan_affected cx msg n : n ∈ map side_nlri (plan_v4 cx msg) -> n ∈ affected_v4 msg.
Proof.
  assert (Hc : forall m, m ∈ (mp_v4_announced (attrs_of cx msg)).*1 \/ m ∈ mp_v4_withdrawn (attrs_of cx msg) -> m ∈ affected_v4 msg).
  { intros m Hm. unfold affected_v4. rewrite !elem_of_app. do 2 right.
    apply (parse_collects (cx_peer_type cx)). unfold collected. by rewrite elem_of_app. }
  assert (Hk : forall m, m ∈ kept_v4 cx msg -> m ∈ affected_v4 msg).
  { intros m. unfold kept_v4, affected_v4. rewrite !elem_of_app. destruct (lacks_mandatory cx msg); [by intros ?%not_elem_of_nil|tauto]. }
  assert (Hk' : forall m, m ∈ (kept_mp_v4 cx msg).*1 -> m ∈ affected_v4 msg).
  { intros m. unfold kept_mp_v4. destruct (_ || _); [by intros ?%not_elem_of_nil|]. intros H. apply Hc. by left. }
  unfold plan_v4. rewrite !map_app, !elem_of_app. intros [H|[H|[H|[H|H]]]].
  - rewrite withdraws_nlri in H. unfold affected_v4. rewrite !elem_of_app. by left.
  - destruct (lacks_mandatory cx msg); [|by apply not_elem_of_nil in H]. rewrite <- map_app, withdraws_nlri, elem_of_app in H.
    destruct H as [H|H]; [|apply Hc; by left]. unfold affected_v4. rewrite !elem_of_app. tauto.
  - destruct (confed_malformed cx msg); [|by apply not_elem_of_nil in H]. rewrite <- map_app, withdraws_nlri, elem_of_app in H.
    destruct H as [H|H]; [by apply Hk|by apply Hk'].
  - rewrite withdraws_nlri in H. apply Hc. by right.
  - destruct (_ || _); [by apply not_elem_of_nil in H|]. rewrite map_map in H.
    apply list_elem_of_fmap in H as (r & -> & Hr). unfold routes_v4 in Hr. apply list_elem_of_omap in Hr as ([m nh] & Hm & E).
    cbn [fst snd] in E. destruct (bad_v4_nh _ _); [done|]. injection E as <-. cbn [side_nlri].
    rewrite restore_rr_nlri, build_route_nlri. apply elem_of_app in Hm as [Hm|Hm].
    + apply list_elem_of_fmap in Hm as (m' & [= -> _] & Hm). by apply Hk.
    + apply list_elem_of_fmap in Hm as ([m' h] & [= -> _] & Hm). apply Hk'. apply list_elem_of_fmap. by exists (m', h).
Qed.

Lemma affected_canonical msg : msg_ok msg -> Forall canonical (affected_v4 msg).
Proof.
  intros (H1 & H2 & H3). unfold affected_v4. apply Forall_app_2; [done|]. apply Forall_app_2; [done|].
  induction H3 as [|a l Ha _ IH]; [constructor|]. rewrite mp_prefixes_cons, v4_prefixes_app. apply Forall_app_2; [|done].
  unfold mp_prefixes. cbn [map concat]. rewrite app_nil_r.
  destruct a; try constructor; (destruct (bool_decide _); [by eapply prefixes_canonical|constructor]).
Qed.
Lemma after_update_view ip clock msg s4 s6 note d d2 : imported ip s4 s6 d d2 ->
  over_limits (fst (after_update ip clock msg s4 s6 note d2)) ip = false ->
  exists d5, after_update ip clock msg s4 s6 note d2 = (emit_route_events (affected_v4 msg) d5, note) /\ view d5 = view d2.
Proof.
  intros Hi Ho. destruct (after_update_spec ip clock msg s4 s6 note d d2 Hi) as (d' & note' & E & Hi' & _).
  rewrite E in Ho. cbn [fst] in Ho. rewrite (imported_same_limits _ _ _ _ _ _ Hi Hi') in Ho.
  destruct (imported_held _ _ _ _ _ Hi) as [H4 H6]. unfold over_limits in Ho. rewrite H4, H6 in Ho.
  unfold after_update. unfold ari_len. rewrite Ho. eexists. split; [reflexivity|].
  destruct (nonempty (affected_v6 msg)); unfold fib_update; by autorewrite with view.
Qed.
(** An UPDATE reports exactly its IPv4 prefixes; the best routes of others do not change. *)
Lemma import_reports ip clock msg d d' note : daemon_ok d -> msg_ok msg -> over_limits d' ip = false ->
  import_update ip clock msg d = Ok (d', note) -> is_Some (import_policies (policies (ds_peers d)) !! ip) ->
  events_of d' = events_of d ++ map (event_for (loc_rib (ds_v4 d'))) (affected_v4 msg)
  /\ forall n, canonical n -> ~ n ∈ affected_v4 msg -> best_entry (loc_rib (ds_v4 d')) n = best_entry (loc_rib (ds_v4 d)) n.
Proof.
  intros Hd Hm Ho E [pol Ep].
  destruct (dk_known d Hd FamV4 ip ltac:(by exists pol)) as [_ [t4 Et4]].
  destruct (dk_known d Hd FamV6 ip ltac:(by exists pol)) as [[pol6 Ep6] [t6 Et6]].
  destruct (import_update_spec ip clock msg d pol pol6 t4 t6 Hd Hm Ep Ep6 Et4 Et6)
    as (s4 & s6 & d2 & E2 & R4 & _ & Hi & _ & Eo).
  rewrite E2 in E. apply Ok_inj in E. set (note0 := plan_notification _ msg) in *.
  destruct (after_update_view ip clock msg s4 s6 note0 d d2 Hi) as (d5 & E5 & Ev); [by rewrite E|].
  rewrite E5 in E. injection E as <- _. destruct (view_emit (affected_v4 msg) d5) as [Er _].
  injection Ev as Vr _ Ve. split.
  - rewrite events_emit, Er, Ve. unfold events_of. by rewrite Eo.
  - intros n Hn Hin. rewrite Er, Vr. rewrite (im_rib4 _ _ _ _ _ Hi).
    eapply refines_other; [|exact R4|exact Hn|]; [by eapply nlri_terms_keep, (dk_policy d Hd FamV4)|].
    intros H. by apply Hin, (plan_affected (update_ctx ip pol pol6 (ck_route clock) d)).
Qed.
Lemma import_tells ip clock msg d d' note : daemon_ok d -> msg_ok msg -> over_limits d' ip = false ->
  import_update ip clock msg d = Ok (d', note) -> tells d d'.
Proof.
  intros Hd Hm Ho E. destruct (import_policies (policies (ds_peers d)) !! ip) as [pol|] eqn:Ep.
  - destruct (import_reports ip clock msg d d' note Hd Hm Ho E ltac:(by exists pol)) as [He Hn].
    exists (affected_v4 msg). split; [by apply affected_canonical|done].
  - unfold import_update in E. rewrite Ep in E. injection E as <- _. by apply tells_refl.
Qed.
(** An UPDATE that carries no IPv4 prefix reports nothing, whatever it does to the IPv6
    best routes that [WatchRoutes] has in its first snapshot. *)
Lemma v6_update_unreported ip clock msg d d' note : daemon_ok d -> msg_ok msg -> over_limits d' ip = false ->
  affected_v4 msg = [] -> import_update ip clock msg d = Ok (d', note) -> events_of d' = events_of d.
Proof.
  intros Hd Hm Ho Hv E. destruct (import_policies (policies (ds_peers d)) !! ip) as [pol|] eqn:Ep.
  - destruct (import_reports ip clock msg d d' note Hd Hm Ho E ltac:(by exists pol)) as [He _].
    rewrite He, Hv. apply app_nil_r.
  - unfold import_update in E. rewrite Ep in E. by injection E as <- _.
Qed.
End Updates.

(** ** End-of-RIB, policies and the kernel *)
Section Others.
Context `{P : IpPrefixOps} {M : RouteMapOps} {HO : HashOrder} {NT : NlriText}.
Context {L : IpPrefixLaws} {ML : RouteMapLaws} {HL : HashOrderLaw} {NL : NlriTextLaws}.

Lemma events_send_marker f ip d : events_of (fst (send_marker f ip d)) = events_of d.
Proof.
  unfold send_marker. destruct (update_senders _ !! ip); [|done]. destruct (send_eor f s) as [tx ok]. by destruct ok.
Qed.
Lemma events_dump f ip d : events_of (fst (dump_family f ip d)) = events_of d.
Proof.
  unfold dump_family. destruct (peer_types _ !! ip); [|done]. destruct (capable f d ip); [|done].
  destruct (negotiated_max_len _ !! ip); [|done]. destruct (update_senders _ !! ip) as [tx|]; [|done].
  destruct (match f with FamV4 => false | FamV6 => _ end); [apply events_send_marker|].
  destruct (export_policy _ f !! ip); [|done]. destruct (adj_ribs_out _ !! ip); [|done].
  destruct (decide_all _ _ _) as [aro xs].
  match goal with |- context [flush_to ?a ?b ?c ?e] => pose proof (events_flush_to a b c e) as E end.
  destruct (flush_to _ _ _ _) as [d1 ok]. cbn [fst] in E. rewrite events_set_aro in E. destruct ok; [|exact E].
  pose proof (events_send_marker f ip d1) as E2. destruct (send_marker f ip d1) as [d2 st]. cbn [fst] in *.
  change (events_of (sync_advertised ip d2)) with (events_of d2). congruence.
Qed.
Lemma view_recompute d : view (recompute_selection_deferral d) = view d.
Proof.
  unfold recompute_selection_deferral. destruct (sd_recompute _ _ _) as [sd released].
  transitivity (view (set_deferral sd d)); [|done]. apply view_strip; [apply strip_catch_up|].
  unfold catch_up_released_families. destruct (fst released), (snd released); cbv zeta;
    rewrite ?(foldl_events _ (fun d ip => events_dump _ ip d)); done.
Qed.
Lemma view_pruned_in {f} ip (l : list (Nlri f)) d : view (pruned_in ip l d) = view d.
Proof.
  unfold pruned_in. destruct (adj_ribs_in _ !! ip); [|done].
  match goal with |- view (upd_fam _ ?x) = _ => transitivity (view x); [by destruct f|] end. apply view_fib_calls.
Qed.
Lemma withdraw_all_quiet {f} ip (ns : list (Nlri f)) : forall d d' cs, rib_withdraw_all ip ns d = Ok (d', cs) ->
  oracle (ds_v4 d') = oracle (ds_v4 d) /\ events_of d' = events_of d /\ (f = FamV6 -> view d' = view d).
Proof.
  induction ns as [|n ns IH]; intros d d' cs E; cbn [rib_withdraw_all] in E; [by injection E as <- _|].
  unfold rib_withdraw in E. destruct (loc_rib_withdraw _ _ _ _) as [[lr c]| | |]; cbn [mbind outcome_bind] in E; [|done..].
  destruct (rib_withdraw_all ip ns _) as [[d2 cs2]| | |] eqn:E2; cbn [mbind outcome_bind] in E; [|done..].
  injection E as <- _. destruct (IH _ _ _ E2) as (H1 & H2 & H3). split_and!; [by rewrite H1; destruct f|by rewrite H2; destruct f|].
  intros ->. by rewrite H3.
Qed.
Lemma eor_tells f ip d d'  : daemon_ok d -> synced_rib d -> end_of_rib f ip d = Ok d' ->
  daemon_ok d' -> synced_rib d' -> tells d d'.
Proof.
  intros Hd Hs E Hd' Hs'. assert (Hq : forall x, view x = view d -> tells d (recompute_selection_deferral x)).
  { intros x Ex. pose proof (eq_trans (view_recompute x) Ex) as Ev. injection Ev as Er _ Ee. by apply tells_refl. }
  destruct (stale_nlri (ds_fam d f) !! ip) as [st|] eqn:Es.
  2:{ unfold end_of_rib in E. rewrite ds_fam_upd in E. cbn [stale_nlri fam_set_eor] in E. rewrite Es in E.
      apply Ok_inj in E as <-. apply Hq. by destruct f. }
  destruct (end_of_rib_spec f ip d st Hd Es) as (d2 & E2 & [Hc _] & Hoth & _). rewrite E2 in E. apply Ok_inj in E as ->.
  unfold end_of_rib in E2. rewrite ds_fam_upd in E2. cbn [stale_nlri fam_set_eor] in E2. rewrite Es in E2.
  set (d1 := remove_stale f ip _) in E2. assert (V1 : view d1 = view d) by (unfold d1; rewrite view_remove_stale; by destruct f).
  destruct (bool_decide (st = ∅)); [apply Ok_inj in E2 as <-; by apply Hq|].
  unfold prune_stale_nlri in E2. fold (pruned_in ip (hash_order (elements st)) d1) in E2.
  set (dp := pruned_in ip _ d1) in E2. pose proof (eq_trans (view_pruned_in ip (hash_order (elements st)) d1) V1) as Vp.
  fold dp in Vp. cbv zeta in E2.
  assert (Hsub : forall n q r, cands FamV4 d' !! (n, q) = Some r -> cands FamV4 d !! (n, q) = Some r).
  { intros n q r. destruct f; [rewrite Hc; by destruct (decide _)|]. by rewrite (proj1 (Hoth FamV4 ltac:(done))). }
  destruct (rib_withdraw_all ip _ dp) as [[d3 cs]| | |] eqn:E3; cbn [mbind outcome_bind] in E2; [|done..].
  destruct (withdraw_all_quiet ip _ _ _ _ E3) as (Q1 & Q2 & Q3). injection Vp as Pr Po Pe.
  apply Ok_inj in E2. destruct f; cbn [emit_events] in E2.
  - assert (Eb : best_nlris (f:=FamV4) dp = best_nlris (f:=FamV4) d) by (unfold best_nlris; cbn [ds_fam]; by rewrite Pr).
    rewrite Eb in E2. subst d'. eapply emit_fades; [apply view_recompute|done|done|done|done| | |exact Hsub].
    + match goal with |- oracle (ds_v4 ?x) = _ => assert (Vx : view x = view d3) by by autorewrite with view end.
      injection Vx as _ -> _. by rewrite Q1.
    + autorewrite with events. by rewrite Q2.
  - subst d'. apply Hq. autorewrite with view. rewrite Q3 by done. unfold view. by rewrite Pr, Po, Pe.
Qed.

(** *** A change of an import policy *)
Lemma reevaluate4_tells ip now d d' : daemon_ok d -> reevaluate_family (f:=FamV4) ip now d = Ok d' -> tells d d'.
Proof.
  intros Hd E. unfold reevaluate_family in E. destruct (adj_ribs_in (ds_fam d FamV4) !! ip) as [t|] eqn:Et; [|done].
  destruct (import_policy _ FamV4 !! ip) as [pol|] eqn:Ep; [|done].
  assert (Hk : keeps_nlri pol) by (by eapply nlri_terms_keep, (dk_policy d Hd FamV4)).
  pose proof (fo_rib _ (dk_fam d Hd FamV4)) as Hok.
  assert (Hl : Forall (fun x : Nlri FamV4 * Route FamV4 => nlri x.2 = x.1 /\ canonical x.1) (ari_iter t)).
  { apply Forall_forall. intros [n raw] Hin. unfold ari_iter in Hin. rewrite (hash_order_perm _ (map_to_list _)) in Hin.
    apply elem_of_map_to_list in Hin. exact (fo_in _ (dk_fam d Hd FamV4) ip t Et n raw Hin). }
  unfold reapply_import_policy in E. rewrite reapply_run in E. set (ops := map _ (ari_iter t)) in E.
  assert (Hops : Forall op_ok ops /\ forall n, n ∉ (ari_iter t).*1 -> Forall (fun op => ~ op_about n op) ops).
  { unfold ops. split; [|intros n Hn]; rewrite Forall_map; apply Forall_forall; intros [m raw] Hin;
      rewrite Forall_forall in Hl; destruct (Hl _ Hin) as [Em Hc]; cbn [fst snd] in *; unfold reapply_op; cbn [fst snd];
      specialize (Hk raw); destruct (evaluate pol raw) as [r []]; cbn in *; try congruence;
      intros <-; apply Hn, list_elem_of_fmap; exists (m, raw); (split; [|done]); cbn; congruence. }
  destruct Hops as [Ho Ha]. destruct (rib_run_spec ops _ Hok Ho) as (lr & cs & Er & _ & Hc & _). rewrite Er in E.
  cbn [mbind outcome_bind] in E. apply Ok_inj in E. cbn [emit_events] in E. subst d'. set (l := (ari_iter t).*1) in *.
  match goal with |- tells d (emit_route_events l ?x) => set (dm := x); assert (Vm : view dm = (lr, oracle (ds_v4 d), events_of d)) end.
  { unfold dm. by autorewrite with view. }
  injection Vm as Mr _ Me. destruct (view_emit l dm) as [Lr _]. exists l. split; [|split].
  - unfold l. apply Forall_map. eapply Forall_impl; [exact Hl|]. by intros x [_ H].
  - by rewrite events_emit, Lr, Me.
  - intros n Hn Hin. rewrite Lr, Mr. unfold best_entry. rewrite (rib_run_other n ops Hn _ lr cs Hok Ho (Ha n Hin) Er).
    change (ds_fam d FamV4) with (ds_v4 d) in *. destruct (best_peer (loc_rib (ds_v4 d)) n) as [p|]; [|done]. cbn.
    rewrite (Hc (candidates (loc_rib (ds_v4 d)))) by done. by rewrite spec_other by by apply Ha.
Qed.
Lemma reevaluate6_view ip now d d' : reevaluate_family (f:=FamV6) ip now d = Ok d' -> view d' = view d.
Proof.
  unfold reevaluate_family. destruct (adj_ribs_in _ !! ip); [|done]. destruct (import_policy _ FamV6 !! ip); [|done].
  destruct (reapply_import_policy _ _ _ _ _) as [[lr cs]| | |]; cbn [mbind outcome_bind]; [|done..].
  intros E. apply Ok_inj in E as <-. cbn [emit_events]. by autorewrite with view.
Qed.
Lemma import_default_tells ip a now d d' : daemon_ok d -> set_import_default ip a now d = Ok d' -> tells d d'.
Proof.
  intros Hd E. unfold set_import_default in E.
  destruct (import_policies _ !! ip) as [pol|] eqn:Ep; [|apply Ok_inj in E as <-; by apply tells_refl].
  destruct (import_policies_v6 _ !! ip) as [pol6|] eqn:Ep6; [|done].
  set (t := tables_set_import_default (policies (ds_peers d)) ip a) in *.
  destruct (set_policies_ok t d Hd) as [H1 _].
  { intros [] ip' pol'; cbn [import_policy tables_set_import_default t];
      apply set_default_terms; [apply (dk_policy d Hd FamV4)|apply (dk_policy d Hd FamV6)]. }
  { intros [] ip'; apply alter_is_Some. }
  { exact (dk_export d Hd). }
  unfold reevaluate_import_for_peer in E.
  destruct (reevaluate_family (f:=FamV4) ip now (set_policies t d)) as [d1| | |] eqn:E1; cbn [mbind outcome_bind] in E; [|done..].
  destruct (reevaluate_family (f:=FamV6) ip now d1) as [d2| | |] eqn:E2; cbn [mbind outcome_bind] in E; [|done..].
  apply Ok_inj in E as <-. eapply (tells_view (set_policies t d)); [done| |by eapply reevaluate4_tells].
  by rewrite view_flush, (reevaluate6_view _ _ _ _ E2).
Qed.

(** *** A change of the kernel's table *)
Lemma changed_elem {f} (n : Nlri f) cs : n ∈ changed_nlris cs <-> Exists (mentions n) cs.
Proof.
  unfold changed_nlris. rewrite list_elem_of_omap, Exists_exists.
  split; intros (c & Hc & H); exists c; (split; [done|]); destruct c; cbn in *; try congruence; done.
Qed.
Lemma kernel_tells o4 o6 now d d' : daemon_ok d -> on_fib_change now (set_oracles o4 o6 d) = Ok d' -> tells d d'.
Proof.
  intros Hd E. set (d0 := set_oracles o4 o6 d) in *.
  assert (V0 : events_of d0 = events_of d /\ loc_rib (ds_v4 d0) = loc_rib (ds_v4 d)) by done. destruct V0 as [E0 R0].
  unfold on_fib_change, rib_recompute_all in E. cbn [ds_fam] in E.
  pose proof (fo_rib _ (dk_fam d Hd FamV4)) as Hok. cbn [ds_fam] in Hok. rewrite <- R0 in Hok.
  destruct (recompute_all_spec (loc_rib (ds_v4 d0)) (oracle (ds_v4 d0)) Hok) as (lr & cs & Er & _ & Hc & _ & Hcs).
  rewrite Er in E. cbn [mbind outcome_bind] in E.
  destruct (recompute_all _ _) as [[lr6 cs6]| | |]; cbn [mbind outcome_bind] in E; [|done..]. apply Ok_inj in E.
  set (dm := fib_apply cs6 (fib_apply cs _)) in E. assert (Vm : view dm = (lr, o4, events_of d)).
  { unfold dm. by autorewrite with view. }
  assert (Ho : forall n, canonical n -> n ∉ changed_nlris cs -> best_entry lr n = best_entry (loc_rib (ds_v4 d)) n).
  { intros n Hn Hin. unfold best_entry. rewrite Hc, R0. destruct (decide (best_peer lr n = best_peer (loc_rib (ds_v4 d0)) n)) as [-> |Hne];
      [by rewrite R0|]. destruct Hin. apply changed_elem, Exists_exists. eexists. split; [apply Hcs; by exists n|].
    by destruct (best lr n). }
  assert (Hl : Forall canonical (changed_nlris cs)).
  { apply Forall_forall. intros n (c & Hcc & Hm)%changed_elem%Exists_exists. apply Hcs in Hcc as (m & Hm' & _ & ->).
    destruct (best lr m); cbn in Hm; congruence. }
  set (d1 := if nonempty (changed_nlris cs) then _ else dm) in E.
  assert (H1 : tells d d1 /\ view d' = view d1).
  { split; [|subst d'; destruct (nonempty (changed_nlris cs6)); [by autorewrite with view|done]].
    exists (changed_nlris cs). split; [done|]. unfold d1. destruct (changed_nlris cs) as [|n l] eqn:El; cbn [nonempty].
    - injection Vm as Mr _ Me. cbn [map]. rewrite Mr, Me, app_nil_r. split; [done|]. exact Ho.
    - set (dp := propagate_to_all_peers now (n :: l) dm). assert (Vp : view dp = view dm) by (unfold dp; by autorewrite with view).
      rewrite Vm in Vp. injection Vp as Pr _ Pe. destruct (view_emit (n :: l) dp) as [Lr _].
      rewrite events_emit, Lr, Pr, Pe. split; [done|]. exact Ho. }
  destruct H1 as [H1 H2]. by eapply tells_view.
Qed.
End Others.

(** ** Claims *)
Section Claims.
Context `{P : IpPrefixOps} {M : RouteMapOps} {HO : HashOrder} {NT : NlriText}.
Context {L : IpPrefixLaws} {ML : RouteMapLaws} {HL : HashOrderLaw} {NL : NlriTextLaws}.

(** What may happen to the daemon: an UPDATE of a peer, the end of a session, the end of a
    restart window, a new table of the kernel, a new import default. *)
Inductive RouteStep :=
| RsUpdate (ip : IpAddr) (clock : Clock) (msg : UpdateMessage)
| RsDown (ip : IpAddr) (reason : TerminationReason) (now : Instant)
| RsDeadline (ip : IpAddr)
| RsKernel (o4 o6 : NextHopOracle) (now : IpAddr -> Instant)
| RsImport (ip : IpAddr) (action : DefaultAction) (now : IpAddr -> Instant).
Definition route_step (d : DaemonState) (s : RouteStep) : Outcome False DaemonState :=
  match s with
  | RsUpdate ip clock msg => '(d, _) ← on_route_update ip clock msg d; Ok d
  | RsDown ip reason now => on_terminated ip reason now d
  | RsDeadline ip => on_gr_deadline_expired ip d
  | RsKernel o4 o6 now => on_fib_change now (set_oracles o4 o6 d)
  | RsImport ip action now => set_import_default ip action now d
  end.
Fixpoint route_run (d : DaemonState) (steps : list RouteStep) : Outcome False DaemonState :=
  match steps with [] => Ok d | s :: steps => d ← route_step d s; route_run d steps end.
(** Where the reports are complete: an UPDATE that does not take its peer over its prefix
    limits, an end of session that does not start a graceful restart. *)
Definition step_reported (s : RouteStep) (d d' : DaemonState) : Prop :=
  match s with
  | RsUpdate ip _ msg => msg_ok msg /\ over_limits d' ip = false
  | RsDown ip reason _ => enter_gr ip reason d = false
  | _ => True
  end.
Definition step_sound (s : RouteStep) : Prop := match s with RsUpdate _ _ msg => msg_ok msg | _ => True end.
Fixpoint run_reported (d : DaemonState) (steps : list RouteStep) : Prop :=
  match steps with
  | [] => True
  | s :: steps => step_sound s /\ forall d', route_step d s = Ok d' ->
      step_reported s d d' /\ all_showable d' /\ run_reported d' steps
  end.

Lemma set_oracles_ok o4 o6 d : daemon_ok d -> daemon_ok (set_oracles o4 o6 d).
Proof.
  intros Hd. unfold set_oracles. apply upd_fam_ok; [apply upd_fam_ok; [done| |done]| |done].
  - destruct (dk_fam d Hd FamV4). by split.
  - destruct (dk_fam d Hd FamV6). by split.
Qed.
Lemma route_step_ok s d : daemon_ok d -> synced_rib d -> step_sound s ->
  exists d', route_step d s = Ok d' /\ daemon_ok d' /\ synced_rib d'.
Proof.
  intros Hd Hs Hm. destruct s as [ip clock msg|ip reason now|ip|o4 o6 now|ip a now]; cbn [route_step step_sound] in *.
  - destruct (safely_route_update ip clock msg d Hm Hd) as ([d1 note] & E & H1 & S1). rewrite E. exists d1. by split_and!; [|done|apply S1].
  - destruct (safely_terminated ip reason now d Hd) as (d1 & E & H1 & S1). exists d1. by split_and!; [|done|apply S1].
  - destruct (safely_gr_deadline ip d Hd) as (d1 & E & H1 & S1). exists d1. by split_and!; [|done|apply S1].
  - destruct (on_fib_change_safe now _ (set_oracles_ok o4 o6 d Hd)) as (d1 & E & H1 & S1). by exists d1.
  - destruct (safely_set_import_default ip a now d Hd) as (d1 & E & H1 & S1). exists d1. by split_and!; [|done|apply S1].
Qed.
Lemma step_tells s d d' : daemon_ok d -> synced_rib d -> route_step d s = Ok d' -> daemon_ok d' -> synced_rib d' ->
  step_reported s d d' -> tells d d'.
Proof.
  intros Hd Hs E Hd' Hs' Hr. destruct s as [ip clock msg|ip reason now|ip|o4 o6 now|ip a now]; cbn [route_step step_reported] in *.
  - destruct Hr as [Hm Ho]. unfold on_route_update in E. destruct (is_eor_v4 msg); [|destruct (is_eor_v6 msg)].
    + destruct (end_of_rib FamV4 ip d) as [d1| | |] eqn:E1; cbn in E; try done. injection E as ->. by eapply eor_tells.
    + destruct (end_of_rib FamV6 ip d) as [d1| | |] eqn:E1; cbn in E; try done. injection E as ->. by eapply eor_tells.
    + destruct (rr_inbound ip d msg) as [msg'|] eqn:Er; [|cbn in E; injection E as <-; by apply tells_refl].
      destruct (import_update ip clock msg' d) as [[d1 note]| | |] eqn:E1; cbn in E; try done. injection E as ->.
      eapply import_tells; [done|by eapply rr_inbound_ok|done|exact E1].
  - by eapply down_tells.
  - by eapply deadline_tells.
  - by eapply kernel_tells.
  - by eapply import_default_tells.
Qed.
Lemma follow_run steps : forall d s, daemon_ok d -> synced_rib d -> run_reported d steps -> up_to_date_with s d ->
  exists d' es, route_run d steps = Ok d' /\ events_of d' = events_of d ++ es /\ up_to_date_with (after_events s es) d'.
Proof.
  induction steps as [|st steps IH]; intros d s Hd Hs Hr Hu; cbn [route_run run_reported] in *.
  { exists d, []. split; [done|]. by rewrite app_nil_r. }
  destruct Hr as [Hm Hr]. destruct (route_step_ok st d Hd Hs Hm) as (d1 & E & H1 & S1).
  destruct (Hr d1 E) as (Hrep & Hshow & Hrest). rewrite E. cbn [mbind outcome_bind].
  destruct (tells_follow s d d1) as (es1 & Ee1 & Hu1); [by eapply step_tells|done|done|].
  destruct (IH d1 _ H1 S1 Hrest Hu1) as (d2 & es2 & E2 & Ee2 & Hu2). exists d2, (es1 ++ es2).
  split; [done|]. split; [by rewrite Ee2, Ee1, app_assoc|]. by rewrite after_app.
Qed.

(** C27: What the dashboard shows is what the daemon has: subscribed at any state in
    which the daemon has seen the last change of the kernel's table, and after any
    updates, ends of sessions and restart windows, changes of the kernel's table and
    of import defaults, its rows are one for each IPv4 prefix with a best route,
    with the attributes of this route, and it shows no error; provided that it
    receives every event of the stream (a client that lags behind is told of the
    loss once and may show stale rows for good, [ended_stream_hidden]), that no
    update takes its peer over its prefix limits, that no session end starts a
    graceful restart, and that the best routes on the way are those a client can be
    shown ([all_showable]). *)
Theorem dashboard_follows d steps : daemon_ok d -> synced_rib d -> all_showable d -> run_reported d steps ->
  exists d' es s, route_run d steps = Ok d' /\ events_of d' = events_of d ++ es /\ dashboard_of d es = Ok s
    /\ NoDup (map cr_prefix (db_routes s)) /\ db_last_error s = None
    /\ forall n : Nlri FamV4, canonical n -> row (nlri_to_string n) (db_routes s) = shown_best d' n.
Proof.
  intros Hd Hs Hshow Hr. destruct (snapshot_shown d Hshow) as (s0 & _ & Hes & Ht & He & Hf).
  destruct (follow_run steps d s0 Hd Hs Hr) as (d' & es & E & Ee & [H1 H2 H3]); [by split|].
  exists d', es, (after_events s0 es). split_and!; [done|done|apply Hes|exact H1|exact H2|exact H3].
Qed.
End Claims.

(** ** Histories that meet the hypotheses *)
Section Applied.
#[local] Existing Instances ModelPrefix.ops ModelPrefix.laws ModelRouteMap.ops ModelRouteMap.laws.
#[local] Existing Instances ModelHashOrder.order ModelHashOrder.order_law ModelText.text_ops ModelText.text_laws.

(** One established peer; it announces a route, and its session ends. *)
Definition dash_start : DaemonState := scenario one_cfg (from_peer one_ip (SeEstablished one_info)).
Definition dash_steps : list RouteStep :=
  [RsUpdate one_ip (one_clocks 0%nat) (imp_msg imp_attrs); RsImport one_ip DefReject (fun _ => 0);
   RsImport one_ip DefAccept (fun _ => 0)].
Definition dash_after (d : DaemonState) (s : RouteStep) : DaemonState :=
  match route_step d s with Ok d' => d' | _ => d end.
Lemma dash_after_step d s d' : route_step d s = Ok d' -> d' = dash_after d s.
Proof. unfold dash_after. by intros ->. Qed.
Lemma dash_start_ops : Forall daemon_op_ok (from_peer one_ip (SeEstablished one_info)).
Proof. rewrite <- (app_nil_r (from_peer _ _)). apply from_peer_ok; [exact I|apply Forall_nil_2]. Qed.
Lemma dash_reported : run_reported dash_start dash_steps.
Proof.
  cbn [run_reported dash_steps step_sound]. split; [exact imp_full_ok|]. intros d1 E1%dash_after_step. subst d1.
  split; [split; [exact imp_full_ok|vm_compute; reflexivity]|].
  split; [apply all_showable_compute; intros []; vm_compute; reflexivity|]. split; [exact I|].
  intros d2 E2%dash_after_step. subst d2. split; [exact I|].
  split; [apply all_showable_compute; intros []; vm_compute; reflexivity|]. split; [exact I|].
  intros d3 E3%dash_after_step. subst d3. split; [exact I|].
  split; [apply all_showable_compute; intros []; vm_compute; reflexivity|exact I].
Qed.
Lemma dashboard_follows_witness : exists d' es s, route_run dash_start dash_steps = Ok d'
  /\ dashboard_of dash_start es = Ok s /\ db_last_error s = None
  /\ row (nlri_to_string imp10) (db_routes s) = shown_best d' imp10.
Proof.
  destruct (dashboard_follows dash_start dash_steps) as (d' & es & s & E & _ & Es & _ & He & Hr).
  - exact (scenario_ok _ _ dash_start_ops).
  - apply (scenario_synced _ _ dash_start_ops). exact I.
  - apply all_showable_compute. intros []; vm_compute; reflexivity.
  - exact dash_reported.
  - exists d', es, s. split; [exact E|]. split; [exact Es|]. split; [exact He|]. exact (Hr imp10 imp10_canonical).
Defined.
(** What it shows in the end. *)
Lemma dashboard_sample :
  match route_run dash_start dash_steps with
  | Ok d' => match dashboard_of dash_start (drop (length (events_of dash_start)) (events_of d')) with
             | Ok s => map route_cells (db_routes s)
             | _ => []
             end
  | _ => []
  end = [map text ["10.0.0.0/8"; "192.168.1.1"; "192.168.1.1"; "65010"; "IGP"; "—"]%string].
Proof. vm_compute. reflexivity. Qed.

(** The end of the route stream, as after a lag, is shown only until the next event of a
    peer: the status line then says that the dashboard is live, while its routes are
    those of the time of the lag for good. *)
Lemma ended_stream_hidden s e later p error_text addr :
  build_status_bar_line error_text addr
    (db_last_error (run_loop s (map DiRoute (received (forward_routes [RiLagged; RiEvent e])) ++ [DiPeer (Ok (PeChanged, Some p))])))
  = text " Daemon: " ++ addr ++ text " | ● Live | q: quit"
  /\ db_routes (run_loop s (map DiRoute (received (forward_routes (RiLagged :: later))))) = db_routes s.
Proof. done. Qed.
End Applied.
