(* ===== verification/TcpMd5.v ===== *)
(** Authentication of outbound connections ([pathvector-sys/src/tcp.rs] and
    [tcp_connect] of [pathvector-session/src/transport/mod.rs]): the socket option
    that gives the kernel the MD5 key of a peer, and the connection that is made with it.

    The kernel is the class [TcpStack]; what it documents of [TCP_MD5SIG] is
    [TcpStackLaws], over [kernel_reads], its reading of the structure it is handed.
    Structures in memory are bytes, in the byte order [Endian] of the machine. *)
From Stdlib Require Import ZArith Lia Bool.
From stdpp Require Import base tactics numbers decidable fin_sets gmap list.
From S2P Require Import Prelude Addr.
Open Scope Z_scope.

(** ** Memory *)
Inductive Endian := LittleEndian | BigEndian.
Definition ne_bytes (e : Endian) (n : nat) (v : Z) : list Z :=
  match e with LittleEndian => rev (be_bytes n v) | BigEndian => be_bytes n v end.
Definition from_ne (e : Endian) (l : list Z) : Z :=
  match e with LittleEndian => from_be (rev l) | BigEndian => from_be l end.
(** [u32::to_be] *)
Definition u32_to_be (e : Endian) (v : Z) : Z :=
  match e with LittleEndian => from_be (rev (be_bytes 4 v)) | BigEndian => v end.
Lemma ne_bytes_length e n v : length (ne_bytes e n v) = n.
Proof. destruct e; cbn [ne_bytes]; [rewrite length_rev|]; apply be_bytes_length. Qed.
Lemma ne_bytes_back e n v : from_ne e (ne_bytes e n v) = v mod 256 ^ Z.of_nat n.
Proof. destruct e; cbn [from_ne ne_bytes]; [rewrite rev_involutive|]; apply from_be_be_bytes. Qed.
Lemma network_order e v : ne_bytes e 4 (u32_to_be e v) = u32_be v.
Proof.
  destruct e; [|done]. cbn [ne_bytes u32_to_be].
  assert (H : bytes (rev (be_bytes 4 v))) by (apply Forall_rev, be_bytes_bytes).
  pose proof (be_bytes_from_be _ H) as E. rewrite length_rev, be_bytes_length in E. rewrite E.
  apply rev_involutive.
Qed.

(** ** The socket option ([apply_linux]) *)
Definition TCP_MD5SIG_MAXKEYLEN : nat := 80.
Definition AF_INET : Z := 2.
Definition ENOPROTOOPT : Z := 92.
Definition EOPNOTSUPP : Z := 95.
Record SockaddrIn := mkSockaddrIn { sin_family : Z; sin_port : Z; s_addr : Z; sin_zero : list Z }.
Definition sockaddr_bytes (e : Endian) (s : SockaddrIn) : list Z :=
  ne_bytes e 2 (sin_family s) ++ ne_bytes e 2 (sin_port s) ++ ne_bytes e 4 (s_addr s) ++ sin_zero s.
(** [tcpm_addr] and [tcpm_key] are the bytes of their memory. *)
Record TcpMd5Sig := mkTcpMd5Sig {
  tcpm_addr : list Z;
  tcpm_pad1 : Z;
  tcpm_keylen : Z;
  tcpm_pad2 : Z;
  tcpm_pad3 : Z;
  tcpm_key : list Z;
}.
Definition md5sig_bytes (e : Endian) (s : TcpMd5Sig) : list Z :=
  tcpm_addr s ++ ne_bytes e 2 (tcpm_pad1 s) ++ [tcpm_keylen s] ++ [tcpm_pad2 s]
  ++ ne_bytes e 4 (tcpm_pad3 s) ++ tcpm_key s.
Definition zeroed : TcpMd5Sig := mkTcpMd5Sig (replicate 128 0) 0 0 0 0 (replicate 80 0).
Inductive SockError := InvalidInput | Unsupported | OsError (errno : Z).
(** The structure; [u8::try_from] and the range of [copy_from_slice] panic if the key
    does not fit. *)
Definition md5sig_for (e : Endian) (v4 : Z) (key : list Z) : Outcome SockError TcpMd5Sig :=
  let addr_in := mkSockaddrIn AF_INET 0 (u32_to_be e v4) (replicate 8 0) in
  let src := sockaddr_bytes e addr_in in
  let addr := src ++ skipn (length src) (tcpm_addr zeroed) in
  if 255 <? len key then Panic
  else if (length (tcpm_key zeroed) <? length key)%nat then Panic
  else Ok (mkTcpMd5Sig addr 0 (len key) 0 0 (key ++ skipn (length key) (tcpm_key zeroed))).

(** What the kernel reads: [struct tcp_md5sig] of [linux/tcp.h], with a [sockaddr_in]
    at its start. *)
Definition kernel_reads (e : Endian) (b : list Z) : option (list Z * list Z) :=
  if from_ne e (take 2 b) =? AF_INET then
    match drop 130 b with
    | n :: rest => Some (take 4 (drop 4 b), take (Z.to_nat n) (drop 5 rest))
    | [] => None
    end
  else None.

Class TcpStack (K Conn : Type) := {
  (** [TcpSocket::new_v4], [new_v6] ([true]); [setsockopt(fd, IPPROTO_TCP, TCP_MD5SIG, ..)],
      with its [errno]; [socket.connect]; [TcpStream::connect] *)
  new_socket : bool -> K -> K * (SockError + Z);
  set_md5sig : Z -> list Z -> K -> K * option Z;
  socket_connect : Z -> IpAddr * Z -> K -> K * (SockError + Conn);
  stream_connect : IpAddr * Z -> K -> K * (SockError + Conn);
  (** the key of an address on a socket, and what a connection is signed with *)
  md5_key : K -> Z -> list Z -> option (list Z);
  conn_key : Conn -> option (list Z);
}.
Class TcpStackLaws (K Conn : Type) (e : Endian) `{TcpStack K Conn} : Prop := {
  md5_installed : forall fd b k k' a key, set_md5sig fd b k = (k', None) ->
    kernel_reads e b = Some (a, key) -> key <> [] -> md5_key k' fd a = Some key;
  connect_signed : forall fd a port k k' c, socket_connect fd (IpV4 a, port) k = (k', inr c) ->
    conn_key c = md5_key k fd (u32_be a);
}.

Section Connect.
Context {K Conn : Type} `{TS : TcpStack K Conn} (e : Endian).

(** An operation on the stack, which may fail ([?]). *)
Definition SockIo (A : Type) : Type := K -> K * Outcome SockError A.
Definition sock_ret {A} (a : A) : SockIo A := fun k => (k, Ok a).
Definition sock_fail {A} (err : SockError) : SockIo A := fun k => (k, Err err).
Definition kernel_call {A} (m : K -> K * (SockError + A)) : SockIo A := fun k =>
  let '(k, r) := m k in (k, match r with inr a => Ok a | inl err => Err err end).
#[export] Instance sock_bind : MBind SockIo := fun A B f m k =>
  let '(k, o) := m k in
  match o with Ok a => f a k | Err err => (k, Err err) | Panic => (k, Panic) | OutOfFuel => (k, OutOfFuel) end.

Definition apply_linux (fd : Z) (peer_ip : IpAddr) (key : list Z) : SockIo unit :=
  match peer_ip with
  | IpV6 _ => fun k => (k, Panic)
  | IpV4 v4 => fun k =>
      match md5sig_for e v4 key with
      | Ok sig =>
          match set_md5sig fd (md5sig_bytes e sig) k with
          | (k, None) => (k, Ok tt)
          | (k, Some errno) =>
              if (errno =? ENOPROTOOPT) || (errno =? EOPNOTSUPP) then (k, Ok tt) else (k, Err (OsError errno))
          end
      | Err err => (k, Err err) | Panic => (k, Panic) | OutOfFuel => (k, OutOfFuel)
      end
  end.
Definition is_ipv6 (ip : IpAddr) : bool := match ip with IpV6 _ => true | IpV4 _ => false end.
Definition apply_tcp_md5sig (fd : Z) (peer_ip : IpAddr) (key : list Z) : SockIo unit :=
  if (TCP_MD5SIG_MAXKEYLEN <? length key)%nat then sock_fail InvalidInput
  else if is_ipv6 peer_ip then sock_fail Unsupported
  else apply_linux fd peer_ip key.
Definition tcp_connect (addr : IpAddr * Z) (password : option (list Z)) : SockIo Conn :=
  match password with
  | None => kernel_call (stream_connect addr)
  | Some key =>
      socket ← kernel_call (new_socket (is_ipv6 (fst addr)));
      _ ← apply_tcp_md5sig socket (fst addr) key;
      kernel_call (socket_connect socket addr)
  end.
End Connect.
Arguments SockIo : clear implicits.

(** ** The layout *)
Lemma md5sig_made e v4 key : (length key <= TCP_MD5SIG_MAXKEYLEN)%nat -> exists sig, md5sig_for e v4 key = Ok sig
  /\ md5sig_bytes e sig = (ne_bytes e 2 AF_INET ++ ne_bytes e 2 0 ++ u32_be v4 ++ replicate 120 0)
       ++ (ne_bytes e 2 0 ++ [len key; 0] ++ ne_bytes e 4 0 ++ key ++ replicate (80 - length key) 0).
Proof.
  unfold TCP_MD5SIG_MAXKEYLEN. intros Hl. unfold md5sig_for.
  assert (E1 : (255 <? len key) = false) by (apply Z.ltb_ge; unfold len; lia). rewrite E1.
  assert (E2 : (length (tcpm_key zeroed) <? length key)%nat = false)
    by (apply Nat.ltb_ge; cbn [tcpm_key zeroed]; rewrite length_replicate; lia). rewrite E2.
  eexists. split; [reflexivity|]. unfold md5sig_bytes, sockaddr_bytes.
  cbn [tcpm_addr tcpm_pad1 tcpm_keylen tcpm_pad2 tcpm_pad3 tcpm_key sin_family sin_port s_addr sin_zero zeroed].
  rewrite network_order, !length_app, !ne_bytes_length, length_replicate. unfold u32_be. rewrite be_bytes_length.
  rewrite (drop_replicate (length key) 80). cbn [Nat.add]. rewrite (drop_replicate 16 128).
  by rewrite <- !app_assoc.
Qed.
(** The structure has the size the kernel expects, and the kernel reads from it the
    address in network order and the key, on machines of either byte order. *)
Lemma md5sig_read e v4 key sig : (length key <= TCP_MD5SIG_MAXKEYLEN)%nat -> md5sig_for e v4 key = Ok sig ->
  length (md5sig_bytes e sig) = 216%nat /\ kernel_reads e (md5sig_bytes e sig) = Some (u32_be v4, key).
Proof.
  intros Hl E. destruct (md5sig_made e v4 key Hl) as (sig' & E' & Hb). rewrite E in E'. injection E' as <-.
  rewrite Hb. unfold u32_be. split.
  - rewrite !length_app, !ne_bytes_length, !length_replicate, be_bytes_length. cbn [length].
    unfold TCP_MD5SIG_MAXKEYLEN in Hl. lia.
  - unfold kernel_reads. rewrite <- !app_assoc. rewrite take_app_length' by (symmetry; apply ne_bytes_length). rewrite ne_bytes_back.
    change (AF_INET mod 256 ^ Z.of_nat 2 =? AF_INET) with true. cbv iota.
    assert (Ed : forall tl, drop 4 (ne_bytes e 2 AF_INET ++ ne_bytes e 2 0 ++ tl) = tl)
      by (intros tl; rewrite app_assoc; apply drop_app_length'; by rewrite length_app, !ne_bytes_length).
    assert (E130 : forall tl, drop 130 (ne_bytes e 2 AF_INET ++ ne_bytes e 2 0 ++ be_bytes 4 v4 ++ replicate 120 0 ++ ne_bytes e 2 0 ++ tl) = tl).
    { intros tl. rewrite !app_assoc. apply drop_app_length'.
      by rewrite !length_app, !ne_bytes_length, length_replicate, be_bytes_length. }
    rewrite E130, Ed. cbn [app]. apply f_equal, f_equal2; [apply take_app_length'; symmetry; apply be_bytes_length|].
    change (0 :: ne_bytes e 4 0 ++ key ++ replicate (80 - length key) 0)
      with ((0 :: ne_bytes e 4 0) ++ key ++ replicate (80 - length key) 0).
    rewrite drop_app_length' by (cbn [length]; by rewrite ne_bytes_length).
    unfold len. rewrite Nat2Z.id. by apply take_app_length'.
Qed.

(** ** Connections *)
Section Theorems.
Context {K Conn : Type} `{TS : TcpStack K Conn} (e : Endian) {TL : TcpStackLaws K Conn e}.

Lemma set_key_spec fd v4 key (k : K) : (length key <= TCP_MD5SIG_MAXKEYLEN)%nat -> exists b,
  length b = 216%nat /\ kernel_reads e b = Some (u32_be v4, key)
  /\ apply_tcp_md5sig e fd (IpV4 v4) key k
     = match set_md5sig fd b k with
       | (k', None) => (k', Ok tt)
       | (k', Some errno) => if (errno =? ENOPROTOOPT) || (errno =? EOPNOTSUPP) then (k', Ok tt) else (k', Err (OsError errno))
       end.
Proof.
  intros Hl. destruct (md5sig_made e v4 key Hl) as (sig & E & _). exists (md5sig_bytes e sig).
  destruct (md5sig_read e v4 key sig Hl E) as [Hs Hr]. split; [exact Hs|]. split; [exact Hr|].
  unfold apply_tcp_md5sig.
  destruct (Nat.ltb_spec TCP_MD5SIG_MAXKEYLEN (length key)); [lia|]. cbn [is_ipv6]. unfold apply_linux. by rewrite E.
Qed.

(** C40: A dial to a peer with a key never panics, whatever the kernel answers: it ends
    in an error, or in a connection to an IPv4 peer, with a key of at most 80 bytes.
    Such a connection is made on a socket opened for this dial, after the kernel has
    been handed for that socket the structure that names the peer's address and
    exactly this key; it is signed with the key, unless the kernel answered to this
    very structure that it cannot sign. *)
Theorem keyed_connection_signed ip port key (k : K) : key <> [] ->
  exists k' r, tcp_connect e (ip, port) (Some key) k = (k', r)
    /\ match r with
       | Ok c => exists v4 fd b k1 k2 answer,
           ip = IpV4 v4 /\ (length key <= TCP_MD5SIG_MAXKEYLEN)%nat
           /\ length b = 216%nat /\ kernel_reads e b = Some (u32_be v4, key)
           /\ new_socket false k = (k1, inr fd) /\ set_md5sig fd b k1 = (k2, answer)
           /\ socket_connect fd (ip, port) k2 = (k', inr c)
           /\ match answer with
              | None => conn_key c = Some key
              | Some errno => errno = ENOPROTOOPT \/ errno = EOPNOTSUPP
              end
       | Err _ => True
       | _ => False
       end.
Proof.
  intros Hk. cbn [tcp_connect fst]. unfold mbind, sock_bind, kernel_call.
  destruct (new_socket (is_ipv6 ip) k) as [k1 [r|fd]] eqn:En; [by eexists _, _|].
  destruct (Nat.ltb_spec TCP_MD5SIG_MAXKEYLEN (length key)) as [Hl|Hl].
  { unfold apply_tcp_md5sig. rewrite (proj2 (Nat.ltb_lt _ _) Hl). by eexists _, _. }
  destruct ip as [v4|v6]; cbn [is_ipv6] in En.
  2:{ unfold apply_tcp_md5sig. rewrite (proj2 (Nat.ltb_ge _ _) Hl). by eexists _, _. }
  destruct (set_key_spec fd v4 key k1 Hl) as (b & Hs & Hb & ->).
  destruct (set_md5sig fd b k1) as [k2 [errno|]] eqn:Es.
  - destruct ((errno =? ENOPROTOOPT) || (errno =? EOPNOTSUPP)) eqn:Ee; [|by eexists _, _].
    destruct (socket_connect fd _ k2) as [k3 [r|c]] eqn:Ec; eexists _, _; (split; [done|]); [done|].
    exists v4, fd, b, k1, k2, (Some errno). split_and!; [done..|]. lia.
  - destruct (socket_connect fd _ k2) as [k3 [r|c]] eqn:Ec; eexists _, _; (split; [done|]); [done|].
    exists v4, fd, b, k1, k2, None. split_and!; [done..|].
    rewrite (connect_signed fd v4 port k2 k3 c Ec). by eapply md5_installed.
Qed.

(** Where the kernel cannot sign, the connection is made without a key and the caller
    is told nothing of it. *)
Lemma downgrade_silent v4 port key (k : K) errno : (length key <= TCP_MD5SIG_MAXKEYLEN)%nat ->
  errno = ENOPROTOOPT \/ errno = EOPNOTSUPP -> (forall fd b k, set_md5sig fd b k = (k, Some errno)) ->
  tcp_connect e (IpV4 v4, port) (Some key) k
  = (socket ← kernel_call (new_socket false); kernel_call (socket_connect socket (IpV4 v4, port))) k.
Proof.
  intros Hl He Hs. cbn [tcp_connect fst is_ipv6]. unfold mbind, sock_bind, kernel_call.
  destruct (new_socket false k) as [k1 [r|fd]]; [done|].
  destruct (set_key_spec fd v4 key k1 Hl) as (b & _ & _ & ->). rewrite Hs.
  destruct ((errno =? ENOPROTOOPT) || (errno =? EOPNOTSUPP)) eqn:Ee; [done|]. lia.
Qed.
(** A key never reaches the kernel for an IPv6 peer: the session of such a peer is
    never dialled. *)
Lemma keyed_v6_refused v6 port key (k : K) : exists k' err, tcp_connect e (IpV6 v6, port) (Some key) k = (k', Err err).
Proof.
  cbn [tcp_connect fst is_ipv6]. unfold mbind, sock_bind, kernel_call. destruct (new_socket true k) as [k1 [r|fd]]; [eauto|].
  unfold apply_tcp_md5sig. destruct (_ <? _)%nat; cbn [is_ipv6]; unfold sock_fail; eauto.
Qed.
End Theorems.

(** ** A model of the kernel *)
Module ModelTcp.
Record Stack := mkStack { next_fd : Z; keys : list (Z * list Z * list Z) }.
Definition find_key (s : Stack) (fd : Z) (a : list Z) : option (list Z) :=
  snd <$> List.find (fun x => bool_decide (fst x = (fd, a))) (keys s).
#[export] Instance ops : TcpStack Stack (option (list Z)) := {|
  new_socket _ s := (mkStack (next_fd s + 1) (keys s), inr (next_fd s));
  set_md5sig fd b s := match kernel_reads LittleEndian b with
                       | Some (a, []) => (s, Some 2)
                       | Some (a, key) => (mkStack (next_fd s) ((fd, a, key) :: keys s), None)
                       | None => (s, Some 22)
                       end;
  socket_connect fd addr s := (s, inr match fst addr with IpV4 a => find_key s fd (u32_be a) | IpV6 _ => None end);
  stream_connect addr s := (s, inr None);
  md5_key := find_key;
  conn_key c := c;
|}.
#[export] Instance laws : TcpStackLaws Stack (option (list Z)) LittleEndian.
Proof.
  constructor.
  - intros fd b k k' a key. cbn [set_md5sig md5_key ops]. intros E Eb. rewrite Eb in E. destruct key as [|x key]; [done|]. injection E as <-. intros _.
    unfold find_key. cbn. by rewrite bool_decide_eq_true_2.
  - intros fd a port k k' c. cbn. by intros [= <- <-].
Qed.
End ModelTcp.
Section Applied.
#[local] Existing Instances ModelTcp.ops ModelTcp.laws.
Lemma keyed_connection_signed_witness : exists k c,
  tcp_connect (K := ModelTcp.Stack) LittleEndian (IpV4 0xC0000201, 179) (Some [115; 51; 99]) (ModelTcp.mkStack 3 []) = (k, Ok c)
  /\ conn_key (K := ModelTcp.Stack) c = Some [115; 51; 99].
Proof.
  destruct (keyed_connection_signed (K := ModelTcp.Stack) LittleEndian (IpV4 0xC0000201) 179 [115; 51; 99] (ModelTcp.mkStack 3 [])
    ltac:(done)) as (k & r & E & Hr).
  destruct r as [c|err| |]; [|vm_compute in E; discriminate|destruct Hr..].
  exists k, c. split; [exact E|]. destruct Hr as (v4 & fd & b & k1 & k2 & [errno|] & _ & _ & _ & _ & _ & Es & _ & H); [|exact H].
  exfalso. revert Es. cbn [set_md5sig ModelTcp.ops].
  destruct (kernel_reads LittleEndian b) as [[a [|x key]]|]; intros [= _ <-]; destruct H; discriminate.
Defined.
End Applied.
