(* ===== verification/Replay.v ===== *)
(** The driver of the MRT replayer ([run] of [pathvector-mrt/src/main.rs]): a dump is
    read and announced, then the daemon's table is polled until it has settled.

    A poll is the readings of the clock around it, in milliseconds, and the stream it
    gets; what is printed with floating point (times, rates, percentages) is left out.
    The writes of the session are those of [Mrt]. *)
From Stdlib Require Import ZArith Lia Bool String.
From stdpp Require Import base tactics numbers decidable sets gmap list.
From S2P Require Import Prelude Addr AddrText Types AsPath Wire Header Notification Open Update Message Fsm Session RouteMap Roa Policy Route DaemonPolicy BestPath LocRib RibTheorems AdjRib Outbound HandleUpdate ImportTheorems Deferral Capabilities DaemonState Propagate Graceful PeerLifecycle RouteUpdate EventLoop DaemonFacts DaemonInvariant DaemonTheorems PeerTheorems Proto Grpc ApiClient GrpcTheorems Cli Dashboard Mrt MrtTheorems.
Open Scope Z_scope.

Inductive ReplayError :=
| ReadError (e : IoError)
| NoEntries
| GrpcConnectFailed
| SessionFailed (e : HandshakeError)
| AnnounceFailed (e : IoError)
| TimedOut (last_rib_count : Z)
| WatchFailed
| StreamFailed (e : ClientError).

(** [fmt_count]: thousands separators. *)
Fixpoint comma_chunks (n : nat) (s : Text) : Text :=
  match n with
  | O => []
  | S n => match s with
           | [] => []
           | _ => 44 :: take 3 s ++ comma_chunks n (drop 3 s)
           end
  end.
Definition fmt_count (n : Z) : Text :=
  let s := dec_u64 n in
  let start := (length s mod 3)%nat in
  let out := take start s in
  let rest := comma_chunks (length s) (drop start s) in
  match out with [] => tail rest | _ => out ++ rest end.

(** ** Waiting for the table to settle *)

(** The readings of the clock: at the check of the deadline, when a change is noted,
    at the check of the quiet time. *)
Record Poll := mkPoll {
  poll_at : Z;
  poll_stream : ReplayError + list (Outcome ClientError ClientRouteEvent);
  poll_changed : Z;
  poll_checked : Z;
}.
(** The routes before the end of the snapshot. *)
Fixpoint snapshot_count (stream : list (Outcome ClientError ClientRouteEvent)) (snap_count : Z)
    : Outcome ReplayError Z :=
  match stream with
  | [] => Ok snap_count
  | Ok ev :: stream =>
      match ce_type ev with
      | ReCurrent => snapshot_count stream (snap_count + 1)
      | ReEndInitial => Ok snap_count
      | _ => snapshot_count stream snap_count
      end
  | Err e :: _ => Err (StreamFailed e)
  | Panic :: _ => Panic
  | OutOfFuel :: _ => OutOfFuel
  end.
(** The loop; each turn takes one poll. *)
Fixpoint converge (quiescence hard_deadline : Z) (polls : list Poll) (rib_count : Z) (last_change : option Z)
    : Outcome ReplayError Z :=
  match polls with
  | [] => OutOfFuel
  | p :: polls =>
      if hard_deadline <=? poll_at p then Err (TimedOut rib_count)
      else
        match poll_stream p with
        | inl e => Err e
        | inr stream =>
            snap_count ← snapshot_count stream 0;
            let '(rib_count, last_change) :=
              if negb (snap_count =? rib_count) then (snap_count, Some (poll_changed p)) else (rib_count, last_change) in
            if match last_change with Some t => quiescence <=? poll_checked p - t | None => false end
            then Ok rib_count
            else converge quiescence hard_deadline polls rib_count last_change
        end
  end.

(** ** The run *)
Record Args := mkArgs { arg_my_as : Z; arg_router_id : Z; arg_idle_ms : Z; arg_timeout_secs : Z }.
Record Report := mkReport {
  rp_sent : AnnounceResult;
  rp_accepted : Z;
  rp_rejected : option Z;
}.
Definition or_fail {E A} (g : E -> ReplayError) (o : Outcome E A) : Outcome ReplayError A :=
  match o with Ok a => Ok a | Err e => Err (g e) | Panic => Panic | OutOfFuel => OutOfFuel end.
(** The dump, whether the endpoint of the daemon is valid, what the peer sends in the
    handshake, the start of the wait, and the polls; the result with what is announced. *)
Definition replay `{P : IpPrefixOps} `{HO : HashOrder} (args : Args) (file : Stream) (grpc_valid : bool)
    (peer_sends : list BgpMessage) (start : Z) (polls : list Poll) : Outcome ReplayError (list (list Z) * Report) :=
  entries ← or_fail ReadError (parse file);
  if bool_decide (length entries = 0%nat) then Err NoEntries
  else if negb grpc_valid then Err GrpcConnectFailed
  else
    _ ← or_fail SessionFailed (snd (handshake (arg_my_as args) (arg_router_id args) peer_sends));
    '(written, result) ← or_fail AnnounceFailed (announce entries);
    rib_count ← converge (arg_idle_ms args) (start + 1000 * arg_timeout_secs args) polls 0 None;
    Ok (written, mkReport result rib_count
                   (if rib_count <? prefixes_sent result then Some (prefixes_sent result - rib_count) else None)).

Example fmt_count_examples : map fmt_count [0; 999; 1000; 1234567; 18446744073709551615]
  = map text ["0"; "999"; "1,000"; "1,234,567"; "18,446,744,073,709,551,615"]%string.
Proof. vm_compute. reflexivity. Qed.

(** ** The wait *)
Definition counts (n : Z) (p : Poll) : Prop := exists stream, poll_stream p = inr stream /\ snapshot_count stream 0 = Ok n.

(** What a settled count rests on: the polls of its run all see it, and the last of them
    was checked long enough after the count had been noted. *)
Definition quiet_since (quiescence t n : Z) (run : list Poll) : Prop :=
  Forall (counts n) run /\ exists p, last run = Some p /\ quiescence <= poll_checked p - t.
Lemma quiet_cons q t n p run : counts n p -> quiet_since q t n run -> quiet_since q t n (p :: run).
Proof.
  intros Hp (Hr & x & Hx & Hq). split; [by constructor|]. exists x. split; [|done].
  by rewrite last_cons, Hx.
Qed.
Lemma quiet_one q t n p : counts n p -> q <= poll_checked p - t -> quiet_since q t n [p].
Proof. intros Hp Hq. split; [by constructor|]. by exists p. Qed.

Lemma converge_rests q dl polls : forall n0 lc n, converge q dl polls n0 lc = Ok n ->
  (exists t run post, lc = Some t /\ n = n0 /\ polls = run ++ post /\ quiet_since q t n run)
  \/ exists pre p run post, polls = pre ++ (p :: run) ++ post /\ quiet_since q (poll_changed p) n (p :: run).
Proof.
  induction polls as [|p polls IH]; intros n0 lc n; cbn [converge]; [done|].
  destruct (dl <=? poll_at p); [done|]. destruct (poll_stream p) as [e|stream] eqn:Es; [done|].
  destruct (snapshot_count stream 0) as [c| | |] eqn:Ec; cbn [mbind outcome_bind]; [|done..].
  assert (Hp : counts c p) by (by exists stream).
  destruct (Z.eqb_spec c n0) as [->|Hne]; cbn [negb].
  - destruct lc as [t|].
    + destruct (Z.leb_spec q (poll_checked p - t)) as [Hq|Hq].
      * intros [= ->]. left. exists t, [p], polls. split_and!; [done..|]. by apply quiet_one.
      * intros [(t' & run & post & [= <-] & -> & -> & Hr)|(pre & x & run & post & -> & Hr)]%IH.
        -- left. exists t, (p :: run), post. split_and!; [done..|]. by apply quiet_cons.
        -- right. by exists (p :: pre), x, run, post.
    + intros [(t' & run & post & [=] & _)|(pre & x & run & post & -> & Hr)]%IH.
      right. by exists (p :: pre), x, run, post.
  - destruct (Z.leb_spec q (poll_checked p - poll_changed p)) as [Hq|Hq].
    + intros [= <-]. right. exists [], p, [], polls. split; [done|]. by apply quiet_one.
    + intros [(t' & run & post & [= <-] & -> & -> & Hr)|(pre & x & run & post & -> & Hr)]%IH.
      * right. exists [], p, run, post. split; [done|]. by apply quiet_cons.
      * right. by exists (p :: pre), x, run, post.
Qed.
Definition terminates {E A} (o : Outcome E A) : Prop := match o with Ok _ | Err _ => True | _ => False end.
Definition poll_delivers (p : Poll) : Prop :=
  match poll_stream p with inl _ => True | inr stream => Forall terminates stream end.
Lemma snapshot_total stream : Forall terminates stream -> forall n, terminates (snapshot_count stream n).
Proof.
  induction 1 as [|[ev|e| |] stream Hx _ IH]; intros n; cbn; try done. destruct (ce_type ev); done || apply IH.
Qed.
(** The wait ends once the clock passes the deadline. *)
Lemma converge_total q dl polls : Forall poll_delivers polls -> Exists (fun p => dl <= poll_at p) polls ->
  forall n lc, terminates (converge q dl polls n lc).
Proof.
  induction 1 as [|p polls Hp _ IH]; intros Hex n lc; [by apply Exists_nil in Hex|]. cbn [converge].
  destruct (Z.leb_spec dl (poll_at p)) as [Hd|Hd]; [done|].
  apply Exists_cons in Hex as [Hex|Hex]; [lia|]. unfold poll_delivers in Hp.
  destruct (poll_stream p) as [e|stream]; [done|]. pose proof (snapshot_total stream Hp 0) as Ht.
  destruct (snapshot_count stream 0) as [c|e| |]; cbn [mbind outcome_bind]; [|done..].
  destruct (if negb (c =? n) then _ else _) as [n' lc'].
  destruct (match lc' with Some t => _ | None => false end); [done|]. by apply IH.
Qed.
(** A table that stays empty never counts as settled: the wait ends with the deadline,
    as it does when nothing was processed at all. *)
Lemma empty_table_times_out q dl polls : Forall (counts 0) polls -> Exists (fun p => dl <= poll_at p) polls ->
  converge q dl polls 0 None = Err (TimedOut 0).
Proof.
  induction 1 as [|p polls (stream & Es & Ec) _ IH]; intros Hex; [by apply Exists_nil in Hex|]. cbn [converge].
  destruct (Z.leb_spec dl (poll_at p)) as [Hd|Hd]; [done|].
  apply Exists_cons in Hex as [Hex|Hex]; [lia|]. rewrite Es, Ec. cbn. by apply IH.
Qed.
(** A table that has settled at another size than the wait started with is reported
    with this size if the clock leaves the time for it. *)
Lemma settled_table_found q dl n p mid z post : n <> 0 -> counts n p -> Forall (counts n) (mid ++ [z]) ->
  Forall (fun x => poll_at x < dl) (p :: mid ++ [z]) -> q <= poll_checked z - poll_changed p ->
  converge q dl (p :: (mid ++ [z]) ++ post) 0 None = Ok n.
Proof.
  intros Hn (stream & Es & Ec) Hm (Hp & Hd)%Forall_cons Hq. cbn [converge].
  destruct (Z.leb_spec dl (poll_at p)) as [|_]; [lia|]. rewrite Es, Ec. cbn [mbind outcome_bind].
  destruct (Z.eqb_spec n 0) as [|_]; [done|]. cbn [negb].
  destruct (q <=? poll_checked p - poll_changed p); [done|].
  induction mid as [|x mid IH]; cbn [app converge]; apply Forall_cons in Hm as [(s' & Es' & Ec') Hm];
    apply Forall_cons in Hd as [Hx Hd]; rewrite (proj2 (Z.leb_gt _ _) Hx), Es', Ec'; cbn [mbind outcome_bind];
    rewrite Z.eqb_refl; cbn [negb].
  - by rewrite (proj2 (Z.leb_le _ _) Hq).
  - destruct (q <=? _); [done|]. by apply IH.
Qed.

(** ** Over the daemon *)
Section Watching.
Context `{P : IpPrefixOps} {M : RouteMapOps} {HO : HashOrder} {NT : NlriText}.

(** The poll subscribes at the state [d]; changes may follow. *)
Definition watches (d : DaemonState) (p : Poll) : Prop := exists live items,
  watch_routes [] d live = Ok items /\ poll_stream p = inr (received items).
(** Its best routes, of both families and whatever their origin. *)
Definition table_size (d : DaemonState) : Z := Z.of_nat (length (all_routes None d)).

Lemma currents_counted K tl : forall K' n, convert_routes K = Ok K' ->
  snapshot_count (received (map current K) ++ tl) n = snapshot_count tl (n + Z.of_nat (length K)).
Proof.
  unfold convert_routes. induction K as [|x K IH]; intros K' n E; [f_equal; cbn; lia|].
  cbn [ApiClient.collect] in E. destruct (route_try_from x) as [c| | |] eqn:Ex; cbn [mbind outcome_bind] in E; try done.
  destruct (ApiClient.collect route_try_from K) as [cs| | |]; cbn in E, IH; try done.
  unfold received, client_watch_routes in *. cbn [map app]. rewrite (current_read x c Ex).
  cbn [snapshot_count ce_type]. rewrite (IH cs _ eq_refl). f_equal. cbn [length]. lia.
Qed.
Context {L : IpPrefixLaws} {ML : RouteMapLaws} {HL : HashOrderLaw} {NL : NlriTextLaws}.
(** A poll counts exactly the best routes of the state it subscribed at. *)
Lemma watch_counts d p : all_showable d -> watches d p -> counts (table_size d) p.
Proof.
  intros Hs (live & items & Ew & Es). exists (received items). split; [done|].
  destruct (convert_all (all_routes None d)) as (K & E & _).
  { intros x. rewrite all_routes_elem. intros (f & n & q & r & Hb & _ & ->). exists f, n, q, r. split; [by eapply Hs|done]. }
  unfold watch_routes in Ew. change (watch_filter []) with (Ok (E:=Status) (None (A:=PeerId))) in Ew.
  cbn [mbind outcome_bind] in Ew. injection Ew as <-.
  unfold received, client_watch_routes. rewrite !map_app.
  exact (currents_counted (all_routes None d) _ K 0 E).
Qed.

(** What the replayer reports of a dump: it has announced every entry of the dump,
    and the count of accepted routes is the number of best routes that the daemon had
    at each of its last polls, from one whose count was new to one at least the quiet
    time later; the rejected ones are those sent beyond this number. *)
Theorem replay_reports args file valid peer_sends start polls ds written report :
  Forall2 (fun d p => all_showable d /\ watches d p) ds polls ->
  replay args file valid peer_sends start polls = Ok (written, report) ->
  (exists entries, parse file = Ok entries /\ entries <> [] /\ announce entries = Ok (written, rp_sent report))
  /\ (exists pre d run post, ds = pre ++ (d :: run) ++ post /\ Forall (fun x => table_size x = rp_accepted report) (d :: run)
      /\ exists p z, polls !! length pre = Some p /\ polls !! (length pre + length run)%nat = Some z
           /\ arg_idle_ms args <= poll_checked z - poll_changed p)
  /\ rp_rejected report = (if rp_accepted report <? prefixes_sent (rp_sent report)
                           then Some (prefixes_sent (rp_sent report) - rp_accepted report) else None).
Proof.
  intros HF. unfold replay. destruct (parse file) as [entries| | |]; cbn [or_fail mbind outcome_bind]; [|done..].
  case_bool_decide as Hl; [done|]. destruct valid; cbn [negb]; [|done].
  destruct (snd (handshake _ _ _)); cbn [or_fail mbind outcome_bind]; [|done..].
  destruct (announce entries) as [[w result]| | |] eqn:Ea; cbn [or_fail mbind outcome_bind]; [|done..].
  destruct (converge _ _ polls 0 None) as [n| | |] eqn:Ec; cbn [mbind outcome_bind]; [|done..].
  intros [= <- <-]. cbn [rp_accepted rp_sent rp_rejected]. split; [|split; [|done]].
  { exists entries. split_and!; [done| |done]. by intros ->. }
  apply converge_rests in Ec as [(t & run & post & [=] & _)|(pre & p & run & post & -> & Hq & z & Hz & Ht)].
  apply Forall2_app_inv_r in HF as (dpre & dtl & Hpre & HF & ->).
  apply Forall2_app_inv_r in HF as (drun & dpost & Hrun & _ & ->).
  assert (Hc : Forall (fun x => table_size x = n) drun).
  { clear -Hrun Hq L ML HL NL. induction Hrun as [|d q l k [Hd Hw] _ IH]; [constructor|].
    apply Forall_cons in Hq as [(s & Es & En) Hq]. constructor; [|by apply IH].
    destruct (watch_counts d q Hd Hw) as (s' & Es' & En'). rewrite Es in Es'. injection Es' as <-. rewrite En in En'.
    by injection En'. }
  destruct drun as [|d drun]; [by inversion Hrun|].
  exists dpre, d, drun, dpost. split_and!; [done..|]. exists p, z.
  pose proof (Forall2_length _ _ _ Hpre) as E1. pose proof (Forall2_length _ _ _ Hrun) as E2. cbn [length] in E2.
  split_and!; [| |done].
  - rewrite E1. cbn [app]. by apply list_lookup_middle.
  - rewrite E1, lookup_app_r by lia. replace (length pre + length drun - length pre)%nat with (length run) by lia.
    rewrite lookup_app_l by (cbn [length]; lia). rewrite last_lookup in Hz. exact Hz.
Qed.
End Watching.

(** ** A run *)
Section Applied.
#[local] Existing Instances ModelPrefix.ops ModelPrefix.laws ModelRouteMap.ops ModelRouteMap.laws.
#[local] Existing Instances ModelHashOrder.order ModelHashOrder.order_law ModelText.text_ops ModelText.text_laws.

(** Two routes are announced to a daemon that has one route at both polls. *)
Definition one_route : DaemonState := gr_daemon DefAccept.
Definition snapshot_of (d : DaemonState) : list (Outcome ClientError ClientRouteEvent) :=
  match watch_routes [] d [] with Ok items => received items | _ => [] end.
Definition poll_of (d : DaemonState) (t : Z) : Poll := mkPoll t (inr (snapshot_of d)) t t.
Definition replay_file : Stream := mkStream (concat (map item_wire sample_dump) ++ [0; 0; 3]) false.
Definition replay_sample : Outcome ReplayError (list (list Z) * Report) :=
  replay (mkArgs 65001 0x0A000001 200 120) replay_file true
    [handshake_open 65000 1; BmKeepalive] 0 [poll_of one_route 10; poll_of one_route 300].
Lemma poll_of_watches d t items : watch_routes [] d [] = Ok items -> watches d (poll_of d t).
Proof. intros E. exists [], items. split; [done|]. unfold poll_of, snapshot_of. by rewrite E. Qed.
Lemma pair_member {A} (x : A) pre d run post : [x; x] = pre ++ (d :: run) ++ post -> d = x.
Proof.
  intros E. assert (H : d ∈ [x; x]) by (rewrite E; apply elem_of_app; right; left).
  by apply elem_of_cons in H as [H|H%list_elem_of_singleton].
Qed.
Lemma replay_reports_witness : exists written report, replay_sample = Ok (written, report)
  /\ table_size one_route = rp_accepted report /\ rp_rejected report = Some 1.
Proof.
  destruct replay_sample as [[written report]| | |] eqn:E; [|vm_compute in E; discriminate..].
  exists written, report. split; [done|].
  assert (Hw : Forall2 (fun d p => all_showable d /\ watches d p) [one_route; one_route]
                 [poll_of one_route 10; poll_of one_route 300]).
  { assert (H : forall t, all_showable one_route /\ watches one_route (poll_of one_route t))
      by (intros t; split; [exact gr_daemon_showable|by eapply poll_of_watches]).
    apply Forall2_cons_2; [apply H|]. apply Forall2_cons_2; [apply H|]. apply Forall2_nil_2. }
  pose proof E as Er. unfold replay_sample in Er.
  destruct (replay_reports _ _ _ _ _ _ _ written report Hw Er) as (_ & (pre & d & run & post & Ed & Hd & _) & _).
  split.
  - apply Forall_cons in Hd as [Hd _]. by rewrite (pair_member _ _ _ _ _ Ed) in Hd.
  - assert (H : rp_rejected (match replay_sample with Ok (_, r) => r | _ => mkReport (mkAnnounceResult 0 0 0%nat) 0 None end) = Some 1)
      by (vm_compute; reflexivity). by rewrite E in H.
Defined.
End Applied.
