(* ===== verification/RpkiWatch.v ===== *)
(** Route origin validation end to end: the RTR client ([pathvector-rpki/src/client.rs]),
    the task that watches it ([install_rpki] of [pathvectord/src/daemon/mod.rs]) and the
    daemon whose import policies read the client's table.

    The three run side by side; a [WorldEvent] is a turn of one of them.  Between the
    notification at the end of a synchronisation and the status that follows it the
    others may take turns.  A re-evaluation reads one state of the table. *)
From Stdlib Require Import ZArith Lia Bool.
From stdpp Require Import base tactics numbers decidable fin_sets gmap list.
From S2P Require Import Prelude Addr Types AsPath Wire Header Notification Open Update Fsm Session RouteMap Rtr Roa RtrClient Policy Route DaemonPolicy BestPath LocRib RibTheorems AdjRib Outbound HandleUpdate ImportTheorems Deferral Capabilities DaemonState Propagate Graceful PeerLifecycle RouteUpdate EventLoop DaemonFacts DaemonInvariant DaemonTheorems PeerTheorems RouteTheorems Proto Metrics DashboardTheorems.
Open Scope Z_scope.

Section World.
Context `{P : IpPrefixOps} {M : RouteMapOps} {HO : HashOrder}.

(** How far [install_rpki] is: it subscribes, installs the terms, checks whether a
    synchronisation is already over, then waits for changes and judges the routes
    again after each.  The flag says that a change has not been seen. *)
Inductive Watch :=
| WsStart
| WsSubscribed (unseen : bool)
| WsInstalled (unseen : bool)
| WsWatching (unseen : bool)
| WsJudging (unseen : bool).
(** [w_half] is the client after a synchronisation whose status it has yet to write;
    [w_base] are the policies without the terms. *)
Record World := mkWorld {
  w_client : Client;
  w_half : option Client;
  w_base : PolicyTables;
  w_local_as : Z;
  w_watch : Watch;
  w_daemon : DaemonState;
}.
Definition world_init (cfg : RtrConfig) (d : DaemonState) : World :=
  mkWorld (client_new cfg) None (policies (ds_peers d)) (local_as (ds_local d)) WsStart d.

Definition installed (w : Watch) : bool := match w with WsStart | WsSubscribed _ => false | _ => true end.
Definition wakes (w : Watch) : Watch :=
  match w with
  | WsStart => WsStart
  | WsSubscribed _ => WsSubscribed true
  | WsInstalled _ => WsInstalled true
  | WsWatching _ => WsWatching true
  | WsJudging _ => WsJudging true
  end.
(** The client's turn: the terms read its new table, the watch sees a new generation. *)
Definition client_turn (c : Client) (half : option Client) (w : World) : World :=
  mkWorld c half (w_base w) (w_local_as w)
    (if changed c =? changed (w_client w) then w_watch w else wakes (w_watch w))
    (if installed (w_watch w)
     then set_policies (install_rpki_import_terms (w_base w) (table c) (w_local_as w)) (w_daemon w)
     else w_daemon w).
Definition with_watch (s : Watch) (d : DaemonState) (w : World) : World :=
  mkWorld (w_client w) (w_half w) (w_base w) (w_local_as w) s d.
(** The end of a synchronisation, up to the notification. *)
Definition sync_ends (c : Client) (ev : RtrEvent) : option Client :=
  match phase c, ev with
  | PDiff expected, EvPdu _ (EndOfData sid serial _) =>
      if sid =? expected then Some (notify_changed (set_table c (set_serial (table c) serial))) else None
  | _, _ => None
  end.

(** The event loop starts after [install_rpki]. *)
Inductive WorldEvent :=
| WClient (now : Z) (ev : RtrEvent)
| WSyncEnds (now : Z) (ev : RtrEvent)
| WStatus
| WSubscribe
| WInstall
| WCheck (now : IpAddr -> Instant)
| WSeen
| WReevaluate (now : IpAddr -> Instant)
| WDaemon (s : RouteStep).
(** The policies without the terms after a step: only a change of an import default
    touches them. *)
Definition base_after (s : RouteStep) (t : PolicyTables) : PolicyTables :=
  match s with
  | RsImport ip action _ => if import_policies t !! ip then tables_set_import_default t ip action else t
  | _ => t
  end.
Definition with_base (t : PolicyTables) (w : World) : World :=
  mkWorld (w_client w) (w_half w) t (w_local_as w) (w_watch w) (w_daemon w).
(** An event out of turn changes nothing. *)
Definition world_step (w : World) (e : WorldEvent) : Outcome False World :=
  match e, w_half w, w_watch w with
  | WClient now ev, None, _ =>
      match client_step (w_client w) now ev with Some (c, _) => Ok (client_turn c None w) | None => Ok w end
  | WSyncEnds now ev, None, _ =>
      match sync_ends (w_client w) ev, client_step (w_client w) now ev with
      | Some h, Some (c, _) => Ok (client_turn h (Some c) w)
      | _, _ => Ok w
      end
  | WStatus, Some c, _ => Ok (client_turn c None w)
  | WSubscribe, _, WsStart => Ok (with_watch (WsSubscribed false) (w_daemon w) w)
  | WInstall, _, WsSubscribed u => Ok (with_watch (WsInstalled u) (install_rpki (table (w_client w)) (w_daemon w)) w)
  | WCheck now, _, WsInstalled u =>
      if connected (status (w_client w))
      then d ← reevaluate_all_import_policies now (w_daemon w); Ok (with_watch (WsWatching u) d w)
      else Ok (with_watch (WsWatching u) (w_daemon w) w)
  | WSeen, _, WsWatching true => Ok (with_watch (WsJudging false) (w_daemon w) w)
  | WReevaluate now, _, WsJudging u =>
      d ← reevaluate_all_import_policies now (w_daemon w); Ok (with_watch (WsWatching u) d w)
  | WDaemon s, _, (WsWatching _ | WsJudging _) =>
      d ← route_step (w_daemon w) s; Ok (with_base (base_after s (w_base w)) (with_watch (w_watch w) d w))
  | _, _, _ => Ok w
  end.
Fixpoint world_run (w : World) (es : list WorldEvent) : Outcome False World :=
  match es with [] => Ok w | e :: es => w ← world_step w e; world_run w es end.
End World.

(** ** Where candidates come from *)
Section Origins.
Context `{P : IpPrefixOps} {M : RouteMapOps} {HO : HashOrder}.

Definition pols (d : DaemonState) : PolicyTables := policies (ds_peers d).
Definition peer_of (t : PolicyTables) (ip : IpAddr) : Prop := is_Some (import_policies t !! ip).
(** The route is what the import policy of the peer made of some route. *)
Definition admitted (t : PolicyTables) f (ip : IpAddr) (r : Route f) : Prop :=
  exists pol raw, import_policy t f !! ip = Some pol /\ evaluate pol raw = (r, DAccept).
(** Every candidate of a peer has its route in the Adj-RIB-In. *)
Definition backed (d : DaemonState) : Prop := forall f (n : Nlri f) ip r,
  peer_of (pols d) ip -> cands f d !! (n, ip) = Some r -> is_Some (held f d ip !! n).
(** What a step does to the candidates: one that is there after it was there before, or
    was admitted; and its route is held. *)
Record goes (d d' : DaemonState) : Prop := {
  go_policies : pols d' = pols d;
  go_cands : forall f (n : Nlri f) ip r, peer_of (pols d) ip -> cands f d' !! (n, ip) = Some r ->
    (cands f d !! (n, ip) = Some r /\ (is_Some (held f d ip !! n) -> is_Some (held f d' ip !! n)))
    \/ (admitted (pols d) f ip r /\ is_Some (held f d' ip !! n));
}.
Lemma goes_same d d' : pols d' = pols d -> same_tables d d' -> goes d d'.
Proof.
  intros Ep Ht. split; [done|]. intros f n ip r _ Hr. left. rewrite <- (proj1 (Ht f)). split; [done|].
  by rewrite (tables_held _ _ f ip Ht).
Qed.
Lemma goes_trans d1 d2 d3 : goes d1 d2 -> goes d2 d3 -> goes d1 d3.
Proof.
  intros [E1 H1] [E2 H2]. split; [congruence|]. intros f n ip r Hp Hr.
  rewrite E1 in H2. destruct (H2 f n ip r Hp Hr) as [[Hr2 Hh]|H]; [|by right].
  destruct (H1 f n ip r Hp Hr2) as [[Hr1 Hh1]|[Ha Hh1]]; [left|right]; auto.
Qed.
Lemma goes_backed d d' : goes d d' -> backed d -> backed d'.
Proof.
  intros [E H] Hb f n ip r Hp Hr. rewrite E in Hp. destruct (H f n ip r Hp Hr) as [[Hr' Hh]|[_ Hh]]; [|done].
  apply Hh. by eapply Hb.
Qed.

(** *** The plan of an UPDATE *)
Context {L : IpPrefixLaws} {ML : RouteMapLaws} {HL : HashOrderLaw}.
Lemma plan_peer {f} peer (pol : Policy (Route f)) oracle ops n r : keeps_nlri pol -> forall m t,
  foldl spec_step m (plan_rib peer pol oracle ops) !! (n, peer) = Some r ->
  (m !! (n, peer) = Some r /\ (is_Some (t !! n) -> is_Some (foldl in_op t ops !! n)))
  \/ ((exists raw, evaluate pol raw = (r, DAccept)) /\ is_Some (foldl in_op t ops !! n)).
Proof.
  intros Hk. unfold plan_rib. induction ops as [|op ops IH]; intros m t; [by left|].
  cbn [map concat]. rewrite foldl_app. cbn [foldl]. intros H.
  destruct (IH _ (in_op t op) H) as [[Hr Hh]|]; [|by right]. destruct op as [k|raw]; cbn [rib_ops in_op] in *.
  - cbn [foldl spec_step] in Hr. apply lookup_delete_Some in Hr as [Hne Hr]. left. split; [done|].
    rewrite lookup_delete_ne in Hh by congruence. exact Hh.
  - destruct (has_blackhole raw).
    { cbn [foldl spec_step] in Hr. apply lookup_delete_Some in Hr as [Hne Hr]. left. split; [done|].
      rewrite lookup_insert_ne in Hh by congruence. exact Hh. }
    specialize (Hk raw). destruct (evaluate pol raw) as [r' []] eqn:Ev; cbn [foldl spec_step fst] in *.
    + destruct (decide ((nlri r', peer) = (n, peer))) as [[= <-]|Hne].
      * rewrite lookup_insert_eq in Hr. injection Hr as ->. right. split; [by exists raw|].
        apply Hh. rewrite Hk, lookup_insert_eq. by eexists.
      * rewrite lookup_insert_ne in Hr by done. left. split; [done|].
        rewrite lookup_insert_ne in Hh by (intros E; apply Hne; by rewrite Hk, E). exact Hh.
    + left. split; [done|]. intros Hn. apply Hh. rewrite lookup_insert. by destruct (decide _).
    + left. split; [done|]. intros Hn. apply Hh. rewrite lookup_insert. by destruct (decide _).
Qed.
Lemma plan_others {f} peer (pol : Policy (Route f)) oracle ops n q : q <> peer -> forall m,
  foldl spec_step m (plan_rib peer pol oracle ops) !! (n, q) = m !! (n, q).
Proof.
  intros Hq. unfold plan_rib. induction ops as [|op ops IH]; intros m; [done|]. cbn [map concat].
  rewrite foldl_app, IH. destruct op as [k|raw]; cbn [rib_ops].
  - apply lookup_delete_ne. congruence.
  - destruct (has_blackhole raw); [apply lookup_delete_ne; congruence|].
    destruct (evaluate pol raw) as [r []]; cbn [foldl spec_step]; [apply lookup_insert_ne; congruence|done..].
Qed.

(** *** The policies of the state *)
Lemma strip_pols d d' : strip d' = strip d -> pols d' = pols d.
Proof. intros E. exact (f_equal pols E). Qed.
Ltac same_pols := unfold id; apply strip_pols; autorewrite with strip; reflexivity.
Lemma pols_upd {f} (g : Fam f -> Fam f) d : pols (upd_fam g d) = pols d.
Proof. unfold pols. by rewrite upd_fam_peers. Qed.
Lemma pols_clear_in f ip d : pols (clear_in f ip d) = pols d.
Proof. unfold clear_in. destruct (adj_ribs_in _ !! ip); [apply pols_upd|done]. Qed.
Lemma pols_withdraw_peer f ip d : keeps pols fst d (rib_withdraw_peer f ip d).
Proof. unfold rib_withdraw_peer. destruct (withdraw_peer _ _ _) as [[lr c]| | |]; cbn; [apply pols_upd|done..]. Qed.
Lemma pols_recompute_all f d : keeps pols fst d (rib_recompute_all f d).
Proof. unfold rib_recompute_all. destruct (recompute_all _ _) as [[lr c]| | |]; cbn; [apply pols_upd|done..]. Qed.
Lemma pols_withdraw_all {f} ip (ns : list (Nlri f)) : forall d, keeps pols fst d (rib_withdraw_all ip ns d).
Proof.
  induction ns as [|n ns IH]; intros d; [done|]. cbn [rib_withdraw_all].
  eapply (keeps_bind _ fst).
  { unfold rib_withdraw. destruct (loc_rib_withdraw _ _ _ _) as [[lr c]| | |]; cbn; [apply pols_upd|done..]. }
  intros [d1 c]. eapply (keeps_bind _ fst); [apply IH|]. by intros [d2 cs].
Qed.
Lemma pols_end_of_rib f ip d : keeps pols id d (end_of_rib f ip d).
Proof.
  unfold end_of_rib. cbv zeta. set (d1 := upd_fam _ d). apply (keeps_from _ _ _ d1); [apply pols_upd|].
  eapply (keeps_bind _ id).
  - destruct (stale_nlri _ !! ip) as [s|]; [|done]. set (d2 := remove_stale f ip d1).
    apply (keeps_from _ _ _ d2); [apply pols_upd|]. destruct (bool_decide _); [done|].
    unfold prune_stale_nlri. set (l := hash_order (elements s)). cbv zeta.
    set (d3 := match adj_ribs_in (ds_fam d2 f) !! ip with Some _ => _ | None => d2 end).
    apply (keeps_from _ _ _ d3).
    { unfold d3. destruct (adj_ribs_in _ !! ip); [|done]. etransitivity; [apply pols_upd|]. same_pols. }
    eapply (keeps_bind _ fst); [apply pols_withdraw_all|]. intros [d4 cs]. apply keeps_ok. cbn [fst]. same_pols.
  - intros d2. apply keeps_ok. destruct (strip_recompute d2) as [sd E]. unfold id. by rewrite (strip_pols _ _ E).
Qed.
Lemma pols_withdrawn ip d (k : DaemonState -> list (BestPathChange FamV4) -> list (BestPathChange FamV6) -> DaemonState) :
  (forall d cs cs6, pols (k d cs cs6) = pols d) ->
  keeps pols id d ('(d, cs) ← rib_withdraw_peer FamV4 ip d; '(d, cs6) ← rib_withdraw_peer FamV6 ip d; Ok (k d cs cs6)).
Proof.
  intros Hk. eapply (keeps_bind _ fst); [apply pols_withdraw_peer|]. intros [d1 cs].
  eapply (keeps_bind _ fst); [apply pols_withdraw_peer|]. intros [d2 cs6]. apply keeps_ok, Hk.
Qed.
Lemma pols_deadline ip d : keeps pols id d (on_gr_deadline_expired ip d).
Proof.
  unfold on_gr_deadline_expired. cbv zeta. set (d2 := clear_in FamV6 ip _). apply (keeps_from _ _ _ d2).
  - unfold d2. rewrite !pols_clear_in. etransitivity; [apply strip_pols, strip_blackhole|].
    etransitivity; [apply strip_pols, strip_blackhole|]. unfold remove_stale. etransitivity; apply pols_upd.
  - eapply (pols_withdrawn ip d2 (fun d cs cs6 => _)). intros d3 cs cs6. same_pols.
Qed.
Lemma pols_terminate_clean ip d : keeps pols id d (terminate_clean ip d).
Proof.
  unfold terminate_clean. cbv zeta. set (d2 := clear_in FamV6 ip _). apply (keeps_from _ _ _ d2).
  - unfold d2. rewrite !pols_clear_in. same_pols.
  - eapply (pols_withdrawn ip d2 (fun d cs cs6 => _)). intros d3 cs cs6. same_pols.
Qed.
Lemma pols_after_update ip ck msg s4 s6 note d : pols (fst (after_update ip ck msg s4 s6 note d)) = pols d.
Proof.
  unfold after_update. destruct (exceeds _ _ || exceeds _ _); cbn [fst].
  - unfold hold_idle. by destruct (peer_max_prefixes_restart _ !! ip).
  - unfold fib_update. destruct (nonempty _); same_pols.
Qed.
Lemma pols_fib_change now d : keeps pols id d (on_fib_change now d).
Proof.
  unfold on_fib_change. eapply (keeps_bind _ fst); [apply pols_recompute_all|]. intros [d1 c4].
  eapply (keeps_bind _ fst); [apply pols_recompute_all|]. intros [d2 c6].
  cbv zeta. apply keeps_ok. cbn [fst]. destruct (nonempty _), (nonempty _); same_pols.
Qed.
End Origins.

(** ** Steps of the daemon *)
Section Steps.
Context `{P : IpPrefixOps} {M : RouteMapOps} {HO : HashOrder}.
Context {L : IpPrefixLaws} {ML : RouteMapLaws} {HL : HashOrderLaw}.

Lemma goes_forgotten ip d d' : pols d' = pols d -> forgotten ip d d' -> goes d d'.
Proof.
  intros Ep Hf. split; [done|]. intros f n q r _ Hr. rewrite (proj1 (Hf f)) in Hr.
  destruct (decide (q = ip)) as [|Hq]; [done|]. left. split; [done|]. unfold held. rewrite (proj2 (Hf f)).
  by rewrite lookup_alter_ne by done.
Qed.
Lemma goes_pruned f ip s d d' : pols d' = pols d -> pruned f ip s d d' ->
  (forall f', f' <> f -> cands f' d' = cands f' d /\ adj_ribs_in (ds_fam d' f') = adj_ribs_in (ds_fam d f')) -> goes d d'.
Proof.
  intros Ep [Hc Hh] Ho. split; [done|]. intros f' n q r _ Hr. left. destruct (decide (f' = f)) as [->|Hf].
  - rewrite Hc in Hr. rewrite Hh. destruct (decide _); [done|]. by split.
  - destruct (Ho f' Hf) as [Ec Ei]. rewrite Ec in Hr. split; [done|]. unfold held. by rewrite Ei.
Qed.
Lemma goes_end_of_rib f ip d d' : daemon_ok d -> end_of_rib f ip d = Ok d' -> goes d d'.
Proof.
  intros Hd E. pose proof (pols_end_of_rib f ip d) as Ep. rewrite E in Ep. cbn in Ep.
  destruct (stale_nlri (ds_fam d f) !! ip) as [s|] eqn:Es.
  - destruct (end_of_rib_spec f ip d s Hd Es) as (d2 & E2 & Hp & Ho & _). rewrite E2 in E. apply Ok_inj in E as ->.
    by eapply goes_pruned.
  - unfold end_of_rib in E. rewrite ds_fam_upd in E. cbn [stale_nlri fam_set_eor] in E. rewrite Es in E.
    apply Ok_inj in E as <-. apply goes_same; [exact Ep|]. set (d1 := upd_fam _ d) in *. transitivity d1.
    { intros f'. by destruct f, f'. }
    destruct (strip_recompute d1) as [sd E]. transitivity (set_deferral sd d1); [done|]. by apply strip_tables.
Qed.
Lemma goes_side {f} (ip : IpAddr) pol oracle t lr ops (s : Side f) d d' : keeps_nlri pol -> side_refines ip pol oracle t lr ops s ->
  import_policy (pols d) f !! ip = Some pol -> loc_rib (ds_fam d f) = lr -> adj_ribs_in (ds_fam d f) !! ip = Some t ->
  loc_rib (ds_fam d' f) = s_rib s -> adj_ribs_in (ds_fam d' f) = <[ip := s_in s]> (adj_ribs_in (ds_fam d f)) ->
  forall n (q : IpAddr) r, cands f d' !! (n, q) = Some r ->
    (cands f d !! (n, q) = Some r /\ (is_Some (held f d q !! n) -> is_Some (held f d' q !! n)))
    \/ (admitted (pols d) f q r /\ is_Some (held f d' q !! n)).
Proof.
  intros Hk R Hp El Et Er Ei n q r. unfold cands, held. rewrite Er, Ei, (sr_candidates _ _ _ _ _ _ _ R), El.
  destruct (decide (q = ip)) as [->|Hq].
  - rewrite lookup_insert_eq. rewrite Et. intros Hr. rewrite (sr_in _ _ _ _ _ _ _ R).
    destruct (plan_peer ip pol oracle ops n r Hk _ (ari_routes t) Hr) as [H|[[raw Hraw] H]]; [by left|right].
    split; [by exists pol, raw|done].
  - rewrite plan_others by done. rewrite lookup_insert_ne by done. intros Hr. by left.
Qed.
Lemma goes_import ip ck msg d d' note : daemon_ok d -> msg_ok msg -> import_update ip ck msg d = Ok (d', note) -> goes d d'.
Proof.
  intros Hd Hm E. destruct (import_policies (policies (ds_peers d)) !! ip) as [pol|] eqn:Ep.
  2:{ unfold import_update in E. rewrite Ep in E. apply Ok_inj in E. injection E as <- _. by apply goes_same. }
  destruct (dk_known d Hd FamV4 ip ltac:(by exists pol)) as [_ [t4 Et4]].
  destruct (dk_known d Hd FamV6 ip ltac:(by exists pol)) as [[pol6 Ep6] [t6 Et6]].
  destruct (import_update_spec ip ck msg d pol pol6 t4 t6 Hd Hm Ep Ep6 Et4 Et6)
    as (s4 & s6 & d2 & E2 & R4 & R6 & Hi & Epr & _).
  rewrite E2 in E. apply Ok_inj in E.
  pose proof (pols_after_update ip ck msg s4 s6 (plan_notification (update_ctx ip pol pol6 (ck_route ck) d) msg) d2) as Eq.
  destruct (after_update_spec ip ck msg s4 s6 (plan_notification (update_ctx ip pol pol6 (ck_route ck) d) msg) d d2 Hi)
    as (d3 & note' & E3 & Hi' & _).
  rewrite E in Eq, E3. injection E3 as <- _. cbn [fst] in Eq.
  split; [rewrite Eq; unfold pols; by rewrite Epr|]. intros f n q r _. destruct Hi' as [A B C D _].
  destruct f; [eapply (goes_side ip pol)|eapply (goes_side ip pol6)]; try done.
  - by eapply nlri_terms_keep, (dk_policy d Hd FamV4).
  - by eapply nlri_terms_keep, (dk_policy d Hd FamV6).
Qed.

(** The steps that start no graceful restart, which puts the routes of the peer back
    unjudged. *)
Definition rov_step (d : DaemonState) (s : RouteStep) : Prop :=
  match s with
  | RsUpdate _ _ msg => msg_ok msg
  | RsDown ip reason _ => enter_gr ip reason d = false
  | _ => True
  end.
Definition is_import (s : RouteStep) : bool := match s with RsImport _ _ _ => true | _ => false end.
Lemma goes_kernel o4 o6 now d d' : daemon_ok d -> on_fib_change now (set_oracles o4 o6 d) = Ok d' -> goes d d'.
Proof.
  intros Hd E. pose proof (pols_fib_change now (set_oracles o4 o6 d)) as Ep. rewrite E in Ep. cbn in Ep.
  apply goes_same; [exact Ep|]. transitivity (set_oracles o4 o6 d); [by intros []|].
  set (d0 := set_oracles o4 o6 d) in *. pose proof (kernel_table_ok o4 o6 d Hd) as Hd0. fold d0 in Hd0. clearbody d0.
  unfold on_fib_change, rib_recompute_all in E.
  destruct (recompute_all_spec (loc_rib (ds_fam d0 FamV4)) (oracle (ds_fam d0 FamV4)) (fo_rib _ (dk_fam d0 Hd0 FamV4)))
    as (lr & cs & Er & _ & Hc & _). rewrite Er in E. cbn [mbind outcome_bind] in E.
  set (d1 := upd_fam (fam_set_rib lr) d0) in E. change (ds_fam d1 FamV6) with (ds_fam d0 FamV6) in E.
  destruct (recompute_all_spec (loc_rib (ds_fam d0 FamV6)) (oracle (ds_fam d0 FamV6)) (fo_rib _ (dk_fam d0 Hd0 FamV6)))
    as (lr6 & cs6 & Er6 & _ & Hc6 & _). rewrite Er6 in E. cbn [mbind outcome_bind] in E. apply Ok_inj in E.
  set (d2 := upd_fam (fam_set_rib lr6) d1) in E.
  assert (Es : strip d' = strip d2).
  { rewrite <- E. destruct (nonempty _), (nonempty _); autorewrite with strip; reflexivity. }
  transitivity d2; [|by apply strip_tables]. intros []; split; try done; unfold cands; cbn; done.
Qed.
Lemma step_goes s d d' : daemon_ok d -> rov_step d s -> is_import s = false -> route_step d s = Ok d' -> goes d d'.
Proof.
  intros Hd Hs Hi E. destruct s as [ip clock msg|ip reason now|ip|o4 o6 now|ip a now]; cbn [route_step rov_step] in *.
  - unfold on_route_update in E.
    destruct (is_eor_v4 msg).
    { destruct (end_of_rib FamV4 ip d) as [d1| | |] eqn:E1; cbn [mbind outcome_bind] in E; [|done..].
      apply Ok_inj in E as <-. by eapply goes_end_of_rib. }
    destruct (is_eor_v6 msg).
    { destruct (end_of_rib FamV6 ip d) as [d1| | |] eqn:E1; cbn [mbind outcome_bind] in E; [|done..].
      apply Ok_inj in E as <-. by eapply goes_end_of_rib. }
    destruct (rr_inbound ip d msg) as [msg'|] eqn:Er; cbn [mbind outcome_bind] in E; [|apply Ok_inj in E as <-; by apply goes_same].
    destruct (import_update ip clock msg' d) as [[d1 note]| | |] eqn:E1; cbn [mbind outcome_bind] in E; [|done..].
    apply Ok_inj in E as <-. eapply goes_import; [done|by eapply rr_inbound_ok|done].
  - unfold on_terminated in E. rewrite Hs in E.
    destruct (terminate_clean_forgets ip (leave_session ip d)) as (d1 & E1 & Hf);
      [exact (daemon_ok_core d (leave_session ip d) (core_leave_session ip d) Hd)|].
    rewrite E1 in E. apply Ok_inj in E as ->. pose proof (pols_terminate_clean ip (leave_session ip d)) as Ep.
    rewrite E1 in Ep. apply (goes_forgotten ip); [exact Ep|]. intros []; [exact (Hf FamV4)|exact (Hf FamV6)].
  - destruct (gr_deadline_forgets ip d Hd) as (d1 & E1 & Hf). rewrite E1 in E. apply Ok_inj in E as ->.
    pose proof (pols_deadline ip d) as Ep. rewrite E1 in Ep. by apply (goes_forgotten ip).
  - by eapply goes_kernel.
  - done.
Qed.
End Steps.

(** ** Judging again *)
Section Judging.
Context `{P : IpPrefixOps} {M : RouteMapOps} {HO : HashOrder}.
Context {L : IpPrefixLaws} {ML : RouteMapLaws} {HL : HashOrderLaw}.

Definition judged f (d : DaemonState) (ip : IpAddr) : Prop :=
  forall (n : Nlri f) r, cands f d !! (n, ip) = Some r -> admitted (pols d) f ip r.
Record rejudges (d d' : DaemonState) (ip : IpAddr) f : Prop := {
  rj_policies : pols d' = pols d;
  rj_backed : backed d';
  rj_here : judged f d' ip;
  rj_other : forall f' q, judged f' d q -> judged f' d' q;
}.
Lemma reevaluate_family_judges {f} ip now d d' : daemon_ok d -> peer_of (pols d) ip -> backed d ->
  reevaluate_family (f:=f) ip now d = Ok d' -> rejudges d d' ip f.
Proof.
  intros Hd Hp Hb E. destruct (dk_known d Hd f ip Hp) as [[pol Epol] [t Et]].
  unfold reevaluate_family in E. rewrite Et, Epol in E.
  assert (Hk : keeps_nlri pol) by (by eapply nlri_terms_keep, (dk_policy d Hd f)).
  destruct (reapply_import_policy_exact ip t (loc_rib (ds_fam d f)) pol (oracle (ds_fam d f)) Hk
    (fo_in _ (dk_fam d Hd f) ip t Et) (fo_rib _ (dk_fam d Hd f))) as (lr & cs & Er & _ & Hin & Hout & _).
  rewrite Er in E. cbn [mbind outcome_bind] in E. apply Ok_inj in E.
  assert (Es : strip d' = strip (upd_fam (fam_set_rib lr) d)) by (rewrite <- E; apply emit_propagate_strip).
  assert (Ep : pols d' = pols d) by (rewrite (strip_pols _ _ Es); apply pols_upd).
  pose proof (strip_tables _ _ Es) as Ht.
  assert (Hc : cands f d' = candidates lr) by (rewrite (proj1 (Ht f)); unfold cands; by destruct f).
  assert (Ho : forall f', f' <> f -> cands f' d' = cands f' d)
    by (intros f' Hf; rewrite (proj1 (Ht f')); by destruct f, f').
  assert (Hi : forall f' q, held f' d' q = held f' d q)
    by (intros f' q; unfold held; rewrite (proj2 (Ht f')); by destruct f, f').
  assert (Hh : held f d ip = ari_routes t) by (unfold held; by rewrite Et).
  assert (Hhere : forall n r, cands f d' !! (n, ip) = Some r -> admitted (pols d) f ip r /\ is_Some (held f d ip !! n)).
  { rewrite Hc, Hh. intros n r Hr. destruct (ari_routes t !! n) as [raw|] eqn:Eraw.
    - assert (Ha : accepted_route pol raw = Some r) by (etransitivity; [symmetry; exact (Hin n raw Eraw)|exact Hr]).
      split; [|done]. exists pol, raw. split; [done|]. unfold accepted_route in Ha.
      destruct (evaluate pol raw) as [r' []]; congruence.
    - pose proof (Hout n ip (or_intror Eraw)) as Ha. pose proof (Hb f n ip r Hp) as Hbn. rewrite Hh, Eraw in Hbn.
      destruct Hbn as [? ?]; [|done]. etransitivity; [symmetry; exact Ha|exact Hr]. }
  assert (Hother : forall f' (n : Nlri f') (q : IpAddr) r, ~ (f' = f /\ q = ip) -> cands f' d' !! (n, q) = Some r ->
    cands f' d !! (n, q) = Some r).
  { intros f' n q r Hq. destruct (decide (f' = f)) as [->|Hf]; [|by rewrite Ho].
    rewrite Hc. intros Hr. etransitivity; [symmetry; apply Hout; left; naive_solver|exact Hr]. }
  split; [done| | |].
  - intros f' n q r Hq Hr. rewrite Hi. rewrite Ep in Hq. destruct (decide (f' = f /\ q = ip)) as [[-> ->]|Hne];
      [by eapply Hhere|]. eapply Hb; [done|by eapply Hother].
  - intros n r Hr. rewrite Ep. by eapply Hhere.
  - intros f' q Hj n r Hr. rewrite Ep. destruct (decide (f' = f /\ q = ip)) as [[-> ->]|Hne]; [by eapply Hhere|].
    eapply Hj. by eapply Hother.
Qed.
Lemma reevaluate_peer_judges ip now d d' : daemon_ok d -> peer_of (pols d) ip -> backed d ->
  reevaluate_import_for_peer ip now d = Ok d' ->
  pols d' = pols d /\ backed d' /\ (forall f, judged f d' ip) /\ (forall f q, judged f d q -> judged f d' q).
Proof.
  intros Hd Hp Hb E. unfold reevaluate_import_for_peer in E.
  destruct (reevaluate_family_safe (f:=FamV4) ip now d Hd) as (d1 & E1 & H1 & _); [by apply (dk_known d Hd)|].
  rewrite E1 in E. cbn [mbind outcome_bind] in E.
  destruct (reevaluate_family_judges ip now d d1 Hd Hp Hb E1) as [P1 B1 J1 O1].
  destruct (reevaluate_family_judges ip now d1 d' H1 ltac:(by rewrite P1) B1 E) as [P2 B2 J2 O2].
  split_and!; [congruence|done| |auto]. intros []; auto.
Qed.
Lemma reevaluate_peers_judge ips now : forall d d', daemon_ok d -> Forall (peer_of (pols d)) ips -> backed d ->
  reevaluate_peers ips now d = Ok d' ->
  pols d' = pols d /\ backed d' /\ (forall ip f, ip ∈ ips -> judged f d' ip) /\ (forall f q, judged f d q -> judged f d' q).
Proof.
  induction ips as [|ip ips IH]; intros d d' Hd Hp Hb E; cbn [reevaluate_peers] in E.
  { apply Ok_inj in E as <-. split_and!; [done|done| |auto]. by intros ip f ?%not_elem_of_nil. }
  apply Forall_cons in Hp as [Hip Hp].
  destruct (reevaluate_peer_safe ip now d Hd) as (d1 & E1 & H1 & _); [intros f; by apply (dk_known d Hd)|].
  rewrite E1 in E. cbn [mbind outcome_bind] in E.
  destruct (reevaluate_peer_judges ip now d d1 Hd Hip Hb E1) as (P1 & B1 & J1 & O1).
  destruct (IH d1 d' H1) as (P2 & B2 & J2 & O2); [by rewrite P1|done|done|].
  split_and!; [congruence|done| |auto]. intros q f [->|Hq]%elem_of_cons; auto.
Qed.
Lemma judged_strip f d d' q : strip d' = strip d -> judged f d q -> judged f d' q.
Proof. intros E Hj n r Hr. rewrite (proj1 (strip_tables _ _ E f)) in Hr. rewrite (strip_pols _ _ E). by apply (Hj n). Qed.
Lemma backed_strip d d' : strip d' = strip d -> backed d -> backed d'.
Proof.
  intros E Hb f n ip r Hp Hr. pose proof (strip_tables _ _ E) as Ht. rewrite (tables_held _ _ f ip Ht).
  rewrite (proj1 (Ht f)) in Hr. rewrite (strip_pols _ _ E) in Hp. by eapply Hb.
Qed.
Lemma tables_set_other t ip a f q : q <> ip ->
  import_policy (tables_set_import_default t ip a) f !! q = import_policy t f !! q.
Proof. intros Hq. destruct f; apply (lookup_alter_ne (M:=gmap IpAddr)); congruence. Qed.
Lemma base_after_peer s t ip : peer_of (base_after s t) ip <-> peer_of t ip.
Proof.
  unfold peer_of. destruct s; cbn [base_after]; try done. destruct (import_policies t !! _); [|done]. apply alter_is_Some.
Qed.
Lemma backed_set t d : (forall ip, peer_of t ip -> peer_of (pols d) ip) -> backed d -> backed (set_policies t d).
Proof. intros Ht Hb f n ip r Hp%Ht. pose proof (Hb f n ip r Hp) as H. by destruct f. Qed.
(** A new import default judges the routes of its peer again. *)
Lemma import_default_judges ip a now d d' : daemon_ok d -> backed d -> set_import_default ip a now d = Ok d' ->
  pols d' = base_after (RsImport ip a now) (pols d) /\ backed d' /\ forall f q, peer_of (pols d) q -> judged f d q -> judged f d' q.
Proof.
  intros Hd Hb E. unfold set_import_default in E. cbn [base_after]. unfold pols at 2 3.
  destruct (import_policies (policies (ds_peers d)) !! ip) as [pol|] eqn:Ep; [|apply Ok_inj in E as <-; auto].
  destruct (dk_known d Hd FamV6 ip ltac:(by exists pol)) as [[pol6 Ep6] _]. cbn [import_policy] in Ep6. rewrite Ep6 in E.
  set (t := tables_set_import_default (policies (ds_peers d)) ip a) in *.
  destruct (reevaluate_import_for_peer ip now (set_policies t d)) as [d1| | |] eqn:E1; cbn [mbind outcome_bind] in E; [|done..].
  apply Ok_inj in E. assert (Ef : strip d' = strip d1) by (rewrite <- E; apply strip_flush_pending).
  assert (Ht : forall q, peer_of t q <-> peer_of (pols d) q) by (intros q; apply alter_is_Some).
  destruct (set_default_ok ip a d Hd) as [H1 _]. fold t in H1.
  destruct (reevaluate_peer_judges ip now (set_policies t d) d1 H1) as (P1 & B1 & J1 & O1);
    [apply Ht; by exists pol|apply backed_set; [by intros q; apply Ht|done]|exact E1|].
  split; [by rewrite (strip_pols _ _ Ef), P1|]. split; [by eapply backed_strip|]. intros f q _ Hj.
  apply (judged_strip f d1); [exact Ef|]. destruct (decide (q = ip)) as [->|Hq]; [apply J1|]. apply O1.
  intros n r Hr. destruct (Hj n r ltac:(by destruct f)) as (pol' & raw & Hp' & Ev). exists pol', raw.
  split; [|exact Ev]. rewrite <- Hp'. by apply tables_set_other.
Qed.
(** After a re-evaluation every candidate of a peer has passed its import policy as it
    reads now. *)
Lemma reevaluate_all_judges now d : daemon_ok d -> synced_rib d -> backed d ->
  exists d', reevaluate_all_import_policies now d = Ok d' /\ daemon_ok d' /\ synced_rib d'
    /\ pols d' = pols d /\ backed d' /\ forall ip f, peer_of (pols d) ip -> judged f d' ip.
Proof.
  intros Hd Hs Hb. destruct (safely_reevaluate_all now d Hd) as (d' & E & H' & S'). exists d'.
  split; [exact E|]. split; [done|]. split; [by apply S'|]. unfold reevaluate_all_import_policies in E.
  set (ips := (hash_order _).*1) in E.
  assert (Hips : forall ip, ip ∈ ips <-> peer_of (pols d) ip).
  { intros ip. unfold ips. rewrite (hash_order_perm _ (map_to_list _)). split.
    - intros ([ip' pol] & -> & Hin)%list_elem_of_fmap. apply elem_of_map_to_list in Hin. by exists pol.
    - intros [pol Hpol]. apply list_elem_of_fmap. exists (ip, pol). split; [done|]. by apply elem_of_map_to_list. }
  destruct (reevaluate_peers ips now d) as [d1| | |] eqn:E1; cbn [mbind outcome_bind] in E; [|done..].
  apply Ok_inj in E. destruct (reevaluate_peers_judge ips now d d1 Hd) as (P1 & B1 & J1 & _);
    [by apply Forall_forall; intros ip ?%Hips|done|done|].
  assert (Ef : strip d' = strip d1) by (rewrite <- E; apply strip_flush_pending).
  pose proof (strip_pols _ _ Ef) as Ep. pose proof (strip_tables _ _ Ef) as Ht.
  split; [congruence|]. split.
  - intros f n ip r Hp Hr. rewrite (tables_held _ _ f ip Ht). rewrite (proj1 (Ht f)) in Hr. rewrite Ep in Hp. by eapply B1.
  - intros ip f Hp n r Hr. rewrite (proj1 (Ht f)) in Hr. rewrite Ep. by apply (J1 ip f ltac:(by apply Hips) n).
Qed.
End Judging.

(** ** The three together *)
Section Together.
Context `{P : IpPrefixOps} {M : RouteMapOps} {HO : HashOrder}.
Context {L : IpPrefixLaws} {ML : RouteMapLaws} {HL : HashOrderLaw}.

Definition rov_event (w : World) (e : WorldEvent) : Prop :=
  match e with WDaemon s => rov_step (w_daemon w) s | _ => True end.
Fixpoint rov_run (w : World) (es : list WorldEvent) : Prop :=
  match es with
  | [] => True
  | e :: es => rov_event w e /\ forall w', world_step w e = Ok w' -> rov_run w' es
  end.
Definition watching (w : Watch) : bool := match w with WsWatching _ | WsJudging _ => true | _ => false end.
(** No synchronisation is under way. *)
Definition client_settled (w : World) : Prop := is_Some (w_half w) \/ phase (w_client w) = PIdle.
(** The watch has acted on all the client has told. *)
Definition caught_up (w : World) : Prop := w_watch w = WsWatching false.
Definition vetted (d : DaemonState) : Prop := forall f ip, peer_of (pols d) ip -> judged f d ip.
(** No route of a peer. *)
Definition fresh (d : DaemonState) : Prop := forall f (n : Nlri f) ip,
  peer_of (pols d) ip -> cands f d !! (n, ip) = None.

Record world_ok (las : Z) (g : gmap IpAddr PeerSpec) (w : World) : Prop := {
  wo_daemon : daemon_ok (w_daemon w);
  wo_synced : synced_rib (w_daemon w);
  wo_spec : tables_ok las g (w_base w);
  wo_local_as : w_local_as w = las;
  wo_own_as : installed (w_watch w) = false -> local_as (ds_local (w_daemon w)) = las;
  wo_policies : pols (w_daemon w) =
    if installed (w_watch w) then install_rpki_import_terms (w_base w) (table (w_client w)) las else w_base w;
  wo_backed : backed (w_daemon w);
  wo_fresh : watching (w_watch w) = false -> fresh (w_daemon w);
  wo_half : forall c, w_half w = Some c -> table c = table (w_client w) /\ changed c = changed (w_client w);
  wo_vetted : caught_up w -> client_settled w -> vetted (w_daemon w);
}.

Lemma fresh_backed d : fresh d -> backed d.
Proof. intros Hf f n ip r Hp. by rewrite Hf. Qed.
Lemma fresh_vetted d : fresh d -> vetted d.
Proof. intros Hf f ip Hp n r. by rewrite Hf. Qed.
Lemma fresh_set t d : (forall ip, peer_of t ip -> peer_of (pols d) ip) -> fresh d -> fresh (set_policies t d).
Proof. intros Ht Hf f n ip Hp%Ht. pose proof (Hf f n ip Hp) as H. by destruct f. Qed.
Lemma installed_peer t rtr las ip : peer_of (install_rpki_import_terms t rtr las) ip <-> peer_of t ip.
Proof. unfold peer_of. cbn. by rewrite lookup_fmap, fmap_is_Some. Qed.
Lemma nlri_terms_drop {f} (pol : Policy (Route f)) t : nlri_terms (add_term pol t) -> nlri_terms pol.
Proof. by intros [H _]%Forall_app. Qed.
(** The terms read the table as it is: another table, other terms. *)
Lemma reinstall_ok base rtr rtr' las d : daemon_ok d -> pols d = install_rpki_import_terms base rtr las ->
  daemon_ok (set_policies (install_rpki_import_terms base rtr' las) d).
Proof.
  intros Hd E. unfold pols in E. pose proof (dk_policy d Hd) as Hp. pose proof (dk_export d Hd) as Hx.
  rewrite E in Hp, Hx. apply set_policies_ok; [done| | |exact Hx].
  - intros [] ip pol; cbn [import_policy install_rpki_import_terms import_policies import_policies_v6];
      rewrite lookup_fmap_Some; intros (p0 & <- & Hp0); (apply nlri_terms_add; [|done]); eapply nlri_terms_drop.
    + apply (Hp FamV4 ip). cbn. by rewrite lookup_fmap, Hp0.
    + apply (Hp FamV6 ip). cbn. by rewrite lookup_fmap, Hp0.
  - rewrite E. intros [] ip; cbn; by rewrite !lookup_fmap, !fmap_is_Some.
Qed.
(** What the installed policies admit is not invalid by the table they read. *)
Lemma admitted_valid {f} las g base rtr ip (r : Route f) : tables_ok las g base ->
  admitted (install_rpki_import_terms base rtr las) f ip r -> RoaValidityCondition rtr Invalid las r = false.
Proof.
  intros Hg (pol & raw & Hp & Ev). pose proof (proj1 (tables_ok_op las g base (DaemonPolicy.OpInstallRpki rtr) Hg f) ip) as Ha.
  cbn [spec_op table_op] in Ha. rewrite Hp, lookup_fmap in Ha. destruct (g !! ip) as [x|] eqn:Ex; [|inversion Ha].
  cbn in Ha. inversion Ha as [x' pol' Hx|]; subst. rewrite (import_eval las _ pol raw Hx) in Ev.
  apply import_verdict_accept in Ev as (_ & _ & Hv). apply Hv. cbn [ps_rovs].
  apply elem_of_app. right. by apply list_elem_of_singleton.
Qed.
(** The client comes to rest only at the end of a synchronisation, with a new generation. *)
Lemma settles_notified c now ev c' out : client_step c now ev = Some (c', out) -> phase c' = PIdle -> changed c' <> changed c.
Proof.
  assert (Hg : (changed c + 1) `mod` 2 ^ 64 <> changed c).
  { intros E. pose proof (Z.mod_pos_bound (changed c + 1) (2 ^ 64) ltac:(lia)) as Hb.
    destruct (decide (changed c + 1 < 2 ^ 64)); [rewrite Z.mod_small in E; lia|].
    assert (changed c + 1 = 2 ^ 64) as Em by lia. rewrite Em, Z.mod_same in E by lia. lia. }
  unfold client_step. destruct (phase c) as [|fb fr|sid|] eqn:Ep, ev as [| |v pdu|e|];
    intros E%(f_equal (option_map fst)); cbn [option_map fst] in E; try discriminate E; apply (inj Some) in E as <-; try done.
  - destruct pdu; cbn [on_response]; try done.
    destruct (_ && _); [done|]. by destruct (_ =? _).
  - destruct pdu; cbn [on_diff fst set_table phase]; try done; try congruence. destruct (negb _); [done|]. by destruct intervals.
  - by destruct pdu.
Qed.
Lemma sync_ends_table c ev h now c' out : sync_ends c ev = Some h -> client_step c now ev = Some (c', out) ->
  table c' = table h /\ changed c' = changed h /\ changed h <> changed c.
Proof.
  intros Eh E. assert (Hc : table c' = table h /\ changed c' = changed h /\ phase c' = PIdle).
  { unfold sync_ends in Eh. unfold client_step in E. destruct (phase c) as [|fb fr|sid|]; try done.
    destruct ev as [| |v pdu|e|]; try done. destruct pdu as [| | | | | |sid' serial iv| | |]; try done.
    destruct (sid' =? sid) eqn:Es; [|done]. cbn [on_diff] in E. rewrite Es in E. cbn [negb] in E.
    apply (inj Some) in E, Eh. injection E as <- _. subst h. by destruct iv. }
  destruct Hc as (Ht & Eg & Ep). split_and!; [done|done|]. rewrite <- Eg. by eapply settles_notified.
Qed.

Lemma with_watch_ok las g w s d : world_ok las g w -> daemon_ok d -> synced_rib d -> backed d -> pols d = pols (w_daemon w) ->
  installed s = installed (w_watch w) -> (installed s = false -> local_as (ds_local d) = local_as (ds_local (w_daemon w))) ->
  (watching s = false -> fresh d) -> (s = WsWatching false -> client_settled w -> vetted d) -> world_ok las g (with_watch s d w).
Proof.
  intros [] Hd Hs Hb Ep Ei Ha Hf Hv. split; cbn [with_watch w_client w_half w_base w_local_as w_watch w_daemon]; try done.
  - intros Hi. rewrite Ha by done. rewrite Ei in Hi. auto.
  - by rewrite Ep, Ei.
Qed.
Lemma set_policies_same d : set_policies (policies (ds_peers d)) d = d.
Proof. destruct d as [? ? ? ? p ? ? ? ?]. by destruct p. Qed.
Lemma client_turn_ok las g c half w : world_ok las g w ->
  (forall c', half = Some c' -> table c' = table c /\ changed c' = changed c) ->
  (is_Some half \/ phase c = PIdle -> changed c = changed (w_client w) ->
     table c = table (w_client w) /\ client_settled w) ->
  world_ok las g (client_turn c half w).
Proof.
  intros [Hd Hs Hg Ea Eo Ep Hb Hf Hh Hv] Hhalf Hq.
  set (t' := install_rpki_import_terms (w_base w) (table c) las).
  assert (Ed : w_daemon (client_turn c half w) = if installed (w_watch w) then set_policies t' (w_daemon w) else w_daemon w)
    by (cbn; by rewrite Ea).
  assert (Ei : installed (w_watch (client_turn c half w)) = installed (w_watch w))
    by (cbn; destruct (_ =? _); by destruct (w_watch w)).
  assert (Ew : watching (w_watch (client_turn c half w)) = watching (w_watch w))
    by (cbn; destruct (_ =? _); by destruct (w_watch w)).
  assert (Ht : installed (w_watch w) = true -> forall ip, peer_of t' ip -> peer_of (pols (w_daemon w)) ip).
  { intros Hi ip. rewrite Ep, Hi. unfold t'. by rewrite !installed_peer. }
  split; rewrite ?Ed, ?Ei, ?Ew; try done.
  - destruct (installed (w_watch w)); [|done]. by eapply reinstall_ok.
  - destruct (installed (w_watch w)); [|done]. intros f. by destruct f; [apply (Hs FamV4)|apply (Hs FamV6)].
  - destruct (installed (w_watch w)); [done|]. auto.
  - by destruct (installed (w_watch w)).
  - destruct (installed (w_watch w)); [|done]. apply backed_set; auto.
  - intros Hw. destruct (installed (w_watch w)); [|auto]. apply fresh_set; auto.
  - unfold caught_up. cbn [client_turn w_watch w_half w_client client_settled]. intros Hc Hset.
    destruct (Z.eqb_spec (changed c) (changed (w_client w))) as [Eg|]; [|by destruct (w_watch w)].
    destruct (Hq Hset Eg) as [Et Hold]. specialize (Hv Hc Hold). rewrite Hc in *. cbn [installed] in *.
    assert (Et' : t' = policies (ds_peers (w_daemon w))) by (unfold pols in Ep; rewrite Ep; unfold t'; by rewrite Et).
    rewrite Et', set_policies_same. exact Hv.
Qed.
(** The watch moves on and the daemon stays as it is. *)
Lemma watch_moves las g w s : world_ok las g w -> installed s = installed (w_watch w) ->
  (watching (w_watch w) = true -> watching s = true) -> (s = WsWatching false -> client_settled w -> vetted (w_daemon w)) ->
  world_ok las g (with_watch s (w_daemon w) w).
Proof.
  intros Hw Ei Ew Hv. apply with_watch_ok; try apply Hw; try done. intros Hs. apply Hw.
  destruct (watching (w_watch w)); [by rewrite Ew in Hs|done].
Qed.
(** A re-evaluation in the world *)
Lemma reevaluated_ok las g w now u : world_ok las g w -> installed (w_watch w) = true ->
  exists w', (d ← reevaluate_all_import_policies now (w_daemon w); Ok (with_watch (WsWatching u) d w)) = Ok w' /\ world_ok las g w'
    /\ w_watch w' = WsWatching u /\ w_client w' = w_client w /\ w_half w' = w_half w.
Proof.
  intros Hw Hi. destruct (reevaluate_all_judges now (w_daemon w)) as (d & E & Hd & Hs & Ep & Hb & Hj); [apply Hw..|].
  exists (with_watch (WsWatching u) d w). rewrite E. split; [done|]. split; [|done]. apply with_watch_ok; try done.
  intros _ _ f ip Hp. apply Hj. by rewrite <- Ep.
Qed.
(** What a step of the daemon does to the routes judged. *)
Lemma step_judges s d d' : daemon_ok d -> rov_step d s -> backed d -> route_step d s = Ok d' ->
  pols d' = base_after s (pols d) /\ backed d' /\ (vetted d -> vetted d').
Proof.
  intros Hd Hs Hb E. destruct (is_import s) eqn:Ei.
  - destruct s as [| | | |ip a now]; try done. destruct (import_default_judges ip a now d d' Hd Hb E) as (Ep & Hb' & Hj).
    split; [done|]. split; [done|]. intros Hv f q Hq. rewrite Ep in Hq. apply base_after_peer in Hq. apply Hj; [done|by apply Hv].
  - pose proof (step_goes s d d' Hd Hs Ei E) as Hg. split; [rewrite (go_policies _ _ Hg); by destruct s|].
    split; [by eapply goes_backed|]. intros Hv f ip Hp n r Hr. rewrite (go_policies _ _ Hg) in Hp |- *.
    destruct (go_cands _ _ Hg f n ip r Hp Hr) as [[Hr' _]|[Ha _]]; [by apply (Hv f ip Hp n)|done].
Qed.
Lemma base_after_ok las g s t : tables_ok las g t -> tables_ok las g (base_after s t).
Proof.
  intros Hg. destruct s as [| | | |ip a now]; try done. cbn [base_after]. destruct (import_policies t !! ip); [|done].
  exact (tables_ok_op las g t (DaemonPolicy.OpSetImportDefault ip a) Hg).
Qed.
Lemma base_after_install s t rtr las :
  base_after s (install_rpki_import_terms t rtr las) = install_rpki_import_terms (base_after s t) rtr las.
Proof.
  destruct s as [| | | |ip a now]; try done. cbn [base_after install_rpki_import_terms import_policies].
  rewrite lookup_fmap. destruct (import_policies t !! ip); [|done]. cbn.
  unfold tables_set_import_default, install_rpki_import_terms. cbn. f_equal; apply map_eq; intros q;
    rewrite !lookup_fmap, !lookup_alter, !lookup_fmap; destruct (decide _); try done;
    [by destruct (import_policies t !! ip)|by destruct (import_policies_v6 t !! ip)].
Qed.
Lemma daemon_step_ok las g w s : world_ok las g w -> watching (w_watch w) = true -> rov_step (w_daemon w) s ->
  exists d, route_step (w_daemon w) s = Ok d
    /\ world_ok las g (with_base (base_after s (w_base w)) (with_watch (w_watch w) d w)).
Proof.
  intros Hw Hi Hs. destruct (route_step_ok s (w_daemon w)) as (d & E & Hd & Hsy); [apply Hw..|by destruct s|].
  exists d. split; [done|]. destruct Hw as [Hd0 Hs0 Hg Ea Eo Ep Hb Hf Hh Hv].
  destruct (step_judges s _ d Hd0 Hs Hb E) as (Ep' & Hb' & Hv').
  assert (Hin : installed (w_watch w) = true) by (by destruct (w_watch w)).
  split; cbn [with_base with_watch w_client w_half w_base w_local_as w_watch w_daemon]; try done.
  - by apply base_after_ok.
  - by rewrite Hin.
  - rewrite Ep', Ep, Hin. apply base_after_install.
  - by rewrite Hi.
  - intros Hc Hset. apply Hv', Hv; done.
Qed.
Lemma install_ok las g w u : world_ok las g w -> w_watch w = WsSubscribed u ->
  world_ok las g (with_watch (WsInstalled u) (install_rpki (table (w_client w)) (w_daemon w)) w).
Proof.
  intros [Hd Hs Hg Ea Eo Ep Hb Hf Hh Hv] Ew. rewrite Ew in *. cbn [installed watching] in *. unfold pols in Ep.
  destruct (install_rpki_advances (table (w_client w)) (w_daemon w) Hd) as [Hd' Hs'].
  assert (Hp : forall ip, peer_of (install_rpki_import_terms (policies (ds_peers (w_daemon w))) (table (w_client w))
    (local_as (ds_local (w_daemon w)))) ip -> peer_of (pols (w_daemon w)) ip) by (intros ip; apply installed_peer).
  split; cbn [with_watch w_client w_half w_base w_local_as w_watch w_daemon]; try done.
  - cbn [installed]. unfold pols, install_rpki. cbn [set_policies set_peers ds_peers policies]. by rewrite Ep, Eo.
  - by apply backed_set.
  - intros _. apply fresh_set; [done|by apply Hf].
Qed.
Lemma world_step_ok las g w e : world_ok las g w -> rov_event w e ->
  exists w', world_step w e = Ok w' /\ world_ok las g w'.
Proof.
  intros Hw He. assert (Hst : exists w', Ok (E:=False) w = Ok w' /\ world_ok las g w') by (by exists w).
  destruct e as [now ev|now ev| | | |now| |now|s]; cbn [world_step].
  - destruct (w_half w) eqn:Eh; [done|]. destruct (client_step _ now ev) as [[c out]|] eqn:E; [|done].
    eexists. split; [reflexivity|]. apply client_turn_ok; [done|done|]. intros [[? ?]|Hi] Hc; [done|].
    exfalso. by eapply settles_notified.
  - destruct (w_half w) eqn:Eh; [done|]. destruct (sync_ends _ ev) as [h|] eqn:E1; [|done].
    destruct (client_step _ now ev) as [[c out]|] eqn:E2; [|done].
    destruct (sync_ends_table _ _ _ _ _ _ E1 E2) as (Et & Eg & Hne). eexists. split; [reflexivity|].
    apply client_turn_ok; [done|by intros c' [= <-]|done].
  - destruct (w_half w) as [c|] eqn:Eh; [|done]. eexists. split; [reflexivity|].
    destruct (wo_half _ _ _ Hw c Eh) as [Et Eg]. apply client_turn_ok; [done|done|].
    intros _ _. split; [done|]. left. by rewrite Eh.
  - destruct (w_half w), (w_watch w) eqn:Ew; try done; (eexists; split; [reflexivity|]);
      by (apply watch_moves; rewrite ?Ew).
  - destruct (w_half w), (w_watch w) eqn:Ew; try done; (eexists; split; [reflexivity|]); by apply install_ok.
  - destruct (w_half w), (w_watch w) eqn:Ew; try done;
      (destruct (connected _);
        [destruct (reevaluated_ok las g w now unseen Hw) as (w' & E & Hw' & _); [by rewrite Ew|by exists w']|]);
      (eexists; split; [reflexivity|]).
    all: apply watch_moves; rewrite ?Ew; try done. all: intros _ _; apply fresh_vetted, Hw; by rewrite Ew.
  - destruct (w_half w), (w_watch w) as [| | |[]|] eqn:Ew; try done; (eexists; split; [reflexivity|]);
      by (apply watch_moves; rewrite ?Ew).
  - destruct (w_half w), (w_watch w) eqn:Ew; try done;
      (destruct (reevaluated_ok las g w now unseen Hw) as (w' & E & Hw' & _); [by rewrite Ew|by exists w']).
  - cbn [rov_event] in He. pose proof (daemon_step_ok las g w s Hw) as H.
    destruct (w_half w), (w_watch w) eqn:Ew; try done;
      (destruct (H ltac:(done) He) as (d & E & Hd); rewrite E; eexists; split; [reflexivity|exact Hd]).
Qed.
Lemma world_run_ok las g es : forall w, world_ok las g w -> rov_run w es ->
  exists w', world_run w es = Ok w' /\ world_ok las g w'.
Proof.
  induction es as [|e es IH]; intros w Hw Hr; cbn [world_run rov_run] in *; [by exists w|]. destruct Hr as [He Hr].
  destruct (world_step_ok las g w e Hw He) as (w1 & E & Hw1). rewrite E. cbn [mbind outcome_bind]. apply IH; auto.
Qed.
Lemma rov_run_always es : Forall (fun e => forall w, rov_event w e) es -> forall w, rov_run w es.
Proof. induction 1 as [|e es He _ IH]; intros w; [done|]. split; [apply He|auto]. Qed.

(** No route of a peer among the candidates is invalid by the table of the client. *)
Definition rov_clean (w : World) : Prop := forall f (n : Nlri f) ip r,
  peer_of (pols (w_daemon w)) ip -> cands f (w_daemon w) !! (n, ip) = Some r ->
  let prefix := nlri_prefix (nlri r) in
  roa_lookup (table (w_client w)) f (prefix_ip prefix) (prefix_mask prefix)
    (default 0 (Path.origin_as (br_as_path r) (w_local_as w))) <> Invalid.
Lemma vetted_clean las g w : world_ok las g w -> installed (w_watch w) = true -> vetted (w_daemon w) -> rov_clean w.
Proof.
  intros Hw Hi Hv f n ip r Hp Hr. pose proof (Hv f ip Hp n r Hr) as Ha. rewrite (wo_policies _ _ _ Hw), Hi in Ha.
  apply (admitted_valid las g _ _ ip r (wo_spec _ _ _ Hw)), bool_decide_eq_false in Ha.
  rewrite (wo_local_as _ _ _ Hw). exact Ha.
Qed.
(** What the watch does from where it waits or judges until it has caught up. *)
Definition watch_turns (now : IpAddr -> Instant) : list WorldEvent := [WReevaluate now; WSeen; WReevaluate now].
Definition catches_up las g w (es : list WorldEvent) : Prop := exists w',
  world_run w es = Ok w' /\ world_ok las g w' /\ caught_up w' /\ w_client w' = w_client w /\ w_half w' = w_half w.
Lemma catches_up_step las g w w1 e es : world_step w e = Ok w1 -> w_client w1 = w_client w -> w_half w1 = w_half w ->
  catches_up las g w1 es -> catches_up las g w (e :: es).
Proof.
  intros E Ec Eh (w' & E' & Hw & Hc & Ec' & Eh'). exists w'. cbn [world_run]. rewrite E.
  split; [exact E'|]. split_and!; [done|done|congruence|congruence].
Qed.
Lemma judges las g w now u es : world_ok las g w -> w_watch w = WsJudging u ->
  (forall w1, world_ok las g w1 -> w_watch w1 = WsWatching u -> catches_up las g w1 es) ->
  catches_up las g w (WReevaluate now :: es).
Proof.
  intros Hw Ew Hes. destruct (reevaluated_ok las g w now u Hw) as (w1 & E & Hw1 & Hc & Ecl & Eh); [by rewrite Ew|].
  eapply (catches_up_step _ _ _ w1); [|done|done|by apply Hes].
  unfold world_step. rewrite Ew, <- E. by destruct (w_half w).
Qed.
Lemma judges_nothing las g w now u es : w_watch w = WsWatching u -> catches_up las g w es ->
  catches_up las g w (WReevaluate now :: es).
Proof. intros Ew. apply catches_up_step; [|done..]. unfold world_step. rewrite Ew. by destruct (w_half w). Qed.
Lemma watch_catches_up las g w now : world_ok las g w -> watching (w_watch w) = true -> catches_up las g w (watch_turns now).
Proof.
  intros Hw Hi. assert (Hs : forall u w1, world_ok las g w1 -> w_watch w1 = WsWatching u ->
    catches_up las g w1 [WSeen; WReevaluate now]).
  { intros [] w1 Hw1 Ew.
    - eapply (catches_up_step _ _ _ (with_watch (WsJudging false) (w_daemon w1) w1)); [|done|done|].
      + unfold world_step. rewrite Ew. by destruct (w_half w1).
      + eapply judges; [by apply watch_moves; rewrite ?Ew|done|]. intros w2 Hw2 Hc. by exists w2.
    - eapply (catches_up_step _ _ _ w1); [unfold world_step; rewrite Ew; by destruct (w_half w1)|done|done|].
      eapply judges_nothing; [done|]. by exists w1. }
  unfold watch_turns. destruct (w_watch w) as [| | |u|u] eqn:Ew; try done.
  - eapply judges_nothing; [done|]. by eapply Hs.
  - eapply judges; [done|done|]. apply Hs.
Qed.

(** The daemon as [main] starts it, with the client spawned. *)
Definition world_started (rtr : RtrConfig) (cfg : DaemonConfig) (startup now daemon_start : Instant)
    (sender : IpAddr -> Sender) (o4 o6 : NextHopOracle) (fib_writer : bool) : World :=
  world_init rtr (el_daemon (started cfg startup now daemon_start sender o4 o6 fib_writer)).
Lemma world_started_ok rtr cfg startup now t sender o4 o6 fw :
  world_ok (dc_local_as cfg) (spec_new (dc_local_as cfg) (dc_peers cfg)) (world_started rtr cfg startup now t sender o4 o6 fw).
Proof.
  destruct (started_ok cfg startup now t sender o4 o6 fw) as [[Hd _] Hs].
  assert (Hf : fresh (el_daemon (started cfg startup now t sender o4 o6 fw)))
    by (intros [] n ip _; destruct fw; apply lookup_empty).
  pose proof (tables_ok_new (dc_local_as cfg) (dc_peers cfg)) as Hg.
  split; try done; cbn [world_started world_init w_base w_local_as w_daemon]; try (by destruct fw).
  by apply fresh_backed.
Qed.

(** C21: Route origin validation holds end to end, for a daemon with the peers of
    its configuration. From start-up, whatever the configuration, and however the
    RTR client, the task that watches it and the daemon take turns, no step panics;
    whenever the watch has acted on every change it was told of and the client rests
    after a completed synchronisation ([client_settled]), no route of a configured
    peer is a candidate that RFC 6811 calls invalid by the table of the client; and
    three turns of the watch are enough to get there. The turns of the daemon are
    UPDATEs, ends of sessions without a graceful restart, restart deadlines, changes
    of the kernel's table and of import defaults; peers added and removed, sessions
    established and originations are no turns here (a peer added at run time is not
    validated at all, [dynamic_peer_without_rov]). A client whose connection broke
    in the middle of a synchronisation is not at rest: its table has changed and the
    watch is not told ([interrupted_sync_untold]). *)
Theorem rov_holds rtr cfg startup now t sender o4 o6 fw es :
  rov_run (world_started rtr cfg startup now t sender o4 o6 fw) es ->
  exists w, world_run (world_started rtr cfg startup now t sender o4 o6 fw) es = Ok w
    /\ (caught_up w -> client_settled w -> rov_clean w)
    /\ (watching (w_watch w) = true -> client_settled w -> forall now, exists w',
          world_run w (watch_turns now) = Ok w' /\ w_client w' = w_client w /\ rov_clean w').
Proof.
  intros Hr. destruct (world_run_ok _ _ es _ (world_started_ok rtr cfg startup now t sender o4 o6 fw) Hr) as (w & E & Hw).
  exists w. split; [exact E|]. split.
  - intros Hc Hset. eapply vetted_clean; [exact Hw|by rewrite Hc|by apply Hw].
  - intros Hi Hset n. destruct (watch_catches_up _ _ w n Hw Hi) as (w' & E' & Hw' & Hc & Ecl & Eh).
    exists w'. split; [exact E'|]. split; [exact Ecl|]. eapply vetted_clean; [exact Hw'|by rewrite Hc|].
    apply Hw'; [exact Hc|]. unfold client_settled. by rewrite Ecl, Eh.
Qed.
End Together.

(** A synchronisation that breaks off changes the table and tells nobody: what was
    received of the diff stays in it, the client waits to connect again, and the watch
    is told of no change.  The handle is documented to fire whenever the table changes. *)
Theorem interrupted_sync_untold `{P : IpPrefixOps} {M : RouteMapOps} c expected now now' v p err : phase c = PDiff expected -> is_diff_pdu p = true ->
  exists c1 c2, client_step c now (EvPdu v p) = Some (c1, []) /\ client_step c1 now' (EvReadError err) = Some (c2, [])
    /\ table c2 = apply_prefix_pdu (table c) p /\ changed c2 = changed c /\ phase c2 = PConnect.
Proof.
  intros Hp Hd.
  unfold client_step. rewrite Hp. destruct p; try done; cbn [on_diff];
    (eexists _, _; split; [reflexivity|]); cbn [set_table phase]; rewrite Hp; (split; [reflexivity|]); by split_and!.
Qed.

(** ** A route that a new authorisation makes invalid *)
Section Applied.
#[local] Existing Instances ModelPrefix.ops ModelPrefix.laws ModelRouteMap.ops ModelRouteMap.laws.
#[local] Existing Instances ModelHashOrder.order ModelHashOrder.order_law.

Definition rov_start : World :=
  world_started (mkRtrConfig 3600 600 V1) one_cfg 0 0 0 (fun _ => mkSender 8 []) AlwaysReachable AlwaysReachable true.
(** The peer announces its route before the first synchronisation; the cache then
    authorises another AS for the prefix, and the client tells the watch. *)
Definition rov_before : list WorldEvent :=
  [WSubscribe; WInstall; WCheck (fun _ => 0); WDaemon (RsUpdate one_ip (one_clocks 0%nat) (imp_msg imp_attrs));
   WClient 1 EvConnected; WClient 2 (EvPdu V1 (CacheResponse 5));
   WClient 3 (EvPdu V1 (Ipv4Prefix true 8 8 167772160 65020))].
Definition rov_events : list WorldEvent :=
  rov_before ++ [WSyncEnds 4 (EvPdu V1 (EndOfData 5 1 None)); WSeen; WReevaluate (fun _ => 0); WStatus].
Lemma rov_events_ok w : rov_run w rov_events.
Proof. apply rov_run_always. repeat (apply Forall_cons; split; [intros ?; first [exact I|exact imp_full_ok]|]). apply Forall_nil_2. Qed.
(** The cache authorises another AS for 10.0.0.0/8 and the connection breaks. *)
Definition diff_client : Client := set_phase (client_new (mkRtrConfig 3600 600 V1)) (PDiff 5).
Lemma interrupted_sync_untold_witness : exists c,
  table c = apply_prefix_pdu roa_new (Ipv4Prefix true 8 8 167772160 65020) /\ changed c = 0 /\ phase c = PConnect.
Proof.
  destruct (interrupted_sync_untold diff_client 5 1 2 V1 (Ipv4Prefix true 8 8 167772160 65020) RtrIo eq_refl eq_refl)
    as (c1 & c2 & _ & _ & H). exists c2. exact H.
Defined.
Definition rov_candidates (w : Outcome False World) : list Z :=
  match w with
  | Ok w => map (fun nr => prefix_ip (nlri_prefix (nlri nr.2))) (map_to_list (cands FamV4 (w_daemon w)))
  | _ => []
  end.
(** The route is accepted first and gone in the end. *)
Lemma rov_sample : rov_candidates (world_run rov_start rov_before) = [167772160]
  /\ rov_candidates (world_run rov_start rov_events) = [].
Proof. split; vm_compute; reflexivity. Qed.
Definition rov_quiet (w : Outcome False World) : bool :=
  match w with
  | Ok w => match w_watch w, phase (w_client w) with WsWatching false, PIdle => true | _, _ => false end
  | _ => false
  end.
Lemma rov_quiet_ok w : rov_quiet (Ok w) = true -> caught_up w /\ client_settled w.
Proof.
  unfold rov_quiet, caught_up, client_settled. destruct (w_watch w) as [| | |[]|]; try done.
  destruct (phase (w_client w)); try done. by split; [|right].
Qed.
Lemma rov_holds_witness : exists w, world_run rov_start rov_events = Ok w /\ rov_clean w.
Proof.
  destruct (rov_holds (mkRtrConfig 3600 600 V1) one_cfg 0 0 0 (fun _ => mkSender 8 []) AlwaysReachable AlwaysReachable true
    rov_events (rov_events_ok _)) as (w & E & Hc & _).
  fold rov_start in E. exists w. split; [exact E|]. assert (Hq : rov_quiet (world_run rov_start rov_events) = true)
    by (vm_compute; reflexivity).
  rewrite E in Hq. apply rov_quiet_ok in Hq as [H1 H2]. exact (Hc H1 H2).
Defined.
End Applied.
